(* ===== verification/_CoqProject ===== *)
-Q . S2P
Prelude.v
Entity.v
GoStrings.v
Rfc3339.v
Json.v
Headless.v
StateCache.v
Digest.v
Models.v
Queries.v
Ports.v
PermissionUsecase.v
Repositories.v
RoleUsecase.v
GroupUsecase.v
UserUsecase.v
StoreInvariant.v
PermissionInvariant.v
PermissionSystem.v
PermissionDecisions.v
PermissionSafety.v
Registration.v
NoEscalation.v
PermissionTheorems.v
Resources.v
SessionRepo.v
Messages.v
PlainJson.v
RpcPermission.v
RpcAccess.v
AuthTokens.v
AuthSafety.v
RpcServices.v
RpcTheorems.v
Notification.v
NotificationService.v
Claims.v
SessionUsecase.v
SessionSafety.v
SessionTheorems.v
SessionSearch.v
Slots.v
ScheduledOps.v
ScheduledRepo.v
ScheduledUsecase.v
ScheduledExecutor.v
ScheduledSystem.v
ScheduledRpc.v
ScheduledSafety.v
ScheduledTheorems.v
ScheduledFindings.v
HostEvents.v
SessionRedelivery.v
SessionWitness.v
AsyncJobs.v
AsyncExecutor.v
AsyncSystem.v
AsyncSafety.v
HostQueries.v
HostRepo.v
HostUsecase.v
HostSafety.v
HostTheorems.v
HostLifecycle.v
HostWitness.v
HostUpgrade.v
HostUpgradeSafety.v
HostUpgradeExact.v
DockerConnector.v
DockerTheorems.v
Accounts.v
ControllerPorts.v
ResoniteLink.v
Controller.v
ControllerSafety.v
ControllerTheorems.v
Skyfrost.v
SkyfrostTheorems.v
Supervisor.v
Operations.v
