(* ===== verification/Prelude.v ===== *)
(** * Headless controller

    A model of the controller of Resonite headless hosts of this repository
    (Go, under [src/]): a server that answers RPCs about users, groups, roles,
    accounts, hosts, sessions and scheduled operations over PostgreSQL, runs
    hosts as Docker containers, relays to them, and works in the background:
    it executes jobs and scheduled operations, follows the events of hosts and
    containers, and rolls hosts onto new images.  The development covers the
    tables and statements, the repositories, the use cases, the services with
    their interceptors, the workers, the connector and the clients.

    ** How the program is modelled

    - A Go function that may fail or touch the database is a computation
      [Go A = World → Result A * World] ([Prelude], [Models]).  The world
      holds the tables, the cache of session states, the clock, the random
      sources and a schedule of statement failures: every SQL statement takes
      the next entry and fails with a driver error when it is [true], so each
      theorem that does not ask for an empty schedule covers every pattern of
      database failures.  What was written before an error stays written,
      unless the code runs it in a transaction ([RunInTx] of
      [src/db/new.go]).
    - A Go error is what the code observes of it: the sentinels it wraps
      ([errors.Is]), whether the driver failed, its text and its connect code.
      A panic is an error value [EPanic] that unwinds as errors do; where the
      code recovers it, so does the model, and where it would end the process
      instead of being handled as an error, the model passes it on.  A panic
      that reaches a service ends its request: what the caller sees of it is
      not distinguished from an internal error.
    - A table is a finite map by primary key; a statement is a pure function
      of the clock and the tables ([q_*] for reads, [x_*] for writes) that
      enforces the keys, foreign keys, checks, cascades and triggers of
      [src/db/migrations].  JSON columns hold JSON values, and the records
      behind them are written and read by definitions that follow the struct
      tags.
    - Integers keep their width where the code could overflow ([int32],
      [Skyfrost.int64], the [uint64] of the bus); other integers and instants,
      in nanoseconds, are [Z].
    - A request is handled as a whole, each statement atomic.  Where
      interleaving is what matters the component is a machine: the
      notification bus and its subscribers ([Notification]), the executors and
      sweeps of several servers ([ScheduledSystem], [AsyncSystem]), the batch
      on a bounded number of goroutines ([Slots]), the goroutines of a relay
      ([ResoniteLink]), of the streams of hosts and of the manager of workers
      ([Supervisor]), and of the whole process over that manager
      ([Operations.Process]).  A registration and the removal of a member are
      also cut after their check, where others may overtake them
      ([Registration.redeem], [PermissionTheorems.may_remove]); the goroutines
      of a command over all hosts run as whole calls in any order
      ([Operations.Cli]).  Other interleavings of two requests between
      statements are not modelled.
    - Third-party and generated code is a type class with its documented
      behaviour as laws, and what one component promises to another is a class
      with instances.  The store and the cloud: [Bcrypt], [JWT], [UUIDScan],
      [Skyfrost], [SkyfrostClient], [ObjectStore], [BlobStore]; generated
      messages: [ProtoJSON], [StartupParameters], [ConfigMessages],
      [JobMessages], [RealJSON]; the container and its calls:
      [ContainerClient], [HostClients], [RelayClient], [LinkStreams],
      [EventStreams], [DockerAPI], [HostConnector], [PortProbe]; between
      components: the repositories and [PermissionView] of [Ports],
      [HostDrainer], [SessionOperator], [JobSessionOperator], [HostOperator],
      [AccountFetcher].  The laws ([*Laws]) are theorems about the
      implementations of this repository where it has one (the Docker
      connector meets [ConnectorLaws], the use cases meet [OperatorLaws] and
      [StopperLaws]), and hypotheses about others, each with a concrete
      instance for the witnesses.

    ** Files

    Foundations.  [Prelude]: errors, the monad, its reasoning rules and
    automation.  [GoStrings], [Rfc3339], [Json], [Digest]: the parts of the Go
    library the code uses: strings and numbers, times, JSON values, SHA-256,
    hex, base64 and UUIDs.  [Models]: [src/db/models.go], [src/db/new.go], the
    world.  [Headless], [Messages], [PlainJson]: the generated messages.
    [StateCache]: [src/adapter/sessionstate/cache.go].

    Permissions.  [Entity], [Queries], [Ports], [Repositories]:
    [src/domain/entity/permission.go], the statements of [src/db], claims and
    repository ports, the adapters.  [PermissionUsecase], [RoleUsecase],
    [GroupUsecase], [UserUsecase]: the use cases of those names.
    [StoreInvariant], [PermissionInvariant], [PermissionSystem]:
    well-formedness, its preservation, requests as steps.
    [PermissionDecisions], [PermissionSafety], [Registration],
    [NoEscalation], [PermissionTheorems]: what checks decide, what requests
    do, invitations over time, and the properties of the whole.
    [Resources]: the lookups of hosts, sessions and accounts.
    [RpcPermission], [RpcAccess]: [permission_interceptor.go] with all its
    rules, the access matrix of the procedures as data, and that the rules
    implement it.  [AuthTokens], [AuthSafety]: tokens and the authentication
    interceptors.  [RpcServices], [RpcTheorems]: the user, group and role
    services behind their interceptors.

    Notifications.  [Notification]: the bus.  [NotificationService]: who
    receives what.

    Sessions.  [SessionRepo], [SessionUsecase] with [SessionSafety],
    [SessionTheorems], [SessionSearch]; [HostEvents]: streams of host events,
    checkpoints, retries and the handlers that keep rows and cache;
    [SessionRedelivery]: events delivered again, streams reset;
    [SessionWitness].

    Scheduled operations.  [Claims]: claiming rows from a table, shared with
    jobs.  [Slots], [ScheduledOps], [ScheduledRepo], [ScheduledUsecase],
    [ScheduledExecutor], [ScheduledSystem], [ScheduledRpc],
    [ScheduledSafety], [ScheduledTheorems], [ScheduledFindings].

    Jobs.  [AsyncJobs]: statements, repository, enqueuing and handlers;
    [AsyncExecutor], [AsyncSystem], [AsyncSafety].

    Hosts.  [HostQueries], [HostRepo], [HostUsecase]; [HostSafety],
    [HostTheorems], [HostLifecycle], [HostWitness]; [HostUpgrade]:
    [host_upgrade_orchestrator.go], with [HostUpgradeSafety] and
    [HostUpgradeExact]; [DockerConnector]: the connector, the watcher of
    containers and the look for new images, with [DockerTheorems].

    The controller service.  [Accounts]: the use case on headless accounts;
    [ControllerPorts]: what else the service calls, downloads of worlds;
    [ResoniteLink]: [ws_bridge.go]; [Controller]: every handler of
    [controller_service*.go], with [ControllerSafety] and
    [ControllerTheorems].

    The outside.  [Skyfrost]: [src/lib/skyfrost] as requests to a server, with
    [SkyfrostTheorems].  [Supervisor]: [runner.go], the streams of
    [host_event_watcher.go], the observers of images, the mutexes under which
    the upgrade orchestrator reconciles hosts.  [Operations]: the
    configuration, the process of the server ([src/cmd/server/main.go],
    [ListenAndServe] and [Shutdown] of [src/app/server.go]), blobs and their
    download, the command line.

    ** What the theorems show

    - Invariants: any sequence of requests keeps the permission tables
      well-formed ([reachable_store_ok], [served_store_ok]); the bus never
      sends on a closed channel; jobs and operations keep what was asked, and
      each statement moves them only along their life cycle; the cache with
      its two maps is one map; starts and ends of sessions that are delivered
      again change nothing.
    - Decisions and safety: the checks decide the documented rule and never
      take a database failure for an answer; a handler runs exactly for a
      valid token whose user the matrix allows ([auth_stack_enforces]); what a
      served message changes, only a holder of the permission changes, in
      [served_requests_grant_only_held], [session_changes_authorised],
      [host_changes_authorised], [schedule_exact],
      [controller_changes_authorised]; listings hold only what the caller may
      read; subscribers receive only what they may read.
    - Concurrency: nothing is executed twice as long as the executions of a
      batch fit in the time after which its claims are stale
      ([no_double_execution], [no_double_job]); one stream per host ([one_stream_per_host]) and one
      reconcile at a time ([reconciles_exclude]); the
      manager's runners are started once and can be stopped
      ([manager_supervises], [stopping_ends]); a server that ends without an
      error leaves no worker and no request that the HTTP server tracks behind
      ([clean_exit]; web sockets are not tracked) and can end
      at its deadline ([shutdown_meets_deadline]); registrations that race for
      an invitation register one user ([registration_token_race]); a relay
      keeps order and ends.
    - Functional behaviour, branch by branch: registering and logging in,
      executing, stopping sessions, resets, restarting and starting hosts,
      pages of logs and tags, synchronisation with the container runtime,
      uploads to the cloud, sessions of the cloud client.
    - Upgrades: running sessions with users are spared, and a host on which
      none runs leaves the drain.
    - Refinements and equivalences: permission checks over the repositories
      refine the documented decision; the two ways to search sessions agree;
      the steps of [Supervisor] implement [HostEvents.reconcile].
    - What the code does not do, as concrete runs: the ends of
      [PermissionTheorems], [AuthSafety] and [RpcTheorems],
      [ScheduledFindings], the examples of [Operations] and
      [SkyfrostTheorems].

    ** Bounds and fuel

    SHA-256 recurses over its blocks.  [trim_front] and [fields_of] get the
    length of the text, which every round shortens.  [tag_pages] gets a number
    of pages; a deadline ends the program's loop, and [tag_pages_exact] shows
    that the pages of the registry suffice.  The polls of the cloud client are
    bounded by the code (60 and 120).  Machines have no fuel: their theorems
    are about every finite run, with a measure that decreases where an end is
    claimed.

    ** Not modelled

    Wiring ([src/app/wire*.go]), the routing of paths, migrations as a
    command, log lines and the log interceptor, the generated
    clients, servers and marshalling of [src/pbgen], the mocks and
    [src/testutil], the front end and the container's own program: they hold
    no logic of the controller or are another program's.  Durations of
    statements and calls, and the resolution of time between them. *)

From stdpp Require Import base gmap strings list sorting pretty.
From Stdlib Require Import ZArith Lia.

#[global] Set Default Goal Selector "!".
#[global] Set Warnings "-clear-no-such-hyp".

(** ** Errors

    A Go [error] is modelled by the information the program observes of it:
    which sentinel it wraps ([errors.Is]), whether it is a failure of the
    database driver, and the messages it carries.  The package
    [go-errors/errors] keeps the wrapped error, so [errors.Wrap(e, 0)] is
    [e] itself and [errors.WrapPrefix(e, p, 0)] is [EWrap p e]. *)

Inductive Sentinel : Type :=
  | ErrNotFound                (** [domain.ErrNotFound] *)
  | ErrUnauthenticated         (** [domain.ErrUnauthenticated] *)
  | ErrPermissionDenied        (** [domain.ErrPermissionDenied] *)
  | ErrNoRows                  (** [pgx.ErrNoRows] *)
  | ErrCannotModifyBuiltinRole (** [usecase.ErrCannotModifyBuiltinRole] *)
  | ErrInvalidPermissionKey    (** [usecase.ErrInvalidPermissionKey] *)
  | ErrGroupOperationForbidden (** [usecase.ErrGroupOperationForbidden] *)
  | ErrHostDraining            (** [usecase.ErrHostDraining] *)
  | ErrScheduledOperationNotCancelable (** [usecase.ErrScheduledOperationNotCancelable] *)
  | ErrCanceled                (** [context.Canceled] *)
  | ErrDeadlineExceeded.       (** [context.DeadlineExceeded] *)

(** The codes of [connect.Error] the program uses. *)
Inductive Code : Type :=
  | CodeInvalidArgument | CodeNotFound | CodePermissionDenied | CodeUnauthenticated
  | CodeFailedPrecondition | CodeInternal | CodeUnimplemented.

Inductive Err : Type :=
  | ESent (s : Sentinel)
  | EDriver                       (** the database or the network failed *)
  | EConstraint (name : string)   (** a constraint or a trigger of the schema refused the row *)
  | EMsg (msg : string)           (** [errors.New(msg)] *)
  | EWrap (prefix : string) (e : Err)
  | EConnect (c : Code) (e : Err)
  | EPanic (value : string).      (** not an error: the goroutine panics, and unwinds as errors do *)

#[export] Instance Sentinel_eq_dec : EqDecision Sentinel.
Proof. solve_decision. Defined.
#[export] Instance Code_eq_dec : EqDecision Code.
Proof. solve_decision. Defined.
#[export] Instance Err_eq_dec : EqDecision Err.
Proof. solve_decision. Defined.

(** [errors.Is(err, target)] for a sentinel [target]: walks the chain. *)
Fixpoint errors_Is (e : Err) (target : Sentinel) : bool :=
  match e with
  | ESent s => bool_decide (s = target)
  | EWrap _ e' | EConnect _ e' => errors_Is e' target
  | EDriver | EConstraint _ | EMsg _ | EPanic _ => false
  end.

(** The chain ends in a failure of the driver: the error says nothing about
    the request itself. *)
Fixpoint transient (e : Err) : bool :=
  match e with
  | EDriver => true
  | EWrap _ e' | EConnect _ e' => transient e'
  | ESent _ | EConstraint _ | EMsg _ | EPanic _ => false
  end.

(** [err.Error()]; the texts of the driver and of the database are not
    modelled, only that of the constraint. *)
Definition sentinel_text (s : Sentinel) : string :=
  match s with
  | ErrNotFound => "not found"
  | ErrUnauthenticated => "unauthenticated"
  | ErrPermissionDenied => "permission denied"
  | ErrNoRows => "no rows in result set"
  | ErrCannotModifyBuiltinRole => "cannot modify builtin role"
  | ErrInvalidPermissionKey => "invalid permission_key"
  | ErrGroupOperationForbidden => "operation not allowed on this group type"
  | ErrHostDraining => "host is draining for upgrade"
  | ErrScheduledOperationNotCancelable => "scheduled operation cannot be canceled in its current status"
  | ErrCanceled => "context canceled"
  | ErrDeadlineExceeded => "context deadline exceeded"
  end.
Fixpoint Err_Error (e : Err) : string :=
  match e with
  | ESent s => sentinel_text s
  | EDriver => "database error"
  | EConstraint name => name
  | EMsg msg => msg
  | EWrap p e' => p +:+ ": " +:+ Err_Error e'
  | EConnect _ e' => Err_Error e'
  | EPanic v => v
  end.

Lemma transient_not_Is (e : Err) (s : Sentinel) : transient e = true → errors_Is e s = false.
Proof. induction e; simpl; naive_solver. Qed.

Inductive Result (A : Type) : Type :=
  | Ok (a : A)
  | Fail (e : Err).
Arguments Ok {A} a.
Arguments Fail {A} e.

#[export] Instance Result_eq_dec {A} `{EqDecision A} : EqDecision (Result A).
Proof. solve_decision. Defined.

Definition is_Ok {A} (r : Result A) : bool := match r with Ok _ => true | Fail _ => false end.

Definition rbind {A B} (r : Result A) (k : A → Result B) : Result B :=
  match r with Ok a => k a | Fail e => Fail e end.

(** The error of [r], rewritten by [f]. *)
Definition map_err {A} (f : Err → Err) (r : Result A) : Result A :=
  match r with Ok a => Ok a | Fail e => Fail (f e) end.

(** ** State and errors

    A Go function that reads and writes the store and may return an error is
    a computation [S → Result A * S].  The store is threaded even when the
    result is an error: what was written before the error stays written. *)

Definition M (S A : Type) : Type := S → Result A * S.

Section Monad.
Context {S : Type}.

Definition ret {A} (a : A) : M S A := λ s, (Ok a, s).
Definition fail {A} (e : Err) : M S A := λ s, (Fail e, s).
Definition lift {A} (r : Result A) : M S A := λ s, (r, s).
Definition bind {A B} (m : M S A) (k : A → M S B) : M S B :=
  λ s, match m s with
       | (Ok a, s') => k a s'
       | (Fail e, s') => (Fail e, s')
       end.
Definition gets {A} (f : S → A) : M S A := λ s, (Ok (f s), s).
Definition modify (f : S → S) : M S unit := λ s, (Ok tt, f s).
(** [x, err := m()] where the code looks at [err] instead of returning it. *)
Definition attempt {A} (m : M S A) : M S (Result A) := λ s, let (r, s') := m s in (Ok r, s').
(** [if err != nil { return f(err) }] *)
Definition on_err {A} (f : Err → Err) (m : M S A) : M S A :=
  λ s, let (r, s') := m s in (map_err f r, s').
End Monad.

Declare Scope go_scope.
Delimit Scope go_scope with go.
Notation "'let*' x ':=' m 'in' k" := (bind m (λ x, k))
  (at level 10, x binder, m at level 100, k at level 200) : go_scope.
Notation "m ;;; k" := (bind m (λ _, k)) (at level 100, k at level 200, right associativity) : go_scope.
#[global] Open Scope go_scope.

(** ** Reasoning about computations *)

Section Reasoning.
Context {S : Type}.
Implicit Types (s : S).

(** Every run of [m], whatever its result, moves the store along [R]. *)
Definition preserves {A} (R : S → S → Prop) (m : M S A) : Prop := ∀ s, R s (m s).2.

(** When [m] succeeds from [s], its result and final store satisfy [Q]. *)
Definition ensures {A} (m : M S A) (s : S) (Q : A → S → Prop) : Prop :=
  match m s with (Ok a, s') => Q a s' | (Fail _, _) => True end.

Section Preserves.
Context (R : S → S → Prop) `{!PreOrder R}.

Lemma preserves_ret {A} (a : A) : preserves R (ret a).
Proof. intros s. reflexivity. Qed.
Lemma preserves_fail {A} e : preserves R (fail (A:=A) e).
Proof. intros s. reflexivity. Qed.
Lemma preserves_lift {A} (r : Result A) : preserves R (lift r).
Proof. intros s. reflexivity. Qed.
Lemma preserves_gets {A} (f : S → A) : preserves R (gets f).
Proof. intros s. reflexivity. Qed.
Lemma preserves_bind {A B} (m : M S A) (k : A → M S B) :
  preserves R m → (∀ a, preserves R (k a)) → preserves R (bind m k).
Proof.
  intros Hm Hk s. specialize (Hm s). unfold bind.
  destruct (m s) as [[a|e] s1]; simpl in *; [|done].
  etrans; [exact Hm|apply Hk].
Qed.
Lemma preserves_attempt {A} (m : M S A) : preserves R m → preserves R (attempt m).
Proof. intros Hm s. specialize (Hm s). unfold attempt. by destruct (m s). Qed.
Lemma preserves_on_err {A} f (m : M S A) : preserves R m → preserves R (on_err f m).
Proof. intros Hm s. specialize (Hm s). unfold on_err. by destruct (m s). Qed.
End Preserves.

Lemma ensures_intro {A} (m : M S A) s (Q : A → S → Prop) :
  (∀ a s', m s = (Ok a, s') → Q a s') → ensures m s Q.
Proof. intros H. unfold ensures. destruct (m s) as [[a|e] s'] eqn:E; naive_solver. Qed.

Lemma ensures_elim {A} (m : M S A) s (Q : A → S → Prop) a s' :
  ensures m s Q → m s = (Ok a, s') → Q a s'.
Proof. intros H E. unfold ensures in H. by rewrite E in H. Qed.

Lemma ensures_mono {A} (m : M S A) s (Q Q' : A → S → Prop) :
  ensures m s Q → (∀ a s', Q a s' → Q' a s') → ensures m s Q'.
Proof. unfold ensures. destruct (m s) as [[a|e] s']; auto. Qed.

Lemma ensures_bind {A B} (m : M S A) (k : A → M S B) s (Q : B → S → Prop) :
  ensures m s (λ a s', ensures (k a) s' Q) → ensures (bind m k) s Q.
Proof. unfold ensures, bind. by destruct (m s) as [[a|e] s']. Qed.

Lemma ensures_ret {A} (a : A) s (Q : A → S → Prop) : Q a s → ensures (ret a) s Q.
Proof. done. Qed.
Lemma ensures_fail {A} e s (Q : A → S → Prop) : ensures (fail e) s Q.
Proof. done. Qed.
Lemma ensures_lift {A} (r : Result A) s (Q : A → S → Prop) :
  (∀ a, r = Ok a → Q a s) → ensures (lift r) s Q.
Proof. unfold ensures, lift. destruct r; naive_solver. Qed.
Lemma ensures_gets {A} (f : S → A) s (Q : A → S → Prop) : Q (f s) s → ensures (gets f) s Q.
Proof. done. Qed.
Lemma ensures_on_err {A} f (m : M S A) s (Q : A → S → Prop) :
  ensures m s Q → ensures (on_err f m) s Q.
Proof. unfold ensures, on_err. by destruct (m s) as [[a|e] s']. Qed.
Lemma ensures_attempt {A} (m : M S A) s (Q : Result A → S → Prop) :
  (∀ r s', m s = (r, s') → Q r s') → ensures (attempt m) s Q.
Proof. intros H. unfold ensures, attempt. destruct (m s) as [r s'] eqn:E. by apply H. Qed.

(** Equations that run a computation, for rewriting. *)
Lemma bind_Ok {A B} (m : M S A) (k : A → M S B) s a s' :
  m s = (Ok a, s') → bind m k s = k a s'.
Proof. unfold bind. by intros ->. Qed.
Lemma bind_Fail {A B} (m : M S A) (k : A → M S B) s e s' :
  m s = (Fail e, s') → bind m k s = (Fail e, s').
Proof. unfold bind. by intros ->. Qed.
Lemma bind_inv_Ok {A B} (m : M S A) (k : A → M S B) s b s' :
  bind m k s = (Ok b, s') → ∃ a s1, m s = (Ok a, s1) ∧ k a s1 = (Ok b, s').
Proof. unfold bind. destruct (m s) as [[a|e] s1]; naive_solver. Qed.
(** Either the first computation fails, or the second goes on from its result. *)
Lemma bind_inv {A B} (m : M S A) (k : A → M S B) s r s' :
  bind m k s = (r, s') →
  (∃ e, m s = (Fail e, s') ∧ r = Fail e) ∨ (∃ a s1, m s = (Ok a, s1) ∧ k a s1 = (r, s')).
Proof. unfold bind. destruct (m s) as [[a|e] s1]; [right; eauto|intros [= <- <-]; left; eauto]. Qed.
Lemma on_err_inv {A} f (m : M S A) s r s' : on_err f m s = (r, s') → ∃ r0, m s = (r0, s') ∧ r = map_err f r0.
Proof. unfold on_err. destruct (m s) as [r0 s1]. intros [= <- <-]. eauto. Qed.
End Reasoning.

Create HintDb preserves.
#[export] Hint Resolve preserves_ret preserves_fail preserves_lift preserves_gets : preserves.

(** Splits the code of a handler along its binds and branches, and closes
    the leaves with the lemmas of the [preserves] database. *)
Ltac preserve_step :=
  match goal with
  | |- preserves _ (bind _ _) => apply preserves_bind; [try typeclasses eauto| |intros ?]
  | |- preserves _ (attempt _) => apply preserves_attempt
  | |- preserves _ (on_err _ _) => apply preserves_on_err
  | |- preserves _ (match ?x with _ => _ end) => destruct x
  | |- preserves _ (let _ := _ in _) => cbv zeta
  | |- preserves _ (let (_, _) := ?x in _) => destruct x
  end.
Ltac preserve := repeat first [preserve_step | progress intros | solve [eauto with preserves typeclass_instances]].

(** One step of symbolic execution of an [ensures] goal. *)
Ltac ens_step :=
  match goal with
  | |- ensures (bind _ _) _ _ => apply ensures_bind
  | |- ensures (on_err _ _) _ _ => apply ensures_on_err
  | |- ensures (fail _) _ _ => exact I
  | |- ensures (ret _) _ _ => apply ensures_ret
  | |- ensures (gets _) _ _ => apply ensures_gets
  | |- ensures (match ?x with _ => _ end) _ _ => destruct x eqn:?
  end.
Ltac ens := repeat ens_step.

(** ** Strings *)

Lemma string_length_app a b : String.length (a +:+ b) = (String.length a + String.length b)%nat.
Proof. induction a; simpl; [done|]. by f_equal. Qed.

Lemma append_inj a b c d : a +:+ c = b +:+ d → String.length c = String.length d → a = b ∧ c = d.
Proof.
  revert b. induction a as [|x a IH]; intros [|y b]; simpl; intros H Hl.
  - by split.
  - apply (f_equal String.length) in H. cbn in H. rewrite ?string_length_app in H. cbn in H. lia.
  - apply (f_equal String.length) in H. cbn in H. rewrite ?string_length_app in H. cbn in H. lia.
  - injection H as -> H. destruct (IH _ H Hl) as [-> ->]. by split.
Qed.

Lemma append_cancel_r a b c : a +:+ c = b +:+ c → a = b.
Proof. intros H. by apply append_inj in H as [? _]. Qed.

Lemma append_assoc a b c : (a +:+ b) +:+ c = a +:+ (b +:+ c).
Proof. induction a as [|x a IH]; [reflexivity|]. exact (f_equal (String x) IH). Qed.

(** [strconv.Quote], the verb %q, on valid UTF-8 whose characters above ASCII
    are printable. *)
Definition hex_lower (n : nat) : Ascii.ascii := Ascii.ascii_of_nat (if Nat.ltb n 10 then 48 + n else 87 + n).
Definition quote_char (c : Ascii.ascii) : string :=
  let n := Ascii.nat_of_ascii c in
  let escape x := String (Ascii.ascii_of_nat 92) (String (Ascii.ascii_of_nat x) EmptyString) in
  match n with
  | 7 => escape 97 | 8 => escape 98 | 9 => escape 116 | 10 => escape 110 | 11 => escape 118 | 12 => escape 102 | 13 => escape 114
  | 34 => escape 34 | 92 => escape 92
  | _ => if Nat.ltb n 32 || Nat.eqb n 127
         then escape 120 +:+ String (hex_lower (Nat.div n 16)) (String (hex_lower (Nat.modulo n 16)) EmptyString)
         else String c EmptyString
  end%nat.
Fixpoint quote_chars (s : string) : string :=
  match s with EmptyString => EmptyString | String c s' => quote_char c +:+ quote_chars s' end.
Definition strconv_Quote (s : string) : string :=
  let q := String (Ascii.ascii_of_nat 34) EmptyString in q +:+ quote_chars s +:+ q.

(** [%d] *)
Definition fmt_d (z : Z) : string := pretty z.
