(* ===== verification/Entity.v ===== *)
(** * Domain entities

    The types and constants of [src/domain/entity/permission.go] and
    [src/domain/errors.go]: groups, roles, memberships and the table of known
    permission keys.  The entities of jobs and scheduled operations are in the
    files of their components. *)

From S2P Require Import Prelude.
From stdpp Require Import base gmap strings list.
From Stdlib Require Import ZArith.

(** An instant, in nanoseconds since the Unix epoch; [time_Time_zero] is Go's
    zero [time.Time] (1 January of year 1). *)
Definition Instant : Type := Z.
Definition time_Second : Z := 1000000000%Z.
Definition time_Minute : Z := (60 * time_Second)%Z.
Definition time_Hour : Z := (60 * time_Minute)%Z.
Definition time_Time_zero : Instant := (-62135596800 * time_Second)%Z.

Definition GroupType_Personal : string := "personal".
Definition GroupType_Normal : string := "normal".
Definition GroupType_System : string := "system".

Definition RoleScope_Normal : string := "normal".
Definition RoleScope_System : string := "system".

Definition SystemGroupID : string := "system".
Definition SystemUserID : string := "system".

Definition SeedRoleID_Admin : string := "seed-admin".
Definition SeedRoleID_User : string := "seed-user".
Definition SeedRoleID_SessionOperator : string := "seed-session-operator".
Definition SeedRoleID_SystemAdmin : string := "seed-system-admin".

Definition PermKey_HostRead : string := "host:read".
Definition PermKey_HostWrite : string := "host:write".
Definition PermKey_HostUse : string := "host:use".
Definition PermKey_SessionRead : string := "session:read".
Definition PermKey_SessionWrite : string := "session:write".
Definition PermKey_AccountRead : string := "account:read".
Definition PermKey_AccountWrite : string := "account:write".
Definition PermKey_AccountUse : string := "account:use".
Definition PermKey_GroupMembersManage : string := "group:members.manage".
Definition PermKey_GroupEdit : string := "group:edit".
Definition PermKey_SystemUserCreate : string := "system:user.create".
Definition PermKey_SystemUserDelete : string := "system:user.delete".
Definition PermKey_SystemUserList : string := "system:user.list".
Definition PermKey_SystemGroupList : string := "system:group.list".
Definition PermKey_SystemGroupManage : string := "system:group.manage".
Definition PermKey_SystemRoleManage : string := "system:role.manage".

Record Group : Type := mkGroup {
  Group_ID : string;
  Group_Name : string;
  Group_Type : string;
  Group_CreatedAt : Instant;
  Group_UpdatedAt : Instant }.

Record GroupMember : Type := mkGroupMember {
  GroupMember_GroupID : string;
  GroupMember_UserID : string;
  GroupMember_RoleID : string;
  GroupMember_AddedBy : option string;
  GroupMember_JoinedAt : Instant }.

Record Role : Type := mkRole {
  Role_ID : string;
  Role_GroupID : option string;  (** [None]: a global role *)
  Role_Name : string;
  Role_Scope : string;
  Role_IsBuiltin : bool;
  Role_PermissionKeys : list string;
  Role_CreatedAt : Instant;
  Role_UpdatedAt : Instant }.

Record PermissionKeyDef : Type := mkPermissionKeyDef {
  PKD_Key : string;
  PKD_Description : string;
  PKD_Scope : string }.

Definition AllPermissionKeys : list PermissionKeyDef := [
  mkPermissionKeyDef PermKey_HostRead "View host list / detail / logs" RoleScope_Normal;
  mkPermissionKeyDef PermKey_HostWrite "Create / update / start / stop / restart / delete hosts" RoleScope_Normal;
  mkPermissionKeyDef PermKey_HostUse "Start sessions on a host" RoleScope_Normal;
  mkPermissionKeyDef PermKey_SessionRead "View session list / detail" RoleScope_Normal;
  mkPermissionKeyDef PermKey_SessionWrite "Create / update / stop sessions, invite / kick / ban / role changes" RoleScope_Normal;
  mkPermissionKeyDef PermKey_AccountRead "View account list / detail / storage info / contacts" RoleScope_Normal;
  mkPermissionKeyDef PermKey_AccountWrite "Create / update credentials / delete accounts" RoleScope_Normal;
  mkPermissionKeyDef PermKey_AccountUse "Use an account to start a session, read / send contact DMs" RoleScope_Normal;
  mkPermissionKeyDef PermKey_GroupMembersManage "Manage members and group-local custom roles" RoleScope_Normal;
  mkPermissionKeyDef PermKey_GroupEdit "Edit group metadata (name etc.)" RoleScope_Normal;
  mkPermissionKeyDef PermKey_SystemUserCreate "Create system user accounts" RoleScope_System;
  mkPermissionKeyDef PermKey_SystemUserDelete "Delete system user accounts" RoleScope_System;
  mkPermissionKeyDef PermKey_SystemUserList "List all system users" RoleScope_System;
  mkPermissionKeyDef PermKey_SystemGroupList "List all groups" RoleScope_System;
  mkPermissionKeyDef PermKey_SystemGroupManage "Manage any group (including personal), and personal role changes" RoleScope_System;
  mkPermissionKeyDef PermKey_SystemRoleManage "Manage global custom roles" RoleScope_System ].

(** The loop of [IsValidPermissionKey] and of [GetPermissionKeyDef]. *)
Fixpoint find_key (key : string) (defs : list PermissionKeyDef) : option PermissionKeyDef :=
  match defs with
  | [] => None
  | p :: defs' => if bool_decide (PKD_Key p = key) then Some p else find_key key defs'
  end.

Definition IsValidPermissionKey (key : string) : bool :=
  match find_key key AllPermissionKeys with Some _ => true | None => false end.

Definition GetPermissionKeyDef (key : string) : option PermissionKeyDef := find_key key AllPermissionKeys.

(** [strings.HasPrefix(k, "system:")] *)
Definition is_system_key (k : string) : bool := String.prefix "system:" k.

(** The scope a key may be granted in. *)
Definition key_scope (k : string) : string := if is_system_key k then RoleScope_System else RoleScope_Normal.

Lemma find_key_Some key defs p : find_key key defs = Some p → PKD_Key p = key ∧ p ∈ defs.
Proof.
  induction defs as [|q defs IH]; simpl; [done|].
  case_bool_decide; [|set_solver]. intros [= <-]. set_solver.
Qed.

(** The documented scope of every key is the one its prefix says. *)
Lemma AllPermissionKeys_scope : Forall (λ p, PKD_Scope p = key_scope (PKD_Key p)) AllPermissionKeys.
Proof. repeat constructor. Qed.

(** [GetPermissionKeyDef] answers exactly the valid keys, and the definition
    it returns is the key's own, in the scope its prefix says. *)
Lemma GetPermissionKeyDef_valid key p :
  GetPermissionKeyDef key = Some p →
  IsValidPermissionKey key = true ∧ PKD_Key p = key ∧ PKD_Scope p = key_scope key.
Proof.
  unfold GetPermissionKeyDef, IsValidPermissionKey. intros H. rewrite H. split; [done|].
  destruct (find_key_Some _ _ _ H) as [<- Hin]. split; [done|].
  pose proof AllPermissionKeys_scope as HF. rewrite Forall_forall in HF. by apply HF.
Qed.
