(* ===== verification/GoStrings.v ===== *)
(** * Strings: the parts of the Go library that hosts need

    [strings.Split], [HasPrefix], [TrimPrefix], [Contains], [strconv.Atoi], and
    the version numbers of [src/lib/validater.go]. *)

From S2P Require Import Prelude.
From stdpp Require Import base strings list pretty.
From Stdlib Require Import ZArith Lia Ascii.

(** ** Digits *)

Definition is_digit (c : ascii) : bool := (48 <=? nat_of_ascii c)%nat && (nat_of_ascii c <=? 57)%nat.
Fixpoint leading_digits (s : string) : string :=
  match s with String c s' => if is_digit c then String c (leading_digits s') else EmptyString | EmptyString => EmptyString end.
Fixpoint all_digits (s : string) : bool :=
  match s with String c s' => is_digit c && all_digits s' | EmptyString => true end.
Fixpoint digits_value (acc : Z) (s : string) : Z :=
  match s with String c s' => digits_value (acc * 10 + Z.of_nat (nat_of_ascii c) - 48)%Z s' | EmptyString => acc end.

(** [strconv.Atoi], which answers an error outside of 64 bits *)
Definition Atoi_digits (negative : bool) (s : string) : option Z :=
  let n := if negative then (- digits_value 0 s)%Z else digits_value 0 s in
  if bool_decide (s ≠ EmptyString) && all_digits s && (- 2 ^ 63 <=? n)%Z && (n <? 2 ^ 63)%Z then Some n else None.
Definition Atoi (s : string) : option Z :=
  match s with
  | String c s' => if bool_decide (c = "-"%char) then Atoi_digits true s' else if bool_decide (c = "+"%char) then Atoi_digits false s' else Atoi_digits false s
  | EmptyString => None
  end.

(** ** Prefixes *)

Fixpoint CutPrefix (p s : string) : option string :=
  match p, s with
  | EmptyString, _ => Some s
  | String a p', String b s' => if bool_decide (a = b) then CutPrefix p' s' else None
  | String _ _, EmptyString => None
  end.
Definition HasPrefix (s p : string) : bool := bool_decide (is_Some (CutPrefix p s)).
Definition TrimPrefix (s p : string) : string := default s (CutPrefix p s).
Fixpoint Contains (s sub : string) : bool :=
  HasPrefix s sub || match s with String _ s' => Contains s' sub | EmptyString => false end.

(** [strings.Split] at one character: there is always a part. *)
Fixpoint Split (sep : ascii) (s : string) : list string :=
  match s with
  | EmptyString => [EmptyString]
  | String c s' =>
      if bool_decide (c = sep) then EmptyString :: Split sep s'
      else match Split sep s' with p :: ps => String c p :: ps | [] => [String c EmptyString] end
  end.

(** ** Versions *)

(** [VersionStrRegex] *)
Definition ValidateResoniteVersionString (version : string) : bool :=
  match Split "."%char version with
  | [y; m; d; n] =>
      all_digits y && bool_decide (String.length y = 4) && HasPrefix y "20" &&
      all_digits m && bool_decide (1 ≤ String.length m ≤ 2) &&
      all_digits d && bool_decide (1 ≤ String.length d ≤ 2) &&
      all_digits n && bool_decide (1 ≤ String.length n)
  | _ => false
  end.

(** ** What is written can be read *)

Lemma digit_char_value x : (x < 10)%N → is_digit (pretty_N_char x) = true ∧ Z.of_nat (nat_of_ascii (pretty_N_char x)) = (Z.of_N x + 48)%Z.
Proof.
  intros H. assert (x ∈ [0; 1; 2; 3; 4; 5; 6; 7; 8; 9]%N) as Hin.
  { rewrite list_elem_of_In. simpl. destruct x as [|p]; [by left|]. do 4 (destruct p as [p|p|]; try lia; try tauto). }
  revert x H Hin. assert (Forall (λ x, is_digit (pretty_N_char x) = true ∧ Z.of_nat (nat_of_ascii (pretty_N_char x)) = (Z.of_N x + 48)%Z) [0; 1; 2; 3; 4; 5; 6; 7; 8; 9]%N) as Hf
    by (repeat constructor).
  intros x _ Hin. rewrite Forall_forall in Hf. by apply Hf.
Qed.

Lemma all_digits_go n s : all_digits s = true → all_digits (pretty_N_go n s) = true.
Proof.
  revert s. induction (N.lt_wf_0 n) as [n _ IH]; intros s Hs. destruct (decide (n = 0)%N) as [->|Hn]; [by rewrite pretty_N_go_0|].
  rewrite pretty_N_go_step by lia. apply IH; [apply N.div_lt; lia|]. simpl. rewrite Hs, andb_true_r. apply digit_char_value, N.mod_lt. done.
Qed.
Lemma digits_value_go n s : digits_value 0 (pretty_N_go n s) = digits_value (Z.of_N n) s.
Proof.
  revert s. induction (N.lt_wf_0 n) as [n _ IH]; intros s. destruct (decide (n = 0)%N) as [->|Hn]; [by rewrite pretty_N_go_0|].
  rewrite pretty_N_go_step by lia. rewrite IH by (apply N.div_lt; lia). simpl.
  destruct (digit_char_value (n mod 10)%N) as [_ ->]; [by apply N.mod_lt|]. f_equal. pose proof (N.div_mod n 10). lia.
Qed.
Lemma go_nonempty n s : s ≠ EmptyString → pretty_N_go n s ≠ EmptyString.
Proof.
  revert s. induction (N.lt_wf_0 n) as [n _ IH]; intros s Hs. destruct (decide (n = 0)%N) as [->|Hn]; [by rewrite pretty_N_go_0|].
  rewrite pretty_N_go_step by lia. apply IH; [apply N.div_lt; lia|done].
Qed.

Lemma fmt_d_digits z : (0 <= z)%Z → all_digits (fmt_d z) = true ∧ digits_value 0 (fmt_d z) = z ∧ fmt_d z ≠ EmptyString.
Proof.
  intros Hz. destruct z as [|p|p]; [by split|..|done]. unfold fmt_d. change (pretty (Z.pos p)) with (pretty (N.pos p)). unfold pretty, pretty_N.
  rewrite decide_False by done. split; [by apply all_digits_go|]. split; [by rewrite digits_value_go|].
  rewrite pretty_N_go_step by lia. by apply go_nonempty.
Qed.
Lemma all_digits_not (c : ascii) s : all_digits s = true → is_digit c = false → ∀ s', s ≠ String c s'.
Proof. intros H Hc s' ->. simpl in H. by rewrite Hc in H. Qed.

Lemma Atoi_fmt_d z : (0 <= z < 2 ^ 63)%Z → Atoi (fmt_d z) = Some z.
Proof.
  intros Hz. destruct (fmt_d_digits z) as (Hd & Hv & Hne); [lia|]. unfold Atoi. destruct (fmt_d z) as [|c s] eqn:E; [done|].
  rewrite !bool_decide_eq_false_2 by (intros ->; simpl in Hd; discriminate). unfold Atoi_digits. rewrite Hd, Hv.
  rewrite bool_decide_eq_true_2 by done. rewrite (proj2 (Z.leb_le _ _)), (proj2 (Z.ltb_lt _ _)) by lia. done.
Qed.

Lemma Split_no_sep sep s : all_digits s = true → is_digit sep = false → Split sep s = [s].
Proof.
  intros H Hsep. induction s as [|c s IH]; [done|]. simpl in *. apply andb_true_iff in H as [Hc H].
  rewrite bool_decide_eq_false_2 by (intros ->; congruence). by rewrite IH.
Qed.
(** a part without the separator, in front *)
Fixpoint mentions (c : ascii) (s : string) : bool :=
  match s with String x s' => bool_decide (x = c) || mentions c s' | EmptyString => false end.
Lemma Split_front sep a s : mentions sep a = false → Split sep (a +:+ String sep s) = a :: Split sep s.
Proof.
  induction a as [|c a IH]; simpl; intros H; [by rewrite bool_decide_eq_true_2|].
  apply orb_false_iff in H as [Hc H]. apply bool_decide_eq_false in Hc. rewrite bool_decide_eq_false_2 by done. by rewrite IH.
Qed.

Lemma CutPrefix_app p s : CutPrefix p (p +:+ s) = Some s.
Proof. induction p as [|c p IH]; simpl; [done|]. by rewrite bool_decide_eq_true_2. Qed.
Lemma CutPrefix_Some p s s' : CutPrefix p s = Some s' → s = p +:+ s'.
Proof.
  revert s. induction p as [|c p IH]; intros s; simpl; [by intros [= ->]|]. destruct s as [|b s]; [done|]. case_bool_decide as E; [subst|done].
  intros H. by rewrite (IH _ H).
Qed.

Example versions : ValidateResoniteVersionString "2025.4.3.1346" = true ∧ ValidateResoniteVersionString "2025.4.3" = false ∧
  ValidateResoniteVersionString "1999.4.3.1" = false ∧ Atoi "-7" = Some (-7)%Z ∧ Atoi "7x" = None ∧ Contains "xx Exited (0) ago" "Exited (0)" = true.
Proof. by vm_compute. Qed.
