(* ===== verification/Rfc3339.v ===== *)
(** * Times as text

    What the program uses of the JSON form of [time.Time]: RFC 3339 with
    nanoseconds, in UTC when written, with any offset when read
    ([Time.MarshalJSON], [Time.UnmarshalJSON]).  The calendar is the proleptic
    Gregorian one. *)

From S2P Require Import Prelude Entity.
From stdpp Require Import base strings list.
From Stdlib Require Import ZArith Lia Ascii.
#[local] Open Scope Z_scope.

Ltac divs := Z.to_euclidean_division_equations; lia.

(** ** The calendar *)

Definition leap (y : Z) : bool := (y mod 4 =? 0) && (negb (y mod 100 =? 0) || (y mod 400 =? 0)).
Definition daysIn (m y : Z) : Z :=
  if m =? 2 then (if leap y then 29 else 28)
  else if (m =? 4) || (m =? 6) || (m =? 9) || (m =? 11) then 30 else 31.

(** Days since 1970-01-01, by years that begin in March, in eras of 400 years. *)
Definition days_of_civil (y m d : Z) : Z :=
  let y' := if m <=? 2 then y - 1 else y in
  let era := y' / 400 in
  let yoe := y' mod 400 in
  let mp := if m <=? 2 then m + 9 else m - 3 in
  let doy := (153 * mp + 2) / 5 + d - 1 in
  era * 146097 + (365 * yoe + yoe / 4 - yoe / 100 + doy) - 719468.

Definition civil_of_days (z : Z) : Z * Z * Z :=
  let era := (z + 719468) / 146097 in
  let doe := (z + 719468) mod 146097 in
  let yoe := (doe - doe / 1460 + doe / 36524 - doe / 146096) / 365 in
  let doy := doe - (365 * yoe + yoe / 4 - yoe / 100) in
  let mp := (5 * doy + 2) / 153 in
  let d := doy - (153 * mp + 2) / 5 + 1 in
  let m := if mp <? 10 then mp + 3 else mp - 9 in
  (yoe + era * 400 + (if m <=? 2 then 1 else 0), m, d).

Lemma year_of_era doe : 0 <= doe < 146097 → 0 <= (doe - doe/1460 + doe/36524 - doe/146096)/365 < 400.
Proof. intros. divs. Qed.

Lemma day_of_year doe : 0 <= doe < 146097 →
  let yoe := (doe - doe/1460 + doe/36524 - doe/146096)/365 in
  let doy := doe - (365*yoe + yoe/4 - yoe/100) in
  0 <= doy <= 365 ∧ (doy = 365 → (yoe+1) mod 4 = 0 ∧ ((yoe+1) mod 100 ≠ 0 ∨ (yoe+1) mod 400 = 0)).
Proof.
  intros H yoe doy. subst doy.
  assert (doe = 146096 ∨ doe < 146096) as [->|H'] by lia; [vm_compute; intuition congruence|].
  assert (doe/146096 = 0) as H0 by (apply Z.div_small; lia).
  assert (∃ c, doe/36524 = c ∧ (c = 0 ∨ c = 1 ∨ c = 2 ∨ c = 3)) as (c & Ec & Hc) by (eexists; split; [reflexivity|]; divs).
  subst yoe. rewrite Ec, H0.
  assert (36524*c <= doe < 36524*(c+1)) by divs.
  remember (doe/1460) as q eqn:Eq. assert (1460*q <= doe < 1460*(q+1)) by divs.
  destruct Hc as [->|[->|[->| ->]]]; (split; [split; divs|]; intros; split; divs).
Qed.

(** A day is a date of the calendar, and the date names it. *)
Lemma civil_of_days_ok z : let '(y, m, d) := civil_of_days z in
  1 <= m <= 12 ∧ 1 <= d <= daysIn m y ∧ days_of_civil y m d = z.
Proof.
  unfold civil_of_days. cbv zeta.
  set (era := (z + 719468) / 146097). set (doe := (z + 719468) mod 146097).
  assert (z + 719468 = era * 146097 + doe) as Hz by (subst era doe; divs).
  assert (0 <= doe < 146097) as Hd by (subst doe; divs). clearbody era doe.
  pose proof (year_of_era doe Hd) as Hy. destruct (day_of_year doe Hd) as [Hr Hl].
  set (yoe := (doe - doe/1460 + doe/36524 - doe/146096)/365) in *.
  set (doy := doe - (365*yoe + yoe/4 - yoe/100)) in *.
  assert (365*yoe + yoe/4 - yoe/100 = doe - doy) as Hdoy by lia. clearbody yoe doy.
  set (mp := (5 * doy + 2) / 153). assert (153 * mp <= 5 * doy + 2 < 153 * mp + 153) as Hmp by (subst mp; divs).
  clearbody mp. assert (0 <= mp <= 11) as Hm by lia.
  set (m := if mp <? 10 then mp + 3 else mp - 9).
  assert (1 <= m <= 12) as Hm12 by (subst m; destruct (Z.ltb_spec mp 10); lia).
  assert ((m <=? 2) = (10 <=? mp)) as Hle by (subst m; destruct (Z.ltb_spec mp 10), (Z.leb_spec 10 mp); lia).
  rewrite Hle. split; [done|]. split.
  - split; [divs|]. unfold daysIn. subst m.
    assert (mp = 11 → doy = 365 → leap (yoe + era * 400 + 1) = true) as Hleap.
    { intros -> E. destruct (Hl E) as [H4 H100]. unfold leap. rewrite andb_true_iff, orb_true_iff, negb_true_iff, !Z.eqb_eq, Z.eqb_neq.
      split; [divs|]. destruct H100; [left|right]; divs. }
    assert (mp = 0 ∨ mp = 1 ∨ mp = 2 ∨ mp = 3 ∨ mp = 4 ∨ mp = 5 ∨ mp = 6 ∨ mp = 7 ∨ mp = 8 ∨ mp = 9 ∨ mp = 10 ∨ mp = 11) as Hcases by lia.
    destruct Hcases as [->|[->|[->|[->|[->|[->|[->|[->|[->|[->|[->| ->]]]]]]]]]]]; simpl; try divs.
    destruct (leap _) eqn:El; [divs|]. assert (doy ≠ 365) by (intros E; specialize (Hleap eq_refl E); simpl in *; congruence). divs.
  - unfold days_of_civil. rewrite Hle.
    replace (if 10 <=? mp then yoe + era * 400 + (if 10 <=? mp then 1 else 0) - 1 else yoe + era * 400 + (if 10 <=? mp then 1 else 0))
      with (yoe + era * 400) by (destruct (10 <=? mp); lia).
    rewrite Z.div_add, (Z.div_small yoe), Z.mod_add, Z.mod_small by lia.
    replace (if 10 <=? mp then m + 9 else m - 3) with mp by (subst m; destruct (Z.ltb_spec mp 10), (Z.leb_spec 10 mp); lia).
    lia.
Qed.

(** ** Digits *)

Definition digit_char (d : Z) : ascii := ascii_of_nat (Z.to_nat (48 + d)).
Definition char_digit (c : ascii) : option Z :=
  let n := Z.of_nat (nat_of_ascii c) in if (48 <=? n) && (n <=? 57) then Some (n - 48) else None.

(** the last [n] decimal digits of [z] *)
Fixpoint digits (n : nat) (z : Z) : string :=
  match n with
  | O => EmptyString
  | S n' => String (digit_char (z / 10 ^ Z.of_nat n' mod 10)) (digits n' z)
  end.

(** the number in the first [n] characters, and the rest *)
Fixpoint parseUint (n : nat) (s : string) : option (Z * string) :=
  match n with
  | O => Some (0, s)
  | S n' =>
      match s with
      | EmptyString => None
      | String c s' =>
          d ← char_digit c; r ← parseUint n' s'; Some (d * 10 ^ Z.of_nat n' + fst r, snd r)
      end
  end.

Lemma char_digit_char d : 0 <= d < 10 → char_digit (digit_char d) = Some d.
Proof.
  intros H. assert (d = 0 ∨ d = 1 ∨ d = 2 ∨ d = 3 ∨ d = 4 ∨ d = 5 ∨ d = 6 ∨ d = 7 ∨ d = 8 ∨ d = 9) as Hc by lia.
  repeat destruct Hc as [->|Hc]; [reflexivity..|]. by rewrite Hc.
Qed.

Lemma parseUint_digits n z s : parseUint n (digits n z +:+ s) = Some (z mod 10 ^ Z.of_nat n, s).
Proof.
  revert s. induction n as [|n IH]; intros s; simpl; [by rewrite Z.mod_1_r|].
  rewrite char_digit_char by (apply Z.mod_pos_bound; lia). simpl. rewrite IH. simpl.
  rewrite Nat2Z.inj_succ, Z.pow_succ_r by lia. rewrite (Z.mul_comm 10), Z.rem_mul_r by lia. do 2 f_equal. lia.
Qed.

Lemma digits_length n z : String.length (digits n z) = n.
Proof. induction n; simpl; congruence. Qed.

(** A fraction is written without its trailing zeros, and not at all when it
    is zero. *)
Fixpoint trim_zeros (s : string) : string :=
  match s with
  | EmptyString => EmptyString
  | String c s' =>
      match trim_zeros s' with
      | EmptyString => if bool_decide (c = digit_char 0) then EmptyString else String c EmptyString
      | t => String c t
      end
  end.
(** the first [n] characters of [s], filled up with zeros *)
Fixpoint fill_zeros (n : nat) (s : string) : string :=
  match n with
  | O => EmptyString
  | S n' => match s with
            | EmptyString => String (digit_char 0) (fill_zeros n' EmptyString)
            | String c s' => String c (fill_zeros n' s')
            end
  end.

Lemma fill_trim s : fill_zeros (String.length s) (trim_zeros s) = s.
Proof.
  induction s as [|c s IH]; [done|]. simpl. destruct (trim_zeros s) as [|c' t] eqn:E; [|simpl; by rewrite IH].
  case_bool_decide as Hc; simpl; rewrite IH; congruence.
Qed.

(** ** [Time.MarshalJSON] and [Time.UnmarshalJSON] *)

Definition day_ns : Z := 24 * time_Hour.

Definition appendFormatRFC3339 (t : Instant) : string :=
  let '(y, m, d) := civil_of_days (t / day_ns) in
  let ns := t mod day_ns in
  let frac := trim_zeros (digits 9 (ns mod time_Second)) in
  digits 4 y +:+ "-" +:+ digits 2 m +:+ "-" +:+ digits 2 d +:+ "T" +:+
  digits 2 (ns / time_Hour) +:+ ":" +:+ digits 2 (ns / time_Minute mod 60) +:+ ":" +:+ digits 2 (ns / time_Second mod 60) +:+
  (if bool_decide (frac = EmptyString) then EmptyString else "." +:+ frac) +:+ "Z".

Definition year_of (t : Instant) : Z := fst (fst (civil_of_days (t / day_ns))).

Definition Time_MarshalJSON (t : Instant) : option string :=
  let y := year_of t in if (0 <=? y) && (y <=? 9999) then Some (appendFormatRFC3339 t) else None.

Definition expect (c : ascii) (s : string) : option string :=
  match s with String c' s' => if bool_decide (c' = c) then Some s' else None | EmptyString => None end.

(** a number of [n] digits between [min] and [max] *)
Definition parseField (n : nat) (min max : Z) (s : string) : option (Z * string) :=
  r ← parseUint n s; if (min <=? fst r) && (fst r <=? max) then Some r else None.

(** the digits at the front of [s] *)
Fixpoint span_digits (s : string) : string * string :=
  match s with
  | String c s' => match char_digit c with
                   | Some _ => let r := span_digits s' in (String c (fst r), snd r)
                   | None => (EmptyString, s)
                   end
  | EmptyString => (EmptyString, EmptyString)
  end.

Definition dot : ascii := "."%char.

(** the optional fraction, in nanoseconds *)
Definition parseFraction (s : string) : option (Z * string) :=
  match expect dot s with
  | None => Some (0, s)
  | Some s' =>
      let (ds, rest) := span_digits s' in
      if bool_decide (ds = EmptyString) then None else r ← parseUint 9 (fill_zeros 9 ds); Some (fst r, rest)
  end.

(** the offset, in minutes *)
Definition parseZone (s : string) : option Z :=
  if bool_decide (s = "Z") then Some 0
  else match s with
       | String c s' =>
           h ← parseField 2 0 23 s'; s2 ← expect ":"%char (snd h); m ← parseField 2 0 59 s2;
           if bool_decide (snd m = EmptyString) then
             let off := fst h * 60 + fst m in
             if bool_decide (c = "+"%char) then Some off else if bool_decide (c = "-"%char) then Some (- off) else None
           else None
       | EmptyString => None
       end.

Definition parseRFC3339 (s : string) : option Instant :=
  year ← parseField 4 0 9999 s; s1 ← expect "-"%char (snd year);
  month ← parseField 2 1 12 s1; s2 ← expect "-"%char (snd month);
  day ← parseField 2 1 (daysIn (fst month) (fst year)) s2; s3 ← expect "T"%char (snd day);
  hour ← parseField 2 0 23 s3; s4 ← expect ":"%char (snd hour);
  min ← parseField 2 0 59 s4; s5 ← expect ":"%char (snd min);
  sec ← parseField 2 0 59 s5;
  ns ← parseFraction (snd sec); off ← parseZone (snd ns);
  Some (days_of_civil (fst year) (fst month) (fst day) * day_ns + fst hour * time_Hour +
        (fst min - off) * time_Minute + fst sec * time_Second + fst ns).

Definition Time_UnmarshalJSON (s : string) : option Instant := parseRFC3339 s.

(** ** Reading what was written *)

Lemma parseField_digits n min max z s : min <= z <= max → 0 <= z < 10 ^ Z.of_nat n →
  parseField n min max (digits n z +:+ s) = Some (z, s).
Proof.
  intros H Hz. unfold parseField. rewrite parseUint_digits, Z.mod_small by done. simpl.
  by rewrite (proj2 (Z.leb_le min z)), (proj2 (Z.leb_le z max)) by lia.
Qed.

Fixpoint all_digits (s : string) : Prop :=
  match s with EmptyString => True | String c s' => is_Some (char_digit c) ∧ all_digits s' end.
Lemma digits_digits n z : all_digits (digits n z).
Proof. induction n; simpl; [done|]. split; [|done]. rewrite char_digit_char; [by eexists|apply Z.mod_pos_bound; lia]. Qed.
Lemma trim_digits s : all_digits s → all_digits (trim_zeros s).
Proof.
  induction s as [|c s IH]; [done|]. intros [Hc Hs]. specialize (IH Hs). simpl.
  destruct (trim_zeros s); [by case_bool_decide|by split].
Qed.
Lemma span_all s c rest : all_digits s → char_digit c = None → span_digits (s +:+ String c rest) = (s, String c rest).
Proof.
  intros Hs Hc. induction s as [|x s IH]; simpl; [by rewrite Hc|].
  destruct Hs as [[d ->] Hs]. change (String.append s (String c rest)) with (s +:+ String c rest). by rewrite (IH Hs).
Qed.

Lemma append_nil_r s : s +:+ EmptyString = s.
Proof. induction s as [|c s IH]; [done|]. exact (f_equal (String c) IH). Qed.

Lemma parseUint_all n z : parseUint n (digits n z) = Some (z mod 10 ^ Z.of_nat n, EmptyString).
Proof. rewrite <-(append_nil_r (digits n z)). apply parseUint_digits. Qed.

Lemma parseFraction_written z : 0 <= z < time_Second → let frac := trim_zeros (digits 9 z) in
  parseFraction ((if bool_decide (frac = EmptyString) then EmptyString else "." +:+ frac) +:+ "Z") = Some (z, "Z").
Proof.
  intros Hz frac. pose proof (fill_trim (digits 9 z)) as Hf. rewrite digits_length in Hf. change (fill_zeros 9 frac = digits 9 z) in Hf.
  pose proof (trim_digits _ (digits_digits 9 z)) as Hd. change (all_digits frac) in Hd. clearbody frac.
  pose proof (parseUint_all 9 z) as Hp. rewrite <-Hf, Z.mod_small in Hp by exact Hz.
  case_bool_decide as He.
  - subst frac. simpl in Hp. injection Hp as <-. reflexivity.
  - unfold parseFraction. change (expect dot (("." +:+ frac) +:+ "Z")) with (Some (frac +:+ "Z")). cbv beta iota.
    rewrite (span_all frac "Z"%char EmptyString Hd eq_refl). cbv beta iota. rewrite bool_decide_eq_false_2 by exact He.
    rewrite Hp. reflexivity.
Qed.

Lemma expect_cons c s : expect c (String c s) = Some s.
Proof. simpl. by rewrite bool_decide_eq_true_2. Qed.


Lemma append_char c s : String c EmptyString +:+ s = String c s.
Proof. done. Qed.

#[local] Opaque digits.
Lemma time_json_roundtrip t s : Time_MarshalJSON t = Some s → Time_UnmarshalJSON s = Some t.
Proof.
  unfold Time_MarshalJSON, Time_UnmarshalJSON, year_of, appendFormatRFC3339.
  pose proof (civil_of_days_ok (t / day_ns)) as Hc. destruct (civil_of_days (t / day_ns)) as [[y m] d].
  destruct Hc as (Hm & Hd & Hdays). cbn [fst]. destruct (_ && _) eqn:Hy; [|done]. intros [= <-].
  apply andb_true_iff in Hy as [Hy1%Z.leb_le Hy2%Z.leb_le].
  assert (daysIn m y <= 31) as Hdm by (unfold daysIn; repeat case_match; lia).
  set (ns := t mod day_ns). assert (0 <= ns < 86400000000000) as Hns by (apply Z.mod_pos_bound; reflexivity).
  assert (t = t / day_ns * day_ns + ns) as Ht by (rewrite Z.mul_comm; apply Z.div_mod; discriminate). clearbody ns.
  pose proof (parseFraction_written (ns mod time_Second) ltac:(apply Z.mod_pos_bound; reflexivity)) as Hf.
  cbv zeta in Hf. set (fr := (if bool_decide _ then _ else _) +:+ "Z") in *. clearbody fr. rewrite <-Hdays in Ht.
  set (hh := ns / time_Hour). set (mi := ns / time_Minute mod 60). set (se := ns / time_Second mod 60).
  assert (0 <= hh <= 23 ∧ 0 <= mi <= 59 ∧ 0 <= se <= 59 ∧ ns = hh * time_Hour + mi * time_Minute + se * time_Second + ns mod time_Second)
    as (Hh & Hmi & Hse & Esum).
  { subst hh mi se. change time_Hour with 3600000000000. change time_Minute with 60000000000. change time_Second with 1000000000.
    repeat split; divs. }
  clearbody hh mi se. rewrite !append_char. unfold parseRFC3339.
  repeat (rewrite parseField_digits by (simpl; lia); cbn [mbind option_bind fst snd];
          first [rewrite expect_cons; cbn [mbind option_bind fst snd]|idtac]).
  rewrite Hf. cbn [mbind option_bind fst snd]. change (parseZone "Z") with (Some 0). cbn [mbind option_bind].
  f_equal. rewrite Ht at 1. lia.
Qed.
