(* ===== verification/Json.v ===== *)
(** * JSON

    JSON values, as a JSONB column holds them, and what the program uses of
    [encoding/json]: writing structs of strings, booleans, numbers, times and
    raw values member by member, and reading them back.  Reading follows
    [json.Unmarshal]: a member sets the field of its name, whatever the case
    of its letters, later members win, [null] leaves a string, number, boolean
    or time as it was, unknown members are skipped, a value of another type is
    an error.  Strings are UTF-8. *)

From S2P Require Import Prelude Entity Rfc3339.
From stdpp Require Import base strings list.
From Stdlib Require Import ZArith Lia Ascii.

#[local] Set Warnings "-register-all".
Inductive Json : Type :=
  | JNull
  | JBool (b : bool)
  | JInt (n : Z)               (** a number written as an integer *)
  | JDecimal (lit : string)    (** any other number *)
  | JStr (s : string)
  | JArr (l : list Json)
  | JObj (members : list (string * Json)).

(** ** Writing *)

Abbreviation Members := (list (string * Json)).
Definition str_member (name s : string) : Members := [(name, JStr s)].
Definition int_member (name : string) (n : Z) : Members := [(name, JInt n)].
(** fields with [omitempty] behind a pointer *)
Definition opt_member {A} (f : A → Json) (name : string) (o : option A) : Members :=
  match o with Some a => [(name, f a)] | None => [] end.
(** [json.RawMessage]: an empty one is written as [null]. *)
Definition raw_member (name : string) (o : option Json) : Members := [(name, default JNull o)].

(** ** Reading *)

Definition lower (c : ascii) : ascii :=
  let n := nat_of_ascii c in if (65 <=? n)%nat && (n <=? 90)%nat then ascii_of_nat (n + 32) else c.
Fixpoint fold_name (s : string) : string :=
  match s with EmptyString => EmptyString | String c s' => String (lower c) (fold_name s') end.

(** what a member does to a field: a new value, nothing, or an error *)
Definition field_values (name : string) (ms : Members) : list Json :=
  map snd (filter (λ m, fold_name (fst m) = fold_name name) ms).

Definition decode_field {A} (set : A → Json → Result A) (init : A) (name : string) (ms : Members) : Result A :=
  fold_left (λ r j, rbind r (λ a, set a j)) (field_values name ms) (Ok init).

Definition type_mismatch {A} : Result A := Fail (EMsg "json: cannot unmarshal").

Definition set_string (cur : string) (j : Json) : Result string :=
  match j with JNull => Ok cur | JStr s => Ok s | _ => type_mismatch end.
Definition set_int32 (cur : Z) (j : Json) : Result Z :=
  match j with
  | JNull => Ok cur
  | JInt n => if ((- 2 ^ 31 <=? n) && (n <? 2 ^ 31))%Z then Ok n else type_mismatch
  | _ => type_mismatch
  end.
(** pointers: [null] makes them nil *)
Definition set_ptr {A} (zero : A) (set : A → Json → Result A) (cur : option A) (j : Json) : Result (option A) :=
  match j with JNull => Ok None | _ => rbind (set (default zero cur) j) (λ a, Ok (Some a)) end.
Definition set_bool (cur : bool) (j : Json) : Result bool :=
  match j with JNull => Ok cur | JBool b => Ok b | _ => type_mismatch end.
Definition set_time (cur : Instant) (j : Json) : Result Instant :=
  match j with
  | JNull => Ok cur
  | JStr s => match Time_UnmarshalJSON s with Some t => Ok t | None => Fail (EMsg "parsing time") end
  | _ => Fail (EMsg "Time.UnmarshalJSON: input is not a JSON string")
  end.
Definition set_raw (cur : option Json) (j : Json) : Result (option Json) := Ok (Some j).

(** the members of an object; [null] has none *)
Definition json_members (j : Json) : Result Members :=
  match j with JObj ms => Ok ms | JNull => Ok [] | _ => type_mismatch end.

Example members_read : ∀ s, decode_field set_string EmptyString "session_id" [("x", JNull); ("Session_ID", JStr s); ("session_id", JNull)] = Ok s.
Proof. reflexivity. Qed.
