(* ===== verification/Headless.v ===== *)
(** * Messages of the headless container

    The messages of [src/pbgen/headless/v1/headless.pb.go] the program stores,
    caches and passes on, field by field; unknown fields are not modelled.
    Enumerations are their numbers, a [float32] is its bit pattern, message
    fields and optional fields are options, as the pointers of the generated
    code. *)

From S2P Require Import Prelude Entity.
From stdpp Require Import base strings list.
From Stdlib Require Import ZArith.
#[local] Open Scope Z_scope.

Abbreviation Float32 := Z.

Record RecordId : Type := mkRecordId {
  ri_Id : string; ri_OwnerId : string }.

Record DefaultUserRole : Type := mkDefaultUserRole {
  du_Role : string; du_UserName : string }.

(** the oneof [load_world] *)
Inductive LoadWorld : Type := LoadWorldUrl (url : string) | LoadWorldPresetName (name : string).

Record WorldStartupParameters : Type := mkWorldStartupParameters {
  wsp_Name : option string; wsp_CustomSessionId : option string; wsp_Description : option string; wsp_Tags : list string;
  wsp_MaxUsers : option Z; wsp_AccessLevel : Z; wsp_LoadWorld : option LoadWorld; wsp_AutoInviteUsernames : list string;
  wsp_HideFromPublicListing : bool; wsp_DefaultUserRoles : list DefaultUserRole; wsp_AwayKickMinutes : Float32;
  wsp_IdleRestartIntervalSeconds : Z; wsp_SaveOnExit : bool; wsp_AutoSaveIntervalSeconds : Z; wsp_AutoSleep : bool;
  wsp_InviteRequestHandlerUsernames : list string; wsp_ForcePort : Z; wsp_ParentSessionIds : list string; wsp_AutoRecover : bool;
  wsp_ForcedRestartIntervalSeconds : Z; wsp_UseCustomJoinVerifier : bool; wsp_MobileFriendly : bool;
  wsp_OverrideCorrespondingWorldId : option RecordId; wsp_KeepOriginalRoles : bool; wsp_RoleCloudVariable : option string;
  wsp_AllowUserCloudVariable : option string; wsp_DenyUserCloudVariable : option string;
  wsp_RequiredUserJoinCloudVariable : option string; wsp_RequiredUserJoinCloudVariableDenyMessage : option string;
  wsp_AutoInviteMessage : option string; wsp_JoinAllowedUserIds : list string }.

(** [headlessv1.Session] *)
Record HeadlessSession : Type := mkHeadlessSession {
  hs_Id : string; hs_Name : string; hs_Description : string; hs_AccessLevel : Z; hs_UsersCount : Z; hs_MaxUsers : Z;
  hs_ThumbnailUrl : option string; hs_StartupParameters : option WorldStartupParameters; hs_SessionUrl : string;
  hs_TimeRunningMs : Z; hs_AwayKickMinutes : Float32; hs_IdleRestartIntervalSeconds : Z; hs_SaveOnExit : bool;
  hs_AutoSaveIntervalSeconds : Z; hs_AutoSleep : bool; hs_HideFromPublicListing : bool; hs_Tags : list string;
  hs_LastSavedAt : option Instant; hs_CanSave : bool; hs_WorldUrl : string; hs_StartedAt : option Instant;
  hs_ConnectUris : list string; hs_CanSaveAs : bool; hs_ResoniteLinkClientsCount : Z }.

Record UpdateSessionParametersRequest : Type := mkUpdateSessionParametersRequest {
  usp_SessionId : string; usp_Name : option string; usp_Description : option string; usp_MaxUsers : option Z;
  usp_AccessLevel : option Z; usp_AwayKickMinutes : option Float32; usp_IdleRestartIntervalSeconds : option Z;
  usp_SaveOnExit : option bool; usp_AutoSaveIntervalSeconds : option Z; usp_AutoSleep : option bool;
  usp_HideFromPublicListing : option bool; usp_UpdateTags : bool; usp_Tags : list string;
  usp_UseCustomJoinVerifier : option bool; usp_MobileFriendly : option bool; usp_OverrideCorrespondingWorldId : option RecordId;
  usp_RoleCloudVariable : option string; usp_AllowUserCloudVariable : option string; usp_DenyUserCloudVariable : option string;
  usp_RequiredUserJoinCloudVariable : option string; usp_RequiredUserJoinCloudVariableDenyMessage : option string }.

Record AllowedAccessEntry : Type := mkAllowedAccessEntry {
  aae_Host : string; aae_Ports : list Z; aae_AccessTypes : list Z }.

Record StartupConfig : Type := mkStartupConfig {
  sc_UniverseId : option string; sc_TickRate : option Float32; sc_MaxConcurrentAssetTransfers : option Z;
  sc_UsernameOverride : option string; sc_StartWorlds : list WorldStartupParameters;
  sc_AllowedUrlHosts : list AllowedAccessEntry; sc_AutoSpawnItems : list string }.

(** ** Empty messages *)

Definition startup_zero : WorldStartupParameters :=
  mkWorldStartupParameters None None None [] None 0 None [] false [] 0 0 false 0 false [] 0 [] false 0 false false None false None None None None None None [].
Definition update_zero : UpdateSessionParametersRequest :=
  mkUpdateSessionParametersRequest EmptyString None None None None None None None None None None false [] None None None None None None None None.
Definition session_zero : HeadlessSession :=
  mkHeadlessSession EmptyString EmptyString EmptyString 0 0 0 None None EmptyString 0 0 0 false 0 false false [] None false EmptyString None [] false 0.

(** ** Assignments to a field *)

Definition set_LoadWorld (v : option LoadWorld) (m : WorldStartupParameters) : WorldStartupParameters :=
  mkWorldStartupParameters
    (wsp_Name m) (wsp_CustomSessionId m) (wsp_Description m) (wsp_Tags m) (wsp_MaxUsers m) (wsp_AccessLevel m) v
    (wsp_AutoInviteUsernames m) (wsp_HideFromPublicListing m) (wsp_DefaultUserRoles m) (wsp_AwayKickMinutes m)
    (wsp_IdleRestartIntervalSeconds m) (wsp_SaveOnExit m) (wsp_AutoSaveIntervalSeconds m) (wsp_AutoSleep m)
    (wsp_InviteRequestHandlerUsernames m) (wsp_ForcePort m) (wsp_ParentSessionIds m) (wsp_AutoRecover m)
    (wsp_ForcedRestartIntervalSeconds m) (wsp_UseCustomJoinVerifier m) (wsp_MobileFriendly m)
    (wsp_OverrideCorrespondingWorldId m) (wsp_KeepOriginalRoles m) (wsp_RoleCloudVariable m) (wsp_AllowUserCloudVariable m)
    (wsp_DenyUserCloudVariable m) (wsp_RequiredUserJoinCloudVariable m) (wsp_RequiredUserJoinCloudVariableDenyMessage m)
    (wsp_AutoInviteMessage m) (wsp_JoinAllowedUserIds m).
Definition set_ForcePort (v : Z) (m : WorldStartupParameters) : WorldStartupParameters :=
  mkWorldStartupParameters
    (wsp_Name m) (wsp_CustomSessionId m) (wsp_Description m) (wsp_Tags m) (wsp_MaxUsers m) (wsp_AccessLevel m) (wsp_LoadWorld m)
    (wsp_AutoInviteUsernames m) (wsp_HideFromPublicListing m) (wsp_DefaultUserRoles m) (wsp_AwayKickMinutes m)
    (wsp_IdleRestartIntervalSeconds m) (wsp_SaveOnExit m) (wsp_AutoSaveIntervalSeconds m) (wsp_AutoSleep m)
    (wsp_InviteRequestHandlerUsernames m) v (wsp_ParentSessionIds m) (wsp_AutoRecover m) (wsp_ForcedRestartIntervalSeconds m)
    (wsp_UseCustomJoinVerifier m) (wsp_MobileFriendly m) (wsp_OverrideCorrespondingWorldId m) (wsp_KeepOriginalRoles m)
    (wsp_RoleCloudVariable m) (wsp_AllowUserCloudVariable m) (wsp_DenyUserCloudVariable m) (wsp_RequiredUserJoinCloudVariable m)
    (wsp_RequiredUserJoinCloudVariableDenyMessage m) (wsp_AutoInviteMessage m) (wsp_JoinAllowedUserIds m).
Definition set_WorldUrl (v : string) (m : HeadlessSession) : HeadlessSession :=
  mkHeadlessSession
    (hs_Id m) (hs_Name m) (hs_Description m) (hs_AccessLevel m) (hs_UsersCount m) (hs_MaxUsers m) (hs_ThumbnailUrl m)
    (hs_StartupParameters m) (hs_SessionUrl m) (hs_TimeRunningMs m) (hs_AwayKickMinutes m) (hs_IdleRestartIntervalSeconds m)
    (hs_SaveOnExit m) (hs_AutoSaveIntervalSeconds m) (hs_AutoSleep m) (hs_HideFromPublicListing m) (hs_Tags m) (hs_LastSavedAt m)
    (hs_CanSave m) v (hs_StartedAt m) (hs_ConnectUris m) (hs_CanSaveAs m) (hs_ResoniteLinkClientsCount m).
Definition set_UsersCount (v : Z) (m : HeadlessSession) : HeadlessSession :=
  mkHeadlessSession
    (hs_Id m) (hs_Name m) (hs_Description m) (hs_AccessLevel m) v (hs_MaxUsers m) (hs_ThumbnailUrl m) (hs_StartupParameters m)
    (hs_SessionUrl m) (hs_TimeRunningMs m) (hs_AwayKickMinutes m) (hs_IdleRestartIntervalSeconds m) (hs_SaveOnExit m)
    (hs_AutoSaveIntervalSeconds m) (hs_AutoSleep m) (hs_HideFromPublicListing m) (hs_Tags m) (hs_LastSavedAt m) (hs_CanSave m)
    (hs_WorldUrl m) (hs_StartedAt m) (hs_ConnectUris m) (hs_CanSaveAs m) (hs_ResoniteLinkClientsCount m).
Definition set_update_SessionId (v : string) (m : UpdateSessionParametersRequest) : UpdateSessionParametersRequest :=
  mkUpdateSessionParametersRequest
    v (usp_Name m) (usp_Description m) (usp_MaxUsers m) (usp_AccessLevel m) (usp_AwayKickMinutes m)
    (usp_IdleRestartIntervalSeconds m) (usp_SaveOnExit m) (usp_AutoSaveIntervalSeconds m) (usp_AutoSleep m)
    (usp_HideFromPublicListing m) (usp_UpdateTags m) (usp_Tags m) (usp_UseCustomJoinVerifier m) (usp_MobileFriendly m)
    (usp_OverrideCorrespondingWorldId m) (usp_RoleCloudVariable m) (usp_AllowUserCloudVariable m) (usp_DenyUserCloudVariable m)
    (usp_RequiredUserJoinCloudVariable m) (usp_RequiredUserJoinCloudVariableDenyMessage m).

Lemma set_update_same m : set_update_SessionId (usp_SessionId m) m = m.
Proof. by destruct m. Qed.

(** ** Getters of optional fields *)

Definition GetName (m : WorldStartupParameters) : string := default EmptyString (wsp_Name m).

Definition AccessLevel_String (n : Z) : string :=
  if n =? 0 then "ACCESS_LEVEL_UNSPECIFIED" else if n =? 1 then "ACCESS_LEVEL_PRIVATE" else if n =? 2 then "ACCESS_LEVEL_LAN"
  else if n =? 3 then "ACCESS_LEVEL_CONTACTS" else if n =? 4 then "ACCESS_LEVEL_CONTACTS_PLUS"
  else if n =? 5 then "ACCESS_LEVEL_REGISTERED_USERS" else if n =? 6 then "ACCESS_LEVEL_ANYONE" else fmt_d n.
