(* ===== verification/StateCache.v ===== *)
(** * The cache of session states

    [src/adapter/sessionstate/cache.go]: the last snapshot of each session with
    the host it came from, and an index from hosts to their sessions.  A method
    holds the lock from start to end, so it is one function of the cache.  The
    specification is a map from sessions to their host and snapshot. *)

From S2P Require Import Prelude Entity Headless.
From stdpp Require Import base gmap strings list.
From Stdlib Require Import ZArith Lia.

Record entry : Type := mkEntry { e_hostID : string; e_snapshot : HeadlessSession }.

Record MemoryCache : Type := mkCache {
  c_sessions : gmap string entry;
  c_hostSessions : gmap string (gset string) }.

Definition NewMemoryCache : MemoryCache := mkCache ∅ ∅.

Definition Cache_Get (sessionID : string) (c : MemoryCache) : option HeadlessSession := e_snapshot <$> c_sessions c !! sessionID.

Definition removeFromHostIndex (hostID sessionID : string) (idx : gmap string (gset string)) : gmap string (gset string) :=
  match idx !! hostID with
  | None => idx
  | Some set =>
      let set := set ∖ {[sessionID]} in
      if bool_decide (set = ∅) then delete hostID idx else <[hostID := set]> idx
  end.

Definition Cache_Set (hostID sessionID : string) (snapshot : option HeadlessSession) (c : MemoryCache) : MemoryCache :=
  match snapshot with
  | None => c
  | Some snapshot =>
      let idx := match c_sessions c !! sessionID with
                 | Some prev => if bool_decide (e_hostID prev = hostID) then c_hostSessions c
                                else removeFromHostIndex (e_hostID prev) sessionID (c_hostSessions c)
                 | None => c_hostSessions c
                 end in
      mkCache (<[sessionID := mkEntry hostID snapshot]> (c_sessions c)) (<[hostID := {[sessionID]} ∪ default ∅ (idx !! hostID)]> idx)
  end.

Definition Cache_Delete (sessionID : string) (c : MemoryCache) : MemoryCache :=
  match c_sessions c !! sessionID with
  | None => c
  | Some e => mkCache (delete sessionID (c_sessions c)) (removeFromHostIndex (e_hostID e) sessionID (c_hostSessions c))
  end.

(** The loop deletes the dead sessions of the host one by one from both maps. *)
Definition Cache_PruneHost (hostID : string) (liveSessionIDs : gset string) (c : MemoryCache) : MemoryCache :=
  match c_hostSessions c !! hostID with
  | None => c
  | Some set =>
      let dead := set ∖ liveSessionIDs in
      let live := set ∖ dead in
      mkCache (set_fold delete (c_sessions c) dead)
        (if bool_decide (live = ∅) then delete hostID (c_hostSessions c) else <[hostID := live]> (c_hostSessions c))
  end.

(** ** The index *)

(** The index holds exactly the sessions of each host, and no empty set. *)
Record cache_ok (c : MemoryCache) : Prop := {
  index_exact h s : (∃ set, c_hostSessions c !! h = Some set ∧ s ∈ set) ↔ (∃ e, c_sessions c !! s = Some e ∧ e_hostID e = h);
  index_nonempty h set : c_hostSessions c !! h = Some set → set ≠ ∅ }.

(** The sessions the index gives for a host. *)
Definition indexed (idx : gmap string (gset string)) (h s : string) : Prop := ∃ set, idx !! h = Some set ∧ s ∈ set.
Definition no_empty (idx : gmap string (gset string)) : Prop := ∀ h set, idx !! h = Some set → set ≠ ∅.

Lemma indexed_insert idx h set h' s : indexed (<[h := set]> idx) h' s ↔ (h' = h ∧ s ∈ set) ∨ (h' ≠ h ∧ indexed idx h' s).
Proof.
  unfold indexed. destruct (decide (h' = h)) as [->|Hne].
  - rewrite lookup_insert_eq. naive_solver.
  - rewrite lookup_insert_ne by done. naive_solver.
Qed.
Lemma indexed_delete idx h h' s : indexed (delete h idx) h' s ↔ h' ≠ h ∧ indexed idx h' s.
Proof.
  unfold indexed. destruct (decide (h' = h)) as [->|Hne].
  - rewrite lookup_delete_eq. naive_solver.
  - rewrite lookup_delete_ne by done. naive_solver.
Qed.
Lemma no_empty_insert idx h set : set ≠ ∅ → no_empty idx → no_empty (<[h := set]> idx).
Proof. intros Hs Hi h' set' [[<- <-]|[_ ?]]%lookup_insert_Some; [done|by eapply Hi]. Qed.
Lemma no_empty_delete idx h : no_empty idx → no_empty (delete h idx).
Proof. intros Hi h' set' [_ ?]%lookup_delete_Some. by eapply Hi. Qed.

Lemma removed_indexed h s idx h' s' :
  indexed (removeFromHostIndex h s idx) h' s' ↔ indexed idx h' s' ∧ ¬ (h' = h ∧ s' = s).
Proof.
  unfold removeFromHostIndex. destruct (idx !! h) as [set|] eqn:E.
  - case_bool_decide as Hs; rewrite ?indexed_delete, ?indexed_insert; unfold indexed;
      (destruct (decide (h' = h)) as [->|Hne]; [rewrite E; set_solver|naive_solver]).
  - split; [|tauto]. intros H. split; [done|]. intros [-> ->]. destruct H as (set & Hset & _). congruence.
Qed.
Lemma removed_no_empty h s idx : no_empty idx → no_empty (removeFromHostIndex h s idx).
Proof.
  intros H. unfold removeFromHostIndex. destruct (idx !! h) as [set|]; [|done].
  case_bool_decide; [by apply no_empty_delete|by apply no_empty_insert].
Qed.

(** ** The specification *)

(** What the cache says: the host and the snapshot of each session. *)
Definition cached (c : MemoryCache) : gmap string (string * HeadlessSession) := (λ e, (e_hostID e, e_snapshot e)) <$> c_sessions c.

Lemma lookup_fold_delete {A} (dead : gset string) (m : gmap string A) s x :
  (set_fold delete m dead) !! s = Some x ↔ (s ∉ dead) ∧ m !! s = Some x.
Proof.
  revert s x. apply (set_fold_ind_L (λ r X, ∀ s x, r !! s = Some x ↔ (s ∉ X) ∧ m !! s = Some x)); [set_solver|].
  intros y X r Hy IH s x. rewrite lookup_delete_Some, IH, not_elem_of_union, not_elem_of_singleton. naive_solver.
Qed.

Lemma cache_ok_intro c : no_empty (c_hostSessions c) →
  (∀ h s, indexed (c_hostSessions c) h s ↔ ∃ e, c_sessions c !! s = Some e ∧ e_hostID e = h) → cache_ok c.
Proof. intros Hn Hi. by split. Qed.
Lemma cache_index c h s : cache_ok c → indexed (c_hostSessions c) h s ↔ ∃ e, c_sessions c !! s = Some e ∧ e_hostID e = h.
Proof. intros [Hi _]. apply Hi. Qed.

Lemma Cache_Set_ok h s o c : cache_ok c → cache_ok (Cache_Set h s o c).
Proof.
  intros Hok. pose proof (λ h s, cache_index c h s Hok) as Hi. destruct o as [x|]; [|done]. unfold Cache_Set. cbv zeta.
  set (idx := match c_sessions c !! s with Some prev => _ | None => _ end).
  assert (no_empty idx) as Hn.
  { subst idx. pose proof (index_nonempty c Hok) as Hn. destruct (c_sessions c !! s) as [p|]; [|exact Hn].
    case_bool_decide; [exact Hn|by apply removed_no_empty]. }
  assert (∀ h' s', indexed idx h' s' ↔ indexed (c_hostSessions c) h' s' ∧ (s' = s → h' = h)) as Hidx.
  { intros h' s'. subst idx. destruct (c_sessions c !! s) as [p|] eqn:Ep.
    - case_bool_decide as Hp; [|rewrite removed_indexed]; rewrite Hi; split; naive_solver.
    - rewrite Hi. split; [|tauto]. intros H. split; [done|]. intros ->. naive_solver. }
  apply cache_ok_intro; simpl; [apply no_empty_insert; [set_solver|done]|].
  intros h' s'. rewrite indexed_insert.
  assert (∀ s', s' ∈ default ∅ (idx !! h) ↔ indexed idx h s') as Hd.
  { intros s0. unfold indexed. destruct (idx !! h); simpl; [naive_solver|set_solver]. }
  rewrite elem_of_union, elem_of_singleton, Hd, !Hidx, Hi, !Hi. destruct (decide (s' = s)) as [->|Hne].
  - rewrite lookup_insert_eq. split.
    + intros [[-> _]|[Hne [_ H]]]; [by eexists|by destruct Hne; apply H].
    + intros (e & [= <-] & <-). left. split; [done|by left].
  - rewrite lookup_insert_ne by done. split.
    + intros [[-> [?|[H _]]]|[_ [H _]]]; done.
    + intros H. destruct (decide (h' = h)) as [->|Hh]; [left; split; [done|right; done]|right; done].
Qed.

Lemma Cache_Delete_ok s c : cache_ok c → cache_ok (Cache_Delete s c).
Proof.
  intros Hok. pose proof (λ h s, cache_index c h s Hok) as Hi. unfold Cache_Delete. destruct (c_sessions c !! s) as [e|] eqn:Es; [|done].
  apply cache_ok_intro; simpl; [apply removed_no_empty; exact (index_nonempty c Hok)|].
  intros h' s'. rewrite removed_indexed, Hi. destruct (decide (s' = s)) as [->|Hne].
  - rewrite lookup_delete_eq. split; [|by intros (e' & ? & _)]. intros [(e' & He & <-) Hn]. destruct Hn. rewrite Es in He. by injection He as ->.
  - rewrite lookup_delete_ne by done. split; [by intros [? _]|]. intros H. split; [done|]. by intros [_ ?].
Qed.

Lemma Cache_PruneHost_ok h live c : cache_ok c → cache_ok (Cache_PruneHost h live c).
Proof.
  intros Hok. pose proof (λ h s, cache_index c h s Hok) as Hi. unfold Cache_PruneHost. destruct (c_hostSessions c !! h) as [set|] eqn:Eh; [|done].
  pose proof (index_nonempty c Hok) as Hn.
  assert (∀ s', s' ∈ set ↔ ∃ e, c_sessions c !! s' = Some e ∧ e_hostID e = h) as Hset.
  { intros s'. rewrite <-Hi. unfold indexed. rewrite Eh. naive_solver. }
  assert (∀ h' s', (∃ e, set_fold delete (c_sessions c) (set ∖ live) !! s' = Some e ∧ e_hostID e = h') ↔
            (∃ e, c_sessions c !! s' = Some e ∧ e_hostID e = h') ∧ (h' = h → s' ∈ live)) as Hnew.
  { intros h' s'. split.
    - intros (e & [Hd He]%lookup_fold_delete & <-). split; [by exists e|]. intros Hh. destruct (decide (s' ∈ live)); [done|].
      destruct Hd. apply elem_of_difference. split; [|done]. apply Hset. by exists e.
    - intros [(e & He & <-) Hl]. exists e. split; [|done]. apply lookup_fold_delete. split; [|done].
      intros [Hs Hno]%elem_of_difference. apply Hset in Hs as (e' & He' & Hh). apply Hno, Hl. congruence. }
  apply cache_ok_intro; simpl.
  - case_bool_decide; [by apply no_empty_delete|by apply no_empty_insert].
  - intros h' s'. rewrite Hnew. case_bool_decide as Hl; rewrite ?indexed_delete, ?indexed_insert, Hi.
    + split; [naive_solver|]. intros [He Hlive]. split; [|done]. intros ->. apply Hset in He. specialize (Hlive eq_refl). set_solver.
    + split.
      * intros [[-> Hs]|[Hne He]]; [|naive_solver]. split; [apply Hset; set_solver|set_solver].
      * intros [He Hlive]. destruct (decide (h' = h)) as [->|Hne]; [left|by right]. split; [done|]. apply Hset in He. set_solver.
Qed.

(** The operations on the map the cache stands for. *)
Lemma cached_Set h s x c : cached (Cache_Set h s (Some x) c) = <[s := (h, x)]> (cached c).
Proof. unfold cached, Cache_Set. simpl. by rewrite fmap_insert. Qed.
Lemma cached_Delete s c : cached (Cache_Delete s c) = delete s (cached c).
Proof.
  unfold cached, Cache_Delete. destruct (c_sessions c !! s) as [e|] eqn:E; simpl; [by rewrite fmap_delete|].
  rewrite delete_id; [done|]. by rewrite lookup_fmap, E.
Qed.

Lemma cached_PruneHost h live c s p : cache_ok c →
  cached (Cache_PruneHost h live c) !! s = Some p ↔ cached c !! s = Some p ∧ (fst p = h → s ∈ live).
Proof.
  intros Hok. unfold cached. rewrite !lookup_fmap_Some.
  unfold Cache_PruneHost. destruct (c_hostSessions c !! h) as [set|] eqn:Eh; simpl.
  - assert (∀ e, c_sessions c !! s = Some e → (s ∈ set ↔ e_hostID e = h)) as Hset.
    { intros e He. pose proof (cache_index c h s Hok) as Hi. unfold indexed in Hi. rewrite Eh in Hi. naive_solver. }
    split.
    + intros (e & <- & [Hd He]%lookup_fold_delete). split; [eauto|]. simpl. intros Hh. apply (Hset e He) in Hh. destruct (decide (s ∈ live)); set_solver.
    + intros [(e & <- & He) Hl]. exists e. split; [done|]. apply lookup_fold_delete. split; [|done]. simpl in Hl. intros [Hs Hn]%elem_of_difference.
      by apply Hn, Hl, (Hset e He).
  - split; [|tauto]. intros (e & <- & He). split; [eauto|]. simpl. intros Hh.
    assert (indexed (c_hostSessions c) h s) as (set & Hset & _) by (apply (cache_index c h s Hok); eauto). congruence.
Qed.

(** C22. The cache with its index is the map it stands for: along any sequence
    of operations the index stays exact and without empty sets, setting,
    deleting and getting a session are those of the map, and pruning a host
    keeps exactly the sessions of other hosts and its live ones, in whatever
    order the loop deletes. *)
Theorem cache_refines_map (c : MemoryCache) :
  cache_ok c →
  (∀ s, Cache_Get s c = snd <$> cached c !! s) ∧
  (∀ h s x, let c' := Cache_Set h s (Some x) c in cache_ok c' ∧ cached c' = <[s := (h, x)]> (cached c)) ∧
  (∀ s, let c' := Cache_Delete s c in cache_ok c' ∧ cached c' = delete s (cached c)) ∧
  (∀ h live, let c' := Cache_PruneHost h live c in
     cache_ok c' ∧ ∀ s p, cached c' !! s = Some p ↔ cached c !! s = Some p ∧ (fst p = h → s ∈ live)).
Proof.
  intros Hok. split; [|split; [|split]].
  - intros s. unfold Cache_Get, cached. rewrite lookup_fmap. by destruct (c_sessions c !! s).
  - intros h s x. split; [by apply Cache_Set_ok|apply cached_Set].
  - intros s. split; [by apply Cache_Delete_ok|apply cached_Delete].
  - intros h live. split; [by apply Cache_PruneHost_ok|]. intros s p. by apply cached_PruneHost.
Qed.

Lemma empty_cache_ok : cache_ok NewMemoryCache.
Proof. apply cache_ok_intro; [by intros h set|]. intros h s. unfold indexed. simpl. split; [|by intros (e & ? & _)]. by intros (set & ? & _). Qed.

Lemma cache_refines_map_witness :
  let c := Cache_Set "h2" "s1" (Some session_zero) (Cache_Set "h1" "s1" (Some session_zero) NewMemoryCache) in
  (∀ s, Cache_Get s c = snd <$> cached c !! s) ∧
  (∀ h s x, let c' := Cache_Set h s (Some x) c in cache_ok c' ∧ cached c' = <[s := (h, x)]> (cached c)) ∧
  (∀ s, let c' := Cache_Delete s c in cache_ok c' ∧ cached c' = delete s (cached c)) ∧
  (∀ h live, let c' := Cache_PruneHost h live c in
     cache_ok c' ∧ ∀ s p, cached c' !! s = Some p ↔ cached c !! s = Some p ∧ (fst p = h → s ∈ live)).
Proof. intros c. apply (cache_refines_map c). apply Cache_Set_ok, Cache_Set_ok, empty_cache_ok. Defined.
