(* ===== verification/Digest.v ===== *)
(** * Digests and encodings of the standard library

    The functions of [crypto/sha256], [encoding/hex] and [encoding/base64]
    that the program calls, executable: SHA-256 (FIPS 180-4) on bytes, lower
    case hexadecimal, and URL-safe base64 with padding.  A byte is a [Z] in
    [0, 256), a word a [Z] in [0, 2^32). *)

From S2P Require Import Prelude.
From stdpp Require Import base strings list.
From Stdlib Require Import ZArith Lia.
#[local] Open Scope Z_scope.

(** ** Bytes and strings *)

Fixpoint bytes_of (s : string) : list Z :=
  match s with
  | EmptyString => []
  | String c s' => Z.of_nat (Ascii.nat_of_ascii c) :: bytes_of s'
  end.

Definition char (n : Z) : Ascii.ascii := Ascii.ascii_of_nat (Z.to_nat n).

(** ** Hexadecimal *)

Definition hex_digit (n : Z) : Ascii.ascii := if n <? 10 then char (48 + n) else char (87 + n).

Fixpoint hex_EncodeToString (bs : list Z) : string :=
  match bs with
  | [] => EmptyString
  | b :: bs' => String (hex_digit (b / 16)) (String (hex_digit (b mod 16)) (hex_EncodeToString bs'))
  end.

(** ** Base64, URL alphabet, with padding *)

Definition base64_char (n : Z) : Ascii.ascii :=
  if n <? 26 then char (65 + n) else if n <? 52 then char (71 + n) else if n <? 62 then char (n - 4)
  else if n =? 62 then char 45 else char 95.

Fixpoint base64_URLEncode (bs : list Z) : string :=
  let pad := char 61 in
  match bs with
  | [] => EmptyString
  | [a] => String (base64_char (a / 4)) (String (base64_char (a mod 4 * 16)) (String pad (String pad EmptyString)))
  | [a; b] => String (base64_char (a / 4)) (String (base64_char (a mod 4 * 16 + b / 16))
                (String (base64_char (b mod 16 * 4)) (String pad EmptyString)))
  | a :: b :: c :: bs' => String (base64_char (a / 4)) (String (base64_char (a mod 4 * 16 + b / 16))
                (String (base64_char (b mod 16 * 4 + c / 64)) (String (base64_char (c mod 64)) (base64_URLEncode bs'))))
  end.

(** ** SHA-256 *)

Definition w32 (x : Z) : Z := Z.land x 0xffffffff.
Definition rotr (x n : Z) : Z := Z.lor (Z.shiftr x n) (w32 (Z.shiftl x (32 - n))).
Definition lnot32 (x : Z) : Z := Z.lxor x 0xffffffff.

Definition sha_Ch (x y z : Z) : Z := Z.lxor (Z.land x y) (Z.land (lnot32 x) z).
Definition sha_Maj (x y z : Z) : Z := Z.lxor (Z.lxor (Z.land x y) (Z.land x z)) (Z.land y z).
Definition sha_S0 (x : Z) : Z := Z.lxor (Z.lxor (rotr x 2) (rotr x 13)) (rotr x 22).
Definition sha_S1 (x : Z) : Z := Z.lxor (Z.lxor (rotr x 6) (rotr x 11)) (rotr x 25).
Definition sha_s0 (x : Z) : Z := Z.lxor (Z.lxor (rotr x 7) (rotr x 18)) (Z.shiftr x 3).
Definition sha_s1 (x : Z) : Z := Z.lxor (Z.lxor (rotr x 17) (rotr x 19)) (Z.shiftr x 10).

(** The constants of the standard: the first 32 bits of the fractional parts
    of the cube roots of the first 64 primes, and of the square roots of the
    first eight. *)
Definition is_prime (n : nat) : bool :=
  (2 <=? n)%nat && forallb (λ d, negb (n mod d =? 0)%nat) (seq 2 (n - 2)).
Definition sha_primes : list Z := Z.of_nat <$> List.filter is_prime (seq 2 310).

(** the integer cube root, bit by bit, of a number below [2 ^ (3 * bits)] *)
Fixpoint cube_root (bits : nat) (acc n : Z) : Z :=
  match bits with
  | O => acc
  | S bits' =>
      let acc' := acc + 2 ^ Z.of_nat bits' in
      cube_root bits' (if acc' * acc' * acc' <=? n then acc' else acc) n
  end.

Definition sha_K : list Z := Eval vm_compute in ((λ q, w32 (cube_root 36 0 (q * 2 ^ 96))) <$> sha_primes).
Definition sha_H0 : list Z := Eval vm_compute in ((λ q, w32 (Z.sqrt (q * 2 ^ 64))) <$> take 8 sha_primes).

Lemma sha_constants : length sha_K = 64%nat ∧ length sha_H0 = 8%nat ∧ last sha_primes = Some 311.
Proof. vm_compute. done. Qed.

(** the message, one bit, zeros up to a multiple of 64 bytes, the length in bits *)
Definition be_bytes (n : nat) (x : Z) : list Z :=
  (λ i, Z.land (Z.shiftr x (8 * Z.of_nat i)) 255) <$> rev (seq 0 n).
Definition sha_pad (msg : list Z) : list Z :=
  let l := Z.of_nat (length msg) in
  msg ++ [0x80] ++ replicate (Z.to_nat ((55 - l) mod 64)) 0 ++ be_bytes 8 (8 * l).

Fixpoint be_words (n : nat) (bs : list Z) : list Z :=
  match n, bs with
  | S n', a :: b :: c :: d :: bs' => (a * 16777216 + b * 65536 + c * 256 + d) :: be_words n' bs'
  | _, _ => []
  end.

(** the message schedule, latest word first *)
Fixpoint sha_extend (n : nat) (ws : list Z) : list Z :=
  match n with
  | O => ws
  | S n' =>
      let at_ i := nth i ws 0 in
      sha_extend n' (w32 (sha_s1 (at_ 1%nat) + at_ 6%nat + sha_s0 (at_ 14%nat) + at_ 15%nat) :: ws)
  end.

Definition sha_round (st : list Z) (kw : Z * Z) : list Z :=
  match st with
  | [a; b; c; d; e; f; g; h] =>
      let t1 := h + sha_S1 e + sha_Ch e f g + fst kw + snd kw in
      let t2 := sha_S0 a + sha_Maj a b c in
      [w32 (t1 + t2); a; b; c; w32 (d + t1); e; f; g]
  | _ => st
  end.

Definition sha_block (st : list Z) (block : list Z) : list Z :=
  let ws := rev (sha_extend 48 (rev (be_words 16 block))) in
  let st' := foldl sha_round st (combine sha_K ws) in
  zip_with (λ x y, w32 (x + y)) st st'.

Fixpoint sha_blocks (fuel : nat) (st bs : list Z) : list Z :=
  match fuel, bs with
  | S fuel', _ :: _ => sha_blocks fuel' (sha_block st (take 64 bs)) (drop 64 bs)
  | _, _ => st
  end.

Definition sha256_Sum256 (msg : list Z) : list Z :=
  let bs := sha_pad msg in
  sha_blocks (length bs) sha_H0 bs ≫= be_bytes 4.

Example sha256_abc :
  hex_EncodeToString (sha256_Sum256 (bytes_of "abc")) =
  "ba7816bf8f01cfea414140de5dae2223b00361a396177a9cb410ff61f20015ad".
Proof. vm_compute. reflexivity. Qed.

Example sha256_two_blocks :
  hex_EncodeToString (sha256_Sum256 (bytes_of "abcdbcdecdefdefgefghfghighijhijkijkljklmklmnlmnomnopnopq")) =
  "248d6a61d20638b8e5c026930c3e6039a33ce45964ff2167f6ecedd419db06c1".
Proof. vm_compute. reflexivity. Qed.

Example base64_ex : base64_URLEncode [251; 255; 1; 7] = "-_8BBw==".
Proof. reflexivity. Qed.

(** ** Shapes *)

Definition is_byte (b : Z) : Prop := 0 <= b < 256.

Lemma be_bytes_spec n x : length (be_bytes n x) = n ∧ Forall is_byte (be_bytes n x).
Proof.
  split.
  - unfold be_bytes. by rewrite length_fmap, length_rev, length_seq.
  - unfold be_bytes. apply Forall_fmap, Forall_true. intros i. simpl. unfold is_byte.
    rewrite (Z.land_ones _ 8) by lia. apply Z.mod_pos_bound. lia.
Qed.

Lemma zip_with_length {A} (f : A → A → A) l1 l2 :
  length l1 = length l2 → length (zip_with f l1 l2) = length l1.
Proof. intros H. rewrite length_zip_with. lia. Qed.

Lemma sha_round_length st kw : length st = 8%nat → length (sha_round st kw) = 8%nat.
Proof. intros H. by repeat (destruct st as [|? st]; simpl in *; try lia). Qed.

Lemma sha_block_length st b : length st = 8%nat → length (sha_block st b) = 8%nat.
Proof.
  intros H. unfold sha_block. rewrite zip_with_length; [done|].
  rewrite H. symmetry. clear -H. revert st H. induction (combine _ _) as [|kw l IH]; [done|].
  intros st H. simpl. by apply IH, sha_round_length.
Qed.

Lemma sha_blocks_length fuel st bs : length st = 8%nat → length (sha_blocks fuel st bs) = 8%nat.
Proof.
  revert st bs. induction fuel as [|fuel IH]; intros st [|b bs] H; simpl; try done.
  apply IH, sha_block_length, H.
Qed.

Lemma words_bytes_spec (st : list Z) :
  length (st ≫= be_bytes 4) = (4 * length st)%nat ∧ Forall is_byte (st ≫= be_bytes 4).
Proof.
  induction st as [|x st [IHl IHf]]; [by repeat constructor|].
  change ((x :: st) ≫= be_bytes 4) with (be_bytes 4 x ++ (st ≫= be_bytes 4)).
  destruct (be_bytes_spec 4 x) as [Hl Hf].
  split; [rewrite length_app, Hl, IHl; simpl; lia|by apply Forall_app].
Qed.

Lemma sha256_Sum256_spec msg : length (sha256_Sum256 msg) = 32%nat ∧ Forall is_byte (sha256_Sum256 msg).
Proof.
  unfold sha256_Sum256.
  destruct (words_bytes_spec (sha_blocks (length (sha_pad msg)) sha_H0 (sha_pad msg))) as [Hl Hf].
  split; [|done]. rewrite Hl, sha_blocks_length; done.
Qed.

(** ** Identifiers of jobs and scheduled operations

    [formatUUID] and [parseUUID] of [src/adapter/utils.go].  A [pgtype.UUID]
    is an option of its sixteen bytes.  Its [Scan] method belongs to the
    database driver: a class with the one behaviour the code relies on, that
    it reads the canonical form. *)

From Stdlib Require Import ZArith Lia Ascii.
#[local] Open Scope Z_scope.

Abbreviation UUID := (list Z).

Definition valid_uuid (u : UUID) : Prop := length u = 16%nat ∧ Forall is_byte u.

Definition hyphen : string := "-".

(** [src\[i:j\]] *)
Definition slice (i j : nat) (bs : list Z) : list Z := take (j - i) (drop i bs).

Definition formatUUID (u : option UUID) : Result string :=
  match u with
  | None => Fail (EMsg "invalid uuid")
  | Some src =>
      Ok (hex_EncodeToString (slice 0 4 src) +:+ hyphen +:+ hex_EncodeToString (slice 4 6 src) +:+ hyphen +:+
          hex_EncodeToString (slice 6 8 src) +:+ hyphen +:+ hex_EncodeToString (slice 8 10 src) +:+ hyphen +:+
          hex_EncodeToString (slice 10 16 src))
  end.

Class UUIDScan : Type := {
  pgtype_UUID_Scan : string → Result UUID;
  UUID_Scan_canonical u s : valid_uuid u → formatUUID (Some u) = Ok s → pgtype_UUID_Scan s = Ok u }.

Definition parseUUID `{UUIDScan} (id : string) : Result UUID := map_err (EWrap "invalid uuid") (pgtype_UUID_Scan id).

Lemma parse_formatted `{UUIDScan} u s : valid_uuid u → formatUUID (Some u) = Ok s → parseUUID s = Ok u.
Proof. intros Hu Hs. unfold parseUUID. by rewrite (UUID_Scan_canonical u s Hu Hs). Qed.

Lemma format_total u : ∃ s, formatUUID (Some u) = Ok s.
Proof. by eexists. Qed.

(** ** A scanner *)

Definition hex_val (c : ascii) : option Z :=
  let n := Z.of_nat (nat_of_ascii c) in
  if (48 <=? n) && (n <=? 57) then Some (n - 48)
  else if (97 <=? n) && (n <=? 102) then Some (n - 87)
  else if (65 <=? n) && (n <=? 70) then Some (n - 55) else None.

Fixpoint hex_Decode (s : string) : option (list Z) :=
  match s with
  | EmptyString => Some []
  | String a (String b s') => x ← hex_val a; y ← hex_val b; bs ← hex_Decode s'; Some (x * 16 + y :: bs)
  | String _ EmptyString => None
  end.

Definition scan_uuid (s : string) : Result UUID :=
  let n := String.length s in
  let src := if (n =? 36)%nat then
               Some (String.substring 0 8 s +:+ String.substring 9 4 s +:+ String.substring 14 4 s +:+
                     String.substring 19 4 s +:+ String.substring 24 12 s)
             else if (n =? 32)%nat then Some s else None in
  match src ≫= hex_Decode with Some bs => Ok bs | None => Fail (EMsg "cannot parse UUID") end.

Lemma hex_val_digit n : 0 <= n < 16 → hex_val (hex_digit n) = Some n.
Proof.
  intros H. assert (n ∈ seqZ 0 16) as Hin by (apply elem_of_seqZ; lia). revert n Hin H.
  assert (Forall (λ n, hex_val (hex_digit n) = Some n) (seqZ 0 16)) as Hall by (vm_compute; repeat constructor).
  intros n Hin _. by eapply Forall_forall in Hall.
Qed.

Lemma hex_roundtrip bs : Forall is_byte bs → hex_Decode (hex_EncodeToString bs) = Some bs.
Proof.
  induction 1 as [|b bs Hb _ IH]; [done|]. unfold is_byte in Hb. simpl.
  rewrite (hex_val_digit (b / 16)) by (split; [apply Z.div_pos; lia|apply Z.div_lt_upper_bound; lia]). simpl.
  rewrite (hex_val_digit (b mod 16)) by (apply Z.mod_pos_bound; lia). simpl. rewrite IH. simpl. do 2 f_equal.
  pose proof (Z.div_mod b 16). lia.
Qed.

Lemma scan_canonical u s : valid_uuid u → formatUUID (Some u) = Ok s → scan_uuid s = Ok u.
Proof.
  intros [Hl Hb] [= <-]. pose proof (hex_roundtrip u Hb) as H. unfold scan_uuid.
  do 16 (destruct u as [|? u]; [discriminate Hl|]). destruct u; [|discriminate Hl].
  simpl in H |- *. by rewrite H.
Qed.

Definition scanning_UUID : UUIDScan := {| pgtype_UUID_Scan := scan_uuid; UUID_Scan_canonical := scan_canonical |}.

Example format_ex : formatUUID (Some (seqZ 0 16)) = Ok "00010203-0405-0607-0809-0a0b0c0d0e0f".
Proof. reflexivity. Qed.
