(* ===== verification/Models.v ===== *)
(** * The store

    The rows of [src/db/models.go], the tables of [src/db/migrations] and the
    world a request runs in: the database, the failures the database will
    have, the clock and the source of random values.

    Every statement of the program goes through [query] or [exec].  Each one
    consumes one entry of the fault schedule: [true] makes the statement fail
    with a driver error and leaves the tables as they were.  An empty schedule
    is a database that works. *)

From S2P Require Import Prelude Entity Json Headless StateCache Digest.
From stdpp Require Import base gmap strings list.
From Stdlib Require Import ZArith.

(** ** Rows

    [pgtype.Text], [pgtype.Timestamptz] and [pgtype.Int4] are options: [Valid]
    is [Some]. *)

Record GroupRow : Type := mkGroupRow {
  gr_ID : string; gr_Name : string; gr_Type : string;
  gr_CreatedAt : option Instant; gr_UpdatedAt : option Instant }.

Record GroupMemberRow : Type := mkGroupMemberRow {
  gm_GroupID : string; gm_UserID : string; gm_RoleID : string;
  gm_AddedBy : option string; gm_JoinedAt : option Instant }.

Record RoleRow : Type := mkRoleRow {
  ro_ID : string; ro_GroupID : option string; ro_Name : string; ro_Scope : string;
  ro_IsBuiltin : bool; ro_CreatedAt : option Instant; ro_UpdatedAt : option Instant }.

Record UserRow : Type := mkUserRow {
  us_ID : string; us_Password : string; us_ResoniteID : option string; us_IconUrl : option string;
  us_CreatedAt : option Instant; us_UpdatedAt : option Instant }.

Record RegistrationTokenRow : Type := mkRegistrationTokenRow {
  rt_Token : string; rt_ResoniteID : string; rt_ExpiresAt : option Instant;
  rt_UsedAt : option Instant; rt_CreatedAt : option Instant; rt_PersonalRoleID : option string }.

Record HeadlessAccountRow : Type := mkHeadlessAccountRow {
  ha_ResoniteID : string; ha_Credential : string; ha_Password : string;
  ha_LastDisplayName : option string; ha_LastIconUrl : option string;
  ha_CreatedAt : option Instant; ha_UpdatedAt : option Instant;
  ha_GroupID : string; ha_CreatedBy : option string }.

Record HostRow : Type := mkHostRow {
  ho_ID : string; ho_Name : string; ho_Status : Z; ho_AccountID : string;
  ho_CreatedBy : option string; ho_LastStartupConfig : Json;
  ho_LastStartupConfigSchemaVersion : Z; ho_ConnectorType : string; ho_ConnectString : string;
  ho_StartedAt : option Instant; ho_Memo : option string; ho_AutoUpdatePolicy : Z;
  ho_CreatedAt : option Instant; ho_UpdatedAt : option Instant;
  ho_InstanceCount : Z; ho_GroupID : string }.

Record SessionRow : Type := mkSessionRow {
  se_ID : string; se_Name : string; se_Status : Z; se_StartedAt : option Instant;
  se_CreatedBy : option string; se_EndedAt : option Instant; se_HostID : string;
  se_StartupParameters : Json; se_StartupParametersSchemaVersion : Z;
  se_AutoUpgrade : bool; se_Memo : option string;
  se_CreatedAt : option Instant; se_UpdatedAt : option Instant; se_GroupID : string }.

Record AsyncJobRow : Type := mkAsyncJobRow {
  aj_ID : option UUID; aj_JobType : Z; aj_Payload : Json; aj_Status : Z;
  aj_ResultPayload : option Json; aj_LastError : option string;
  aj_ClaimedBy : option string; aj_ClaimedAt : option Instant; aj_ExecutedAt : option Instant;
  aj_HostID : option string; aj_SessionID : option string; aj_CreatedBy : option string;
  aj_CreatedAt : option Instant; aj_UpdatedAt : option Instant }.

Record ScheduledOpRow : Type := mkScheduledOpRow {
  so_ID : option UUID; so_OperationType : Z; so_OperationPayload : Json; so_TriggerType : Z;
  so_TriggerConfig : Json; so_NextFireAt : option Instant; so_HostID : option string;
  so_SessionID : option string; so_Status : Z; so_LastError : option string;
  so_ClaimedBy : option string; so_ClaimedAt : option Instant; so_ExecutedAt : option Instant;
  so_CreatedBy : option string; so_CreatedAt : option Instant; so_UpdatedAt : option Instant }.

(** the id is a [BIGSERIAL] *)
Record ContainerLogRow : Type := mkContainerLogRow {
  cl_ID : Z; cl_Tag : option string; cl_Ts : option Instant; cl_Data : option Json }.

(** Columns [JSONB] hold JSON values, columns [UUID] sixteen bytes. *)

(** ** Tables, keyed by their primary keys *)

Record DB : Type := mkDB {
  t_users : gmap string UserRow;
  t_groups : gmap string GroupRow;
  t_roles : gmap string RoleRow;
  t_role_permissions : gset (string * string);          (** (role_id, permission_key) *)
  t_group_members : gmap (string * string) GroupMemberRow;  (** (group_id, user_id) *)
  t_registration_tokens : gmap string RegistrationTokenRow;
  t_headless_accounts : gmap string HeadlessAccountRow;
  t_hosts : gmap string HostRow;
  t_sessions : gmap string SessionRow;
  t_async_jobs : gmap UUID AsyncJobRow;
  t_scheduled_ops : gmap UUID ScheduledOpRow;
  t_checkpoints : gmap string string;
  t_container_logs : gmap Z ContainerLogRow }.

Definition set_users f d := mkDB (f (t_users d)) (t_groups d) (t_roles d) (t_role_permissions d) (t_group_members d) (t_registration_tokens d) (t_headless_accounts d) (t_hosts d) (t_sessions d) (t_async_jobs d) (t_scheduled_ops d) (t_checkpoints d) (t_container_logs d).
Definition set_groups f d := mkDB (t_users d) (f (t_groups d)) (t_roles d) (t_role_permissions d) (t_group_members d) (t_registration_tokens d) (t_headless_accounts d) (t_hosts d) (t_sessions d) (t_async_jobs d) (t_scheduled_ops d) (t_checkpoints d) (t_container_logs d).
Definition set_roles f d := mkDB (t_users d) (t_groups d) (f (t_roles d)) (t_role_permissions d) (t_group_members d) (t_registration_tokens d) (t_headless_accounts d) (t_hosts d) (t_sessions d) (t_async_jobs d) (t_scheduled_ops d) (t_checkpoints d) (t_container_logs d).
Definition set_role_permissions f d := mkDB (t_users d) (t_groups d) (t_roles d) (f (t_role_permissions d)) (t_group_members d) (t_registration_tokens d) (t_headless_accounts d) (t_hosts d) (t_sessions d) (t_async_jobs d) (t_scheduled_ops d) (t_checkpoints d) (t_container_logs d).
Definition set_group_members f d := mkDB (t_users d) (t_groups d) (t_roles d) (t_role_permissions d) (f (t_group_members d)) (t_registration_tokens d) (t_headless_accounts d) (t_hosts d) (t_sessions d) (t_async_jobs d) (t_scheduled_ops d) (t_checkpoints d) (t_container_logs d).
Definition set_registration_tokens f d := mkDB (t_users d) (t_groups d) (t_roles d) (t_role_permissions d) (t_group_members d) (f (t_registration_tokens d)) (t_headless_accounts d) (t_hosts d) (t_sessions d) (t_async_jobs d) (t_scheduled_ops d) (t_checkpoints d) (t_container_logs d).
Definition set_headless_accounts f d := mkDB (t_users d) (t_groups d) (t_roles d) (t_role_permissions d) (t_group_members d) (t_registration_tokens d) (f (t_headless_accounts d)) (t_hosts d) (t_sessions d) (t_async_jobs d) (t_scheduled_ops d) (t_checkpoints d) (t_container_logs d).
Definition set_hosts f d := mkDB (t_users d) (t_groups d) (t_roles d) (t_role_permissions d) (t_group_members d) (t_registration_tokens d) (t_headless_accounts d) (f (t_hosts d)) (t_sessions d) (t_async_jobs d) (t_scheduled_ops d) (t_checkpoints d) (t_container_logs d).
Definition set_sessions f d := mkDB (t_users d) (t_groups d) (t_roles d) (t_role_permissions d) (t_group_members d) (t_registration_tokens d) (t_headless_accounts d) (t_hosts d) (f (t_sessions d)) (t_async_jobs d) (t_scheduled_ops d) (t_checkpoints d) (t_container_logs d).
Definition set_async_jobs f d := mkDB (t_users d) (t_groups d) (t_roles d) (t_role_permissions d) (t_group_members d) (t_registration_tokens d) (t_headless_accounts d) (t_hosts d) (t_sessions d) (f (t_async_jobs d)) (t_scheduled_ops d) (t_checkpoints d) (t_container_logs d).
Definition set_scheduled_ops f d := mkDB (t_users d) (t_groups d) (t_roles d) (t_role_permissions d) (t_group_members d) (t_registration_tokens d) (t_headless_accounts d) (t_hosts d) (t_sessions d) (t_async_jobs d) (f (t_scheduled_ops d)) (t_checkpoints d) (t_container_logs d).
Definition set_checkpoints f d := mkDB (t_users d) (t_groups d) (t_roles d) (t_role_permissions d) (t_group_members d) (t_registration_tokens d) (t_headless_accounts d) (t_hosts d) (t_sessions d) (t_async_jobs d) (t_scheduled_ops d) (f (t_checkpoints d)) (t_container_logs d).
Definition set_container_logs f d := mkDB (t_users d) (t_groups d) (t_roles d) (t_role_permissions d) (t_group_members d) (t_registration_tokens d) (t_headless_accounts d) (t_hosts d) (t_sessions d) (t_async_jobs d) (t_scheduled_ops d) (t_checkpoints d) (f (t_container_logs d)).

Definition empty_DB : DB := mkDB ∅ ∅ ∅ ∅ ∅ ∅ ∅ ∅ ∅ ∅ ∅ ∅ ∅.

(** ** The world *)

Record World : Type := mkWorld {
  w_db : DB;
  w_faults : list bool;      (** the outcome of the next statements, see above *)
  w_now : Instant;           (** [NOW()], [time.Now()] *)
  w_uniuri : nat → string;   (** the values [uniuri.New] draws *)
  w_entropy : nat → list Z;  (** the byte blocks [rand.Read] and [gen_random_uuid] draw *)
  w_draws : nat;             (** how many values were drawn so far *)
  w_cache : MemoryCache;     (** the session states kept in memory *)
  w_outside : nat }.         (** the state of the containers and services the process talks to, by some numbering *)

Definition with_db (d : DB) (w : World) : World :=
  mkWorld d (w_faults w) (w_now w) (w_uniuri w) (w_entropy w) (w_draws w) (w_cache w) (w_outside w).
Definition with_faults (fs : list bool) (w : World) : World :=
  mkWorld (w_db w) fs (w_now w) (w_uniuri w) (w_entropy w) (w_draws w) (w_cache w) (w_outside w).
Definition with_draws (n : nat) (w : World) : World :=
  mkWorld (w_db w) (w_faults w) (w_now w) (w_uniuri w) (w_entropy w) n (w_cache w) (w_outside w).
Definition with_cache (c : MemoryCache) (w : World) : World :=
  mkWorld (w_db w) (w_faults w) (w_now w) (w_uniuri w) (w_entropy w) (w_draws w) c (w_outside w).
Definition with_outside (n : nat) (w : World) : World :=
  mkWorld (w_db w) (w_faults w) (w_now w) (w_uniuri w) (w_entropy w) (w_draws w) (w_cache w) n.

Abbreviation Go := (M World).

Definition statement_fails (w : World) : bool := default false (head (w_faults w)).
Definition consume_fault (w : World) : World := with_faults (tail (w_faults w)) w.

(** A statement that reads. *)
Definition query {A} (f : Instant → DB → Result A) : Go A := λ w,
  let w' := consume_fault w in
  if statement_fails w then (Fail EDriver, w') else (f (w_now w) (w_db w), w').

(** A statement that writes: it changes the tables or fails and leaves them. *)
Definition exec {A} (f : Instant → DB → Result (A * DB)) : Go A := λ w,
  let w' := consume_fault w in
  if statement_fails w then (Fail EDriver, w')
  else match f (w_now w) (w_db w) with
       | Ok (a, d) => (Ok a, with_db d w')
       | Fail e => (Fail e, w')
       end.

(** [db.RunInTx] of [src/db/new.go]: begin, run [fn], commit or roll back.
    The begin and the commit are statements of their own. *)
Definition RunInTx {A} (fn : Go A) : Go A :=
  let* d0 := query (λ _ d, Ok d) in
  λ w, match fn w with
       | (Fail e, w') => (Fail e, with_db d0 w')
       | (Ok a, w') =>
           let w'' := consume_fault w' in
           if statement_fails w' then (Fail EDriver, with_db d0 w'') else (Ok a, w'')
       end.

(** [uniuri.New()]. *)
Definition uniuri_New : Go string := λ w, (Ok (w_uniuri w (w_draws w)), with_draws (S (w_draws w)) w).
(** The value of a [DEFAULT gen_random_uuid()] column: sixteen bytes. *)
Definition gen_random_uuid : Go UUID := λ w,
  (Ok (resize 16 0%Z ((λ b, (b mod 256)%Z) <$> w_entropy w (w_draws w))), with_draws (S (w_draws w)) w).
(** [rand.Read] of the crypto package. *)
Definition rand_Read : Go (list Z) := λ w, (Ok (w_entropy w (w_draws w)), with_draws (S (w_draws w)) w).

(** Row lookup as [QueryRow(...).Scan] reports it. *)
Definition row_or_ErrNoRows {A} (o : option A) : Result A :=
  match o with Some a => Ok a | None => Fail (ESent ErrNoRows) end.

(** ** Computations that only read

    [reads m f]: the computation [m] changes nothing but the fault schedule,
    and answers what the pure function [f] says of the clock and the tables,
    unless a statement failed, in which case it answers a transient error.
    With an empty schedule it is exactly [f]. *)

Definition only_faults (w w' : World) : Prop :=
  w' = with_faults (w_faults w') w ∧ w_faults w' `suffix_of` w_faults w.

#[export] Instance only_faults_preorder : PreOrder only_faults.
Proof.
  split.
  - intros []. split; [done|reflexivity].
  - intros w1 w2 w3 [E1 S1] [E2 S2]. split; [|by etrans]. rewrite E2 at 1. rewrite E1. done.
Qed.

Lemma only_faults_db w w' : only_faults w w' → w_db w' = w_db w.
Proof. intros [-> _]. done. Qed.
Lemma only_faults_now w w' : only_faults w w' → w_now w' = w_now w.
Proof. intros [-> _]. done. Qed.
Lemma only_faults_nil w w' : only_faults w w' → w_faults w = [] → w' = w.
Proof.
  intros [E S] H. rewrite H in S. apply suffix_nil_inv in S. rewrite E, S, <-H. by destruct w.
Qed.
Lemma only_faults_consume w : only_faults w (consume_fault w).
Proof. destruct w as [? [|b fs]]; split; try done. by exists [b]. Qed.
Lemma only_faults_nonempty w w' : only_faults w w' → w_faults w' ≠ [] → w_faults w ≠ [].
Proof. intros [_ [k ->]] ?. by destruct k. Qed.

Definition reads {A} (m : Go A) (f : Instant → DB → Result A) : Prop :=
  ∀ w, only_faults w (m w).2 ∧
       ((m w).1 = f (w_now w) (w_db w) ∨
        (w_faults w ≠ [] ∧ ∃ e, (m w).1 = Fail e ∧ transient e = true)).

Lemma reads_query {A} (f : Instant → DB → Result A) : reads (query f) f.
Proof.
  intros w. unfold query, statement_fails.
  destruct (w_faults w) as [|[|] fs] eqn:E; simpl.
  - split; [apply only_faults_consume|by left].
  - split; [apply only_faults_consume|right]. split; [done|]. by exists EDriver.
  - split; [apply only_faults_consume|by left].
Qed.

Lemma reads_ret {A} (a : A) : reads (ret a) (λ _ _, Ok a).
Proof. intros w. split; [reflexivity|by left]. Qed.
Lemma reads_fail {A} e : reads (fail (A:=A) e) (λ _ _, Fail e).
Proof. intros w. split; [reflexivity|by left]. Qed.
Lemma reads_lift {A} (r : Result A) : reads (lift r) (λ _ _, r).
Proof. intros w. split; [reflexivity|by left]. Qed.

Lemma reads_bind {A B} (m : Go A) (k : A → Go B) f g :
  reads m f → (∀ a, reads (k a) (g a)) →
  reads (bind m k) (λ t d, rbind (f t d) (λ a, g a t d)).
Proof.
  intros Hm Hk w. destruct (Hm w) as [Hof Hr]. unfold bind.
  destruct (m w) as [[a|e] w1] eqn:E; simpl in *.
  - destruct Hr as [Hr|(_ & e & ? & _)]; [|done]. rewrite <-Hr. simpl.
    destruct (Hk a w1) as [Hof2 Hr2]. split; [by etrans|].
    rewrite (only_faults_now _ _ Hof), (only_faults_db _ _ Hof) in Hr2.
    destruct Hr2 as [?|[Hne ?]]; [by left|right].
    split; [|done]. eapply only_faults_nonempty; eauto.
  - split; [done|]. destruct Hr as [Hr|(Hne & e' & [= ->] & Ht)].
    + left. rewrite <-Hr. done.
    + right. split; [done|]. by exists e'.
Qed.

Lemma reads_on_err {A} h (m : Go A) f :
  (∀ e, transient e = true → transient (h e) = true) →
  reads m f → reads (on_err h m) (λ t d, map_err h (f t d)).
Proof.
  intros Hh Hm w. destruct (Hm w) as [Hof Hr]. unfold on_err.
  destruct (m w) as [r w1]; simpl in *. split; [done|].
  destruct Hr as [->|(? & e & -> & ?)]; [by left|right]. split; [done|]. exists (h e); auto.
Qed.

(** [reads_bind] stated by its result: the shape every use wants. *)
Lemma reads_bind_ext {A B} (m : Go A) (k : A → Go B) f g h :
  reads m f → (∀ a, reads (k a) (g a)) → (∀ t d, rbind (f t d) (λ a, g a t d) = h t d) →
  reads (bind m k) h.
Proof. intros Hm Hk E w. rewrite <-E. exact (reads_bind m k f g Hm Hk w). Qed.

(** A boolean question, then one of two continuations. *)
Lemma reads_ask {A} (m : Go bool) (m1 m2 : Go A) (b : Instant → DB → bool) f1 f2 h :
  reads m (λ t d, Ok (b t d)) → reads m1 f1 → reads m2 f2 →
  (∀ t d, h t d = if b t d then f1 t d else f2 t d) →
  reads (bind m (λ ok, if ok then m1 else m2)) h.
Proof.
  intros Hm H1 H2 E. eapply reads_bind_ext with (g := λ ok t d, if ok : bool then f1 t d else f2 t d);
    [exact Hm|intros [|]; done|]. intros t d. by rewrite E.
Qed.

(** A read followed by a pure answer. *)
Lemma reads_map {A B} (m : Go A) (p : A → B) f h :
  reads m f → (∀ t d, h t d = rbind (f t d) (λ a, Ok (p a))) → reads (bind m (λ a, ret (p a))) h.
Proof.
  intros Hm E. eapply reads_bind_ext with (g := λ a _ _, Ok (p a)); [exact Hm|intros; apply reads_ret|].
  intros t d. by rewrite E.
Qed.

(** What [f] answers may be replaced by an equal description. *)
Lemma reads_ext {A} (m : Go A) f g : reads m f → (∀ t d, f t d = g t d) → reads m g.
Proof. intros Hm E w. rewrite <-E. apply Hm. Qed.

(** Reading a database that works. *)
Lemma reads_run {A} (m : Go A) f w :
  reads m f → w_faults w = [] → m w = (f (w_now w) (w_db w), w).
Proof.
  intros Hm Hw. destruct (Hm w) as [Hof [Hr|[? _]]]; [|done].
  destruct (m w) as [r w']; simpl in *. f_equal; [done|by apply only_faults_nil].
Qed.

(** However a read ends, it changed nothing. *)
Lemma reads_inv {A} (m : Go A) f w r w' : reads m f → m w = (r, w') → only_faults w w' ∧ ∀ a, r = Ok a → f (w_now w) (w_db w) = Ok a.
Proof.
  intros Hm E. destruct (Hm w) as [Hof Hr]. rewrite E in *. simpl in *. split; [done|]. intros a ->.
  destruct Hr as [?|(_ & e & ? & _)]; [by symmetry|done].
Qed.

(** A successful read tells the truth whatever the schedule. *)
Lemma reads_Ok {A} (m : Go A) f w a w' :
  reads m f → m w = (Ok a, w') → f (w_now w) (w_db w) = Ok a ∧ only_faults w w'.
Proof.
  intros Hm E. destruct (Hm w) as [Hof Hr]. rewrite E in *. simpl in *.
  destruct Hr as [?|(? & e & ? & _)]; [|done]. done.
Qed.

Lemma reads_ensures {A} (m : Go A) f w (Q : A → World → Prop) :
  reads m f →
  (∀ a w', f (w_now w) (w_db w) = Ok a → only_faults w w' → Q a w') →
  ensures m w Q.
Proof. intros Hm H. apply ensures_intro. intros a w' E. destruct (reads_Ok _ _ _ _ _ Hm E). auto. Qed.

(** The relations a read respects: those that only look at tables and clock. *)
Lemma reads_preserves {A} (m : Go A) f (R : World → World → Prop) :
  (∀ w w', only_faults w w' → R w w') → reads m f → preserves R m.
Proof. intros HR Hm w. apply HR, Hm. Qed.

Create HintDb reads.
#[export] Hint Resolve reads_query reads_ret reads_fail reads_lift : reads.

(** ** Computations that write *)

(** [exec] on a database that works. *)
Lemma exec_run {A} (f : Instant → DB → Result (A * DB)) w :
  w_faults w = [] →
  exec f w = match f (w_now w) (w_db w) with
             | Ok (a, d) => (Ok a, with_db d w)
             | Fail e => (Fail e, w)
             end.
Proof.
  intros Hw. unfold exec, statement_fails, consume_fault. rewrite Hw. simpl.
  destruct w; simpl in *; subst. done.
Qed.

Lemma exec_ensures {A} (f : Instant → DB → Result (A * DB)) w (Q : A → World → Prop) :
  (∀ a d w', f (w_now w) (w_db w) = Ok (a, d) → only_faults w w' → Q a (with_db d w')) →
  ensures (exec f) w Q.
Proof.
  intros H. unfold ensures, exec. destruct (statement_fails w); [done|].
  destruct (f _ _) as [[a d]|e] eqn:E; [|done]. apply H; [done|apply only_faults_consume].
Qed.

(** A write establishes [R] between the tables when its function does. *)
Definition db_rel (R : DB → DB → Prop) (w w' : World) : Prop := R (w_db w) (w_db w').
#[export] Instance db_rel_preorder R `{!PreOrder R} : PreOrder (db_rel R).
Proof. split; unfold db_rel; [intros ?; reflexivity|intros ???; apply transitivity]. Qed.

Lemma db_rel_only_faults R `{!Reflexive R} w w' : only_faults w w' → db_rel R w w'.
Proof. intros H. unfold db_rel. by rewrite (only_faults_db _ _ H). Qed.

Lemma preserves_exec R `{!PreOrder R} {A} (f : Instant → DB → Result (A * DB)) :
  (∀ t d a d', f t d = Ok (a, d') → R d d') → preserves (db_rel R) (exec f).
Proof.
  intros H w. unfold exec. destruct (statement_fails w); simpl.
  - unfold db_rel. simpl. reflexivity.
  - destruct (f _ _) as [[a d]|e] eqn:E; simpl; unfold db_rel; simpl; [by eapply H|reflexivity].
Qed.

Lemma preserves_query R `{!PreOrder R} {A} (f : Instant → DB → Result A) :
  preserves (db_rel R) (query f).
Proof. eapply reads_preserves; [|apply reads_query]. intros ??. apply db_rel_only_faults. apply _. Qed.

Lemma preserves_uniuri R `{!PreOrder R} : preserves (db_rel R) uniuri_New.
Proof. intros w. unfold db_rel. simpl. reflexivity. Qed.
Lemma preserves_rand R `{!PreOrder R} : preserves (db_rel R) rand_Read.
Proof. intros w. unfold db_rel. simpl. reflexivity. Qed.

Lemma preserves_RunInTx R `{!PreOrder R} {A} (fn : Go A) :
  preserves (db_rel R) fn → preserves (db_rel R) (RunInTx fn).
Proof.
  intros Hfn w. unfold RunInTx, bind, query.
  destruct (statement_fails w); simpl; [unfold db_rel; simpl; reflexivity|].
  specialize (Hfn (consume_fault w)). destruct (fn _) as [[a|e] w']; simpl in *.
  - destruct (statement_fails w'); simpl; unfold db_rel in *; simpl in *; [reflexivity|done].
  - unfold db_rel. simpl. reflexivity.
Qed.
Lemma preserves_uuid R `{!PreOrder R} : preserves (db_rel R) gen_random_uuid.
Proof. intros w. unfold db_rel. simpl. reflexivity. Qed.
#[export] Hint Resolve preserves_query preserves_uniuri preserves_rand preserves_uuid preserves_RunInTx : preserves.

(** ** Computations that leave the tables alone, and invariants of the tables *)

(** [quiet w w']: the tables and the clock are the same. *)
Definition quiet (w w' : World) : Prop := w_db w' = w_db w ∧ w_now w' = w_now w.

#[export] Instance quiet_preorder : PreOrder quiet.
Proof. split; [done|]. intros w1 w2 w3 [E1 E2] [E3 E4]. split; congruence. Qed.

Lemma only_faults_quiet w w' : only_faults w w' → quiet w w'.
Proof. intros [-> _]. done. Qed.

Lemma quiet_reads {A} (m : Go A) f : reads m f → preserves quiet m.
Proof. apply reads_preserves, only_faults_quiet. Qed.
Lemma quiet_query {A} (f : Instant → DB → Result A) : preserves quiet (query f).
Proof. eapply quiet_reads, reads_query. Qed.
Lemma quiet_uniuri : preserves quiet uniuri_New.
Proof. done. Qed.
Lemma quiet_rand : preserves quiet rand_Read.
Proof. done. Qed.
Lemma quiet_uuid : preserves quiet gen_random_uuid.
Proof. done. Qed.
#[export] Hint Resolve quiet_query quiet_uniuri quiet_rand quiet_uuid : preserves.
#[export] Hint Extern 5 (preserves quiet _) => (eapply quiet_reads; solve [eauto with reads]) : preserves.

(** [stays I m w]: however [m] ends from [w], the tables satisfy [I]. *)
Definition stays {A} (I : DB → Prop) (m : Go A) (w : World) : Prop := I (w_db (m w).2).

Section Stays.
Context (I : DB → Prop).

Lemma stays_quiet {A} (m : Go A) w : preserves quiet m → I (w_db w) → stays I m w.
Proof. intros Hm HI. unfold stays. destruct (Hm w) as [-> _]. done. Qed.

Lemma stays_bind {A B} (m : Go A) (k : A → Go B) w :
  stays I m w → ensures m w (λ a w', I (w_db w') → stays I (k a) w') → stays I (bind m k) w.
Proof.
  unfold stays, ensures, bind. destruct (m w) as [[a|e] w']; simpl; auto.
Qed.

(** A step that leaves the tables alone, then the rest. *)
Lemma stays_step {A B} (m : Go A) (k : A → Go B) w :
  preserves quiet m → I (w_db w) →
  (∀ a w', m w = (Ok a, w') → quiet w w' → I (w_db w') → stays I (k a) w') →
  stays I (bind m k) w.
Proof.
  intros Hm HI Hk. apply stays_bind; [by apply stays_quiet|].
  apply ensures_intro. intros a w' E _. pose proof (Hm w) as Hq. rewrite E in Hq.
  apply Hk; [done|done|]. destruct Hq as [Hdb _]. simpl in Hdb. by rewrite Hdb.
Qed.

(** A read whose answer matters for the rest. *)
Lemma stays_read {A B} (m : Go A) (k : A → Go B) f w :
  reads m f → I (w_db w) →
  (∀ a w', f (w_now w) (w_db w) = Ok a → quiet w w' → I (w_db w') → stays I (k a) w') →
  stays I (bind m k) w.
Proof.
  intros Hm HI Hk. apply stays_step; [by eapply quiet_reads|done|].
  intros a w' E Hq HI'. destruct (reads_Ok _ _ _ _ _ Hm E). by apply Hk.
Qed.

Lemma stays_exec {A} (f : Instant → DB → Result (A * DB)) w :
  I (w_db w) → (∀ x, f (w_now w) (w_db w) = Ok x → I x.2) → stays I (exec f) w.
Proof.
  intros HI Hf. unfold stays, exec. destruct (statement_fails w); [done|].
  destruct (f _ _) as [[a d]|e] eqn:E; [|done]. exact (Hf _ eq_refl).
Qed.

Lemma stays_on_err {A} h (m : Go A) w : stays I m w → stays I (on_err h m) w.
Proof. unfold stays, on_err. by destruct (m w). Qed.

Lemma stays_ret {A} (a : A) w : I (w_db w) → stays I (ret a) w.
Proof. done. Qed.
Lemma stays_fail {A} e w : I (w_db w) → stays I (fail (A:=A) e) w.
Proof. done. Qed.

(** A write, then the rest. *)
Lemma stays_write {A B} (m : Go A) (k : A → Go B) w :
  stays I m w → (∀ a w', m w = (Ok a, w') → I (w_db w') → stays I (k a) w') → stays I (bind m k) w.
Proof. intros Hm Hk. apply stays_bind; [done|]. apply ensures_intro. auto. Qed.

Lemma stays_RunInTx {A} (fn : Go A) w :
  I (w_db w) → (∀ w', quiet w w' → stays I fn w') → stays I (RunInTx fn) w.
Proof.
  intros HI Hfn. unfold RunInTx. eapply stays_read; [apply reads_query|done|].
  intros d0 w1 [= <-] Hq HI1. unfold stays. specialize (Hfn w1 Hq). unfold stays in Hfn.
  destruct (fn w1) as [[a|e] w2]; simpl in *; [|done]. by destruct (statement_fails w2).
Qed.
End Stays.

(** What a write did, whether it succeeded or not. *)
Lemma exec_inv {A} (f : Instant → DB → Result (A * DB)) w r w' : exec f w = (r, w') →
  w_now w' = w_now w ∧
  ((∃ a d, r = Ok a ∧ f (w_now w) (w_db w) = Ok (a, d) ∧ w_db w' = d) ∨ (∃ e, r = Fail e ∧ w_db w' = w_db w)).
Proof.
  unfold exec. destruct (statement_fails w); [intros [= <- <-]; simpl; eauto|].
  destruct (f _ _) as [[a d]|e]; intros [= <- <-]; simpl; split; eauto 8.
Qed.

(** What a write that succeeded did. *)
Lemma exec_Ok {A} (f : Instant → DB → Result (A * DB)) w a w' :
  exec f w = (Ok a, w') → f (w_now w) (w_db w) = Ok (a, w_db w') ∧ w_now w' = w_now w.
Proof.
  unfold exec. destruct (statement_fails w); [done|].
  destruct (f _ _) as [[a' d]|e]; [|done]. intros [= -> <-]. done.
Qed.

Lemma on_err_Ok {A} h (m : Go A) w a w' : on_err h m w = (Ok a, w') → m w = (Ok a, w').
Proof. unfold on_err. destruct (m w) as [[?|?] ?]; simpl; congruence. Qed.
