(* ===== verification/Queries.v ===== *)
(** * SQL statements of the permission tables

    One definition per statement of [src/db/group_members.sql.go],
    [src/db/groups.sql.go], [src/db/roles.sql.go],
    [src/db/role_permissions.sql.go], [src/db/user.sql.go] and
    [src/db/registration_tokens.sql.go], with the keys, foreign keys, checks,
    cascades and triggers that [src/db/migrations] puts on the tables.

    A statement is a pure function of the clock and the tables ([q_...] reads,
    [x_...] writes) under [query] or [exec].  The order among rows that an
    ORDER BY leaves equal is the order of the table's index; text is ordered
    bytewise. *)

From S2P Require Import Prelude Entity Models.
From stdpp Require Import base gmap strings list sorting.
From Stdlib Require Import ZArith Lia.
#[local] Open Scope nat_scope.

(** ** Helpers *)

Definition rows_of {K A} `{Countable K} (t : gmap K A) : list A := (map_to_list t).*2.

(** ORDER BY, ascending: [le a b] says [a] may come before [b]. *)
Definition before {A} (le : A → A → bool) (a b : A) : Prop := le a b = true.
#[export] Instance before_dec {A} (le : A → A → bool) : RelDecision (before le).
Proof. intros a b. unfold before. apply _. Defined.
Definition order_by {A} (le : A → A → bool) (l : list A) : list A := merge_sort (before le) l.

Definition ts (o : option Instant) : Instant := default 0%Z o.

Definition check (b : bool) (constraint : string) : Result unit :=
  if b then Ok tt else Fail (EConstraint constraint).
Definition rthen {A} (r : Result unit) (k : Result A) : Result A := rbind r (λ _, k).
Notation "r >>> k" := (rthen r k) (at level 60, right associativity) : go_scope.

Definition present {K A} `{Countable K} (k : K) (t : gmap K A) : bool := bool_decide (is_Some (t !! k)).
Definition opt_present {A} (o : option string) (t : gmap string A) : bool :=
  match o with None => true | Some k => present k t end.

(** ** groups *)

Definition group_type_ok (ty : string) : bool :=
  bool_decide (ty ∈ [GroupType_Personal; GroupType_Normal; GroupType_System]).
Definition no_group_of_type (ty : string) (d : DB) : bool :=
  bool_decide (Forall (λ g, gr_Type g ≠ ty) (rows_of (t_groups d))).

Definition x_CreateGroup (id name ty : string) (now : Instant) (d : DB) : Result (GroupRow * DB) :=
  check (group_type_ok ty) "groups_type_check" >>>
  check (negb (present id (t_groups d))) "groups_pkey" >>>
  check (negb (bool_decide (ty = GroupType_System)) || no_group_of_type GroupType_System d)
        "groups_singleton_system_idx" >>>
  let g := mkGroupRow id name ty (Some now) (Some now) in
  Ok (g, set_groups (<[id := g]>) d).
Definition CreateGroup id name ty : Go GroupRow := exec (x_CreateGroup id name ty).

Definition q_GetGroup (id : string) (_ : Instant) (d : DB) : Result GroupRow :=
  row_or_ErrNoRows (t_groups d !! id).
Definition GetGroup id : Go GroupRow := query (q_GetGroup id).

Definition newest_first (a b : GroupRow) : bool := (ts (gr_CreatedAt b) <=? ts (gr_CreatedAt a))%Z.

Definition q_ListGroups (_ : Instant) (d : DB) : Result (list GroupRow) :=
  Ok (order_by newest_first (rows_of (t_groups d))).
Definition ListGroups : Go (list GroupRow) := query q_ListGroups.

(** groups INNER JOIN group_members ON group_id WHERE user_id = [uid] *)
Definition memberships_of (uid : string) (d : DB) : list GroupMemberRow :=
  filter (λ m, gm_UserID m = uid) (rows_of (t_group_members d)).
Definition join_groups (uid : string) (d : DB) : list (GroupRow * GroupMemberRow) :=
  omap (λ m, (λ g, (g, m)) <$> t_groups d !! gm_GroupID m) (memberships_of uid d).

Definition q_ListGroupsByUser (uid : string) (_ : Instant) (d : DB) : Result (list (GroupRow * GroupMemberRow)) :=
  Ok (order_by (λ a b, newest_first (fst a) (fst b)) (join_groups uid d)).
Definition ListGroupsByUser uid : Go (list (GroupRow * GroupMemberRow)) := query (q_ListGroupsByUser uid).

Definition q_GetPersonalGroupByUser (uid : string) (_ : Instant) (d : DB) : Result GroupRow :=
  row_or_ErrNoRows (head (filter (λ g, gr_Type g = GroupType_Personal) (fst <$> join_groups uid d))).
Definition GetPersonalGroupByUser uid : Go GroupRow := query (q_GetPersonalGroupByUser uid).

Definition x_UpdateGroupName (id name : string) (now : Instant) (d : DB) : Result (unit * DB) :=
  Ok (tt, set_groups (alter (λ g, mkGroupRow (gr_ID g) name (gr_Type g) (gr_CreatedAt g) (Some now)) id) d).
Definition UpdateGroupName id name : Go unit := exec (x_UpdateGroupName id name).

(** The roles of a group go with it (ON DELETE CASCADE), and with them their
    permissions; its memberships go too.  What is left must not reference a
    row that went: a membership of another group with one of its roles, or a
    host, session or account of the group, refuses the deletion. *)
Definition role_of_group (gid : string) (d : DB) (rid : string) : bool :=
  match t_roles d !! rid with
  | Some r => bool_decide (ro_GroupID r = Some gid)
  | None => false
  end.
Definition drop_role_refs (gone : string → bool) (t : RegistrationTokenRow) : RegistrationTokenRow :=
  match rt_PersonalRoleID t with
  | Some r => if gone r then mkRegistrationTokenRow (rt_Token t) (rt_ResoniteID t) (rt_ExpiresAt t) (rt_UsedAt t) (rt_CreatedAt t) None else t
  | None => t
  end.
Definition delete_roles (gone : string → bool) (d : DB) : DB :=
  set_registration_tokens (fmap (drop_role_refs gone))
    (set_role_permissions (filter (λ rk, gone (fst rk) = false))
      (set_roles (filter (λ kr, gone (fst kr) = false)) d)).

Definition x_DeleteGroup (id : string) (_ : Instant) (d : DB) : Result (unit * DB) :=
  if present id (t_groups d) then
    let gone := role_of_group id d in
    let d' := set_groups (delete id)
                (set_group_members (filter (λ km, gm_GroupID (snd km) ≠ id)) (delete_roles gone d)) in
    check (bool_decide (Forall (λ m, gone (gm_RoleID m) = false) (rows_of (t_group_members d'))))
          "group_members_role_id_fkey" >>>
    check (bool_decide (Forall (λ h, ho_GroupID h ≠ id) (rows_of (t_hosts d)))) "hosts_group_id_fkey" >>>
    check (bool_decide (Forall (λ s, se_GroupID s ≠ id) (rows_of (t_sessions d)))) "sessions_group_id_fkey" >>>
    check (bool_decide (Forall (λ a, ha_GroupID a ≠ id) (rows_of (t_headless_accounts d))))
          "headless_accounts_group_id_fkey" >>>
    Ok (tt, d')
  else Ok (tt, d).
Definition DeleteGroup id : Go unit := exec (x_DeleteGroup id).

(** ** group_members *)

Definition x_AddGroupMember (gid uid rid : string) (added_by : option string) (now : Instant) (d : DB)
  : Result (GroupMemberRow * DB) :=
  check (negb (present (gid, uid) (t_group_members d))) "group_members_pkey" >>>
  check (present gid (t_groups d)) "group_members_group_id_fkey" >>>
  check (present uid (t_users d)) "group_members_user_id_fkey" >>>
  check (present rid (t_roles d)) "group_members_role_id_fkey" >>>
  check (opt_present added_by (t_users d)) "group_members_added_by_fkey" >>>
  let m := mkGroupMemberRow gid uid rid added_by (Some now) in
  Ok (m, set_group_members (<[(gid, uid) := m]>) d).
Definition AddGroupMember gid uid rid added_by : Go GroupMemberRow := exec (x_AddGroupMember gid uid rid added_by).

Definition x_RemoveGroupMember (gid uid : string) (_ : Instant) (d : DB) : Result (unit * DB) :=
  Ok (tt, set_group_members (delete (gid, uid)) d).
Definition RemoveGroupMember gid uid : Go unit := exec (x_RemoveGroupMember gid uid).

Definition with_role (rid : string) (m : GroupMemberRow) : GroupMemberRow :=
  mkGroupMemberRow (gm_GroupID m) (gm_UserID m) rid (gm_AddedBy m) (gm_JoinedAt m).
Definition x_UpdateGroupMemberRole (gid uid rid : string) (_ : Instant) (d : DB) : Result (unit * DB) :=
  if present (gid, uid) (t_group_members d) then
    check (present rid (t_roles d)) "group_members_role_id_fkey" >>>
    Ok (tt, set_group_members (alter (with_role rid) (gid, uid)) d)
  else Ok (tt, d).
Definition UpdateGroupMemberRole gid uid rid : Go unit := exec (x_UpdateGroupMemberRole gid uid rid).

Definition q_GetGroupMember (gid uid : string) (_ : Instant) (d : DB) : Result GroupMemberRow :=
  row_or_ErrNoRows (t_group_members d !! (gid, uid)).
Definition GetGroupMember gid uid : Go GroupMemberRow := query (q_GetGroupMember gid uid).

Definition oldest_first (a b : GroupMemberRow) : bool := (ts (gm_JoinedAt a) <=? ts (gm_JoinedAt b))%Z.

Definition q_ListGroupMembers (gid : string) (_ : Instant) (d : DB) : Result (list GroupMemberRow) :=
  Ok (order_by oldest_first (filter (λ m, gm_GroupID m = gid) (rows_of (t_group_members d)))).
Definition ListGroupMembers gid : Go (list GroupMemberRow) := query (q_ListGroupMembers gid).

Definition q_ListUserGroupMemberships (uid : string) (_ : Instant) (d : DB) : Result (list GroupMemberRow) :=
  Ok (order_by oldest_first (memberships_of uid d)).
Definition ListUserGroupMemberships uid : Go (list GroupMemberRow) := query (q_ListUserGroupMemberships uid).

(** ** roles *)

Definition role_scope_ok (s : string) : bool := bool_decide (s ∈ [RoleScope_Normal; RoleScope_System]).
(** UNIQUE (group_id, name), and the partial index for the global roles *)
Definition role_name_free (gid : option string) (name : string) (except : string) (d : DB) : bool :=
  bool_decide (Forall (λ r, ro_ID r = except ∨ ro_GroupID r ≠ gid ∨ ro_Name r ≠ name) (rows_of (t_roles d))).

Definition x_CreateRole (id : string) (gid : option string) (name scope : string) (now : Instant) (d : DB)
  : Result (RoleRow * DB) :=
  check (role_scope_ok scope) "roles_scope_check" >>>
  check (negb (present id (t_roles d))) "roles_pkey" >>>
  check (role_name_free gid name id d) "roles_group_id_name_key" >>>
  check (opt_present gid (t_groups d)) "roles_group_id_fkey" >>>
  let r := mkRoleRow id gid name scope false (Some now) (Some now) in
  Ok (r, set_roles (<[id := r]>) d).
Definition CreateRole id gid name scope : Go RoleRow := exec (x_CreateRole id gid name scope).

Definition q_GetRole (id : string) (_ : Instant) (d : DB) : Result RoleRow :=
  row_or_ErrNoRows (t_roles d !! id).
Definition GetRole id : Go RoleRow := query (q_GetRole id).

(** ORDER BY is_builtin DESC, group_id NULLS FIRST, name *)
Definition builtin_rank (r : RoleRow) : nat := if ro_IsBuiltin r then 0 else 1.
Definition opt_str_rank (o : option string) : string := default EmptyString o.
Definition role_order (a b : RoleRow) : bool :=
  if builtin_rank a =? builtin_rank b then
    match ro_GroupID a, ro_GroupID b with
    | None, Some _ => true
    | Some _, None => false
    | ga, gb => if String.eqb (opt_str_rank ga) (opt_str_rank gb) then String.leb (ro_Name a) (ro_Name b)
                else String.leb (opt_str_rank ga) (opt_str_rank gb)
    end
  else builtin_rank a <? builtin_rank b.

Definition q_ListGlobalRoles (_ : Instant) (d : DB) : Result (list RoleRow) :=
  Ok (order_by role_order (filter (λ r, ro_GroupID r = None) (rows_of (t_roles d)))).
Definition ListGlobalRoles : Go (list RoleRow) := query q_ListGlobalRoles.

Definition q_ListAssignableRoles (gid : option string) (scope : string) (_ : Instant) (d : DB) : Result (list RoleRow) :=
  Ok (order_by role_order
        (filter (λ r, (ro_GroupID r = None ∨ (is_Some (ro_GroupID r) ∧ ro_GroupID r = gid)) ∧ ro_Scope r = scope)
                (rows_of (t_roles d)))).
Definition ListAssignableRoles gid scope : Go (list RoleRow) := query (q_ListAssignableRoles gid scope).

Definition is_builtin (rid : string) (d : DB) : bool :=
  match t_roles d !! rid with Some r => ro_IsBuiltin r | None => false end.

(** trigger protect_builtin_roles *)
Definition x_UpdateRoleName (id name : string) (now : Instant) (d : DB) : Result (unit * DB) :=
  match t_roles d !! id with
  | None => Ok (tt, d)
  | Some r =>
      check (negb (ro_IsBuiltin r) || bool_decide (ro_Name r = name)) "protect_builtin_roles" >>>
      check (role_name_free (ro_GroupID r) name id d) "roles_group_id_name_key" >>>
      Ok (tt, set_roles (<[id := mkRoleRow (ro_ID r) (ro_GroupID r) name (ro_Scope r) (ro_IsBuiltin r)
                                   (ro_CreatedAt r) (Some now)]>) d)
  end.
Definition UpdateRoleName id name : Go unit := exec (x_UpdateRoleName id name).

Definition x_DeleteRole (id : string) (_ : Instant) (d : DB) : Result (unit * DB) :=
  if present id (t_roles d) then
    check (negb (is_builtin id d)) "protect_builtin_roles" >>>
    check (bool_decide (Forall (λ m, gm_RoleID m ≠ id) (rows_of (t_group_members d)))) "group_members_role_id_fkey" >>>
    Ok (tt, delete_roles (λ r, bool_decide (r = id)) d)
  else Ok (tt, d).
Definition DeleteRole id : Go unit := exec (x_DeleteRole id).

(** ** role_permissions *)

Definition role_keys (rid : string) (d : DB) : list string :=
  snd <$> elements (filter (λ rk, fst rk = rid) (t_role_permissions d)).

Definition q_ListRolePermissions (rid : string) (_ : Instant) (d : DB) : Result (list string) :=
  Ok (order_by String.leb (role_keys rid d)).
Definition ListRolePermissions rid : Go (list string) := query (q_ListRolePermissions rid).

Definition pair_order (a b : string * string) : bool :=
  if String.eqb (fst a) (fst b) then String.leb (snd a) (snd b) else String.leb (fst a) (fst b).
Definition q_ListRolePermissionsForRoles (rids : list string) (_ : Instant) (d : DB) : Result (list (string * string)) :=
  Ok (order_by pair_order (elements (filter (λ rk, fst rk ∈ rids) (t_role_permissions d)))).
Definition ListRolePermissionsForRoles rids : Go (list (string * string)) := query (q_ListRolePermissionsForRoles rids).

(** trigger protect_builtin_role_permissions fires before the conflict is looked at *)
Definition x_AddRolePermission (rid key : string) (_ : Instant) (d : DB) : Result (unit * DB) :=
  check (negb (is_builtin rid d)) "protect_builtin_role_permissions" >>>
  check (present rid (t_roles d)) "role_permissions_role_id_fkey" >>>
  Ok (tt, set_role_permissions (λ s, {[(rid, key)]} ∪ s) d).
Definition AddRolePermission rid key : Go unit := exec (x_AddRolePermission rid key).

Definition x_RemoveRolePermission (rid key : string) (_ : Instant) (d : DB) : Result (unit * DB) :=
  if bool_decide ((rid, key) ∈ t_role_permissions d) then
    check (negb (is_builtin rid d)) "protect_builtin_role_permissions" >>>
    Ok (tt, set_role_permissions (λ s, s ∖ {[(rid, key)]}) d)
  else Ok (tt, d).
Definition RemoveRolePermission rid key : Go unit := exec (x_RemoveRolePermission rid key).

(** group_members INNER JOIN role_permissions ON role_id, for one user and one
    group.  (group_id, user_id) is the key of group_members, so the join has
    the permissions of at most one role and DISTINCT removes nothing. *)
Definition member_keys (uid gid : string) (d : DB) : list string :=
  match t_group_members d !! (gid, uid) with
  | Some m => role_keys (gm_RoleID m) d
  | None => []
  end.

Definition q_GetUserPermissionsForGroup (uid gid : string) (_ : Instant) (d : DB) : Result (list string) :=
  Ok (member_keys uid gid d).
Definition GetUserPermissionsForGroup uid gid : Go (list string) := query (q_GetUserPermissionsForGroup uid gid).

Definition q_ListUserSystemPermissions (uid : string) (_ : Instant) (d : DB) : Result (list string) :=
  Ok (member_keys uid SystemGroupID d).
Definition ListUserSystemPermissions uid : Go (list string) := query (q_ListUserSystemPermissions uid).

(** ** users *)

Definition q_GetUser (id : string) (_ : Instant) (d : DB) : Result UserRow := row_or_ErrNoRows (t_users d !! id).
Definition GetUser id : Go UserRow := query (q_GetUser id).

Definition q_ListUsers (_ : Instant) (d : DB) : Result (list UserRow) :=
  Ok (order_by (λ a b, String.leb (us_ID a) (us_ID b)) (rows_of (t_users d))).
Definition ListUsers : Go (list UserRow) := query q_ListUsers.

Definition x_CreateUser (id password : string) (resonite icon : option string) (now : Instant) (d : DB) : Result (unit * DB) :=
  check (negb (present id (t_users d))) "users_pkey" >>>
  Ok (tt, set_users (<[id := mkUserRow id password resonite icon (Some now) (Some now)]>) d).
Definition CreateUser id password resonite icon : Go unit := exec (x_CreateUser id password resonite icon).

(** Memberships go with their user; the columns added_by and created_by are
    set to NULL, an update that fires the triggers on updated_at. *)
Definition unless (uid : string) (o : option string) : option string :=
  if bool_decide (o = Some uid) then None else o.
Definition touched (id : string) (createdBy : option string) (now : Instant) (updatedAt : option Instant) : option Instant :=
  if bool_decide (createdBy = Some id) then Some now else updatedAt.
Definition x_DeleteUser (id : string) (now : Instant) (d : DB) : Result (unit * DB) :=
  Ok (tt,
    set_users (delete id)
    (set_group_members (λ t, (λ m, mkGroupMemberRow (gm_GroupID m) (gm_UserID m) (gm_RoleID m) (unless id (gm_AddedBy m)) (gm_JoinedAt m))
                             <$> filter (λ km, gm_UserID (snd km) ≠ id) t)
    (set_hosts (fmap (λ h, mkHostRow (ho_ID h) (ho_Name h) (ho_Status h) (ho_AccountID h) (unless id (ho_CreatedBy h))
        (ho_LastStartupConfig h) (ho_LastStartupConfigSchemaVersion h) (ho_ConnectorType h) (ho_ConnectString h) (ho_StartedAt h)
        (ho_Memo h) (ho_AutoUpdatePolicy h) (ho_CreatedAt h) (touched id (ho_CreatedBy h) now (ho_UpdatedAt h)) (ho_InstanceCount h)
        (ho_GroupID h)))
    (set_sessions (fmap (λ s, mkSessionRow (se_ID s) (se_Name s) (se_Status s) (se_StartedAt s) (unless id (se_CreatedBy s))
        (se_EndedAt s) (se_HostID s) (se_StartupParameters s) (se_StartupParametersSchemaVersion s) (se_AutoUpgrade s)
        (se_Memo s) (se_CreatedAt s) (touched id (se_CreatedBy s) now (se_UpdatedAt s)) (se_GroupID s)))
    (set_headless_accounts (fmap (λ a, mkHeadlessAccountRow (ha_ResoniteID a) (ha_Credential a) (ha_Password a)
        (ha_LastDisplayName a) (ha_LastIconUrl a) (ha_CreatedAt a) (touched id (ha_CreatedBy a) now (ha_UpdatedAt a)) (ha_GroupID a)
        (unless id (ha_CreatedBy a)))) d))))).
Definition DeleteUser id : Go unit := exec (x_DeleteUser id).

Definition x_UpdateUserPassword (id password : string) (now : Instant) (d : DB) : Result (unit * DB) :=
  Ok (tt, set_users (alter (λ u, mkUserRow (us_ID u) password (us_ResoniteID u) (us_IconUrl u) (us_CreatedAt u) (Some now)) id) d).
Definition UpdateUserPassword id password : Go unit := exec (x_UpdateUserPassword id password).

(** ** registration_tokens *)

(** CHECK (token ~ '^[0-9a-f]{64}$') *)
Definition is_hex_digit (c : Ascii.ascii) : bool :=
  let n := Ascii.nat_of_ascii c in ((48 <=? n) && (n <=? 57)) || ((97 <=? n) && (n <=? 102)).
Fixpoint all_hex (s : string) : bool :=
  match s with EmptyString => true | String c s' => is_hex_digit c && all_hex s' end.
Definition token_is_hash (s : string) : bool := (String.length s =? 64) && all_hex s.

Definition x_CreateRegistrationToken (token resonite : string) (expires : Instant) (role : option string) (now : Instant) (d : DB)
  : Result (unit * DB) :=
  check (token_is_hash token) "registration_tokens_token_is_hash" >>>
  check (negb (present token (t_registration_tokens d))) "registration_tokens_pkey" >>>
  check (opt_present role (t_roles d)) "registration_tokens_personal_role_id_fkey" >>>
  Ok (tt, set_registration_tokens (<[token := mkRegistrationTokenRow token resonite (Some expires) None (Some now) role]>) d).
Definition CreateRegistrationToken token resonite expires role : Go unit :=
  exec (x_CreateRegistrationToken token resonite expires role).

Definition token_valid (now : Instant) (t : RegistrationTokenRow) : bool :=
  (now <? ts (rt_ExpiresAt t))%Z && bool_decide (rt_UsedAt t = None).

Definition q_GetValidRegistrationToken (token : string) (now : Instant) (d : DB) : Result RegistrationTokenRow :=
  row_or_ErrNoRows (match t_registration_tokens d !! token with
                    | Some t => if token_valid now t then Some t else None
                    | None => None
                    end).
Definition GetValidRegistrationToken token : Go RegistrationTokenRow := query (q_GetValidRegistrationToken token).

Definition mark_used (now : Instant) (t : RegistrationTokenRow) : RegistrationTokenRow :=
  mkRegistrationTokenRow (rt_Token t) (rt_ResoniteID t) (rt_ExpiresAt t) (Some now) (rt_CreatedAt t) (rt_PersonalRoleID t).
(** answers the number of rows changed *)
Definition x_MarkRegistrationTokenUsed (token : string) (now : Instant) (d : DB) : Result (Z * DB) :=
  match t_registration_tokens d !! token with
  | Some t => if bool_decide (rt_UsedAt t = None)
              then Ok (1%Z, set_registration_tokens (<[token := mark_used now t]>) d)
              else Ok (0%Z, d)
  | None => Ok (0%Z, d)
  end.
Definition MarkRegistrationTokenUsed token : Go Z := exec (x_MarkRegistrationTokenUsed token).

(** ** What the statements of the other tables share *)

(** the precision of a timestamp column *)
Definition to_microseconds (t : Instant) : Instant := (t / 1000 * 1000)%Z.

(** [$n IS NULL OR column = $n] *)
Definition unless_given {A} `{EqDecision A} (param : option A) (column : option A) : bool :=
  match param with None => true | Some _ => bool_decide (column = param) end.

(** wrap-around of [int32] *)
Definition int32 (z : Z) : Z := ((z + 2 ^ 31) mod 2 ^ 32 - 2 ^ 31)%Z.
Lemma int32_id z : (- 2 ^ 31 <= z < 2 ^ 31)%Z → int32 z = z.
Proof. intros H. unfold int32. rewrite Z.mod_small by lia. lia. Qed.

(** LIMIT and OFFSET refuse negative numbers; each row comes with the count of
    all ([COUNT] over the whole window). *)
Definition limit_offset {A} (limit offset : Z) (all : list A) : Result (list (A * Z)) :=
  if (limit <? 0)%Z then Fail (EConstraint "LIMIT must not be negative")
  else if (offset <? 0)%Z then Fail (EConstraint "OFFSET must not be negative")
  else Ok ((λ r, (r, Z.of_nat (length all))) <$> take (Z.to_nat limit) (drop (Z.to_nat offset) all)).

Lemma limit_offset_spec {A} limit offset (all : list A) rows r n :
  limit_offset limit offset all = Ok rows → (r, n) ∈ rows → r ∈ all ∧ n = Z.of_nat (length all).
Proof.
  unfold limit_offset. destruct (_ <? _)%Z; [done|]. destruct (_ <? _)%Z; [done|]. intros [= <-].
  intros (r' & [= -> ->] & Hr)%list_elem_of_fmap. split; [|done].
  eapply elem_of_subseteq; [|eapply elem_of_subseteq; [apply subseteq_take|exact Hr]]. apply subseteq_drop.
Qed.

(** ** Statements that nothing calls yet *)

Definition q_ListGroupsByType (type : string) (_ : Instant) (d : DB) : Result (list GroupRow) :=
  Ok (order_by newest_first (filter (λ g, gr_Type g = type) (rows_of (t_groups d)))).
Definition ListGroupsByType type : Go (list GroupRow) := query (q_ListGroupsByType type).

Record ListGroupsPagedParams : Type := mkListGroupsPaged { lgp_Type : option string; lgp_PageOffset : Z; lgp_PageSize : Z }.
Definition q_ListGroupsPaged (p : ListGroupsPagedParams) (_ : Instant) (d : DB) : Result (list (GroupRow * Z)) :=
  limit_offset (lgp_PageSize p) (lgp_PageOffset p)
    (order_by newest_first (List.filter (λ g, unless_given (lgp_Type p) (Some (gr_Type g))) (rows_of (t_groups d)))).
Definition ListGroupsPaged p : Go (list (GroupRow * Z)) := query (q_ListGroupsPaged p).

(** a group that is NULL equals none *)
Definition q_ListRolesByGroup (gid : option string) (_ : Instant) (d : DB) : Result (list RoleRow) :=
  Ok (order_by (λ a b, String.leb (ro_Name a) (ro_Name b)) (filter (λ r, is_Some gid ∧ ro_GroupID r = gid) (rows_of (t_roles d)))).
Definition ListRolesByGroup gid : Go (list RoleRow) := query (q_ListRolesByGroup gid).

Definition q_CountGroupMembersByRole (gid rid : string) (_ : Instant) (d : DB) : Result Z :=
  Ok (Z.of_nat (length (filter (λ m, gm_GroupID m = gid ∧ gm_RoleID m = rid) (rows_of (t_group_members d))))).
Definition CountGroupMembersByRole gid rid : Go Z := query (q_CountGroupMembersByRole gid rid).

Record ListGroupMembersPagedParams : Type := mkListGroupMembersPaged { lmp_GroupID : string; lmp_PageOffset : Z; lmp_PageSize : Z }.
Definition q_ListGroupMembersPaged (p : ListGroupMembersPagedParams) (_ : Instant) (d : DB) : Result (list (GroupMemberRow * Z)) :=
  limit_offset (lmp_PageSize p) (lmp_PageOffset p) (order_by oldest_first (filter (λ m, gm_GroupID m = lmp_GroupID p) (rows_of (t_group_members d)))).
Definition ListGroupMembersPaged p : Go (list (GroupMemberRow * Z)) := query (q_ListGroupMembersPaged p).

Definition q_GetRegistrationToken (token : string) (_ : Instant) (d : DB) : Result RegistrationTokenRow :=
  row_or_ErrNoRows (t_registration_tokens d !! token).
Definition GetRegistrationToken token : Go RegistrationTokenRow := query (q_GetRegistrationToken token).

Definition x_DeleteExpiredRegistrationTokens (now : Instant) (d : DB) : Result (unit * DB) :=
  Ok (tt, set_registration_tokens (filter (λ p, ¬ (ts (rt_ExpiresAt p.2) < now)%Z)) d).
Definition DeleteExpiredRegistrationTokens : Go unit := exec x_DeleteExpiredRegistrationTokens.

(** The tokens that can still be used are kept. *)
Lemma DeleteExpired_keeps_valid now d d' token : x_DeleteExpiredRegistrationTokens now d = Ok (tt, d') →
  q_GetValidRegistrationToken token now d' = q_GetValidRegistrationToken token now d.
Proof.
  intros [= <-]. unfold q_GetValidRegistrationToken. simpl. rewrite map_lookup_filter.
  destruct (t_registration_tokens d !! token) as [t|]; [|done]. simpl. unfold token_valid.
  case_guard as Hg; simpl in *; [done|]. rewrite (proj2 (Z.ltb_ge _ _)) by lia. done.
Qed.
