(* ===== verification/Ports.v ===== *)
(** * Authentication context

    [src/lib/auth/auth.go]: the claims a request carries in its context, and
    how they are read and set. *)

From S2P Require Import Prelude Entity Models.
From stdpp Require Import base strings list.
From Stdlib Require Import ZArith.

(** [jwt.RegisteredClaims]; a date is a [*jwt.NumericDate]. *)
Record RegisteredClaims : Type := mkRegisteredClaims {
  rc_Issuer : string;
  rc_Subject : string;
  rc_Audience : list string;
  rc_ExpiresAt : option Instant;
  rc_NotBefore : option Instant;
  rc_IssuedAt : option Instant;
  rc_ID : string }.
Definition no_registered : RegisteredClaims :=
  mkRegisteredClaims EmptyString EmptyString [] None None None EmptyString.

Record AuthClaims : Type := mkAuthClaims {
  ac_UserID : string;
  ac_ResoniteID : string;
  ac_IconUrl : string;
  ac_Registered : RegisteredClaims }.

(** The part of [context.Context] the program reads: the value under [AuthClaimsKey]. *)
Definition Ctx : Type := option AuthClaims.
Definition context_Background : Ctx := None.

Definition GetAuthClaimsFromContext (ctx : Ctx) : Result AuthClaims :=
  match ctx with
  | Some claims => Ok claims
  | None => Fail (EMsg "not authenticated")
  end.

Definition WithActAsUser (ctx : Ctx) (userID : string) : Ctx :=
  if bool_decide (userID = EmptyString) then ctx
  else Some (mkAuthClaims userID EmptyString EmptyString no_registered).

(** ** Ports of the permission system

    The interfaces of [src/usecase/port/permission_repository.go] as type
    classes, and [PermissionView]: what the use cases rely on when they ask a
    repository who may do what.  The use cases are defined against the
    interfaces; [Repositories] gives the instances over the SQL tables and
    proves the view. *)

Class GroupRepository : Type := {
  groupRepo_Create : string → string → string → Go Group;
  groupRepo_Get : string → Go Group;
  groupRepo_ListAll : Go (list Group);
  groupRepo_ListByUser : string → Go (list Group);
  groupRepo_GetPersonalGroupByUser : string → Go Group;
  groupRepo_UpdateName : string → string → Go unit;
  groupRepo_Delete : string → Go unit }.

Class RoleRepository : Type := {
  roleRepo_Create : string → option string → string → string → Go Role;
  roleRepo_Get : string → Go Role;
  roleRepo_ListGlobal : Go (list Role);
  roleRepo_ListAssignable : option string → string → Go (list Role);
  roleRepo_UpdateName : string → string → Go unit;
  roleRepo_Delete : string → Go unit;
  roleRepo_ReplacePermissions : string → list string → Go unit;
  roleRepo_GetPermissions : string → Go (list string) }.

Class GroupMemberRepository : Type := {
  memberRepo_Add : string → string → string → option string → Go GroupMember;
  memberRepo_Remove : string → string → Go unit;
  memberRepo_UpdateRole : string → string → string → Go unit;
  memberRepo_Get : string → string → Go GroupMember;
  memberRepo_ListByGroup : string → Go (list GroupMember);
  memberRepo_ListByUser : string → Go (list GroupMember);
  memberRepo_GetUserPermissionsForGroup : string → string → Go (list string);
  memberRepo_ListUserSystemPermissions : string → Go (list string) }.

(** What a repository promises to the permission checks: asking for a user's
    permissions reads the store and answers a view of it. *)
Class PermissionView (GR : GroupRepository) (MR : GroupMemberRepository) : Type := {
  view_keys : DB → string → string → list string;      (** user, group *)
  view_memberships : DB → string → list GroupMember;   (** user *)
  view_personal : DB → string → Result Group;          (** user *)
  view_reads_keys u g :
    reads (memberRepo_GetUserPermissionsForGroup u g) (λ _ d, Ok (view_keys d u g));
  view_reads_system u :
    reads (memberRepo_ListUserSystemPermissions u) (λ _ d, Ok (view_keys d u SystemGroupID));
  view_reads_memberships u :
    reads (memberRepo_ListByUser u) (λ _ d, Ok (view_memberships d u));
  view_reads_personal u :
    reads (groupRepo_GetPersonalGroupByUser u) (λ _ d, view_personal d u) }.
#[export] Hint Resolve view_reads_keys view_reads_system view_reads_memberships view_reads_personal : reads.
