(* ===== verification/PermissionUsecase.v ===== *)
(** * Permission decisions

    [src/usecase/permission_usecase.go]: who may do what.  Every operation
    only reads, so each is characterised by a pure function of the tables. *)

From S2P Require Import Prelude Entity Models Ports.
From stdpp Require Import base gmap strings list.

Section PermissionUsecase.
Context {GR : GroupRepository} {MR : GroupMemberRepository}.

(** [slices.Contains] *)
Definition slices_Contains (l : list string) (k : string) : bool := bool_decide (k ∈ l).

Definition HasPermission (userID groupID requiredKey : string) : Go bool :=
  if bool_decide (requiredKey = EmptyString) then ret true
  else if is_system_key requiredKey then
    let* sysPerms := memberRepo_ListUserSystemPermissions userID in
    ret (slices_Contains sysPerms requiredKey)
  else
    let* direct :=
      (if negb (bool_decide (groupID = EmptyString)) then
         let* perms := memberRepo_GetUserPermissionsForGroup userID groupID in
         ret (slices_Contains perms requiredKey)
       else ret false) in
    if direct : bool then ret true
    else
      let* sysPerms := memberRepo_ListUserSystemPermissions userID in
      ret (slices_Contains sysPerms PermKey_SystemGroupManage).

Fixpoint HasAllPermissions (userID groupID : string) (requiredKeys : list string) : Go bool :=
  match requiredKeys with
  | [] => ret true
  | k :: requiredKeys' =>
      let* ok := HasPermission userID groupID k in
      if negb ok then ret false else HasAllPermissions userID groupID requiredKeys'
  end.

Definition HasSystemPermission (userID key : string) : Go bool :=
  let* sysPerms := memberRepo_ListUserSystemPermissions userID in
  ret (slices_Contains sysPerms key).

Definition ResolveGroupIDForUser (userID requestedGroupID : string) : Go string :=
  if negb (bool_decide (requestedGroupID = EmptyString)) then ret requestedGroupID
  else
    let* g := groupRepo_GetPersonalGroupByUser userID in
    ret (Group_ID g).

(** The loop of [ResolveListGroupFilter]. *)
Fixpoint filter_memberships (userID permKey : string) (memberships : list GroupMember) (result : list string)
  : Go (list string) :=
  match memberships with
  | [] => ret result
  | m :: memberships' =>
      if bool_decide (GroupMember_GroupID m = SystemGroupID) then
        filter_memberships userID permKey memberships' result
      else if bool_decide (permKey = EmptyString) then
        filter_memberships userID permKey memberships' (result ++ [GroupMember_GroupID m])
      else
        let* ok := HasPermission userID (GroupMember_GroupID m) permKey in
        filter_memberships userID permKey memberships'
          (if ok : bool then result ++ [GroupMember_GroupID m] else result)
  end.

Definition ResolveListGroupFilter (userID permKey : string) : Go (list string * bool) :=
  let* canListAll := HasSystemPermission userID PermKey_SystemGroupList in
  if canListAll : bool then ret ([], true)
  else
    let* memberships := memberRepo_ListByUser userID in
    let* result := filter_memberships userID permKey memberships [] in
    ret (result, false).

Definition CanReadGroup (userID groupID permKey : string) : Go bool :=
  let* canList := HasSystemPermission userID PermKey_SystemGroupList in
  if canList : bool then ret true else HasPermission userID groupID permKey.

Record GroupPermissionSummary : Type := mkGroupPermissionSummary {
  GPS_GroupID : string; GPS_RoleID : string; GPS_PermissionKeys : list string }.
Record MyPermissionsSummary : Type := mkMyPermissionsSummary {
  MPS_Groups : list GroupPermissionSummary; MPS_SystemPermissionKeys : list string }.

(** The loop of [GetMyPermissionsSummary]. *)
Fixpoint summarize (userID : string) (memberships : list GroupMember) (result : MyPermissionsSummary)
  : Go MyPermissionsSummary :=
  match memberships with
  | [] => ret result
  | m :: memberships' =>
      let* perms := memberRepo_GetUserPermissionsForGroup userID (GroupMember_GroupID m) in
      let groups := MPS_Groups result ++
            [mkGroupPermissionSummary (GroupMember_GroupID m) (GroupMember_RoleID m) perms] in
      let system := if bool_decide (GroupMember_GroupID m = SystemGroupID)
                    then MPS_SystemPermissionKeys result ++ perms
                    else MPS_SystemPermissionKeys result in
      summarize userID memberships' (mkMyPermissionsSummary groups system)
  end.

Definition GetMyPermissionsSummary (userID : string) : Go MyPermissionsSummary :=
  let* memberships := memberRepo_ListByUser userID in
  summarize userID memberships (mkMyPermissionsSummary [] []).

Definition CurrentUserID (ctx : Ctx) : Go string :=
  match GetAuthClaimsFromContext ctx with
  | Fail _ => fail (ESent ErrUnauthenticated)
  | Ok claims =>
      if bool_decide (ac_UserID claims = EmptyString) then fail (ESent ErrUnauthenticated)
      else ret (ac_UserID claims)
  end.

(** [fmt.Errorf] with the verb %w around [ErrPermissionDenied] *)
Definition denied (what : string) : Err := EWrap what (ESent ErrPermissionDenied).

Definition RequirePermissionForGroup (ctx : Ctx) (groupID permKey : string) : Go unit :=
  let* userID := CurrentUserID ctx in
  let* ok := HasPermission userID groupID permKey in
  if ok : bool then ret tt else fail (denied (permKey +:+ " on group " +:+ groupID)).

Definition RequireSystemPermission (ctx : Ctx) (permKey : string) : Go unit :=
  let* userID := CurrentUserID ctx in
  let* ok := HasSystemPermission userID permKey in
  if ok : bool then ret tt else fail (denied permKey).

Fixpoint RequireAllPermissionsForGroup (ctx : Ctx) (groupID : string) (permKeys : list string) : Go unit :=
  match permKeys with
  | [] => ret tt
  | k :: permKeys' =>
      RequirePermissionForGroup ctx groupID k ;;;
      RequireAllPermissionsForGroup ctx groupID permKeys'
  end.

(** The loop shared by [RequireAnyPermissionForGroup]: whether one of the keys is held. *)
Fixpoint holds_any (userID groupID : string) (permKeys : list string) : Go bool :=
  match permKeys with
  | [] => ret false
  | k :: permKeys' =>
      let* ok := HasPermission userID groupID k in
      if ok : bool then ret true else holds_any userID groupID permKeys'
  end.

(** a slice of strings under the verb %v, without the brackets *)
Fixpoint join_keys (l : list string) : string :=
  match l with
  | [] => EmptyString
  | [k] => k
  | k :: l' => k +:+ " " +:+ join_keys l'
  end.

Definition RequireAnyPermissionForGroup (ctx : Ctx) (groupID : string) (permKeys : list string) : Go unit :=
  let* userID := CurrentUserID ctx in
  let* ok := holds_any userID groupID permKeys in
  if ok : bool then ret tt else fail (denied ("one of [" +:+ join_keys permKeys +:+ "] on group " +:+ groupID)).

Fixpoint CanReadGroupAny (userID groupID : string) (permKeys : list string) : Go bool :=
  match permKeys with
  | [] => ret false
  | k :: permKeys' =>
      let* ok := CanReadGroup userID groupID k in
      if ok : bool then ret true else CanReadGroupAny userID groupID permKeys'
  end.
End PermissionUsecase.

(** ** What the decisions are

    [holds d u g k] is the rule of [docs/permissions.md] (5.1) over the view
    of the tables: the empty requirement is always met, a system key must be
    held through the system group, any other key must be held on the group or
    be covered by system:group.manage. *)

Section Decisions.
Context {GR : GroupRepository} {MR : GroupMemberRepository} {V : PermissionView GR MR}.
Implicit Types (d : DB) (u g k : string) (ks : list string).

Definition has_system d u k : bool := bool_decide (k ∈ view_keys d u SystemGroupID).

Definition holds d u g k : bool :=
  bool_decide (k = EmptyString) ||
  (if is_system_key k then has_system d u k
   else (negb (bool_decide (g = EmptyString)) && bool_decide (k ∈ view_keys d u g))
        || has_system d u PermKey_SystemGroupManage).

Lemma holds_iff d u g k :
  holds d u g k = true ↔
  k = EmptyString ∨
  (is_system_key k = true ∧ k ∈ view_keys d u SystemGroupID) ∨
  (is_system_key k = false ∧
    ((g ≠ EmptyString ∧ k ∈ view_keys d u g) ∨ PermKey_SystemGroupManage ∈ view_keys d u SystemGroupID)).
Proof.
  unfold holds, has_system. rewrite orb_true_iff, bool_decide_eq_true.
  destruct (is_system_key k); rewrite ?orb_true_iff, ?andb_true_iff, ?negb_true_iff,
    ?bool_decide_eq_true, ?bool_decide_eq_false; naive_solver.
Qed.

Lemma HasSystemPermission_reads u k : reads (HasSystemPermission u k) (λ _ d, Ok (has_system d u k)).
Proof. eapply reads_map; eauto with reads. Qed.
#[local] Hint Resolve HasSystemPermission_reads : reads.

Lemma HasPermission_reads u g k : reads (HasPermission u g k) (λ _ d, Ok (holds d u g k)).
Proof.
  unfold HasPermission, holds.
  destruct (bool_decide (k = EmptyString)); simpl; [apply reads_ret|].
  destruct (is_system_key k); [apply HasSystemPermission_reads|].
  eapply reads_ask with (b := λ _ d, negb (bool_decide (g = EmptyString)) && bool_decide (k ∈ view_keys d u g)).
  - destruct (negb _); simpl; [|apply reads_ret]. eapply reads_map; eauto with reads.
  - apply reads_ret.
  - apply HasSystemPermission_reads.
  - intros t d. by destruct (_ && _).
Qed.
#[local] Hint Resolve HasPermission_reads : reads.

Lemma HasAllPermissions_reads u g ks :
  reads (HasAllPermissions u g ks) (λ _ d, Ok (forallb (holds d u g) ks)).
Proof.
  induction ks as [|k ks IH]; simpl; [apply reads_ret|].
  eapply reads_bind_ext with (g := λ b _ d, Ok (b && forallb (holds d u g) ks)); [apply HasPermission_reads| |done].
  intros [|]; simpl; [apply IH|apply reads_ret].
Qed.

Definition can_read d u g k : bool := has_system d u PermKey_SystemGroupList || holds d u g k.

Lemma CanReadGroup_reads u g k : reads (CanReadGroup u g k) (λ _ d, Ok (can_read d u g k)).
Proof.
  eapply reads_ask; [apply HasSystemPermission_reads|apply reads_ret|apply HasPermission_reads|].
  intros t d. unfold can_read. by destruct (has_system _ _ _).
Qed.

(** A loop that stops at the first [true] decides the disjunction. *)
Lemma any_loop_reads (step : string → Go bool) (f : DB → string → bool) (loop : list string → Go bool) ks :
  (∀ k, reads (step k) (λ _ d, Ok (f d k))) →
  loop [] = ret false →
  (∀ k ks, loop (k :: ks) = let* ok := step k in if ok : bool then ret true else loop ks) →
  reads (loop ks) (λ _ d, Ok (existsb (f d) ks)).
Proof.
  intros Hstep Hnil Hcons. induction ks as [|k ks IH]; [rewrite Hnil; simpl; apply reads_ret|].
  rewrite Hcons. eapply reads_ask; [apply Hstep|apply reads_ret|apply IH|].
  intros t d. simpl. by destruct (f d k).
Qed.

Lemma holds_any_reads u g ks : reads (holds_any u g ks) (λ _ d, Ok (existsb (holds d u g) ks)).
Proof. apply any_loop_reads with (step := HasPermission u g) (f := λ d, holds d u g); auto with reads. Qed.

Lemma CanReadGroupAny_reads u g ks : reads (CanReadGroupAny u g ks) (λ _ d, Ok (existsb (can_read d u g) ks)).
Proof. apply any_loop_reads with (step := CanReadGroup u g) (f := λ d, can_read d u g); auto using CanReadGroup_reads. Qed.

Definition current_user (ctx : Ctx) : Result string :=
  match ctx with
  | Some c => if bool_decide (ac_UserID c = EmptyString) then Fail (ESent ErrUnauthenticated) else Ok (ac_UserID c)
  | None => Fail (ESent ErrUnauthenticated)
  end.

Lemma CurrentUserID_lift ctx : CurrentUserID ctx = lift (current_user ctx).
Proof. destruct ctx as [c|]; [|done]. unfold CurrentUserID, current_user. simpl. by case_bool_decide. Qed.

Lemma CurrentUserID_reads ctx : reads (CurrentUserID ctx) (λ _ _, current_user ctx).
Proof. rewrite CurrentUserID_lift. apply reads_lift. Qed.
#[local] Hint Resolve CurrentUserID_reads : reads.

Definition guard (b : bool) (what : string) : Result unit := if b then Ok tt else Fail (denied what).

(** A requirement: who asks, then a decision, then the refusal. *)
Lemma require_reads ctx (decide : string → Go bool) (f : DB → string → bool) what :
  (∀ u, reads (decide u) (λ _ d, Ok (f d u))) →
  reads (let* u := CurrentUserID ctx in let* ok := decide u in if ok : bool then ret tt else fail (denied what))
        (λ _ d, rbind (current_user ctx) (λ u, guard (f d u) what)).
Proof.
  intros Hd. eapply reads_bind_ext with (g := λ u _ d, guard (f d u) what);
    [apply CurrentUserID_reads| |done].
  intros u. eapply reads_ask; [apply Hd|apply reads_ret|apply reads_fail|done].
Qed.

Lemma RequirePermissionForGroup_reads ctx g k :
  reads (RequirePermissionForGroup ctx g k)
    (λ _ d, rbind (current_user ctx) (λ u, guard (holds d u g k) (k +:+ " on group " +:+ g))).
Proof.
  apply require_reads with (f := λ d u, holds d u g k). eauto with reads.
Qed.

Lemma RequireSystemPermission_reads ctx k :
  reads (RequireSystemPermission ctx k)
    (λ _ d, rbind (current_user ctx) (λ u, guard (has_system d u k) k)).
Proof.
  apply require_reads with (f := λ d u, has_system d u k). eauto with reads.
Qed.

Lemma RequireAnyPermissionForGroup_reads ctx g ks :
  reads (RequireAnyPermissionForGroup ctx g ks)
    (λ _ d, rbind (current_user ctx) (λ u, guard (existsb (holds d u g) ks)
                                           ("one of [" +:+ join_keys ks +:+ "] on group " +:+ g))).
Proof.
  apply require_reads with (f := λ d u, existsb (holds d u g) ks). intros u. apply holds_any_reads.
Qed.

(** What a passed requirement says. *)
Lemma guard_ensures (m : Go unit) ctx (f : DB → string → bool) what w (Q : unit → World → Prop) :
  reads m (λ _ d, rbind (current_user ctx) (λ u, guard (f d u) what)) →
  (∀ u w', current_user ctx = Ok u → f (w_db w) u = true → only_faults w w' → Q tt w') →
  ensures m w Q.
Proof.
  intros Hm HQ. eapply reads_ensures; [exact Hm|]. intros [] w'.
  destruct (current_user ctx) as [u|]; simpl; [|done]. unfold guard.
  destruct (f (w_db w) u) eqn:E; [|done]. intros _ Hof. by eapply HQ.
Qed.

Lemma RequirePermissionForGroup_ensures ctx g k w (Q : unit → World → Prop) :
  (∀ u w', current_user ctx = Ok u → holds (w_db w) u g k = true → only_faults w w' → Q tt w') →
  ensures (RequirePermissionForGroup ctx g k) w Q.
Proof. exact (guard_ensures _ ctx (λ d u, holds d u g k) _ w Q (RequirePermissionForGroup_reads ctx g k)). Qed.

Lemma RequireSystemPermission_ensures ctx k w (Q : unit → World → Prop) :
  (∀ u w', current_user ctx = Ok u → has_system (w_db w) u k = true → only_faults w w' → Q tt w') →
  ensures (RequireSystemPermission ctx k) w Q.
Proof. exact (guard_ensures _ ctx (λ d u, has_system d u k) _ w Q (RequireSystemPermission_reads ctx k)). Qed.
End Decisions.
#[export] Hint Resolve HasPermission_reads HasSystemPermission_reads HasAllPermissions_reads CanReadGroup_reads
  CanReadGroupAny_reads CurrentUserID_reads RequirePermissionForGroup_reads RequireSystemPermission_reads
  RequireAnyPermissionForGroup_reads : reads.
