(* ===== verification/Repositories.v ===== *)
(** * Repositories of the permission system

    [src/adapter/group_repository.go], [src/adapter/role_repository.go],
    [src/adapter/group_member_repository.go] and the helpers of
    [src/adapter/utils.go] they use: the instances of the ports over the SQL
    statements, and the proof that they give the permission checks the view
    those rely on. *)

From S2P Require Import Prelude Entity Models Queries Ports.
From stdpp Require Import base gmap strings list sorting.
From Stdlib Require Import ZArith.

(** [convertDBErr] *)
Definition convertDBErr (e : Err) : Err := if errors_Is e ErrNoRows then ESent ErrNotFound else e.

(** [errors.WrapPrefix(convertDBErr(err), p, 0)] *)
Definition wrap_db (p : string) (e : Err) : Err := EWrap p (convertDBErr e).

Definition dbGroupToEntity (g : GroupRow) : Group :=
  mkGroup (gr_ID g) (gr_Name g) (gr_Type g)
    (default time_Time_zero (gr_CreatedAt g)) (default time_Time_zero (gr_UpdatedAt g)).

Definition dbGroupMemberToEntity (m : GroupMemberRow) : GroupMember :=
  mkGroupMember (gm_GroupID m) (gm_UserID m) (gm_RoleID m) (gm_AddedBy m)
    (default time_Time_zero (gm_JoinedAt m)).

(** The permission keys are filled in by the callers. *)
Definition dbRoleToEntity (r : RoleRow) (keys : list string) : Role :=
  mkRole (ro_ID r) (ro_GroupID r) (ro_Name r) (ro_Scope r) (ro_IsBuiltin r) keys
    (default time_Time_zero (ro_CreatedAt r)) (default time_Time_zero (ro_UpdatedAt r)).

(** ** GroupRepository *)

Definition GroupRepository_Create (id name gtype : string) : Go Group :=
  let* g := on_err (wrap_db "create group") (CreateGroup id name gtype) in ret (dbGroupToEntity g).
Definition GroupRepository_Get (id : string) : Go Group :=
  let* g := on_err (wrap_db "group") (GetGroup id) in ret (dbGroupToEntity g).
Definition GroupRepository_ListAll : Go (list Group) :=
  let* rows := ListGroups in ret (dbGroupToEntity <$> rows).
Definition GroupRepository_ListByUser (userID : string) : Go (list Group) :=
  let* rows := ListGroupsByUser userID in ret ((λ row, dbGroupToEntity (fst row)) <$> rows).
Definition GroupRepository_GetPersonalGroupByUser (userID : string) : Go Group :=
  let* g := on_err (wrap_db "personal group") (GetPersonalGroupByUser userID) in ret (dbGroupToEntity g).
Definition GroupRepository_UpdateName (id name : string) : Go unit := UpdateGroupName id name.
Definition GroupRepository_Delete (id : string) : Go unit := DeleteGroup id.

#[export] Instance groupRepository : GroupRepository := {
  groupRepo_Create := GroupRepository_Create;
  groupRepo_Get := GroupRepository_Get;
  groupRepo_ListAll := GroupRepository_ListAll;
  groupRepo_ListByUser := GroupRepository_ListByUser;
  groupRepo_GetPersonalGroupByUser := GroupRepository_GetPersonalGroupByUser;
  groupRepo_UpdateName := GroupRepository_UpdateName;
  groupRepo_Delete := GroupRepository_Delete }.

(** ** RoleRepository *)

Definition RoleRepository_Create (id : string) (groupID : option string) (name scope : string) : Go Role :=
  let* role := on_err (wrap_db "create role") (CreateRole id groupID name scope) in
  ret (dbRoleToEntity role []).

Definition RoleRepository_Get (id : string) : Go Role :=
  let* role := on_err (wrap_db "role") (GetRole id) in
  let* keys := ListRolePermissions id in
  ret (dbRoleToEntity role keys).

(** [keysByRole[id]] of the map the loop builds. *)
Definition keysByRole (perms : list (string * string)) (id : string) : list string :=
  snd <$> filter (λ p, fst p = id) perms.

Definition attachPermissionsToRoles (rows : list RoleRow) : Go (list Role) :=
  match rows with
  | [] => ret []
  | _ =>
      let* perms := ListRolePermissionsForRoles (ro_ID <$> rows) in
      ret ((λ row, dbRoleToEntity row (keysByRole perms (ro_ID row))) <$> rows)
  end.

Definition RoleRepository_ListGlobal : Go (list Role) :=
  let* rows := ListGlobalRoles in attachPermissionsToRoles rows.
Definition RoleRepository_ListAssignable (groupID : option string) (scope : string) : Go (list Role) :=
  let* rows := ListAssignableRoles groupID scope in attachPermissionsToRoles rows.
Definition RoleRepository_UpdateName (id name : string) : Go unit := UpdateRoleName id name.
Definition RoleRepository_Delete (id : string) : Go unit := DeleteRole id.

Fixpoint for_each {A} (f : A → Go unit) (l : list A) : Go unit :=
  match l with
  | [] => ret tt
  | x :: l' => f x ;;; for_each f l'
  end.

(** Go ranges over a map in an unspecified order; [elements] fixes one. *)
Definition ReplacePermissions (roleID : string) (keys : list string) : Go unit :=
  let* existing := ListRolePermissions roleID in
  let existingSet : gset string := list_to_set existing in
  let wantSet : gset string := list_to_set keys in
  for_each (RemoveRolePermission roleID) (elements (existingSet ∖ wantSet)) ;;;
  for_each (AddRolePermission roleID) (elements (wantSet ∖ existingSet)).

Definition RoleRepository_GetPermissions (roleID : string) : Go (list string) := ListRolePermissions roleID.

#[export] Instance roleRepository : RoleRepository := {
  roleRepo_Create := RoleRepository_Create;
  roleRepo_Get := RoleRepository_Get;
  roleRepo_ListGlobal := RoleRepository_ListGlobal;
  roleRepo_ListAssignable := RoleRepository_ListAssignable;
  roleRepo_UpdateName := RoleRepository_UpdateName;
  roleRepo_Delete := RoleRepository_Delete;
  roleRepo_ReplacePermissions := ReplacePermissions;
  roleRepo_GetPermissions := RoleRepository_GetPermissions }.

(** ** GroupMemberRepository *)

Definition MemberRepository_Add (groupID userID roleID : string) (addedBy : option string) : Go GroupMember :=
  let* m := on_err (wrap_db "add member") (AddGroupMember groupID userID roleID addedBy) in
  ret (dbGroupMemberToEntity m).
Definition MemberRepository_Remove (groupID userID : string) : Go unit := RemoveGroupMember groupID userID.
Definition MemberRepository_UpdateRole (groupID userID roleID : string) : Go unit :=
  UpdateGroupMemberRole groupID userID roleID.
Definition MemberRepository_Get (groupID userID : string) : Go GroupMember :=
  let* m := on_err (wrap_db "group member") (GetGroupMember groupID userID) in ret (dbGroupMemberToEntity m).
Definition MemberRepository_ListByGroup (groupID : string) : Go (list GroupMember) :=
  let* rows := ListGroupMembers groupID in ret (dbGroupMemberToEntity <$> rows).
Definition MemberRepository_ListByUser (userID : string) : Go (list GroupMember) :=
  let* rows := ListUserGroupMemberships userID in ret (dbGroupMemberToEntity <$> rows).
Definition MemberRepository_GetUserPermissionsForGroup (userID groupID : string) : Go (list string) :=
  GetUserPermissionsForGroup userID groupID.
Definition MemberRepository_ListUserSystemPermissions (userID : string) : Go (list string) :=
  ListUserSystemPermissions userID.

#[export] Instance memberRepository : GroupMemberRepository := {
  memberRepo_Add := MemberRepository_Add;
  memberRepo_Remove := MemberRepository_Remove;
  memberRepo_UpdateRole := MemberRepository_UpdateRole;
  memberRepo_Get := MemberRepository_Get;
  memberRepo_ListByGroup := MemberRepository_ListByGroup;
  memberRepo_ListByUser := MemberRepository_ListByUser;
  memberRepo_GetUserPermissionsForGroup := MemberRepository_GetUserPermissionsForGroup;
  memberRepo_ListUserSystemPermissions := MemberRepository_ListUserSystemPermissions }.

(** ** UserExistenceChecker ([src/adapter/user_existence_checker.go]) *)

Definition UserExistsByID (userID : string) : Go bool :=
  let* r := attempt (GetUser userID) in
  match r with
  | Ok _ => ret true
  | Fail err => if errors_Is err ErrNoRows then ret false else fail err
  end.

(** ** The view *)

Lemma wrap_db_transient p e : transient e = true → transient (wrap_db p e) = true.
Proof. intros H. unfold wrap_db, convertDBErr. rewrite (transient_not_Is e _ H). done. Qed.

Definition q_personal (u : string) (d : DB) : Result Group :=
  rbind (map_err (wrap_db "personal group") (q_GetPersonalGroupByUser u 0%Z d)) (λ g, Ok (dbGroupToEntity g)).
Definition q_memberships (u : string) (d : DB) : list GroupMember :=
  dbGroupMemberToEntity <$> order_by oldest_first (memberships_of u d).

Lemma on_err_reads {A} p (m : Go A) f : reads m f → reads (on_err (wrap_db p) m) (λ t d, map_err (wrap_db p) (f t d)).
Proof. apply reads_on_err, wrap_db_transient. Qed.
#[export] Hint Resolve on_err_reads : reads.

(** Looking up one row and converting it. *)
Lemma find_reads {A B} p (q : Instant → DB → Result A) (conv : A → B) :
  reads (let* x := on_err (wrap_db p) (query q) in ret (conv x))
        (λ t d, rbind (map_err (wrap_db p) (q t d)) (λ x, Ok (conv x))).
Proof. eapply reads_map; [apply on_err_reads, reads_query|done]. Qed.

#[export] Program Instance permissionView : PermissionView groupRepository memberRepository := {
  view_keys d u g := member_keys u g d;
  view_memberships d u := q_memberships u d;
  view_personal d u := q_personal u d }.
Next Obligation. intros u g. exact (reads_query _). Qed.
Next Obligation. intros u. exact (reads_query _). Qed.
Next Obligation. intros u. eapply reads_map; [apply reads_query|done]. Qed.
Next Obligation. intros u. exact (find_reads _ _ _). Qed.

(** What the lookups of the use cases answer. *)
Definition get_group (id : string) (d : DB) : Result Group :=
  match t_groups d !! id with
  | Some g => Ok (dbGroupToEntity g)
  | None => Fail (EWrap "group" (ESent ErrNotFound))
  end.
Definition get_role (id : string) (d : DB) : Result Role :=
  match t_roles d !! id with
  | Some r => Ok (dbRoleToEntity r (order_by String.leb (role_keys id d)))
  | None => Fail (EWrap "role" (ESent ErrNotFound))
  end.
Definition get_member (gid uid : string) (d : DB) : Result GroupMember :=
  match t_group_members d !! (gid, uid) with
  | Some m => Ok (dbGroupMemberToEntity m)
  | None => Fail (EWrap "group member" (ESent ErrNotFound))
  end.

Lemma groupRepo_Get_reads id : reads (groupRepo_Get id) (λ _ d, get_group id d).
Proof.
  eapply reads_ext; [exact (find_reads _ _ _)|]. intros t d. unfold get_group, q_GetGroup.
  by destruct (t_groups d !! id).
Qed.
Lemma roleRepo_Get_reads id : reads (roleRepo_Get id) (λ _ d, get_role id d).
Proof.
  eapply reads_bind_ext with (g := λ r _ d, Ok (dbRoleToEntity r (order_by String.leb (role_keys id d)))).
  - apply on_err_reads, reads_query.
  - intros r. eapply reads_map; [apply reads_query|done].
  - intros t d. unfold get_role, q_GetRole. by destruct (t_roles d !! id).
Qed.
Lemma memberRepo_Get_reads gid uid : reads (memberRepo_Get gid uid) (λ _ d, get_member gid uid d).
Proof.
  eapply reads_ext; [exact (find_reads _ _ _)|]. intros t d. unfold get_member, q_GetGroupMember.
  by destruct (t_group_members d !! (gid, uid)).
Qed.
Lemma memberRepo_ListByGroup_reads gid :
  reads (memberRepo_ListByGroup gid)
    (λ _ d, Ok (dbGroupMemberToEntity <$> order_by oldest_first (filter (λ m, gm_GroupID m = gid) (rows_of (t_group_members d))))).
Proof. eapply reads_map; [apply reads_query|done]. Qed.
#[export] Hint Resolve groupRepo_Get_reads roleRepo_Get_reads memberRepo_Get_reads memberRepo_ListByGroup_reads : reads.

Lemma UserExistsByID_reads uid : reads (UserExistsByID uid) (λ _ d, Ok (present uid (t_users d))).
Proof.
  intros w. unfold UserExistsByID, attempt, bind. destruct (reads_query (q_GetUser uid) w) as [Hof Hr].
  unfold GetUser. destruct (query _ w) as [r w']; simpl in *.
  destruct Hr as [->|(Hne & e & -> & Ht)].
  - unfold q_GetUser, present. destruct (t_users (w_db w) !! uid) eqn:E; simpl; split; try done; by left.
  - rewrite (transient_not_Is _ _ Ht). split; [done|right]. eauto.
Qed.
