(* ===== verification/RoleUsecase.v ===== *)
(** * Custom roles

    [src/usecase/role_usecase.go]: listing, creating, changing and deleting
    roles, with the rule that a group's role may only hold permissions its
    author holds on the group. *)

From S2P Require Import Prelude Entity Models Ports PermissionUsecase.
From stdpp Require Import base gmap strings list.

Definition canScopeBeAttachedToGroup (scope gtype : string) : bool :=
  if bool_decide (scope = RoleScope_Normal) then
    bool_decide (gtype = GroupType_Normal) || bool_decide (gtype = GroupType_Personal)
  else if bool_decide (scope = RoleScope_System) then bool_decide (gtype = GroupType_System)
  else false.

Fixpoint validatePermissionKeys (scope : string) (keys : list string) : Result unit :=
  match keys with
  | [] => Ok tt
  | k :: keys' =>
      if negb (IsValidPermissionKey k) then Fail (EWrap k (ESent ErrInvalidPermissionKey))
      else
        let isSystemKey := is_system_key k in
        if bool_decide (scope = RoleScope_Normal) && isSystemKey then
          Fail (EWrap ("normal-scope role cannot contain system: key: " +:+ k) (ESent ErrInvalidPermissionKey))
        else if bool_decide (scope = RoleScope_System) && negb isSystemKey then
          Fail (EWrap ("system-scope role can only contain system: keys: " +:+ k) (ESent ErrInvalidPermissionKey))
        else validatePermissionKeys scope keys'
  end.

(** [groupID != nil && *groupID != ""] *)
Definition group_scoped (groupID : option string) : bool :=
  match groupID with
  | Some g => negb (bool_decide (g = EmptyString))
  | None => false
  end.

Record CreateRoleParams : Type := mkCreateRoleParams {
  CRP_GroupID : option string; CRP_Name : string; CRP_Scope : string; CRP_PermissionKeys : list string }.

Record UpdateRoleParams : Type := mkUpdateRoleParams {
  URP_ID : string; URP_Name : option string;
  URP_PermissionKeys : option (list string); URP_OverwritePermKeys : bool }.

Section RoleUsecase.
Context {GR : GroupRepository} {RR : RoleRepository} {MR : GroupMemberRepository}.

Definition ListRoles (groupID : option string) : Go (list Role) :=
  match groupID with
  | None => roleRepo_ListGlobal
  | Some gid =>
      if bool_decide (gid = EmptyString) then roleRepo_ListGlobal
      else
        let* g := groupRepo_Get gid in
        let scope := if bool_decide (Group_Type g = GroupType_System) then RoleScope_System else RoleScope_Normal in
        roleRepo_ListAssignable groupID scope
  end.

(** The loop of [requireSubsetOfCaller]. *)
Fixpoint require_keys (callerID groupID what : string) (keys : list string) : Go unit :=
  match keys with
  | [] => ret tt
  | k :: keys' =>
      let* ok := HasPermission callerID groupID k in
      if negb ok then fail (EWrap (what +:+ k) (ESent ErrPermissionDenied))
      else require_keys callerID groupID what keys'
  end.

Definition requireSubsetOfCaller (ctx : Ctx) (groupID : string) (keys : list string) : Go unit :=
  let* callerID := CurrentUserID ctx in
  require_keys callerID groupID "cannot grant permission key the caller does not hold: " keys.

Definition requireRoleMutation (ctx : Ctx) (role : Role) : Go unit :=
  match Role_GroupID role with
  | None => RequireSystemPermission ctx PermKey_SystemRoleManage
  | Some g =>
      if bool_decide (g = EmptyString) then RequireSystemPermission ctx PermKey_SystemRoleManage
      else RequirePermissionForGroup ctx g PermKey_GroupMembersManage
  end.

Definition with_keys (keys : list string) (r : Role) : Role :=
  mkRole (Role_ID r) (Role_GroupID r) (Role_Name r) (Role_Scope r) (Role_IsBuiltin r) keys
    (Role_CreatedAt r) (Role_UpdatedAt r).

Definition CreateRole (ctx : Ctx) (params : CreateRoleParams) : Go Role :=
  if bool_decide (CRP_Name params = EmptyString) then fail (EMsg "role name is required")
  else if negb (bool_decide (CRP_Scope params = RoleScope_Normal)) &&
          negb (bool_decide (CRP_Scope params = RoleScope_System)) then fail (EMsg "invalid scope")
  else
    lift (validatePermissionKeys (CRP_Scope params) (CRP_PermissionKeys params)) ;;;
    let isGroupScoped := group_scoped (CRP_GroupID params) in
    let gid := default EmptyString (CRP_GroupID params) in
    (if isGroupScoped then
       let* g := groupRepo_Get gid in
       if negb (canScopeBeAttachedToGroup (CRP_Scope params) (Group_Type g))
       then fail (EMsg "scope does not match group type") else ret tt
     else ret tt) ;;;
    (if isGroupScoped then
       RequirePermissionForGroup ctx gid PermKey_GroupMembersManage ;;;
       requireSubsetOfCaller ctx gid (CRP_PermissionKeys params)
     else RequireSystemPermission ctx PermKey_SystemRoleManage) ;;;
    let* u := uniuri_New in
    let id := "role-" +:+ u in
    let* role := roleRepo_Create id (CRP_GroupID params) (CRP_Name params) (CRP_Scope params) in
    match CRP_PermissionKeys params with
    | [] => ret role
    | keys => roleRepo_ReplacePermissions (Role_ID role) keys ;;; ret (with_keys keys role)
    end.

Definition UpdateRole (ctx : Ctx) (params : UpdateRoleParams) : Go Role :=
  let* role := roleRepo_Get (URP_ID params) in
  if Role_IsBuiltin role then fail (ESent ErrCannotModifyBuiltinRole)
  else
    let newKeys := if URP_OverwritePermKeys params then default [] (URP_PermissionKeys params) else [] in
    (if URP_OverwritePermKeys params then lift (validatePermissionKeys (Role_Scope role) newKeys) else ret tt) ;;;
    requireRoleMutation ctx role ;;;
    (if URP_OverwritePermKeys params && group_scoped (Role_GroupID role) then
       requireSubsetOfCaller ctx (default EmptyString (Role_GroupID role)) newKeys
     else ret tt) ;;;
    (match URP_Name params with
     | Some name => if negb (bool_decide (name = Role_Name role))
                    then roleRepo_UpdateName (URP_ID params) name else ret tt
     | None => ret tt
     end) ;;;
    (if URP_OverwritePermKeys params then roleRepo_ReplacePermissions (URP_ID params) newKeys else ret tt) ;;;
    roleRepo_Get (URP_ID params).

Definition DeleteRole (ctx : Ctx) (id : string) : Go unit :=
  let* role := roleRepo_Get id in
  if Role_IsBuiltin role then fail (ESent ErrCannotModifyBuiltinRole)
  else
    requireRoleMutation ctx role ;;;
    roleRepo_Delete id.

Definition GetRole (id : string) : Go Role := roleRepo_Get id.
End RoleUsecase.

(** ** The pure checks *)

Lemma validatePermissionKeys_Ok scope keys :
  (scope = RoleScope_Normal ∨ scope = RoleScope_System) →
  validatePermissionKeys scope keys = Ok tt ↔
  Forall (λ k, IsValidPermissionKey k = true ∧ key_scope k = scope) keys.
Proof.
  intros Hs. induction keys as [|k keys IH]; simpl; [split; [constructor|done]|].
  rewrite Forall_cons, <-IH. unfold key_scope.
  destruct (IsValidPermissionKey k); simpl; [|split; [done|intros [[??] _]; done]].
  destruct (is_system_key k), Hs as [-> | ->]; simpl; repeat case_bool_decide; simpl; intuition; try discriminate; done.
Qed.

Lemma canScopeBeAttachedToGroup_iff scope gtype :
  canScopeBeAttachedToGroup scope gtype = true ↔
  (scope = RoleScope_Normal ∧ (gtype = GroupType_Normal ∨ gtype = GroupType_Personal)) ∨
  (scope = RoleScope_System ∧ gtype = GroupType_System).
Proof.
  unfold canScopeBeAttachedToGroup. repeat case_bool_decide; simplify_eq/=; naive_solver.
Qed.

Section RoleReads.
Context {GR : GroupRepository} {RR : RoleRepository} {MR : GroupMemberRepository} {V : PermissionView GR MR}.

(** The first key the user does not hold decides the refusal. *)
Definition missing_key (d : DB) (u g : string) (keys : list string) : option string :=
  head (filter (λ k, holds d u g k = false) keys).

Definition guard_keys (d : DB) (u g what : string) (keys : list string) : Result unit :=
  match missing_key d u g keys with
  | None => Ok tt
  | Some k => Fail (EWrap (what +:+ k) (ESent ErrPermissionDenied))
  end.

Lemma guard_keys_Ok d u g what keys :
  guard_keys d u g what keys = Ok tt ↔ Forall (λ k, holds d u g k = true) keys.
Proof.
  unfold guard_keys, missing_key. induction keys as [|k keys IH]; simpl; [done|].
  rewrite Forall_cons, filter_cons. case_decide as Hk; simpl.
  - split; [done|]. intros [Hk' _]. congruence.
  - rewrite IH. apply not_false_is_true in Hk. tauto.
Qed.

Lemma require_keys_reads u g what keys :
  reads (require_keys u g what keys) (λ _ d, guard_keys d u g what keys).
Proof.
  induction keys as [|k keys IH]; simpl; [apply reads_ret|].
  eapply reads_bind_ext with (g := λ b _ d, if b : bool then guard_keys d u g what keys
      else Fail (EWrap (what +:+ k) (ESent ErrPermissionDenied))); [apply HasPermission_reads| |].
  - intros [|]; simpl; [apply IH|apply reads_fail].
  - intros t d. unfold guard_keys, missing_key. simpl. rewrite filter_cons.
    destruct (holds d u g k); case_decide; done.
Qed.

Lemma requireSubsetOfCaller_reads ctx g keys :
  reads (requireSubsetOfCaller ctx g keys)
    (λ _ d, rbind (current_user ctx) (λ u, guard_keys d u g "cannot grant permission key the caller does not hold: " keys)).
Proof.
  eapply reads_bind_ext; [apply CurrentUserID_reads|intros u; apply require_keys_reads|done].
Qed.

Definition role_mutation_allowed (d : DB) (u : string) (gid : option string) : bool :=
  if group_scoped gid then holds d u (default EmptyString gid) PermKey_GroupMembersManage
  else has_system d u PermKey_SystemRoleManage.

Lemma requireRoleMutation_ensures ctx role w (Q : unit → World → Prop) :
  (∀ u w', current_user ctx = Ok u → role_mutation_allowed (w_db w) u (Role_GroupID role) = true →
           only_faults w w' → Q tt w') →
  ensures (requireRoleMutation ctx role) w Q.
Proof.
  intros HQ. unfold requireRoleMutation, role_mutation_allowed, group_scoped in *.
  destruct (Role_GroupID role) as [g|]; simpl in *; [case_bool_decide; simpl in *|].
  - apply RequireSystemPermission_ensures. eauto.
  - apply RequirePermissionForGroup_ensures. eauto.
  - apply RequireSystemPermission_ensures. eauto.
Qed.
End RoleReads.
#[export] Hint Resolve require_keys_reads requireSubsetOfCaller_reads : reads.
