(* ===== verification/GroupUsecase.v ===== *)
(** * Groups and memberships

    [src/usecase/group_usecase.go]. *)

From S2P Require Import Prelude Entity Models Ports PermissionUsecase RoleUsecase.
From stdpp Require Import base gmap strings list.

Definition isRoleAssignableToGroup (role : Role) (group : Group) : bool :=
  if bool_decide (Role_Scope role = RoleScope_Normal) then
    bool_decide (Group_Type group = GroupType_Normal) || bool_decide (Group_Type group = GroupType_Personal)
  else if bool_decide (Role_Scope role = RoleScope_System) then bool_decide (Group_Type group = GroupType_System)
  else false.

Definition forbidden (what : string) : Err := EWrap what (ESent ErrGroupOperationForbidden).

Section GroupUsecase.
Context {GR : GroupRepository} {RR : RoleRepository} {MR : GroupMemberRepository}.

Definition CreateGroup (ctx : Ctx) (name creatorUserID : string) : Go Group :=
  RequireSystemPermission ctx PermKey_SystemGroupManage ;;;
  if bool_decide (name = EmptyString) then fail (EMsg "group name is required")
  else
    let* id := uniuri_New in
    let* g := groupRepo_Create id name GroupType_Normal in
    on_err (EWrap "add creator as admin")
      (memberRepo_Add (Group_ID g) creatorUserID SeedRoleID_Admin (Some creatorUserID)) ;;;
    ret g.

Definition GetGroup (id : string) : Go Group := groupRepo_Get id.

Definition ListGroupsForUser (userID : string) : Go (list Group) :=
  let* canListAll := HasSystemPermission userID PermKey_SystemGroupList in
  if canListAll : bool then groupRepo_ListAll else groupRepo_ListByUser userID.

Definition UpdateGroupName (ctx : Ctx) (id name : string) : Go Group :=
  let* g := groupRepo_Get id in
  if negb (bool_decide (Group_Type g = GroupType_Normal)) then fail (forbidden "cannot rename non-normal group")
  else
    RequirePermissionForGroup ctx id PermKey_GroupEdit ;;;
    groupRepo_UpdateName id name ;;;
    groupRepo_Get id.

Definition DeleteGroup (ctx : Ctx) (id : string) : Go unit :=
  let* g := groupRepo_Get id in
  if negb (bool_decide (Group_Type g = GroupType_Normal)) then fail (forbidden "cannot delete non-normal group")
  else
    RequirePermissionForGroup ctx id PermKey_GroupEdit ;;;
    groupRepo_Delete id.

Definition ListGroupMembers (groupID : string) : Go (list GroupMember) := memberRepo_ListByGroup groupID.

Definition requirePermSubsetOfCaller (ctx : Ctx) (group : Group) (role : Role) : Go unit :=
  match Role_PermissionKeys role with
  | [] => ret tt
  | keys =>
      let* callerID := CurrentUserID ctx in
      require_keys callerID (Group_ID group) "cannot assign role granting permission caller does not hold: " keys
  end.

Definition AddGroupMember (ctx : Ctx) (groupID userID roleID : string) (addedBy : option string) : Go GroupMember :=
  RequirePermissionForGroup ctx groupID PermKey_GroupMembersManage ;;;
  let* g := groupRepo_Get groupID in
  if bool_decide (Group_Type g = GroupType_Personal) then fail (forbidden "cannot add member to personal group")
  else
    let* role := roleRepo_Get roleID in
    if negb (isRoleAssignableToGroup role g) then fail (EMsg "role scope does not match group type")
    else
      requirePermSubsetOfCaller ctx g role ;;;
      memberRepo_Add groupID userID roleID addedBy.

(** The loop that looks for a member other than [userID]. *)
Definition hasOther (userID : string) (members : list GroupMember) : bool :=
  existsb (λ m, negb (bool_decide (GroupMember_UserID m = userID))) members.

Definition RemoveGroupMember (ctx : Ctx) (groupID userID : string) : Go unit :=
  let* g := groupRepo_Get groupID in
  if bool_decide (Group_Type g = GroupType_Personal) then fail (forbidden "cannot remove member from personal group")
  else
    RequirePermissionForGroup ctx groupID PermKey_GroupMembersManage ;;;
    (if bool_decide (Group_Type g = GroupType_System) then
       let* members := memberRepo_ListByGroup groupID in
       if negb (hasOther userID members)
       then fail (forbidden "cannot remove the last member of the system group") else ret tt
     else ret tt) ;;;
    memberRepo_Remove groupID userID.

Definition UpdateGroupMemberRole (ctx : Ctx) (groupID userID roleID : string) : Go GroupMember :=
  let* g := groupRepo_Get groupID in
  (if bool_decide (Group_Type g = GroupType_Personal) then RequireSystemPermission ctx PermKey_SystemGroupManage
   else RequirePermissionForGroup ctx groupID PermKey_GroupMembersManage) ;;;
  let* role := roleRepo_Get roleID in
  if negb (isRoleAssignableToGroup role g) then fail (EMsg "role scope does not match group type")
  else
    requirePermSubsetOfCaller ctx g role ;;;
    memberRepo_Get groupID userID ;;;
    memberRepo_UpdateRole groupID userID roleID ;;;
    memberRepo_Get groupID userID.

Definition ValidatePersonalRoleAssignable (roleID : string) : Go unit :=
  let* role := roleRepo_Get roleID in
  if negb (bool_decide (Role_Scope role = RoleScope_Normal))
  then fail (EMsg "personal group role must be a normal-scope role")
  else if group_scoped (Role_GroupID role) then fail (EMsg "personal group role must be a global role")
  else ret tt.

Definition EnsurePersonalGroupForUser (userID roleID : string) : Go Group :=
  (if negb (bool_decide (roleID = EmptyString)) then ValidatePersonalRoleAssignable roleID else ret tt) ;;;
  let* found := attempt (groupRepo_GetPersonalGroupByUser userID) in
  match found with
  | Ok g => ret g
  | Fail err =>
      if negb (errors_Is err ErrNotFound) then fail err
      else
        let gid := userID +:+ "-personal" in
        let* g := on_err (EWrap "create personal group") (groupRepo_Create gid gid GroupType_Personal) in
        let roleID := if bool_decide (roleID = EmptyString) then SeedRoleID_Admin else roleID in
        on_err (EWrap "register personal member") (memberRepo_Add (Group_ID g) userID roleID None) ;;;
        ret g
  end.
End GroupUsecase.

Lemma isRoleAssignableToGroup_scope role group :
  isRoleAssignableToGroup role group = canScopeBeAttachedToGroup (Role_Scope role) (Group_Type group).
Proof. done. Qed.

Section GroupReads.
Context {GR : GroupRepository} {RR : RoleRepository} {MR : GroupMemberRepository} {V : PermissionView GR MR}.

Lemma requirePermSubsetOfCaller_ensures ctx group role w (Q : unit → World → Prop) :
  (∀ w', (Role_PermissionKeys role ≠ [] → ∃ u, current_user ctx = Ok u ∧
            Forall (λ k, holds (w_db w) u (Group_ID group) k = true) (Role_PermissionKeys role)) →
         only_faults w w' → Q tt w') →
  ensures (requirePermSubsetOfCaller ctx group role) w Q.
Proof.
  intros HQ. unfold requirePermSubsetOfCaller.
  destruct (Role_PermissionKeys role) as [|k keys] eqn:E.
  - apply ensures_ret, HQ; [done|reflexivity].
  - apply ensures_bind. eapply reads_ensures; [eauto with reads|]. intros u w1 Hu Hof1.
    eapply reads_ensures; [eauto with reads|]. intros [] w2 Hg Hof2.
    rewrite (only_faults_db _ _ Hof1) in Hg. apply guard_keys_Ok in Hg.
    apply HQ; [eauto|by etrans].
Qed.
End GroupReads.
