(* ===== verification/UserUsecase.v ===== *)
(** * Users, invitations, passwords

    [src/usecase/user_usecase.go].  The password hash (bcrypt) and the
    Resonite cloud client are third-party code and parameters of the model:
    [Bcrypt] and [Skyfrost] hold what the program relies on. *)

From S2P Require Import Prelude Entity Models Queries Ports PermissionUsecase Repositories GroupUsecase.
From S2P Require Import Digest.
From stdpp Require Import base gmap strings list.
From Stdlib Require Import ZArith Lia.

(** [golang.org/x/crypto/bcrypt] behind [auth.HashPassword] and
    [auth.ComparePasswordAndHash]: hashing draws a salt and touches no table;
    a hash matches the password it was made from. *)
Class Bcrypt : Type := {
  HashPassword : string → Go string;
  ComparePasswordAndHash : string → string → Result unit;
  HashPassword_db p w : w_db (HashPassword p w).2 = w_db w ∧ w_faults (HashPassword p w).2 = w_faults w
                        ∧ w_now (HashPassword p w).2 = w_now w;
  HashPassword_matches p w h w' : HashPassword p w = (Ok h, w') → ComparePasswordAndHash p h = Ok tt }.

Record UserInfo : Type := mkUserInfo { UI_ID : string; UI_UserName : string; UI_IconUrl : string }.

(** [skyfrost.Client]: a call to the Resonite cloud, which knows nothing of the store. *)
Class Skyfrost : Type := {
  FetchUserInfo : string → Go UserInfo;
  FetchUserInfo_db r w : w_db (FetchUserInfo r w).2 = w_db w ∧ w_faults (FetchUserInfo r w).2 = w_faults w
                         ∧ w_now (FetchUserInfo r w).2 = w_now w }.

Definition registrationTokenLength : nat := 32.
Definition registrationTokenTTL : Z := (24 * time_Hour)%Z.
Definition minPasswordLength : nat := 8.

(** [rand.Read] fills a buffer of [length] bytes *)
Definition generateSecureToken (length : nat) : Go string :=
  let* bytes := rand_Read in ret (base64_URLEncode (take length bytes)).

Definition hashRegistrationToken (token : string) : string :=
  hex_EncodeToString (sha256_Sum256 (bytes_of token)).

Record RegistrationTokenWithInfo : Type := mkRegistrationTokenWithInfo {
  RTI_Token : string; RTI_ExpiresAt : Instant; RTI_ResoniteUserName : string; RTI_IconUrl : string }.

Section UserUsecase.
Context {BC : Bcrypt} {SF : Skyfrost}.
Context {GR : GroupRepository} {RR : RoleRepository} {MR : GroupMemberRepository}.
(** [u.guc != nil] *)
Variable guc : bool.

Definition validatePersonalRole (personalRoleID : string) : Go unit :=
  if negb guc then fail (EMsg "cannot validate personal role: group usecase is not configured")
  else ValidatePersonalRoleAssignable personalRoleID.

(** [if userInfo, err := FetchUserInfo(...); err == nil && userInfo.IconUrl != "" {...}] *)
Definition fetchIconUrl (resoniteId : string) : Go (option string) :=
  let* r := attempt (FetchUserInfo resoniteId) in
  match r with
  | Ok userInfo => ret (if negb (bool_decide (UI_IconUrl userInfo = EmptyString)) then Some (UI_IconUrl userInfo) else None)
  | Fail _ => ret None
  end.

Definition CreateUser (ctx : Ctx) (id password resoniteId personalRoleID : string) : Go unit :=
  RequireSystemPermission ctx PermKey_SystemUserCreate ;;;
  if bool_decide (id = SystemUserID) then fail (EMsg "user id 'system' is reserved")
  else
    (if negb (bool_decide (personalRoleID = EmptyString)) then validatePersonalRole personalRoleID else ret tt) ;;;
    let* passwordHash := HashPassword password in
    let* iconUrl := fetchIconUrl resoniteId in
    Queries.CreateUser id passwordHash (Some resoniteId) iconUrl ;;;
    if guc then
      on_err (EWrap "ensure personal group") (EnsurePersonalGroupForUser id personalRoleID) ;;; ret tt
    else ret tt.

Definition GetUserWithPassword (id password : string) : Go UserRow :=
  if bool_decide (id = SystemUserID) then fail (EMsg "invalid credentials")
  else
    let* user := Queries.GetUser id in
    lift (ComparePasswordAndHash password (us_Password user)) ;;;
    ret user.

Definition DeleteUser (ctx : Ctx) (id : string) : Go unit :=
  RequireSystemPermission ctx PermKey_SystemUserDelete ;;;
  if bool_decide (id = SystemUserID) then fail (EMsg "system user cannot be deleted")
  else
    let* r := attempt (Queries.GetUser id) in
    match r with
    | Fail err => if errors_Is err ErrNoRows then fail (ESent ErrNotFound) else fail err
    | Ok _ => Queries.DeleteUser id
    end.

Definition createRegistrationToken (resoniteId personalRoleID : string) : Go (string * Instant) :=
  (if negb (bool_decide (personalRoleID = EmptyString)) then validatePersonalRole personalRoleID else ret tt) ;;;
  let* token := generateSecureToken registrationTokenLength in
  let* now := gets w_now in
  let expiresAt := (now + registrationTokenTTL)%Z in
  let personalRole := if negb (bool_decide (personalRoleID = EmptyString)) then Some personalRoleID else None in
  Queries.CreateRegistrationToken (hashRegistrationToken token) resoniteId expiresAt personalRole ;;;
  ret (token, expiresAt).

Definition CreateRegistrationToken (ctx : Ctx) (resoniteId personalRoleID : string) : Go string :=
  RequireSystemPermission ctx PermKey_SystemUserCreate ;;;
  let* r := createRegistrationToken resoniteId personalRoleID in ret (fst r).

Definition CreateRegistrationTokenWithInfo (ctx : Ctx) (resoniteId personalRoleID : string) : Go RegistrationTokenWithInfo :=
  RequireSystemPermission ctx PermKey_SystemUserCreate ;;;
  let* userInfo := on_err (EWrap "invalid resonite id") (FetchUserInfo resoniteId) in
  let* r := createRegistrationToken resoniteId personalRoleID in
  ret (mkRegistrationTokenWithInfo (fst r) (snd r) (UI_UserName userInfo) (UI_IconUrl userInfo)).

Definition ListUsers : Go (list UserRow) := Queries.ListUsers.

Definition GetUser (id : string) : Go UserRow := on_err convertDBErr (Queries.GetUser id).

Definition ValidateRegistrationToken (token : string) : Go UserInfo :=
  let* regToken := GetValidRegistrationToken (hashRegistrationToken token) in
  let* r := attempt (FetchUserInfo (rt_ResoniteID regToken)) in
  match r with
  | Ok userInfo => ret userInfo
  | Fail _ => ret (mkUserInfo (rt_ResoniteID regToken) EmptyString EmptyString)
  end.

(** the body of the transaction *)
Definition registerTx (tokenHash userId passwordHash : string) (iconUrl : option string) (regToken : RegistrationTokenRow)
  : Go UserRow :=
  Queries.CreateUser userId passwordHash (Some (rt_ResoniteID regToken)) iconUrl ;;;
  let personalGroupID := userId +:+ "-personal" in
  on_err (EWrap "create personal group")
    (Queries.CreateGroup personalGroupID personalGroupID GroupType_Personal) ;;;
  let roleID := match rt_PersonalRoleID regToken with
                | Some r => if negb (bool_decide (r = EmptyString)) then r else SeedRoleID_Admin
                | None => SeedRoleID_Admin
                end in
  on_err (EWrap "register personal member")
    (Queries.AddGroupMember personalGroupID userId roleID None) ;;;
  let* rows := MarkRegistrationTokenUsed tokenHash in
  if negb (Z.eqb rows 1) then fail (EMsg "registration token is already used")
  else Queries.GetUser userId.

Definition RegisterWithToken (token userId password : string) : Go UserRow :=
  let tokenHash := hashRegistrationToken token in
  let* regToken := GetValidRegistrationToken tokenHash in
  let* passwordHash := HashPassword password in
  let* iconUrl := fetchIconUrl (rt_ResoniteID regToken) in
  RunInTx (registerTx tokenHash userId passwordHash iconUrl regToken).

Definition ChangePassword (userID currentPassword newPassword : string) : Go unit :=
  let* user := Queries.GetUser userID in
  match ComparePasswordAndHash currentPassword (us_Password user) with
  | Fail _ => fail (EMsg "the current password is not correct")
  | Ok _ =>
      if (String.length newPassword <? minPasswordLength)%nat then fail (EMsg "the password must have at least 8 characters")
      else
        let* passwordHash := HashPassword newPassword in
        UpdateUserPassword userID passwordHash
  end.
End UserUsecase.

(** ** Shape of the stored tokens *)

Lemma char_nat n : (0 <= n < 256)%Z → Ascii.nat_of_ascii (char n) = Z.to_nat n.
Proof. intros H. apply Ascii.nat_ascii_embedding. lia. Qed.

Lemma hex_digit_ok n : (0 <= n < 16)%Z → is_hex_digit (hex_digit n) = true.
Proof.
  intros H. unfold is_hex_digit, hex_digit. cbv zeta.
  rewrite orb_true_iff, !andb_true_iff, !Nat.leb_le.
  destruct (Z.ltb_spec n 10); rewrite char_nat by lia; lia.
Qed.

Lemma hex_EncodeToString_spec bs :
  Forall is_byte bs →
  String.length (hex_EncodeToString bs) = (2 * length bs)%nat ∧ all_hex (hex_EncodeToString bs) = true.
Proof.
  induction 1 as [|b bs Hb _ [IHl IHh]]; [done|]. unfold is_byte in Hb. simpl. split; [lia|].
  rewrite !hex_digit_ok, IHh; [done| |].
  - apply Z.mod_pos_bound. lia.
  - split; [apply Z.div_pos; lia|apply Z.div_lt_upper_bound; lia].
Qed.

Lemma hashRegistrationToken_is_hash token : token_is_hash (hashRegistrationToken token) = true.
Proof.
  destruct (sha256_Sum256_spec (bytes_of token)) as [Hl Hf].
  destruct (hex_EncodeToString_spec _ Hf) as [Hl' Hh].
  unfold token_is_hash, hashRegistrationToken. by rewrite Hl', Hl, Hh.
Qed.
