(* ===== verification/StoreInvariant.v ===== *)
(** * Well-formedness of the permission tables

    [store_ok] is what the schema, the seed data and the checks of the use
    cases together keep true of the tables; this file proves that every
    statement preserves it, under the side conditions the use cases check
    before they issue the statement. *)

From S2P Require Import Prelude Entity Models Queries RoleUsecase.
From stdpp Require Import base gmap strings list sorting.
From Stdlib Require Import ZArith.

(** ** Lemmas on tables *)

Lemma elem_of_rows_of {K A} `{Countable K} (t : gmap K A) x : x ∈ rows_of t ↔ ∃ k, t !! k = Some x.
Proof.
  unfold rows_of. rewrite list_elem_of_fmap. split.
  - intros [[k y] [-> Hy]]. apply elem_of_map_to_list in Hy. eauto.
  - intros [k Hk]. exists (k, x). split; [done|]. by apply elem_of_map_to_list.
Qed.

Lemma elem_of_order_by {A} (le : A → A → bool) l x : x ∈ order_by le l ↔ x ∈ l.
Proof. unfold order_by. by rewrite merge_sort_Permutation. Qed.

Lemma present_Some {K A} `{Countable K} (k : K) (t : gmap K A) : present k t = true ↔ is_Some (t !! k).
Proof. apply bool_decide_eq_true. Qed.
Lemma present_None {K A} `{Countable K} (k : K) (t : gmap K A) : present k t = false ↔ t !! k = None.
Proof. unfold present. rewrite bool_decide_eq_false, <-eq_None_not_Some. done. Qed.

Lemma check_inv {A} b n (r : Result A) x : (check b n >>> r) = Ok x ↔ b = true ∧ r = Ok x.
Proof. unfold check, rthen. destruct b; simpl; naive_solver. Qed.

Lemma elem_of_role_keys rid k d : k ∈ role_keys rid d ↔ (rid, k) ∈ t_role_permissions d.
Proof.
  unfold role_keys. rewrite list_elem_of_fmap. setoid_rewrite elem_of_elements. setoid_rewrite elem_of_filter. split.
  - intros [[r k'] [-> [<- ?]]]. done.
  - intros ?. by exists (rid, k).
Qed.

(** Splits the checks of a statement and rewrites table presence. *)
Ltac stmt H :=
  repeat (apply check_inv in H as [? H]);
  rewrite ?negb_true_iff, ?present_Some, ?present_None, ?bool_decide_eq_true, ?bool_decide_eq_false in *.

(** ** Seed data ([20260628110000_create_permission_system.up.sql]) *)

Record Seed : Type := mkSeed { seed_id : string; seed_name : string; seed_scope : string; seed_keys : list string }.

Definition resource_keys : list string :=
  [PermKey_HostRead; PermKey_HostWrite; PermKey_HostUse; PermKey_SessionRead; PermKey_SessionWrite;
   PermKey_AccountRead; PermKey_AccountWrite; PermKey_AccountUse].
Definition system_keys : list string :=
  [PermKey_SystemUserCreate; PermKey_SystemUserDelete; PermKey_SystemUserList; PermKey_SystemGroupList;
   PermKey_SystemGroupManage; PermKey_SystemRoleManage].

Definition seeds : list Seed := [
  mkSeed SeedRoleID_Admin "admin" RoleScope_Normal (resource_keys ++ [PermKey_GroupMembersManage; PermKey_GroupEdit]);
  mkSeed SeedRoleID_User "user" RoleScope_Normal resource_keys;
  mkSeed SeedRoleID_SessionOperator "session-operator" RoleScope_Normal
    [PermKey_HostRead; PermKey_HostUse; PermKey_SessionRead; PermKey_SessionWrite; PermKey_AccountRead; PermKey_AccountUse];
  mkSeed SeedRoleID_SystemAdmin "system-admin" RoleScope_System system_keys ].

Definition seed_ok (d : DB) (s : Seed) : Prop :=
  (∃ r, t_roles d !! seed_id s = Some r ∧ ro_GroupID r = None ∧ ro_Name r = seed_name s ∧
        ro_Scope r = seed_scope s ∧ ro_IsBuiltin r = true) ∧
  (∀ k, (seed_id s, k) ∈ t_role_permissions d ↔ k ∈ seed_keys s).

(** ** The invariant *)

Record store_ok (d : DB) : Prop := mk_store_ok {
  ok_group_id k g : t_groups d !! k = Some g → gr_ID g = k;
  ok_group_type k g : t_groups d !! k = Some g → group_type_ok (gr_Type g) = true;
  ok_system_group : ∃ g, t_groups d !! SystemGroupID = Some g ∧ gr_Type g = GroupType_System;
  ok_system_unique k g : t_groups d !! k = Some g → gr_Type g = GroupType_System → k = SystemGroupID;
  ok_system_user : is_Some (t_users d !! SystemUserID);
  ok_role_id k r : t_roles d !! k = Some r → ro_ID r = k;
  ok_role_scope k r : t_roles d !! k = Some r → role_scope_ok (ro_Scope r) = true;
  ok_role_group k r gid : t_roles d !! k = Some r → ro_GroupID r = Some gid → is_Some (t_groups d !! gid);
  ok_perm r k : (r, k) ∈ t_role_permissions d →
    ∃ ro, t_roles d !! r = Some ro ∧ ro_Scope ro = key_scope k ∧ IsValidPermissionKey k = true;
  ok_member_key g u m : t_group_members d !! (g, u) = Some m → gm_GroupID m = g ∧ gm_UserID m = u;
  ok_member_user g u m : t_group_members d !! (g, u) = Some m → is_Some (t_users d !! u);
  ok_member g u m : t_group_members d !! (g, u) = Some m →
    ∃ gr ro, t_groups d !! g = Some gr ∧ t_roles d !! gm_RoleID m = Some ro ∧
             canScopeBeAttachedToGroup (ro_Scope ro) (gr_Type gr) = true ∧
             (gr_Type gr = GroupType_Personal → g = u +:+ "-personal");
  ok_token_role k t rid : t_registration_tokens d !! k = Some t → rt_PersonalRoleID t = Some rid →
    ∃ ro, t_roles d !! rid = Some ro ∧ ro_Scope ro = RoleScope_Normal ∧ group_scoped (ro_GroupID ro) = false;
  ok_seeds s : s ∈ seeds → seed_ok d s }.

(** Statements that leave the permission tables alone. *)
Definition same_permission_tables (d d' : DB) : Prop :=
  t_users d' = t_users d ∧ t_groups d' = t_groups d ∧ t_roles d' = t_roles d ∧
  t_role_permissions d' = t_role_permissions d ∧ t_group_members d' = t_group_members d ∧
  t_registration_tokens d' = t_registration_tokens d.

Lemma store_ok_same d d' : same_permission_tables d d' → store_ok d → store_ok d'.
Proof.
  intros (E1 & E2 & E3 & E4 & E5 & E6) [].
  constructor; unfold seed_ok in *; rewrite ?E1, ?E2, ?E3, ?E4, ?E5, ?E6; eauto.
Qed.

(** ** Statements preserve the invariant *)

Section Statements.
Implicit Types (d : DB) (now : Instant).

Lemma store_ok_users d f :
  (∀ u, is_Some (t_users d !! u) → is_Some (f (t_users d) !! u)) →
  store_ok d → store_ok (set_users f d).
Proof. intros Hf []. constructor; simpl; eauto. Qed.

Lemma CreateUser_ok d now id pw r i x : x_CreateUser id pw r i now d = Ok x → store_ok d → store_ok x.2.
Proof.
  intros H. unfold x_CreateUser in H. stmt H. simplify_eq. apply store_ok_users. intros u [us Hu].
  destruct (decide (id = u)) as [->|]; [by rewrite lookup_insert_eq|by rewrite lookup_insert_ne].
Qed.

Lemma UpdateUserPassword_ok d now id pw x : x_UpdateUserPassword id pw now d = Ok x → store_ok d → store_ok x.2.
Proof.
  intros [= <-]. apply store_ok_users. intros u [us Hu]. rewrite lookup_alter. case_decide; subst; rewrite ?Hu; eauto.
Qed.

(** Rewriting a group row without its key and type. *)
Lemma store_ok_groups d f :
  (∀ k g', f (t_groups d) !! k = Some g' → ∃ g, t_groups d !! k = Some g ∧ gr_ID g' = gr_ID g ∧ gr_Type g' = gr_Type g) →
  (∀ k g, t_groups d !! k = Some g → ∃ g', f (t_groups d) !! k = Some g' ∧ gr_ID g' = gr_ID g ∧ gr_Type g' = gr_Type g) →
  store_ok d → store_ok (set_groups f d).
Proof.
  intros Hb Hf []. constructor; simpl; eauto.
  - intros k g' Hg. destruct (Hb _ _ Hg) as (g & ? & -> & _). eauto.
  - intros k g' Hg. destruct (Hb _ _ Hg) as (g & ? & _ & ->). eauto.
  - destruct ok_system_group0 as (g & Hg & Ht). destruct (Hf _ _ Hg) as (g' & ? & _ & E). exists g'. by rewrite E.
  - intros k g' Hg Ht. destruct (Hb _ _ Hg) as (g & ? & _ & E). rewrite E in Ht. eauto.
  - intros k r gid Hr Hg. destruct (ok_role_group0 _ _ _ Hr Hg) as [g Hg']. destruct (Hf _ _ Hg') as (g' & ? & _). eauto.
  - intros g u m Hm. destruct (ok_member0 _ _ _ Hm) as (gr & ro & Hg & Hr & Hc & Hp).
    destruct (Hf _ _ Hg) as (g' & ? & _ & E). exists g', ro. by rewrite E.
Qed.

Lemma UpdateGroupName_ok d now id name x : x_UpdateGroupName id name now d = Ok x → store_ok d → store_ok x.2.
Proof.
  intros [= <-]. apply store_ok_groups; intros k g; rewrite lookup_alter.
  - case_decide as E; [|eauto]. subst. destruct (t_groups d !! k) as [g0|]; simpl; [|done]. intros [= <-]. eauto.
  - intros Hk. case_decide as E; [subst; rewrite Hk; simpl|]; eauto.
Qed.

Lemma CreateGroup_ok d now id name ty x : x_CreateGroup id name ty now d = Ok x → store_ok d → store_ok x.2.
Proof.
  intros H []. unfold x_CreateGroup in H. stmt H. simplify_eq.
  assert (ty ≠ GroupType_System) as Hty.
  { intros ->. destruct ok_system_group0 as (g & Hg & Ht). unfold no_group_of_type in *.
    rewrite bool_decide_eq_true_2, orb_false_l, bool_decide_eq_true in * by done.
    match goal with HF : Forall _ _ |- _ => rewrite Forall_forall in HF; apply (HF g); [apply elem_of_rows_of; eauto|done] end. }
  assert (∀ k g, t_groups d !! k = Some g → <[id:=mkGroupRow id name ty (Some now) (Some now)]> (t_groups d) !! k = Some g) as Hold.
  { intros k g Hk. rewrite lookup_insert_ne; [done|congruence]. }
  constructor; simpl; eauto.
  - intros k g [[<- <-]|[? ?]]%lookup_insert_Some; eauto.
  - intros k g [[<- <-]|[? ?]]%lookup_insert_Some; eauto.
  - destruct ok_system_group0 as (g & Hg & Ht). eauto.
  - intros k g [[<- <-]|[? ?]]%lookup_insert_Some Ht; [done|eauto].
  - intros k r gid Hr Hg. destruct (ok_role_group0 _ _ _ Hr Hg) as [g Hg']. eauto.
  - intros g u m Hm. destruct (ok_member0 _ _ _ Hm) as (gr & ro & Hg & Hr & Hc & Hp). eauto 10.
Qed.

(** Replacing the membership table. *)
Lemma store_ok_members d f :
  (∀ g u m', f (t_group_members d) !! (g, u) = Some m' →
     gm_GroupID m' = g ∧ gm_UserID m' = u ∧ is_Some (t_users d !! u) ∧
     ∃ gr ro, t_groups d !! g = Some gr ∧ t_roles d !! gm_RoleID m' = Some ro ∧
              canScopeBeAttachedToGroup (ro_Scope ro) (gr_Type gr) = true ∧
              (gr_Type gr = GroupType_Personal → g = u +:+ "-personal")) →
  store_ok d → store_ok (set_group_members f d).
Proof. intros Hf []. constructor; simpl; eauto; intros g u m Hm; destruct (Hf _ _ _ Hm) as (?&?&?&?); eauto. Qed.

(** What [store_ok] says of a row that is already there. *)
Lemma member_row_ok d g u m :
  store_ok d → t_group_members d !! (g, u) = Some m →
  gm_GroupID m = g ∧ gm_UserID m = u ∧ is_Some (t_users d !! u) ∧
  ∃ gr ro, t_groups d !! g = Some gr ∧ t_roles d !! gm_RoleID m = Some ro ∧
           canScopeBeAttachedToGroup (ro_Scope ro) (gr_Type gr) = true ∧
           (gr_Type gr = GroupType_Personal → g = u +:+ "-personal").
Proof. intros [] Hm. destruct (ok_member_key0 _ _ _ Hm). eauto 10. Qed.

(** A role that may be given to the members of a group. *)
Definition assignable d (gid rid : string) : Prop :=
  ∀ g r, t_groups d !! gid = Some g → t_roles d !! rid = Some r →
         canScopeBeAttachedToGroup (ro_Scope r) (gr_Type g) = true.

Lemma AddGroupMember_ok d now gid uid rid by_ x :
  x_AddGroupMember gid uid rid by_ now d = Ok x →
  assignable d gid rid →
  (∀ g, t_groups d !! gid = Some g → gr_Type g = GroupType_Personal → gid = uid +:+ "-personal") →
  store_ok d → store_ok x.2.
Proof.
  intros H Ha Hp Hok. unfold x_AddGroupMember in H. stmt H. simplify_eq.
  repeat match goal with Hs : is_Some (_ !! _) |- _ => destruct Hs end.
  apply store_ok_members; [|done]. intros g u m [[[= <- <-] <-]|[? ?]]%lookup_insert_Some;
    [simpl; eauto 12|by apply member_row_ok].
Qed.

Lemma RemoveGroupMember_ok d now gid uid x : x_RemoveGroupMember gid uid now d = Ok x → store_ok d → store_ok x.2.
Proof.
  intros [= <-] Hok. apply store_ok_members; [|done].
  intros g u m [_ ?]%lookup_delete_Some. by apply member_row_ok.
Qed.

Lemma UpdateGroupMemberRole_ok d now gid uid rid x :
  x_UpdateGroupMemberRole gid uid rid now d = Ok x → assignable d gid rid → store_ok d → store_ok x.2.
Proof.
  intros H Ha Hok. unfold x_UpdateGroupMemberRole in H. destruct (present _ _) eqn:Ep; [|by simplify_eq].
  stmt H. simplify_eq. apply store_ok_members; [|done]. intros g u m Hm. rewrite lookup_alter in Hm.
  case_decide as E; [|by apply member_row_ok]. simplify_eq.
  destruct (t_group_members d !! (g, u)) as [m0|] eqn:Em; [|done]. simplify_eq/=.
  destruct (member_row_ok _ _ _ _ Hok Em) as (-> & -> & Hu & gr & ro & Hg & Hr & Hc & Hp).
  match goal with Hs : is_Some (t_roles _ !! _) |- _ => destruct Hs as [ro' Hro'] end. eauto 12.
Qed.

Lemma DeleteUser_ok d now id x :
  x_DeleteUser id now d = Ok x → id ≠ SystemUserID → store_ok d → store_ok x.2.
Proof.
  intros [= <-] Hid Hok.
  assert (∀ g u m, ((λ m, mkGroupMemberRow (gm_GroupID m) (gm_UserID m) (gm_RoleID m) (unless id (gm_AddedBy m)) (gm_JoinedAt m))
               <$> filter (λ km, gm_UserID (snd km) ≠ id) (t_group_members d)) !! (g, u) = Some m →
            u ≠ id ∧ ∃ m0, t_group_members d !! (g, u) = Some m0 ∧ gm_GroupID m = g ∧ gm_UserID m = u ∧ gm_RoleID m = gm_RoleID m0) as Hold.
  { intros g u m (m0 & <- & [Hm0 Hne]%map_lookup_filter_Some)%lookup_fmap_Some.
    destruct (member_row_ok _ _ _ _ Hok Hm0) as (? & ? & _). simpl in *. subst. eauto 10. }
  pose proof Hok as [].
  constructor; simpl; eauto.
  - destruct ok_system_user0 as [u Hu]. exists u. by rewrite lookup_delete_ne.
  - intros g u m (_ & m0 & _ & ? & ? & _)%Hold. done.
  - intros g u m (Hne & m0 & Hm0 & _)%Hold. rewrite lookup_delete_ne by done. eauto.
  - intros g u m (_ & m0 & Hm0 & _ & _ & ->)%Hold. by apply ok_member0.
Qed.

(** Adding a role, or renaming one that is not a seed. *)
Lemma store_ok_put_role d r' :
  match t_roles d !! ro_ID r' with
  | None => ro_IsBuiltin r' = false
  | Some r => ro_GroupID r' = ro_GroupID r ∧ ro_Scope r' = ro_Scope r ∧ ro_IsBuiltin r' = ro_IsBuiltin r ∧
              (ro_IsBuiltin r = true → ro_Name r' = ro_Name r)
  end →
  role_scope_ok (ro_Scope r') = true →
  opt_present (ro_GroupID r') (t_groups d) = true →
  store_ok d → store_ok (set_roles (<[ro_ID r' := r']>) d).
Proof.
  intros Hput Hsc Hg Hok.
  assert (∀ k r, t_roles d !! k = Some r → ∃ r1, <[ro_ID r' := r']> (t_roles d) !! k = Some r1 ∧
            ro_GroupID r1 = ro_GroupID r ∧ ro_Scope r1 = ro_Scope r ∧ ro_IsBuiltin r1 = ro_IsBuiltin r ∧
            (ro_IsBuiltin r = true → ro_Name r1 = ro_Name r)) as Hfwd.
  { intros k r Hk. destruct (decide (ro_ID r' = k)) as [<-|Hne].
    - exists r'. rewrite lookup_insert_eq. rewrite Hk in Hput. naive_solver.
    - exists r. by rewrite lookup_insert_ne. }
  pose proof Hok as []. constructor; simpl; eauto.
  - intros k r [[<- <-]|[? ?]]%lookup_insert_Some; eauto.
  - intros k r [[<- <-]|[? ?]]%lookup_insert_Some; eauto.
  - intros k r gid [[<- <-]|[? ?]]%lookup_insert_Some Hgid; [|eauto].
    rewrite Hgid in Hg. simpl in Hg. by apply present_Some.
  - intros r k Hp. destruct (ok_perm0 _ _ Hp) as (ro & Hr & Hs & Hv).
    destruct (Hfwd _ _ Hr) as (r1 & ? & _ & E & _). exists r1. by rewrite E.
  - intros g u m Hm. destruct (ok_member0 _ _ _ Hm) as (gr & ro & ? & Hr & Hc & ?).
    destruct (Hfwd _ _ Hr) as (r1 & ? & _ & E & _). exists gr, r1. by rewrite E.
  - intros k t rid Ht Hrid. destruct (ok_token_role0 _ _ _ Ht Hrid) as (ro & Hr & Hs & Hgs).
    destruct (Hfwd _ _ Hr) as (r1 & ? & E1 & E2 & _). exists r1. by rewrite E1, E2.
  - intros s Hs. destruct (ok_seeds0 s Hs) as [(r & Hr & Hg0 & Hn & Hs0 & Hb) Hk]. split; [|exact Hk].
    destruct (Hfwd _ _ Hr) as (r1 & Hr1 & E1 & E2 & E3 & E4). exists r1. rewrite E1, E2, E3, E4; auto.
Qed.

Lemma CreateRole_ok d now id gid name scope x :
  x_CreateRole id gid name scope now d = Ok x → store_ok d → store_ok x.2.
Proof.
  intros H. unfold x_CreateRole in H. stmt H. simplify_eq.
  apply (store_ok_put_role d (mkRoleRow id gid name scope false (Some now) (Some now))); try done.
  simpl. by match goal with E : t_roles d !! id = None |- _ => rewrite E end.
Qed.

Lemma UpdateRoleName_ok d now id name x : x_UpdateRoleName id name now d = Ok x → store_ok d → store_ok x.2.
Proof.
  intros H Hok. unfold x_UpdateRoleName in H. destruct (t_roles d !! id) as [r|] eqn:Er; [|by simplify_eq].
  repeat (apply check_inv in H as [? H]). simplify_eq.
  pose proof (ok_role_id d Hok _ _ Er) as Hid.
  rewrite <-Hid at 1. apply (store_ok_put_role d (mkRoleRow (ro_ID r) (ro_GroupID r) name (ro_Scope r) (ro_IsBuiltin r) (ro_CreatedAt r) (Some now))).
  - simpl. rewrite Hid, Er. repeat split. simpl. intros Hb. rewrite Hb in *. simpl in *.
    symmetry. by eapply bool_decide_eq_true_1.
  - simpl. by eapply ok_role_scope.
  - simpl. destruct (ro_GroupID r) as [g|] eqn:Eg; [|done]. simpl. apply present_Some. by eapply ok_role_group.
  - done.
Qed.

(** Deleting roles that are neither seeds nor in use. *)
Lemma store_ok_delete_roles d (gone : string → bool) :
  (∀ s, s ∈ seeds → gone (seed_id s) = false) →
  (∀ g u m, t_group_members d !! (g, u) = Some m → gone (gm_RoleID m) = false) →
  store_ok d → store_ok (delete_roles gone d).
Proof.
  intros Hseed Hmem Hok. pose proof Hok as [].
  assert (∀ k r, filter (λ kr : string * RoleRow, gone (fst kr) = false) (t_roles d) !! k = Some r ↔
                 t_roles d !! k = Some r ∧ gone k = false) as Hr.
  { intros k r. by rewrite map_lookup_filter_Some. }
  constructor; simpl; eauto.
  - intros k r [? _]%Hr. eauto.
  - intros k r [? _]%Hr. eauto.
  - intros k r gid [? _]%Hr. eauto.
  - intros r k [Hg Hp]%elem_of_filter. destruct (ok_perm0 _ _ Hp) as (ro & ? & ? & ?).
    exists ro. split; [|done]. by apply Hr.
  - intros g u m Hm. destruct (ok_member0 _ _ _ Hm) as (gr & ro & ? & ? & ?). exists gr, ro.
    split; [done|]. split; [|done]. apply Hr. eauto.
  - intros k t rid Ht Hrid. apply lookup_fmap_Some in Ht as (t0 & <- & Ht0). unfold drop_role_refs in Hrid.
    destruct (rt_PersonalRoleID t0) as [r0|] eqn:E0; [|congruence].
    destruct (gone r0) eqn:Eg; [done|]. rewrite E0 in Hrid. simplify_eq.
    destruct (ok_token_role0 _ _ _ Ht0 E0) as (ro & ? & ?). exists ro. split; [|done]. by apply Hr.
  - intros s Hs. destruct (ok_seeds0 s Hs) as [(r & Hrr & Hrest) Hk]. split; simpl.
    + exists r. split; [|done]. apply Hr. auto.
    + intros k. rewrite elem_of_filter, <-Hk. simpl. split; [tauto|]. intros ?. split; [|done]. by apply Hseed.
Qed.

Lemma DeleteRole_ok d now id x : x_DeleteRole id now d = Ok x → store_ok d → store_ok x.2.
Proof.
  intros H Hok. unfold x_DeleteRole in H. destruct (present _ _) eqn:Ep; [|by simplify_eq].
  apply check_inv in H as [Hb H]. apply check_inv in H as [Hm H]. simplify_eq/=.
  apply store_ok_delete_roles; [| |done].
  - intros s Hs. apply bool_decide_eq_false. intros <-. destruct (ok_seeds d Hok s Hs) as [(r & Hr & _ & _ & _ & Hbi) _].
    unfold is_builtin in Hb. by rewrite Hr, Hbi in Hb.
  - intros g u m Hgm. apply bool_decide_eq_false. apply bool_decide_eq_true in Hm.
    rewrite Forall_forall in Hm. apply Hm. apply elem_of_rows_of. eauto.
Qed.

(** Deleting a group that nothing references any more. *)
Lemma store_ok_delete_group d id :
  id ≠ SystemGroupID →
  (∀ k r, t_roles d !! k = Some r → ro_GroupID r ≠ Some id) →
  (∀ g u m, t_group_members d !! (g, u) = Some m → g ≠ id) →
  store_ok d → store_ok (set_groups (delete id) d).
Proof.
  intros Hid Hrole Hmem Hok. pose proof Hok as []. constructor; simpl; eauto.
  - intros k g [_ ?]%lookup_delete_Some. eauto.
  - intros k g [_ ?]%lookup_delete_Some. eauto.
  - destruct ok_system_group0 as (g & ? & ?). exists g. by rewrite lookup_delete_ne.
  - intros k g [_ ?]%lookup_delete_Some. eauto.
  - intros k r gid Hr Hg. rewrite lookup_delete_ne; [eauto|]. intros ->. by eapply Hrole.
  - intros g u m Hm. destruct (ok_member0 _ _ _ Hm) as (gr & ro & ? & ?). exists gr, ro.
    rewrite lookup_delete_ne; [eauto|]. intros ->. by eapply Hmem.
Qed.

Lemma DeleteGroup_ok d now id x :
  x_DeleteGroup id now d = Ok x → id ≠ SystemGroupID → store_ok d → store_ok x.2.
Proof.
  intros H Hid Hok. unfold x_DeleteGroup in H. destruct (present _ _); [|by simplify_eq].
  cbv zeta in H. apply check_inv in H as [Hfk H]. do 3 apply check_inv in H as [_ H]. simplify_eq/=.
  apply bool_decide_eq_true in Hfk. rewrite Forall_forall in Hfk.
  set (gone := role_of_group id d) in *.
  set (dm := set_group_members (filter (λ km, gm_GroupID (snd km) ≠ id)) d).
  assert (∀ g u m, t_group_members dm !! (g, u) = Some m → g ≠ id ∧ t_group_members d !! (g, u) = Some m) as Hdm.
  { intros g u m [Hm Hne]%map_lookup_filter_Some. simpl in Hne.
    destruct (ok_member_key d Hok _ _ _ Hm) as [<- _]. done. }
  assert (store_ok (delete_roles gone dm)) as Hok'.
  { apply store_ok_delete_roles.
    - intros s Hs. unfold gone, role_of_group. destruct (ok_seeds d Hok s Hs) as [(r & -> & Hg & _) _].
      rewrite Hg. by apply bool_decide_eq_false.
    - intros g u m Hm. apply Hfk. apply elem_of_rows_of. exists (g, u). exact Hm.
    - apply store_ok_members; [|done]. intros g u m Hm. apply Hdm in Hm as [_ Hm]. by apply member_row_ok. }
  change (store_ok (set_groups (delete id) (delete_roles gone dm))).
  apply store_ok_delete_group; [done| | |done].
  - intros k r [Hr Hgone]%map_lookup_filter_Some Hg. simpl in Hgone. unfold gone, role_of_group in Hgone.
    simpl in Hr. rewrite Hr in Hgone. by apply bool_decide_eq_false in Hgone.
  - intros g u m Hm. by apply Hdm in Hm as [? _].
Qed.

(** A key that a role may hold. *)
Definition grantable d (rid key : string) : Prop :=
  IsValidPermissionKey key = true ∧ ∀ r, t_roles d !! rid = Some r → ro_Scope r = key_scope key.

Lemma AddRolePermission_ok d now rid key x :
  x_AddRolePermission rid key now d = Ok x → grantable d rid key → store_ok d → store_ok x.2.
Proof.
  intros H [Hv Hg] Hok. unfold x_AddRolePermission in H. apply check_inv in H as [Hb H]. apply check_inv in H as [Hp H].
  apply present_Some in Hp as [ro Hro]. simplify_eq/=. pose proof Hok as [].
  constructor; simpl; eauto.
  - intros r k [[= -> ->]%elem_of_singleton|Hp]%elem_of_union; [|eauto]. eauto.
  - intros s Hs. destruct (ok_seeds0 s Hs) as [Hr Hk]. split; [exact Hr|]. intros k. rewrite <-Hk. simpl.
    destruct Hr as (r & Hr & _ & _ & _ & Hbi). unfold is_builtin in Hb.
    assert (rid ≠ seed_id s) by (intros ->; rewrite Hr, Hbi in Hb; done). set_solver.
Qed.

Lemma RemoveRolePermission_ok d now rid key x :
  x_RemoveRolePermission rid key now d = Ok x → store_ok d → store_ok x.2.
Proof.
  intros H Hok. unfold x_RemoveRolePermission in H. destruct (bool_decide _); [|by simplify_eq].
  apply check_inv in H as [Hb H]. simplify_eq/=. pose proof Hok as []. constructor; simpl; eauto.
  - intros r k [? _]%elem_of_difference. eauto.
  - intros s Hs. destruct (ok_seeds0 s Hs) as [Hr Hk]. split; [exact Hr|]. intros k. rewrite <-Hk. simpl.
    destruct Hr as (r & Hr & _ & _ & _ & Hbi). unfold is_builtin in Hb.
    assert (rid ≠ seed_id s) by (intros ->; rewrite Hr, Hbi in Hb; done). set_solver.
Qed.

Lemma store_ok_tokens d f :
  (∀ k t' rid, f (t_registration_tokens d) !! k = Some t' → rt_PersonalRoleID t' = Some rid →
     ∃ ro, t_roles d !! rid = Some ro ∧ ro_Scope ro = RoleScope_Normal ∧ group_scoped (ro_GroupID ro) = false) →
  store_ok d → store_ok (set_registration_tokens f d).
Proof. intros Hf []. constructor; simpl; eauto. Qed.

(** A role an invitation may carry. *)
Definition personal_role_ok d (rid : string) : Prop :=
  ∃ ro, t_roles d !! rid = Some ro ∧ ro_Scope ro = RoleScope_Normal ∧ group_scoped (ro_GroupID ro) = false.

Lemma CreateRegistrationToken_ok d now token res exp role x :
  x_CreateRegistrationToken token res exp role now d = Ok x →
  (∀ rid, role = Some rid → personal_role_ok d rid) → store_ok d → store_ok x.2.
Proof.
  intros H Hr Hok. unfold x_CreateRegistrationToken in H. do 3 apply check_inv in H as [? H]. simplify_eq.
  apply store_ok_tokens; [|done]. intros k t' rid [[<- <-]|[? ?]]%lookup_insert_Some Hrid; [by apply Hr|].
  by eapply ok_token_role.
Qed.

Lemma MarkRegistrationTokenUsed_ok d now token x :
  x_MarkRegistrationTokenUsed token now d = Ok x → store_ok d → store_ok x.2.
Proof.
  intros H Hok. unfold x_MarkRegistrationTokenUsed in H.
  destruct (t_registration_tokens d !! token) as [t|] eqn:Et; [|by simplify_eq].
  destruct (bool_decide _); simplify_eq/=; [|done].
  apply store_ok_tokens; [|done]. intros k t' rid [[<- <-]|[? ?]]%lookup_insert_Some Hrid; by eapply ok_token_role.
Qed.
End Statements.
