(* ===== verification/PermissionInvariant.v ===== *)
(** * The permission operations keep the store well-formed

    Every mutating operation of [RoleUsecase], [GroupUsecase] and
    [UserUsecase], over the SQL repositories, ends in a store that satisfies
    [store_ok] when it starts in one, whatever its result and whatever
    statement failed on the way. *)

From S2P Require Import Prelude Entity Models Queries Ports PermissionUsecase Repositories RoleUsecase.
From S2P Require Import GroupUsecase UserUsecase StoreInvariant.
From stdpp Require Import base gmap strings list.
From Stdlib Require Import ZArith.

Implicit Types (w : World) (ctx : Ctx).

Lemma quiet_HashPassword `{Bcrypt} p : preserves quiet (HashPassword p).
Proof. intros w. destruct (HashPassword_db p w) as (E1 & _ & E2). by split. Qed.
Lemma quiet_FetchUserInfo `{Skyfrost} r : preserves quiet (FetchUserInfo r).
Proof. intros w. destruct (FetchUserInfo_db r w) as (E1 & _ & E2). by split. Qed.
#[export] Hint Resolve quiet_HashPassword quiet_FetchUserInfo : preserves.

Lemma quiet_fetchIconUrl `{Skyfrost} r : preserves quiet (fetchIconUrl r).
Proof. unfold fetchIconUrl. preserve. Qed.
Lemma quiet_personal_found u : preserves quiet (attempt (groupRepo_GetPersonalGroupByUser u)).
Proof. preserve. Qed.
#[export] Hint Resolve quiet_fetchIconUrl quiet_personal_found : preserves.

(** A statement, through the error conversions of its repository. *)
Ltac stays_stmt lem := repeat apply stays_on_err; apply stays_exec; [assumption|intros ? ?; eapply lem; eauto].

(** A step that only reads, whose answer the invariant does not need. *)
Ltac skip := apply stays_step; [solve [preserve]|assumption|intros].

(** ** Roles *)

Lemma for_each_stays I {A} (f : A → Go unit) l w :
  I (w_db w) → (∀ x w', x ∈ l → I (w_db w') → stays I (f x) w') → stays I (for_each f l) w.
Proof.
  revert w. induction l as [|x l IH]; intros w HI Hf; simpl; [done|].
  apply stays_write; [apply Hf; [set_solver|done]|]. intros _ w' _ HI'. apply IH; [done|].
  intros y w'' Hy. apply Hf. set_solver.
Qed.

(** The invariant together with "the role has this scope", which no change of
    permissions disturbs. *)
Definition ok_with_scope (rid scope : string) (d : DB) : Prop :=
  store_ok d ∧ ∀ r, t_roles d !! rid = Some r → ro_Scope r = scope.

Lemma ReplacePermissions_stays rid scope keys w :
  Forall (λ k, IsValidPermissionKey k = true ∧ key_scope k = scope) keys →
  ok_with_scope rid scope (w_db w) → stays store_ok (ReplacePermissions rid keys) w.
Proof.
  intros Hk Hok. enough (stays (ok_with_scope rid scope) (ReplacePermissions rid keys) w) as [? _] by done.
  unfold ReplacePermissions. apply stays_step; [preserve|done|]. intros existing w1 _ _ Hok1. cbv zeta.
  apply stays_write.
  - apply for_each_stays; [done|]. intros k w2 _ [Ho Hs]. apply stays_exec; [done|]. intros x Hx.
    split; [by eapply RemoveRolePermission_ok|]. unfold x_RemoveRolePermission in Hx.
    destruct (bool_decide _); [apply check_inv in Hx as [_ Hx]|]; by simplify_eq/=.
  - intros _ w2 _ Hok2. apply for_each_stays; [done|]. intros k w3 Hin [Ho Hs].
    apply elem_of_elements, elem_of_difference in Hin as [Hin%elem_of_list_to_set _].
    rewrite Forall_forall in Hk. destruct (Hk k Hin) as [Hv Hsc].
    apply stays_exec; [done|]. intros x Hx. split.
    + eapply AddRolePermission_ok; [exact Hx| |done]. split; [done|]. intros r Hr. rewrite Hsc. by apply Hs.
    + unfold x_AddRolePermission in Hx. do 2 apply check_inv in Hx as [_ Hx]. by simplify_eq/=.
Qed.

Lemma lift_Ok_inv {S A} (r : Result A) (s s' : S) a : lift r s = (Ok a, s') → r = Ok a.
Proof. unfold lift. congruence. Qed.

Lemma CreateRole_stays ctx params w : store_ok (w_db w) → stays store_ok (CreateRole ctx params) w.
Proof.
  intros Hok. unfold CreateRole. case_bool_decide; [done|].
  destruct (_ && _) eqn:Hscope; [done|].
  apply stays_step; [preserve|done|]. intros [] w1 Hv _ Hok1. apply lift_Ok_inv in Hv.
  apply validatePermissionKeys_Ok in Hv.
  2: { rewrite andb_false_iff, !negb_false_iff, !bool_decide_eq_true in Hscope. tauto. }
  cbv zeta. skip. skip. skip.
  apply stays_write.
  { apply stays_write; [stays_stmt CreateRole_ok|done]. }
  intros role w5 Hrole Hok5.
  apply bind_inv_Ok in Hrole as (row & w5' & Hrow & [= <- <-]).
  apply on_err_Ok, exec_Ok in Hrow as [Hrow _].
  destruct (CRP_PermissionKeys params) as [|k ks] eqn:Ek; [done|].
  apply stays_write; [|done].
  apply ReplacePermissions_stays with (scope := CRP_Scope params); [done|]. split; [done|].
  unfold x_CreateRole in Hrow. do 4 apply check_inv in Hrow as [_ Hrow]. simpl.
  assert (ro_ID row = ro_ID row) as _ by done. injection Hrow as Hr Hd.
  intros r Hlk. rewrite <-Hd, <-Hr in Hlk. simpl in Hlk. rewrite lookup_insert_eq in Hlk. by simplify_eq.
Qed.

Lemma UpdateRole_stays ctx params w : store_ok (w_db w) → stays store_ok (UpdateRole ctx params) w.
Proof.
  intros Hok. unfold UpdateRole. eapply stays_read; [eauto with reads|done|].
  intros role w1 Hrole [Hdb _] Hok1. rewrite <-Hdb in Hrole. unfold get_role in Hrole.
  destruct (t_roles (w_db w1) !! URP_ID params) as [ro|] eqn:Hro; [|done]. injection Hrole as <-. simpl.
  destruct (ro_IsBuiltin ro); [done|].
  set (newKeys := if URP_OverwritePermKeys params then default [] (URP_PermissionKeys params) else []).
  cbv zeta. apply stays_step; [preserve|done|]. intros [] w2 Hv Hq2 Hok2.
  apply stays_step; [unfold requireRoleMutation; preserve|done|]. intros [] w3 _ Hq3 Hok3.
  apply stays_step; [preserve|done|]. intros [] w4 _ Hq4 Hok4.
  assert (ok_with_scope (URP_ID params) (ro_Scope ro) (w_db w4)) as Hs4.
  { split; [done|]. intros r Hr. destruct Hq2 as [E2 _], Hq3 as [E3 _], Hq4 as [E4 _]. simpl in *.
    rewrite E4, E3, E2 in Hr. congruence. }
  apply stays_write.
  { destruct (URP_Name params) as [name|]; [|done]. destruct (negb _); [|done]. stays_stmt UpdateRoleName_ok. }
  intros [] w5 Hn Hok5.
  assert (ok_with_scope (URP_ID params) (ro_Scope ro) (w_db w5)) as Hs5.
  { split; [done|]. destruct Hs4 as [_ Hs4]. destruct (URP_Name params) as [name|]; [|by injection Hn as <-].
    destruct (negb _); [|by injection Hn as <-]. apply exec_Ok in Hn as [Hn _]. unfold x_UpdateRoleName in Hn.
    destruct (t_roles (w_db w4) !! URP_ID params) as [r4|] eqn:E4.
    - do 2 apply check_inv in Hn as [_ Hn]. injection Hn as <-. intros r. simpl. rewrite lookup_insert_eq.
      intros [= <-]. simpl. by apply Hs4.
    - injection Hn as <-. intros r Hr. congruence. }
  apply stays_write.
  - destruct (URP_OverwritePermKeys params) eqn:Eo; [|done]. eapply ReplacePermissions_stays; [|exact Hs5].
    apply lift_Ok_inv in Hv. apply validatePermissionKeys_Ok in Hv; [done|].
    pose proof (ok_role_scope _ Hok1 _ _ Hro) as Hsc. apply bool_decide_eq_true in Hsc. set_solver.
  - intros [] w6 _ Hok6. apply stays_quiet; [preserve|done].
Qed.

Lemma DeleteRole_stays ctx id w : store_ok (w_db w) → stays store_ok (DeleteRole ctx id) w.
Proof.
  intros Hok. unfold DeleteRole. skip. destruct (Role_IsBuiltin _); [done|].
  apply stays_step; [unfold requireRoleMutation; preserve|done|]. intros. stays_stmt DeleteRole_ok.
Qed.

(** ** Groups *)

Lemma seed_admin_role d : store_ok d → ∃ r, t_roles d !! SeedRoleID_Admin = Some r ∧ ro_Scope r = RoleScope_Normal ∧ ro_GroupID r = None.
Proof.
  intros Hok. destruct (ok_seeds d Hok (mkSeed SeedRoleID_Admin "admin" RoleScope_Normal
    (resource_keys ++ [PermKey_GroupMembersManage; PermKey_GroupEdit]))) as [(r & ? & ? & _ & ? & _) _].
  - unfold seeds. left.
  - eauto.
Qed.

(** A normal-scope role may be given in a group that is not the system group. *)
Lemma assignable_normal d gid rid :
  (∀ g, t_groups d !! gid = Some g → gr_Type g = GroupType_Normal ∨ gr_Type g = GroupType_Personal) →
  (∀ r, t_roles d !! rid = Some r → ro_Scope r = RoleScope_Normal) → assignable d gid rid.
Proof.
  intros Hg Hr g r Eg Er. apply canScopeBeAttachedToGroup_iff. left. auto.
Qed.

Lemma memberRepo_Add_stays gid uid rid by_ w :
  assignable (w_db w) gid rid →
  (∀ g, t_groups (w_db w) !! gid = Some g → gr_Type g = GroupType_Personal → gid = uid +:+ "-personal") →
  store_ok (w_db w) → stays store_ok (memberRepo_Add gid uid rid by_) w.
Proof.
  intros Ha Hp Hok. apply stays_write; [|done]. stays_stmt AddGroupMember_ok.
Qed.

(** What a group creation that succeeded put in the table. *)
Lemma groupRepo_Create_Ok id name ty w g w' :
  groupRepo_Create id name ty w = (Ok g, w') →
  Group_ID g = id ∧ ∃ row, t_groups (w_db w') !! id = Some row ∧ gr_Type row = ty.
Proof.
  intros (row & w1 & Hrow & [= <- <-])%bind_inv_Ok. apply on_err_Ok, exec_Ok in Hrow as [Hrow _].
  unfold x_CreateGroup in Hrow. do 3 apply check_inv in Hrow as [_ Hrow]. injection Hrow as <- <-.
  split; [done|]. eexists. simpl. by rewrite lookup_insert_eq.
Qed.

Lemma groupRepo_Create_stays id name ty w :
  store_ok (w_db w) → stays store_ok (groupRepo_Create id name ty) w.
Proof. intros Hok. apply stays_write; [stays_stmt CreateGroup_ok|done]. Qed.

Lemma CreateGroup_stays ctx name creator w : store_ok (w_db w) → stays store_ok (CreateGroup ctx name creator) w.
Proof.
  intros Hok. unfold CreateGroup. skip. case_bool_decide; [done|]. skip.
  apply stays_write; [by apply groupRepo_Create_stays|]. intros g w4 Hg Hok4.
  apply groupRepo_Create_Ok in Hg as (<- & row & Hrow & Hty).
  apply stays_write; [|done]. apply stays_on_err, memberRepo_Add_stays; [| |done].
  - destruct (seed_admin_role _ Hok4) as (r & Hr & Hs & _). apply assignable_normal; naive_solver.
  - intros g' Hg' Hp. rewrite Hrow in Hg'. injection Hg' as <-. by rewrite Hty in Hp.
Qed.

(** A group found by the repository is the row of the table. *)
Lemma get_group_Ok id d g : get_group id d = Ok g → ∃ row, t_groups d !! id = Some row ∧ g = dbGroupToEntity row.
Proof. unfold get_group. destruct (t_groups d !! id); naive_solver. Qed.
Lemma get_role_Ok id d r :
  get_role id d = Ok r → ∃ row, t_roles d !! id = Some row ∧ r = dbRoleToEntity row (order_by String.leb (role_keys id d)).
Proof. unfold get_role. destruct (t_roles d !! id); naive_solver. Qed.

Lemma UpdateGroupName_stays ctx id name w : store_ok (w_db w) → stays store_ok (UpdateGroupName ctx id name) w.
Proof.
  intros Hok. unfold UpdateGroupName. skip. destruct (negb _); [done|]. skip.
  apply stays_write; [stays_stmt UpdateGroupName_ok|]. intros. apply stays_quiet; [preserve|done].
Qed.

Lemma DeleteGroup_stays ctx id w : store_ok (w_db w) → stays store_ok (DeleteGroup ctx id) w.
Proof.
  intros Hok. unfold DeleteGroup. eapply stays_read; [eauto with reads|done|]. intros g w1 Hg [Hdb _] Hok1.
  destruct (negb _) eqn:En; [done|]. apply negb_false_iff, bool_decide_eq_true in En.
  apply get_group_Ok in Hg as (row & Hrow & ->). simpl in En.
  skip. apply stays_exec; [done|]. intros x Hx. eapply DeleteGroup_ok; [exact Hx| |done].
  intros ->. destruct (ok_system_group _ Hok) as (g0 & Hg0 & Ht). rewrite Hrow in Hg0. injection Hg0 as <-.
  rewrite En in Ht. done.
Qed.

Lemma quiet_requirePermSubset ctx g role : preserves quiet (requirePermSubsetOfCaller ctx g role).
Proof. unfold requirePermSubsetOfCaller. preserve. Qed.
#[export] Hint Resolve quiet_requirePermSubset : preserves.

(** The scope check of the use case, in terms of the tables. *)
Lemma isRoleAssignable_assignable d gid rid row rrow keys :
  t_groups d !! gid = Some row → t_roles d !! rid = Some rrow →
  isRoleAssignableToGroup (dbRoleToEntity rrow keys) (dbGroupToEntity row) = true → assignable d gid rid.
Proof. intros Hg Hr Ha g r Eg Er. rewrite Hg in Eg. rewrite Hr in Er. simplify_eq. exact Ha. Qed.

Lemma quiet_transport {A} {w w'} (t : DB → A) : quiet w w' → t (w_db w') = t (w_db w).
Proof. intros [-> _]. done. Qed.

Lemma AddGroupMember_stays ctx gid uid rid by_ w :
  store_ok (w_db w) → stays store_ok (AddGroupMember ctx gid uid rid by_) w.
Proof.
  intros Hok. unfold AddGroupMember. apply stays_step; [preserve|done|]. intros [] w1 _ _ Hok1.
  eapply stays_read; [eauto with reads|done|]. intros g w2 Hg Hq2 Hok2.
  case_bool_decide as Hp; [done|]. apply get_group_Ok in Hg as (row & Hrow & ->).
  eapply stays_read; [eauto with reads|done|]. intros role w3 Hr Hq3 Hok3.
  destruct (negb _) eqn:Ha; [done|]. apply negb_false_iff in Ha.
  apply get_role_Ok in Hr as (rrow & Hrrow & ->).
  apply stays_step; [preserve|done|]. intros [] w4 _ Hq4 Hok4.
  assert (t_groups (w_db w4) !! gid = Some row ∧ t_roles (w_db w4) !! rid = Some rrow) as [Eg Er].
  { rewrite (quiet_transport t_groups Hq4), (quiet_transport t_groups Hq3), (quiet_transport t_groups Hq2),
      (quiet_transport t_roles Hq4), (quiet_transport t_roles Hq3). done. }
  apply memberRepo_Add_stays; [by eapply isRoleAssignable_assignable| |done].
  intros g' Hg' Ht. rewrite Eg in Hg'. injection Hg' as <-. done.
Qed.

Lemma RemoveGroupMember_stays ctx gid uid w : store_ok (w_db w) → stays store_ok (RemoveGroupMember ctx gid uid) w.
Proof.
  intros Hok. unfold RemoveGroupMember. skip. case_bool_decide; [done|]. skip. skip.
  stays_stmt RemoveGroupMember_ok.
Qed.

Lemma UpdateGroupMemberRole_stays ctx gid uid rid w :
  store_ok (w_db w) → stays store_ok (UpdateGroupMemberRole ctx gid uid rid) w.
Proof.
  intros Hok. unfold UpdateGroupMemberRole.
  eapply stays_read; [eauto with reads|done|]. intros g w1 Hg Hq1 Hok1. apply get_group_Ok in Hg as (row & Hrow & ->).
  apply stays_step; [preserve|done|]. intros [] w2 _ Hq2 Hok2.
  eapply stays_read; [eauto with reads|done|]. intros role w3 Hr Hq3 Hok3. apply get_role_Ok in Hr as (rrow & Hrrow & ->).
  destruct (negb _) eqn:Ha; [done|]. apply negb_false_iff in Ha.
  apply stays_step; [preserve|done|]. intros [] w4 _ Hq4 Hok4.
  apply stays_step; [preserve|done|]. intros m w5 _ Hq5 Hok5.
  assert (assignable (w_db w5) gid rid) as Has.
  { eapply isRoleAssignable_assignable; [| |exact Ha].
    - rewrite (quiet_transport t_groups Hq5), (quiet_transport t_groups Hq4), (quiet_transport t_groups Hq3),
        (quiet_transport t_groups Hq2), (quiet_transport t_groups Hq1). done.
    - rewrite (quiet_transport t_roles Hq5), (quiet_transport t_roles Hq4), (quiet_transport t_roles Hq3). done. }
  apply stays_write; [stays_stmt UpdateGroupMemberRole_ok|]. intros. apply stays_quiet; [preserve|done].
Qed.

Lemma ValidatePersonalRoleAssignable_quiet rid : preserves quiet (ValidatePersonalRoleAssignable rid).
Proof. unfold ValidatePersonalRoleAssignable. preserve. Qed.
#[export] Hint Resolve ValidatePersonalRoleAssignable_quiet : preserves.

Lemma ValidatePersonalRoleAssignable_Ok rid w w' :
  ValidatePersonalRoleAssignable rid w = (Ok tt, w') → personal_role_ok (w_db w) rid.
Proof.
  intros (role & w1 & Hr & Hk)%bind_inv_Ok. apply (reads_Ok _ _ _ _ _ (roleRepo_Get_reads rid)) in Hr as [Hr _].
  apply get_role_Ok in Hr as (row & Hrow & ->). simpl in Hk.
  destruct (negb _) eqn:Hs; [done|]. apply negb_false_iff, bool_decide_eq_true in Hs.
  destruct (group_scoped _) eqn:Hg; [done|]. by exists row.
Qed.

(** The role a personal membership gets. *)
Lemma personal_assignable d uid rid :
  store_ok d → (rid ≠ EmptyString → personal_role_ok d rid) →
  (∀ g, t_groups d !! (uid +:+ "-personal") = Some g → gr_Type g = GroupType_Personal) →
  assignable d (uid +:+ "-personal") (if bool_decide (rid = EmptyString) then SeedRoleID_Admin else rid).
Proof.
  intros Hok Hrid Hg. apply assignable_normal; [eauto|]. case_bool_decide as E.
  - destruct (seed_admin_role _ Hok) as (r & ? & ? & _). naive_solver.
  - destruct (Hrid E) as (r & ? & ? & _). naive_solver.
Qed.

(** Roles survive the creation of a group. *)
Lemma groupRepo_Create_roles id name ty w r w' :
  groupRepo_Create id name ty w = (r, w') → t_roles (w_db w') = t_roles (w_db w).
Proof.
  unfold groupRepo_Create, groupRepository, GroupRepository_Create, bind, on_err, Queries.CreateGroup, exec.
  destruct (statement_fails w); simpl; [intros [= <- <-]; done|].
  destruct (x_CreateGroup _ _ _ _ _) as [[g d]|e] eqn:E; simpl; intros [= <- <-]; [|done].
  unfold x_CreateGroup in E. do 3 apply check_inv in E as [_ E]. by injection E as <- <-.
Qed.

Lemma EnsurePersonalGroupForUser_stays uid rid w :
  store_ok (w_db w) → stays store_ok (EnsurePersonalGroupForUser uid rid) w.
Proof.
  intros Hok. unfold EnsurePersonalGroupForUser.
  apply stays_step; [preserve|done|]. intros [] w1 Hv Hq1 Hok1.
  apply stays_step; [preserve|done|]. intros found w2 _ Hq2 Hok2.
  destruct found as [g|err]; [done|]. destruct (negb (errors_Is _ _)); [done|]. cbv zeta.
  apply stays_write; [apply stays_on_err; by apply groupRepo_Create_stays|]. intros g w3 Hg Hok3.
  apply on_err_Ok in Hg. pose proof (groupRepo_Create_roles _ _ _ _ _ _ Hg) as Hroles.
  apply groupRepo_Create_Ok in Hg as (Hid & row & Hrow & Hty).
  apply stays_write; [|done]. apply stays_on_err. rewrite Hid. apply memberRepo_Add_stays; [| |done].
  - apply personal_assignable; [done| |intros g' Hg'; rewrite Hrow in Hg'; by injection Hg' as <-]. intros Hne.
    rewrite bool_decide_eq_false_2 in Hv by done. simpl in Hv. apply ValidatePersonalRoleAssignable_Ok in Hv.
    unfold personal_role_ok. by rewrite Hroles, (quiet_transport t_roles Hq2), (quiet_transport t_roles Hq1).
  - done.
Qed.

(** ** Users *)

Section Users.
Context {BC : Bcrypt} {SF : Skyfrost} (guc : bool).

Lemma quiet_validatePersonalRole rid : preserves quiet (validatePersonalRole guc rid).
Proof. unfold validatePersonalRole. preserve. Qed.
#[local] Hint Resolve quiet_validatePersonalRole : preserves.

Lemma CreateUser_stays ctx id pw res rid w :
  store_ok (w_db w) → stays store_ok (CreateUser guc ctx id pw res rid) w.
Proof.
  intros Hok. unfold CreateUser. skip. case_bool_decide; [done|]. skip. skip. skip.
  apply stays_write; [stays_stmt CreateUser_ok|]. intros [] w5 _ Hok5.
  destruct guc; [|done]. apply stays_write; [|done]. by apply stays_on_err, EnsurePersonalGroupForUser_stays.
Qed.

Lemma DeleteUser_stays ctx id w : store_ok (w_db w) → stays store_ok (DeleteUser ctx id) w.
Proof.
  intros Hok. unfold DeleteUser. skip. case_bool_decide as Hid; [done|]. skip.
  match goal with r : Result UserRow |- _ => destruct r as [u|e] end; [|by destruct (errors_Is _ _)].
  apply stays_exec; [done|]. intros x Hx. by eapply DeleteUser_ok.
Qed.

Lemma ChangePassword_stays uid old new w : store_ok (w_db w) → stays store_ok (ChangePassword uid old new) w.
Proof.
  intros Hok. unfold ChangePassword. skip. destruct (ComparePasswordAndHash _ _); [|done].
  destruct (_ <? _); [done|]. skip. stays_stmt UpdateUserPassword_ok.
Qed.

(** An accepted personal role, or none. *)
Lemma validatePersonalRole_Ok rid w w' :
  (if negb (bool_decide (rid = EmptyString)) then validatePersonalRole guc rid else ret tt) w = (Ok tt, w') →
  ∀ r, (if negb (bool_decide (rid = EmptyString)) then Some rid else None) = Some r → personal_role_ok (w_db w) r.
Proof.
  destruct (negb (bool_decide (rid = EmptyString))); [|done]. unfold validatePersonalRole.
  destruct guc; [|done]. simpl. intros H r [= <-]. by eapply ValidatePersonalRoleAssignable_Ok.
Qed.

Lemma createRegistrationToken_stays res rid w :
  store_ok (w_db w) → stays store_ok (createRegistrationToken guc res rid) w.
Proof.
  intros Hok. unfold createRegistrationToken.
  apply stays_step; [preserve|done|]. intros [] w1 Hv Hq1 Hok1.
  apply stays_step; [unfold generateSecureToken; preserve|done|]. intros token w2 _ Hq2 Hok2.
  apply stays_step; [preserve|done|]. intros now w3 _ Hq3 Hok3. cbv zeta.
  apply stays_write; [|done]. apply stays_exec; [done|]. intros x Hx.
  eapply CreateRegistrationToken_ok; [exact Hx| |done]. intros r Hr.
  apply validatePersonalRole_Ok with (r := r) in Hv; [|done].
  unfold personal_role_ok. by rewrite (quiet_transport t_roles Hq3), (quiet_transport t_roles Hq2), (quiet_transport t_roles Hq1).
Qed.

Lemma CreateRegistrationToken_stays ctx res rid w :
  store_ok (w_db w) → stays store_ok (CreateRegistrationToken guc ctx res rid) w.
Proof. intros Hok. unfold CreateRegistrationToken. skip. apply stays_write; [by apply createRegistrationToken_stays|done]. Qed.

Lemma CreateRegistrationTokenWithInfo_stays ctx res rid w :
  store_ok (w_db w) → stays store_ok (CreateRegistrationTokenWithInfo guc ctx res rid) w.
Proof.
  intros Hok. unfold CreateRegistrationTokenWithInfo. skip. skip.
  apply stays_write; [by apply createRegistrationToken_stays|done].
Qed.

(** The row of the invitation is still what was read when the transaction runs. *)
Definition token_role_ok (t : RegistrationTokenRow) (d : DB) : Prop :=
  ∀ rid, rt_PersonalRoleID t = Some rid → personal_role_ok d rid.

Lemma registerTx_stays h uid pw icon t w :
  token_role_ok t (w_db w) → store_ok (w_db w) → stays store_ok (registerTx h uid pw icon t) w.
Proof.
  intros Ht Hok. unfold registerTx.
  apply stays_write; [stays_stmt CreateUser_ok|]. intros [] w1 H1 Hok1.
  assert (t_roles (w_db w1) = t_roles (w_db w)) as Hr1.
  { apply exec_Ok in H1 as [H1 _]. unfold x_CreateUser in H1. apply check_inv in H1 as [_ H1]. by injection H1 as <-. }
  cbv zeta. apply stays_write; [stays_stmt CreateGroup_ok|]. intros row w2 H2 Hok2.
  apply on_err_Ok, exec_Ok in H2 as [H2 _]. unfold x_CreateGroup in H2. do 3 apply check_inv in H2 as [_ H2].
  injection H2 as <- Hd2.
  apply stays_write.
  { apply stays_on_err, stays_exec; [done|]. intros x Hx.
    eapply AddGroupMember_ok; [exact Hx| | |done]; [|done].
    set (rid := default EmptyString (rt_PersonalRoleID t)).
    assert (assignable (w_db w2) (uid +:+ "-personal") (if bool_decide (rid = EmptyString) then SeedRoleID_Admin else rid)) as Ha.
    { apply personal_assignable; [done| |].
      - intros Hne. unfold rid in *. destruct (rt_PersonalRoleID t) as [r|] eqn:Er; [|done]. simpl in *.
        destruct (Ht r Er) as (ro & Hro & ?). exists ro. rewrite <-Hd2. simpl. by rewrite Hr1.
      - intros g. rewrite <-Hd2. simpl. rewrite lookup_insert_eq. by intros [= <-]. }
    unfold rid in *. destruct (rt_PersonalRoleID t) as [r|]; simpl in *; [|exact Ha].
    by case_bool_decide. }
  intros m w3 _ Hok3.
  apply stays_write; [stays_stmt MarkRegistrationTokenUsed_ok|]. intros rows w4 _ Hok4.
  destruct (negb _); [done|]. apply stays_quiet; [preserve|done].
Qed.

Lemma RegisterWithToken_stays token uid pw w :
  store_ok (w_db w) → stays store_ok (RegisterWithToken token uid pw) w.
Proof.
  intros Hok. unfold RegisterWithToken. cbv zeta.
  eapply stays_read; [apply reads_query|done|]. intros t w1 Ht Hq1 Hok1.
  apply stays_step; [preserve|done|]. intros hash w2 _ Hq2 Hok2.
  apply stays_step; [preserve|done|]. intros icon w3 _ Hq3 Hok3.
  apply stays_RunInTx; [done|]. intros w4 Hq4.
  assert (quiet w w4) as Hq by (etrans; [|exact Hq4]; etrans; [|exact Hq3]; by etrans).
  assert (w_db w4 = w_db w) as E by apply Hq.
  apply registerTx_stays; rewrite E; [|done]. intros rid Hrid.
  unfold q_GetValidRegistrationToken in Ht.
  destruct (t_registration_tokens (w_db w) !! _) as [t0|] eqn:Et; [|done].
  destruct (token_valid _ _); [|done]. injection Ht as <-. by eapply ok_token_role.
Qed.
End Users.
