(* ===== verification/PermissionSystem.v ===== *)
(** * The permission system as a state machine

    The requests that change the permission tables, the step a request takes
    under any fault schedule and at any time, the freshly migrated store, and
    what is true of every store the requests can reach. *)

From S2P Require Import Prelude Entity Models Queries Ports PermissionUsecase Repositories RoleUsecase.
From S2P Require Import GroupUsecase UserUsecase StoreInvariant PermissionInvariant.
From stdpp Require Import base gmap strings list.
From Stdlib Require Import ZArith Lia.

(** ** The freshly migrated store *)

Definition seed_role_row (now : Instant) (s : Seed) : RoleRow :=
  mkRoleRow (seed_id s) None (seed_name s) (seed_scope s) true (Some now) (Some now).

Definition MigratedGroupID : string := "migrated-pre-permission".

(** The tables the migrations leave on a database that had no users. *)
Definition migrated_DB (now : Instant) : DB :=
  set_users (λ _, {[ SystemUserID := mkUserRow SystemUserID EmptyString None None (Some now) (Some now) ]})
  (set_groups (λ _, {[ SystemGroupID := mkGroupRow SystemGroupID SystemGroupID GroupType_System (Some now) (Some now);
                       MigratedGroupID := mkGroupRow MigratedGroupID "移行前全体グループ" GroupType_Normal (Some now) (Some now) ]})
  (set_roles (λ _, list_to_map ((λ s, (seed_id s, seed_role_row now s)) <$> seeds))
  (set_role_permissions (λ _, list_to_set (s ← seeds; k ← seed_keys s; [(seed_id s, k)]))
  (set_group_members (λ _, {[ (SystemGroupID, SystemUserID) :=
      mkGroupMemberRow SystemGroupID SystemUserID SeedRoleID_SystemAdmin None (Some now) ]})
   empty_DB)))).

(** ** Requests *)

Inductive Request : Type :=
  | ReqCreateRole (p : CreateRoleParams)
  | ReqUpdateRole (p : UpdateRoleParams)
  | ReqDeleteRole (id : string)
  | ReqCreateGroup (name creator : string)
  | ReqUpdateGroupName (id name : string)
  | ReqDeleteGroup (id : string)
  | ReqAddGroupMember (gid uid rid : string) (addedBy : option string)
  | ReqRemoveGroupMember (gid uid : string)
  | ReqUpdateGroupMemberRole (gid uid rid : string)
  | ReqCreateUser (id password resoniteId personalRoleID : string)
  | ReqDeleteUser (id : string)
  | ReqCreateRegistrationToken (resoniteId personalRoleID : string)
  | ReqCreateRegistrationTokenWithInfo (resoniteId personalRoleID : string)
  | ReqRegisterWithToken (token userId password : string)
  | ReqChangePassword (userID currentPassword newPassword : string)
  | ReqEnsurePersonalGroup (userID roleID : string).

Definition discard {A} (m : Go A) : Go unit := m ;;; ret tt.

Section System.
Context {BC : Bcrypt} {SF : Skyfrost} (guc : bool).

Definition handle (ctx : Ctx) (r : Request) : Go unit :=
  match r with
  | ReqCreateRole p => discard (CreateRole ctx p)
  | ReqUpdateRole p => discard (UpdateRole ctx p)
  | ReqDeleteRole id => DeleteRole ctx id
  | ReqCreateGroup name creator => discard (CreateGroup ctx name creator)
  | ReqUpdateGroupName id name => discard (UpdateGroupName ctx id name)
  | ReqDeleteGroup id => DeleteGroup ctx id
  | ReqAddGroupMember gid uid rid by_ => discard (AddGroupMember ctx gid uid rid by_)
  | ReqRemoveGroupMember gid uid => RemoveGroupMember ctx gid uid
  | ReqUpdateGroupMemberRole gid uid rid => discard (UpdateGroupMemberRole ctx gid uid rid)
  | ReqCreateUser id pw res rid => CreateUser guc ctx id pw res rid
  | ReqDeleteUser id => DeleteUser ctx id
  | ReqCreateRegistrationToken res rid => discard (CreateRegistrationToken guc ctx res rid)
  | ReqCreateRegistrationTokenWithInfo res rid => discard (CreateRegistrationTokenWithInfo guc ctx res rid)
  | ReqRegisterWithToken token uid pw => discard (RegisterWithToken token uid pw)
  | ReqChangePassword uid old new => ChangePassword uid old new
  | ReqEnsurePersonalGroup uid rid => discard (EnsurePersonalGroupForUser uid rid)
  end.

(** What a request leaves of the tables, whoever sends it, at any time,
    with any failures, whatever random values are drawn. *)
Inductive step (d : DB) : DB → Prop :=
  | step_request ctx r w : w_db w = d → step d (w_db (handle ctx r w).2).

Inductive reachable (d0 : DB) : DB → Prop :=
  | reachable_start : reachable d0 d0
  | reachable_step d d' : reachable d0 d → step d d' → reachable d0 d'.

Lemma stays_discard I {A} (m : Go A) w : stays I m w → stays I (discard m) w.
Proof. intros Hm. apply stays_write; [done|]. done. Qed.

Lemma handle_stays ctx r w : store_ok (w_db w) → stays store_ok (handle ctx r) w.
Proof.
  intros Hok. destruct r; simpl; try apply stays_discard.
  - by apply CreateRole_stays.
  - by apply UpdateRole_stays.
  - by apply DeleteRole_stays.
  - by apply CreateGroup_stays.
  - by apply UpdateGroupName_stays.
  - by apply DeleteGroup_stays.
  - by apply AddGroupMember_stays.
  - by apply RemoveGroupMember_stays.
  - by apply UpdateGroupMemberRole_stays.
  - by apply CreateUser_stays.
  - by apply DeleteUser_stays.
  - by apply CreateRegistrationToken_stays.
  - by apply CreateRegistrationTokenWithInfo_stays.
  - by apply RegisterWithToken_stays.
  - by apply ChangePassword_stays.
  - by apply EnsurePersonalGroupForUser_stays.
Qed.

Lemma reachable_ok d0 d : store_ok d0 → reachable d0 d → store_ok d.
Proof.
  intros H0. induction 1 as [|d d' _ IH [ctx r w <-]]; [done|]. by apply handle_stays.
Qed.
End System.

(** ** The migrated store is well-formed *)

Lemma migrated_role now k r :
  t_roles (migrated_DB now) !! k = Some r → ∃ s, s ∈ seeds ∧ k = seed_id s ∧ r = seed_role_row now s.
Proof.
  intros H%elem_of_list_to_map_2. apply list_elem_of_fmap in H as (s & [= -> ->] & Hs). eauto.
Qed.

Lemma migrated_seed_role now s : s ∈ seeds → t_roles (migrated_DB now) !! seed_id s = Some (seed_role_row now s).
Proof. unfold seeds. intros H. repeat (apply elem_of_cons in H as [->|H]; [vm_compute; reflexivity|]). by apply elem_of_nil in H. Qed.

Lemma migrated_perm now r k :
  (r, k) ∈ t_role_permissions (migrated_DB now) ↔ ∃ s, s ∈ seeds ∧ r = seed_id s ∧ k ∈ seed_keys s.
Proof.
  change (t_role_permissions (migrated_DB now))
    with (list_to_set (s ← seeds; k ← seed_keys s; [(seed_id s, k)]) : gset (string * string)).
  rewrite elem_of_list_to_set, list_elem_of_bind. split.
  - intros (s & Hin & Hs). apply list_elem_of_bind in Hin as (k' & Hin & Hk').
    apply list_elem_of_singleton in Hin as [= -> ->]. eauto.
  - intros (s & Hs & -> & Hk). exists s. split; [|done]. apply list_elem_of_bind. exists k.
    split; [by apply list_elem_of_singleton|done].
Qed.

Lemma seeds_distinct s s' : s ∈ seeds → s' ∈ seeds → seed_id s = seed_id s' → s = s'.
Proof.
  unfold seeds. intros H H'.
  repeat (apply elem_of_cons in H as [->|H]; [repeat (apply elem_of_cons in H' as [->|H']; [done|]); by apply elem_of_nil in H'|]).
  by apply elem_of_nil in H.
Qed.

(** Every key of a seed is a known key of the seed's scope. *)
Lemma seeds_keys_ok s k : s ∈ seeds → k ∈ seed_keys s → seed_scope s = key_scope k ∧ IsValidPermissionKey k = true.
Proof.
  assert (forallb (λ s, forallb (λ k, bool_decide (seed_scope s = key_scope k) && IsValidPermissionKey k) (seed_keys s)) seeds = true)
    as Hall by (vm_compute; reflexivity).
  intros Hs Hk. apply forallb_forall with (x := s) in Hall; [|by apply list_elem_of_In].
  apply forallb_forall with (x := k) in Hall; [|by apply list_elem_of_In].
  apply andb_true_iff in Hall as [?%bool_decide_eq_true ?]. done.
Qed.

Lemma migrated_group now k g : t_groups (migrated_DB now) !! k = Some g →
  gr_ID g = k ∧ ((k = SystemGroupID ∧ gr_Type g = GroupType_System) ∨ (k = MigratedGroupID ∧ gr_Type g = GroupType_Normal)).
Proof.
  change (t_groups (migrated_DB now)) with
    (<[SystemGroupID := mkGroupRow SystemGroupID SystemGroupID GroupType_System (Some now) (Some now)]>
      ({[MigratedGroupID := mkGroupRow MigratedGroupID "移行前全体グループ" GroupType_Normal (Some now) (Some now)]} : gmap string GroupRow)).
  intros [[<- <-]|[_ [<- <-]%lookup_singleton_Some]]%lookup_insert_Some; simpl; auto.
Qed.

Lemma migrated_member now g u m : t_group_members (migrated_DB now) !! (g, u) = Some m →
  g = SystemGroupID ∧ u = SystemUserID ∧ gm_GroupID m = g ∧ gm_UserID m = u ∧ gm_RoleID m = SeedRoleID_SystemAdmin.
Proof.
  intros H. change (t_group_members (migrated_DB now)) with
    ({[ (SystemGroupID, SystemUserID) := mkGroupMemberRow SystemGroupID SystemUserID SeedRoleID_SystemAdmin None (Some now) ]}
      : gmap (string * string) GroupMemberRow) in H.
  apply lookup_singleton_Some in H as [[= <- <-] <-]. done.
Qed.

Lemma system_group_of_migrated now :
  t_groups (migrated_DB now) !! SystemGroupID =
  Some (mkGroupRow SystemGroupID SystemGroupID GroupType_System (Some now) (Some now)).
Proof. vm_compute. reflexivity. Qed.

Lemma migrated_ok now : store_ok (migrated_DB now).
Proof.
  constructor.
  - intros k g Hg. by apply migrated_group in Hg as [? _].
  - intros k g Hg. by apply migrated_group in Hg as [_ [[_ ->]|[_ ->]]].
  - eexists. split; [apply system_group_of_migrated|done].
  - intros k g Hg Ht. apply migrated_group in Hg as [_ [[-> _]|[_ E]]]; [done|]. by rewrite E in Ht.
  - vm_compute. eauto.
  - intros k r Hr. by apply migrated_role in Hr as (s & _ & -> & ->).
  - intros k r Hr. apply migrated_role in Hr as (s & Hs & _ & ->). simpl. unfold seeds in Hs.
    repeat (apply elem_of_cons in Hs as [->|Hs]; [reflexivity|]). by apply elem_of_nil in Hs.
  - intros k r gid Hr Hg. by apply migrated_role in Hr as (s & _ & _ & ->).
  - intros r k Hp. apply migrated_perm in Hp as (s & Hs & -> & Hk). exists (seed_role_row now s).
    split; [by apply migrated_seed_role|]. by apply seeds_keys_ok.
  - intros g u m Hm. by apply migrated_member in Hm as (_ & _ & ? & ? & _).
  - intros g u m Hm. apply migrated_member in Hm as (_ & -> & _). vm_compute. eauto.
  - intros g u m Hm. apply migrated_member in Hm as (-> & _ & _ & _ & ->).
    eexists _, _. split; [apply system_group_of_migrated|].
    split; [exact (migrated_seed_role now (mkSeed SeedRoleID_SystemAdmin "system-admin" RoleScope_System system_keys) ltac:(set_solver))|].
    done.
  - intros k t rid Ht. change (t_registration_tokens (migrated_DB now)) with (∅ : gmap string RegistrationTokenRow) in Ht.
    by rewrite lookup_empty in Ht.
  - intros s Hs. split.
    + exists (seed_role_row now s). split; [by apply migrated_seed_role|done].
    + intros k. rewrite migrated_perm. split.
      * intros (s' & Hs' & E & Hk). by rewrite (seeds_distinct s s').
      * eauto.
Qed.
