(* ===== verification/PermissionDecisions.v ===== *)
(** * What the permission checks decide

    The rule of docs/permissions.md (5.1) stated over the SQL tables, and the
    proof that the operations of [PermissionUsecase] over the repositories of
    [Repositories] implement it: they never write, they answer the rule, and a
    database failure is reported as itself, never as a permission. *)

From S2P Require Import Prelude Entity Models Queries Ports PermissionUsecase Repositories StoreInvariant.
From stdpp Require Import base gmap strings list sorting.
From Stdlib Require Import ZArith.

(** ** The rule over the tables *)

(** [u]'s role in group [g] holds the key [k]. *)
Definition granted (d : DB) (u g k : string) : Prop :=
  ∃ m, t_group_members d !! (g, u) = Some m ∧ (gm_RoleID m, k) ∈ t_role_permissions d.

Definition may (d : DB) (u g k : string) : Prop :=
  k = EmptyString ∨
  (is_system_key k = true ∧ granted d u SystemGroupID k) ∨
  (is_system_key k = false ∧
    ((g ≠ EmptyString ∧ granted d u g k) ∨ granted d u SystemGroupID PermKey_SystemGroupManage)).

Lemma elem_of_member_keys u g k d : k ∈ member_keys u g d ↔ granted d u g k.
Proof.
  unfold member_keys, granted. destruct (t_group_members d !! (g, u)) as [m|].
  - rewrite elem_of_role_keys. naive_solver.
  - split; [by intros ?%elem_of_nil|naive_solver].
Qed.

Lemma holds_may d u g k : holds d u g k = true ↔ may d u g k.
Proof. rewrite holds_iff. unfold may. cbn [view_keys permissionView]. by rewrite !elem_of_member_keys. Qed.

Lemma has_system_granted d u k : has_system d u k = true ↔ granted d u SystemGroupID k.
Proof. unfold has_system. rewrite bool_decide_eq_true. apply elem_of_member_keys. Qed.

(** A computation that reads and answers a boolean decides the proposition. *)
Definition decides (m : Go bool) (P : DB → Prop) (w : World) : Prop :=
  only_faults w (m w).2 ∧
  match (m w).1 with
  | Ok b => b = true ↔ P (w_db w)
  | Fail e => transient e = true ∧ w_faults w ≠ []
  end.

Lemma decides_intro (m : Go bool) (f : DB → bool) (P : DB → Prop) w :
  reads m (λ _ d, Ok (f d)) → (f (w_db w) = true ↔ P (w_db w)) → decides m P w.
Proof.
  intros Hm HP. destruct (Hm w) as [Hof Hr]. split; [done|].
  destruct Hr as [->|(? & e & -> & ?)]; [done|done].
Qed.

(** A requirement passes, refuses the caller, or reports the failure of the
    database as it is. *)
Definition enforces (ctx : Ctx) (m : Go unit) (P : DB → string → Prop) (w : World) : Prop :=
  only_faults w (m w).2 ∧
  match (m w).1 with
  | Ok _ => ∃ u, current_user ctx = Ok u ∧ P (w_db w) u
  | Fail e =>
      (e = ESent ErrUnauthenticated ∧ current_user ctx = Fail e) ∨
      (errors_Is e ErrPermissionDenied = true ∧ ∃ u, current_user ctx = Ok u ∧ ¬ P (w_db w) u) ∨
      (transient e = true ∧ errors_Is e ErrPermissionDenied = false ∧ w_faults w ≠ [])
  end.

Lemma enforces_intro ctx (m : Go unit) (f : DB → string → bool) (P : DB → string → Prop) what w :
  reads m (λ _ d, rbind (current_user ctx) (λ u, PermissionUsecase.guard (f d u) what)) →
  (∀ u, f (w_db w) u = true ↔ P (w_db w) u) → enforces ctx m P w.
Proof.
  intros Hm HP. destruct (Hm w) as [Hof Hr]. split; [done|].
  destruct Hr as [->|(Hne & e & -> & Ht)].
  - destruct (current_user ctx) as [u|e] eqn:Eu; simpl.
    + unfold PermissionUsecase.guard. destruct (f (w_db w) u) eqn:Ef; simpl.
      * exists u. by rewrite <-HP.
      * right; left. split; [done|]. exists u. split; [done|]. rewrite <-HP. congruence.
    + left. split; [|done]. unfold current_user in Eu.
      destruct ctx as [c|]; [|by injection Eu as <-]. by destruct (bool_decide _); [injection Eu as <-|].
  - right; right. split; [done|]. split; [by apply transient_not_Is|done].
Qed.

(** ** Properties *)

(** C2. [HasPermission] over the SQL repositories decides the documented
    rule: the empty key is always held; a system key must be held through the
    system group; any other key must be held on the (non-empty) group or be
    covered by system:group.manage.  It changes no table, and when a statement
    fails the answer is that failure and never a permission. *)
Theorem HasPermission_decides (u g k : string) (w : World) :
  decides (HasPermission u g k) (λ d, may d u g k) w.
Proof. eapply decides_intro; [apply HasPermission_reads|apply holds_may]. Qed.

(** [RequirePermissionForGroup] lets a request through only when an
    authenticated caller may; it refuses with ErrPermissionDenied only a
    caller who may not; a failing database is neither. *)
Theorem RequirePermissionForGroup_enforces (ctx : Ctx) (g k : string) (w : World) :
  enforces ctx (RequirePermissionForGroup ctx g k) (λ d u, may d u g k) w.
Proof. eapply enforces_intro; [apply RequirePermissionForGroup_reads|intros u; apply holds_may]. Qed.

Lemma existsb_may d u g ks : existsb (holds d u g) ks = true ↔ ∃ k, k ∈ ks ∧ may d u g k.
Proof.
  rewrite existsb_exists. split; intros (k & Hk & Hm); exists k.
  - split; [by apply list_elem_of_In|by apply holds_may].
  - split; [by apply list_elem_of_In|by apply holds_may].
Qed.

(** [RequireAnyPermissionForGroup] enforces that the caller may under one
    of the keys, and a failing lookup of one key is never reported as a
    refusal. *)
Theorem RequireAnyPermissionForGroup_enforces (ctx : Ctx) (g : string) (ks : list string) (w : World) :
  enforces ctx (RequireAnyPermissionForGroup ctx g ks) (λ d u, ∃ k, k ∈ ks ∧ may d u g k) w.
Proof. eapply enforces_intro; [apply RequireAnyPermissionForGroup_reads|intros u; apply existsb_may]. Qed.

(** ** The list filter and the summary *)

Section Listings.
Context {GR : GroupRepository} {MR : GroupMemberRepository} {V : PermissionView GR MR}.

Definition listed (d : DB) (u k : string) (m : GroupMember) : bool :=
  negb (bool_decide (GroupMember_GroupID m = SystemGroupID)) &&
  (bool_decide (k = EmptyString) || holds d u (GroupMember_GroupID m) k).

Lemma filter_memberships_reads u k ms acc :
  reads (filter_memberships u k ms acc)
    (λ _ d, Ok (acc ++ (GroupMember_GroupID <$> filter (λ m, listed d u k m = true) ms))).
Proof.
  revert acc. induction ms as [|m ms IH]; intros acc; simpl.
  { eapply reads_ext; [apply reads_ret|]. intros t d. simpl. by rewrite app_nil_r. }
  destruct (bool_decide (GroupMember_GroupID m = SystemGroupID)) eqn:Es.
  { eapply reads_ext; [apply IH|]. intros t d. rewrite filter_cons. destruct (decide (listed d u k m = true)) as [Hl|Hl]; [|done].
    unfold listed in Hl. by rewrite Es in Hl. }
  destruct (bool_decide (k = EmptyString)) eqn:Ek.
  { eapply reads_ext; [apply IH|]. intros t d. rewrite filter_cons. destruct (decide (listed d u k m = true)) as [Hl|Hl].
    - simpl. by rewrite <-app_assoc.
    - unfold listed in Hl. by rewrite Es, Ek in Hl. }
  eapply reads_bind_ext; [apply HasPermission_reads|intros ok; apply IH|].
  intros t d. simpl. rewrite filter_cons. destruct (decide (listed d u k m = true)) as [Hl|Hl]; unfold listed in Hl; rewrite Es, Ek in Hl; simpl in Hl.
  - rewrite Hl. simpl. by rewrite <-app_assoc.
  - by apply not_true_is_false in Hl as ->.
Qed.

Definition list_filter (d : DB) (u k : string) : list string * bool :=
  if has_system d u PermKey_SystemGroupList then ([], true)
  else (GroupMember_GroupID <$> filter (λ m, listed d u k m = true) (view_memberships d u), false).

Lemma ResolveListGroupFilter_reads u k : reads (ResolveListGroupFilter u k) (λ _ d, Ok (list_filter d u k)).
Proof.
  unfold ResolveListGroupFilter, list_filter. eapply reads_ask; [apply HasSystemPermission_reads|apply reads_ret| |].
  - eapply reads_bind; [apply view_reads_memberships|]. intros ms.
    eapply reads_bind; [apply filter_memberships_reads|]. intros r. apply reads_ret.
  - intros t d. simpl. by destruct (has_system _ _ _).
Qed.

Definition summary_of (d : DB) (u : string) (m : GroupMember) : GroupPermissionSummary :=
  mkGroupPermissionSummary (GroupMember_GroupID m) (GroupMember_RoleID m) (view_keys d u (GroupMember_GroupID m)).
Definition summary_system (d : DB) (u : string) (ms : list GroupMember) : list string :=
  m ← filter (λ m, GroupMember_GroupID m = SystemGroupID) ms; view_keys d u (GroupMember_GroupID m).

Lemma summarize_reads u ms acc :
  reads (summarize u ms acc)
    (λ _ d, Ok (mkMyPermissionsSummary (MPS_Groups acc ++ (summary_of d u <$> ms))
                                       (MPS_SystemPermissionKeys acc ++ summary_system d u ms))).
Proof.
  revert acc. induction ms as [|m ms IH]; intros acc; simpl.
  { eapply reads_ext; [apply reads_ret|]. intros t d. simpl. unfold summary_system. simpl.
    rewrite !app_nil_r. by destruct acc. }
  eapply reads_bind_ext; [apply view_reads_keys|intros perms; apply IH|].
  intros t d. simpl. unfold summary_system. rewrite filter_cons.
  case_decide as E; [rewrite bool_decide_eq_true_2 by done|rewrite bool_decide_eq_false_2 by done];
    simpl; by rewrite <-!app_assoc.
Qed.

Lemma GetMyPermissionsSummary_reads u :
  reads (GetMyPermissionsSummary u)
    (λ _ d, Ok (mkMyPermissionsSummary (summary_of d u <$> view_memberships d u)
                                       (summary_system d u (view_memberships d u)))).
Proof. eapply reads_bind_ext; [apply view_reads_memberships|intros ms; apply summarize_reads|done]. Qed.
End Listings.

Lemma elem_of_memberships u d x :
  store_ok d →
  x ∈ q_memberships u d ↔ ∃ g m, t_group_members d !! (g, u) = Some m ∧ x = dbGroupMemberToEntity m.
Proof.
  intros Hok. unfold q_memberships. rewrite list_elem_of_fmap. setoid_rewrite elem_of_order_by.
  unfold memberships_of. setoid_rewrite list_elem_of_filter. setoid_rewrite elem_of_rows_of. split.
  - intros (m & -> & Hu & [g u'] & Hm). destruct (ok_member_key d Hok _ _ _ Hm) as [_ E].
    exists g, m. split; [|done]. congruence.
  - intros (g & m & Hm & ->). exists m. split; [done|]. split; [by eapply (ok_member_key d Hok)|eauto].
Qed.

(** [ResolveListGroupFilter] answers "everything" exactly to the holders
    of system:group.list; to anyone else it answers exactly the groups, other
    than the system group, the user is a member of and may read under the key
    (all of them when no key is asked for). *)
Theorem ResolveListGroupFilter_exact (u k : string) (w : World) (gs : list string) (all : bool) (w' : World) :
  store_ok (w_db w) →
  ResolveListGroupFilter u k w = (Ok (gs, all), w') →
  w_db w' = w_db w ∧
  (all = true ↔ granted (w_db w) u SystemGroupID PermKey_SystemGroupList) ∧
  (all = false → ∀ g, g ∈ gs ↔ g ≠ SystemGroupID ∧ is_Some (t_group_members (w_db w) !! (g, u)) ∧
                             (k = EmptyString ∨ may (w_db w) u g k)).
Proof.
  intros Hok H. destruct (reads_Ok _ _ _ _ _ (ResolveListGroupFilter_reads u k) H) as [Hf Hof].
  split; [by apply only_faults_db|]. unfold list_filter in Hf.
  destruct (has_system (w_db w) u PermKey_SystemGroupList) eqn:Es; injection Hf as <- <-.
  { apply has_system_granted in Es. done. }
  split; [split; [done|]; intros Hg%has_system_granted; congruence|]. intros _ g.
  rewrite list_elem_of_fmap. setoid_rewrite list_elem_of_filter. cbn [view_memberships permissionView].
  setoid_rewrite elem_of_memberships; [|done]. unfold listed. split.
  - intros (x & -> & [Hne Hk]%andb_true_iff & g' & m & Hm & ->). simpl in *.
    destruct (ok_member_key _ Hok _ _ _ Hm) as [Eg _]. rewrite Eg in *.
    apply negb_true_iff, bool_decide_eq_false in Hne. split; [done|]. split; [eauto|].
    apply orb_true_iff in Hk as [?%bool_decide_eq_true|?%holds_may]; auto.
  - intros (Hne & [m Hm] & Hk). destruct (ok_member_key _ Hok _ _ _ Hm) as [Eg _].
    exists (dbGroupMemberToEntity m). simpl. rewrite Eg. split; [done|]. split; [|eauto].
    rewrite bool_decide_eq_false_2 by done. simpl. apply orb_true_iff.
    destruct Hk as [->|Hk]; [left; by apply bool_decide_eq_true|right; by apply holds_may].
Qed.
