(* ===== verification/PermissionSafety.v ===== *)
(** * Safety of the permission system

    What the handlers guarantee whoever calls them: callers without
    permissions change nothing, nobody grants a permission he does not hold,
    personal groups keep their single owner, the system group keeps a member. *)

From S2P Require Import Prelude Entity StateCache Models Queries Ports PermissionUsecase Repositories RoleUsecase.
From S2P Require Import GroupUsecase UserUsecase StoreInvariant PermissionInvariant PermissionSystem.
From S2P Require Import PermissionDecisions.
From stdpp Require Import base gmap strings list sorting pretty.
From Stdlib Require Import ZArith Lia.

Implicit Types (w : World) (ctx : Ctx).

(** ** Concrete third-party code for the witnesses *)

#[local] Program Instance salted_Bcrypt : Bcrypt := {
  HashPassword p := ret ("$" +:+ p);
  ComparePasswordAndHash p h := if bool_decide (h = "$" +:+ p) then Ok tt else Fail (EMsg "mismatch") }.
Next Obligation. done. Qed.
Next Obligation. intros p w h w' [= <- <-]. by rewrite bool_decide_eq_true_2. Qed.

#[local] Program Instance offline_Skyfrost : Skyfrost := {
  FetchUserInfo r := ret (mkUserInfo r ("user " +:+ r) EmptyString) }.
Next Obligation. done. Qed.

Definition user_ctx (uid : string) : Ctx := Some (mkAuthClaims uid EmptyString EmptyString no_registered).

(** A world over the migrated store: it is noon of some day, every statement
    works, and the random source counts. *)
Definition fresh_world : World :=
  mkWorld (migrated_DB 0%Z) [] (12 * time_Hour)%Z (λ n, "id" +:+ pretty n) (λ n, repeat (Z.of_nat n) 32) 0 NewMemoryCache 0.

Definition run {A} (m : Go A) (w : World) : World := (m w).2.

(** ** Computations that are stopped before they write *)

Definition blocked {A} (m : Go A) w : Prop := is_Ok (m w).1 = false ∧ w_db (m w).2 = w_db w.

Lemma blocked_fail {A} e w : blocked (fail (A:=A) e) w.
Proof. done. Qed.
Lemma blocked_first {A B} (m : Go A) (k : A → Go B) w : blocked m w → blocked (bind m k) w.
Proof. unfold blocked, bind. destruct (m w) as [[a|e] w']; simpl; [intros [? _]; done|done]. Qed.
Lemma blocked_then {A B} (m : Go A) (k : A → Go B) w :
  preserves quiet m → (∀ a w', m w = (Ok a, w') → quiet w w' → blocked (k a) w') → blocked (bind m k) w.
Proof.
  intros Hm Hk. pose proof (Hm w) as Hq. unfold blocked, bind. destruct (m w) as [[a|e] w'] eqn:E; simpl in *.
  - destruct (Hk a w' eq_refl Hq) as [? ->]. split; [done|]. by destruct Hq.
  - split; [done|]. by destruct Hq.
Qed.
Lemma blocked_discard {A} (m : Go A) w : blocked m w → blocked (discard m) w.
Proof. apply blocked_first. Qed.

(** Whoever the caller is, he holds no permission at all. *)
Definition stranger (d : DB) ctx : Prop := ∀ u g k, current_user ctx = Ok u → ¬ granted d u g k.

Lemma stranger_may d ctx u g k : stranger d ctx → current_user ctx = Ok u → k ≠ EmptyString → ¬ may d u g k.
Proof. intros Hs Hu Hk [?|[[_ H]|[_ [[_ H]|H]]]]; [done| | |]; by eapply Hs. Qed.

Lemma blocked_enforced (m : Go unit) ctx (P : DB → string → Prop) w :
  enforces ctx m P w → (∀ u, current_user ctx = Ok u → ¬ P (w_db w) u) → blocked m w.
Proof.
  intros [Hof Hr] HP. unfold blocked. split; [|by apply only_faults_db].
  destruct (m w) as [[[]|e] w']; simpl in *; [|done]. destruct Hr as (u & Hu & H). by destruct (HP u Hu).
Qed.

Lemma RequireSystemPermission_enforces ctx k w :
  enforces ctx (RequireSystemPermission ctx k) (λ d u, granted d u SystemGroupID k) w.
Proof. eapply enforces_intro; [apply RequireSystemPermission_reads|intros u; apply has_system_granted]. Qed.

Lemma RequirePermission_enforces ctx g k w :
  enforces ctx (RequirePermissionForGroup ctx g k) (λ d u, may d u g k) w.
Proof. eapply enforces_intro; [apply RequirePermissionForGroup_reads|intros u; apply holds_may]. Qed.

Lemma stranger_quiet w w' ctx : quiet w w' → stranger (w_db w) ctx → stranger (w_db w') ctx.
Proof. intros [-> _]. done. Qed.

Section Strangers.
Context ctx w (Hs : stranger (w_db w) ctx).

Lemma stranger_system k : blocked (RequireSystemPermission ctx k) w.
Proof. eapply blocked_enforced; [apply RequireSystemPermission_enforces|]. intros u Hu. by apply Hs. Qed.
Lemma stranger_group g k : k ≠ EmptyString → blocked (RequirePermissionForGroup ctx g k) w.
Proof.
  intros Hk. eapply blocked_enforced; [apply RequirePermission_enforces|]. intros u Hu. by eapply stranger_may.
Qed.
Lemma stranger_role_mutation role : blocked (requireRoleMutation ctx role) w.
Proof.
  unfold requireRoleMutation. destruct (Role_GroupID role) as [g|]; [|apply stranger_system].
  case_bool_decide; [apply stranger_system|by apply stranger_group].
Qed.
End Strangers.

(** The requests that act for a logged-in caller; an invitation is redeemed
    by its token, a password is changed by knowing it, and a personal group
    is created by the use cases themselves. *)
Definition acts_for_caller (r : Request) : bool :=
  match r with
  | ReqRegisterWithToken _ _ _ | ReqChangePassword _ _ _ | ReqEnsurePersonalGroup _ _ => false
  | _ => true
  end.

Ltac skip_read := apply blocked_then; [solve [preserve]|intros ? ? _ ?Hq].
Ltac stop lem := apply blocked_first; apply lem; first [assumption | eapply stranger_quiet; eassumption | done].

Section StrangerRequests.
Context {BC : Bcrypt} {SF : Skyfrost} (guc : bool).

Lemma stranger_CreateRole ctx p w : stranger (w_db w) ctx → blocked (CreateRole ctx p) w.
Proof.
  intros Hs. unfold CreateRole. case_bool_decide; [done|]. destruct (_ && _); [done|]. skip_read. cbv zeta.
  skip_read. pose proof (stranger_quiet _ _ _ Hq0 (stranger_quiet _ _ _ Hq Hs)) as Hs'.
  apply blocked_first. destruct (group_scoped _); [stop stranger_group|by apply stranger_system].
Qed.

Lemma stranger_blocked ctx r w : acts_for_caller r = true → stranger (w_db w) ctx → blocked (handle guc ctx r) w.
Proof.
  intros Hr Hs. destruct r; try done; simpl; try apply blocked_discard.
  - by apply stranger_CreateRole.
  - unfold UpdateRole. skip_read. destruct (Role_IsBuiltin _); [done|]. cbv zeta. skip_read.
    apply blocked_first, stranger_role_mutation. eapply stranger_quiet; [exact Hq0|]. by eapply stranger_quiet.
  - unfold DeleteRole. skip_read. destruct (Role_IsBuiltin _); [done|]. stop stranger_role_mutation.
  - unfold CreateGroup. stop stranger_system.
  - unfold UpdateGroupName. skip_read. destruct (negb _); [done|]. stop stranger_group.
  - unfold DeleteGroup. skip_read. destruct (negb _); [done|]. stop stranger_group.
  - unfold AddGroupMember. stop stranger_group.
  - unfold RemoveGroupMember. skip_read. destruct (bool_decide _); [done|]. stop stranger_group.
  - unfold UpdateGroupMemberRole. skip_read. apply blocked_first. destruct (bool_decide _).
    + apply stranger_system. by eapply stranger_quiet.
    + apply stranger_group; [by eapply stranger_quiet|done].
  - unfold CreateUser. stop stranger_system.
  - unfold DeleteUser. stop stranger_system.
  - unfold CreateRegistrationToken. stop stranger_system.
  - unfold CreateRegistrationTokenWithInfo. stop stranger_system.
Qed.
End StrangerRequests.

(** ** What a replacement of permissions does *)

Lemma set_role_permissions_id (d : DB) f : f (t_role_permissions d) = t_role_permissions d → set_role_permissions f d = d.
Proof. destruct d. unfold set_role_permissions. simpl. by intros ->. Qed.

Lemma set_role_permissions_ext (d : DB) f g :
  f (t_role_permissions d) = g (t_role_permissions d) → set_role_permissions f d = set_role_permissions g d.
Proof. unfold set_role_permissions. by intros ->. Qed.

Lemma set_role_permissions_compose f g (d : DB) :
  set_role_permissions f (set_role_permissions g d) = set_role_permissions (λ s, f (g s)) d.
Proof. done. Qed.

Definition of_role (rid : string) (keys : list string) : gset (string * string) := list_to_set (pair rid <$> keys).

Lemma elem_of_of_role rid keys r k : (r, k) ∈ of_role rid keys ↔ r = rid ∧ k ∈ keys.
Proof. unfold of_role. rewrite elem_of_list_to_set, list_elem_of_fmap. naive_solver. Qed.

Lemma RemoveRolePermission_Ok rid k w w' :
  RemoveRolePermission rid k w = (Ok tt, w') →
  w_db w' = set_role_permissions (λ s, s ∖ {[(rid, k)]}) (w_db w).
Proof.
  intros [H _]%exec_Ok. unfold x_RemoveRolePermission in H. case_bool_decide as Hin.
  - apply check_inv in H as [_ H]. by injection H as <-.
  - injection H as <-. symmetry. apply set_role_permissions_id. set_solver.
Qed.

Lemma AddRolePermission_Ok rid k w w' :
  AddRolePermission rid k w = (Ok tt, w') →
  w_db w' = set_role_permissions (λ s, {[(rid, k)]} ∪ s) (w_db w).
Proof.
  intros [H _]%exec_Ok. unfold x_AddRolePermission in H. do 2 apply check_inv in H as [_ H]. by injection H as <-.
Qed.

Lemma removes_Ok rid l w w' :
  for_each (RemoveRolePermission rid) l w = (Ok tt, w') →
  w_db w' = set_role_permissions (λ s, s ∖ of_role rid l) (w_db w).
Proof.
  revert w. induction l as [|k l IH]; intros w; simpl.
  - intros [= <-]. symmetry. apply set_role_permissions_id. unfold of_role. set_solver.
  - intros ([] & w1 & H1%RemoveRolePermission_Ok & H2%IH)%bind_inv_Ok. rewrite H2, H1, set_role_permissions_compose.
    apply set_role_permissions_ext. unfold of_role. simpl. set_solver.
Qed.

Lemma adds_Ok rid l w w' :
  for_each (AddRolePermission rid) l w = (Ok tt, w') →
  w_db w' = set_role_permissions (λ s, of_role rid l ∪ s) (w_db w).
Proof.
  revert w. induction l as [|k l IH]; intros w; simpl.
  - intros [= <-]. symmetry. apply set_role_permissions_id. unfold of_role. set_solver.
  - intros ([] & w1 & H1%AddRolePermission_Ok & H2%IH)%bind_inv_Ok. rewrite H2, H1, set_role_permissions_compose.
    apply set_role_permissions_ext. unfold of_role. simpl. set_solver.
Qed.

(** The permissions of [rid] become [keys]; those of other roles stay. *)
Definition with_role_keys (rid : string) (keys : list string) (d : DB) : DB :=
  set_role_permissions (λ s, filter (λ rk, fst rk ≠ rid) s ∪ of_role rid keys) d.

Lemma ReplacePermissions_Ok rid keys w w' :
  ReplacePermissions rid keys w = (Ok tt, w') → w_db w' = with_role_keys rid keys (w_db w).
Proof.
  intros (existing & w1 & H1 & H)%bind_inv_Ok.
  destruct (reads_Ok _ _ _ _ _ (reads_query _) H1) as [[= <-] Hof].
  apply bind_inv_Ok in H as ([] & w2 & H2%removes_Ok & H3%adds_Ok).
  rewrite H3, H2, (only_faults_db _ _ Hof), set_role_permissions_compose. apply set_role_permissions_ext. simpl.
  set (s := t_role_permissions (w_db w)). apply set_eq. intros [r k].
  rewrite !elem_of_union, elem_of_difference, elem_of_filter, !elem_of_of_role, !elem_of_elements,
    !elem_of_difference, !elem_of_list_to_set, elem_of_order_by, elem_of_role_keys. fold s. simpl.
  destruct (decide (r = rid)) as [->|Hne]; [|naive_solver].
  destruct (decide (k ∈ keys)); destruct (decide ((rid, k) ∈ s)); naive_solver.
Qed.

(** ** What a successful request did

    Inversion of a handler that succeeded: each read told the truth about
    tables that did not change, each requirement held. *)

Lemma read_inv_Ok {A B} (m : Go A) (k : A → Go B) f w b w' :
  reads m f → bind m k w = (Ok b, w') →
  ∃ a w1, f (w_now w) (w_db w) = Ok a ∧ quiet w w1 ∧ k a w1 = (Ok b, w').
Proof.
  intros Hm (a & w1 & E & Hk)%bind_inv_Ok. destruct (reads_Ok _ _ _ _ _ Hm E) as [? ?%only_faults_quiet]. eauto.
Qed.

Lemma quiet_inv_Ok {A B} (m : Go A) (k : A → Go B) w b w' :
  preserves quiet m → bind m k w = (Ok b, w') → ∃ a w1, m w = (Ok a, w1) ∧ quiet w w1 ∧ k a w1 = (Ok b, w').
Proof.
  intros Hm (a & w1 & E & Hk)%bind_inv_Ok. pose proof (Hm w) as Hq. rewrite E in Hq. eauto.
Qed.

Lemma enforces_Ok ctx (m : Go unit) P w w' a :
  enforces ctx m P w → m w = (Ok a, w') → quiet w w' ∧ ∃ u, current_user ctx = Ok u ∧ P (w_db w) u.
Proof. intros [Hof Hr] E. rewrite E in *. simpl in *. split; [by apply only_faults_quiet|done]. Qed.

Lemma require_inv_Ok {B} ctx (m : Go unit) (k : unit → Go B) P w b w' :
  enforces ctx m P w → bind m k w = (Ok b, w') →
  ∃ u w1, current_user ctx = Ok u ∧ P (w_db w) u ∧ quiet w w1 ∧ k tt w1 = (Ok b, w').
Proof.
  intros He ([] & w1 & E & Hk)%bind_inv_Ok. destruct (enforces_Ok _ _ _ _ _ _ He E) as [? (u & ? & ?)]. eauto 6.
Qed.

Lemma guard_keys_may d u g what keys :
  guard_keys d u g what keys = Ok tt → ∀ k, k ∈ keys → may d u g k.
Proof. rewrite guard_keys_Ok, Forall_forall. intros H k Hk. apply holds_may, H, Hk. Qed.

Lemma subset_inv_Ok {B} ctx g keys (k : unit → Go B) w b w' :
  bind (requireSubsetOfCaller ctx g keys) k w = (Ok b, w') →
  ∃ u w1, current_user ctx = Ok u ∧ (∀ key, key ∈ keys → may (w_db w) u g key) ∧ quiet w w1 ∧ k tt w1 = (Ok b, w').
Proof.
  intros ([] & w1 & Hg & Hq & Hk)%(read_inv_Ok _ _ _ _ _ _ (requireSubsetOfCaller_reads ctx g keys)).
  destruct (current_user ctx) as [u|]; [|done]. simpl in Hg. exists u, w1. split; [done|]. split; [|done].
  by eapply guard_keys_may.
Qed.

(** What the caller of a role operation must hold. *)
Definition may_set_keys (d : DB) (u : string) (gid : option string) (keys : list string) : Prop :=
  if group_scoped gid then
    may d u (default EmptyString gid) PermKey_GroupMembersManage ∧
    ∀ k, k ∈ keys → may d u (default EmptyString gid) k
  else granted d u SystemGroupID PermKey_SystemRoleManage.

Lemma may_set_keys_quiet w w' u gid keys : quiet w w' → may_set_keys (w_db w') u gid keys → may_set_keys (w_db w) u gid keys.
Proof. by intros [-> _]. Qed.

Definition new_role_row (r : Role) : RoleRow :=
  mkRoleRow (Role_ID r) (Role_GroupID r) (Role_Name r) (Role_Scope r) (Role_IsBuiltin r)
    (Some (Role_CreatedAt r)) (Some (Role_UpdatedAt r)).

Lemma roleRepo_Create_Ok id gid name scope w r w' :
  roleRepo_Create id gid name scope w = (Ok r, w') →
  t_roles (w_db w) !! id = None ∧
  r = mkRole id gid name scope false [] (w_now w) (w_now w) ∧
  w_db w' = set_roles (<[id := new_role_row r]>) (w_db w).
Proof.
  intros (row & w1 & H & [= <- <-])%bind_inv_Ok. apply on_err_Ok, exec_Ok in H as [H Hn].
  unfold x_CreateRole in H. apply check_inv in H as [_ H]. apply check_inv in H as [Hp H].
  do 2 apply check_inv in H as [_ H]. injection H as <- Hd.
  apply negb_true_iff, present_None in Hp. split; [done|]. split; [done|]. by rewrite <-Hd.
Qed.

Lemma with_role_keys_nil rid (d : DB) : (∀ k, (rid, k) ∉ t_role_permissions d) → with_role_keys rid [] d = d.
Proof.
  intros H. apply set_role_permissions_id. apply set_eq. intros [r k].
  rewrite elem_of_union, elem_of_filter, elem_of_of_role. simpl. set_solver.
Qed.

Lemma group_scoped_Some gid : group_scoped gid = true → gid = Some (default EmptyString gid).
Proof. by destruct gid. Qed.

(** The authorisation step of [CreateRole]. *)
Lemma create_authorised {B} ctx gid keys (k : unit → Go B) w b w' :
  bind (if group_scoped gid then
          RequirePermissionForGroup ctx (default EmptyString gid) PermKey_GroupMembersManage ;;;
          requireSubsetOfCaller ctx (default EmptyString gid) keys
        else RequireSystemPermission ctx PermKey_SystemRoleManage) k w = (Ok b, w') →
  ∃ u w1, current_user ctx = Ok u ∧ may_set_keys (w_db w) u gid keys ∧ quiet w w1 ∧ k tt w1 = (Ok b, w').
Proof.
  unfold may_set_keys. destruct (group_scoped gid) eqn:Eg.
  - intros ([] & w2 & H & Hk)%bind_inv_Ok.
    apply (require_inv_Ok _ _ _ _ _ _ _ (RequirePermission_enforces _ _ _ _)) in H as (u & w1 & Hu & Hm & Hq & Hs).
    destruct (reads_Ok _ _ _ _ _ (requireSubsetOfCaller_reads _ _ _) Hs) as [Hg Hof].
    rewrite Hu in Hg. simpl in Hg. exists u, w2. destruct Hq as [Hqd Hqn]. rewrite Hqd in Hg.
    split; [done|]. split; [split; [done|by eapply guard_keys_may]|]. split; [|done].
    etrans; [|by apply only_faults_quiet]. done.
  - intros (u & w1 & Hu & Hm & Hq & Hk)%(require_inv_Ok _ _ _ _ _ _ _ (RequireSystemPermission_enforces _ _ _)). eauto 6.
Qed.

Lemma CreateRole_Ok ctx p w role w' :
  store_ok (w_db w) → CreateRole ctx p w = (Ok role, w') →
  ∃ u, current_user ctx = Ok u ∧ may_set_keys (w_db w) u (CRP_GroupID p) (CRP_PermissionKeys p) ∧
       Forall (λ k, IsValidPermissionKey k = true ∧ key_scope k = CRP_Scope p) (CRP_PermissionKeys p) ∧
       t_roles (w_db w) !! Role_ID role = None ∧
       role = mkRole (Role_ID role) (CRP_GroupID p) (CRP_Name p) (CRP_Scope p) false (CRP_PermissionKeys p) (w_now w) (w_now w) ∧
       w_db w' = with_role_keys (Role_ID role) (CRP_PermissionKeys p)
                   (set_roles (<[Role_ID role := new_role_row role]>) (w_db w)).
Proof.
  intros Hok. unfold CreateRole. case_bool_decide as Hname; [done|].
  destruct (negb (bool_decide (CRP_Scope p = RoleScope_Normal)) && _) eqn:Hscope; [done|].
  intros ([] & w1 & Hv & Hq1 & H)%quiet_inv_Ok; [|preserve]. apply lift_Ok_inv in Hv.
  apply validatePermissionKeys_Ok in Hv; [|rewrite andb_false_iff, !negb_false_iff, !bool_decide_eq_true in Hscope; tauto].
  cbv zeta in H. apply quiet_inv_Ok in H as ([] & w2 & _ & Hq2 & H); [|preserve].
  apply create_authorised in H as (u & w3 & Hu & Hm & Hq3 & H).
  apply quiet_inv_Ok in H as (id & w4 & _ & Hq4 & H); [|preserve].
  apply bind_inv_Ok in H as (r & w5 & Hr & H).
  assert (quiet w w4) as Hq by (etrans; [exact Hq1|]; etrans; [exact Hq2|]; by etrans).
  apply roleRepo_Create_Ok in Hr as (Hnone & -> & Hd5). destruct Hq as [Eq En]. rewrite Eq in *.
  set (rid := "role-" +:+ id) in *. destruct Hq1 as [E1 _], Hq2 as [E2 _]. rewrite E2, E1 in Hm.
  exists u. split; [done|]. split; [done|]. split; [done|].
  assert (∀ k, (rid, k) ∉ t_role_permissions (w_db w)) as Hfresh.
  { intros k Hin. destruct (ok_perm _ Hok _ _ Hin) as (ro & Hro & _). congruence. }
  destruct (CRP_PermissionKeys p) as [|key keys] eqn:Ek.
  - injection H as <- <-. rewrite Hd5, En. simpl. split; [done|]. split; [done|].
    symmetry. by apply with_role_keys_nil.
  - apply bind_inv_Ok in H as ([] & w6 & Hrep%ReplacePermissions_Ok & [= <- <-]).
    simpl in Hrep. rewrite Hrep, Hd5, En. simpl. done.
Qed.

(** What [UpdateRole] leaves of the tables. *)
Definition rename_role (id name : string) (now : Instant) (d : DB) : DB :=
  match t_roles d !! id with
  | Some r => if bool_decide (name = ro_Name r) then d
              else set_roles (<[id := mkRoleRow (ro_ID r) (ro_GroupID r) name (ro_Scope r) (ro_IsBuiltin r) (ro_CreatedAt r) (Some now)]>) d
  | None => d
  end.
Definition new_keys (p : UpdateRoleParams) : list string :=
  if URP_OverwritePermKeys p then default [] (URP_PermissionKeys p) else [].
Definition updated_role (p : UpdateRoleParams) (now : Instant) (d : DB) : DB :=
  let d1 := match URP_Name p with Some name => rename_role (URP_ID p) name now d | None => d end in
  if URP_OverwritePermKeys p then with_role_keys (URP_ID p) (new_keys p) d1 else d1.

Lemma UpdateRoleName_Ok id name w w' :
  roleRepo_UpdateName id name w = (Ok tt, w') →
  (∀ r, t_roles (w_db w) !! id = Some r → ro_Name r ≠ name) →
  w_db w' = rename_role id name (w_now w) (w_db w).
Proof.
  intros [H _]%exec_Ok Hne. unfold x_UpdateRoleName in H. unfold rename_role.
  destruct (t_roles (w_db w) !! id) as [r|] eqn:Er; [|by injection H].
  do 2 apply check_inv in H as [_ H]. injection H as <-.
  rewrite bool_decide_eq_false_2; [done|]. intros ->. by apply (Hne r).
Qed.

Lemma rename_step (name : option string) id rname w u w' :
  (∀ r, t_roles (w_db w) !! id = Some r → ro_Name r = rname) →
  (match name with
   | Some n => if negb (bool_decide (n = rname)) then roleRepo_UpdateName id n else ret tt
   | None => ret tt
   end) w = (Ok u, w') →
  w_db w' = match name with Some n => rename_role id n (w_now w) (w_db w) | None => w_db w end.
Proof.
  intros Hn. destruct u. destruct name as [n|]; [|by intros [= <-]].
  case_bool_decide as E; simpl.
  - intros [= <-]. unfold rename_role. destruct (t_roles (w_db w) !! id) as [r|] eqn:Er; [|done].
    rewrite bool_decide_eq_true_2; [done|]. rewrite (Hn r) by done. done.
  - intros H. apply UpdateRoleName_Ok; [done|]. intros r Hr. rewrite (Hn r) by done. done.
Qed.

(** The caller may change a role of this group. *)
Definition may_change_role (d : DB) (u : string) (gid : option string) : Prop :=
  if group_scoped gid then may d u (default EmptyString gid) PermKey_GroupMembersManage
  else granted d u SystemGroupID PermKey_SystemRoleManage.

Lemma role_mutation_inv {B} ctx role (k : unit → Go B) w b w' :
  bind (requireRoleMutation ctx role) k w = (Ok b, w') →
  ∃ u w1, current_user ctx = Ok u ∧ may_change_role (w_db w) u (Role_GroupID role) ∧ quiet w w1 ∧ k tt w1 = (Ok b, w').
Proof.
  unfold requireRoleMutation, may_change_role, group_scoped.
  destruct (Role_GroupID role) as [g|]; simpl; [case_bool_decide; simpl|].
  - exact (require_inv_Ok _ _ _ _ _ _ _ (RequireSystemPermission_enforces _ _ _)).
  - exact (require_inv_Ok _ _ _ _ _ _ _ (RequirePermission_enforces _ _ _ _)).
  - exact (require_inv_Ok _ _ _ _ _ _ _ (RequireSystemPermission_enforces _ _ _)).
Qed.

(** A guard on the keys of [UpdateRole]: skipped when they are not replaced. *)
Lemma update_subset_inv {B} ctx (on : bool) g keys (k : unit → Go B) w b w' :
  bind (if on then requireSubsetOfCaller ctx g keys else ret tt) k w = (Ok b, w') →
  ∃ w1, (on = true → ∃ u, current_user ctx = Ok u ∧ ∀ key, key ∈ keys → may (w_db w) u g key) ∧
        quiet w w1 ∧ k tt w1 = (Ok b, w').
Proof.
  destruct on.
  - intros (u & w1 & Hu & Hm & Hq & Hk)%subset_inv_Ok. exists w1. split; [eauto|done].
  - intros H. exists w. split; [done|]. split; [reflexivity|exact H].
Qed.

Lemma UpdateRole_Ok ctx p w role w' :
  UpdateRole ctx p w = (Ok role, w') →
  ∃ u row, current_user ctx = Ok u ∧ t_roles (w_db w) !! URP_ID p = Some row ∧ ro_IsBuiltin row = false ∧
    may_change_role (w_db w) u (ro_GroupID row) ∧
    (URP_OverwritePermKeys p = true →
      validatePermissionKeys (ro_Scope row) (new_keys p) = Ok tt ∧
      (group_scoped (ro_GroupID row) = true →
        ∀ k, k ∈ new_keys p → may (w_db w) u (default EmptyString (ro_GroupID row)) k)) ∧
    w_db w' = updated_role p (w_now w) (w_db w) ∧ get_role (URP_ID p) (w_db w') = Ok role.
Proof.
  intros (r0 & w1 & Hr0 & [E1 N1] & H)%(read_inv_Ok _ _ _ _ _ _ (roleRepo_Get_reads _)).
  apply get_role_Ok in Hr0 as (row & Hrow & ->). simpl in H.
  destruct (ro_IsBuiltin row) eqn:Hb; [done|]. fold (new_keys p) in H.
  apply quiet_inv_Ok in H as ([] & w2 & Hv & [E2 N2] & H); [|preserve].
  apply role_mutation_inv in H as (u & w3 & Hu & Hm & [E3 N3] & H). simpl in Hm.
  apply update_subset_inv in H as (w4 & Hs & [E4 N4] & H).
  apply bind_inv_Ok in H as ([] & w5 & Hn & H).
  apply bind_inv_Ok in H as ([] & w6 & Hk & H).
  assert (w_db w4 = w_db w) as E by congruence. assert (w_now w4 = w_now w) as N by congruence.
  apply (rename_step _ _ (ro_Name row)) in Hn; [|intros r; rewrite E, Hrow; by intros [= <-]].
  destruct (reads_Ok _ _ _ _ _ (roleRepo_Get_reads _) H) as [Hg Hof%only_faults_db].
  exists u, row. rewrite E2, E1 in Hm. split; [done|]. split; [done|]. split; [done|]. split; [done|].
  split; [|split; [|by rewrite Hof]].
  - intros Ho. rewrite Ho in *. split; [by apply lift_Ok_inv in Hv|]. intros Hgs k Hk'. rewrite Hgs in Hs.
    destruct (Hs eq_refl) as (u' & Hu' & Hall). rewrite Hu in Hu'. injection Hu' as <-.
    specialize (Hall k Hk'). by rewrite E3, E2, E1 in Hall.
  - rewrite Hof. unfold updated_role. cbv zeta. rewrite E, N in Hn. rewrite <-Hn.
    destruct (URP_OverwritePermKeys p); [by apply ReplacePermissions_Ok in Hk|by injection Hk as <-].
Qed.

(** The caller holds every key of a role that is not empty. *)
Definition may_grant_role (d : DB) ctx (g rid : string) : Prop :=
  ∀ k, (rid, k) ∈ t_role_permissions d → ∃ u, current_user ctx = Ok u ∧ may d u g k.

Lemma subset_of_caller_inv {B} ctx g row rid (k : unit → Go B) w b w' :
  bind (requirePermSubsetOfCaller ctx g (dbRoleToEntity row (order_by String.leb (role_keys rid (w_db w))))) k w = (Ok b, w') →
  ∃ w1, may_grant_role (w_db w) ctx (Group_ID g) rid ∧ quiet w w1 ∧ k tt w1 = (Ok b, w').
Proof.
  unfold requirePermSubsetOfCaller. simpl.
  destruct (order_by String.leb (role_keys rid (w_db w))) as [|k0 ks] eqn:E; simpl.
  - intros H. exists w. split; [|split; [reflexivity|exact H]]. intros key Hin.
    apply elem_of_role_keys in Hin. rewrite <-(elem_of_order_by String.leb), E in Hin. by apply elem_of_nil in Hin.
  - intros ([] & w1 & H & Hk)%bind_inv_Ok.
    apply (read_inv_Ok _ _ _ _ _ _ (CurrentUserID_reads _)) in H as (u & w2 & Hu & [Eq En] & H).
    destruct (reads_Ok _ _ _ _ _ (require_keys_reads _ _ _ (k0 :: ks)) H) as [Hg Hof]. rewrite Eq in Hg.
    exists w1. split; [|split; [|done]].
    + intros key Hin. exists u. split; [done|]. eapply guard_keys_may; [exact Hg|].
      rewrite <-E. apply elem_of_order_by. by apply elem_of_role_keys.
    + etrans; [by split|by apply only_faults_quiet].
Qed.

(** What [AddGroupMember] and [UpdateGroupMemberRole] have in common: the role
    fits the group, and the caller may grant it. *)
Definition assignment_allowed (d : DB) ctx (gid rid : string) (g : GroupRow) (r : RoleRow) : Prop :=
  t_groups d !! gid = Some g ∧ t_roles d !! rid = Some r ∧
  canScopeBeAttachedToGroup (ro_Scope r) (gr_Type g) = true ∧ may_grant_role d ctx gid rid.

Lemma AddGroupMember_Ok ctx gid uid rid by_ w m w' :
  store_ok (w_db w) → AddGroupMember ctx gid uid rid by_ w = (Ok m, w') →
  ∃ u g r, current_user ctx = Ok u ∧ may (w_db w) u gid PermKey_GroupMembersManage ∧
    assignment_allowed (w_db w) ctx gid rid g r ∧ gr_Type g ≠ GroupType_Personal ∧
    t_group_members (w_db w) !! (gid, uid) = None ∧
    w_db w' = set_group_members (<[(gid, uid) := mkGroupMemberRow gid uid rid by_ (Some (w_now w))]>) (w_db w).
Proof.
  intros Hok H. unfold AddGroupMember in H.
  apply (require_inv_Ok _ _ _ _ _ _ _ (RequirePermission_enforces _ _ _ _)) in H as (u & w1 & Hu & Hm & [E1 N1] & H).
  apply (read_inv_Ok _ _ _ _ _ _ (groupRepo_Get_reads _)) in H as (g & w2 & Hg & [E2 N2] & H).
  case_bool_decide as Hp; [done|]. apply get_group_Ok in Hg as (grow & Hg & ->).
  apply (read_inv_Ok _ _ _ _ _ _ (roleRepo_Get_reads _)) in H as (role & w3 & Hr & [E3 N3] & H).
  apply get_role_Ok in Hr as (rrow & Hr & ->).
  destruct (negb _) eqn:Ha; [done|]. apply negb_false_iff in Ha.
  assert (w_db w3 = w_db w) as E by congruence. assert (w_now w3 = w_now w) as N by congruence.
  replace (w_db w2) with (w_db w3) in H by congruence.
  apply subset_of_caller_inv in H as (w4 & Hgr & [E4 N4] & H). rewrite E in Hgr.
  replace (w_db w1) with (w_db w) in Hg by congruence. replace (w_db w2) with (w_db w) in Hr by congruence.
  simpl in Hgr. rewrite (ok_group_id _ Hok _ _ Hg) in Hgr.
  apply bind_inv_Ok in H as (mrow & w5 & H & [= <- <-]). apply on_err_Ok, exec_Ok in H as [H _].
  unfold x_AddGroupMember in H. apply check_inv in H as [Hnew H]. do 4 apply check_inv in H as [_ H].
  injection H as <- Hd. apply negb_true_iff, present_None in Hnew.
  exists u, grow, rrow. split; [done|]. split; [done|]. split; [done|]. split; [done|].
  rewrite <-Hd, E4, N4, E, N in *. done.
Qed.

(** What changing the role of a member requires. *)
Definition may_change_member (d : DB) (u gid gtype : string) : Prop :=
  if bool_decide (gtype = GroupType_Personal) then granted d u SystemGroupID PermKey_SystemGroupManage
  else may d u gid PermKey_GroupMembersManage.

Lemma role_change_inv {B} ctx gid gtype (k : unit → Go B) w b w' :
  bind (if bool_decide (gtype = GroupType_Personal) then RequireSystemPermission ctx PermKey_SystemGroupManage
        else RequirePermissionForGroup ctx gid PermKey_GroupMembersManage) k w = (Ok b, w') →
  ∃ u w1, current_user ctx = Ok u ∧ may_change_member (w_db w) u gid gtype ∧ quiet w w1 ∧ k tt w1 = (Ok b, w').
Proof.
  unfold may_change_member. case_bool_decide.
  - exact (require_inv_Ok _ _ _ _ _ _ _ (RequireSystemPermission_enforces _ _ _)).
  - exact (require_inv_Ok _ _ _ _ _ _ _ (RequirePermission_enforces _ _ _ _)).
Qed.

Lemma UpdateGroupMemberRole_Ok ctx gid uid rid w m w' :
  store_ok (w_db w) → UpdateGroupMemberRole ctx gid uid rid w = (Ok m, w') →
  ∃ u g r, current_user ctx = Ok u ∧
    may_change_member (w_db w) u gid (gr_Type g) ∧
    assignment_allowed (w_db w) ctx gid rid g r ∧
    is_Some (t_group_members (w_db w) !! (gid, uid)) ∧
    w_db w' = set_group_members (alter (with_role rid) (gid, uid)) (w_db w).
Proof.
  intros Hok H. unfold UpdateGroupMemberRole in H.
  apply (read_inv_Ok _ _ _ _ _ _ (groupRepo_Get_reads _)) in H as (g & w1 & Hg & [E1 N1] & H).
  apply get_group_Ok in Hg as (grow & Hg & ->).
  apply role_change_inv in H as (u & w2 & Hu & Hm & [E2 N2] & H). rewrite E1 in Hm.
  apply (read_inv_Ok _ _ _ _ _ _ (roleRepo_Get_reads _)) in H as (role & w3 & Hr & [E3 N3] & H).
  apply get_role_Ok in Hr as (rrow & Hr & ->).
  destruct (negb _) eqn:Ha; [done|]. apply negb_false_iff in Ha.
  replace (w_db w2) with (w_db w3) in H by congruence.
  apply subset_of_caller_inv in H as (w4 & Hgr & [E4 N4] & H).
  assert (w_db w3 = w_db w) as E by congruence. rewrite E in Hgr. simpl in Hgr. rewrite (ok_group_id _ Hok _ _ Hg) in Hgr.
  apply (read_inv_Ok _ _ _ _ _ _ (memberRepo_Get_reads _ _)) in H as (m0 & w5 & Hm0 & [E5 N5] & H).
  apply bind_inv_Ok in H as ([] & w6 & Hup & H).
  destruct (reads_Ok _ _ _ _ _ (memberRepo_Get_reads _ _) H) as [_ Hof%only_faults_db].
  assert (is_Some (t_group_members (w_db w) !! (gid, uid))) as Hmem.
  { unfold get_member in Hm0. replace (w_db w4) with (w_db w) in Hm0 by congruence.
    destruct (t_group_members (w_db w) !! (gid, uid)); [eauto|done]. }
  exists u, grow, rrow. split; [done|]. split; [done|]. split.
  { replace (w_db w2) with (w_db w) in Hr by congruence. done. }
  split; [done|]. apply exec_Ok in Hup as [Hup _]. unfold x_UpdateGroupMemberRole in Hup.
  replace (w_db w5) with (w_db w) in Hup by congruence. rewrite (proj2 (present_Some _ _) Hmem) in Hup.
  apply check_inv in Hup as [_ Hup]. injection Hup as Hd. by rewrite Hof, <-Hd.
Qed.

Lemma RemoveGroupMember_Ok ctx gid uid w w' :
  store_ok (w_db w) → RemoveGroupMember ctx gid uid w = (Ok tt, w') →
  ∃ u g, current_user ctx = Ok u ∧ may (w_db w) u gid PermKey_GroupMembersManage ∧
    t_groups (w_db w) !! gid = Some g ∧ gr_Type g ≠ GroupType_Personal ∧
    (gr_Type g = GroupType_System → ∃ u' m, u' ≠ uid ∧ t_group_members (w_db w) !! (gid, u') = Some m) ∧
    w_db w' = set_group_members (delete (gid, uid)) (w_db w).
Proof.
  intros Hok H. unfold RemoveGroupMember in H.
  apply (read_inv_Ok _ _ _ _ _ _ (groupRepo_Get_reads _)) in H as (g & w1 & Hg & [E1 N1] & H).
  apply get_group_Ok in Hg as (grow & Hg & ->). simpl in H. case_bool_decide as Hp; [done|].
  apply (require_inv_Ok _ _ _ _ _ _ _ (RequirePermission_enforces _ _ _ _)) in H as (u & w2 & Hu & Hm & [E2 N2] & H).
  apply bind_inv_Ok in H as ([] & w3 & Hlast & [Hd _]%exec_Ok). injection Hd as Hd.
  exists u, grow. rewrite E1 in Hm. do 4 (split; [done|]).
  assert (w_db w2 = w_db w) as E by congruence.
  enough (w_db w3 = w_db w ∧ (gr_Type grow = GroupType_System → ∃ u' m, u' ≠ uid ∧ t_group_members (w_db w) !! (gid, u') = Some m))
    as [E3 Hother] by (split; [done|by rewrite <-Hd, E3]).
  case_bool_decide as Hsys.
  - apply (read_inv_Ok _ _ _ _ _ _ (memberRepo_ListByGroup_reads _)) in Hlast as (ms & w2' & [= <-] & [E2' _] & H).
    destruct (hasOther _ _) eqn:Ho; [|done]. injection H as <-. split; [congruence|]. intros _.
    unfold hasOther in Ho. apply existsb_exists in Ho as (x & Hx & Hne).
    apply negb_true_iff, bool_decide_eq_false in Hne.
    apply list_elem_of_In, list_elem_of_fmap in Hx as (m & -> & Hx). apply elem_of_order_by, list_elem_of_filter in Hx as [Hgm Hx].
    apply elem_of_rows_of in Hx as [[g' u'] Hk]. rewrite E in Hk.
    destruct (ok_member_key _ Hok _ _ _ Hk) as [Eg Eu]. simpl in Hne. exists u', m. split; [congruence|].
    congruence.
  - injection Hlast as <-. split; [done|]. intros; contradiction.
Qed.
