(* ===== verification/Registration.v ===== *)
(** * Invitations over time

    A registration token that was used stays used whatever requests follow,
    so it registers one user at most; registering is all or nothing. *)

From S2P Require Import Prelude Entity Models Queries Ports PermissionUsecase Repositories RoleUsecase.
From S2P Require Import GroupUsecase UserUsecase StoreInvariant PermissionInvariant PermissionSystem.
From S2P Require Import PermissionDecisions PermissionSafety.
From stdpp Require Import base gmap strings list sorting.
From Stdlib Require Import ZArith Lia.

(** ** Used tokens stay used *)

Definition used (h : string) (d : DB) : Prop :=
  ∃ t, t_registration_tokens d !! h = Some t ∧ is_Some (rt_UsedAt t).

Definition keeps_used (d d' : DB) : Prop := ∀ h, used h d → used h d'.
#[export] Instance keeps_used_preorder : PreOrder keeps_used.
Proof. split; [intros d h; done|intros d1 d2 d3 H1 H2 h Hu; by apply H2, H1]. Qed.

Lemma keeps_used_same d d' : t_registration_tokens d' = t_registration_tokens d → keeps_used d d'.
Proof. intros E h (t & Ht & Hu). exists t. by rewrite E. Qed.

Lemma keeps_used_delete_roles gone d : keeps_used d (delete_roles gone d).
Proof.
  intros h (t & Ht & Hu). exists (drop_role_refs gone t). simpl. rewrite lookup_fmap, Ht. split; [done|].
  unfold drop_role_refs. destruct (rt_PersonalRoleID t) as [r|]; [|done]. by destruct (gone r).
Qed.

Section Statements.
#[local] Abbreviation keeps := (preserves (db_rel keeps_used)).

(** A statement that does not touch the tokens. *)
Lemma keeps_exec {A} (f : Instant → DB → Result (A * DB)) :
  (∀ t d a d', f t d = Ok (a, d') → t_registration_tokens d' = t_registration_tokens d) → keeps (exec f).
Proof. intros H. apply preserves_exec; [apply _|]. intros. by eapply keeps_used_same, H. Qed.

(** Runs the checks of the statement and reads off its tables. *)
Ltac same_tokens x :=
  apply keeps_exec; intros ? ? ? ? H; unfold x in H;
  repeat first [apply check_inv in H as [_ H]
               | match type of H with (match ?o with _ => _ end) = _ => destruct o end];
  by simplify_eq/=.

Lemma keeps_CreateGroup id name ty : keeps (Queries.CreateGroup id name ty).
Proof. same_tokens x_CreateGroup. Qed.
Lemma keeps_UpdateGroupName id name : keeps (Queries.UpdateGroupName id name).
Proof. same_tokens x_UpdateGroupName. Qed.
Lemma keeps_AddGroupMember g u r b : keeps (Queries.AddGroupMember g u r b).
Proof. same_tokens x_AddGroupMember. Qed.
Lemma keeps_RemoveGroupMember g u : keeps (Queries.RemoveGroupMember g u).
Proof. same_tokens x_RemoveGroupMember. Qed.
Lemma keeps_UpdateGroupMemberRole g u r : keeps (Queries.UpdateGroupMemberRole g u r).
Proof. same_tokens x_UpdateGroupMemberRole. Qed.
Lemma keeps_CreateRole i g n s : keeps (Queries.CreateRole i g n s).
Proof. same_tokens x_CreateRole. Qed.
Lemma keeps_UpdateRoleName i n : keeps (Queries.UpdateRoleName i n).
Proof. same_tokens x_UpdateRoleName. Qed.
Lemma keeps_AddRolePermission r k : keeps (AddRolePermission r k).
Proof. same_tokens x_AddRolePermission. Qed.
Lemma keeps_RemoveRolePermission r k : keeps (RemoveRolePermission r k).
Proof. same_tokens x_RemoveRolePermission. Qed.
Lemma keeps_CreateUser i p r c : keeps (Queries.CreateUser i p r c).
Proof. same_tokens x_CreateUser. Qed.
Lemma keeps_DeleteUser i : keeps (Queries.DeleteUser i).
Proof. same_tokens x_DeleteUser. Qed.
Lemma keeps_UpdateUserPassword i p : keeps (UpdateUserPassword i p).
Proof. same_tokens x_UpdateUserPassword. Qed.

Lemma keeps_DeleteRole id : keeps (Queries.DeleteRole id).
Proof.
  apply preserves_exec; [apply _|]. intros t d a d' H. unfold x_DeleteRole in H. destruct (present _ _); [|by simplify_eq].
  do 2 apply check_inv in H as [_ H]. simplify_eq. apply keeps_used_delete_roles.
Qed.
Lemma keeps_DeleteGroup id : keeps (Queries.DeleteGroup id).
Proof.
  apply preserves_exec; [apply _|]. intros t d a d' H. unfold x_DeleteGroup in H. destruct (present _ _); [|by simplify_eq].
  cbv zeta in H. do 4 apply check_inv in H as [_ H]. simplify_eq. exact (keeps_used_delete_roles (role_of_group id d) d).
Qed.
Lemma keeps_CreateRegistrationToken h r e p : keeps (Queries.CreateRegistrationToken h r e p).
Proof.
  apply preserves_exec; [apply _|]. intros t d a d' H. unfold x_CreateRegistrationToken in H.
  apply check_inv in H as [_ H]. apply check_inv in H as [Hp H]. apply check_inv in H as [_ H].
  injection H as <- <-. apply negb_true_iff, present_None in Hp. intros h' (tk & Htk & Hu).
  exists tk. simpl. rewrite lookup_insert_ne; [done|]. intros ->. congruence.
Qed.
Lemma keeps_MarkRegistrationTokenUsed h : keeps (MarkRegistrationTokenUsed h).
Proof.
  apply preserves_exec; [apply _|]. intros t d a d' H. unfold x_MarkRegistrationTokenUsed in H.
  destruct (t_registration_tokens d !! h) as [tk|] eqn:Et; [|by simplify_eq].
  destruct (bool_decide _); simplify_eq; [|done]. intros h' (tk' & Htk' & Hu). unfold used. simpl.
  destruct (decide (h = h')) as [<-|]; [rewrite lookup_insert_eq; eauto|rewrite lookup_insert_ne by done; eauto].
Qed.
End Statements.
#[export] Hint Resolve keeps_CreateGroup keeps_UpdateGroupName keeps_AddGroupMember keeps_RemoveGroupMember
  keeps_UpdateGroupMemberRole keeps_CreateRole keeps_UpdateRoleName keeps_AddRolePermission keeps_RemoveRolePermission
  keeps_CreateUser keeps_DeleteUser keeps_UpdateUserPassword keeps_DeleteRole keeps_DeleteGroup
  keeps_CreateRegistrationToken keeps_MarkRegistrationTokenUsed : preserves.

Lemma quiet_keeps_used {A} (m : Go A) : preserves quiet m → preserves (db_rel keeps_used) m.
Proof. intros Hm w. destruct (Hm w) as [E _]. unfold db_rel. by rewrite E. Qed.

Lemma keeps_for_each {A} (f : A → Go unit) l :
  (∀ x, preserves (db_rel keeps_used) (f x)) → preserves (db_rel keeps_used) (for_each f l).
Proof. intros Hf. induction l; simpl; preserve. Qed.
#[export] Hint Resolve keeps_for_each : preserves.
#[export] Hint Extern 6 (preserves (db_rel keeps_used) _) => (apply quiet_keeps_used; solve [eauto with preserves]) : preserves.

Ltac keeps := preserve; try solve [apply quiet_keeps_used; preserve].

Section Requests.
Context {BC : Bcrypt} {SF : Skyfrost} (guc : bool).

Lemma keeps_ReplacePermissions rid keys : preserves (db_rel keeps_used) (ReplacePermissions rid keys).
Proof. unfold ReplacePermissions. keeps. Qed.
#[local] Hint Resolve keeps_ReplacePermissions : preserves.
Lemma keeps_memberRepo_Add g u r b : preserves (db_rel keeps_used) (memberRepo_Add g u r b).
Proof. simpl. unfold MemberRepository_Add. keeps. Qed.
Lemma keeps_groupRepo_Create i n t : preserves (db_rel keeps_used) (groupRepo_Create i n t).
Proof. simpl. unfold GroupRepository_Create. keeps. Qed.
Lemma keeps_roleRepo_Create i g n s : preserves (db_rel keeps_used) (roleRepo_Create i g n s).
Proof. simpl. unfold RoleRepository_Create. keeps. Qed.
#[local] Hint Resolve keeps_memberRepo_Add keeps_groupRepo_Create keeps_roleRepo_Create : preserves.

Lemma keeps_EnsurePersonalGroup uid rid : preserves (db_rel keeps_used) (EnsurePersonalGroupForUser uid rid).
Proof. unfold EnsurePersonalGroupForUser, ValidatePersonalRoleAssignable. cbv zeta. keeps. Qed.
#[local] Hint Resolve keeps_EnsurePersonalGroup : preserves.
Lemma keeps_createRegistrationToken r p : preserves (db_rel keeps_used) (createRegistrationToken guc r p).
Proof. unfold createRegistrationToken, validatePersonalRole, generateSecureToken, ValidatePersonalRoleAssignable. cbv zeta. keeps. Qed.
#[local] Hint Resolve keeps_createRegistrationToken : preserves.

Lemma keeps_CreateRole_uc ctx p : preserves (db_rel keeps_used) (RoleUsecase.CreateRole ctx p).
Proof. unfold RoleUsecase.CreateRole. cbv zeta. keeps. Qed.
Lemma keeps_UpdateRole_uc ctx p : preserves (db_rel keeps_used) (UpdateRole ctx p).
Proof. unfold UpdateRole, requireRoleMutation. cbv zeta. keeps. Qed.
Lemma keeps_registerTx h u p i t : preserves (db_rel keeps_used) (registerTx h u p i t).
Proof. unfold registerTx. cbv zeta. keeps. Qed.
Lemma keeps_RegisterWithToken t u p : preserves (db_rel keeps_used) (RegisterWithToken t u p).
Proof.
  unfold RegisterWithToken. cbv zeta. keeps. apply preserves_RunInTx; [apply _|]. apply keeps_registerTx.
Qed.
#[local] Hint Resolve keeps_CreateRole_uc keeps_UpdateRole_uc keeps_RegisterWithToken : preserves.

Lemma handle_keeps_used ctx r : preserves (db_rel keeps_used) (handle guc ctx r).
Proof.
  destruct r; simpl; unfold discard, RoleUsecase.DeleteRole, requireRoleMutation, GroupUsecase.CreateGroup,
    GroupUsecase.UpdateGroupName, GroupUsecase.DeleteGroup, GroupUsecase.AddGroupMember, GroupUsecase.RemoveGroupMember,
    GroupUsecase.UpdateGroupMemberRole, CreateUser, validatePersonalRole, ValidatePersonalRoleAssignable, DeleteUser,
    CreateRegistrationToken, CreateRegistrationTokenWithInfo, ChangePassword; keeps.
Qed.
End Requests.

(** ** Transactions *)

Lemma RunInTx_Fail {A} (fn : Go A) w e w' : RunInTx fn w = (Fail e, w') → w_db w' = w_db w.
Proof.
  unfold RunInTx, bind, query. destruct (statement_fails w); simpl; [by intros [= <- <-]|].
  destruct (fn _) as [[a|e'] w1]; [|by intros [= <- <-]].
  destruct (statement_fails w1); [by intros [= <- <-]|done].
Qed.

Lemma RunInTx_Ok {A} (fn : Go A) w a w' :
  RunInTx fn w = (Ok a, w') → ∃ w1 w2, quiet w w1 ∧ fn w1 = (Ok a, w2) ∧ w_db w' = w_db w2.
Proof.
  unfold RunInTx, bind, query. destruct (statement_fails w); simpl; [done|].
  destruct (fn (consume_fault w)) as [[a'|e'] w1] eqn:E; [|done].
  destruct (statement_fails w1); [done|]. intros [= <- <-]. by exists (consume_fault w), w1.
Qed.

(** ** What a registration does *)

(** The role the new user gets in his personal group. *)
Definition invited_role (t : RegistrationTokenRow) : string :=
  match rt_PersonalRoleID t with
  | Some r => if negb (bool_decide (r = EmptyString)) then r else SeedRoleID_Admin
  | None => SeedRoleID_Admin
  end.

Section Registering.
Context {BC : Bcrypt} {SF : Skyfrost}.

(** The tables after the registration of [uid] with the invitation [t]. *)
Definition registered (now : Instant) (h uid hash : string) (icon : option string) (t : RegistrationTokenRow) (d : DB) : DB :=
  let gid := uid +:+ "-personal" in
  set_registration_tokens (<[h := mark_used now (default t (t_registration_tokens d !! h))]>)
  (set_group_members (<[(gid, uid) := mkGroupMemberRow gid uid (invited_role t) None (Some now)]>)
  (set_groups (<[gid := mkGroupRow gid gid GroupType_Personal (Some now) (Some now)]>)
  (set_users (<[uid := mkUserRow uid hash (Some (rt_ResoniteID t)) icon (Some now) (Some now)]>) d))).

Lemma registerTx_Ok h uid hash icon t w user w' :
  registerTx h uid hash icon t w = (Ok user, w') →
  t_users (w_db w) !! uid = None ∧ t_groups (w_db w) !! (uid +:+ "-personal") = None ∧
  (∃ t0, t_registration_tokens (w_db w) !! h = Some t0 ∧ rt_UsedAt t0 = None) ∧
  w_db w' = registered (w_now w) h uid hash icon t (w_db w) ∧
  user = mkUserRow uid hash (Some (rt_ResoniteID t)) icon (Some (w_now w)) (Some (w_now w)).
Proof.
  intros ([] & w1 & H1 & H)%bind_inv_Ok. apply exec_Ok in H1 as [H1 N1].
  unfold x_CreateUser in H1. apply check_inv in H1 as [Hu H1]. injection H1 as D1.
  cbv zeta in H. apply bind_inv_Ok in H as (g & w2 & H2 & H). apply on_err_Ok, exec_Ok in H2 as [H2 N2].
  unfold x_CreateGroup in H2. apply check_inv in H2 as [_ H2]. apply check_inv in H2 as [Hg H2].
  apply check_inv in H2 as [_ H2]. injection H2 as _ D2.
  apply bind_inv_Ok in H as (m & w3 & H3 & H). apply on_err_Ok, exec_Ok in H3 as [H3 N3].
  unfold x_AddGroupMember in H3. do 5 apply check_inv in H3 as [_ H3]. injection H3 as _ D3.
  apply bind_inv_Ok in H as (n & w4 & [H4 N4]%exec_Ok & H). unfold x_MarkRegistrationTokenUsed in H4.
  destruct (negb (n =? 1)%Z) eqn:En; [done|]. apply negb_false_iff, Z.eqb_eq in En. subst n.
  destruct (reads_Ok _ _ _ _ _ (reads_query _) H) as [Hget Hof%only_faults_db].
  rewrite <-D3, <-D2, <-D1 in H4. simpl in H4.
  destruct (t_registration_tokens (w_db w) !! h) as [t0|] eqn:Et; [|done].
  case_bool_decide as Hun; [|done]. injection H4 as D4.
  apply negb_true_iff, present_None in Hu. rewrite <-D1 in Hg. apply negb_true_iff, present_None in Hg.
  split; [done|]. split; [done|]. split; [eauto|].
  assert (w_db w' = registered (w_now w) h uid hash icon t (w_db w)) as D.
  { rewrite Hof, <-D4. unfold registered. rewrite Et. rewrite N3, N2, N1. done. }
  split; [done|]. rewrite Hof in D. unfold q_GetUser in Hget. rewrite D in Hget.
  unfold registered in Hget. simpl in Hget. rewrite lookup_insert_eq in Hget. by injection Hget as <-.
Qed.

Lemma RegisterWithToken_inv token uid pw w user w' :
  RegisterWithToken token uid pw w = (Ok user, w') →
  let h := hashRegistrationToken token in
  ∃ t hash icon, t_registration_tokens (w_db w) !! h = Some t ∧ token_valid (w_now w) t = true ∧
    ComparePasswordAndHash pw hash = Ok tt ∧
    t_users (w_db w) !! uid = None ∧ t_groups (w_db w) !! (uid +:+ "-personal") = None ∧
    w_db w' = registered (w_now w) h uid hash icon t (w_db w) ∧
    user = mkUserRow uid hash (Some (rt_ResoniteID t)) icon (Some (w_now w)) (Some (w_now w)).
Proof.
  unfold RegisterWithToken. cbv zeta.
  intros (t & w1 & Ht & [E1 N1] & H)%(read_inv_Ok _ _ _ _ _ _ (reads_query _)).
  apply quiet_inv_Ok in H as (hash & w2 & Hh & [E2 N2] & H); [|preserve]. apply HashPassword_matches in Hh.
  apply quiet_inv_Ok in H as (icon & w3 & _ & [E3 N3] & H); [|preserve].
  apply RunInTx_Ok in H as (w4 & w5 & [E4 N4] & H & Hd).
  apply registerTx_Ok in H as (Hu & Hg & _ & D & Huser).
  assert (w_db w4 = w_db w) as E by congruence. assert (w_now w4 = w_now w) as N by congruence. rewrite E, N in *.
  unfold q_GetValidRegistrationToken in Ht.
  destruct (t_registration_tokens (w_db w) !! _) as [t0|] eqn:Et; [|done].
  destruct (token_valid (w_now w) t0) eqn:Ev; [|done]. injection Ht as ->.
  exists t, hash, icon. rewrite Hd. auto 10.
Qed.

Lemma RegisterWithToken_Fail token uid pw w e w' :
  RegisterWithToken token uid pw w = (Fail e, w') → w_db w' = w_db w.
Proof.
  intros H. unfold RegisterWithToken in H. cbv zeta in H.
  enough (∀ w1, quiet w w1 → ∀ m : Go UserRow, preserves quiet m ∨ (∃ fn, m = RunInTx fn) → m w1 = (Fail e, w') → w_db w' = w_db w) as Hk.
  { unfold bind in H. pose proof (quiet_query (q_GetValidRegistrationToken (hashRegistrationToken token)) w) as Q1.
    unfold GetValidRegistrationToken in H.
    destruct (query _ w) as [[t|e1] w1]; [|injection H as _ <-; by destruct Q1]. simpl in Q1.
    pose proof (quiet_HashPassword pw w1) as Q2.
    destruct (HashPassword pw w1) as [[hash|e2] w2]; [|injection H as _ <-; destruct Q1, Q2; simpl in *; congruence]. simpl in Q2.
    pose proof (quiet_fetchIconUrl (rt_ResoniteID t) w2) as Q3.
    destruct (fetchIconUrl _ w2) as [[icon|e3] w3]; [|injection H as _ <-; destruct Q1, Q2, Q3; simpl in *; congruence]. simpl in Q3.
    eapply Hk; [|right; eauto|exact H]. etrans; [exact Q1|]. by etrans. }
  intros w1 [E _] m [Hm|[fn ->]] Hm1.
  - destruct (Hm w1) as [Hq _]. rewrite Hm1 in Hq. simpl in Hq. congruence.
  - apply RunInTx_Fail in Hm1. congruence.
Qed.

(** What a registration does after its check of the token, which other
    requests may overtake. *)
Definition redeem (token userId password : string) (regToken : RegistrationTokenRow) : Go UserRow :=
  let* passwordHash := HashPassword password in
  let* iconUrl := fetchIconUrl (rt_ResoniteID regToken) in
  RunInTx (registerTx (hashRegistrationToken token) userId passwordHash iconUrl regToken).
Lemma RegisterWithToken_parts token uid pw :
  RegisterWithToken token uid pw = (let* regToken := GetValidRegistrationToken (hashRegistrationToken token) in redeem token uid pw regToken).
Proof. reflexivity. Qed.

(** The condition of the update decides, whatever the check had seen. *)
Lemma redeem_used token uid pw t w : used (hashRegistrationToken token) (w_db w) → blocked (redeem token uid pw t) w.
Proof.
  intros (t0 & Ht & Hu). apply blocked_then; [preserve|]. intros hash w1 _ [E1 _]. apply blocked_then; [preserve|]. intros icon w2 _ [E2 _].
  unfold blocked. destruct (RunInTx _ w2) as [[user|e] w'] eqn:E; [exfalso|split; [done|by apply RunInTx_Fail in E]].
  apply RunInTx_Ok in E as (w3 & w4 & [E3 _] & H & _). apply registerTx_Ok in H as (_ & _ & (t1 & Ht1 & Hn) & _).
  rewrite E3, E2, E1, Ht in Ht1. injection Ht1 as <-. rewrite Hn in Hu. by destruct Hu.
Qed.

(** A token that is used, or whose row is the used row of another store. *)
Lemma RegisterWithToken_used token uid pw w :
  used (hashRegistrationToken token) (w_db w) → blocked (RegisterWithToken token uid pw) w.
Proof.
  intros (t & Ht & Hu). unfold blocked.
  destruct (RegisterWithToken token uid pw w) as [[user|e] w'] eqn:E.
  - apply RegisterWithToken_inv in E as (t' & _ & _ & Ht' & Hv & _). rewrite Ht in Ht'. injection Ht' as <-.
    unfold token_valid in Hv. apply andb_true_iff in Hv as [_ Hv%bool_decide_eq_true].
    rewrite Hv in Hu. by destruct Hu.
  - by apply RegisterWithToken_Fail in E.
Qed.
End Registering.
