(* ===== verification/NoEscalation.v ===== *)
(** * Nobody grants what he does not hold

    [no_gain ctx d d']: whoever holds a permission in [d'] held it in [d]
    already, unless the caller of the request may use that permission on that
    group himself.  Every request except the change of a role's permissions
    and the creation of users has this property, whatever its outcome. *)

From S2P Require Import Prelude Entity Models Queries Ports PermissionUsecase Repositories RoleUsecase.
From S2P Require Import GroupUsecase UserUsecase StoreInvariant PermissionInvariant PermissionSystem.
From S2P Require Import PermissionDecisions PermissionSafety.
From stdpp Require Import base gmap strings list sorting.
From Stdlib Require Import ZArith Lia.

Implicit Types (w : World) (ctx : Ctx).

Definition no_gain ctx (d d' : DB) : Prop :=
  ∀ v g k, granted d' v g k → granted d v g k ∨ ∃ u, current_user ctx = Ok u ∧ may d u g k.

(** ** Changes that only take permissions away *)

Definition shrinks (d d' : DB) : Prop := ∀ v g k, granted d' v g k → granted d v g k.
#[export] Instance shrinks_preorder : PreOrder shrinks.
Proof. split; [intros d v g k; done|intros d1 d2 d3 H1 H2 v g k H; by apply H1, H2]. Qed.

Lemma shrinks_no_gain ctx d0 d d' : no_gain ctx d0 d → shrinks d d' → no_gain ctx d0 d'.
Proof. intros H Hs v g k Hg. by apply H, Hs. Qed.
Lemma no_gain_refl ctx d : no_gain ctx d d.
Proof. intros v g k H. by left. Qed.

Lemma shrinks_tables d d' :
  (∀ g u m', t_group_members d' !! (g, u) = Some m' → ∃ m, t_group_members d !! (g, u) = Some m ∧ gm_RoleID m' = gm_RoleID m) →
  (∀ r k, (r, k) ∈ t_role_permissions d' → (r, k) ∈ t_role_permissions d) → shrinks d d'.
Proof.
  intros Hm Hp v g k (m' & Hm' & Hk). destruct (Hm _ _ _ Hm') as (m & ? & E). exists m. rewrite <-E. auto.
Qed.

Lemma shrinks_same d d' :
  t_group_members d' = t_group_members d → t_role_permissions d' = t_role_permissions d → shrinks d d'.
Proof. intros E1 E2. apply shrinks_tables; rewrite ?E1, ?E2; eauto. Qed.

Section Statements.
#[local] Abbreviation shrinking := (preserves (db_rel shrinks)).

Ltac same_grants x :=
  apply preserves_exec; [typeclasses eauto|]; intros ? ? ? ? H; unfold x in H;
  repeat first [apply check_inv in H as [_ H]
               | match type of H with (match ?o with _ => _ end) = _ => destruct o end];
  simplify_eq/=; by apply shrinks_same.

Lemma shrinking_CreateGroup i n t : shrinking (Queries.CreateGroup i n t).
Proof. same_grants x_CreateGroup. Qed.
Lemma shrinking_UpdateGroupName i n : shrinking (Queries.UpdateGroupName i n).
Proof. same_grants x_UpdateGroupName. Qed.
Lemma shrinking_CreateRole i g n s : shrinking (Queries.CreateRole i g n s).
Proof. same_grants x_CreateRole. Qed.
Lemma shrinking_UpdateUserPassword i p : shrinking (UpdateUserPassword i p).
Proof. same_grants x_UpdateUserPassword. Qed.
Lemma shrinking_CreateRegistrationToken h r e p : shrinking (Queries.CreateRegistrationToken h r e p).
Proof. same_grants x_CreateRegistrationToken. Qed.

Lemma shrinking_RemoveGroupMember g u : shrinking (Queries.RemoveGroupMember g u).
Proof.
  apply preserves_exec; [typeclasses eauto|]. intros t d a d' [= _ <-]. apply shrinks_tables; simpl; [|done].
  intros g' u' m [_ ?]%lookup_delete_Some. eauto.
Qed.
Lemma shrinking_DeleteUser u : shrinking (Queries.DeleteUser u).
Proof.
  apply preserves_exec; [typeclasses eauto|]. intros t d a d' [= _ <-]. apply shrinks_tables; simpl; [|done].
  intros g' u' m (m0 & <- & [? _]%map_lookup_filter_Some)%lookup_fmap_Some. eauto.
Qed.

Lemma shrinks_delete_roles gone d : shrinks d (delete_roles gone d).
Proof. apply shrinks_tables; simpl; [eauto|]. intros r k [_ ?]%elem_of_filter. done. Qed.
Lemma shrinking_DeleteRole i : shrinking (Queries.DeleteRole i).
Proof.
  apply preserves_exec; [typeclasses eauto|]. intros t d a d' H. unfold x_DeleteRole in H.
  destruct (present _ _); [|by simplify_eq]. do 2 apply check_inv in H as [_ H]. injection H as _ <-.
  apply shrinks_delete_roles.
Qed.
Lemma shrinking_DeleteGroup i : shrinking (Queries.DeleteGroup i).
Proof.
  apply preserves_exec; [typeclasses eauto|]. intros t d a d' H. unfold x_DeleteGroup in H.
  destruct (present _ _); [|by simplify_eq]. cbv zeta in H. do 4 apply check_inv in H as [_ H]. injection H as _ <-.
  apply shrinks_tables; simpl.
  - intros g u m [? _]%map_lookup_filter_Some. eauto.
  - intros r k [_ ?]%elem_of_filter. done.
Qed.
End Statements.
#[export] Hint Resolve shrinking_CreateGroup shrinking_UpdateGroupName shrinking_CreateRole shrinking_UpdateUserPassword
  shrinking_CreateRegistrationToken shrinking_RemoveGroupMember shrinking_DeleteUser shrinking_DeleteRole
  shrinking_DeleteGroup : preserves.

Lemma quiet_shrinks {A} (m : Go A) : preserves quiet m → preserves (db_rel shrinks) m.
Proof. intros Hm w. destruct (Hm w) as [E _]. unfold db_rel. by rewrite E. Qed.
#[export] Hint Extern 6 (preserves (db_rel shrinks) _) => (apply quiet_shrinks; solve [eauto with preserves]) : preserves.

Lemma stays_shrinking {A} (m : Go A) ctx d0 w :
  preserves (db_rel shrinks) m → no_gain ctx d0 (w_db w) → stays (no_gain ctx d0) m w.
Proof. intros Hm H. eapply shrinks_no_gain; [exact H|apply Hm]. Qed.

Ltac shrinking := apply stays_shrinking; [preserve; try solve [apply quiet_shrinks; preserve]|try apply no_gain_refl].

(** ** Requests that give a role to a member *)

(** A row put into group_members grants what its role holds. *)
Lemma granted_member d g u m :
  ∀ v g' k, granted (set_group_members (<[(g, u) := m]>) d) v g' k →
  granted d v g' k ∨ (g' = g ∧ v = u ∧ (gm_RoleID m, k) ∈ t_role_permissions d).
Proof.
  intros v g' k (m' & Hm' & Hk). simpl in *.
  apply lookup_insert_Some in Hm' as [[[= <- <-] <-]|[_ Hm']]; [by right|left; by exists m'].
Qed.

Lemma granted_role_change d g u rid :
  ∀ v g' k, granted (set_group_members (alter (with_role rid) (g, u)) d) v g' k →
  granted d v g' k ∨ (g' = g ∧ v = u ∧ (rid, k) ∈ t_role_permissions d).
Proof.
  intros v g' k (m' & Hm' & Hk). simpl in *. rewrite lookup_alter in Hm'. case_decide as E.
  - simplify_eq. destruct (t_group_members d !! (g', v)); simplify_eq/=. by right.
  - left. by exists m'.
Qed.

Lemma subset_of_caller_Ok ctx g row rid w w' :
  requirePermSubsetOfCaller ctx g (dbRoleToEntity row (order_by String.leb (role_keys rid (w_db w)))) w = (Ok tt, w') →
  may_grant_role (w_db w) ctx (Group_ID g) rid.
Proof.
  intros H. destruct (subset_of_caller_inv ctx g row rid ret w tt w') as (w1 & ? & _); [|done].
  by erewrite bind_Ok.
Qed.

Lemma stays_no_gain_write {A} (f : Instant → DB → Result (A * DB)) ctx w :
  (∀ a d', f (w_now w) (w_db w) = Ok (a, d') → no_gain ctx (w_db w) d') → stays (no_gain ctx (w_db w)) (exec f) w.
Proof.
  intros H. apply stays_exec; [apply no_gain_refl|]. intros [a d'] Hx. by eapply H.
Qed.

Lemma AddGroupMember_no_gain ctx gid uid rid by_ w :
  store_ok (w_db w) → stays (no_gain ctx (w_db w)) (AddGroupMember ctx gid uid rid by_) w.
Proof.
  intros Hok. unfold AddGroupMember.
  apply stays_step; [preserve|apply no_gain_refl|]. intros [] w1 _ [E1 _] Hg1.
  eapply stays_read; [apply groupRepo_Get_reads|exact Hg1|]. intros g w2 Hg [E2 _] Hg2. rewrite E1 in Hg.
  case_bool_decide as Hpers; [done|]. apply get_group_Ok in Hg as (grow & Hg & ->).
  eapply stays_read; [apply roleRepo_Get_reads|exact Hg2|]. intros role w3 Hr [E3 _] Hg3.
  apply get_role_Ok in Hr as (rrow & Hr & ->). destruct (negb _); [done|].
  apply stays_step; [preserve|exact Hg3|]. intros [] w4 Hs [E4 _] Hg4.
  replace (w_db w2) with (w_db w3) in Hs by congruence. apply subset_of_caller_Ok in Hs.
  simpl in Hs. rewrite (ok_group_id _ Hok _ _ Hg) in Hs. assert (w_db w4 = w_db w) as E by congruence.
  replace (w_db w3) with (w_db w) in Hs by congruence.
  apply stays_write; [|done]. apply stays_on_err. rewrite <-E in *. apply stays_no_gain_write.
  intros m d' H. unfold x_AddGroupMember in H. do 5 apply check_inv in H as [_ H]. injection H as _ <-.
  intros v g' k [?|(-> & -> & Hk)]%granted_member; [by left|right]. by apply Hs.
Qed.

Lemma UpdateGroupMemberRole_no_gain ctx gid uid rid w :
  store_ok (w_db w) → stays (no_gain ctx (w_db w)) (UpdateGroupMemberRole ctx gid uid rid) w.
Proof.
  intros Hok. unfold UpdateGroupMemberRole.
  eapply stays_read; [apply groupRepo_Get_reads|apply no_gain_refl|]. intros g w1 Hg [E1 _] Hg1.
  apply get_group_Ok in Hg as (grow & Hg & ->).
  apply stays_step; [preserve|exact Hg1|]. intros [] w2 _ [E2 _] Hg2.
  eapply stays_read; [apply roleRepo_Get_reads|exact Hg2|]. intros role w3 Hr [E3 _] Hg3.
  apply get_role_Ok in Hr as (rrow & Hr & ->). destruct (negb _); [done|].
  apply stays_step; [preserve|exact Hg3|]. intros [] w4 Hs [E4 _] Hg4.
  replace (w_db w2) with (w_db w3) in Hs by congruence. apply subset_of_caller_Ok in Hs.
  simpl in Hs. rewrite (ok_group_id _ Hok _ _ Hg) in Hs.
  replace (w_db w3) with (w_db w) in Hs by congruence.
  apply stays_step; [preserve|exact Hg4|]. intros m w5 _ [E5 _] Hg5.
  assert (w_db w5 = w_db w) as E by congruence. rewrite <-E in *.
  apply stays_write.
  - apply stays_no_gain_write. intros [] d' H. unfold x_UpdateGroupMemberRole in H.
    destruct (present _ _); [|injection H as <-; apply no_gain_refl].
    apply check_inv in H as [_ H]. injection H as <-.
    intros v g' k [?|(-> & -> & Hk)]%granted_role_change; [by left|right]. by apply Hs.
  - intros ? w6 _ Hg6. apply stays_quiet; [preserve|exact Hg6].
Qed.

(** ** Creating groups and roles *)

Lemma seed_admin_not_system d k : store_ok d → (SeedRoleID_Admin, k) ∈ t_role_permissions d → is_system_key k = false.
Proof.
  intros Hok Hk.
  destruct (ok_seeds d Hok (mkSeed SeedRoleID_Admin "admin" RoleScope_Normal (resource_keys ++ [PermKey_GroupMembersManage; PermKey_GroupEdit]))
              ltac:(set_solver)) as [_ Hkeys].
  apply Hkeys in Hk. simpl in Hk. unfold resource_keys in Hk. simpl in Hk.
  repeat (apply elem_of_cons in Hk as [->|Hk]; [reflexivity|]). by apply elem_of_nil in Hk.
Qed.

Lemma CreateGroup_no_gain ctx name creator w :
  store_ok (w_db w) → stays (no_gain ctx (w_db w)) (GroupUsecase.CreateGroup ctx name creator) w.
Proof.
  intros Hok. unfold GroupUsecase.CreateGroup.
  apply stays_step; [preserve|apply no_gain_refl|]. intros [] w1 Hr [E1 _] Hg1.
  apply (enforces_Ok _ _ _ _ _ _ (RequireSystemPermission_enforces _ _ _)) in Hr as (_ & u & Hu & Hm).
  case_bool_decide; [done|]. apply stays_step; [preserve|exact Hg1|]. intros id w2 _ [E2 _] Hg2.
  apply stays_write.
  { apply stays_shrinking; [|exact Hg2]. simpl. unfold GroupRepository_Create. preserve. }
  intros g w3 Hc Hg3.
  assert (t_role_permissions (w_db w3) = t_role_permissions (w_db w)) as Ep.
  { apply bind_inv_Ok in Hc as (row & w3' & Hc & [= _ <-]). apply on_err_Ok, exec_Ok in Hc as [Hc _].
    unfold x_CreateGroup in Hc. do 3 apply check_inv in Hc as [_ Hc]. injection Hc as _ <-. simpl. by rewrite E2, E1. }
  apply stays_write; [|done]. apply stays_on_err. apply stays_write; [|done]. apply stays_on_err.
  apply stays_exec; [exact Hg3|]. intros [m d'] H'. unfold x_AddGroupMember in H'. do 5 apply check_inv in H' as [_ H'].
  injection H' as _ <-. intros v g' k [Hold|(-> & -> & Hk)]%granted_member; [by apply Hg3|].
  right. exists u. split; [done|]. simpl in Hk. rewrite Ep in Hk. right; right.
  split; [by eapply seed_admin_not_system|by right].
Qed.

(** While a role without members is filled, nobody gains anything. *)
Definition filling ctx (d0 : DB) (rid : string) (d : DB) : Prop :=
  no_gain ctx d0 d ∧ ∀ g u m, t_group_members d !! (g, u) = Some m → gm_RoleID m ≠ rid.

Lemma ReplacePermissions_filling ctx d0 rid keys w :
  filling ctx d0 rid (w_db w) → stays (filling ctx d0 rid) (ReplacePermissions rid keys) w.
Proof.
  intros H0. unfold ReplacePermissions. apply stays_step; [preserve|done|]. intros existing w1 _ _ H1. cbv zeta.
  apply stays_write; [|intros _ w2 _ H2]; apply for_each_stays; try done; intros k w3 _ [Hg Hm];
    apply stays_exec; try done; intros [[] d'] Hx.
  - unfold x_RemoveRolePermission in Hx. destruct (bool_decide _); [apply check_inv in Hx as [_ Hx]|]; injection Hx as <-; [|done].
    split; [|exact Hm]. eapply shrinks_no_gain; [exact Hg|]. apply shrinks_tables; simpl; [eauto|set_solver].
  - unfold x_AddRolePermission in Hx. do 2 apply check_inv in Hx as [_ Hx]. injection Hx as <-.
    split; [|exact Hm]. intros v g k' (m & Hmem & Hk'). apply Hg. exists m. split; [exact Hmem|].
    simpl in Hk'. apply elem_of_union in Hk' as [[= E _]%elem_of_singleton|?]; [|done]. by destruct (Hm _ _ _ Hmem).
Qed.

Lemma CreateRole_no_gain ctx p w :
  store_ok (w_db w) → stays (no_gain ctx (w_db w)) (RoleUsecase.CreateRole ctx p) w.
Proof.
  intros Hok. unfold RoleUsecase.CreateRole. case_bool_decide; [apply no_gain_refl|].
  destruct (_ && _); [apply no_gain_refl|].
  apply stays_step; [preserve|apply no_gain_refl|]. intros [] w1 _ [E1 _] Hg1. cbv zeta.
  apply stays_step; [preserve|exact Hg1|]. intros [] w2 _ [E2 _] Hg2.
  apply stays_step; [preserve|exact Hg2|]. intros [] w3 _ [E3 _] Hg3.
  apply stays_step; [preserve|exact Hg3|]. intros id w4 _ [E4 _] Hg4.
  apply stays_write.
  { apply stays_shrinking; [|exact Hg4]. simpl. unfold RoleRepository_Create. preserve. }
  intros role w5 Hr Hg5. destruct (CRP_PermissionKeys p) as [|key keys]; [exact Hg5|].
  apply roleRepo_Create_Ok in Hr as (Hnone & Hrole & Hd).
  apply stays_write; [|done].
  enough (stays (filling ctx (w_db w) (Role_ID role)) (ReplacePermissions (Role_ID role) (key :: keys)) w5) as Hs by apply Hs.
  apply ReplacePermissions_filling. split; [exact Hg5|]. intros g u m Hm E.
  rewrite Hd in Hm. simpl in Hm. replace (w_db w4) with (w_db w) in Hm, Hnone by congruence.
  destruct (ok_member _ Hok _ _ _ Hm) as (_ & ro & _ & Hro & _). rewrite E, Hrole in Hro. simpl in Hro. congruence.
Qed.

(** ** All of them *)

(** The requests whose effect on permissions is bounded by the caller's own. *)
Definition bounded_by_caller (r : Request) : bool :=
  match r with
  | ReqUpdateRole _ | ReqCreateUser _ _ _ _ | ReqRegisterWithToken _ _ _ | ReqEnsurePersonalGroup _ _ => false
  | _ => true
  end.

Section Requests.
Context {BC : Bcrypt} {SF : Skyfrost} (guc : bool).

Lemma handle_no_gain ctx r w :
  store_ok (w_db w) → bounded_by_caller r = true → no_gain ctx (w_db w) (w_db (handle guc ctx r w).2).
Proof.
  intros Hok Hr. change (stays (no_gain ctx (w_db w)) (handle guc ctx r) w).
  destruct r; try done; simpl; try apply stays_discard.
  - by apply CreateRole_no_gain.
  - unfold RoleUsecase.DeleteRole, requireRoleMutation. shrinking.
  - by apply CreateGroup_no_gain.
  - unfold GroupUsecase.UpdateGroupName. shrinking.
  - unfold GroupUsecase.DeleteGroup. shrinking.
  - by apply AddGroupMember_no_gain.
  - unfold GroupUsecase.RemoveGroupMember. shrinking.
  - by apply UpdateGroupMemberRole_no_gain.
  - unfold DeleteUser. shrinking.
  - unfold CreateRegistrationToken, createRegistrationToken, validatePersonalRole, generateSecureToken, ValidatePersonalRoleAssignable.
    cbv zeta. shrinking.
  - unfold CreateRegistrationTokenWithInfo, createRegistrationToken, validatePersonalRole, generateSecureToken, ValidatePersonalRoleAssignable.
    cbv zeta. shrinking.
  - unfold ChangePassword. shrinking.
Qed.
End Requests.
