(* ===== verification/PermissionTheorems.v ===== *)
(** * Properties of the permission system

    The theorems about groups, roles, memberships and users that the files
    before this one prepare, with witnesses at concrete stores. *)

From S2P Require Import Prelude Entity Models Queries Ports PermissionUsecase Repositories RoleUsecase.
From S2P Require Import GroupUsecase UserUsecase StoreInvariant PermissionInvariant PermissionSystem.
From S2P Require Import PermissionDecisions PermissionSafety Registration NoEscalation.
From stdpp Require Import base gmap strings list sorting.
From Stdlib Require Import ZArith Lia.

Implicit Types (w : World) (ctx : Ctx).

#[local] Existing Instance salted_Bcrypt.
#[local] Existing Instance offline_Skyfrost.

Lemma result_Ok {A} (m : Go A) w : is_Ok (m w).1 = true → ∃ a w', m w = (Ok a, w').
Proof. destruct (m w) as [[a|e] w']; [eauto|done]. Qed.

(** C1. Whatever requests arrive, from whomever, in whatever order, with any
    statement failing on the way, the permission tables stay well-formed: keys
    and foreign keys agree, roles only hold known keys of their scope,
    members only have roles their group's type admits, a personal group's
    member is its owner, the system group and the built-in roles are as
    seeded. *)
Theorem reachable_store_ok (BC : Bcrypt) (SF : Skyfrost) (guc : bool) (now : Instant) (d : DB) :
  reachable guc (migrated_DB now) d → store_ok d.
Proof. apply reachable_ok, migrated_ok. Qed.

(** The store after the system user created the user [alice]. *)
Definition alice_world : World :=
  run (handle true (user_ctx "system") (ReqCreateUser "alice" "password" "U-alice" EmptyString)) fresh_world.

Lemma alice_reachable : reachable true (migrated_DB 0%Z) (w_db alice_world).
Proof. eapply reachable_step; [apply reachable_start|]. unfold alice_world, run. by constructor. Qed.

Lemma alice_ok : store_ok (w_db alice_world).
Proof. eapply reachable_ok; [apply migrated_ok|apply alice_reachable]. Qed.

Lemma reachable_store_ok_witness :
  reachable true (migrated_DB 0%Z) (w_db alice_world) ∧ w_db alice_world ≠ migrated_DB 0%Z ∧ store_ok (w_db alice_world).
Proof.
  split; [exact alice_reachable|]. split.
  - intros E. apply (f_equal (λ d, bool_decide (is_Some (t_users d !! "alice")))) in E. vm_compute in E. discriminate.
  - apply (reachable_store_ok _ _ true 0%Z). exact alice_reachable.
Defined.

(** In every reachable store a personal group has one member at most, and
    that member is the user the group is named after. *)
Theorem personal_group_single_owner (BC : Bcrypt) (SF : Skyfrost) (guc : bool) (now : Instant) (d : DB) (g : string) (gr : GroupRow) (u v : string) :
  reachable guc (migrated_DB now) d →
  t_groups d !! g = Some gr → gr_Type gr = GroupType_Personal →
  is_Some (t_group_members d !! (g, u)) → is_Some (t_group_members d !! (g, v)) →
  g = u +:+ "-personal" ∧ u = v.
Proof.
  intros Hr Hg Ht [m Hm] [m' Hm']. apply reachable_ok in Hr; [|apply migrated_ok].
  destruct (ok_member _ Hr _ _ _ Hm) as (gr1 & ? & Hg1 & _ & _ & Hp1).
  destruct (ok_member _ Hr _ _ _ Hm') as (gr2 & ? & Hg2 & _ & _ & Hp2).
  rewrite Hg in Hg1, Hg2. simplify_eq. specialize (Hp1 Ht). specialize (Hp2 Ht).
  split; [done|]. apply (append_cancel_r _ _ "-personal"). congruence.
Qed.

Lemma personal_group_single_owner_witness :
  ∃ gr, t_groups (w_db alice_world) !! "alice-personal" = Some gr ∧ gr_Type gr = GroupType_Personal ∧
        is_Some (t_group_members (w_db alice_world) !! ("alice-personal", "alice")) ∧
        "alice-personal" = "alice" +:+ "-personal" ∧ "alice" = "alice".
Proof.
  eexists. split; [vm_compute; reflexivity|]. split; [reflexivity|].
  assert (is_Some (t_group_members (w_db alice_world) !! ("alice-personal", "alice"))) as Hm by (vm_compute; eauto).
  split; [exact Hm|]. eapply (personal_group_single_owner _ _ true 0%Z); [exact alice_reachable| | |exact Hm|exact Hm].
  - vm_compute. reflexivity.
  - reflexivity.
Defined.

(** A caller who holds no permission in any group, or is not
    authenticated, changes nothing: every request made on behalf of a caller
    answers an error and leaves the tables as they were, whatever statements
    fail. *)
Theorem stranger_changes_nothing (BC : Bcrypt) (SF : Skyfrost) (guc : bool) (ctx : Ctx) (r : Request) (w : World) :
  acts_for_caller r = true → stranger (w_db w) ctx →
  is_Ok (handle guc ctx r w).1 = false ∧ w_db (handle guc ctx r w).2 = w_db w.
Proof. apply stranger_blocked. Qed.

Lemma nobody_stranger d : stranger d context_Background.
Proof. intros u g k. unfold context_Background. simpl. discriminate. Qed.

Lemma stranger_changes_nothing_witness :
  let r := handle true context_Background (ReqDeleteUser "alice") alice_world in
  acts_for_caller (ReqDeleteUser "alice") = true ∧ is_Ok r.1 = false ∧ w_db r.2 = w_db alice_world.
Proof. split; [reflexivity|]. apply stranger_changes_nothing; [reflexivity|apply nobody_stranger]. Defined.

(** No request other than a role update or a user creation lets anyone
    gain a permission its caller does not hold on that group: whoever may do
    something by his roles afterwards could before, or the caller may do it
    himself.  This holds for requests that fail half-way too. *)
Theorem requests_grant_only_held (BC : Bcrypt) (SF : Skyfrost) (guc : bool) (ctx : Ctx) (r : Request) (w : World) :
  store_ok (w_db w) → bounded_by_caller r = true → no_gain ctx (w_db w) (w_db (handle guc ctx r w).2).
Proof. apply handle_no_gain. Qed.

Definition add_alice : Request := ReqAddGroupMember MigratedGroupID "alice" SeedRoleID_User None.

Lemma requests_grant_only_held_witness :
  let w' := (handle true (user_ctx "system") add_alice alice_world).2 in
  bounded_by_caller add_alice = true ∧ granted (w_db w') "alice" MigratedGroupID PermKey_HostRead ∧
  no_gain (user_ctx "system") (w_db alice_world) (w_db w').
Proof.
  split; [reflexivity|]. split.
  - eexists. split; [vm_compute; reflexivity|]. refine (bool_decide_eq_true_1 _ _). vm_compute. reflexivity.
  - apply requests_grant_only_held; [exact alice_ok|reflexivity].
Defined.

(** A role that [CreateRole] returns is a new row that is not built in and
    holds exactly the requested keys, all of them known keys of its scope; the
    caller manages the group and holds each key there, or manages global
    roles; nothing else in the store changed. *)
Theorem CreateRole_exact (ctx : Ctx) (p : CreateRoleParams) (w : World) (role : Role) (w' : World) :
  store_ok (w_db w) → RoleUsecase.CreateRole ctx p w = (Ok role, w') →
  (∃ u, current_user ctx = Ok u ∧ may_set_keys (w_db w) u (CRP_GroupID p) (CRP_PermissionKeys p)) ∧
  (∀ k, k ∈ CRP_PermissionKeys p → IsValidPermissionKey k = true ∧ key_scope k = CRP_Scope p) ∧
  t_roles (w_db w) !! Role_ID role = None ∧
  t_roles (w_db w') = <[Role_ID role := mkRoleRow (Role_ID role) (CRP_GroupID p) (CRP_Name p) (CRP_Scope p) false
                                          (Some (w_now w)) (Some (w_now w))]> (t_roles (w_db w)) ∧
  (∀ r k, (r, k) ∈ t_role_permissions (w_db w') ↔
          (r = Role_ID role ∧ k ∈ CRP_PermissionKeys p) ∨ (r ≠ Role_ID role ∧ (r, k) ∈ t_role_permissions (w_db w))) ∧
  t_group_members (w_db w') = t_group_members (w_db w).
Proof.
  intros Hok H. apply CreateRole_Ok in H as (u & Hu & Hm & Hv & Hnone & Hrole & Hd); [|done].
  split; [by exists u|]. split; [by rewrite Forall_forall in Hv|]. split; [done|]. rewrite Hd. simpl. split.
  { unfold new_role_row. rewrite Hrole. done. }
  split; [|done]. intros r k. rewrite elem_of_union, elem_of_filter, elem_of_of_role. simpl. tauto.
Qed.

Definition moderator : CreateRoleParams :=
  mkCreateRoleParams (Some MigratedGroupID) "moderator" RoleScope_Normal [PermKey_SessionRead; PermKey_SessionWrite].

Lemma moderator_writes : PermKey_SessionWrite ∈ CRP_PermissionKeys moderator.
Proof. unfold moderator. simpl. set_solver. Qed.

Lemma CreateRole_exact_witness :
  ∃ role w', RoleUsecase.CreateRole (user_ctx "system") moderator alice_world = (Ok role, w') ∧
             (Role_ID role, PermKey_SessionWrite) ∈ t_role_permissions (w_db w').
Proof.
  destruct (result_Ok (RoleUsecase.CreateRole (user_ctx "system") moderator) alice_world) as (role & w' & E);
    [vm_compute; reflexivity|]. exists role, w'. split; [exact E|].
  destruct (CreateRole_exact _ _ _ _ _ alice_ok E) as (_ & _ & _ & _ & Hk & _). rewrite Hk. left.
  split; [done|exact moderator_writes].
Defined.

(** An update of a role that succeeds changed a role that is not built
    in, on behalf of a caller who may manage it; when the keys are replaced
    they are exactly the requested ones, known keys of the role's scope, each
    held by the caller on the role's group; group, scope and the permissions
    of all other roles are as before, and the answer is what is stored. *)
Theorem UpdateRole_exact (ctx : Ctx) (p : UpdateRoleParams) (w : World) (role : Role) (w' : World) :
  UpdateRole ctx p w = (Ok role, w') →
  ∃ u row, current_user ctx = Ok u ∧ t_roles (w_db w) !! URP_ID p = Some row ∧ ro_IsBuiltin row = false ∧
    may_change_role (w_db w) u (ro_GroupID row) ∧
    (URP_OverwritePermKeys p = true →
      validatePermissionKeys (ro_Scope row) (new_keys p) = Ok tt ∧
      (group_scoped (ro_GroupID row) = true →
        ∀ k, k ∈ new_keys p → may (w_db w) u (default EmptyString (ro_GroupID row)) k)) ∧
    (∀ r k, (r, k) ∈ t_role_permissions (w_db w') ↔
            if URP_OverwritePermKeys p && bool_decide (r = URP_ID p) then k ∈ new_keys p
            else (r, k) ∈ t_role_permissions (w_db w)) ∧
    w_db w' = updated_role p (w_now w) (w_db w) ∧ get_role (URP_ID p) (w_db w') = Ok role.
Proof.
  intros (u & row & Hu & Hrow & Hb & Hm & Hk & Hd & Hg)%UpdateRole_Ok. exists u, row.
  do 5 (split; [done|]). split; [|done]. intros r k. rewrite Hd. unfold updated_role. cbv zeta.
  set (d1 := match URP_Name p with Some _ => _ | None => _ end).
  assert (t_role_permissions d1 = t_role_permissions (w_db w)) as E.
  { unfold d1, rename_role. destruct (URP_Name p); [|done]. rewrite Hrow. by case_bool_decide. }
  destruct (URP_OverwritePermKeys p); simpl; [|by rewrite E].
  rewrite elem_of_union, elem_of_filter, elem_of_of_role. simpl. rewrite E. case_bool_decide; naive_solver.
Qed.

Definition moderator_world : World := run (RoleUsecase.CreateRole (user_ctx "system") moderator) alice_world.
Definition moderator_id : string :=
  match (RoleUsecase.CreateRole (user_ctx "system") moderator alice_world).1 with Ok r => Role_ID r | Fail _ => EmptyString end.
Definition less : UpdateRoleParams := mkUpdateRoleParams moderator_id (Some "watcher") (Some [PermKey_SessionRead]) true.

Lemma less_drops : PermKey_SessionWrite ∉ new_keys less.
Proof. unfold less, new_keys. simpl. set_solver. Qed.

Lemma UpdateRole_exact_witness :
  ∃ role w', UpdateRole (user_ctx "system") less moderator_world = (Ok role, w') ∧
             (moderator_id, PermKey_SessionWrite) ∉ t_role_permissions (w_db w').
Proof.
  destruct (result_Ok (UpdateRole (user_ctx "system") less) moderator_world) as (role & w' & E);
    [vm_compute; reflexivity|]. exists role, w'. split; [exact E|].
  destruct (UpdateRole_exact _ _ _ _ _ E) as (u & row & _ & _ & _ & _ & _ & Hk & _).
  rewrite Hk. change (URP_OverwritePermKeys less) with true. change (URP_ID less) with moderator_id.
  rewrite bool_decide_eq_true_2 by reflexivity. exact less_drops.
Defined.

(** Removing a member from the system group never leaves it empty: when
    the removal succeeds another member is still there; and personal groups
    lose nobody. *)
Theorem RemoveGroupMember_keeps_system_member (ctx : Ctx) (gid uid : string) (w w' : World) :
  store_ok (w_db w) → RemoveGroupMember ctx gid uid w = (Ok tt, w') →
  ∃ g, t_groups (w_db w) !! gid = Some g ∧ gr_Type g ≠ GroupType_Personal ∧
       t_group_members (w_db w') !! (gid, uid) = None ∧
       (gr_Type g = GroupType_System → ∃ u', u' ≠ uid ∧ is_Some (t_group_members (w_db w') !! (gid, u'))).
Proof.
  intros Hok H. apply RemoveGroupMember_Ok in H as (u & g & _ & _ & Hg & Hp & Hs & Hd); [|done].
  exists g. split; [done|]. split; [done|]. rewrite Hd. simpl. split; [by rewrite lookup_delete_eq|].
  intros Ht. destruct (Hs Ht) as (u' & m & Hne & Hm). exists u'. split; [done|].
  rewrite lookup_delete_ne; [eauto|congruence].
Qed.

Definition two_admins : World :=
  run (handle true (user_ctx "system") (ReqAddGroupMember SystemGroupID "alice" SeedRoleID_SystemAdmin None)) alice_world.

Lemma two_admins_ok : store_ok (w_db two_admins).
Proof. eapply reachable_ok; [apply alice_ok|]. eapply (reachable_step true); [apply reachable_start|]. by constructor. Qed.

Lemma RemoveGroupMember_keeps_system_member_witness :
  ∃ w', RemoveGroupMember (user_ctx "system") SystemGroupID "alice" two_admins = (Ok tt, w') ∧
        t_group_members (w_db w') !! (SystemGroupID, "alice") = None.
Proof.
  destruct (result_Ok (RemoveGroupMember (user_ctx "system") SystemGroupID "alice") two_admins) as ([] & w' & E);
    [vm_compute; reflexivity|]. exists w'. split; [exact E|].
  by destruct (RemoveGroupMember_keeps_system_member _ _ _ _ _ two_admins_ok E) as (g & _ & _ & ? & _).
Defined.

(** The check of [RemoveGroupMember] and its statement are two: of two members
    of the system group that remove each other at the same time both may
    succeed, and nobody is left. *)
Definition may_remove (ctx : Ctx) (groupID userID : string) : Go unit :=
  let* g := groupRepo_Get groupID in
  if bool_decide (Group_Type g = GroupType_Personal) then fail (forbidden "cannot remove member from personal group")
  else
    RequirePermissionForGroup ctx groupID PermKey_GroupMembersManage ;;;
    (if bool_decide (Group_Type g = GroupType_System) then
       let* members := memberRepo_ListByGroup groupID in
       if negb (hasOther userID members)
       then fail (forbidden "cannot remove the last member of the system group") else ret tt
     else ret tt).
Lemma RemoveGroupMember_parts ctx gid uid w : RemoveGroupMember ctx gid uid w = (may_remove ctx gid uid ;;; memberRepo_Remove gid uid) w.
Proof.
  unfold RemoveGroupMember, may_remove, bind. destruct (groupRepo_Get gid w) as [[g|e] w1]; [|done]. case_bool_decide; [done|].
  destruct (RequirePermissionForGroup _ _ _ w1) as [[[]|e] w2]; [|done]. by case_match.
Qed.
Example members_remove_each_other :
  let w1 := (may_remove (user_ctx "system") SystemGroupID "alice" two_admins).2 in
  let w2 := (RemoveGroupMember (user_ctx "alice") SystemGroupID "system" w1).2 in
  is_Ok (may_remove (user_ctx "system") SystemGroupID "alice" two_admins).1 = true ∧
  is_Ok (RemoveGroupMember (user_ctx "alice") SystemGroupID "system" w1).1 = true ∧
  is_Ok (memberRepo_Remove SystemGroupID "alice" w2).1 = true ∧
  elements (filter (λ k, fst k = SystemGroupID) (dom (t_group_members (w_db (memberRepo_Remove SystemGroupID "alice" w2).2)))) = [].
Proof. vm_compute. repeat split. Qed.

Lemma ResolveListGroupFilter_exact_witness :
  ∃ gs all w', ResolveListGroupFilter "alice" PermKey_HostRead alice_world = (Ok (gs, all), w') ∧
               w_db w' = w_db alice_world ∧ gs = ["alice-personal"].
Proof.
  destruct (result_Ok (ResolveListGroupFilter "alice" PermKey_HostRead) alice_world) as ([gs all] & w' & E);
    [vm_compute; reflexivity|]. exists gs, all, w'. split; [exact E|]. split.
  - by apply (ResolveListGroupFilter_exact _ _ _ _ _ _ alice_ok) in E as [? _].
  - apply (f_equal (λ r, match r.1 with Ok x => fst x | Fail _ => [] end)) in E. simpl in E. rewrite <-E.
    vm_compute. reflexivity.
Defined.

(** ** Invitations and passwords *)

(** C3. Registering with an invitation is all or nothing.  A registration
    that fails, at whatever statement, leaves the tables as they were.  One
    that succeeds had a valid invitation and a free user id, and leaves
    exactly the new user with a hash of his password and the invitation's
    Resonite id, his personal group with himself in the invitation's role, and
    the invitation marked used. *)
Theorem RegisterWithToken_all_or_nothing (BC : Bcrypt) (SF : Skyfrost) (token uid pw : string) (w : World) :
  match RegisterWithToken token uid pw w with
  | (Fail _, w') => w_db w' = w_db w
  | (Ok user, w') =>
      let h := hashRegistrationToken token in
      ∃ t hash icon, t_registration_tokens (w_db w) !! h = Some t ∧ token_valid (w_now w) t = true ∧
        ComparePasswordAndHash pw hash = Ok tt ∧
        t_users (w_db w) !! uid = None ∧ t_groups (w_db w) !! (uid +:+ "-personal") = None ∧
        w_db w' = registered (w_now w) h uid hash icon t (w_db w) ∧
        user = mkUserRow uid hash (Some (rt_ResoniteID t)) icon (Some (w_now w)) (Some (w_now w))
  end.
Proof.
  destruct (RegisterWithToken token uid pw w) as [[user|e] w'] eqn:E;
    [by apply RegisterWithToken_inv in E|by eapply RegisterWithToken_Fail].
Qed.

(** Any number of requests by anyone. *)
Lemma reachable_keeps_used (BC : Bcrypt) (SF : Skyfrost) guc d d' : reachable guc d d' → keeps_used d d'.
Proof.
  induction 1 as [|d1 d2 _ IH [ctx r w <-]]; [reflexivity|]. etrans; [exact IH|].
  exact (handle_keeps_used guc ctx r w).
Qed.

(** An invitation registers one user: after a registration with it
    succeeded, and after any requests that follow, another attempt with the
    same token fails and changes nothing. *)
Theorem registration_token_single_use (BC : Bcrypt) (SF : Skyfrost) (guc : bool) (token uid pw uid2 pw2 : string)
    (w w' w2 : World) (user : UserRow) :
  RegisterWithToken token uid pw w = (Ok user, w') → reachable guc (w_db w') (w_db w2) →
  is_Ok (RegisterWithToken token uid2 pw2 w2).1 = false ∧ w_db (RegisterWithToken token uid2 pw2 w2).2 = w_db w2.
Proof.
  intros H Hr. apply RegisterWithToken_used. eapply reachable_keeps_used; [exact Hr|].
  apply RegisterWithToken_inv in H as (t & hash & icon & Ht & _ & _ & _ & _ & Hd & _). cbv zeta in *. rewrite Hd.
  eexists. unfold registered. simpl. rewrite lookup_insert_eq. split; [done|]. eauto.
Qed.

(** C4. After a registration succeeded, and after any requests that follow, neither
    another attempt with the same token nor what is left of an attempt whose
    check of the token came before, whatever that check returned, succeeds or
    changes anything: of any number of registrations that race for an
    invitation one wins. *)
Theorem registration_token_race (BC : Bcrypt) (SF : Skyfrost) (guc : bool) (token uid pw uid2 pw2 : string)
    (w w' w2 : World) (user : UserRow) (checked : RegistrationTokenRow) :
  RegisterWithToken token uid pw w = (Ok user, w') → reachable guc (w_db w') (w_db w2) →
  blocked (RegisterWithToken token uid2 pw2) w2 ∧ blocked (redeem token uid2 pw2 checked) w2.
Proof.
  intros H Hr. assert (used (hashRegistrationToken token) (w_db w2)) as Hu; [|split; [by apply RegisterWithToken_used|by apply redeem_used]].
  eapply reachable_keeps_used; [exact Hr|]. apply RegisterWithToken_inv in H as (t & hash & icon & _ & _ & _ & _ & _ & Hd & _).
  cbv zeta in *. rewrite Hd. eexists. unfold registered. simpl. rewrite lookup_insert_eq. split; [done|]. eauto.
Qed.

Definition invited : Result string * World := CreateRegistrationToken true (user_ctx "system") "U-bob" SeedRoleID_User alice_world.
Definition bob_token : string := match invited.1 with Ok t => t | Fail _ => EmptyString end.

Lemma registration_token_single_use_witness :
  ∃ user w', RegisterWithToken bob_token "bob" "secret" invited.2 = (Ok user, w') ∧
    is_Ok (RegisterWithToken bob_token "mallory" "secret" w').1 = false.
Proof.
  destruct (result_Ok (RegisterWithToken bob_token "bob" "secret") invited.2) as (user & w' & E);
    [vm_compute; reflexivity|]. exists user, w'. split; [exact E|].
  apply (registration_token_single_use _ _ true _ _ _ "mallory" "secret" _ _ w' _ E (reachable_start _ _)).
Defined.

(** Mallory's check of the token comes before bob's registration, the rest after it. *)
Lemma registration_token_race_witness :
  ∃ t user w' , (GetValidRegistrationToken (hashRegistrationToken bob_token) invited.2).1 = Ok t ∧
    RegisterWithToken bob_token "bob" "secret" invited.2 = (Ok user, w') ∧
    is_Ok (redeem bob_token "mallory" "secret" t w').1 = false.
Proof.
  destruct (result_Ok (GetValidRegistrationToken (hashRegistrationToken bob_token)) invited.2) as (t & w0 & E0); [vm_compute; reflexivity|].
  destruct (result_Ok (RegisterWithToken bob_token "bob" "secret") invited.2) as (user & w' & E); [vm_compute; reflexivity|].
  exists t, user, w'. split; [by rewrite E0|]. split; [exact E|].
  exact (proj1 (proj2 (registration_token_race _ _ true _ _ _ "mallory" "secret" _ _ w' _ t E (reachable_start _ _)))).
Defined.

(** A new invitation is stored under the hash of its token only, for the
    invited Resonite account, and can be redeemed exactly until its expiry 24
    hours after it was issued. *)
Theorem registration_token_lifetime (guc : bool) (res rid : string) (w : World) (tok : string) (exp : Instant) (w' : World) :
  createRegistrationToken guc res rid w = (Ok (tok, exp), w') →
  exp = (w_now w + 24 * 3600 * time_Second)%Z ∧
  ∃ t, rt_Token t = hashRegistrationToken tok ∧ rt_ResoniteID t = res ∧
    t_registration_tokens (w_db w) !! rt_Token t = None ∧
    t_registration_tokens (w_db w') = <[rt_Token t := t]> (t_registration_tokens (w_db w)) ∧
    ∀ now, q_GetValidRegistrationToken (hashRegistrationToken tok) now (w_db w') =
           if (now <? exp)%Z then Ok t else Fail (ESent ErrNoRows).
Proof.
  intros ([] & w1 & _ & [E1 N1] & H)%quiet_inv_Ok; [|unfold validatePersonalRole; preserve].
  apply quiet_inv_Ok in H as (tok' & w2 & _ & [E2 N2] & H); [|unfold generateSecureToken; preserve].
  apply bind_inv_Ok in H as (now & w3 & [= <- <-] & H). cbv zeta in H.
  apply bind_inv_Ok in H as ([] & w4 & [Hx N4]%exec_Ok & [= <- <- <-]).
  unfold x_CreateRegistrationToken in Hx. apply check_inv in Hx as [_ Hx]. apply check_inv in Hx as [Hp Hx].
  apply check_inv in Hx as [_ Hx]. injection Hx as Hd. apply negb_true_iff, present_None in Hp.
  rewrite N2, N1 in *. rewrite E2, E1 in *. split; [done|]. set (h := hashRegistrationToken tok') in *.
  match type of Hd with set_registration_tokens (insert _ ?t) _ = _ => exists t end.
  split; [done|]. split; [done|]. split; [done|]. split; [by rewrite <-Hd|]. intros now. unfold q_GetValidRegistrationToken. rewrite <-Hd. simpl.
  rewrite lookup_insert_eq. unfold token_valid. simpl. by destruct (now <? _)%Z.
Qed.

Lemma registration_token_lifetime_witness :
  ∃ tok exp w', createRegistrationToken true "U-bob" EmptyString alice_world = (Ok (tok, exp), w') ∧
                exp = (w_now alice_world + 24 * 3600 * time_Second)%Z.
Proof.
  destruct (result_Ok (createRegistrationToken true "U-bob" EmptyString) alice_world) as ([tok exp] & w' & E);
    [vm_compute; reflexivity|]. exists tok, exp, w'. split; [exact E|].
  apply (registration_token_lifetime _ _ _ _ _ _ _ E).
Defined.

(** A password change that succeeds proved the old password, asks for at
    least 8 characters, changes the hash of that one user and nothing else,
    and the new password then logs the user in (the system user excepted, who
    never logs in). *)
Theorem ChangePassword_exact (BC : Bcrypt) (uid old new : string) (w w' : World) :
  ChangePassword uid old new w = (Ok tt, w') →
  ∃ u hash, t_users (w_db w) !! uid = Some u ∧ ComparePasswordAndHash old (us_Password u) = Ok tt ∧
    (8 <= String.length new)%nat ∧ ComparePasswordAndHash new hash = Ok tt ∧
    let u' := mkUserRow (us_ID u) hash (us_ResoniteID u) (us_IconUrl u) (us_CreatedAt u) (Some (w_now w)) in
    w_db w' = set_users (<[uid := u']>) (w_db w) ∧
    (uid ≠ SystemUserID → w_faults w' = [] → GetUserWithPassword uid new w' = (Ok u', w')).
Proof.
  intros (u & w1 & Hu & [E1 N1] & H)%(read_inv_Ok _ _ _ _ _ _ (reads_query _)).
  unfold q_GetUser in Hu. destruct (t_users (w_db w) !! uid) as [u0|] eqn:Eu; [|done]. injection Hu as ->.
  destruct (ComparePasswordAndHash old (us_Password u)) as [[]|] eqn:Ec; [|done].
  destruct (_ <? _)%nat eqn:El; [done|]. apply Nat.ltb_ge in El.
  apply quiet_inv_Ok in H as (hash & w2 & Hh & [E2 N2] & H); [|preserve]. apply HashPassword_matches in Hh.
  apply exec_Ok in H as [[= Hd] Nw]. exists u, hash. do 4 (split; [done|]). cbv zeta.
  assert (w_db w' = set_users (<[uid := mkUserRow (us_ID u) hash (us_ResoniteID u) (us_IconUrl u) (us_CreatedAt u) (Some (w_now w))]>) (w_db w)) as D.
  { rewrite <-Hd, E2, E1, N2, N1. unfold set_users. f_equal. apply map_eq. intros i. rewrite lookup_alter, lookup_insert.
    repeat case_decide; subst; try done. by rewrite Eu. }
  split; [done|]. intros Hsys Hf. unfold GetUserWithPassword. rewrite bool_decide_eq_false_2 by done.
  rewrite (bind_Ok _ _ _ (mkUserRow (us_ID u) hash (us_ResoniteID u) (us_IconUrl u) (us_CreatedAt u) (Some (w_now w))) w').
  - erewrite bind_Ok; [reflexivity|]. simpl. unfold lift. by rewrite Hh.
  - unfold Queries.GetUser. rewrite (reads_run _ _ _ (reads_query _) Hf), D. unfold q_GetUser. simpl.
    by rewrite lookup_insert_eq.
Qed.

Lemma ChangePassword_exact_witness :
  ∃ w', ChangePassword "alice" "password" "correct horse" alice_world = (Ok tt, w') ∧
        ∃ u', GetUserWithPassword "alice" "correct horse" w' = (Ok u', w').
Proof.
  destruct (result_Ok (ChangePassword "alice" "password" "correct horse") alice_world) as ([] & w' & E);
    [vm_compute; reflexivity|]. exists w'. split; [exact E|].
  destruct (ChangePassword_exact _ _ _ _ _ _ E) as (u & hash & _ & _ & _ & _ & _ & Hlogin). eexists. apply Hlogin; [discriminate|].
  apply (f_equal (λ r, w_faults r.2)) in E. simpl in E. rewrite <-E. vm_compute. reflexivity.
Defined.

(** ** What the handlers do not prevent

    Runs of the handlers, one request after the other, over the migrated
    store. *)

Definition serve (l : list (string * Request)) (w : World) : World :=
  fold_left (λ w cr, run (handle true (user_ctx (fst cr)) (snd cr)) w) l w.
(** The answers along the way: did each request succeed? *)
Fixpoint answers (l : list (string * Request)) (w : World) : list bool :=
  match l with
  | [] => []
  | (u, r) :: l' => let p := handle true (user_ctx u) r w in is_Ok p.1 :: answers l' p.2
  end.

(** The identifiers the concrete world draws. *)
Definition drawn (n : nat) : string := w_uniuri fresh_world n.

(** Mallory may only manage the members of the group drawn first.  He makes a
    role in his own personal group while it is empty, gives it to himself in
    the other group, and then fills it with what he holds at home. *)
Definition foreign_role : string := "role-" +:+ drawn 2.
Definition prepare : list (string * Request) := [
  ("system", ReqCreateUser "mallory" "password" "U-m" EmptyString);
  ("system", ReqCreateGroup "shared" "system");
  ("system", ReqCreateRole (mkCreateRoleParams None "member-manager" RoleScope_Normal [PermKey_GroupMembersManage]));
  ("system", ReqAddGroupMember (drawn 0) "mallory" ("role-" +:+ drawn 1) None) ].
Definition attack : list (string * Request) := [
  ("mallory", ReqCreateRole (mkCreateRoleParams (Some "mallory-personal") "mine" RoleScope_Normal []));
  ("mallory", ReqUpdateGroupMemberRole (drawn 0) "mallory" foreign_role);
  ("mallory", ReqUpdateRole (mkUpdateRoleParams foreign_role None (Some [PermKey_HostWrite]) true)) ].

(** A role of one group can be assigned in another, so a later change of the
    role gives its author permissions on a group where he held none of them:
    every request of the attack succeeds and Mallory ends up with host:write
    on the shared group. *)
Theorem foreign_role_escalates :
  let w0 := serve prepare fresh_world in
  answers (prepare ++ attack) fresh_world = repeat true 7 ∧
  holds (w_db w0) "mallory" (drawn 0) PermKey_HostWrite = false ∧
  holds (w_db (serve attack w0)) "mallory" (drawn 0) PermKey_HostWrite = true.
Proof. vm_compute. done. Qed.

(** The personal group of a deleted user stays, so the same user id cannot be
    given a personal group again: the second creation fails, and leaves the
    user without one. *)
Theorem deleted_user_blocks_his_id :
  let l := [("system", ReqDeleteUser "alice"); ("system", ReqCreateUser "alice" "password" "U-alice" EmptyString)] in
  let d := w_db (serve l alice_world) in
  answers l alice_world = [true; false] ∧
  present "alice-personal" (t_groups (w_db (serve [("system", ReqDeleteUser "alice")] alice_world))) = true ∧
  present "alice" (t_users d) = true ∧ present ("alice-personal", "alice") (t_group_members d) = false.
Proof. vm_compute. done. Qed.

(** [RemoveGroupMember] keeps the last member of the system group, deleting
    that member's user does not: the group can be emptied. *)
Theorem system_group_can_be_emptied :
  let l := [("alice", ReqRemoveGroupMember SystemGroupID "system"); ("alice", ReqDeleteUser "alice")] in
  answers l two_admins = [true; true] ∧
  filter (λ m, gm_GroupID m = SystemGroupID) (rows_of (t_group_members (w_db (serve l two_admins)))) = [].
Proof. vm_compute. done. Qed.
