(* ===== verification/Resources.v ===== *)
(** * Hosts, sessions and accounts, as the permission checks look them up

    The lookups by key of [src/db/hosts.sql.go], [src/db/sessions.sql.go] and
    [src/db/headless_accounts.sql.go], and what
    [src/adapter/headless_host_repository.go],
    [src/adapter/session_repository.go] and
    [src/usecase/headless_account_usecase.go] make of the rows.  The JSON
    decoding of the startup parameters is generated code: a parameter. *)

From S2P Require Import Prelude Entity Json Headless Models Queries Repositories.
From stdpp Require Import base gmap strings list.
From Stdlib Require Import ZArith.

(** ** Statements *)

Definition q_GetHost (id : string) (_ : Instant) (d : DB) : Result HostRow := row_or_ErrNoRows (t_hosts d !! id).
Definition GetHost id : Go HostRow := query (q_GetHost id).
Definition q_GetSession (id : string) (_ : Instant) (d : DB) : Result SessionRow := row_or_ErrNoRows (t_sessions d !! id).
Definition GetSession id : Go SessionRow := query (q_GetSession id).
Definition q_GetHeadlessAccount (id : string) (_ : Instant) (d : DB) : Result HeadlessAccountRow :=
  row_or_ErrNoRows (t_headless_accounts d !! id).
Definition Queries_GetHeadlessAccount id : Go HeadlessAccountRow := query (q_GetHeadlessAccount id).

(** ** Entities *)

(** [protojson] on a message type. *)
Class ProtoJSON (T : Type) : Type := {
  protojson_Marshal : T → Result Json;
  protojson_Unmarshal : Json → Result T;
  protojson_roundtrip m j : protojson_Marshal m = Ok j → protojson_Unmarshal j = Ok m }.

(** [protojson] on the messages of the container that the store holds or a
    scheduled operation carries. *)
Class StartupParameters : Type := {
  startup_json :: ProtoJSON WorldStartupParameters;
  update_json :: ProtoJSON UpdateSessionParametersRequest;
  startup_empty_object : protojson_Unmarshal (JObj []) = Ok startup_zero }.

Record Session : Type := mkSession {
  Session_ID : string; Session_Name : string; Session_Status : Z; Session_StartedAt : option Instant;
  Session_CreatedBy : option string; Session_EndedAt : option Instant; Session_HostID : string;
  Session_StartupParameters : option WorldStartupParameters; Session_AutoUpgrade : bool; Session_Memo : string;
  Session_CurrentState : option HeadlessSession; Session_GroupID : string }.

Record HeadlessAccount : Type := mkHeadlessAccount {
  HeadlessAccount_ResoniteID : string; HeadlessAccount_Credential : string; HeadlessAccount_Password : string;
  HeadlessAccount_LastDisplayName : option string; HeadlessAccount_LastIconUrl : option string;
  HeadlessAccount_GroupID : string; HeadlessAccount_CreatedBy : option string }.

(** ** Repositories *)

Definition HostRepo_GetGroupID (id : string) : Go string :=
  let* host := on_err (wrap_db "headless host") (GetHost id) in ret (ho_GroupID host).

Section Sessions.
Context `{SP : StartupParameters}.

Definition sessionToEntity (s : SessionRow) : Result Session :=
  rbind (protojson_Unmarshal (se_StartupParameters s)) (λ startupParams,
    Ok (mkSession (se_ID s) (se_Name s) (se_Status s) (se_StartedAt s) (se_CreatedBy s) (se_EndedAt s) (se_HostID s)
          (Some startupParams) (se_AutoUpgrade s) (default EmptyString (se_Memo s)) None (se_GroupID s))).

Definition SessionRepo_Get (id : string) : Go Session :=
  let* s := on_err (wrap_db "session") (GetSession id) in lift (sessionToEntity s).

Definition get_session (id : string) (d : DB) : Result Session :=
  rbind (map_err (wrap_db "session") (q_GetSession id 0%Z d)) sessionToEntity.

Lemma SessionRepo_Get_reads id : reads (SessionRepo_Get id) (λ _ d, get_session id d).
Proof.
  eapply reads_bind_ext with (g := λ s _ _, sessionToEntity s); [apply on_err_reads, reads_query|intros s; apply reads_lift|done].
Qed.

Lemma get_session_group id d s : get_session id d = Ok s → ∃ row, t_sessions d !! id = Some row ∧ se_GroupID row = Session_GroupID s.
Proof.
  unfold get_session, q_GetSession. destruct (t_sessions d !! id) as [row|]; [|done]. simpl. unfold sessionToEntity.
  destruct (protojson_Unmarshal _); simpl; [|done]. intros [= <-]. eauto.
Qed.
End Sessions.

Definition headlessAccountToEntity (v : HeadlessAccountRow) : HeadlessAccount :=
  mkHeadlessAccount (ha_ResoniteID v) (ha_Credential v) (ha_Password v) (ha_LastDisplayName v) (ha_LastIconUrl v)
    (ha_GroupID v) (ha_CreatedBy v).

Definition GetHeadlessAccount (resoniteID : string) : Go HeadlessAccount :=
  let* v := on_err convertDBErr (Queries_GetHeadlessAccount resoniteID) in ret (headlessAccountToEntity v).

Definition host_group (id : string) (d : DB) : Result string :=
  rbind (map_err (wrap_db "headless host") (q_GetHost id 0%Z d)) (λ h, Ok (ho_GroupID h)).
Definition get_account (id : string) (d : DB) : Result HeadlessAccount :=
  rbind (map_err convertDBErr (q_GetHeadlessAccount id 0%Z d)) (λ v, Ok (headlessAccountToEntity v)).

Lemma HostRepo_GetGroupID_reads id : reads (HostRepo_GetGroupID id) (λ _ d, host_group id d).
Proof. eapply reads_map; [apply on_err_reads, reads_query|done]. Qed.

Lemma convertDBErr_transient e : transient e = true → transient (convertDBErr e) = true.
Proof. intros H. unfold convertDBErr. by rewrite (transient_not_Is e _ H). Qed.

Lemma GetHeadlessAccount_reads id : reads (GetHeadlessAccount id) (λ _ d, get_account id d).
Proof.
  eapply reads_map; [|done]. eapply reads_on_err; [apply convertDBErr_transient|apply reads_query].
Qed.
#[export] Hint Resolve SessionRepo_Get_reads HostRepo_GetGroupID_reads GetHeadlessAccount_reads : reads.
