(* ===== verification/SessionRepo.v ===== *)
(** * Sessions: statements and repository

    [src/db/sessions.sql.go] on the table of the migrations, and
    [src/adapter/session_repository.go].  A session belongs to a group and, if
    its user still exists, to the user who started it; its startup parameters
    are a JSON document that two statements edit in place. *)

From S2P Require Import Prelude Entity Json Headless Digest Models Queries Ports Repositories Resources.
From stdpp Require Import base gmap strings list sorting.
From Stdlib Require Import ZArith Lia.

Definition SessionStatus_UNKNOWN : Z := 0.
Definition SessionStatus_STARTING : Z := 1.
Definition SessionStatus_RUNNING : Z := 2.
Definition SessionStatus_ENDED : Z := 3.
Definition SessionStatus_CRASHED : Z := 4.

(** ** JSONB operators, on objects; other values make an array or an error *)

Definition jsonb_concat (a : Json) (ms : Members) : Json :=
  match a with
  | JObj old => JObj (filter (λ m, fst m ∉ fst <$> ms) old ++ ms)
  | JArr l => JArr (l ++ [JObj ms])
  | _ => JArr [a; JObj ms]
  end.
Definition jsonb_delete (key : string) (a : Json) : Result Json :=
  match a with
  | JObj ms => Ok (JObj (filter (λ m, fst m ≠ key) ms))
  | JArr l => Ok (JArr (List.filter (λ j, match j with JStr s => negb (bool_decide (s = key)) | _ => true end) l))
  | _ => Fail (EConstraint "cannot delete from scalar")
  end.
Definition jsonb_set (key : string) (v : Json) (a : Json) : Result Json :=
  match a with
  | JObj ms => Ok (JObj (filter (λ m, fst m ≠ key) ms ++ [(key, v)]))
  | JArr _ => Fail (EConstraint "path element at position 1 is not an integer")
  | _ => Fail (EConstraint "cannot set path in scalar")
  end.

(** ** Statements *)

(** An UPDATE of a session; the trigger update_sessions_modtime sets updated_at. *)
Definition se_update (now : Instant) (name : string) (status : Z) (startedAt : option Instant) (createdBy : option string)
    (endedAt : option Instant) (hostID : string) (params : Json) (version : Z) (autoUpgrade : bool) (memo : option string) (r : SessionRow)
  : SessionRow :=
  mkSessionRow (se_ID r) name status startedAt createdBy endedAt hostID params version autoUpgrade memo (se_CreatedAt r) (Some now) (se_GroupID r).

Record UpsertSessionParams : Type := mkUpsertSession {
  us_p_ID : string; us_p_Name : string; us_p_Status : Z; us_p_StartedAt : option Instant; us_p_CreatedBy : option string;
  us_p_EndedAt : option Instant; us_p_HostID : string; us_p_StartupParameters : option Json; us_p_SchemaVersion : Z;
  us_p_AutoUpgrade : bool; us_p_Memo : option string; us_p_GroupID : string }.

(** What a conflicting insert makes of the row: the first creator and the group stay. *)
Definition upserted (p : UpsertSessionParams) (params : Json) (now : Instant) (r : SessionRow) : SessionRow :=
  se_update now (us_p_Name p) (us_p_Status p) (to_microseconds <$> us_p_StartedAt p)
    (match se_CreatedBy r with Some u => Some u | None => us_p_CreatedBy p end)
    (to_microseconds <$> us_p_EndedAt p) (us_p_HostID p) params (us_p_SchemaVersion p) (us_p_AutoUpgrade p) (us_p_Memo p) r.
Definition new_session_row (p : UpsertSessionParams) (params : Json) (now : Instant) : SessionRow :=
  mkSessionRow (us_p_ID p) (us_p_Name p) (us_p_Status p) (to_microseconds <$> us_p_StartedAt p) (us_p_CreatedBy p)
    (to_microseconds <$> us_p_EndedAt p) (us_p_HostID p) params (us_p_SchemaVersion p) (us_p_AutoUpgrade p) (us_p_Memo p)
    (Some now) (Some now) (us_p_GroupID p).

Definition x_UpsertSession (p : UpsertSessionParams) (now : Instant) (d : DB) : Result (SessionRow * DB) :=
  match us_p_StartupParameters p with
  | None => Fail (EConstraint "sessions.startup_parameters is not null")
  | Some params =>
      match t_sessions d !! us_p_ID p with
      | Some r =>
          let r' := upserted p params now r in
          check (opt_present (se_CreatedBy r') (t_users d)) "sessions_created_by_fkey" >>>
          Ok (r', set_sessions (<[us_p_ID p := r']>) d)
      | None =>
          let r' := new_session_row p params now in
          check (present (us_p_GroupID p) (t_groups d)) "sessions_group_id_fkey" >>>
          check (opt_present (us_p_CreatedBy p) (t_users d)) "sessions_created_by_fkey" >>>
          Ok (r', set_sessions (<[us_p_ID p := r']>) d)
      end
  end.
Definition UpsertSession p : Go SessionRow := exec (x_UpsertSession p).

(** An UPDATE of one session by its key, under a condition; it answers the number of rows. *)
Definition update_session (id : string) (cond : SessionRow → bool) (f : SessionRow → SessionRow) (d : DB) : Result (Z * DB) :=
  match t_sessions d !! id with
  | Some r => if cond r then Ok (1%Z, set_sessions (<[id := f r]>) d) else Ok (0%Z, d)
  | None => Ok (0%Z, d)
  end.
(** one whose new value may be refused *)
Definition update_session_result (id : string) (f : SessionRow → Result SessionRow) (d : DB) : Result (unit * DB) :=
  match t_sessions d !! id with
  | Some r => rbind (f r) (λ r', Ok (tt, set_sessions (<[id := r']>) d))
  | None => Ok (tt, d)
  end.

Definition se_with_status (status : Z) (now : Instant) (r : SessionRow) : SessionRow :=
  se_update now (se_Name r) status (se_StartedAt r) (se_CreatedBy r) (se_EndedAt r) (se_HostID r) (se_StartupParameters r)
    (se_StartupParametersSchemaVersion r) (se_AutoUpgrade r) (se_Memo r) r.
Definition x_UpdateSessionStatus (id : string) (status : Z) (now : Instant) (d : DB) : Result (Z * DB) :=
  update_session id (λ _, true) (se_with_status status now) d.
Definition UpdateSessionStatus id status : Go unit := exec (x_UpdateSessionStatus id status) ;;; ret tt.

Definition x_DowngradeSessionToUnknownIfRunning (id : string) (now : Instant) (d : DB) : Result (Z * DB) :=
  update_session id (λ r, (se_Status r =? 2)%Z) (se_with_status 0 now) d.
Definition DowngradeSessionToUnknownIfRunning id : Go unit := exec (x_DowngradeSessionToUnknownIfRunning id) ;;; ret tt.

Definition se_started (name : string) (status : Z) (startedAt : Instant) (hostID : string) (now : Instant) (r : SessionRow) : SessionRow :=
  se_update now name status (Some startedAt) (se_CreatedBy r) None hostID (se_StartupParameters r)
    (se_StartupParametersSchemaVersion r) (se_AutoUpgrade r) (se_Memo r) r.
Definition before_or_null (o : option Instant) (t : Instant) : bool := match o with None => true | Some x => (x <? t)%Z end.
Definition x_ApplySessionStarted (id name : string) (status : Z) (startedAt : Instant) (hostID : string) (now : Instant) (d : DB) : Result (Z * DB) :=
  let t := to_microseconds startedAt in
  update_session id (λ r, before_or_null (se_StartedAt r) t) (se_started name status t hostID now) d.
Definition ApplySessionStarted id name status startedAt hostID : Go Z := exec (x_ApplySessionStarted id name status startedAt hostID).

Definition se_ended (status : Z) (endedAt now : Instant) (r : SessionRow) : SessionRow :=
  se_update now (se_Name r) status (se_StartedAt r) (se_CreatedBy r) (Some endedAt) (se_HostID r) (se_StartupParameters r)
    (se_StartupParametersSchemaVersion r) (se_AutoUpgrade r) (se_Memo r) r.
Definition x_ApplySessionEnded (id : string) (status : Z) (endedAt : Instant) (hostID : string) (now : Instant) (d : DB) : Result (Z * DB) :=
  let t := to_microseconds endedAt in
  update_session id (λ r, bool_decide (se_HostID r = hostID) && before_or_null (se_EndedAt r) t) (se_ended status t now) d.
Definition ApplySessionEnded id status endedAt hostID : Go Z := exec (x_ApplySessionEnded id status endedAt hostID).

(** the group is the host's; an existing session and a missing host insert nothing *)
Definition x_InsertSessionFromEvent (id name : string) (status : Z) (startedAt : option Instant) (hostID : string) (params : Json) (version : Z)
    (now : Instant) (d : DB) : Result (Z * DB) :=
  match t_hosts d !! hostID, t_sessions d !! id with
  | Some h, None =>
      Ok (1%Z, set_sessions (<[id := mkSessionRow id name status (to_microseconds <$> startedAt) None None hostID params version false None
                                       (Some now) (Some now) (ho_GroupID h)]>) d)
  | _, _ => Ok (0%Z, d)
  end.
Definition InsertSessionFromEvent id name status startedAt hostID params version : Go Z :=
  exec (x_InsertSessionFromEvent id name status startedAt hostID params version).

Definition x_DeleteSession (id : string) (_ : Instant) (d : DB) : Result (unit * DB) := Ok (tt, set_sessions (delete id) d).
Definition DeleteSession id : Go unit := exec (x_DeleteSession id).

Definition se_with_params (name : string) (params : Json) (now : Instant) (r : SessionRow) : SessionRow :=
  se_update now name (se_Status r) (se_StartedAt r) (se_CreatedBy r) (se_EndedAt r) (se_HostID r) params
    (se_StartupParametersSchemaVersion r) (se_AutoUpgrade r) (se_Memo r) r.

Record SessionSettings : Type := mkSettings {
  ss_Name : string; ss_Description : string; ss_MaxUsers : Z; ss_AccessLevel : string; ss_HideFromPublicListing : bool;
  ss_AwayKickMinutes : Float32; ss_IdleRestartIntervalSeconds : Z; ss_SaveOnExit : bool; ss_AutoSaveIntervalSeconds : Z;
  ss_AutoSleep : bool; ss_Tags : list string }.

(** How the database writes a [real] as JSON. *)
Class RealJSON : Type := { jsonb_of_real : Float32 → Json }.

Definition settings_members `{RealJSON} (p : SessionSettings) : Members :=
  [("name", JStr (ss_Name p)); ("description", JStr (ss_Description p)); ("maxUsers", JInt (ss_MaxUsers p));
   ("accessLevel", JStr (ss_AccessLevel p)); ("hideFromPublicListing", JBool (ss_HideFromPublicListing p));
   ("awayKickMinutes", jsonb_of_real (ss_AwayKickMinutes p)); ("idleRestartIntervalSeconds", JInt (ss_IdleRestartIntervalSeconds p));
   ("saveOnExit", JBool (ss_SaveOnExit p)); ("autoSaveIntervalSeconds", JInt (ss_AutoSaveIntervalSeconds p));
   ("autoSleep", JBool (ss_AutoSleep p)); ("tags", JArr (JStr <$> ss_Tags p))].
Definition x_ApplySessionParametersChanged `{RealJSON} (id : string) (p : SessionSettings) (now : Instant) (d : DB) : Result (unit * DB) :=
  update_session_result id (λ r, Ok (se_with_params (ss_Name p) (jsonb_concat (se_StartupParameters r) (settings_members p)) now r)) d.
Definition ApplySessionParametersChanged `{RealJSON} id p : Go unit := exec (x_ApplySessionParametersChanged id p).

Definition saved_params (url : string) (params : Json) : Result Json :=
  rbind (jsonb_delete "loadWorldPresetName" params) (jsonb_set "loadWorldUrl" (JStr url)).
Definition x_UpdateSessionAfterWorldSaved (id url : string) (now : Instant) (d : DB) : Result (unit * DB) :=
  update_session_result id (λ r, rbind (saved_params url (se_StartupParameters r)) (λ j, Ok (se_with_params (se_Name r) j now r))) d.
Definition UpdateSessionAfterWorldSaved id url : Go unit := exec (x_UpdateSessionAfterWorldSaved id url).

(** [ORDER BY started_at DESC]: sessions that never started come first. *)
Definition started_desc (a b : SessionRow) : bool :=
  match se_StartedAt a, se_StartedAt b with None, _ => true | Some _, None => false | Some x, Some y => (y <=? x)%Z end.
Definition sessions_where (p : SessionRow → bool) (d : DB) : list SessionRow :=
  order_by started_desc (List.filter p (rows_of (t_sessions d))).
Definition q_ListSessions (_ : Instant) (d : DB) : Result (list SessionRow) := Ok (sessions_where (λ _, true) d).
Definition ListSessions : Go (list SessionRow) := query q_ListSessions.
Definition q_ListSessionsByStatus (status : Z) (_ : Instant) (d : DB) : Result (list SessionRow) :=
  Ok (sessions_where (λ r, (se_Status r =? status)%Z) d).
Definition ListSessionsByStatus status : Go (list SessionRow) := query (q_ListSessionsByStatus status).
Definition q_ListSessionsByHostAndStatus (hostID : string) (status : Z) (_ : Instant) (d : DB) : Result (list SessionRow) :=
  Ok (sessions_where (λ r, bool_decide (se_HostID r = hostID) && (se_Status r =? status)%Z) d).
Definition ListSessionsByHostAndStatus hostID status : Go (list SessionRow) := query (q_ListSessionsByHostAndStatus hostID status).

Record ListSessionsPagedParams : Type := mkListSessionsPaged {
  lsp_Status : option Z; lsp_HostID : option string; lsp_GroupIds : option (list string); lsp_PageOffset : Z; lsp_PageSize : Z }.
Definition session_matches (p : ListSessionsPagedParams) (r : SessionRow) : bool :=
  unless_given (lsp_Status p) (Some (se_Status r)) && unless_given (lsp_HostID p) (Some (se_HostID r)) &&
  match lsp_GroupIds p with None => true | Some gs => bool_decide (se_GroupID r ∈ gs) end.
(** [ORDER BY started_at DESC NULLS LAST, id ASC] *)
Definition started_desc_nulls_last (a b : SessionRow) : bool :=
  match se_StartedAt a, se_StartedAt b with
  | None, None => String.leb (se_ID a) (se_ID b)
  | None, Some _ => false
  | Some _, None => true
  | Some x, Some y => if (x =? y)%Z then String.leb (se_ID a) (se_ID b) else (y <? x)%Z
  end.
Definition q_ListSessionsPaged (p : ListSessionsPagedParams) (_ : Instant) (d : DB) : Result (list (SessionRow * Z)) :=
  limit_offset (lsp_PageSize p) (lsp_PageOffset p) (order_by started_desc_nulls_last (List.filter (session_matches p) (rows_of (t_sessions d)))).
Definition ListSessionsPaged p : Go (list (SessionRow * Z)) := query (q_ListSessionsPaged p).

(** ** Repository *)

Section Repository.
Context {SP : StartupParameters}.

Definition SessionRepo_Upsert (session : Session) : Go unit :=
  let* startupParams := match Session_StartupParameters session with
                        | Some m => let* j := lift (protojson_Marshal m) in ret (Some j)
                        | None => ret None
                        end in
  UpsertSession (mkUpsertSession (Session_ID session) (Session_Name session) (Session_Status session) (Session_StartedAt session)
    (Session_CreatedBy session) (Session_EndedAt session) (Session_HostID session) startupParams 1 (Session_AutoUpgrade session)
    (if bool_decide (Session_Memo session = EmptyString) then None else Some (Session_Memo session)) (Session_GroupID session)) ;;;
  ret tt.

Definition SessionRepo_UpdateStatus (id : string) (status : Z) : Go unit := UpdateSessionStatus id status.

Definition SessionRepo_ApplySessionParametersChanged `{RealJSON} (id : string) (snapshot : option HeadlessSession) : Go unit :=
  match snapshot with
  | None => ret tt
  | Some s =>
      ApplySessionParametersChanged id
        (mkSettings (hs_Name s) (hs_Description s) (hs_MaxUsers s) (AccessLevel_String (hs_AccessLevel s)) (hs_HideFromPublicListing s)
           (hs_AwayKickMinutes s) (hs_IdleRestartIntervalSeconds s) (hs_SaveOnExit s) (hs_AutoSaveIntervalSeconds s) (hs_AutoSleep s) (hs_Tags s))
  end.
Definition SessionRepo_UpdateAfterWorldSaved (id worldURL : string) : Go unit := UpdateSessionAfterWorldSaved id worldURL.
Definition SessionRepo_DowngradeToUnknownIfRunning (id : string) : Go unit := DowngradeSessionToUnknownIfRunning id.

Fixpoint sessions_to_entities (rows : list SessionRow) : Result (list Session) :=
  match rows with
  | [] => Ok []
  | r :: rows' => rbind (sessionToEntity r) (λ e, rbind (sessions_to_entities rows') (λ es, Ok (e :: es)))
  end.
Definition wrap_session := wrap_db "session".
Definition SessionRepo_ListAll : Go (list Session) :=
  let* rows := on_err wrap_session ListSessions in lift (sessions_to_entities rows).
Definition SessionRepo_ListByStatus (status : Z) : Go (list Session) :=
  let* rows := on_err wrap_session (ListSessionsByStatus status) in lift (sessions_to_entities rows).
Definition SessionRepo_ListByHostAndStatus (hostID : string) (status : Z) : Go (list Session) :=
  let* rows := on_err wrap_session (ListSessionsByHostAndStatus hostID status) in lift (sessions_to_entities rows).

(** a session known from an event only has empty startup parameters *)
Definition SessionRepo_InsertFromEvent (session : Session) : Go unit :=
  let* params := lift (protojson_Marshal (default startup_zero (Session_StartupParameters session))) in
  on_err wrap_session (InsertSessionFromEvent (Session_ID session) (Session_Name session) (Session_Status session) (Session_StartedAt session)
                         (Session_HostID session) params 1) ;;;
  ret tt.
Definition SessionRepo_ApplySessionStarted (id hostID name : string) (occurredAt : Instant) : Go bool :=
  let* rows := on_err wrap_session (ApplySessionStarted id name SessionStatus_RUNNING occurredAt hostID) in ret (0 <? rows)%Z.
Definition SessionRepo_ApplySessionEnded (id hostID : string) (occurredAt : Instant) : Go bool :=
  let* rows := on_err wrap_session (ApplySessionEnded id SessionStatus_ENDED occurredAt hostID) in ret (0 <? rows)%Z.

Record SessionListPageOptions : Type := mkSessionPageOptions {
  spo_HostID : option string; spo_Status : option Z; spo_PageIndex : Z; spo_PageSize : Z; spo_GroupIDs : option (list string) }.
Record SessionListPageResult : Type := mkSessionPageResult { spr_Sessions : list Session; spr_TotalCount : Z }.

Definition SessionRepo_ListPaged (o : SessionListPageOptions) : Go SessionListPageResult :=
  let params := mkListSessionsPaged (spo_Status o) (spo_HostID o) (spo_GroupIDs o) (int32 (spo_PageIndex o * spo_PageSize o)) (spo_PageSize o) in
  let* rows := on_err wrap_session (ListSessionsPaged params) in
  let total := match rows with [] => 0%Z | r :: _ => int32 (snd r) end in
  let* sessions := lift (sessions_to_entities (fst <$> rows)) in
  ret (mkSessionPageResult sessions total).

Definition SessionRepo_Delete (id : string) : Go unit := DeleteSession id.
End Repository.
