(* ===== verification/Messages.v ===== *)
(** * Request messages of hosts and sessions

    The messages of [src/proto/hdlctrl/v1/controller.proto] that jobs and
    scheduled operations carry.  A message field is an option, as a pointer in
    the generated code. *)

From S2P Require Import Prelude Entity Json Digest Models Queries Ports Repositories Headless Resources.
From stdpp Require Import base strings list.
From Stdlib Require Import ZArith.

Section Messages.
Record StartWorldRequest : Type := mkStartWorldRequest {
  swr_HostId : string; swr_Parameters : option WorldStartupParameters; swr_Memo : string; swr_GroupId : option string }.
Record StopSessionRequest : Type := mkStopSessionRequest { ssr_HostId : string; ssr_SessionId : string }.
(** [hdlctrlv1.UpdateSessionParametersRequest] wraps the message of the container. *)
Record UpdateParamsRequest : Type := mkUpdateParamsRequest { upr_HostId : string; upr_Parameters : option UpdateSessionParametersRequest }.
Record UpdateSessionExtraSettingsRequest : Type := mkUpdateExtraRequest {
  uer_SessionId : string; uer_AutoUpgrade : option bool; uer_Memo : option string }.

(** The oneofs of [ScheduledOperation] and [ScheduledTrigger]. *)
Inductive ScheduledOperation : Type :=
  | OpStartSession (m : StartWorldRequest)
  | OpStopSession (m : StopSessionRequest)
  | OpUpdateParameters (m : UpdateParamsRequest)
  | OpUpdateExtraSettings (m : UpdateSessionExtraSettingsRequest)
  | OpUnset.

Definition COMPARATOR_UNSPECIFIED : Z := 0.
Definition COMPARATOR_LESS_OR_EQUAL : Z := 1.
Definition COMPARATOR_GREATER_OR_EQUAL : Z := 2.

Inductive ScheduledTrigger : Type :=
  | TrTime (scheduled_at : option Instant)
  | TrSessionUserCount (session_id : string) (comparator threshold : Z)
  | TrUnset.

Record PbScheduledSessionOperation : Type := mkPbScheduledOp {
  po_Id : string; po_Operation : ScheduledOperation; po_Trigger : ScheduledTrigger; po_NextFireAt : Instant;
  po_HostId : option string; po_SessionId : option string; po_Status : Z; po_LastError : option string;
  po_ExecutedAt : option Instant; po_CreatedBy : option string; po_CreatedAt : Instant; po_UpdatedAt : Instant }.

Record PageRequest : Type := mkPageRequest { pgr_PageIndex : Z; pgr_PageSize : Z }.
Record PageResponse : Type := mkPageResponse { pgs_TotalCount : Z; pgs_PageIndex : Z; pgs_PageSize : Z }.

Record ListOpsRequest : Type := mkListOpsRequest {
  lor_SessionId : option string; lor_HostId : option string; lor_Status : option Z; lor_Page : option PageRequest; lor_GroupId : option string }.
Record ListOpsResponse : Type := mkListOpsResponse { los_Operations : list PbScheduledSessionOperation; los_Page : PageResponse }.

(** ** Messages about hosts *)

Record ShutdownHeadlessHostRequest : Type := mkShutdownHostRequest { shr_HostId : string }.
Record RestartHeadlessHostRequest : Type := mkRestartHostRequest {
  rhr_HostId : string; rhr_WithUpdate : bool; rhr_WithImageTag : option string; rhr_WithWorldRestart : bool; rhr_TimeoutSeconds : option Z }.

Record StartHeadlessHostRequest : Type := mkStartHostRequest {
  hsr_Name : string; hsr_HeadlessAccountId : string; hsr_ImageTag : option string; hsr_StartupConfig : option StartupConfig;
  hsr_AutoUpdatePolicy : option Z; hsr_Memo : option string; hsr_GroupId : option string }.

(** [protojson] on the requests a job carries. *)
Class JobMessages : Type := {
  start_host_json :: ProtoJSON StartHeadlessHostRequest;
  shutdown_host_json :: ProtoJSON ShutdownHeadlessHostRequest;
  restart_host_json :: ProtoJSON RestartHeadlessHostRequest;
  start_world_json :: ProtoJSON StartWorldRequest;
  stop_session_json :: ProtoJSON StopSessionRequest }.
End Messages.

(** ** Hosts: the port of their repository

    The parameter records of [src/usecase/port/headless_host_repository.go]
    and the enumerations of [src/domain/entity/headless_host.go]. *)

From stdpp Require Import base gmap strings list.


Definition HeadlessHostStatus_UNKNOWN : Z := 0.
Definition HeadlessHostStatus_STARTING : Z := 1.
Definition HeadlessHostStatus_RUNNING : Z := 2.
Definition HeadlessHostStatus_STOPPING : Z := 3.
Definition HeadlessHostStatus_EXITED : Z := 4.
Definition HeadlessHostStatus_CRASHED : Z := 5.

Definition HostAutoUpdatePolicy_UNSPECIFIED : Z := 0.
Definition HostAutoUpdatePolicy_NEVER : Z := 1.
Definition HostAutoUpdatePolicy_USERS_EMPTY : Z := 2.

Record HeadlessHostStartParams : Type := mkHostStartParams {
  hsp_Name : string; hsp_ContainerImageTag : string; hsp_HeadlessAccount : HeadlessAccount; hsp_StartupConfig : option StartupConfig;
  hsp_AutoUpdatePolicy : Z; hsp_Memo : string; hsp_GroupID : string }.

Record ContainerImage : Type := mkContainerImage {
  ci_Tag : string; ci_ResoniteVersion : string; ci_IsPreRelease : bool; ci_AppVersion : string }.
