(* ===== verification/PlainJson.v ===== *)
(** * Messages with a plain JSON form

    A concrete [protojson]: every message is the list of its fields, the empty
    object is the empty message.  It shows that the laws of the classes for
    generated messages can be met, and runs the examples. *)

From S2P Require Import Prelude Entity Json Headless Digest Models Queries Ports Repositories Resources Messages.
From stdpp Require Import base gmap strings list.
From Stdlib Require Import ZArith.

(** ** Codecs *)

Class Codec (A : Type) : Type := { enc : A → Json; dec : Json → option A; dec_enc a : dec (enc a) = Some a }.

#[local] Instance codec_string : Codec string.
Proof. by refine {| enc := JStr; dec j := match j with JStr s => Some s | _ => None end |}. Defined.
#[local] Instance codec_Z : Codec Z.
Proof. by refine {| enc := JInt; dec j := match j with JInt n => Some n | _ => None end |}. Defined.
#[local] Instance codec_bool : Codec bool.
Proof. by refine {| enc := JBool; dec j := match j with JBool b => Some b | _ => None end |}. Defined.
#[local] Instance codec_option {A} `{Codec A} : Codec (option A).
Proof.
  refine {| enc o := match o with Some a => JArr [enc a] | None => JNull end;
            dec j := match j with JNull => Some None | JArr [j] => Some <$> dec j | _ => None end |}.
  intros [a|]; [|done]. by rewrite dec_enc.
Defined.
#[local] Instance codec_prod {A B} `{Codec A} `{Codec B} : Codec (A * B).
Proof.
  refine {| enc p := JArr [enc (fst p); enc (snd p)];
            dec j := match j with JArr [i; j] => a ← dec i; b ← dec j; Some (a, b) | _ => None end |}.
  intros [a b]. simpl. by rewrite dec_enc, dec_enc.
Defined.

Fixpoint dec_list {A} `{Codec A} (l : list Json) : option (list A) :=
  match l with [] => Some [] | j :: l' => a ← dec j; as_ ← dec_list l'; Some (a :: as_) end.
#[local] Instance codec_list {A} `{Codec A} : Codec (list A).
Proof.
  refine {| enc l := JArr (List.map enc l); dec j := match j with JArr l => dec_list l | _ => None end |}.
  intros l. induction l as [|a l IH]; simpl in *; [done|]. rewrite dec_enc. simpl. by rewrite IH.
Defined.

(** A type with the same values as one that has a codec. *)
Definition codec_via {A B} `{Codec B} (f : A → B) (g : B → A) (Hfg : ∀ a, g (f a) = a) : Codec A.
Proof. refine {| enc a := enc (f a); dec j := g <$> dec j |}. intros a. by rewrite dec_enc; simpl; rewrite Hfg. Defined.

Definition proto_via {A} (zero : A) (c : Codec A) (Hzero : ∀ a, enc a ≠ JObj []) : ProtoJSON A.
Proof.
  refine {| protojson_Marshal a := Ok (enc a);
            protojson_Unmarshal j := match j with
                                     | JObj [] => Ok zero
                                     | _ => match dec j with Some a => Ok a | None => Fail (EMsg "proto: syntax error") end
                                     end |}.
  intros a j [= <-]. rewrite dec_enc. specialize (Hzero a). destruct (enc a) as [| | | | | |[|? ?]]; done.
Defined.

(** ** Messages *)

#[local] Instance codec_record_id : Codec RecordId.
Proof.
  refine (codec_via (λ m : RecordId,
    (ri_Id m, ri_OwnerId m))
    (λ p, let '(x0, x1) := p in
     mkRecordId x0 x1) _).
  by intros [].
Defined.
#[local] Instance codec_user_role : Codec DefaultUserRole.
Proof.
  refine (codec_via (λ m : DefaultUserRole,
    (du_Role m, du_UserName m))
    (λ p, let '(x0, x1) := p in
     mkDefaultUserRole x0 x1) _).
  by intros [].
Defined.
#[local] Instance codec_load_world : Codec LoadWorld.
Proof.
  refine (codec_via (λ m, match m with LoadWorldUrl s => (true, s) | LoadWorldPresetName s => (false, s) end)
    (λ p, let (b, s) := p in if b : bool then LoadWorldUrl s else LoadWorldPresetName s) _).
  by intros [].
Defined.
#[local] Instance codec_startup : Codec WorldStartupParameters.
Proof.
  refine (codec_via (λ m : WorldStartupParameters,
    (wsp_Name m, wsp_CustomSessionId m, wsp_Description m, wsp_Tags m, wsp_MaxUsers m, wsp_AccessLevel m, wsp_LoadWorld m, wsp_AutoInviteUsernames m, wsp_HideFromPublicListing m, wsp_DefaultUserRoles m, wsp_AwayKickMinutes m, wsp_IdleRestartIntervalSeconds m, wsp_SaveOnExit m, wsp_AutoSaveIntervalSeconds m, wsp_AutoSleep m, wsp_InviteRequestHandlerUsernames m, wsp_ForcePort m, wsp_ParentSessionIds m, wsp_AutoRecover m, wsp_ForcedRestartIntervalSeconds m, wsp_UseCustomJoinVerifier m, wsp_MobileFriendly m, wsp_OverrideCorrespondingWorldId m, wsp_KeepOriginalRoles m, wsp_RoleCloudVariable m, wsp_AllowUserCloudVariable m, wsp_DenyUserCloudVariable m, wsp_RequiredUserJoinCloudVariable m, wsp_RequiredUserJoinCloudVariableDenyMessage m, wsp_AutoInviteMessage m, wsp_JoinAllowedUserIds m))
    (λ p, let '(x0, x1, x2, x3, x4, x5, x6, x7, x8, x9, x10, x11, x12, x13, x14, x15, x16, x17, x18, x19, x20, x21, x22, x23, x24, x25, x26, x27, x28, x29, x30) := p in
     mkWorldStartupParameters x0 x1 x2 x3 x4 x5 x6 x7 x8 x9 x10 x11 x12 x13 x14 x15 x16 x17 x18 x19 x20 x21 x22 x23 x24 x25 x26 x27 x28 x29 x30) _).
  by intros [].
Defined.
#[local] Instance codec_update : Codec UpdateSessionParametersRequest.
Proof.
  refine (codec_via (λ m : UpdateSessionParametersRequest,
    (usp_SessionId m, usp_Name m, usp_Description m, usp_MaxUsers m, usp_AccessLevel m, usp_AwayKickMinutes m, usp_IdleRestartIntervalSeconds m, usp_SaveOnExit m, usp_AutoSaveIntervalSeconds m, usp_AutoSleep m, usp_HideFromPublicListing m, usp_UpdateTags m, usp_Tags m, usp_UseCustomJoinVerifier m, usp_MobileFriendly m, usp_OverrideCorrespondingWorldId m, usp_RoleCloudVariable m, usp_AllowUserCloudVariable m, usp_DenyUserCloudVariable m, usp_RequiredUserJoinCloudVariable m, usp_RequiredUserJoinCloudVariableDenyMessage m))
    (λ p, let '(x0, x1, x2, x3, x4, x5, x6, x7, x8, x9, x10, x11, x12, x13, x14, x15, x16, x17, x18, x19, x20) := p in
     mkUpdateSessionParametersRequest x0 x1 x2 x3 x4 x5 x6 x7 x8 x9 x10 x11 x12 x13 x14 x15 x16 x17 x18 x19 x20) _).
  by intros [].
Defined.

#[local] Instance codec_access_entry : Codec AllowedAccessEntry.
Proof.
  refine (codec_via (λ m : AllowedAccessEntry, (aae_Host m, aae_Ports m, aae_AccessTypes m))
    (λ p, let '(x0, x1, x2) := p in mkAllowedAccessEntry x0 x1 x2) _).
  by intros [].
Defined.
#[local] Instance codec_config : Codec StartupConfig.
Proof.
  refine (codec_via (λ m : StartupConfig, (sc_UniverseId m, sc_TickRate m, sc_MaxConcurrentAssetTransfers m, sc_UsernameOverride m, sc_StartWorlds m, sc_AllowedUrlHosts m, sc_AutoSpawnItems m))
    (λ p, let '(x0, x1, x2, x3, x4, x5, x6) := p in mkStartupConfig x0 x1 x2 x3 x4 x5 x6) _).
  by intros [].
Defined.
#[local] Instance codec_start_host : Codec StartHeadlessHostRequest.
Proof.
  refine (codec_via (λ m : StartHeadlessHostRequest, (hsr_Name m, hsr_HeadlessAccountId m, hsr_ImageTag m, hsr_StartupConfig m, hsr_AutoUpdatePolicy m, hsr_Memo m, hsr_GroupId m))
    (λ p, let '(x0, x1, x2, x3, x4, x5, x6) := p in mkStartHostRequest x0 x1 x2 x3 x4 x5 x6) _).
  by intros [].
Defined.
#[local] Instance codec_restart_host : Codec RestartHeadlessHostRequest.
Proof.
  refine (codec_via (λ m : RestartHeadlessHostRequest, (rhr_HostId m, rhr_WithUpdate m, rhr_WithImageTag m, rhr_WithWorldRestart m, rhr_TimeoutSeconds m))
    (λ p, let '(x0, x1, x2, x3, x4) := p in mkRestartHostRequest x0 x1 x2 x3 x4) _).
  by intros [].
Defined.
#[local] Instance codec_start_world : Codec StartWorldRequest.
Proof.
  refine (codec_via (λ m : StartWorldRequest, (swr_HostId m, swr_Parameters m, swr_Memo m, swr_GroupId m))
    (λ p, let '(x0, x1, x2, x3) := p in mkStartWorldRequest x0 x1 x2 x3) _).
  by intros [].
Defined.
#[local] Instance codec_stop_session : Codec StopSessionRequest.
Proof.
  refine (codec_via (λ m : StopSessionRequest, (ssr_HostId m, ssr_SessionId m))
    (λ p, let '(x0, x1) := p in mkStopSessionRequest x0 x1) _).
  by intros [].
Defined.
#[local] Instance codec_shutdown_host : Codec ShutdownHeadlessHostRequest.
Proof. refine (codec_via shr_HostId mkShutdownHostRequest _). by intros []. Defined.

(** ** Instances of the classes *)

(** an encoded tuple is an array *)
Ltac not_object := (intros []; discriminate).

#[local] Instance raw_startup : ProtoJSON WorldStartupParameters := proto_via startup_zero codec_startup ltac:(not_object).
#[local] Instance raw_update : ProtoJSON UpdateSessionParametersRequest := proto_via update_zero codec_update ltac:(not_object).
#[local] Instance raw_parameters : StartupParameters := {| startup_empty_object := eq_refl |}.

#[local] Instance plain_jobs : JobMessages := {|
  start_host_json := proto_via (mkStartHostRequest EmptyString EmptyString None None None None None) codec_start_host ltac:(not_object);
  shutdown_host_json := proto_via (mkShutdownHostRequest EmptyString) codec_shutdown_host ltac:(not_object);
  restart_host_json := proto_via (mkRestartHostRequest EmptyString false None false None) codec_restart_host ltac:(not_object);
  start_world_json := proto_via (mkStartWorldRequest EmptyString None EmptyString None) codec_start_world ltac:(not_object);
  stop_session_json := proto_via (mkStopSessionRequest EmptyString EmptyString) codec_stop_session ltac:(not_object) |}.
