(* ===== verification/RpcPermission.v ===== *)
(** * The permission interceptor

    [src/adapter/rpc/permission_interceptor.go],
    [src/adapter/rpc/permission_extractors.go], [convertErr] of
    [src/adapter/rpc/controller_service.go] and the [registerRPCPermission]
    declarations of the service files: which rule guards which procedure, and
    what each rule asks before the handler runs. *)

From S2P Require Import Prelude Entity Models Ports PermissionUsecase Headless Resources.
From stdpp Require Import base gmap strings list.
From Stdlib Require Import ZArith.

(** ** Errors of the RPC layer *)

Definition connect_NewError (c : Code) (e : Err) : Err := EConnect c e.

Definition convertErr (err : Err) : Err :=
  if errors_Is err ErrNotFound then connect_NewError CodeNotFound err
  else if errors_Is err ErrUnauthenticated then connect_NewError CodeUnauthenticated err
  else if errors_Is err ErrPermissionDenied then connect_NewError CodePermissionDenied err
  else if errors_Is err ErrHostDraining then connect_NewError CodeFailedPrecondition err
  else connect_NewError CodeInternal err.

(** ** [strings.TrimSpace]

    Strings are UTF-8 bytes; white space is Unicode's, given by its encodings. *)

Definition byte_string (l : list nat) : list Ascii.ascii := Ascii.ascii_of_nat <$> l.
Definition white_space : list (list Ascii.ascii) := byte_string <$>
  [[9]; [10]; [11]; [12]; [13]; [32]; [194; 133]; [194; 160]; [225; 154; 128];
   [226; 128; 128]; [226; 128; 129]; [226; 128; 130]; [226; 128; 131]; [226; 128; 132]; [226; 128; 133];
   [226; 128; 134]; [226; 128; 135]; [226; 128; 136]; [226; 128; 137]; [226; 128; 138];
   [226; 128; 168]; [226; 128; 169]; [226; 128; 175]; [226; 129; 159]; [227; 128; 128]].

Fixpoint strip_prefix (p l : list Ascii.ascii) : option (list Ascii.ascii) :=
  match p, l with
  | [], _ => Some l
  | a :: p', b :: l' => if Ascii.eqb a b then strip_prefix p' l' else None
  | _ :: _, [] => None
  end.
Fixpoint strip_any (ps : list (list Ascii.ascii)) (l : list Ascii.ascii) : option (list Ascii.ascii) :=
  match ps with
  | [] => None
  | p :: ps' => match strip_prefix p l with Some l' => Some l' | None => strip_any ps' l end
  end.
(** every round removes a byte at least: the length is enough fuel *)
Fixpoint trim_front (fuel : nat) (ps : list (list Ascii.ascii)) (l : list Ascii.ascii) : list Ascii.ascii :=
  match fuel with
  | O => l
  | S fuel' => match strip_any ps l with Some l' => trim_front fuel' ps l' | None => l end
  end.
Definition strings_TrimSpace (s : string) : string :=
  let l := String.list_ascii_of_string s in
  let l1 := trim_front (length l) white_space l in
  let l2 := trim_front (length l1) (@rev Ascii.ascii <$> white_space) (rev l1) in
  String.string_of_list_ascii (rev l2).

(** ** Requests

    [connect.AnyRequest]: the procedure, the header the program reads, the type of the message and the
    fields the rules read.  A getter answers the zero value of a field that is
    not set. *)

Record AnyRequest : Type := mkAnyRequest {
  req_Procedure : string;
  req_Authorization : string;   (** [Header().Get("Authorization")] *)
  msg_Type : string;
  msg_HostId : string;
  msg_SessionId : string;
  msg_AccountId : string;
  msg_HeadlessAccountId : string;
  msg_GroupId : option string;
  msg_RoleId : string;
  msg_ParametersSessionId : string }.
Definition GetGroupId (m : AnyRequest) : string := default EmptyString (msg_GroupId m).

(** [idExtractor[T]]: the type [T] it casts to and the getter. *)
Record idExtractor : Type := mkExtractor { ext_Type : string; ext_get : AnyRequest → string }.

Definition hostIDFromGet : idExtractor := mkExtractor "GetHeadlessHostRequest" msg_HostId.
Definition hostIDFromGetLogs : idExtractor := mkExtractor "GetHeadlessHostLogsRequest" msg_HostId.
Definition hostIDFromListInstances : idExtractor := mkExtractor "ListHeadlessHostInstancesRequest" msg_HostId.
Definition hostIDFromShutdown : idExtractor := mkExtractor "ShutdownHeadlessHostRequest" msg_HostId.
Definition hostIDFromKill : idExtractor := mkExtractor "KillHeadlessHostRequest" msg_HostId.
Definition hostIDFromUpdateSettings : idExtractor := mkExtractor "UpdateHeadlessHostSettingsRequest" msg_HostId.
Definition hostIDFromRestart : idExtractor := mkExtractor "RestartHeadlessHostRequest" msg_HostId.
Definition hostIDFromDelete : idExtractor := mkExtractor "DeleteHeadlessHostRequest" msg_HostId.
Definition hostIDFromAllowAccess : idExtractor := mkExtractor "AllowHostAccessRequest" msg_HostId.
Definition hostIDFromDenyAccess : idExtractor := mkExtractor "DenyHostAccessRequest" msg_HostId.
Definition hostIDFromFetchWorldInfo : idExtractor := mkExtractor "FetchWorldInfoRequest" msg_HostId.
Definition hostIDFromSearchUserInfo : idExtractor := mkExtractor "SearchUserInfoRequest" msg_HostId.
Definition hostIDFromGetOwnWorlds : idExtractor := mkExtractor "GetOwnWorldsRequest" msg_HostId.
Definition hostIDFromBan : idExtractor := mkExtractor "BanUserRequest" msg_HostId.
Definition hostIDFromKick : idExtractor := mkExtractor "KickUserRequest" msg_HostId.
Definition hostIDFromUpdateUserRole : idExtractor := mkExtractor "UpdateUserRoleRequest" msg_HostId.
Definition hostIDFromInviteUser : idExtractor := mkExtractor "InviteUserRequest" msg_HostId.
Definition hostIDFromListUsersInSession : idExtractor := mkExtractor "ListUsersInSessionRequest" msg_HostId.
Definition accountIDFromDelete : idExtractor := mkExtractor "DeleteHeadlessAccountRequest" msg_AccountId.
Definition accountIDFromUpdateCreds : idExtractor := mkExtractor "UpdateHeadlessAccountCredentialsRequest" msg_AccountId.
Definition accountIDFromStorageInfo : idExtractor := mkExtractor "GetHeadlessAccountStorageInfoRequest" msg_AccountId.
Definition accountIDFromRefetch : idExtractor := mkExtractor "RefetchHeadlessAccountInfoRequest" msg_AccountId.
Definition accountIDFromUpdateIcon : idExtractor := mkExtractor "UpdateHeadlessAccountIconRequest" msg_AccountId.
Definition accountIDFromGetFriendRequests : idExtractor := mkExtractor "GetFriendRequestsRequest" msg_HeadlessAccountId.
Definition accountIDFromAcceptFriends : idExtractor := mkExtractor "AcceptFriendRequestsRequest" msg_HeadlessAccountId.
Definition accountIDFromListContacts : idExtractor := mkExtractor "ListContactsRequest" msg_HeadlessAccountId.
Definition accountIDFromGetMessages : idExtractor := mkExtractor "GetContactMessagesRequest" msg_HeadlessAccountId.
Definition accountIDFromSendMessage : idExtractor := mkExtractor "SendContactMessageRequest" msg_HeadlessAccountId.
Definition sessionIDFromGetDetails : idExtractor := mkExtractor "GetSessionDetailsRequest" msg_SessionId.
Definition sessionIDFromStop : idExtractor := mkExtractor "StopSessionRequest" msg_SessionId.
Definition sessionIDFromDelete : idExtractor := mkExtractor "DeleteEndedSessionRequest" msg_SessionId.
Definition sessionIDFromSave : idExtractor := mkExtractor "SaveSessionWorldRequest" msg_SessionId.
Definition sessionIDFromPrepareDownload : idExtractor := mkExtractor "PrepareSessionWorldDownloadRequest" msg_SessionId.
Definition sessionIDFromUpdateExtra : idExtractor := mkExtractor "UpdateSessionExtraSettingsRequest" msg_SessionId.
Definition sessionIDFromIssueLink : idExtractor := mkExtractor "IssueResoniteLinkConnectionRequest" msg_SessionId.
Definition groupIDFromGet : idExtractor := mkExtractor "GetGroupRequest" GetGroupId.
Definition groupIDFromUpdate : idExtractor := mkExtractor "UpdateGroupRequest" GetGroupId.
Definition groupIDFromDelete : idExtractor := mkExtractor "DeleteGroupRequest" GetGroupId.
Definition groupIDFromListMembers : idExtractor := mkExtractor "ListGroupMembersRequest" GetGroupId.
Definition groupIDFromAddMember : idExtractor := mkExtractor "AddGroupMemberRequest" GetGroupId.
Definition groupIDFromRemoveMember : idExtractor := mkExtractor "RemoveGroupMemberRequest" GetGroupId.

(** ** Rules *)

Definition permissionCheck `{StartupParameters} : Type := Ctx → AnyRequest → Go unit.

(** [rpcPermissionRules] *)
Abbreviation Rules := (gmap string permissionCheck).

Section Checks.
Context `{SP : StartupParameters}.
Context {GR : GroupRepository} {RR : RoleRepository} {MR : GroupMemberRepository}.

Definition requireAuthOnly : permissionCheck := λ _ _, ret tt.
Definition publicRPC : permissionCheck := λ _ _, ret tt.

Definition extractClaims (ctx : Ctx) : Go AuthClaims :=
  on_err (connect_NewError CodeUnauthenticated) (lift (GetAuthClaimsFromContext ctx)).

Definition requireAuthenticated : permissionCheck := λ ctx _, extractClaims ctx ;;; ret tt.

Definition permissionDenied (key : string) : Err :=
  connect_NewError CodePermissionDenied (EMsg ("permission required: " +:+ key)).

(** a permission question: its failure is Internal, its refusal PermissionDenied *)
Definition demand (ask : Go bool) (key : string) : Go unit :=
  let* ok := on_err (connect_NewError CodeInternal) ask in
  if negb ok then fail (permissionDenied key) else ret tt.

Definition requirePerm (userID groupID key : string) : Go unit := demand (HasPermission userID groupID key) key.

Definition requireSystemPerm (permKey : string) : permissionCheck := λ ctx _,
  let* claims := extractClaims ctx in demand (HasSystemPermission (ac_UserID claims) permKey) permKey.

(** the head of every rule with a typed message: the cast, then the claims *)
Definition cast {A} (T what : string) (req : AnyRequest) (k : Go A) : Go A :=
  if negb (bool_decide (msg_Type req = T)) then fail (connect_NewError CodeInternal (EMsg what)) else k.
Definition required (id what : string) : Go unit :=
  if bool_decide (id = EmptyString) then fail (connect_NewError CodeInvalidArgument (EMsg (what +:+ " is required"))) else ret tt.

Definition checkHostPermission (permKey : string) (extract : idExtractor) : permissionCheck := λ ctx req,
  cast (ext_Type extract) "unexpected request type in permission rule" req (
    let* claims := extractClaims ctx in
    let hostID := strings_TrimSpace (ext_get extract req) in
    required hostID "host_id" ;;;
    let* groupID := on_err convertErr (HostRepo_GetGroupID hostID) in
    requirePerm (ac_UserID claims) groupID permKey).

Definition checkSessionPermission (permKey : string) (extract : idExtractor) : permissionCheck := λ ctx req,
  cast (ext_Type extract) "unexpected request type in permission rule" req (
    let* claims := extractClaims ctx in
    let sessionID := strings_TrimSpace (ext_get extract req) in
    required sessionID "session_id" ;;;
    let* s := on_err convertErr (SessionRepo_Get sessionID) in
    requirePerm (ac_UserID claims) (Session_GroupID s) permKey).

Definition checkAccountPermission (permKey : string) (extract : idExtractor) : permissionCheck := λ ctx req,
  cast (ext_Type extract) "unexpected request type in permission rule" req (
    let* claims := extractClaims ctx in
    let accountID := strings_TrimSpace (ext_get extract req) in
    required accountID "account_id" ;;;
    let* a := on_err convertErr (GetHeadlessAccount accountID) in
    requirePerm (ac_UserID claims) (HeadlessAccount_GroupID a) permKey).

Definition checkGroupReadable (userID groupID permKey : string) : Go unit :=
  let* canList := on_err (connect_NewError CodeInternal) (HasSystemPermission userID PermKey_SystemGroupList) in
  if canList : bool then ret tt
  else
    let* memberPerms := on_err (connect_NewError CodeInternal) (HasPermission userID groupID PermKey_GroupEdit) in
    if memberPerms : bool then ret tt
    else
      let* groups := on_err (connect_NewError CodeInternal) (groupRepo_ListByUser userID) in
      if existsb (λ g, bool_decide (Group_ID g = groupID)) groups then ret tt else fail (permissionDenied permKey).

Definition checkGroupPermission (permKey : string) (extract : idExtractor) (readOnly : bool) : permissionCheck := λ ctx req,
  cast (ext_Type extract) "unexpected request type in permission rule" req (
    let* claims := extractClaims ctx in
    let groupID := strings_TrimSpace (ext_get extract req) in
    required groupID "group_id" ;;;
    if readOnly then checkGroupReadable (ac_UserID claims) groupID permKey
    else requirePerm (ac_UserID claims) groupID permKey).

Definition checkStartHeadlessHost : permissionCheck := λ ctx req,
  cast "StartHeadlessHostRequest" "unexpected request type" req (
    let* claims := extractClaims ctx in
    let accID := msg_HeadlessAccountId req in
    required accID "headless_account_id" ;;;
    let* acc := on_err convertErr (GetHeadlessAccount accID) in
    let requestedGroupID := GetGroupId req in
    if negb (bool_decide (requestedGroupID = EmptyString)) &&
       negb (bool_decide (HeadlessAccount_GroupID acc = requestedGroupID)) then
      fail (connect_NewError CodeFailedPrecondition (EMsg "account group does not match requested host group"))
    else
      let groupID := HeadlessAccount_GroupID acc in
      requirePerm (ac_UserID claims) groupID PermKey_HostWrite ;;;
      requirePerm (ac_UserID claims) groupID PermKey_AccountUse).

Definition checkCreateHeadlessAccount : permissionCheck := λ ctx req,
  cast "CreateHeadlessAccountRequest" "unexpected request type" req (
    let* claims := extractClaims ctx in
    let* groupID := on_err convertErr (ResolveGroupIDForUser (ac_UserID claims) (GetGroupId req)) in
    requirePerm (ac_UserID claims) groupID PermKey_AccountWrite).

(** the loop over the keys of [checkStartWorld] *)
Fixpoint requirePerms (userID groupID : string) (keys : list string) : Go unit :=
  match keys with
  | [] => ret tt
  | key :: keys' => requirePerm userID groupID key ;;; requirePerms userID groupID keys'
  end.

Definition checkStartWorld : permissionCheck := λ ctx req,
  cast "StartWorldRequest" "unexpected request type" req (
    let* claims := extractClaims ctx in
    let hostID := msg_HostId req in
    required hostID "host_id" ;;;
    let* hostGroupID := on_err convertErr (HostRepo_GetGroupID hostID) in
    let requested := GetGroupId req in
    if negb (bool_decide (requested = EmptyString)) && negb (bool_decide (requested = hostGroupID)) then
      fail (connect_NewError CodeFailedPrecondition (EMsg "session group must equal host group"))
    else
      requirePerms (ac_UserID claims) hostGroupID [PermKey_HostUse; PermKey_AccountUse; PermKey_SessionWrite]).

Definition checkUpdateSessionParameters : permissionCheck := λ ctx req,
  cast "UpdateSessionParametersRequest" "unexpected request type" req (
    let sessionID := msg_ParametersSessionId req in
    required sessionID "session_id" ;;;
    let* claims := extractClaims ctx in
    let* s := on_err convertErr (SessionRepo_Get sessionID) in
    requirePerm (ac_UserID claims) (Session_GroupID s) PermKey_SessionWrite).

Definition checkUpdateGroupMemberRole : permissionCheck := λ ctx req,
  cast "UpdateGroupMemberRoleRequest" "unexpected request type" req (
    let* claims := extractClaims ctx in
    let groupID := GetGroupId req in
    required groupID "group_id" ;;;
    let* g := on_err convertErr (groupRepo_Get groupID) in
    if bool_decide (Group_Type g = GroupType_Personal) then
      demand (HasSystemPermission (ac_UserID claims) PermKey_SystemGroupManage) PermKey_SystemGroupManage
    else requirePerm (ac_UserID claims) groupID PermKey_GroupMembersManage).

Definition checkListRoles : permissionCheck := λ ctx req,
  cast "ListRolesRequest" "unexpected request type" req (
    let* claims := extractClaims ctx in
    let groupID := strings_TrimSpace (GetGroupId req) in
    if bool_decide (groupID = EmptyString) then ret tt
    else checkGroupReadable (ac_UserID claims) groupID PermKey_GroupEdit).

Definition checkCreateRole : permissionCheck := λ ctx req,
  cast "CreateRoleRequest" "unexpected request type" req (
    let* claims := extractClaims ctx in
    if bool_decide (msg_GroupId req = None) || bool_decide (GetGroupId req = EmptyString) then
      demand (HasSystemPermission (ac_UserID claims) PermKey_SystemRoleManage) PermKey_SystemRoleManage
    else requirePerm (ac_UserID claims) (GetGroupId req) PermKey_GroupMembersManage).

Definition checkRoleMutation (ctx : Ctx) (roleID : string) : Go unit :=
  required roleID "role_id" ;;;
  let* claims := extractClaims ctx in
  let* role := on_err convertErr (roleRepo_Get roleID) in
  match Role_GroupID role with
  | Some g =>
      if bool_decide (g = EmptyString) then
        demand (HasSystemPermission (ac_UserID claims) PermKey_SystemRoleManage) PermKey_SystemRoleManage
      else requirePerm (ac_UserID claims) g PermKey_GroupMembersManage
  | None => demand (HasSystemPermission (ac_UserID claims) PermKey_SystemRoleManage) PermKey_SystemRoleManage
  end.

Definition checkUpdateRole : permissionCheck := λ ctx req,
  cast "UpdateRoleRequest" "unexpected request type" req (checkRoleMutation ctx (msg_RoleId req)).
Definition checkDeleteRole : permissionCheck := λ ctx req,
  cast "DeleteRoleRequest" "unexpected request type" req (checkRoleMutation ctx (msg_RoleId req)).

(** ** Registration

    The package-level variables register the rules, a second registration of
    a procedure panics ([None]); then [init] panics unless every known
    procedure has a rule. *)

Definition registerRPCPermission (rules : Rules) (p : string) (check : permissionCheck) : option Rules :=
  if bool_decide (is_Some (rules !! p)) then None else Some (<[p := check]> rules).

Fixpoint register_all (l : list (string * permissionCheck)) (rules : Rules) : option Rules :=
  match l with
  | [] => Some rules
  | (p, check) :: l' =>
      match registerRPCPermission rules p check with Some rules' => register_all l' rules' | None => None end
  end.

Definition init (known : list string) (rules : Rules) : bool :=
  forallb (λ p, bool_decide (is_Some (rules !! p))) known.

(** the name connect gives a method *)
Definition procedure (service method : string) : string := "/hdlctrl.v1." +:+ service +:+ "/" +:+ method.

Definition allKnownProcedures : list string := [
  procedure "ControllerService" "ListHeadlessHost";
  procedure "ControllerService" "GetHeadlessHost";
  procedure "ControllerService" "GetHeadlessHostLogs";
  procedure "ControllerService" "ListHeadlessHostInstances";
  procedure "ControllerService" "ShutdownHeadlessHost";
  procedure "ControllerService" "KillHeadlessHost";
  procedure "ControllerService" "UpdateHeadlessHostSettings";
  procedure "ControllerService" "RestartHeadlessHost";
  procedure "ControllerService" "DeleteHeadlessHost";
  procedure "ControllerService" "AllowHostAccess";
  procedure "ControllerService" "DenyHostAccess";
  procedure "ControllerService" "ListHeadlessHostImageTags";
  procedure "ControllerService" "StartHeadlessHost";
  procedure "ControllerService" "ListHeadlessAccounts";
  procedure "ControllerService" "CreateHeadlessAccount";
  procedure "ControllerService" "DeleteHeadlessAccount";
  procedure "ControllerService" "UpdateHeadlessAccountCredentials";
  procedure "ControllerService" "GetHeadlessAccountStorageInfo";
  procedure "ControllerService" "RefetchHeadlessAccountInfo";
  procedure "ControllerService" "UpdateHeadlessAccountIcon";
  procedure "ControllerService" "FetchWorldInfo";
  procedure "ControllerService" "SearchUserInfo";
  procedure "ControllerService" "SearchWorlds";
  procedure "ControllerService" "GetOwnWorlds";
  procedure "ControllerService" "GetResoniteUser";
  procedure "ControllerService" "GetFriendRequests";
  procedure "ControllerService" "AcceptFriendRequests";
  procedure "ControllerService" "ListContacts";
  procedure "ControllerService" "GetContactMessages";
  procedure "ControllerService" "SendContactMessage";
  procedure "ControllerService" "SearchSessions";
  procedure "ControllerService" "GetSessionDetails";
  procedure "ControllerService" "StartWorld";
  procedure "ControllerService" "StopSession";
  procedure "ControllerService" "DeleteEndedSession";
  procedure "ControllerService" "SaveSessionWorld";
  procedure "ControllerService" "PrepareSessionWorldDownload";
  procedure "ControllerService" "InviteUser";
  procedure "ControllerService" "UpdateUserRole";
  procedure "ControllerService" "UpdateSessionParameters";
  procedure "ControllerService" "UpdateSessionExtraSettings";
  procedure "ControllerService" "ListUsersInSession";
  procedure "ControllerService" "KickUser";
  procedure "ControllerService" "BanUser";
  procedure "ControllerService" "IssueResoniteLinkConnection";
  procedure "ControllerService" "CreateScheduledSessionOperation";
  procedure "ControllerService" "ListScheduledSessionOperations";
  procedure "ControllerService" "CancelScheduledSessionOperation";
  procedure "GroupService" "CreateGroup";
  procedure "GroupService" "GetGroup";
  procedure "GroupService" "ListGroups";
  procedure "GroupService" "UpdateGroup";
  procedure "GroupService" "DeleteGroup";
  procedure "GroupService" "ListGroupMembers";
  procedure "GroupService" "AddGroupMember";
  procedure "GroupService" "RemoveGroupMember";
  procedure "GroupService" "UpdateGroupMemberRole";
  procedure "RoleService" "ListRoles";
  procedure "RoleService" "CreateRole";
  procedure "RoleService" "UpdateRole";
  procedure "RoleService" "DeleteRole";
  procedure "RoleService" "ListPermissions";
  procedure "RoleService" "GetMyPermissions";
  procedure "UserService" "ListUsers";
  procedure "UserService" "GetUser";
  procedure "UserService" "CreateRegistrationToken";
  procedure "UserService" "DeleteUser";
  procedure "UserService" "GetTokenByPassword";
  procedure "UserService" "ValidateRegistrationToken";
  procedure "UserService" "RegisterWithToken";
  procedure "UserService" "RefreshToken";
  procedure "UserService" "ChangePassword" ].

(** the declarations of the service files, in the order of the file names *)
Definition registrations : list (string * permissionCheck) := [
  (procedure "ControllerService" "CreateHeadlessAccount", checkCreateHeadlessAccount);
  (procedure "ControllerService" "ListHeadlessAccounts", requireAuthOnly);
  (procedure "ControllerService" "DeleteHeadlessAccount", checkAccountPermission PermKey_AccountWrite accountIDFromDelete);
  (procedure "ControllerService" "UpdateHeadlessAccountCredentials", checkAccountPermission PermKey_AccountWrite accountIDFromUpdateCreds);
  (procedure "ControllerService" "GetHeadlessAccountStorageInfo", checkAccountPermission PermKey_AccountRead accountIDFromStorageInfo);
  (procedure "ControllerService" "RefetchHeadlessAccountInfo", checkAccountPermission PermKey_AccountWrite accountIDFromRefetch);
  (procedure "ControllerService" "UpdateHeadlessAccountIcon", checkAccountPermission PermKey_AccountWrite accountIDFromUpdateIcon);
  (procedure "ControllerService" "AcceptFriendRequests", checkAccountPermission PermKey_AccountUse accountIDFromAcceptFriends);
  (procedure "ControllerService" "GetFriendRequests", checkAccountPermission PermKey_AccountUse accountIDFromGetFriendRequests);
  (procedure "ControllerService" "SearchUserInfo", checkHostPermission PermKey_HostUse hostIDFromSearchUserInfo);
  (procedure "ControllerService" "FetchWorldInfo", checkHostPermission PermKey_HostUse hostIDFromFetchWorldInfo);
  (procedure "ControllerService" "GetResoniteUser", requireAuthOnly);
  (procedure "ControllerService" "GetOwnWorlds", checkHostPermission PermKey_HostUse hostIDFromGetOwnWorlds);
  (procedure "ControllerService" "SearchWorlds", requireAuthOnly);
  (procedure "ControllerService" "ListContacts", checkAccountPermission PermKey_AccountRead accountIDFromListContacts);
  (procedure "ControllerService" "GetContactMessages", checkAccountPermission PermKey_AccountUse accountIDFromGetMessages);
  (procedure "ControllerService" "SendContactMessage", checkAccountPermission PermKey_AccountUse accountIDFromSendMessage);
  (procedure "ControllerService" "ListHeadlessHostImageTags", requireAuthOnly);
  (procedure "ControllerService" "StartHeadlessHost", checkStartHeadlessHost);
  (procedure "ControllerService" "RestartHeadlessHost", checkHostPermission PermKey_HostWrite hostIDFromRestart);
  (procedure "ControllerService" "UpdateHeadlessHostSettings", checkHostPermission PermKey_HostWrite hostIDFromUpdateSettings);
  (procedure "ControllerService" "GetHeadlessHostLogs", checkHostPermission PermKey_HostRead hostIDFromGetLogs);
  (procedure "ControllerService" "ListHeadlessHostInstances", checkHostPermission PermKey_HostRead hostIDFromListInstances);
  (procedure "ControllerService" "ShutdownHeadlessHost", checkHostPermission PermKey_HostWrite hostIDFromShutdown);
  (procedure "ControllerService" "KillHeadlessHost", checkHostPermission PermKey_HostWrite hostIDFromKill);
  (procedure "ControllerService" "AllowHostAccess", checkHostPermission PermKey_HostWrite hostIDFromAllowAccess);
  (procedure "ControllerService" "DenyHostAccess", checkHostPermission PermKey_HostWrite hostIDFromDenyAccess);
  (procedure "ControllerService" "GetHeadlessHost", checkHostPermission PermKey_HostRead hostIDFromGet);
  (procedure "ControllerService" "ListHeadlessHost", requireAuthOnly);
  (procedure "ControllerService" "DeleteHeadlessHost", checkHostPermission PermKey_HostWrite hostIDFromDelete);
  (procedure "ControllerService" "BanUser", checkHostPermission PermKey_SessionWrite hostIDFromBan);
  (procedure "ControllerService" "KickUser", checkHostPermission PermKey_SessionWrite hostIDFromKick);
  (procedure "ControllerService" "GetSessionDetails", checkSessionPermission PermKey_SessionRead sessionIDFromGetDetails);
  (procedure "ControllerService" "ListUsersInSession", checkHostPermission PermKey_SessionRead hostIDFromListUsersInSession);
  (procedure "ControllerService" "SaveSessionWorld", checkSessionPermission PermKey_SessionWrite sessionIDFromSave);
  (procedure "ControllerService" "PrepareSessionWorldDownload", checkSessionPermission PermKey_SessionRead sessionIDFromPrepareDownload);
  (procedure "ControllerService" "UpdateSessionParameters", checkUpdateSessionParameters);
  (procedure "ControllerService" "UpdateUserRole", checkHostPermission PermKey_SessionWrite hostIDFromUpdateUserRole);
  (procedure "ControllerService" "StartWorld", checkStartWorld);
  (procedure "ControllerService" "InviteUser", checkHostPermission PermKey_SessionWrite hostIDFromInviteUser);
  (procedure "ControllerService" "IssueResoniteLinkConnection", checkSessionPermission PermKey_SessionWrite sessionIDFromIssueLink);
  (procedure "ControllerService" "StopSession", checkSessionPermission PermKey_SessionWrite sessionIDFromStop);
  (procedure "ControllerService" "SearchSessions", requireAuthOnly);
  (procedure "ControllerService" "DeleteEndedSession", checkSessionPermission PermKey_SessionWrite sessionIDFromDelete);
  (procedure "ControllerService" "UpdateSessionExtraSettings", checkSessionPermission PermKey_SessionWrite sessionIDFromUpdateExtra);
  (procedure "GroupService" "CreateGroup", requireSystemPerm PermKey_SystemGroupManage);
  (procedure "GroupService" "GetGroup", checkGroupPermission PermKey_GroupEdit groupIDFromGet true);
  (procedure "GroupService" "ListGroups", requireAuthOnly);
  (procedure "GroupService" "UpdateGroup", checkGroupPermission PermKey_GroupEdit groupIDFromUpdate false);
  (procedure "GroupService" "DeleteGroup", checkGroupPermission PermKey_GroupEdit groupIDFromDelete false);
  (procedure "GroupService" "ListGroupMembers", checkGroupPermission PermKey_GroupEdit groupIDFromListMembers true);
  (procedure "GroupService" "AddGroupMember", checkGroupPermission PermKey_GroupMembersManage groupIDFromAddMember false);
  (procedure "GroupService" "RemoveGroupMember", checkGroupPermission PermKey_GroupMembersManage groupIDFromRemoveMember false);
  (procedure "GroupService" "UpdateGroupMemberRole", checkUpdateGroupMemberRole);
  (procedure "RoleService" "ListRoles", checkListRoles);
  (procedure "RoleService" "CreateRole", checkCreateRole);
  (procedure "RoleService" "UpdateRole", checkUpdateRole);
  (procedure "RoleService" "DeleteRole", checkDeleteRole);
  (procedure "RoleService" "ListPermissions", requireAuthOnly);
  (procedure "RoleService" "GetMyPermissions", requireAuthOnly);
  (procedure "ControllerService" "CreateScheduledSessionOperation", requireAuthOnly);
  (procedure "ControllerService" "ListScheduledSessionOperations", requireAuthOnly);
  (procedure "ControllerService" "CancelScheduledSessionOperation", requireAuthOnly);
  (procedure "UserService" "GetTokenByPassword", publicRPC);
  (procedure "UserService" "ValidateRegistrationToken", publicRPC);
  (procedure "UserService" "RegisterWithToken", publicRPC);
  (procedure "UserService" "RefreshToken", publicRPC);
  (procedure "UserService" "ChangePassword", requireAuthenticated);
  (procedure "UserService" "ListUsers", requireAuthenticated);
  (procedure "UserService" "GetUser", requireAuthenticated);
  (procedure "UserService" "CreateRegistrationToken", requireSystemPerm PermKey_SystemUserCreate);
  (procedure "UserService" "DeleteUser", requireSystemPerm PermKey_SystemUserDelete) ].

(** ** The interceptor *)

Definition WrapUnary {A} (rules : Rules) (next : Ctx → AnyRequest → Go A) (ctx : Ctx) (req : AnyRequest) : Go A :=
  match rules !! req_Procedure req with
  | None => fail (connect_NewError CodePermissionDenied (EMsg ("rpc has no permission rule: " +:+ req_Procedure req)))
  | Some check => check ctx req ;;; next ctx req
  end.
End Checks.
