(* ===== verification/RpcAccess.v ===== *)
(** * What the interceptor guarantees

    The access matrix of the RPCs as data, what each entry means over the
    tables, and the proof that the registered rules implement it: a handler
    runs only when its entry allows the request, and a request its entry
    allows is stopped only by a failing database. *)

From S2P Require Import Prelude Entity Json Models Queries Ports PermissionUsecase Repositories Headless Resources PlainJson.
From S2P Require Import StoreInvariant PermissionInvariant PermissionSystem PermissionDecisions PermissionSafety RpcPermission.
From stdpp Require Import base gmap strings list sorting.
From Stdlib Require Import ZArith.

Implicit Types (w : World) (ctx : Ctx).

Section Access.
Context `{SP : StartupParameters}.

(** ** The matrix *)

Inductive Access : Type :=
  | Open
  | Authenticated
  | OnSystem (k : string)
  | OnResource (T : string) (group_of : AnyRequest → string → DB → option string) (ks : list string)
  | ReadGroup (T : string)
  | GlobalOrReadGroup
  | MemberRole
  | NewRole
  | ExistingRole (T : string).

Definition nonempty (s : string) : option string := if bool_decide (s = EmptyString) then None else Some s.
Definition found {A B} (f : A → B) (r : Result A) : option B := match r with Ok a => Some (f a) | Fail _ => None end.

(** The group a request is about, for a user and a store. *)
Definition host_of (get : AnyRequest → string) (req : AnyRequest) (_ : string) (d : DB) : option string :=
  id ← nonempty (strings_TrimSpace (get req)); ho_GroupID <$> t_hosts d !! id.
Definition session_of (get : AnyRequest → string) (req : AnyRequest) (_ : string) (d : DB) : option string :=
  id ← nonempty (strings_TrimSpace (get req)); found Session_GroupID (get_session id d).
Definition account_of (get : AnyRequest → string) (req : AnyRequest) (_ : string) (d : DB) : option string :=
  id ← nonempty (strings_TrimSpace (get req)); ha_GroupID <$> t_headless_accounts d !! id.
Definition given_group (req : AnyRequest) (_ : string) (_ : DB) : option string := nonempty (strings_TrimSpace (GetGroupId req)).
Definition given_or_personal (req : AnyRequest) (u : string) (d : DB) : option string :=
  match nonempty (GetGroupId req) with Some g => Some g | None => found Group_ID (q_personal u d) end.
(** the group of the account (host), which the requested group must equal when there is one *)
Definition agreed (req : AnyRequest) (g : string) : option string :=
  match nonempty (GetGroupId req) with
  | Some g' => if bool_decide (g = g') then Some g else None
  | None => Some g
  end.
Definition account_group_agreed (req : AnyRequest) (_ : string) (d : DB) : option string :=
  id ← nonempty (msg_HeadlessAccountId req); a ← t_headless_accounts d !! id; agreed req (ha_GroupID a).
Definition host_group_agreed (req : AnyRequest) (_ : string) (d : DB) : option string :=
  id ← nonempty (msg_HostId req); h ← t_hosts d !! id; agreed req (ho_GroupID h).
Definition parameters_session (req : AnyRequest) (_ : string) (d : DB) : option string :=
  id ← nonempty (msg_ParametersSessionId req); found Session_GroupID (get_session id d).

(** A group may be read by its members, its editors and the holders of system:group.list. *)
Definition readable (d : DB) (u g : string) : Prop :=
  granted d u SystemGroupID PermKey_SystemGroupList ∨ may d u g PermKey_GroupEdit ∨ is_Some (t_group_members d !! (g, u)).

(** Managing a role: of a group, or a global one. *)
Definition may_manage_role (d : DB) (u : string) (gid : option string) : Prop := may_change_role d u gid.

Definition allows (a : Access) (d : DB) ctx (req : AnyRequest) : Prop :=
  match a with
  | Open => True
  | Authenticated => is_Some ctx
  | OnSystem k => ∃ c, ctx = Some c ∧ granted d (ac_UserID c) SystemGroupID k
  | OnResource T group_of ks =>
      msg_Type req = T ∧ ∃ c g, ctx = Some c ∧ group_of req (ac_UserID c) d = Some g ∧
        ∀ k, k ∈ ks → may d (ac_UserID c) g k
  | ReadGroup T =>
      msg_Type req = T ∧ ∃ c g, ctx = Some c ∧ nonempty (strings_TrimSpace (GetGroupId req)) = Some g ∧ readable d (ac_UserID c) g
  | GlobalOrReadGroup =>
      msg_Type req = "ListRolesRequest" ∧ ∃ c, ctx = Some c ∧
        ∀ g, nonempty (strings_TrimSpace (GetGroupId req)) = Some g → readable d (ac_UserID c) g
  | MemberRole =>
      msg_Type req = "UpdateGroupMemberRoleRequest" ∧ ∃ c g row, ctx = Some c ∧ nonempty (GetGroupId req) = Some g ∧
        t_groups d !! g = Some row ∧ may_change_member d (ac_UserID c) g (gr_Type row)
  | NewRole =>
      msg_Type req = "CreateRoleRequest" ∧ ∃ c, ctx = Some c ∧ may_manage_role d (ac_UserID c) (msg_GroupId req)
  | ExistingRole T =>
      msg_Type req = T ∧ ∃ c r row, ctx = Some c ∧ nonempty (msg_RoleId req) = Some r ∧
        t_roles d !! r = Some row ∧ may_manage_role d (ac_UserID c) (ro_GroupID row)
  end.

Definition access_table : list (string * Access) := [
  (procedure "ControllerService" "CreateHeadlessAccount", OnResource "CreateHeadlessAccountRequest" given_or_personal [PermKey_AccountWrite]);
  (procedure "ControllerService" "ListHeadlessAccounts", Open);
  (procedure "ControllerService" "DeleteHeadlessAccount", OnResource "DeleteHeadlessAccountRequest" (account_of msg_AccountId) [PermKey_AccountWrite]);
  (procedure "ControllerService" "UpdateHeadlessAccountCredentials", OnResource "UpdateHeadlessAccountCredentialsRequest" (account_of msg_AccountId) [PermKey_AccountWrite]);
  (procedure "ControllerService" "GetHeadlessAccountStorageInfo", OnResource "GetHeadlessAccountStorageInfoRequest" (account_of msg_AccountId) [PermKey_AccountRead]);
  (procedure "ControllerService" "RefetchHeadlessAccountInfo", OnResource "RefetchHeadlessAccountInfoRequest" (account_of msg_AccountId) [PermKey_AccountWrite]);
  (procedure "ControllerService" "UpdateHeadlessAccountIcon", OnResource "UpdateHeadlessAccountIconRequest" (account_of msg_AccountId) [PermKey_AccountWrite]);
  (procedure "ControllerService" "AcceptFriendRequests", OnResource "AcceptFriendRequestsRequest" (account_of msg_HeadlessAccountId) [PermKey_AccountUse]);
  (procedure "ControllerService" "GetFriendRequests", OnResource "GetFriendRequestsRequest" (account_of msg_HeadlessAccountId) [PermKey_AccountUse]);
  (procedure "ControllerService" "SearchUserInfo", OnResource "SearchUserInfoRequest" (host_of msg_HostId) [PermKey_HostUse]);
  (procedure "ControllerService" "FetchWorldInfo", OnResource "FetchWorldInfoRequest" (host_of msg_HostId) [PermKey_HostUse]);
  (procedure "ControllerService" "GetResoniteUser", Open);
  (procedure "ControllerService" "GetOwnWorlds", OnResource "GetOwnWorldsRequest" (host_of msg_HostId) [PermKey_HostUse]);
  (procedure "ControllerService" "SearchWorlds", Open);
  (procedure "ControllerService" "ListContacts", OnResource "ListContactsRequest" (account_of msg_HeadlessAccountId) [PermKey_AccountRead]);
  (procedure "ControllerService" "GetContactMessages", OnResource "GetContactMessagesRequest" (account_of msg_HeadlessAccountId) [PermKey_AccountUse]);
  (procedure "ControllerService" "SendContactMessage", OnResource "SendContactMessageRequest" (account_of msg_HeadlessAccountId) [PermKey_AccountUse]);
  (procedure "ControllerService" "ListHeadlessHostImageTags", Open);
  (procedure "ControllerService" "StartHeadlessHost", OnResource "StartHeadlessHostRequest" account_group_agreed [PermKey_HostWrite; PermKey_AccountUse]);
  (procedure "ControllerService" "RestartHeadlessHost", OnResource "RestartHeadlessHostRequest" (host_of msg_HostId) [PermKey_HostWrite]);
  (procedure "ControllerService" "UpdateHeadlessHostSettings", OnResource "UpdateHeadlessHostSettingsRequest" (host_of msg_HostId) [PermKey_HostWrite]);
  (procedure "ControllerService" "GetHeadlessHostLogs", OnResource "GetHeadlessHostLogsRequest" (host_of msg_HostId) [PermKey_HostRead]);
  (procedure "ControllerService" "ListHeadlessHostInstances", OnResource "ListHeadlessHostInstancesRequest" (host_of msg_HostId) [PermKey_HostRead]);
  (procedure "ControllerService" "ShutdownHeadlessHost", OnResource "ShutdownHeadlessHostRequest" (host_of msg_HostId) [PermKey_HostWrite]);
  (procedure "ControllerService" "KillHeadlessHost", OnResource "KillHeadlessHostRequest" (host_of msg_HostId) [PermKey_HostWrite]);
  (procedure "ControllerService" "AllowHostAccess", OnResource "AllowHostAccessRequest" (host_of msg_HostId) [PermKey_HostWrite]);
  (procedure "ControllerService" "DenyHostAccess", OnResource "DenyHostAccessRequest" (host_of msg_HostId) [PermKey_HostWrite]);
  (procedure "ControllerService" "GetHeadlessHost", OnResource "GetHeadlessHostRequest" (host_of msg_HostId) [PermKey_HostRead]);
  (procedure "ControllerService" "ListHeadlessHost", Open);
  (procedure "ControllerService" "DeleteHeadlessHost", OnResource "DeleteHeadlessHostRequest" (host_of msg_HostId) [PermKey_HostWrite]);
  (procedure "ControllerService" "BanUser", OnResource "BanUserRequest" (host_of msg_HostId) [PermKey_SessionWrite]);
  (procedure "ControllerService" "KickUser", OnResource "KickUserRequest" (host_of msg_HostId) [PermKey_SessionWrite]);
  (procedure "ControllerService" "GetSessionDetails", OnResource "GetSessionDetailsRequest" (session_of msg_SessionId) [PermKey_SessionRead]);
  (procedure "ControllerService" "ListUsersInSession", OnResource "ListUsersInSessionRequest" (host_of msg_HostId) [PermKey_SessionRead]);
  (procedure "ControllerService" "SaveSessionWorld", OnResource "SaveSessionWorldRequest" (session_of msg_SessionId) [PermKey_SessionWrite]);
  (procedure "ControllerService" "PrepareSessionWorldDownload", OnResource "PrepareSessionWorldDownloadRequest" (session_of msg_SessionId) [PermKey_SessionRead]);
  (procedure "ControllerService" "UpdateSessionParameters", OnResource "UpdateSessionParametersRequest" parameters_session [PermKey_SessionWrite]);
  (procedure "ControllerService" "UpdateUserRole", OnResource "UpdateUserRoleRequest" (host_of msg_HostId) [PermKey_SessionWrite]);
  (procedure "ControllerService" "StartWorld", OnResource "StartWorldRequest" host_group_agreed [PermKey_HostUse; PermKey_AccountUse; PermKey_SessionWrite]);
  (procedure "ControllerService" "InviteUser", OnResource "InviteUserRequest" (host_of msg_HostId) [PermKey_SessionWrite]);
  (procedure "ControllerService" "IssueResoniteLinkConnection", OnResource "IssueResoniteLinkConnectionRequest" (session_of msg_SessionId) [PermKey_SessionWrite]);
  (procedure "ControllerService" "StopSession", OnResource "StopSessionRequest" (session_of msg_SessionId) [PermKey_SessionWrite]);
  (procedure "ControllerService" "SearchSessions", Open);
  (procedure "ControllerService" "DeleteEndedSession", OnResource "DeleteEndedSessionRequest" (session_of msg_SessionId) [PermKey_SessionWrite]);
  (procedure "ControllerService" "UpdateSessionExtraSettings", OnResource "UpdateSessionExtraSettingsRequest" (session_of msg_SessionId) [PermKey_SessionWrite]);
  (procedure "GroupService" "CreateGroup", OnSystem PermKey_SystemGroupManage);
  (procedure "GroupService" "GetGroup", ReadGroup "GetGroupRequest");
  (procedure "GroupService" "ListGroups", Open);
  (procedure "GroupService" "UpdateGroup", OnResource "UpdateGroupRequest" given_group [PermKey_GroupEdit]);
  (procedure "GroupService" "DeleteGroup", OnResource "DeleteGroupRequest" given_group [PermKey_GroupEdit]);
  (procedure "GroupService" "ListGroupMembers", ReadGroup "ListGroupMembersRequest");
  (procedure "GroupService" "AddGroupMember", OnResource "AddGroupMemberRequest" given_group [PermKey_GroupMembersManage]);
  (procedure "GroupService" "RemoveGroupMember", OnResource "RemoveGroupMemberRequest" given_group [PermKey_GroupMembersManage]);
  (procedure "GroupService" "UpdateGroupMemberRole", MemberRole);
  (procedure "RoleService" "ListRoles", GlobalOrReadGroup);
  (procedure "RoleService" "CreateRole", NewRole);
  (procedure "RoleService" "UpdateRole", ExistingRole "UpdateRoleRequest");
  (procedure "RoleService" "DeleteRole", ExistingRole "DeleteRoleRequest");
  (procedure "RoleService" "ListPermissions", Open);
  (procedure "RoleService" "GetMyPermissions", Open);
  (procedure "ControllerService" "CreateScheduledSessionOperation", Open);
  (procedure "ControllerService" "ListScheduledSessionOperations", Open);
  (procedure "ControllerService" "CancelScheduledSessionOperation", Open);
  (procedure "UserService" "GetTokenByPassword", Open);
  (procedure "UserService" "ValidateRegistrationToken", Open);
  (procedure "UserService" "RegisterWithToken", Open);
  (procedure "UserService" "RefreshToken", Open);
  (procedure "UserService" "ChangePassword", Authenticated);
  (procedure "UserService" "ListUsers", Authenticated);
  (procedure "UserService" "GetUser", Authenticated);
  (procedure "UserService" "CreateRegistrationToken", OnSystem PermKey_SystemUserCreate);
  (procedure "UserService" "DeleteUser", OnSystem PermKey_SystemUserDelete) ].

(** ** Gates

    A computation that reads, and lets the request pass exactly when [P]
    holds, a failing database apart; its errors are connect errors. *)

Definition gate (m : Go unit) (P : Prop) w : Prop :=
  only_faults w (m w).2 ∧
  match (m w).1 with
  | Ok _ => P
  | Fail (EConnect _ e) => ¬ P ∨ (transient e = true ∧ w_faults w ≠ [])
  | Fail _ => False
  end.

#[export] Instance gate_proper m : Proper (iff ==> eq ==> iff) (gate m).
Proof.
  intros P Q HPQ w ? <-. unfold gate. destruct (m w).1 as [|[]]; try tauto; rewrite HPQ; tauto.
Qed.

(** an error conversion that keeps the error inside a connect error *)
Definition wraps (h : Err → Err) : Prop := ∀ e, ∃ c, h e = EConnect c e.
Lemma wraps_NewError c : wraps (connect_NewError c).
Proof. intros e. by exists c. Qed.
Lemma wraps_convertErr : wraps convertErr.
Proof. intros e. unfold convertErr, connect_NewError. repeat case_match; eauto. Qed.

Lemma gate_ret (P : Prop) w : P → gate (ret tt) P w.
Proof. intros H. split; [reflexivity|exact H]. Qed.
Lemma gate_fail c e (P : Prop) w : ¬ P → gate (fail (connect_NewError c e)) P w.
Proof. intros H. split; [reflexivity|by left]. Qed.

Lemma gate_later (m : Go unit) (P : Prop) w w1 w2 r :
  only_faults w w1 → gate m P w1 → m w1 = (r, w2) →
  only_faults w w2 ∧ match r with Ok _ => P | Fail (EConnect _ e) => ¬ P ∨ (transient e = true ∧ w_faults w ≠ []) | Fail _ => False end.
Proof.
  intros Hof [Hof' Hr] E. rewrite E in *. simpl in *. split; [by etrans|].
  destruct r as [|[]]; try done. destruct Hr as [?|[? Hne]]; [by left|right]. split; [done|].
  by eapply only_faults_nonempty.
Qed.

Lemma gate_read {A} h (m : Go A) f (k : A → Go unit) (P : Prop) w :
  wraps h → reads m f →
  (∀ e, f (w_now w) (w_db w) = Fail e → ¬ P) →
  (∀ a w', f (w_now w) (w_db w) = Ok a → only_faults w w' → gate (k a) P w') →
  gate (bind (on_err h m) k) P w.
Proof.
  intros Hh Hm Hfail Hok. destruct (Hm w) as [Hof Hr]. unfold gate, bind, on_err.
  destruct (m w) as [[a|e] w1] eqn:E; simpl in *.
  - destruct Hr as [Hr|(_ & e & ? & _)]; [|done].
    destruct (k a w1) as [r w2] eqn:Ek. simpl. eapply gate_later; [exact Hof|by apply Hok|exact Ek].
  - split; [done|]. destruct (Hh e) as [c ->]. destruct Hr as [Hr|(Hne & e' & [= <-] & Ht)].
    + left. by apply (Hfail e).
    + by right.
Qed.

Lemma gate_claims ctx (k : AuthClaims → Go unit) (P : Prop) w :
  (ctx = None → ¬ P) → (∀ c, ctx = Some c → gate (k c) P w) → gate (bind (extractClaims ctx) k) P w.
Proof.
  intros Hn Hs. destruct ctx as [c|]; [exact (Hs c eq_refl)|]. split; [reflexivity|]. left. by apply Hn.
Qed.

Lemma gate_cast T what req (m : Go unit) (P : Prop) w :
  (P → msg_Type req = T) → (msg_Type req = T → gate m P w) → gate (cast T what req m) P w.
Proof. intros Hn Hs. unfold cast. case_bool_decide; simpl; [by apply Hs|]. apply gate_fail. tauto. Qed.

Lemma gate_required id what (k : unit → Go unit) (P : Prop) w :
  (nonempty id = None → ¬ P) → (nonempty id = Some id → gate (k tt) P w) → gate (bind (required id what) k) P w.
Proof.
  intros Hn Hs. unfold required, nonempty in *. case_bool_decide; [|by apply Hs].
  split; [reflexivity|]. left. by apply Hn.
Qed.

Lemma gate_demand (ask : Go bool) key (b : DB → bool) (P : Prop) w :
  reads ask (λ _ d, Ok (b d)) → (b (w_db w) = true ↔ P) → gate (demand ask key) P w.
Proof.
  intros Hr HP. eapply gate_read; [apply wraps_NewError|exact Hr|done|]. intros ok w' [= <-] _.
  destruct (b (w_db w)); simpl; [apply gate_ret; tauto|apply gate_fail]. intros H. by apply HP in H.
Qed.

Lemma gate_perm u g k (P : Prop) w : (may (w_db w) u g k ↔ P) → gate (requirePerm u g k) P w.
Proof. intros HP. eapply gate_demand; [apply HasPermission_reads|]. simpl. by rewrite holds_may. Qed.
Lemma gate_system u k (P : Prop) w :
  (granted (w_db w) u SystemGroupID k ↔ P) → gate (demand (HasSystemPermission u k) k) P w.
Proof. intros HP. eapply gate_demand; [apply HasSystemPermission_reads|]. simpl. by rewrite has_system_granted. Qed.

(** two gates in a row *)
Lemma gate_seq (m1 : Go unit) (k : unit → Go unit) (P1 P : Prop) w :
  gate m1 P1 w → (P → P1) → (∀ w', only_faults w w' → P1 → gate (k tt) P w') → gate (bind m1 k) P w.
Proof.
  intros [Hof Hr] HP Hk. unfold gate, bind. destruct (m1 w) as [[[]|e] w1] eqn:E; simpl in *.
  - destruct (k tt w1) as [r w2] eqn:Ek. simpl. eapply gate_later; [exact Hof|by apply Hk|exact Ek].
  - split; [done|]. destruct e; try done. destruct Hr; [left; tauto|by right].
Qed.

Lemma gate_perms u g ks (P : Prop) w :
  ((∀ k, k ∈ ks → may (w_db w) u g k) ↔ P) → gate (requirePerms u g ks) P w.
Proof.
  revert P w. induction ks as [|k ks IH]; intros P w HP; simpl.
  - apply gate_ret, HP. intros k Hk. by apply elem_of_nil in Hk.
  - eapply gate_seq with (P1 := may (w_db w) u g k); [by apply gate_perm|rewrite <-HP; set_solver|].
    intros w' Hof Hm. apply IH. rewrite (only_faults_db _ _ Hof), <-HP. set_solver.
Qed.


(** ** Each rule implements its entry *)

Definition implements (check : permissionCheck) (a : Access) : Prop :=
  ∀ ctx req w, store_ok (w_db w) → gate (check ctx req) (allows a (w_db w) ctx req) w.

Lemma implements_requireAuthOnly : implements requireAuthOnly Open.
Proof. intros ctx req w _. by apply gate_ret. Qed.
Lemma implements_publicRPC : implements publicRPC Open.
Proof. intros ctx req w _. by apply gate_ret. Qed.
Lemma implements_requireAuthenticated : implements requireAuthenticated Authenticated.
Proof.
  intros ctx req w _. unfold requireAuthenticated. apply gate_claims; simpl.
  - intros -> []. done.
  - intros c ->. apply gate_ret. eauto.
Qed.
Lemma implements_requireSystemPerm k : implements (requireSystemPerm k) (OnSystem k).
Proof.
  intros ctx req w _. unfold requireSystemPerm. apply gate_claims; simpl.
  - intros -> (c & ? & _). done.
  - intros c ->. apply gate_system. naive_solver.
Qed.

Lemma allows_resource c T group_of ks d req :
  msg_Type req = T →
  allows (OnResource T group_of ks) d (Some c) req ↔
  ∃ g, group_of req (ac_UserID c) d = Some g ∧ ∀ k, k ∈ ks → may d (ac_UserID c) g k.
Proof. intros HT. simpl. naive_solver. Qed.

(** The common shape of the rules about one resource: look it up by the id in
    the message, then ask for one key on its group. *)
Lemma resource_gate {A} T what req ctx id idname (lookup : string → Go A) (f : string → DB → Result A) (grp : A → string) k group_of w :
  (∀ i, reads (lookup i) (λ _ d, f i d)) →
  (∀ u d, group_of req u d = (i ← nonempty id; found grp (f i d))) →
  gate (cast T what req
         (let* claims := extractClaims ctx in
          required id idname ;;;
          let* a := on_err convertErr (lookup id) in
          requirePerm (ac_UserID claims) (grp a) k))
       (allows (OnResource T group_of [k]) (w_db w) ctx req) w.
Proof.
  intros Hl Hg. apply gate_cast; [by intros [? _]|]. intros HT.
  apply gate_claims; [by intros -> [_ (? & ? & ? & _)]|]. intros c ->.
  apply gate_required; intros Hid.
  { rewrite allows_resource, Hg, Hid by done. naive_solver. }
  eapply gate_read; [apply wraps_convertErr|apply Hl| |].
  - cbv beta. intros e He. rewrite allows_resource, Hg, Hid by done. simpl. rewrite He. naive_solver.
  - cbv beta. intros a w' Ha Hof. apply gate_perm. rewrite (only_faults_db _ _ Hof), allows_resource, Hg, Hid by done.
    simpl. rewrite Ha. simpl. setoid_rewrite list_elem_of_singleton. naive_solver.
Qed.

Lemma found_host id d : found (λ g : string, g) (host_group id d) = ho_GroupID <$> t_hosts d !! id.
Proof. unfold host_group, q_GetHost. by destruct (t_hosts d !! id). Qed.
Lemma found_account id d : found HeadlessAccount_GroupID (get_account id d) = ha_GroupID <$> t_headless_accounts d !! id.
Proof. unfold get_account, q_GetHeadlessAccount. by destruct (t_headless_accounts d !! id). Qed.

Lemma implements_host k e : implements (checkHostPermission k e) (OnResource (ext_Type e) (host_of (ext_get e)) [k]).
Proof.
  intros ctx req w _. eapply (resource_gate _ _ _ _ _ _ _ _ (λ g, g)); [apply HostRepo_GetGroupID_reads|].
  intros u d. unfold host_of. destruct (nonempty _); simpl; [by rewrite found_host|done].
Qed.
Lemma implements_session k e : implements (checkSessionPermission k e) (OnResource (ext_Type e) (session_of (ext_get e)) [k]).
Proof. intros ctx req w _. eapply resource_gate; [apply SessionRepo_Get_reads|done]. Qed.
Lemma implements_account k e : implements (checkAccountPermission k e) (OnResource (ext_Type e) (account_of (ext_get e)) [k]).
Proof.
  intros ctx req w _. eapply resource_gate; [apply GetHeadlessAccount_reads|].
  intros u d. unfold account_of. destruct (nonempty _); simpl; [by rewrite found_account|done].
Qed.

Lemma implements_UpdateSessionParameters :
  implements checkUpdateSessionParameters (OnResource "UpdateSessionParametersRequest" parameters_session [PermKey_SessionWrite]).
Proof.
  intros ctx req w _. apply gate_cast; [by intros [? _]|]. intros HT. apply gate_required; intros Hid.
  { intros [_ (c & g & _ & Hg & _)]. unfold parameters_session in Hg. by rewrite Hid in Hg. }
  apply gate_claims; [by intros -> [_ (? & ? & ? & _)]|]. intros c ->.
  eapply gate_read; [apply wraps_convertErr|apply SessionRepo_Get_reads| |].
  - cbv beta. intros e He. rewrite allows_resource by done. unfold parameters_session. rewrite Hid. simpl. rewrite He. naive_solver.
  - cbv beta. intros s w' Hs Hof. apply gate_perm. rewrite (only_faults_db _ _ Hof), allows_resource by done.
    unfold parameters_session. rewrite Hid. simpl. rewrite Hs. simpl. setoid_rewrite list_elem_of_singleton. naive_solver.
Qed.

Lemma implements_CreateHeadlessAccount :
  implements checkCreateHeadlessAccount (OnResource "CreateHeadlessAccountRequest" given_or_personal [PermKey_AccountWrite]).
Proof.
  intros ctx req w _. apply gate_cast; [by intros [? _]|]. intros HT.
  apply gate_claims; [by intros -> [_ (? & ? & ? & _)]|]. intros c ->.
  eapply gate_read with (f := λ _ d, match nonempty (GetGroupId req) with
      Some g => Ok g | None => rbind (q_personal (ac_UserID c) d) (λ g, Ok (Group_ID g)) end); [apply wraps_convertErr| | |].
  - unfold ResolveGroupIDForUser, nonempty. case_bool_decide; simpl; [|apply reads_ret].
    eapply reads_map; [exact (view_reads_personal (ac_UserID c))|done].
  - cbv beta. intros e He. rewrite allows_resource by done. unfold given_or_personal.
    destruct (nonempty _); [done|]. destruct (q_personal _ _); [done|]. naive_solver.
  - cbv beta. intros g w' Hg Hof. apply gate_perm. rewrite (only_faults_db _ _ Hof), allows_resource by done.
    unfold given_or_personal. setoid_rewrite list_elem_of_singleton. destruct (nonempty _); [simplify_eq; naive_solver|].
    destruct (q_personal _ _); simplify_eq/=. naive_solver.
Qed.

(** the requested group, when there is one, agrees with [g] *)
Lemma agreed_conflict req g :
  negb (bool_decide (GetGroupId req = EmptyString)) && negb (bool_decide (g = GetGroupId req)) = bool_decide (agreed req g = None).
Proof. unfold agreed, nonempty. repeat case_bool_decide; done. Qed.
Lemma agreed_Some req g g' : agreed req g = Some g' → g' = g.
Proof. unfold agreed. destruct (nonempty _); [case_bool_decide|]; congruence. Qed.

Lemma implements_StartHeadlessHost :
  implements checkStartHeadlessHost
    (OnResource "StartHeadlessHostRequest" account_group_agreed [PermKey_HostWrite; PermKey_AccountUse]).
Proof.
  intros ctx req w _. apply gate_cast; [by intros [? _]|]. intros HT.
  apply gate_claims; [by intros -> [_ (? & ? & ? & _)]|]. intros c ->. cbv zeta. apply gate_required; intros Hid.
  { intros [_ (c' & g & _ & Hg & _)]. unfold account_group_agreed in Hg. by rewrite Hid in Hg. }
  eapply gate_read; [apply wraps_convertErr|apply GetHeadlessAccount_reads| |]; cbv beta.
  - intros e He. rewrite allows_resource by done. unfold account_group_agreed. rewrite Hid. simpl.
    unfold get_account, q_GetHeadlessAccount in He. destruct (t_headless_accounts _ !! _); [done|]. naive_solver.
  - intros a w' Ha Hof. unfold get_account, q_GetHeadlessAccount in Ha.
    destruct (t_headless_accounts (w_db w) !! msg_HeadlessAccountId req) as [row|] eqn:Er; [|done]. injection Ha as <-.
    cbn [headlessAccountToEntity HeadlessAccount_GroupID]. rewrite agreed_conflict, allows_resource by done. unfold account_group_agreed. rewrite Hid. simpl. rewrite Er. simpl.
    case_bool_decide as Hc; [apply gate_fail; rewrite Hc; naive_solver|].
    destruct (agreed req (ha_GroupID row)) as [g|] eqn:Eg; [|done]. apply agreed_Some in Eg as ->.
    eapply gate_seq; [by apply gate_perm| |].
    + intros (g & [= <-] & Hk). rewrite (only_faults_db _ _ Hof). apply Hk. set_solver.
    + intros w2 Hof2 Hm. apply gate_perm. rewrite (only_faults_db _ _ Hof2). rewrite (only_faults_db _ _ Hof) in *. split.
      * intros Hm2. exists (ha_GroupID row). split; [done|]. set_solver.
      * intros (g & [= <-] & Hk). apply Hk. set_solver.
Qed.

Lemma implements_StartWorld :
  implements checkStartWorld
    (OnResource "StartWorldRequest" host_group_agreed [PermKey_HostUse; PermKey_AccountUse; PermKey_SessionWrite]).
Proof.
  intros ctx req w _. apply gate_cast; [by intros [? _]|]. intros HT.
  apply gate_claims; [by intros -> [_ (? & ? & ? & _)]|]. intros c ->. cbv zeta. apply gate_required; intros Hid.
  { intros [_ (c' & g & _ & Hg & _)]. unfold host_group_agreed in Hg. by rewrite Hid in Hg. }
  eapply gate_read; [apply wraps_convertErr|apply HostRepo_GetGroupID_reads| |]; cbv beta.
  - intros e He. rewrite allows_resource by done. unfold host_group_agreed. rewrite Hid. simpl.
    unfold host_group, q_GetHost in He. destruct (t_hosts _ !! _); [done|]. naive_solver.
  - intros hg w' Ha Hof. unfold host_group, q_GetHost in Ha.
    destruct (t_hosts (w_db w) !! msg_HostId req) as [row|] eqn:Er; [|done]. injection Ha as <-.
    rewrite (bool_decide_ext (GetGroupId req = ho_GroupID row) (ho_GroupID row = GetGroupId req)) by (split; congruence).
    rewrite agreed_conflict, allows_resource by done. unfold host_group_agreed. rewrite Hid. simpl. rewrite Er. simpl.
    case_bool_decide as Hc; [apply gate_fail; rewrite Hc; naive_solver|].
    destruct (agreed req (ho_GroupID row)) as [g|] eqn:Eg; [|done]. apply agreed_Some in Eg as ->.
    change (gate (requirePerms (ac_UserID c) (ho_GroupID row) [PermKey_HostUse; PermKey_AccountUse; PermKey_SessionWrite])
              (∃ g, Some (ho_GroupID row) = Some g ∧ ∀ k, k ∈ [PermKey_HostUse; PermKey_AccountUse; PermKey_SessionWrite] → may (w_db w) (ac_UserID c) g k) w').
    apply gate_perms. rewrite (only_faults_db _ _ Hof). split; [eauto|]. by intros (g & [= <-] & Hk).
Qed.

(** ** Groups and roles *)

Lemma in_groups_of d u g :
  store_ok d →
  existsb (λ x, bool_decide (Group_ID x = g)) (dbGroupToEntity <$> (fst <$> order_by (λ a b, newest_first (fst a) (fst b)) (join_groups u d))) = true
  ↔ is_Some (t_group_members d !! (g, u)).
Proof.
  intros Hok. rewrite existsb_exists. split.
  - intros (x & Hx & Hid%bool_decide_eq_true). apply list_elem_of_In, list_elem_of_fmap in Hx as (row & -> & Hx).
    apply list_elem_of_fmap in Hx as ([row' m] & -> & Hx). apply elem_of_order_by in Hx. unfold join_groups in Hx.
    apply list_elem_of_omap in Hx as (m' & Hm' & Hj). destruct (t_groups d !! gm_GroupID m') as [row1|] eqn:Eg; [|done].
    injection Hj as -> ->. simpl in Hid. rewrite (ok_group_id _ Hok _ _ Eg) in Hid.
    apply list_elem_of_filter in Hm' as [Hu Hm']. apply elem_of_rows_of in Hm' as [[g' u'] Hk].
    destruct (ok_member_key _ Hok _ _ _ Hk) as [E1 E2]. exists m. congruence.
  - intros [m Hm]. destruct (ok_member _ Hok _ _ _ Hm) as (row & _ & Hrow & _).
    destruct (ok_member_key _ Hok _ _ _ Hm) as [E1 E2].
    exists (dbGroupToEntity row). split; [|apply bool_decide_eq_true; simpl; by apply (ok_group_id _ Hok)].
    apply list_elem_of_In, list_elem_of_fmap. exists row. split; [done|]. apply list_elem_of_fmap. exists (row, m). split; [done|].
    apply elem_of_order_by. unfold join_groups. apply list_elem_of_omap. exists m. split.
    + apply list_elem_of_filter. split; [done|]. apply elem_of_rows_of. eauto.
    + rewrite E1, Hrow. done.
Qed.

Lemma ListByUser_reads u :
  reads (groupRepo_ListByUser u)
    (λ _ d, Ok (dbGroupToEntity <$> (fst <$> order_by (λ a b, newest_first (fst a) (fst b)) (join_groups u d)))).
Proof. eapply reads_map; [apply reads_query|]. intros t d. simpl. by rewrite <-list_fmap_compose. Qed.

Lemma gate_readable u g k (P : Prop) w :
  store_ok (w_db w) → (readable (w_db w) u g ↔ P) → gate (checkGroupReadable u g k) P w.
Proof.
  intros Hok HP. unfold checkGroupReadable, readable in *.
  eapply gate_read; [apply wraps_NewError|apply HasSystemPermission_reads|done|]. intros b1 w1 [= <-] Hof1.
  destruct (has_system _ _ _) eqn:E1; [apply has_system_granted in E1; apply gate_ret; tauto|].
  eapply gate_read; [apply wraps_NewError|apply HasPermission_reads|done|]. intros b2 w2 [= <-] Hof2.
  rewrite (only_faults_db _ _ Hof1). destruct (holds _ _ _ _) eqn:E2; [apply holds_may in E2; apply gate_ret; tauto|].
  eapply gate_read; [apply wraps_NewError|apply ListByUser_reads|done|]. intros gs w3 [= <-] Hof3.
  rewrite (only_faults_db _ _ Hof2), (only_faults_db _ _ Hof1).
  pose proof (in_groups_of (w_db w) u g Hok) as Hin. rewrite <-has_system_granted, <-holds_may, E1, E2 in HP.
  destruct (existsb _ _); [apply gate_ret; tauto|apply gate_fail]. rewrite <-HP. intuition discriminate.
Qed.

Lemma implements_ReadGroup k e : ext_get e = GetGroupId → implements (checkGroupPermission k e true) (ReadGroup (ext_Type e)).
Proof.
  intros He ctx req w Hok. unfold checkGroupPermission. rewrite He. apply gate_cast; [by intros [? _]|]. intros HT.
  apply gate_claims; [by intros -> [_ (? & ? & ? & _)]|]. intros c ->. apply gate_required; intros Hid.
  { intros [_ (c' & g & _ & Hg & _)]. congruence. }
  apply gate_readable; [done|]. simpl. split; [intros; eauto 10|]. intros [_ (c' & g & [= <-] & Hg & Hr)]. congruence.
Qed.

Lemma implements_group k e : ext_get e = GetGroupId → implements (checkGroupPermission k e false) (OnResource (ext_Type e) given_group [k]).
Proof.
  intros He ctx req w Hok. unfold checkGroupPermission. rewrite He. apply gate_cast; [by intros [? _]|]. intros HT.
  apply gate_claims; [by intros -> [_ (? & ? & ? & _)]|]. intros c ->. apply gate_required; intros Hid.
  { intros [_ (c' & g & _ & Hg & _)]. unfold given_group in Hg. congruence. }
  apply gate_perm. rewrite allows_resource by done. unfold given_group. rewrite Hid.
  setoid_rewrite list_elem_of_singleton. naive_solver.
Qed.

Lemma implements_ListRoles : implements checkListRoles GlobalOrReadGroup.
Proof.
  intros ctx req w Hok. apply gate_cast; [by intros [? _]|]. intros HT.
  apply gate_claims; [by intros -> [_ (? & ? & _)]|]. intros c ->. cbv zeta.
  case_bool_decide as Hid.
  - apply gate_ret. split; [done|]. exists c. split; [done|]. intros g Hg. unfold nonempty in Hg.
    by rewrite bool_decide_eq_true_2 in Hg.
  - apply gate_readable; [done|]. simpl. unfold nonempty. rewrite bool_decide_eq_false_2 by done. split.
    + intros Hr. split; [done|]. exists c. split; [done|]. by intros g [= <-].
    + intros [_ (c' & [= <-] & Hr)]. by apply Hr.
Qed.

Lemma implements_UpdateGroupMemberRole : implements checkUpdateGroupMemberRole MemberRole.
Proof.
  intros ctx req w Hok. apply gate_cast; [by intros [? _]|]. intros HT.
  apply gate_claims; [by intros -> [_ (? & ? & ? & ? & _)]|]. intros c ->. cbv zeta. apply gate_required; intros Hid.
  { intros [_ (c' & g & row & _ & Hg & _)]. congruence. }
  eapply gate_read; [apply wraps_convertErr|apply groupRepo_Get_reads| |]; cbv beta.
  - intros e He [_ (c' & g & row & _ & Hg & Hrow & _)]. rewrite Hid in Hg. injection Hg as <-.
    unfold get_group in He. by rewrite Hrow in He.
  - intros g w' Hg Hof. apply get_group_Ok in Hg as (row & Hrow & ->).
    assert (allows MemberRole (w_db w) (Some c) req ↔ may_change_member (w_db w) (ac_UserID c) (GetGroupId req) (gr_Type row)) as Hiff.
    { simpl. split; [intros [_ (c' & g & row' & [= <-] & Hg & Hrow' & Hm)]|intros Hm; eauto 10].
      rewrite Hid in Hg. injection Hg as <-. rewrite Hrow in Hrow'. by injection Hrow' as <-. }
    rewrite Hiff. unfold may_change_member. simpl. rewrite <-(only_faults_db _ _ Hof). case_bool_decide.
    + by apply gate_system.
    + by apply gate_perm.
Qed.

Lemma gate_manage_role u gid (P : Prop) w :
  (may_manage_role (w_db w) u gid ↔ P) →
  gate (match gid with
        | Some g => if bool_decide (g = EmptyString) then demand (HasSystemPermission u PermKey_SystemRoleManage) PermKey_SystemRoleManage
                    else requirePerm u g PermKey_GroupMembersManage
        | None => demand (HasSystemPermission u PermKey_SystemRoleManage) PermKey_SystemRoleManage
        end) P w.
Proof.
  intros HP. unfold may_manage_role, may_change_role, RoleUsecase.group_scoped in HP.
  destruct gid as [g|]; simpl in HP; [case_bool_decide; simpl in HP|]; [by apply gate_system|by apply gate_perm|by apply gate_system].
Qed.

Lemma implements_CreateRole : implements checkCreateRole NewRole.
Proof.
  intros ctx req w Hok. apply gate_cast; [by intros [? _]|]. intros HT.
  apply gate_claims; [by intros -> [_ (? & ? & _)]|]. intros c ->.
  assert (may_manage_role (w_db w) (ac_UserID c) (msg_GroupId req) ↔ allows NewRole (w_db w) (Some c) req) as Hiff.
  { simpl. naive_solver. }
  pose proof (gate_manage_role _ _ _ _ Hiff) as Hg. unfold GetGroupId. destruct (msg_GroupId req) as [g|] eqn:Eg; simpl; [|exact Hg].
  exact Hg.
Qed.

Lemma role_mutation_gate T req ctx w :
  msg_Type req = T → gate (checkRoleMutation ctx (msg_RoleId req)) (allows (ExistingRole T) (w_db w) ctx req) w.
Proof.
  intros HT. apply gate_required; intros Hid.
  { intros [_ (c' & r & row & _ & Hr & _)]. congruence. }
  apply gate_claims; [by intros -> [_ (? & ? & ? & ? & _)]|]. intros c ->.
  eapply gate_read; [apply wraps_convertErr|apply roleRepo_Get_reads| |]; cbv beta.
  - intros e He [_ (c' & r & row & _ & Hr & Hrow & _)]. rewrite Hid in Hr. injection Hr as <-.
    unfold get_role in He. by rewrite Hrow in He.
  - intros role w' Hr Hof. apply get_role_Ok in Hr as (row & Hrow & ->). apply gate_manage_role.
    rewrite (only_faults_db _ _ Hof). simpl. split; [intros; eauto 10|].
    intros [_ (c' & r & row' & [= <-] & Hr & Hrow' & Hm)]. rewrite Hid in Hr. injection Hr as <-.
    rewrite Hrow in Hrow'. by injection Hrow' as <-.
Qed.

Lemma implements_UpdateRole : implements checkUpdateRole (ExistingRole "UpdateRoleRequest").
Proof. intros ctx req w _. apply gate_cast; [by intros [? _]|]. by apply role_mutation_gate. Qed.
Lemma implements_DeleteRole : implements checkDeleteRole (ExistingRole "DeleteRoleRequest").
Proof. intros ctx req w _. apply gate_cast; [by intros [? _]|]. by apply role_mutation_gate. Qed.

(** ** The registered rules *)

Lemma registrations_implement :
  Forall2 (λ r a, fst r = fst a ∧ implements (snd r) (snd a)) registrations access_table.
Proof.
  unfold registrations, access_table.
  repeat (apply Forall2_cons; split; [split; [reflexivity|]|]); try apply Forall2_nil; try done;
    first [ apply implements_requireAuthOnly | apply implements_publicRPC | apply implements_requireAuthenticated
          | apply implements_requireSystemPerm | exact (implements_host _ _) | exact (implements_session _ _)
          | exact (implements_account _ _) | (refine (implements_ReadGroup _ _ _); reflexivity) | (refine (implements_group _ _ _); reflexivity)
          | apply implements_CreateHeadlessAccount | apply implements_StartHeadlessHost | apply implements_StartWorld
          | apply implements_UpdateSessionParameters | apply implements_ListRoles | apply implements_UpdateGroupMemberRole
          | apply implements_CreateRole | apply implements_UpdateRole | apply implements_DeleteRole ].
Qed.

Lemma register_all_lookup (l : list (string * permissionCheck)) (m r : Rules) p c :
  register_all l m = Some r → r !! p = Some c ↔ (p, c) ∈ l ∨ m !! p = Some c.
Proof.
  revert m. induction l as [|[q d] l IH]; intros m; simpl.
  - intros [= ->]. split; [by right|]. by intros [?%elem_of_nil|?].
  - unfold registerRPCPermission. case_bool_decide as Hq; [done|]. intros H. rewrite (IH _ H), elem_of_cons, lookup_insert_Some.
    rewrite <-eq_None_not_Some in Hq. split.
    + intros [?|[[<- <-]|[_ ?]]]; auto.
    + intros [[[= -> ->]|?]|Hm]; auto. right. right. split; [|done]. intros ->. congruence.
Qed.

Lemma register_all_total (l : list (string * permissionCheck)) (m : Rules) :
  NoDup (fst <$> l) → (∀ p, p ∈ fst <$> l → m !! p = None) → is_Some (register_all l m).
Proof.
  revert m. induction l as [|[q d] l IH]; intros m; simpl; [eauto|].
  intros [Hq Hnd]%NoDup_cons Hm. unfold registerRPCPermission. rewrite bool_decide_eq_false_2.
  2: { rewrite Hm by set_solver. by intros [? ?]. }
  apply IH; [done|]. intros p Hp. rewrite lookup_insert_ne; [apply Hm; set_solver|]. intros ->. done.
Qed.

Lemma nodup_fst_inj {B} (l : list (string * B)) k a b : NoDup (fst <$> l) → (k, a) ∈ l → (k, b) ∈ l → a = b.
Proof.
  induction l as [|[k' c] l IH]; simpl; [by intros _ ?%elem_of_nil|].
  intros [Hn Hnd]%NoDup_cons [Ea|Ha]%elem_of_cons [Eb|Hb]%elem_of_cons.
  - congruence.
  - destruct Hn. injection Ea as <- _. apply list_elem_of_fmap. by exists (k, b).
  - destruct Hn. injection Eb as <- _. apply list_elem_of_fmap. by exists (k, a).
  - by apply IH.
Qed.

Definition registered_names : list string := fst <$> registrations.

Lemma registered_names_table : registered_names = fst <$> access_table.
Proof. reflexivity. Qed.

Lemma registered_names_nodup : NoDup (fst <$> access_table).
Proof. apply (bool_decide_unpack _). vm_compute. exact I. Qed.

Lemma rules_exist : ∃ rules : Rules, register_all registrations ∅ = Some rules.
Proof.
  destruct (register_all_total registrations ∅) as [rules Hr]; [| |by exists rules].
  - change (NoDup registered_names). rewrite registered_names_table. apply registered_names_nodup.
  - intros p _. apply lookup_empty.
Qed.

(** The rule and the matrix entry of a procedure belong together. *)
Lemma lookup_rule (rules : Rules) p :
  register_all registrations ∅ = Some rules →
  match rules !! p with
  | Some check => ∃ a, (p, a) ∈ access_table ∧ implements check a
  | None => ∀ a, (p, a) ∉ access_table
  end.
Proof.
  intros Hr. pose proof registrations_implement as HF.
  destruct (rules !! p) as [check|] eqn:E.
  - apply (register_all_lookup _ _ _ _ _ Hr) in E as [Hin|Hin]; [|by rewrite lookup_empty in Hin].
    apply list_elem_of_lookup in Hin as [i Hi]. destruct (Forall2_lookup_l _ _ _ _ _ HF Hi) as ([p' a] & Ha & Hp & Himp).
    simpl in Hp, Himp. subst p'. exists a. split; [by eapply list_elem_of_lookup_2|done].
  - intros a Hin. apply list_elem_of_lookup in Hin as [i Hi].
    destruct (Forall2_lookup_r _ _ _ _ _ HF Hi) as ([p' check] & Hc & Hp & _). simpl in Hp. subst p'.
    assert (rules !! p = Some check) as E' by (apply (register_all_lookup _ _ _ _ _ Hr); left; by eapply list_elem_of_lookup_2).
    congruence.
Qed.

Definition included (l l' : list string) : bool := forallb (λ p, bool_decide (p ∈ l')) l.
Lemma included_spec l l' p : included l l' = true → p ∈ l → p ∈ l'.
Proof.
  intros H Hp. apply forallb_forall with (x := p) in H; [by apply bool_decide_eq_true in H|by apply list_elem_of_In].
Qed.

(** The interceptor and the matrix. *)
Lemma gate_rules {A} (rules : Rules) (next : Ctx → AnyRequest → Go A) ctx (req : AnyRequest) w :
  register_all registrations ∅ = Some rules → store_ok (w_db w) →
  (∃ a w', (req_Procedure req, a) ∈ access_table ∧ allows a (w_db w) ctx req ∧ only_faults w w' ∧
           WrapUnary rules next ctx req w = next ctx req w') ∨
  (∃ c e w', WrapUnary rules next ctx req w = (Fail (EConnect c e), w') ∧ only_faults w w' ∧
           ((∀ a, (req_Procedure req, a) ∈ access_table → ¬ allows a (w_db w) ctx req) ∨
            (transient e = true ∧ w_faults w ≠ []))).
Proof.
  intros Hr Hok. pose proof (lookup_rule rules (req_Procedure req) Hr) as Hl. unfold WrapUnary.
  destruct (rules !! req_Procedure req) as [check|].
  - destruct Hl as (a & Ha & Himp). destruct (Himp ctx req w Hok) as [Hof Hg]. unfold bind.
    destruct (check ctx req w) as [[[]|e] w'] eqn:E; simpl in *.
    + left. exists a, w'. split; [exact Ha|]. split; [exact Hg|]. split; [exact Hof|reflexivity].
    + right. destruct e; try (exfalso; exact Hg). eexists _, _, w'. split; [reflexivity|]. split; [exact Hof|].
      destruct Hg as [Hg|Hg]; [left|right; exact Hg]. intros a' Ha'.
      rewrite (nodup_fst_inj access_table _ _ _ registered_names_nodup Ha' Ha). exact Hg.
  - right. eexists _, _, w. split; [reflexivity|]. split; [reflexivity|]. left. intros a Ha _. exact (Hl a Ha).
Qed.

(** ** Properties *)

(** The start-up of the permission table cannot panic: no procedure is
    registered twice, the known procedures all have a rule, and no rule is
    for an unknown procedure. *)
Theorem registration_complete :
  ∃ rules : Rules, register_all registrations ∅ = Some rules ∧ init allKnownProcedures rules = true ∧
    ∀ p, is_Some (rules !! p) ↔ p ∈ allKnownProcedures.
Proof.
  destruct rules_exist as [rules Hr].
  assert (∀ p, is_Some (rules !! p) ↔ p ∈ registered_names) as Hdom.
  { intros p. unfold registered_names. rewrite list_elem_of_fmap. split.
    - intros [c Hc]. apply (register_all_lookup _ _ _ _ _ Hr) in Hc as [Hc|Hc].
      + exists (p, c). split; [reflexivity|exact Hc].
      + by rewrite lookup_empty in Hc.
    - intros ([p' c] & -> & Hc). exists c. apply (register_all_lookup _ _ _ _ _ Hr). left. exact Hc. }
  assert (∀ p, p ∈ registered_names ↔ p ∈ allKnownProcedures) as Hknown.
  { rewrite registered_names_table. intros p. split; apply included_spec; vm_compute; reflexivity. }
  exists rules. split; [done|]. split.
  - unfold init. apply forallb_forall. intros p Hp. apply bool_decide_eq_true, Hdom, Hknown. by apply list_elem_of_In.
  - intros p. by rewrite Hdom, Hknown.
Qed.

(** The interceptor runs the handler only for a procedure of the matrix
    whose entry allows the request on the tables as they are; otherwise it
    answers a connect error without running the handler or touching a table,
    and it stops an allowed request only when a statement failed. *)
Theorem interceptor_enforces_matrix {A} (rules : Rules) (next : Ctx → AnyRequest → Go A) ctx (req : AnyRequest) w :
  register_all registrations ∅ = Some rules → store_ok (w_db w) →
  (∃ a w', (req_Procedure req, a) ∈ access_table ∧ allows a (w_db w) ctx req ∧ only_faults w w' ∧
           WrapUnary rules next ctx req w = next ctx req w') ∨
  (∃ c e w', WrapUnary rules next ctx req w = (Fail (EConnect c e), w') ∧ only_faults w w' ∧
           ((∀ a, (req_Procedure req, a) ∈ access_table → ¬ allows a (w_db w) ctx req) ∨
            (transient e = true ∧ w_faults w ≠ []))).
Proof. apply gate_rules. Qed.

End Access.

(** ** A concrete request: the administrator creates an invitation *)

#[local] Existing Instance raw_parameters.

Definition invite_request : AnyRequest :=
  mkAnyRequest (procedure "UserService" "CreateRegistrationToken") EmptyString "CreateRegistrationTokenRequest"
    EmptyString EmptyString EmptyString EmptyString None EmptyString EmptyString.
Definition accept_all (_ : Ctx) (_ : AnyRequest) : Go string := ret "handled".

Lemma interceptor_enforces_matrix_witness :
  ∃ rules : Rules, register_all registrations ∅ = Some rules ∧
    let ctx := user_ctx SystemUserID in let req := invite_request in let w := fresh_world in
    ((∃ a w', (req_Procedure req, a) ∈ access_table ∧ allows a (w_db w) ctx req ∧ only_faults w w' ∧
             WrapUnary rules accept_all ctx req w = accept_all ctx req w') ∨
     (∃ c e w', WrapUnary rules accept_all ctx req w = (Fail (EConnect c e), w') ∧ only_faults w w' ∧
             ((∀ a, (req_Procedure req, a) ∈ access_table → ¬ allows a (w_db w) ctx req) ∨
              (transient e = true ∧ w_faults w ≠ [])))).
Proof.
  destruct rules_exist as [rules Hr].
  exists rules. split; [exact Hr|].
  exact (interceptor_enforces_matrix rules accept_all (user_ctx SystemUserID) invite_request fresh_world Hr (migrated_ok 0%Z)).
Defined.
