(* ===== verification/AuthTokens.v ===== *)
(** * Bearer tokens

    The rest of [src/lib/auth/auth.go]: issuing and parsing the JSON web
    tokens, and the interceptors that turn an Authorization header into the
    claims of the context.  The package [golang-jwt/jwt] is third-party code:
    the class [JWT] holds the calls the program makes and their documented
    behaviour. *)

From S2P Require Import Prelude Entity Models Ports RpcPermission.
From stdpp Require Import base gmap strings list.
From Stdlib Require Import ZArith Lia.

(** ** Valid UTF-8, the strings a JSON encoder keeps as they are *)

Definition in_range (lo hi : nat) (b : Ascii.ascii) : bool :=
  ((lo <=? Ascii.nat_of_ascii b) && (Ascii.nat_of_ascii b <=? hi))%nat.
Definition cont : Ascii.ascii → bool := in_range 128 191.

Fixpoint utf8_ValidString (s : string) : bool :=
  match s with
  | EmptyString => true
  | String b s1 =>
      if in_range 0 127 b then utf8_ValidString s1
      else match s1 with
      | EmptyString => false
      | String c1 s2 =>
          if in_range 194 223 b then cont c1 && utf8_ValidString s2
          else match s2 with
          | EmptyString => false
          | String c2 s3 =>
              if in_range 224 224 b then in_range 160 191 c1 && cont c2 && utf8_ValidString s3
              else if in_range 237 237 b then in_range 128 159 c1 && cont c2 && utf8_ValidString s3
              else if in_range 225 239 b then cont c1 && cont c2 && utf8_ValidString s3
              else match s3 with
              | EmptyString => false
              | String c3 s4 =>
                  if in_range 240 240 b then in_range 144 191 c1 && cont c2 && cont c3 && utf8_ValidString s4
                  else if in_range 244 244 b then in_range 128 143 c1 && cont c2 && cont c3 && utf8_ValidString s4
                  else in_range 241 243 b && cont c1 && cont c2 && cont c3 && utf8_ValidString s4
              end
          end
      end
  end.

(** ** [jwt/v5] *)

(** A claims struct is its own fields, by JSON name, beside the embedded
    [RegisteredClaims]. *)
Definition Fields : Type := list (string * string).
Definition field (fs : Fields) (name : string) : string :=
  default EmptyString (snd <$> find (λ f, bool_decide (fst f = name)) fs).
Definition claim_names : list string := ["iss"; "sub"; "aud"; "exp"; "nbf"; "iat"; "jti"].

Definition encodable (fs : Fields) (rc : RegisteredClaims) : bool :=
  forallb (λ f, negb (bool_decide (fst f ∈ claim_names)) && utf8_ValidString (snd f)) fs &&
  bool_decide (NoDup (fst <$> fs)) &&
  forallb utf8_ValidString (rc_Audience rc) && utf8_ValidString (rc_Issuer rc) &&
  utf8_ValidString (rc_Subject rc) && utf8_ValidString (rc_ID rc).

(** What the validator accepts at an instant under [WithExpirationRequired]
    and the optional [WithAudience]. *)
Definition claims_valid (audience : option string) (now : Instant) (rc : RegisteredClaims) : bool :=
  match rc_ExpiresAt rc with Some e => (now <? e)%Z | None => false end &&
  match rc_NotBefore rc with Some n => (n <=? now)%Z | None => true end &&
  match audience with Some a => bool_decide (a ∈ rc_Audience rc) | None => true end.

(** every date of the claims is one the library makes *)
Definition whole_dates (date : Instant → Instant) (rc : RegisteredClaims) : Prop :=
  ∀ t, Some t ∈ [rc_ExpiresAt rc; rc_NotBefore rc; rc_IssuedAt rc] → date t = t.

(** [ParseWithClaims] fills a struct whose own fields carry the names
    [names]: it answers their values, in that order, and the registered
    claims.  The program always passes the key it signs with and
    [WithValidMethods] of HS256. *)
Class JWT : Type := {
  NewNumericDate : Instant → Instant;
  SignedString : string → Fields → RegisteredClaims → Result string;
  ParseWithClaims : string → list string → option string → Instant → string → Result (list string * RegisteredClaims);
  (** dates are cut to the second *)
  NewNumericDate_near t : (t - time_Second < NewNumericDate t <= t)%Z;
  NewNumericDate_idem t : NewNumericDate (NewNumericDate t) = NewNumericDate t;
  (** signing with a byte key works *)
  SignedString_total key fs rc : encodable fs rc = true → is_Ok (SignedString key fs rc) = true;
  SignedString_nonempty key fs rc s : SignedString key fs rc = Ok s → s ≠ EmptyString;
  (** a parsed token was valid at the instant *)
  ParseWithClaims_valid key names aud now s vs rc :
    ParseWithClaims key names aud now s = Ok (vs, rc) → claims_valid aud now rc = true ∧ length vs = length names;
  (** what was signed is read back as long as it is valid, a missing field as the zero value *)
  ParseWithClaims_signed key fs rc s names aud now :
    SignedString key fs rc = Ok s → encodable fs rc = true → whole_dates NewNumericDate rc →
    (∀ n, n ∈ names → n ∉ claim_names) →
    if claims_valid aud now rc then ParseWithClaims key names aud now s = Ok (field fs <$> names, rc)
    else is_Ok (ParseWithClaims key names aud now s) = false }.

(** ** Tokens *)

Definition minSecretKeyLength : nat := 10.
Definition defaultTokenTTL : Z := (30 * time_Minute)%Z.
Definition defaultRefreshTTL : Z := (3 * 24 * time_Hour)%Z.
Definition ResoniteLinkAudience : string := "resonite-link-ws".

Record ResoniteLinkClaims : Type := mkResoniteLinkClaims {
  rl_UserID : string;
  rl_SessionID : string;
  rl_Registered : RegisteredClaims }.

Definition WithAuthClaims (c : AuthClaims) (_ : Ctx) : Ctx := Some c.

Section Tokens.
Context {JW : JWT}.
(** the package variable [secretKey], set once by [Init] *)
Variable secretKey : string.

Definition signJWT (fs : Fields) (rc : RegisteredClaims) : Result string :=
  if (String.length secretKey <? minSecretKeyLength)%nat then Fail (EMsg "invalid jwt secret key")
  else SignedString secretKey fs rc.

Definition parseJWT (names : list string) (audience : option string) (now : Instant) (tokenString : string)
  : Result (list string * RegisteredClaims) :=
  if (String.length secretKey <? minSecretKeyLength)%nat then Fail (EMsg "invalid jwt secret key")
  else ParseWithClaims secretKey names audience now tokenString.

(** the JSON fields of [AuthClaims] and of [ResoniteLinkClaims] *)
Definition AuthClaims_names : list string := ["user_id"; "resonite_id"; "icon_url"].
Definition AuthClaims_fields (c : AuthClaims) : Fields :=
  [("user_id", ac_UserID c); ("resonite_id", ac_ResoniteID c); ("icon_url", ac_IconUrl c)].
Definition ResoniteLinkClaims_names : list string := ["user_id"; "session_id"].
Definition ResoniteLinkClaims_fields (c : ResoniteLinkClaims) : Fields :=
  [("user_id", rl_UserID c); ("session_id", rl_SessionID c)].

Definition with_dates (exp iat : Instant) (rc : RegisteredClaims) : RegisteredClaims :=
  mkRegisteredClaims (rc_Issuer rc) (rc_Subject rc) (rc_Audience rc) (Some exp) (rc_NotBefore rc) (Some iat) (rc_ID rc).

Definition GenerateToken (claims : AuthClaims) (tokenTTL : Z) : Go string :=
  let* now := gets w_now in
  lift (signJWT (AuthClaims_fields claims)
          (with_dates (NewNumericDate (now + tokenTTL)%Z) (NewNumericDate now) (ac_Registered claims))).

Definition GenerateTokensWithDefaultTTL (claims : AuthClaims) : Go (string * string) :=
  let* token := GenerateToken claims defaultTokenTTL in
  let* refreshToken := GenerateToken claims defaultRefreshTTL in
  ret (token, refreshToken).

Definition ParseToken (tokenString : string) : Go AuthClaims :=
  let* now := gets w_now in
  let* r := lift (parseJWT AuthClaims_names None now tokenString) in
  match fst r with
  | [u; r'; i] => ret (mkAuthClaims u r' i (snd r))
  | _ => fail (EMsg "unreachable: one value per field")
  end.

Definition GenerateResoniteLinkToken (userID sessionID : string) (ttl : Z) : Go (string * Instant) :=
  let* now := gets w_now in
  let expiresAt := (now + ttl)%Z in
  let claims := mkResoniteLinkClaims userID sessionID
    (mkRegisteredClaims EmptyString EmptyString [ResoniteLinkAudience] (Some (NewNumericDate expiresAt)) None
       (Some (NewNumericDate now)) EmptyString) in
  let* ss := lift (signJWT (ResoniteLinkClaims_fields claims) (rl_Registered claims)) in
  ret (ss, expiresAt).

Definition ParseResoniteLinkToken (tokenString : string) : Go ResoniteLinkClaims :=
  let* now := gets w_now in
  let* r := lift (parseJWT ResoniteLinkClaims_names (Some ResoniteLinkAudience) now tokenString) in
  match fst r with
  | [u; s] => ret (mkResoniteLinkClaims u s (snd r))
  | _ => fail (EMsg "unreachable: one value per field")
  end.

(** ** Interceptors

    The headers of the response are not modelled. *)

Definition bearer : nat := String.length "Bearer ".
Definition after_bearer (h : string) : string := String.substring bearer (String.length h - bearer) h.

Definition validateAuthHeader (authorization : string) : Go AuthClaims :=
  if (String.length authorization <=? bearer)%nat then fail (connect_NewError CodeUnauthenticated (EMsg "token required"))
  else on_err (connect_NewError CodeUnauthenticated) (ParseToken (after_bearer authorization)).

Definition ValidateToken (req : AnyRequest) : Go AuthClaims := validateAuthHeader (req_Authorization req).

(** [authInterceptor.WrapUnary] *)
Definition authInterceptor {A} (next : Ctx → AnyRequest → Go A) (ctx : Ctx) (req : AnyRequest) : Go A :=
  let* claims := validateAuthHeader (req_Authorization req) in
  next (WithAuthClaims claims ctx) req.

(** [authInterceptor.WrapStreamingHandler]: the stream takes the place of the request *)
Definition authStreamingHandler {A} (next : Ctx → AnyRequest → Go A) (ctx : Ctx) (conn : AnyRequest) : Go A :=
  let* claims := validateAuthHeader (req_Authorization conn) in
  next (WithAuthClaims claims ctx) conn.

Definition NewOptionalAuthInterceptor {A} (next : Ctx → AnyRequest → Go A) (ctx : Ctx) (req : AnyRequest) : Go A :=
  let token := req_Authorization req in
  if (bearer <? String.length token)%nat then
    let* r := attempt (ParseToken (after_bearer token)) in
    match r with
    | Ok claims => next (WithAuthClaims claims ctx) req
    | Fail _ => next ctx req
    end
  else next ctx req.
End Tokens.
