(* ===== verification/AuthSafety.v ===== *)
(** * What a bearer token proves

    The life of the issued tokens, what the authentication interceptors let
    through, and a concrete token library for the witnesses. *)

From S2P Require Import Prelude Entity Models Queries Ports PermissionUsecase Repositories Headless Resources PlainJson.
From S2P Require Import StoreInvariant PermissionInvariant PermissionSystem PermissionDecisions PermissionSafety.
From S2P Require Import RpcPermission RpcAccess AuthTokens.
From stdpp Require Import base gmap strings list.
From Stdlib Require Import ZArith Lia.

Implicit Types (w : World) (ctx : Ctx).

Section Parsing.
Context {JW : JWT} (secretKey : string).

(** [ParseToken] as a function of the clock. *)
Definition parse_token (token : string) (now : Instant) : Result AuthClaims :=
  rbind (parseJWT secretKey AuthClaims_names None now token) (λ r,
    match fst r with
    | [u; r'; i] => Ok (mkAuthClaims u r' i (snd r))
    | _ => Fail (EMsg "unreachable: one value per field")
    end).

Lemma ParseToken_run token w : ParseToken secretKey token w = (parse_token token (w_now w), w).
Proof.
  unfold ParseToken, parse_token, bind, gets, lift. destruct (parseJWT _ _ _ _ _) as [[vs rc]|e]; simpl; [|done].
  by destruct vs as [|u [|r [|i [|]]]].
Qed.

Lemma ParseToken_reads token : reads (ParseToken secretKey token) (λ t _, parse_token token t).
Proof. intros w. rewrite ParseToken_run. split; [reflexivity|by left]. Qed.

Definition auth_header (h : string) (now : Instant) : Result AuthClaims :=
  if (String.length h <=? bearer)%nat then Fail (connect_NewError CodeUnauthenticated (EMsg "token required"))
  else map_err (connect_NewError CodeUnauthenticated) (parse_token (after_bearer h) now).

Lemma validateAuthHeader_run h w : validateAuthHeader secretKey h w = (auth_header h (w_now w), w).
Proof.
  unfold validateAuthHeader, auth_header. destruct (_ <=? _)%nat; [done|]. unfold on_err. by rewrite ParseToken_run.
Qed.

Lemma auth_header_Fail h now e : auth_header h now = Fail e → ∃ e', e = EConnect CodeUnauthenticated e'.
Proof.
  unfold auth_header. destruct (_ <=? _)%nat; [intros [= <-]; unfold connect_NewError; eauto|].
  destruct (parse_token _ _); simpl; [done|]. intros [= <-]. unfold connect_NewError. eauto.
Qed.

(** The context a request runs in: the claims of its token, when it has a valid one. *)
Definition caller_of (h : string) (now : Instant) : Ctx :=
  match auth_header h now with Ok c => Some c | Fail _ => None end.

Lemma substring_full s : String.substring 0 (String.length s) s = s.
Proof. induction s; simpl; congruence. Qed.
Lemma substring_after a b : String.substring (String.length a) (String.length b) (a +:+ b) = b.
Proof. induction a; simpl; [apply substring_full|done]. Qed.

(** The header a client sends. *)
Lemma auth_header_bearer token now : token ≠ EmptyString →
  auth_header ("Bearer " +:+ token) now = map_err (connect_NewError CodeUnauthenticated) (parse_token token now).
Proof.
  intros Ht. unfold auth_header.
  assert (String.length ("Bearer " +:+ token) = bearer + String.length token)%nat as E by reflexivity.
  assert (String.length token ≠ 0)%nat as Hn by (by destruct token).
  rewrite E, (proj2 (Nat.leb_gt _ _)) by lia. f_equal. f_equal. unfold after_bearer. rewrite E.
  replace (bearer + String.length token - bearer)%nat with (String.length token) by lia. apply substring_after.
Qed.

(** ** The life of a token *)

Definition plain_identity (c : AuthClaims) : bool :=
  utf8_ValidString (ac_UserID c) && utf8_ValidString (ac_ResoniteID c) && utf8_ValidString (ac_IconUrl c).

Lemma signJWT_Ok fs rc : (minSecretKeyLength <= String.length secretKey)%nat → encodable fs rc = true →
  ∃ s, signJWT secretKey fs rc = Ok s ∧ SignedString secretKey fs rc = Ok s.
Proof.
  intros Hk He. unfold signJWT. rewrite (proj2 (Nat.ltb_ge _ _)) by done.
  pose proof (SignedString_total secretKey _ _ He) as Ht. destruct (SignedString _ _ _) as [s|]; [eauto|done].
Qed.

(** a date the program sets is whole *)
Lemma whole_set exp iat rc : rc_NotBefore rc = None →
  whole_dates NewNumericDate (with_dates (NewNumericDate exp) (NewNumericDate iat) rc).
Proof.
  intros Hn t. simpl. rewrite Hn. rewrite !elem_of_cons, elem_of_nil.
  intros [[= ->]|[[=]|[[= ->]|[]]]]; apply NewNumericDate_idem.
Qed.

(** Reading back a signed token, under any struct and audience. *)
Lemma parse_signed fs rc s names aud now :
  (minSecretKeyLength <= String.length secretKey)%nat → encodable fs rc = true →
  SignedString secretKey fs rc = Ok s → whole_dates NewNumericDate rc → forallb (λ n, negb (bool_decide (n ∈ claim_names))) names = true →
  if claims_valid aud now rc then parseJWT secretKey names aud now s = Ok (field fs <$> names, rc)
  else is_Ok (parseJWT secretKey names aud now s) = false.
Proof.
  intros Hk He Hs Hd Hn. unfold parseJWT. rewrite (proj2 (Nat.ltb_ge _ _)) by done.
  apply ParseWithClaims_signed; [done|done|done|]. intros n Hin.
  apply forallb_forall with (x := n) in Hn; [|by apply list_elem_of_In]. by apply negb_true_iff, bool_decide_eq_false in Hn.
Qed.

Definition access_registered (ttl : Z) (now : Instant) : RegisteredClaims :=
  with_dates (NewNumericDate (now + ttl)%Z) (NewNumericDate now) no_registered.

Lemma encodable_access c ttl now : plain_identity c = true → encodable (AuthClaims_fields c) (access_registered ttl now) = true.
Proof.
  unfold plain_identity, encodable, AuthClaims_fields. intros [[H1 H2]%andb_true_iff H3]%andb_true_iff.
  cbn [forallb snd fst]. rewrite H1, H2, H3. reflexivity.
Qed.

Definition identity (c : AuthClaims) : string * string * string := (ac_UserID c, ac_ResoniteID c, ac_IconUrl c).

(** A token issued for fresh claims: accepted before its whole-second expiry
    with the claims it was issued for, never from then on. *)
Lemma GenerateToken_spec c ttl w : (minSecretKeyLength <= String.length secretKey)%nat →
  plain_identity c = true → ac_Registered c = no_registered →
  ∃ s, GenerateToken secretKey c ttl w = (Ok s, w) ∧
    SignedString secretKey (AuthClaims_fields c) (access_registered ttl (w_now w)) = Ok s ∧
    ∀ t, if (t <? NewNumericDate (w_now w + ttl)%Z)%Z
         then parse_token s t = Ok (mkAuthClaims (ac_UserID c) (ac_ResoniteID c) (ac_IconUrl c) (access_registered ttl (w_now w)))
         else is_Ok (parse_token s t) = false.
Proof.
  intros Hk Hp Hr. destruct (signJWT_Ok _ _ Hk (encodable_access c ttl (w_now w) Hp)) as (s & Hs & Hss). exists s. split; [|split].
  - unfold GenerateToken. rewrite Hr. unfold bind, gets, lift, access_registered in *. simpl in *. by rewrite Hs.
  - done.
  - intros t. pose proof (parse_signed _ _ _ AuthClaims_names None t Hk (encodable_access c ttl (w_now w) Hp) Hss
      (whole_set _ _ no_registered eq_refl) eq_refl) as H.
    assert (claims_valid None t (access_registered ttl (w_now w)) = (t <? NewNumericDate (w_now w + ttl)%Z)%Z) as Hv
      by (unfold claims_valid; simpl; by rewrite !andb_true_r).
    rewrite Hv in H. unfold parse_token. destruct (t <? _)%Z; [by rewrite H|].
    by destruct (parseJWT _ _ _ _ _).
Qed.

(** A ResoniteLink token, read back under any struct and audience. *)
Definition link_registered (exp iat : Instant) : RegisteredClaims :=
  mkRegisteredClaims EmptyString EmptyString [ResoniteLinkAudience] (Some (NewNumericDate exp)) None (Some (NewNumericDate iat)) EmptyString.

Lemma link_valid aud exp iat now : from_option (λ a, a = ResoniteLinkAudience) True aud →
  claims_valid aud now (link_registered exp iat) = (now <? NewNumericDate exp)%Z.
Proof.
  intros Ha. unfold claims_valid. simpl. rewrite andb_true_r. destruct aud as [a|]; simpl in *; [|by rewrite andb_true_r].
  subst a. rewrite bool_decide_eq_true_2 by (by apply list_elem_of_singleton). by rewrite andb_true_r.
Qed.

Lemma link_token_signed u sid ttl now : (minSecretKeyLength <= String.length secretKey)%nat →
  utf8_ValidString u = true → utf8_ValidString sid = true →
  let rc := link_registered (now + ttl)%Z now in
  let fs := ResoniteLinkClaims_fields (mkResoniteLinkClaims u sid rc) in
  ∃ s, signJWT secretKey fs rc = Ok s ∧
    ∀ names aud t, forallb (λ n, negb (bool_decide (n ∈ claim_names))) names = true →
      if claims_valid aud t rc then parseJWT secretKey names aud t s = Ok (field fs <$> names, rc)
      else is_Ok (parseJWT secretKey names aud t s) = false.
Proof.
  intros Hk Hu Hs rc fs.
  assert (encodable fs rc = true) as He.
  { unfold encodable, fs, ResoniteLinkClaims_fields. cbn [forallb snd fst rl_UserID rl_SessionID]. rewrite Hu, Hs. reflexivity. }
  destruct (signJWT_Ok _ _ Hk He) as (s & Es & Hss). exists s. split; [exact Es|]. intros names aud t Hn.
  apply parse_signed; [done|done|done| |done]. intros x. simpl. rewrite !elem_of_cons, elem_of_nil.
  intros [[= ->]|[[=]|[[= ->]|[]]]]; apply NewNumericDate_idem.
Qed.
End Parsing.

(** ** A concrete library *)

Definition zero : Ascii.ascii := Ascii.ascii_of_nat 48.
Definition one : Ascii.ascii := Ascii.ascii_of_nat 49.
Fixpoint bits (p : positive) : string :=
  match p with xH => EmptyString | xO p => String zero (bits p) | xI p => String one (bits p) end.
Fixpoint of_bits (s : string) : option positive :=
  match s with
  | EmptyString => Some xH
  | String c s => p ← of_bits s; if Ascii.eqb c zero then Some (xO p) else if Ascii.eqb c one then Some (xI p) else None
  end.
Lemma of_bits_bits p : of_bits (bits p) = Some p.
Proof. induction p as [p IH|p IH|]; simpl; rewrite ?IH; done. Qed.

Definition sealed : Type :=
  string * Fields * (string * string * list string * option Instant * option Instant * option Instant * string).
Definition seal (key : string) (fs : Fields) (rc : RegisteredClaims) : sealed :=
  (key, fs, (rc_Issuer rc, rc_Subject rc, rc_Audience rc, rc_ExpiresAt rc, rc_NotBefore rc, rc_IssuedAt rc, rc_ID rc)).
#[local] Instance sealed_countable : Countable sealed.
Proof. unfold sealed, Fields, Instant. apply _. Defined.

Definition string_tail (s : string) : string := match s with EmptyString => EmptyString | String _ s => s end.
Definition open_seal (key : string) (names : list string) (aud : option string) (now : Instant) (s : string)
  : Result (list string * RegisteredClaims) :=
  match p ← of_bits (string_tail s); decode (A:=sealed) p with
  | Some (key', fs, (iss, sub, au, exp, nbf, iat, jti)) =>
      let rc := mkRegisteredClaims iss sub au exp nbf iat jti in
      if bool_decide (key' = key) && claims_valid aud now rc then Ok (field fs <$> names, rc) else Fail (EMsg "token is invalid")
  | None => Fail (EMsg "token is malformed")
  end.

#[local] Existing Instance raw_parameters.
#[local] Program Instance sealing_JWT : JWT := {
  NewNumericDate t := (t / time_Second * time_Second)%Z;
  SignedString key fs rc := Ok (String one (bits (encode (seal key fs rc))));
  ParseWithClaims := open_seal }.
Next Obligation.
  intros t. unfold time_Second. pose proof (Z.mod_pos_bound t 1000000000). pose proof (Z.div_mod t 1000000000). lia.
Qed.
Next Obligation. intros t. simpl. by rewrite Z.div_mul. Qed.
Next Obligation. done. Qed.
Next Obligation. intros key fs rc s [= <-]. done. Qed.
Next Obligation.
  intros key names aud now s vs rc. unfold open_seal.
  destruct (_ ≫= _) as [[[key' fs] [[[[[[iss sub] au] exp] nbf] iat] jti]]|]; [|done].
  destruct (bool_decide _ && _) eqn:E; [|done]. apply andb_true_iff in E as [_ E]. intros [= <- <-]. split; [done|apply length_fmap].
Qed.
Next Obligation.
  intros key fs rc s names aud now [= <-] _ _ _. unfold open_seal. cbn [string_tail]. rewrite of_bits_bits. simpl. rewrite decode_encode.
  unfold seal. destruct rc. simpl. rewrite bool_decide_eq_true_2 by done. simpl. by destruct (claims_valid _ _ _).
Qed.

(** ** Properties *)

(** Logging in issues two tokens that both name the user: each is
    accepted, as the identity it was issued for, at every instant before its
    expiry (30 minutes for the token, 3 days for the refresh token, cut to the
    whole second), and at no later instant. *)
Theorem issued_tokens_lifetime (JW : JWT) (secretKey : string) (c : AuthClaims) (w : World) :
  (minSecretKeyLength <= String.length secretKey)%nat → plain_identity c = true → ac_Registered c = no_registered →
  ∃ token refresh, GenerateTokensWithDefaultTTL secretKey c w = (Ok (token, refresh), w) ∧
    ∀ s ttl, (s, ttl) ∈ [(token, defaultTokenTTL); (refresh, defaultRefreshTTL)] → ∀ w',
      ((w_now w' + time_Second <= w_now w + ttl)%Z →
         ∃ c', ParseToken secretKey s w' = (Ok c', w') ∧ identity c' = identity c) ∧
      ((w_now w + ttl <= w_now w')%Z → is_Ok (ParseToken secretKey s w').1 = false).
Proof.
  intros Hk Hp Hr. destruct (GenerateToken_spec _ c defaultTokenTTL w Hk Hp Hr) as (t1 & E1 & _ & H1).
  destruct (GenerateToken_spec _ c defaultRefreshTTL w Hk Hp Hr) as (t2 & E2 & _ & H2).
  exists t1, t2. split.
  { unfold GenerateTokensWithDefaultTTL. rewrite (bind_Ok _ _ _ _ _ E1), (bind_Ok _ _ _ _ _ E2). done. }
  assert (∀ s ttl, (∀ t, if (t <? NewNumericDate (w_now w + ttl)%Z)%Z
         then parse_token secretKey s t = Ok (mkAuthClaims (ac_UserID c) (ac_ResoniteID c) (ac_IconUrl c) (access_registered ttl (w_now w)))
         else is_Ok (parse_token secretKey s t) = false) → ∀ w',
      ((w_now w' + time_Second <= w_now w + ttl)%Z →
         ∃ c', ParseToken secretKey s w' = (Ok c', w') ∧ identity c' = identity c) ∧
      ((w_now w + ttl <= w_now w')%Z → is_Ok (ParseToken secretKey s w').1 = false)) as Hgen.
  { intros s ttl H w'. rewrite ParseToken_run. specialize (H (w_now w')). pose proof (NewNumericDate_near (w_now w + ttl)%Z).
    destruct (Z.ltb_spec (w_now w') (NewNumericDate (w_now w + ttl)%Z)); split; intros ?; [|lia|lia|done].
    rewrite H. eexists. split; reflexivity. }
  intros s ttl [[= -> ->]|[[= -> ->]|[]%elem_of_nil]%elem_of_cons]%elem_of_cons; by apply Hgen.
Qed.

Definition alice_claims : AuthClaims := mkAuthClaims "alice" "U-alice" EmptyString no_registered.

Lemma issued_tokens_lifetime_witness :
  ∃ token refresh, GenerateTokensWithDefaultTTL "0123456789" alice_claims fresh_world = (Ok (token, refresh), fresh_world) ∧
    ∃ c', ParseToken "0123456789" token fresh_world = (Ok c', fresh_world) ∧ identity c' = identity alice_claims.
Proof.
  assert (minSecretKeyLength <= String.length "0123456789")%nat as Hk by reflexivity.
  destruct (issued_tokens_lifetime sealing_JWT "0123456789" alice_claims fresh_world Hk eq_refl eq_refl) as (t & r & E & H).
  exists t, r. split; [exact E|]. destruct (H t defaultTokenTTL (list_elem_of_here _ _) fresh_world) as [Ha _].
  apply Ha. vm_compute. discriminate.
Defined.

(** A token issued for the ResoniteLink socket names its user and session
    there until it expires, and an access token, which has no audience, is
    never accepted in its place. *)
Theorem link_tokens_are_for_the_socket (JW : JWT) (secretKey userID sessionID : string) (ttl : Z) (w : World) :
  (minSecretKeyLength <= String.length secretKey)%nat → utf8_ValidString userID = true → utf8_ValidString sessionID = true →
  (∃ token, GenerateResoniteLinkToken secretKey userID sessionID ttl w = (Ok (token, (w_now w + ttl)%Z), w) ∧
     ∀ w', ((w_now w' + time_Second <= w_now w + ttl)%Z →
              ∃ rc, ParseResoniteLinkToken secretKey token w' = (Ok (mkResoniteLinkClaims userID sessionID rc), w')) ∧
           ((w_now w + ttl <= w_now w')%Z → is_Ok (ParseResoniteLinkToken secretKey token w').1 = false)) ∧
  ∀ c ttl' s, plain_identity c = true → ac_Registered c = no_registered →
     GenerateToken secretKey c ttl' w = (Ok s, w) → ∀ w', is_Ok (ParseResoniteLinkToken secretKey s w').1 = false.
Proof.
  intros Hk Hu Hs. split.
  - destruct (link_token_signed secretKey userID sessionID ttl (w_now w) Hk Hu Hs) as (s & E & H).
    exists s. split.
    { unfold GenerateResoniteLinkToken, bind, gets, lift. cbv zeta. fold (link_registered (w_now w + ttl)%Z (w_now w)).
      cbn [rl_Registered]. by rewrite E. }
    intros w'. specialize (H ResoniteLinkClaims_names (Some ResoniteLinkAudience) (w_now w') eq_refl).
    pose proof (NewNumericDate_near (w_now w + ttl)%Z) as Hd.
    unfold ParseResoniteLinkToken, bind, gets, lift. rewrite link_valid in H by done. split; intros Ht.
    + rewrite (proj2 (Z.ltb_lt _ _)) in H by lia. rewrite H. eexists. reflexivity.
    + rewrite (proj2 (Z.ltb_ge _ _)) in H by lia. by destruct (parseJWT _ _ _ _ _).
  - intros c ttl' s Hp Hr E w'. destruct (GenerateToken_spec secretKey c ttl' w Hk Hp Hr) as (s' & E' & Hs' & _).
    rewrite E in E'. injection E' as <-.
    pose proof (parse_signed secretKey _ _ _ ResoniteLinkClaims_names (Some ResoniteLinkAudience) (w_now w') Hk
      (encodable_access c ttl' (w_now w) Hp) Hs' (whole_set _ _ no_registered eq_refl) eq_refl) as H.
    unfold claims_valid in H. simpl in H. rewrite andb_false_r in H.
    unfold ParseResoniteLinkToken, bind, gets, lift. by destruct (parseJWT _ _ _ _ _).
Qed.

Lemma link_tokens_are_for_the_socket_witness :
  ∃ token, GenerateResoniteLinkToken "0123456789" "alice" "s1" (60 * time_Second) fresh_world =
             (Ok (token, (w_now fresh_world + 60 * time_Second)%Z), fresh_world) ∧
    ∃ rc, ParseResoniteLinkToken "0123456789" token fresh_world = (Ok (mkResoniteLinkClaims "alice" "s1" rc), fresh_world).
Proof.
  assert (minSecretKeyLength <= String.length "0123456789")%nat as Hk by reflexivity.
  destruct (link_tokens_are_for_the_socket sealing_JWT "0123456789" "alice" "s1" (60 * time_Second) fresh_world Hk eq_refl eq_refl)
    as [(t & E & H) _].
  exists t. split; [exact E|]. destruct (H fresh_world) as [Ha _]. apply Ha. vm_compute. discriminate.
Defined.

(** C5. The interceptors of the controller, group and role services run a
    handler exactly for a request that carries a valid token and that the
    access matrix allows to the token's user; every other request answers a
    connect error without reaching the handler or the tables. *)
Theorem auth_stack_enforces {A} (SP : StartupParameters) (JW : JWT) (secretKey : string) (rules : Rules)
    (next : Ctx → AnyRequest → Go A) ctx (req : AnyRequest) w :
  register_all registrations ∅ = Some rules → store_ok (w_db w) →
  let serve := authInterceptor secretKey (WrapUnary rules next) ctx req in
  (∃ c a w', auth_header secretKey (req_Authorization req) (w_now w) = Ok c ∧ (req_Procedure req, a) ∈ access_table ∧
     allows a (w_db w) (Some c) req ∧ only_faults w w' ∧ serve w = next (Some c) req w') ∨
  (∃ code e w', serve w = (Fail (EConnect code e), w') ∧ only_faults w w' ∧
     (is_Ok (auth_header secretKey (req_Authorization req) (w_now w)) = false ∨
      (∃ c, auth_header secretKey (req_Authorization req) (w_now w) = Ok c ∧
         ∀ a, (req_Procedure req, a) ∈ access_table → ¬ allows a (w_db w) (Some c) req) ∨
      (transient e = true ∧ w_faults w ≠ []))).
Proof.
  intros Hr Hok serve. subst serve. unfold authInterceptor, bind. rewrite validateAuthHeader_run.
  destruct (auth_header secretKey (req_Authorization req) (w_now w)) as [c|e] eqn:E.
  - unfold WithAuthClaims. destruct (gate_rules rules next (Some c) req w Hr Hok) as [(a & w' & Ha & Hal & Hof & Hn)|(code & e & w' & Hn & Hof & Hd)].
    + left. exists c, a, w'. repeat (split; [first [reflexivity|assumption]|]). exact Hn.
    + right. exists code, e, w'. split; [exact Hn|]. split; [exact Hof|]. right. destruct Hd as [Hd|Hd]; [left|right; exact Hd].
      exists c. split; [reflexivity|exact Hd].
  - right. destruct (auth_header_Fail _ _ _ _ E) as [e' ->]. exists CodeUnauthenticated, e', w.
    split; [reflexivity|]. split; [reflexivity|]. left. reflexivity.
Qed.

Lemma auth_stack_enforces_witness :
  ∃ rules : Rules, register_all registrations ∅ = Some rules ∧
    let serve := authInterceptor "0123456789" (WrapUnary rules accept_all) context_Background invite_request in
    let req := invite_request in let w := fresh_world in
    (∃ c a w', auth_header "0123456789" (req_Authorization req) (w_now w) = Ok c ∧ (req_Procedure req, a) ∈ access_table ∧
       allows a (w_db w) (Some c) req ∧ only_faults w w' ∧ serve w = accept_all (Some c) req w') ∨
    (∃ code e w', serve w = (Fail (EConnect code e), w') ∧ only_faults w w' ∧
       (is_Ok (auth_header "0123456789" (req_Authorization req) (w_now w)) = false ∨
        (∃ c, auth_header "0123456789" (req_Authorization req) (w_now w) = Ok c ∧
           ∀ a, (req_Procedure req, a) ∈ access_table → ¬ allows a (w_db w) (Some c) req) ∨
        (transient e = true ∧ w_faults w ≠ []))).
Proof.
  destruct rules_exist as [rules Hr]. exists rules. split; [exact Hr|].
  exact (auth_stack_enforces _ sealing_JWT "0123456789" rules accept_all context_Background invite_request fresh_world Hr (migrated_ok 0%Z)).
Defined.

(** The converse of the separation does not hold: a token issued for the
    ResoniteLink socket is accepted as an access token of its user, with an
    empty Resonite identity, until it expires. *)
Theorem link_token_is_an_access_token (JW : JWT) (secretKey userID sessionID : string) (ttl : Z) (w : World) :
  (minSecretKeyLength <= String.length secretKey)%nat → utf8_ValidString userID = true → utf8_ValidString sessionID = true →
  ∃ token, GenerateResoniteLinkToken secretKey userID sessionID ttl w = (Ok (token, (w_now w + ttl)%Z), w) ∧
    ∀ w', (w_now w' + time_Second <= w_now w + ttl)%Z →
      ∃ c, ParseToken secretKey token w' = (Ok c, w') ∧ identity c = (userID, EmptyString, EmptyString).
Proof.
  intros Hk Hu Hs. destruct (link_token_signed secretKey userID sessionID ttl (w_now w) Hk Hu Hs) as (s & E & H).
  exists s. split.
  { unfold GenerateResoniteLinkToken, bind, gets, lift. cbv zeta. fold (link_registered (w_now w + ttl)%Z (w_now w)).
    cbn [rl_Registered]. by rewrite E. }
  intros w' Ht. specialize (H AuthClaims_names None (w_now w') eq_refl).
  pose proof (NewNumericDate_near (w_now w + ttl)%Z) as Hd. rewrite link_valid in H by done.
  rewrite (proj2 (Z.ltb_lt _ _)) in H by lia. rewrite ParseToken_run. unfold parse_token. rewrite H.
  eexists. split; reflexivity.
Qed.

Lemma link_token_is_an_access_token_witness :
  ∃ token, GenerateResoniteLinkToken "0123456789" "alice" "s1" (60 * time_Second) fresh_world =
             (Ok (token, (w_now fresh_world + 60 * time_Second)%Z), fresh_world) ∧
    ∃ c, ParseToken "0123456789" token fresh_world = (Ok c, fresh_world) ∧ identity c = ("alice", EmptyString, EmptyString).
Proof.
  assert (minSecretKeyLength <= String.length "0123456789")%nat as Hk by reflexivity.
  destruct (link_token_is_an_access_token sealing_JWT "0123456789" "alice" "s1" (60 * time_Second) fresh_world Hk eq_refl eq_refl) as (t & E & H).
  exists t. split; [exact E|]. apply H. vm_compute. discriminate.
Defined.
