(* ===== verification/RpcServices.v ===== *)
(** * The user, group and role services

    [src/adapter/rpc/user_service.go], [src/adapter/rpc/group_service.go] and
    [src/adapter/rpc/role_service.go]: the messages of
    [src/proto/hdlctrl/v1/user.proto] and [permission.proto], one handler per
    RPC, and the interceptor stacks the services are mounted with. *)

From S2P Require Import Prelude Entity Models Queries Ports PermissionUsecase Repositories RoleUsecase.
From S2P Require Import GroupUsecase UserUsecase Headless Resources RpcPermission AuthTokens.
From stdpp Require Import base gmap strings list.
From Stdlib Require Import ZArith.

(** ** Messages *)

(** [hdlctrlv1.GroupType], [hdlctrlv1.RoleScope] *)
Definition GROUP_TYPE_UNSPECIFIED : Z := 0.
Definition GROUP_TYPE_PERSONAL : Z := 1.
Definition GROUP_TYPE_NORMAL : Z := 2.
Definition GROUP_TYPE_SYSTEM : Z := 3.
Definition ROLE_SCOPE_UNSPECIFIED : Z := 0.
Definition ROLE_SCOPE_NORMAL : Z := 1.
Definition ROLE_SCOPE_SYSTEM : Z := 2.

Record PbGroup : Type := mkPbGroup {
  pg_Id : string; pg_Name : string; pg_Type : Z; pg_CreatedAt : option Instant; pg_UpdatedAt : option Instant }.
Record PbGroupMember : Type := mkPbGroupMember {
  pm_GroupId : string; pm_UserId : string; pm_RoleId : string; pm_AddedBy : option string; pm_JoinedAt : option Instant }.
Record PbRole : Type := mkPbRole {
  pr_Id : string; pr_GroupId : option string; pr_Name : string; pr_Scope : Z; pr_IsBuiltin : bool;
  pr_PermissionKeys : list string; pr_CreatedAt : option Instant; pr_UpdatedAt : option Instant }.
Record PbPermissionKey : Type := mkPbPermissionKey { pk_Key : string; pk_Description : string; pk_Scope : Z }.
Record PbUser : Type := mkPbUser {
  pu_Id : string; pu_ResoniteId : string; pu_IconUrl : string; pu_CreatedAt : option Instant; pu_UpdatedAt : option Instant }.

Inductive Message : Type :=
  | GetTokenByPasswordRequest (id password : string)
  | ValidateRegistrationTokenRequest (token : string)
  | RegisterWithTokenRequest (token user_id password : string)
  | RefreshTokenRequest
  | ChangePasswordRequest (current_password new_password : string)
  | ListUsersRequest
  | GetUserRequest (user_id : string)
  | CreateRegistrationTokenRequest (resonite_id personal_role_id : string)
  | DeleteUserRequest (user_id : string)
  | CreateGroupRequest (name : string)
  | GetGroupRequest (group_id : string)
  | ListGroupsRequest
  | UpdateGroupRequest (group_id : string) (name : option string)
  | DeleteGroupRequest (group_id : string)
  | ListGroupMembersRequest (group_id : string)
  | AddGroupMemberRequest (group_id user_id role_id : string)
  | RemoveGroupMemberRequest (group_id user_id : string)
  | UpdateGroupMemberRoleRequest (group_id user_id role_id : string)
  | ListRolesRequest (group_id : option string)
  | CreateRoleRequest (group_id : option string) (name : string) (scope : Z) (permission_keys : list string)
  | UpdateRoleRequest (role_id : string) (name : option string) (permission_keys : option (list string))
  | DeleteRoleRequest (role_id : string)
  | ListPermissionsRequest (scope : Z)
  | GetMyPermissionsRequest.

Inductive Response : Type :=
  | EmptyResponse
  | TokenSetResponse (token refresh_token : string)
  | ValidateRegistrationTokenResponse (valid : bool) (resonite_id resonite_user_name icon_url : string)
  | ListUsersResponse (users : list PbUser)
  | UserResponse (user : PbUser)
  | CreateRegistrationTokenResponse (token : string) (expires_at : Instant) (resonite_user_name icon_url : string)
  | GroupResponse (group : PbGroup)
  | ListGroupsResponse (groups : list PbGroup)
  | ListGroupMembersResponse (members : list PbGroupMember)
  | MemberResponse (member : PbGroupMember)
  | ListRolesResponse (roles : list PbRole)
  | RoleResponse (role : PbRole)
  | ListPermissionsResponse (permissions : list PbPermissionKey)
  | GetMyPermissionsResponse (groups : list GroupPermissionSummary) (system_permission_keys : list string).

(** The service and the method that serve a message, its type, and what its
    getters answer the interceptor. *)
Definition service_method (m : Message) : string * string :=
  match m with
  | GetTokenByPasswordRequest _ _ => ("UserService", "GetTokenByPassword")
  | ValidateRegistrationTokenRequest _ => ("UserService", "ValidateRegistrationToken")
  | RegisterWithTokenRequest _ _ _ => ("UserService", "RegisterWithToken")
  | RefreshTokenRequest => ("UserService", "RefreshToken")
  | ChangePasswordRequest _ _ => ("UserService", "ChangePassword")
  | ListUsersRequest => ("UserService", "ListUsers")
  | GetUserRequest _ => ("UserService", "GetUser")
  | CreateRegistrationTokenRequest _ _ => ("UserService", "CreateRegistrationToken")
  | DeleteUserRequest _ => ("UserService", "DeleteUser")
  | CreateGroupRequest _ => ("GroupService", "CreateGroup")
  | GetGroupRequest _ => ("GroupService", "GetGroup")
  | ListGroupsRequest => ("GroupService", "ListGroups")
  | UpdateGroupRequest _ _ => ("GroupService", "UpdateGroup")
  | DeleteGroupRequest _ => ("GroupService", "DeleteGroup")
  | ListGroupMembersRequest _ => ("GroupService", "ListGroupMembers")
  | AddGroupMemberRequest _ _ _ => ("GroupService", "AddGroupMember")
  | RemoveGroupMemberRequest _ _ => ("GroupService", "RemoveGroupMember")
  | UpdateGroupMemberRoleRequest _ _ _ => ("GroupService", "UpdateGroupMemberRole")
  | ListRolesRequest _ => ("RoleService", "ListRoles")
  | CreateRoleRequest _ _ _ _ => ("RoleService", "CreateRole")
  | UpdateRoleRequest _ _ _ => ("RoleService", "UpdateRole")
  | DeleteRoleRequest _ => ("RoleService", "DeleteRole")
  | ListPermissionsRequest _ => ("RoleService", "ListPermissions")
  | GetMyPermissionsRequest => ("RoleService", "GetMyPermissions")
  end.

Definition group_id (m : Message) : option string :=
  match m with
  | GetGroupRequest g | UpdateGroupRequest g _ | DeleteGroupRequest g | ListGroupMembersRequest g
  | AddGroupMemberRequest g _ _ | RemoveGroupMemberRequest g _ | UpdateGroupMemberRoleRequest g _ _ => Some g
  | ListRolesRequest g | CreateRoleRequest g _ _ _ => g
  | _ => None
  end.
Definition role_id (m : Message) : string :=
  match m with UpdateRoleRequest r _ _ | DeleteRoleRequest r => r | _ => EmptyString end.

Definition any_request (authorization : string) (m : Message) : AnyRequest :=
  mkAnyRequest (procedure (fst (service_method m)) (snd (service_method m))) authorization
    (snd (service_method m) +:+ "Request") EmptyString EmptyString EmptyString EmptyString
    (group_id m) (role_id m) EmptyString.

(** ** Conversions *)

Definition timestamp (t : Instant) : option Instant := if bool_decide (t = time_Time_zero) then None else Some t.

Definition groupTypeToProto (t : string) : Z :=
  if bool_decide (t = GroupType_Personal) then GROUP_TYPE_PERSONAL
  else if bool_decide (t = GroupType_Normal) then GROUP_TYPE_NORMAL
  else if bool_decide (t = GroupType_System) then GROUP_TYPE_SYSTEM
  else GROUP_TYPE_UNSPECIFIED.
Definition groupToProto (g : Group) : PbGroup :=
  mkPbGroup (Group_ID g) (Group_Name g) (groupTypeToProto (Group_Type g)) (timestamp (Group_CreatedAt g)) (timestamp (Group_UpdatedAt g)).
Definition groupMemberToProto (m : GroupMember) : PbGroupMember :=
  mkPbGroupMember (GroupMember_GroupID m) (GroupMember_UserID m) (GroupMember_RoleID m) (GroupMember_AddedBy m)
    (timestamp (GroupMember_JoinedAt m)).

Definition entityRoleScopeToProto (s : string) : Z :=
  if bool_decide (s = RoleScope_Normal) then ROLE_SCOPE_NORMAL
  else if bool_decide (s = RoleScope_System) then ROLE_SCOPE_SYSTEM
  else ROLE_SCOPE_UNSPECIFIED.
Definition protoRoleScopeToEntity (s : Z) : string :=
  if Z.eqb s ROLE_SCOPE_NORMAL then RoleScope_Normal
  else if Z.eqb s ROLE_SCOPE_SYSTEM then RoleScope_System
  else EmptyString.
Definition roleToProto (r : Role) : PbRole :=
  mkPbRole (Role_ID r) (Role_GroupID r) (Role_Name r) (entityRoleScopeToProto (Role_Scope r)) (Role_IsBuiltin r)
    (Role_PermissionKeys r) (timestamp (Role_CreatedAt r)) (timestamp (Role_UpdatedAt r)).

Definition userToProto (u : UserRow) : PbUser :=
  mkPbUser (us_ID u) (default EmptyString (us_ResoniteID u)) (default EmptyString (us_IconUrl u)) (us_CreatedAt u) (us_UpdatedAt u).

(** [if errors.Is(err, s) { return connect.NewError(c, err) }; return convertErr(err)] *)
Definition with_code (s : Sentinel) (c : Code) (otherwise : Err → Err) (err : Err) : Err :=
  if errors_Is err s then connect_NewError c err else otherwise err.

Definition claims_or_unauthenticated (ctx : Ctx) : Go AuthClaims :=
  on_err (connect_NewError CodeUnauthenticated) (lift (GetAuthClaimsFromContext ctx)).

(** [req.Msg.GroupId != nil && req.Msg.GetGroupId() != ""] *)
Definition given_group_id (g : option string) : option string :=
  match g with Some g => if bool_decide (g = EmptyString) then None else Some g | None => None end.

Section Services.
Context {BC : Bcrypt} {SF : Skyfrost} {JW : JWT}.
Context {GR : GroupRepository} {RR : RoleRepository} {MR : GroupMemberRepository}.
(** [u.guc != nil], and the secret of the tokens *)
Context (guc : bool) (secretKey : string).

(** ** UserService *)

Definition user_claims (user : UserRow) : AuthClaims :=
  mkAuthClaims (us_ID user) (default EmptyString (us_ResoniteID user)) (default EmptyString (us_IconUrl user)) no_registered.
Definition token_set (claims : AuthClaims) : Go Response :=
  let* r := GenerateTokensWithDefaultTTL secretKey claims in ret (TokenSetResponse (fst r) (snd r)).

Definition UserService_RefreshToken (req : AnyRequest) : Go Response :=
  let* claims := ValidateToken secretKey req in token_set claims.

Definition UserService_GetTokenByPassword (id password : string) : Go Response :=
  let* user := on_err (λ _, connect_NewError CodeInvalidArgument (EMsg "invalid id or password")) (GetUserWithPassword id password) in
  token_set (user_claims user).

Definition UserService_ValidateRegistrationToken (token : string) : Go Response :=
  let* r := attempt (ValidateRegistrationToken token) in
  match r with
  | Fail _ => ret (ValidateRegistrationTokenResponse false EmptyString EmptyString EmptyString)
  | Ok u => ret (ValidateRegistrationTokenResponse true (UI_ID u) (UI_UserName u) (UI_IconUrl u))
  end.

Definition UserService_RegisterWithToken (token user_id password : string) : Go Response :=
  let* user := on_err (λ _, connect_NewError CodeInvalidArgument (EMsg "registration failed: invalid token or user already exists"))
                 (RegisterWithToken token user_id password) in
  token_set (user_claims user).

Definition UserService_ChangePassword (ctx : Ctx) (current_password new_password : string) : Go Response :=
  let* claims := claims_or_unauthenticated ctx in
  on_err (connect_NewError CodeInvalidArgument) (ChangePassword (ac_UserID claims) current_password new_password) ;;;
  ret EmptyResponse.

Definition UserService_ListUsers : Go Response :=
  let* users := on_err convertErr ListUsers in ret (ListUsersResponse (userToProto <$> users)).

Definition UserService_GetUser (user_id : string) : Go Response :=
  required user_id "user_id" ;;;
  let* user := on_err convertErr (GetUser user_id) in ret (UserResponse (userToProto user)).

Definition UserService_CreateRegistrationToken (ctx : Ctx) (resonite_id personal_role_id : string) : Go Response :=
  required resonite_id "resonite_id" ;;;
  let* info := on_err (connect_NewError CodeInvalidArgument) (CreateRegistrationTokenWithInfo guc ctx resonite_id personal_role_id) in
  ret (CreateRegistrationTokenResponse (RTI_Token info) (RTI_ExpiresAt info) (RTI_ResoniteUserName info) (RTI_IconUrl info)).

Definition UserService_DeleteUser (ctx : Ctx) (user_id : string) : Go Response :=
  required user_id "user_id" ;;;
  let* claims := claims_or_unauthenticated ctx in
  if bool_decide (ac_UserID claims = user_id) then fail (connect_NewError CodeFailedPrecondition (EMsg "cannot delete yourself"))
  else
    on_err convertErr (DeleteUser ctx user_id) ;;; ret EmptyResponse.

(** ** GroupService *)

Definition GroupService_CreateGroup (ctx : Ctx) (name : string) : Go Response :=
  let* claims := claims_or_unauthenticated ctx in
  let* g := on_err convertErr (CreateGroup ctx name (ac_UserID claims)) in ret (GroupResponse (groupToProto g)).

Definition GroupService_GetGroup (group_id : string) : Go Response :=
  let* g := on_err convertErr (GetGroup group_id) in ret (GroupResponse (groupToProto g)).

Definition GroupService_ListGroups (ctx : Ctx) : Go Response :=
  let* claims := claims_or_unauthenticated ctx in
  let* groups := on_err convertErr (ListGroupsForUser (ac_UserID claims)) in ret (ListGroupsResponse (groupToProto <$> groups)).

Definition GroupService_UpdateGroup (ctx : Ctx) (group_id : string) (name : option string) : Go Response :=
  match name with
  | None => let* g := on_err convertErr (GetGroup group_id) in ret (GroupResponse (groupToProto g))
  | Some name =>
      let* g := on_err (with_code ErrGroupOperationForbidden CodeFailedPrecondition convertErr) (UpdateGroupName ctx group_id name) in
      ret (GroupResponse (groupToProto g))
  end.

Definition GroupService_DeleteGroup (ctx : Ctx) (group_id : string) : Go Response :=
  on_err (with_code ErrGroupOperationForbidden CodeFailedPrecondition convertErr) (DeleteGroup ctx group_id) ;;; ret EmptyResponse.

Definition GroupService_ListGroupMembers (group_id : string) : Go Response :=
  let* members := on_err convertErr (ListGroupMembers group_id) in ret (ListGroupMembersResponse (groupMemberToProto <$> members)).

Definition GroupService_AddGroupMember (ctx : Ctx) (group_id user_id role_id : string) : Go Response :=
  let* claims := claims_or_unauthenticated ctx in
  let* m := on_err (with_code ErrGroupOperationForbidden CodeFailedPrecondition convertErr)
              (AddGroupMember ctx group_id user_id role_id (Some (ac_UserID claims))) in
  ret (MemberResponse (groupMemberToProto m)).

Definition GroupService_RemoveGroupMember (ctx : Ctx) (group_id user_id : string) : Go Response :=
  on_err (with_code ErrGroupOperationForbidden CodeFailedPrecondition convertErr) (RemoveGroupMember ctx group_id user_id) ;;;
  ret EmptyResponse.

Definition GroupService_UpdateGroupMemberRole (ctx : Ctx) (group_id user_id role_id : string) : Go Response :=
  let* m := on_err (with_code ErrGroupOperationForbidden CodePermissionDenied convertErr)
              (UpdateGroupMemberRole ctx group_id user_id role_id) in
  ret (MemberResponse (groupMemberToProto m)).

(** ** RoleService *)

Definition RoleService_ListRoles (group_id : option string) : Go Response :=
  let* roles := on_err convertErr (ListRoles (given_group_id group_id)) in ret (ListRolesResponse (roleToProto <$> roles)).

Definition RoleService_CreateRole (ctx : Ctx) (group_id : option string) (name : string) (scope : Z) (keys : list string) : Go Response :=
  let* role := on_err (with_code ErrInvalidPermissionKey CodeInvalidArgument convertErr)
                 (CreateRole ctx (mkCreateRoleParams (given_group_id group_id) name (protoRoleScopeToEntity scope) keys)) in
  ret (RoleResponse (roleToProto role)).

Definition RoleService_UpdateRole (ctx : Ctx) (role_id : string) (name : option string) (keys : option (list string)) : Go Response :=
  let params := mkUpdateRoleParams role_id name keys (match keys with Some _ => true | None => false end) in
  let* role := on_err (with_code ErrCannotModifyBuiltinRole CodeFailedPrecondition
                        (with_code ErrInvalidPermissionKey CodeInvalidArgument convertErr)) (UpdateRole ctx params) in
  ret (RoleResponse (roleToProto role)).

Definition RoleService_DeleteRole (ctx : Ctx) (role_id : string) : Go Response :=
  on_err (with_code ErrCannotModifyBuiltinRole CodeFailedPrecondition convertErr) (DeleteRole ctx role_id) ;;; ret EmptyResponse.

Definition RoleService_ListPermissions (scope : Z) : Go Response :=
  let scope := protoRoleScopeToEntity scope in
  ret (ListPermissionsResponse
    ((λ p, mkPbPermissionKey (PKD_Key p) (PKD_Description p) (entityRoleScopeToProto (PKD_Scope p))) <$>
     filter (λ p, scope = EmptyString ∨ PKD_Scope p = scope) AllPermissionKeys)).

Definition RoleService_GetMyPermissions (ctx : Ctx) : Go Response :=
  let* claims := claims_or_unauthenticated ctx in
  let* summary := on_err convertErr (GetMyPermissionsSummary (ac_UserID claims)) in
  ret (GetMyPermissionsResponse (MPS_Groups summary) (MPS_SystemPermissionKeys summary)).

(** The handler of a message; the header is the request's own. *)
Definition dispatch (m : Message) (ctx : Ctx) (req : AnyRequest) : Go Response :=
  match m with
  | GetTokenByPasswordRequest id password => UserService_GetTokenByPassword id password
  | ValidateRegistrationTokenRequest token => UserService_ValidateRegistrationToken token
  | RegisterWithTokenRequest token user_id password => UserService_RegisterWithToken token user_id password
  | RefreshTokenRequest => UserService_RefreshToken req
  | ChangePasswordRequest cur new => UserService_ChangePassword ctx cur new
  | ListUsersRequest => UserService_ListUsers
  | GetUserRequest user_id => UserService_GetUser user_id
  | CreateRegistrationTokenRequest resonite_id role => UserService_CreateRegistrationToken ctx resonite_id role
  | DeleteUserRequest user_id => UserService_DeleteUser ctx user_id
  | CreateGroupRequest name => GroupService_CreateGroup ctx name
  | GetGroupRequest g => GroupService_GetGroup g
  | ListGroupsRequest => GroupService_ListGroups ctx
  | UpdateGroupRequest g name => GroupService_UpdateGroup ctx g name
  | DeleteGroupRequest g => GroupService_DeleteGroup ctx g
  | ListGroupMembersRequest g => GroupService_ListGroupMembers g
  | AddGroupMemberRequest g u r => GroupService_AddGroupMember ctx g u r
  | RemoveGroupMemberRequest g u => GroupService_RemoveGroupMember ctx g u
  | UpdateGroupMemberRoleRequest g u r => GroupService_UpdateGroupMemberRole ctx g u r
  | ListRolesRequest g => RoleService_ListRoles g
  | CreateRoleRequest g name scope keys => RoleService_CreateRole ctx g name scope keys
  | UpdateRoleRequest r name keys => RoleService_UpdateRole ctx r name keys
  | DeleteRoleRequest r => RoleService_DeleteRole ctx r
  | ListPermissionsRequest scope => RoleService_ListPermissions scope
  | GetMyPermissionsRequest => RoleService_GetMyPermissions ctx
  end.

Context `{SP : StartupParameters}.

(** [NewHandler] of the services: the logging interceptor hands the error
    on; the user service authenticates when it can, the others insist. *)
Definition optional_auth_stack {A} (rules : Rules) (next : Ctx → AnyRequest → Go A) : Ctx → AnyRequest → Go A :=
  NewOptionalAuthInterceptor secretKey (WrapUnary rules next).
Definition auth_stack {A} (rules : Rules) (next : Ctx → AnyRequest → Go A) : Ctx → AnyRequest → Go A :=
  authInterceptor secretKey (WrapUnary rules next).

Definition serve (rules : Rules) (authorization : string) (m : Message) : Go Response :=
  let req := any_request authorization m in
  if bool_decide (fst (service_method m) = "UserService")
  then optional_auth_stack rules (dispatch m) context_Background req
  else auth_stack rules (dispatch m) context_Background req.
End Services.
