(* ===== verification/RpcTheorems.v ===== *)
(** * Served requests

    A message that arrives at the user, group or role service with an
    Authorization header, through the interceptors, to the tables: what the
    system of use cases guarantees holds of the running service. *)

From S2P Require Import Prelude Entity Models Queries Ports PermissionUsecase Repositories RoleUsecase GroupUsecase UserUsecase Headless Resources StoreInvariant PermissionInvariant PermissionSystem PermissionDecisions PermissionSafety NoEscalation PermissionTheorems RpcPermission RpcAccess AuthTokens AuthSafety RpcServices PlainJson.



From stdpp Require Import base gmap strings list.
From Stdlib Require Import ZArith Lia.

Implicit Types (w : World) (ctx : Ctx).

(** ** The listings only read *)

Lemma quiet_ListAll : preserves quiet groupRepo_ListAll.
Proof. change (preserves quiet GroupRepository_ListAll). unfold GroupRepository_ListAll, ListGroups. preserve. Qed.
Lemma quiet_ListByUser u : preserves quiet (groupRepo_ListByUser u).
Proof. change (preserves quiet (GroupRepository_ListByUser u)). unfold GroupRepository_ListByUser, ListGroupsByUser. preserve. Qed.
Lemma quiet_attachPermissions rows : preserves quiet (attachPermissionsToRoles rows).
Proof. unfold attachPermissionsToRoles, ListRolePermissionsForRoles. preserve. Qed.
Lemma quiet_ListGlobal : preserves quiet roleRepo_ListGlobal.
Proof.
  change (preserves quiet RoleRepository_ListGlobal). unfold RoleRepository_ListGlobal, ListGlobalRoles.
  apply preserves_bind; [typeclasses eauto|preserve|apply quiet_attachPermissions].
Qed.
Lemma quiet_ListAssignable g s : preserves quiet (roleRepo_ListAssignable g s).
Proof.
  change (preserves quiet (RoleRepository_ListAssignable g s)). unfold RoleRepository_ListAssignable, ListAssignableRoles.
  apply preserves_bind; [typeclasses eauto|preserve|apply quiet_attachPermissions].
Qed.
Lemma quiet_summarize u ms acc : preserves quiet (summarize u ms acc).
Proof. revert acc. induction ms as [|m ms IH]; intros acc; simpl; [preserve|]. apply preserves_bind; [typeclasses eauto|preserve|auto]. Qed.
#[export] Hint Resolve quiet_ListAll quiet_ListByUser quiet_ListGlobal quiet_ListAssignable quiet_summarize : preserves.

Section Served.
Context {BC : Bcrypt} {SF : Skyfrost} {JW : JWT} `{SP : StartupParameters}.
Context (guc : bool) (secretKey : string).

(** ** What a handler does to the tables *)

(** The request of the use cases a message becomes, if it writes at all. *)
Definition request_of (m : Message) ctx : option Request :=
  match m with
  | RegisterWithTokenRequest token user_id password => Some (ReqRegisterWithToken token user_id password)
  | ChangePasswordRequest cur new => c ← ctx; Some (ReqChangePassword (ac_UserID c) cur new)
  | CreateRegistrationTokenRequest resonite_id role =>
      _ ← nonempty resonite_id; Some (ReqCreateRegistrationTokenWithInfo resonite_id role)
  | DeleteUserRequest user_id =>
      _ ← nonempty user_id; c ← ctx; if bool_decide (ac_UserID c = user_id) then None else Some (ReqDeleteUser user_id)
  | CreateGroupRequest name => c ← ctx; Some (ReqCreateGroup name (ac_UserID c))
  | UpdateGroupRequest g name => name ← name; Some (ReqUpdateGroupName g name)
  | DeleteGroupRequest g => Some (ReqDeleteGroup g)
  | AddGroupMemberRequest g u r => c ← ctx; Some (ReqAddGroupMember g u r (Some (ac_UserID c)))
  | RemoveGroupMemberRequest g u => Some (ReqRemoveGroupMember g u)
  | UpdateGroupMemberRoleRequest g u r => Some (ReqUpdateGroupMemberRole g u r)
  | CreateRoleRequest g name scope keys =>
      Some (ReqCreateRole (mkCreateRoleParams (given_group_id g) name (protoRoleScopeToEntity scope) keys))
  | UpdateRoleRequest r name keys =>
      Some (ReqUpdateRole (mkUpdateRoleParams r name keys (match keys with Some _ => true | None => false end)))
  | DeleteRoleRequest r => Some (ReqDeleteRole r)
  | _ => None
  end.

Definition effect_of (m : Message) ctx w : DB :=
  match request_of m ctx with Some r => w_db (handle guc ctx r w).2 | None => w_db w end.

(** Rewriting the error and answering afterwards leave the tables as they are. *)
Lemma after_on_err {A B} h (m : Go A) (k : A → Go B) w :
  (∀ a, preserves quiet (k a)) → w_db (bind (on_err h m) k w).2 = w_db (m w).2.
Proof.
  intros Hk. unfold bind, on_err. destruct (m w) as [[a|e] w']; simpl; [|done]. by destruct (Hk a w') as [-> _].
Qed.
Lemma discard_db {A} (m : Go A) w : w_db (discard m w).2 = w_db (m w).2.
Proof. unfold discard, bind. by destruct (m w) as [[a|e] w']. Qed.
Lemma quiet_db {A} (m : Go A) w : preserves quiet m → w_db (m w).2 = w_db w.
Proof. intros H. by destruct (H w). Qed.

Lemma quiet_GenerateToken c ttl : preserves quiet (GenerateToken secretKey c ttl).
Proof. unfold GenerateToken. preserve. Qed.
#[local] Hint Resolve quiet_GenerateToken quiet_FetchUserInfo : preserves.
Lemma quiet_token_set c : preserves quiet (token_set secretKey c).
Proof. unfold token_set, GenerateTokensWithDefaultTTL. preserve. Qed.
Lemma quiet_validateAuthHeader h : preserves quiet (validateAuthHeader secretKey h).
Proof. intros w. rewrite validateAuthHeader_run. reflexivity. Qed.
#[local] Hint Resolve quiet_token_set quiet_validateAuthHeader : preserves.

(** claims that the handler reads from its context *)
Lemma with_claims {B} ctx (k : AuthClaims → Go B) w :
  bind (claims_or_unauthenticated ctx) k w =
  match ctx with Some c => k c w | None => (Fail (connect_NewError CodeUnauthenticated (EMsg "not authenticated")), w) end.
Proof. by destruct ctx. Qed.

Lemma with_required {B} id what (k : unit → Go B) w :
  bind (required id what) k w =
  match nonempty id with Some _ => k tt w | None => (Fail (connect_NewError CodeInvalidArgument (EMsg (what +:+ " is required"))), w) end.
Proof. unfold required, nonempty. by case_bool_decide. Qed.

Ltac answered := cbn [handle]; rewrite ?discard_db, after_on_err; [reflexivity|intros ?; preserve].

Lemma dispatch_effect m ctx req w : w_db (dispatch guc secretKey m ctx req w).2 = effect_of m ctx w.
Proof.
  unfold effect_of. destruct m; cbn [dispatch request_of].
  - apply quiet_db. unfold UserService_GetTokenByPassword, GetUserWithPassword. preserve.
  - apply quiet_db. unfold UserService_ValidateRegistrationToken, ValidateRegistrationToken. preserve.
  - cbn [handle]. unfold UserService_RegisterWithToken. answered.
  - apply quiet_db. unfold UserService_RefreshToken, ValidateToken. preserve.
  - unfold UserService_ChangePassword. rewrite with_claims. destruct ctx as [c|]; simpl; [answered|done].
  - apply quiet_db. unfold UserService_ListUsers, ListUsers. preserve.
  - apply quiet_db. unfold UserService_GetUser, required, GetUser. preserve.
  - unfold UserService_CreateRegistrationToken. rewrite with_required. destruct (nonempty _); simpl; [answered|done].
  - unfold UserService_DeleteUser. rewrite with_required. destruct (nonempty _); simpl; [|done].
    rewrite with_claims. destruct ctx as [c|]; simpl; [|done]. case_bool_decide; [done|answered].
  - unfold GroupService_CreateGroup. rewrite with_claims. destruct ctx as [c|]; simpl; [answered|done].
  - apply quiet_db. unfold GroupService_GetGroup, GetGroup. preserve.
  - apply quiet_db. unfold GroupService_ListGroups, ListGroupsForUser, claims_or_unauthenticated. preserve.
  - unfold GroupService_UpdateGroup. destruct name as [name|]; simpl; [answered|].
    apply quiet_db. unfold GetGroup. preserve.
  - unfold GroupService_DeleteGroup. answered.
  - apply quiet_db. unfold GroupService_ListGroupMembers, ListGroupMembers. preserve.
  - unfold GroupService_AddGroupMember. rewrite with_claims. destruct ctx as [c|]; simpl; [answered|done].
  - unfold GroupService_RemoveGroupMember. answered.
  - unfold GroupService_UpdateGroupMemberRole. answered.
  - apply quiet_db. unfold RoleService_ListRoles, ListRoles. preserve.
  - unfold RoleService_CreateRole. answered.
  - unfold RoleService_UpdateRole. answered.
  - unfold RoleService_DeleteRole. answered.
  - done.
  - apply quiet_db. unfold RoleService_GetMyPermissions, claims_or_unauthenticated, GetMyPermissionsSummary. preserve.
Qed.

(** ** Through the interceptors *)

Lemma optional_auth_run {A} (next : Ctx → AnyRequest → Go A) req w :
  NewOptionalAuthInterceptor secretKey next context_Background req w =
  next (caller_of secretKey (req_Authorization req) (w_now w)) req w.
Proof.
  unfold NewOptionalAuthInterceptor, caller_of, auth_header, bind, attempt. cbv zeta.
  destruct (Nat.leb_spec (String.length (req_Authorization req)) bearer).
  - by rewrite (proj2 (Nat.ltb_ge _ _)) by lia.
  - rewrite (proj2 (Nat.ltb_lt _ _)) by lia. rewrite ParseToken_run. by destruct (parse_token _ _ _).
Qed.

(** A request reaches its handler in the context of its token, with an entry
    of the matrix that allows it, or answers a connect error. *)
Lemma serve_cases rules h m w :
  register_all registrations ∅ = Some rules → store_ok (w_db w) →
  let req := any_request h m in let ctx := caller_of secretKey h (w_now w) in
  (∃ a w', only_faults w w' ∧ (req_Procedure req, a) ∈ access_table ∧ allows a (w_db w) ctx req ∧
     serve guc secretKey rules h m w = dispatch guc secretKey m ctx req w') ∨
  (∃ c e w', serve guc secretKey rules h m w = (Fail (EConnect c e), w') ∧ only_faults w w').
Proof.
  intros Hr Hok req ctx. unfold serve. case_bool_decide as Hs.
  - unfold optional_auth_stack. rewrite optional_auth_run.
    destruct (gate_rules rules (dispatch guc secretKey m) ctx req w Hr Hok) as [(a & w' & Ha & Hal & Hof & E)|(c & e & w' & E & Hof & _)].
    + left. exists a, w'. exact (conj Hof (conj Ha (conj Hal E))).
    + right. exists c, e, w'. exact (conj E Hof).
  - unfold auth_stack, authInterceptor, bind. rewrite validateAuthHeader_run.
    subst ctx. unfold caller_of. change (req_Authorization (any_request h m)) with h.
    destruct (auth_header secretKey h (w_now w)) as [c|e] eqn:E.
    + unfold WithAuthClaims.
      destruct (gate_rules rules (dispatch guc secretKey m) (Some c) req w Hr Hok) as [(a & w' & Ha & Hal & Hof & En)|(code & e & w' & En & Hof & _)].
      * left. exists a, w'. exact (conj Hof (conj Ha (conj Hal En))).
      * right. exists code, e, w'. exact (conj En Hof).
    + right. destruct (auth_header_Fail _ _ _ _ E) as [e' ->]. exists CodeUnauthenticated, e', w. split; reflexivity.
Qed.

(** What a served request leaves of the tables. *)
Lemma serve_effect rules h m w :
  register_all registrations ∅ = Some rules → store_ok (w_db w) →
  ∃ w', only_faults w w' ∧
    let d' := w_db (serve guc secretKey rules h m w).2 in
    d' = w_db w ∨ d' = effect_of m (caller_of secretKey h (w_now w)) w'.
Proof.
  intros Hr Hok. destruct (serve_cases rules h m w Hr Hok) as [(a & w' & Hof & _ & _ & E)|(c & e & w' & E & Hof)]; exists w'; split; [done| |done|].
  - right. rewrite E. apply dispatch_effect.
  - left. rewrite E. simpl. by apply only_faults_db.
Qed.

Inductive served (rules : Rules) (d0 : DB) : DB → Prop :=
  | served_start : served rules d0 d0
  | served_request h m w : served rules d0 (w_db w) → served rules d0 (w_db (serve guc secretKey rules h m w).2).

Lemma served_ok rules d0 d : register_all registrations ∅ = Some rules → store_ok d0 → served rules d0 d → store_ok d.
Proof.
  intros Hr H0. induction 1 as [|h m w _ IH]; [done|].
  destruct (serve_effect rules h m w Hr IH) as (w' & Hof & [->| ->]); [done|]. unfold effect_of.
  assert (store_ok (w_db w')) as Hok by (by rewrite (only_faults_db _ _ Hof)).
  destruct (request_of _ _); [by apply handle_stays|done].
Qed.

Definition bounded_message (m : Message) : bool :=
  match m with UpdateRoleRequest _ _ _ | RegisterWithTokenRequest _ _ _ => false | _ => true end.
Lemma bounded_request m ctx r : bounded_message m = true → request_of m ctx = Some r → bounded_by_caller r = true.
Proof.
  intros Hm H. destruct m; try done; simpl in *; repeat (apply bind_Some in H as (? & _ & H)); try (case_bool_decide); by simplify_eq.
Qed.

Lemma served_no_gain rules h m w : register_all registrations ∅ = Some rules → store_ok (w_db w) → bounded_message m = true →
  no_gain (caller_of secretKey h (w_now w)) (w_db w) (w_db (serve guc secretKey rules h m w).2).
Proof.
  intros Hr Hok Hm. destruct (serve_effect rules h m w Hr Hok) as (w' & Hof & [->| ->]); [apply no_gain_refl|].
  pose proof (only_faults_db _ _ Hof) as Ed. unfold effect_of. destruct (request_of _ _) as [r|] eqn:Er.
  - rewrite <-Ed. apply handle_no_gain; [by rewrite Ed|by eapply bounded_request].
  - rewrite Ed. apply no_gain_refl.
Qed.

(** the messages that act by a token of their own or on the caller's own password *)
Definition for_caller (m : Message) : bool :=
  match m with RegisterWithTokenRequest _ _ _ | ChangePasswordRequest _ _ => false | _ => true end.
Lemma for_caller_request m ctx r : for_caller m = true → request_of m ctx = Some r → acts_for_caller r = true.
Proof.
  intros Hm H. destruct m; try done; simpl in *; repeat (apply bind_Some in H as (? & _ & H)); try (case_bool_decide); by simplify_eq.
Qed.

Lemma served_stranger rules h m w : register_all registrations ∅ = Some rules → store_ok (w_db w) → for_caller m = true →
  stranger (w_db w) (caller_of secretKey h (w_now w)) → w_db (serve guc secretKey rules h m w).2 = w_db w.
Proof.
  intros Hr Hok Hm Hs. destruct (serve_effect rules h m w Hr Hok) as (w' & Hof & [->| ->]); [done|].
  pose proof (only_faults_db _ _ Hof) as Ed. unfold effect_of. destruct (request_of _ _) as [r|] eqn:Er; [|done].
  destruct (stranger_blocked guc (caller_of secretKey h (w_now w)) r w') as [_ ->]; [by eapply for_caller_request|by rewrite Ed|done].
Qed.
End Served.

(** ** Properties of the served system

    The theorems about the user, group and role services as they are mounted,
    with witnesses at concrete stores. *)


#[local] Existing Instance salted_Bcrypt.
#[local] Existing Instance offline_Skyfrost.
#[local] Existing Instance sealing_JWT.
#[local] Existing Instance raw_parameters.

Definition secret : string := "0123456789".

(** Whatever messages arrive at the mounted services, with whatever
    headers, in whatever order and with any statement failing on the way, the
    permission tables stay well-formed. *)
Theorem served_store_ok (BC : Bcrypt) (SF : Skyfrost) (JW : JWT) (SP : StartupParameters) (guc : bool) (secretKey : string)
    (rules : Rules) (now : Instant) (d : DB) :
  register_all registrations ∅ = Some rules → served guc secretKey rules (migrated_DB now) d → store_ok d.
Proof. intros Hr. apply served_ok; [exact Hr|apply migrated_ok]. Qed.

Lemma served_store_ok_witness :
  ∃ rules : Rules, register_all registrations ∅ = Some rules ∧
    store_ok (w_db (serve true secret rules "Bearer x" (DeleteGroupRequest MigratedGroupID) fresh_world).2).
Proof.
  destruct rules_exist as [rules Hr]. exists rules. split; [exact Hr|].
  apply (served_store_ok _ _ _ _ true secret rules 0%Z _ Hr). apply served_request. apply served_start.
Defined.

(** C8. A served message, other than a role update or a registration with an
    invitation, lets nobody gain a permission on a group that the user of the
    request's token may not use there himself; without a valid token nobody
    gains anything. *)
Theorem served_requests_grant_only_held (BC : Bcrypt) (SF : Skyfrost) (JW : JWT) (SP : StartupParameters) (guc : bool)
    (secretKey : string) (rules : Rules) (h : string) (m : Message) (w : World) :
  register_all registrations ∅ = Some rules → store_ok (w_db w) → bounded_message m = true →
  no_gain (caller_of secretKey h (w_now w)) (w_db w) (w_db (serve guc secretKey rules h m w).2).
Proof. apply served_no_gain. Qed.

Lemma served_requests_grant_only_held_witness :
  ∃ rules : Rules, register_all registrations ∅ = Some rules ∧
    no_gain (caller_of secret "Bearer x" (w_now alice_world)) (w_db alice_world)
      (w_db (serve true secret rules "Bearer x" (AddGroupMemberRequest MigratedGroupID "alice" SeedRoleID_User) alice_world).2).
Proof.
  destruct rules_exist as [rules Hr]. exists rules. split; [exact Hr|].
  exact (served_requests_grant_only_held _ _ _ _ true secret rules "Bearer x"
           (AddGroupMemberRequest MigratedGroupID "alice" SeedRoleID_User) alice_world Hr alice_ok eq_refl).
Defined.

(** A message without a valid token, or whose token's user holds no
    permission in any group, leaves every table as it was; redeeming an
    invitation and changing the own password are the only exceptions. *)
Theorem served_stranger_changes_nothing (BC : Bcrypt) (SF : Skyfrost) (JW : JWT) (SP : StartupParameters) (guc : bool)
    (secretKey : string) (rules : Rules) (h : string) (m : Message) (w : World) :
  register_all registrations ∅ = Some rules → store_ok (w_db w) → for_caller m = true →
  stranger (w_db w) (caller_of secretKey h (w_now w)) → w_db (serve guc secretKey rules h m w).2 = w_db w.
Proof. apply served_stranger. Qed.

Lemma served_stranger_changes_nothing_witness :
  ∃ rules : Rules, register_all registrations ∅ = Some rules ∧
    w_db (serve true secret rules EmptyString (DeleteUserRequest "alice") alice_world).2 = w_db alice_world.
Proof.
  destruct rules_exist as [rules Hr]. exists rules. split; [exact Hr|].
  exact (served_stranger_changes_nothing _ _ _ _ true secret rules EmptyString (DeleteUserRequest "alice") alice_world Hr alice_ok eq_refl
           (nobody_stranger _)).
Defined.

(** ** Logging in *)

Section Login.
Context {BC : Bcrypt} {SF : Skyfrost} {JW : JWT} {SP : StartupParameters} (guc : bool) (secretKey : string).

Lemma rule_of rules p check : register_all registrations ∅ = Some rules → (p, check) ∈ registrations → rules !! p = Some check.
Proof. intros Hr Hin. apply (register_all_lookup _ _ _ _ _ Hr). left. exact Hin. Qed.

(** A public message goes straight to its handler. *)
Lemma serve_public rules h m w : rules !! procedure (fst (service_method m)) (snd (service_method m)) = Some publicRPC →
  fst (service_method m) = "UserService" →
  serve guc secretKey rules h m w = dispatch guc secretKey m (caller_of secretKey h (w_now w)) (any_request h m) w.
Proof.
  intros Hp Hs. unfold serve. rewrite bool_decide_eq_true_2 by done. unfold optional_auth_stack. rewrite optional_auth_run.
  unfold WrapUnary. change (req_Procedure (any_request h m)) with (procedure (fst (service_method m)) (snd (service_method m))).
  by destruct (rules !! _) as [check|]; [injection Hp as ->|discriminate Hp].
Qed.
End Login.

(** C9. Logging in over the wire, on a database that works: the right
    password of a user answers two tokens and leaves the store alone, and a
    request that sends the first one in its header runs as that user for the
    next half hour; a wrong password is an invalid argument, with no token. *)
Theorem login_exact (BC : Bcrypt) (SF : Skyfrost) (JW : JWT) (SP : StartupParameters) (guc : bool) (secretKey : string)
    (rules : Rules) (h id pw : string) (u : UserRow) (w : World) :
  register_all registrations ∅ = Some rules → (minSecretKeyLength <= String.length secretKey)%nat →
  w_faults w = [] → id ≠ SystemUserID → t_users (w_db w) !! id = Some u → plain_identity (user_claims u) = true →
  let r := serve guc secretKey rules h (GetTokenByPasswordRequest id pw) w in
  match ComparePasswordAndHash pw (us_Password u) with
  | Ok _ => ∃ token refresh, r = (Ok (TokenSetResponse token refresh), w) ∧
      ∀ t, (t + time_Second <= w_now w + defaultTokenTTL)%Z →
        ∃ c, caller_of secretKey ("Bearer " +:+ token) t = Some c ∧ identity c = identity (user_claims u)
  | Fail _ => r = (Fail (EConnect CodeInvalidArgument (EMsg "invalid id or password")), w)
  end.
Proof.
  intros Hr Hk Hf Hid Hu Hp r. subst r.
  rewrite serve_public; [| |reflexivity].
  2: { apply (rule_of rules); [exact Hr|]. apply (list_elem_of_lookup_2 _ 63). reflexivity. }
  cbn [dispatch]. unfold UserService_GetTokenByPassword.
  assert (GetUserWithPassword id pw w = (rbind (ComparePasswordAndHash pw (us_Password u)) (λ _, Ok u), w)) as E.
  { unfold GetUserWithPassword. rewrite bool_decide_eq_false_2 by done.
    rewrite (bind_Ok _ _ _ u w) by (unfold Queries.GetUser; rewrite (reads_run _ _ _ (reads_query _) Hf); unfold q_GetUser; by rewrite Hu).
    unfold bind, lift. by destruct (ComparePasswordAndHash _ _) as [[]|]. }
  destruct (ComparePasswordAndHash pw (us_Password u)) as [[]|e]; simpl in E.
  2: { erewrite bind_Fail; [reflexivity|]. unfold on_err. rewrite E. reflexivity. }
  erewrite bind_Ok; [|unfold on_err; rewrite E; reflexivity].
  destruct (GenerateToken_spec secretKey (user_claims u) defaultTokenTTL w Hk Hp eq_refl) as (t1 & E1 & Hs1 & H1).
  destruct (GenerateToken_spec secretKey (user_claims u) defaultRefreshTTL w Hk Hp eq_refl) as (t2 & E2 & _ & _).
  exists t1, t2. split.
  - unfold token_set. rewrite (bind_Ok _ _ _ (t1, t2) w); [reflexivity|]. unfold GenerateTokensWithDefaultTTL.
    by rewrite (bind_Ok _ _ _ _ _ E1), (bind_Ok _ _ _ _ _ E2).
  - intros t Ht. specialize (H1 t). pose proof (NewNumericDate_near (w_now w + defaultTokenTTL)%Z).
    rewrite (proj2 (Z.ltb_lt _ _)) in H1 by lia. unfold caller_of.
    rewrite auth_header_bearer by (by eapply SignedString_nonempty). rewrite H1. eexists. split; reflexivity.
Qed.

Lemma login_exact_witness :
  ∃ (rules : Rules) token refresh, register_all registrations ∅ = Some rules ∧
    serve true secret rules EmptyString (GetTokenByPasswordRequest "alice" "password") alice_world =
      (Ok (TokenSetResponse token refresh), alice_world) ∧
    ∃ c, caller_of secret ("Bearer " +:+ token) (w_now alice_world) = Some c ∧ ac_UserID c = "alice".
Proof.
  destruct rules_exist as [rules Hr]. exists rules.
  assert (∃ u, t_users (w_db alice_world) !! "alice" = Some u ∧ plain_identity (user_claims u) = true ∧
             ComparePasswordAndHash "password" (us_Password u) = Ok tt ∧ us_ID u = "alice") as (u & Hu & Hp & Hpw & Hi)
    by (eexists; split; [vm_compute; reflexivity|]; split; [|split]; reflexivity).
  assert (minSecretKeyLength <= String.length secret)%nat as Hk by reflexivity.
  assert (w_faults alice_world = []) as Hf by reflexivity.
  assert ("alice" ≠ SystemUserID) as Hn by discriminate.
  pose proof (login_exact _ _ _ _ true secret rules EmptyString "alice" "password" u alice_world Hr Hk Hf Hn Hu Hp) as H.
  cbv zeta in H. rewrite Hpw in H. destruct H as (token & refresh & E & H). exists token, refresh.
  split; [exact Hr|]. split; [exact E|]. destruct (H (w_now alice_world)) as (c & Hc & Hic); [vm_compute; discriminate|].
  exists c. split; [exact Hc|]. unfold identity in Hic. cbn in Hic. injection Hic as Hu1 _ _. congruence.
Defined.

(** ** What the checks do not prevent *)

Definition rules_in_force : Rules := default ∅ (register_all registrations ∅).
(** a user whose id starts with a blank, beside alice *)
Definition blank_world : World :=
  run (handle true (user_ctx "system") (ReqCreateUser " alice" "password" "U-b" EmptyString)) alice_world.

(** The read checks of groups look at the trimmed group id, the handlers
    at the id as sent: alice may read her own personal group, and so reads the
    members of the personal group of the user " alice", to which she has no
    access at all. *)
Theorem trimmed_id_reads_foreign_group :
  let m := ListGroupMembersRequest " alice-personal" in
  let r := WrapUnary rules_in_force (dispatch true secret m) (user_ctx "alice") (any_request EmptyString m) blank_world in
  fst <$> match r.1 with Ok (ListGroupMembersResponse ms) => (λ p, (pm_UserId p, pm_GroupId p)) <$> ms | _ => [] end = [" alice"] ∧
  has_system (w_db blank_world) "alice" PermKey_SystemGroupList = false ∧
  holds (w_db blank_world) "alice" " alice-personal" PermKey_GroupEdit = false ∧
  present (" alice-personal", "alice") (t_group_members (w_db blank_world)) = false.
Proof. vm_compute. done. Qed.
