(* ===== verification/Notification.v ===== *)
(** * The notification bus

    [src/usecase/notification/events.go] and
    [src/usecase/notification/bus.go]: the events, and the in-memory bus with
    its lock and its channels as an interleaving machine.  A thread holds the
    read lock while it publishes; one step of the machine is one operation on
    a channel, or a whole critical section under the write lock. *)

From S2P Require Import Prelude Entity.
From stdpp Require Import base gmap strings list.
From Stdlib Require Import ZArith Lia.

(** ** Events ([hdlctrlv1.NotificationEvent]) *)

Inductive EventPayload : Type :=
  | HostUpdatedEvent (host_id : string)
  | HostListChangedEvent
  | SessionUpdatedEvent (session_id host_id : string)
  | SessionUserChangedEvent (session_id host_id : string) (kind : Z) (user_name : string)
  | SessionLifecycleEvent (session_id host_id : string) (kind : Z)
  | JobCompletedEvent (job_id : string) (level : Z) (message : string)
  | KeepAliveEvent
  | UnknownEvent.   (** no payload, or one this version does not know *)

Definition LEVEL_SUCCESS : Z := 1.
Definition LEVEL_ERROR : Z := 2.

Record NotificationEvent : Type := mkNotificationEvent {
  ev_Id : string; ev_OccurredAt : Instant; ev_Payload : EventPayload }.

(** The factories; [now] is [timestamppb.Now()]. *)
Definition occurredOrNow (now : Instant) (t : option Instant) : Instant := default now t.
Definition HostUpdated (now : Instant) (hostID id : string) (occurredAt : option Instant) : NotificationEvent :=
  mkNotificationEvent id (occurredOrNow now occurredAt) (HostUpdatedEvent hostID).
Definition HostListChanged (now : Instant) : NotificationEvent := mkNotificationEvent EmptyString now HostListChangedEvent.
Definition SessionUpdated (now : Instant) (sessionID hostID id : string) (occurredAt : option Instant) : NotificationEvent :=
  mkNotificationEvent id (occurredOrNow now occurredAt) (SessionUpdatedEvent sessionID hostID).
Definition SessionUserChanged (now : Instant) (sessionID hostID userName id : string) (kind : Z) (occurredAt : option Instant)
  : NotificationEvent :=
  mkNotificationEvent id (occurredOrNow now occurredAt) (SessionUserChangedEvent sessionID hostID kind userName).
Definition SessionLifecycle (now : Instant) (sessionID hostID id : string) (kind : Z) (occurredAt : option Instant) : NotificationEvent :=
  mkNotificationEvent id (occurredOrNow now occurredAt) (SessionLifecycleEvent sessionID hostID kind).
Definition JobCompleted (now : Instant) (jobID message : string) (level : Z) : NotificationEvent :=
  mkNotificationEvent EmptyString now (JobCompletedEvent jobID level message).
Definition KeepAlive (now : Instant) : NotificationEvent := mkNotificationEvent EmptyString now KeepAliveEvent.

(** ** The bus *)

Definition subscriberBufferSize : nat := 64.

Record Channel : Type := mkChannel { ch_queue : list NotificationEvent; ch_closed : bool }.

(** Where a thread stands: in [Publish] or [PublishTo] with the subscribers
    still to serve, in [busSend] past the full channel, or between the delete
    and the close of a cleanup. *)
Inductive Thread : Type :=
  | Publishing (ev : NotificationEvent) (todo : list Z)
  | Draining (ev : NotificationEvent) (id : Z) (todo : list Z)
  | Sending (ev : NotificationEvent) (id : Z) (todo : list Z)
  | Closing (id : Z).

(** [MemoryBus]; a subscriber is its user, its channel has the same number. *)
Record MemoryBus : Type := mkBus {
  b_nextID : Z;
  b_subs : gmap Z string;
  b_chans : gmap Z Channel;
  b_threads : gmap nat Thread }.

Definition NewBus : MemoryBus := mkBus 0 ∅ ∅ ∅.

Definition reading (th : Thread) : bool := match th with Closing _ => false | _ => true end.
(** the write lock is free for the taking: no thread holds the read lock *)
Definition lockable (b : MemoryBus) : bool := bool_decide (map_Forall (λ _ th, reading th = false) (b_threads b)).

Definition set_thread (t : nat) (th : option Thread) (b : MemoryBus) : MemoryBus :=
  mkBus (b_nextID b) (b_subs b) (b_chans b) (match th with Some th => <[t := th]> (b_threads b) | None => delete t (b_threads b) end).
Definition set_chan (id : Z) (c : Channel) (b : MemoryBus) : MemoryBus :=
  mkBus (b_nextID b) (b_subs b) (<[id := c]> (b_chans b)) (b_threads b).

(** The subscribers an event is for: all, or those of a user. *)
Definition addressed (to : option string) (b : MemoryBus) : gset Z :=
  match to with
  | None => dom (b_subs b)
  | Some u => dom (filter (λ p, snd p = u) (b_subs b))
  end.

Inductive Label : Type :=
  | LPublish (t : nat) (to : option string) (ev : NotificationEvent) (order : list Z)
  | LRun (t : nat)
  | LSubscribe (userID : string)
  | LCleanup (t : nat) (id : Z)
  | LReceive (id : Z).

(** What a step comes to: it must wait, the process panics, or the next state. *)
Inductive Move : Type := Blocked | Panics | To (b : MemoryBus).

Definition full (c : Channel) : bool := (subscriberBufferSize <=? length (ch_queue c))%nat.
Definition push (ev : NotificationEvent) (c : Channel) : Channel := mkChannel (ch_queue c ++ [ev]) (ch_closed c).
Definition pop (c : Channel) : Channel := mkChannel (tail (ch_queue c)) (ch_closed c).

(** One operation of a thread.  A send on a closed channel panics, a send on a
    full one waits; a receive from an empty one waits unless it is closed. *)
Definition run_thread (t : nat) (b : MemoryBus) : Move :=
  match b_threads b !! t with
  | None => Blocked
  | Some (Publishing ev []) => To (set_thread t None b)
  | Some (Publishing ev (id :: todo)) =>
      match b_chans b !! id with
      | None => Blocked
      | Some c =>
          if ch_closed c then Panics
          else if full c then To (set_thread t (Some (Draining ev id todo)) b)
          else To (set_thread t (Some (Publishing ev todo)) (set_chan id (push ev c) b))
      end
  | Some (Draining ev id todo) =>
      match b_chans b !! id with
      | None => Blocked
      | Some c =>
          if bool_decide (ch_queue c = []) && negb (ch_closed c) then Blocked
          else To (set_thread t (Some (Sending ev id todo)) (set_chan id (pop c) b))
      end
  | Some (Sending ev id todo) =>
      match b_chans b !! id with
      | None => Blocked
      | Some c =>
          if ch_closed c then Panics
          else if full c then Blocked
          else To (set_thread t (Some (Publishing ev todo)) (set_chan id (push ev c) b))
      end
  | Some (Closing id) =>
      match b_chans b !! id with
      | None => Blocked
      | Some c => if ch_closed c then Panics else To (set_thread t None (set_chan id (mkChannel (ch_queue c) true) b))
      end
  end.

(** The counter is a [uint64]; the machine stops before it would wrap. *)
Definition exec_label (l : Label) (b : MemoryBus) : Move :=
  match l with
  | LPublish t to ev order =>
      if bool_decide (b_threads b !! t = None) && negb (bool_decide (to = Some EmptyString)) &&
         bool_decide (NoDup order) && bool_decide (list_to_set order = addressed to b)
      then To (set_thread t (Some (Publishing ev order)) b) else Blocked
  | LRun t => run_thread t b
  | LSubscribe userID =>
      if lockable b && (b_nextID b + 1 <? 2 ^ 64)%Z then
        let id := (b_nextID b + 1)%Z in
        To (mkBus id (<[id := userID]> (b_subs b)) (<[id := mkChannel [] false]> (b_chans b)) (b_threads b))
      else Blocked
  | LCleanup t id =>
      (** called once per subscription, by its owner *)
      if lockable b && bool_decide (b_threads b !! t = None) && bool_decide (is_Some (b_subs b !! id)) then
        To (set_thread t (Some (Closing id)) (mkBus (b_nextID b) (delete id (b_subs b)) (b_chans b) (b_threads b)))
      else Blocked
  | LReceive id =>
      match b_chans b !! id with
      | Some c => if bool_decide (ch_queue c = []) then Blocked else To (set_chan id (pop c) b)
      | None => Blocked
      end
  end.

Inductive bus_reachable : MemoryBus → Prop :=
  | bus_start : bus_reachable NewBus
  | bus_step l b b' : bus_reachable b → exec_label l b = To b' → bus_reachable b'.

(** ** Invariant *)

Definition targets (th : Thread) : list Z :=
  match th with
  | Publishing _ todo => todo
  | Draining _ id todo | Sending _ id todo => id :: todo
  | Closing _ => []
  end.

Record bus_ok (b : MemoryBus) : Prop := {
  ok_open id : is_Some (b_subs b !! id) → ∃ c, b_chans b !! id = Some c ∧ ch_closed c = false;
  ok_targets t th id : b_threads b !! t = Some th → id ∈ targets th → is_Some (b_subs b !! id);
  ok_closing t id : b_threads b !! t = Some (Closing id) →
    b_subs b !! id = None ∧ (∃ c, b_chans b !! id = Some c ∧ ch_closed c = false) ∧
    ∀ t', b_threads b !! t' = Some (Closing id) → t' = t;
  ok_numbers id : is_Some (b_chans b !! id) → (id <= b_nextID b)%Z;
  ok_length id c : b_chans b !! id = Some c → (length (ch_queue c) <= subscriberBufferSize)%nat }.

Lemma NewBus_ok : bus_ok NewBus.
Proof. constructor; simpl; intros *; rewrite ?lookup_empty; try done; by intros [? ?]. Qed.

(** Changing a queue within the buffer. *)
Lemma set_chan_ok id c c' b :
  bus_ok b → b_chans b !! id = Some c → ch_closed c' = ch_closed c → (length (ch_queue c') <= subscriberBufferSize)%nat →
  bus_ok (set_chan id c' b).
Proof.
  intros [H1 H2 H3 H4 H5] Hc Hcl Hlen.
  assert (∀ i, (∃ c, b_chans b !! i = Some c ∧ ch_closed c = false) → ∃ c, <[id := c']> (b_chans b) !! i = Some c ∧ ch_closed c = false) as Hopen.
  { intros i (ci & Hi & Ho). destruct (decide (i = id)) as [->|Hne].
    - exists c'. rewrite lookup_insert_eq. split; [done|]. congruence.
    - exists ci. by rewrite lookup_insert_ne. }
  constructor; simpl.
  - intros i Hi. apply Hopen, H1, Hi.
  - exact H2.
  - intros t i Ht. destruct (H3 t i Ht) as (? & ? & ?). auto.
  - intros i [ci [[<- _]|[_ Hi]]%lookup_insert_Some]; apply H4; eauto.
  - intros i ci [[<- <-]|[_ Hi]]%lookup_insert_Some; [done|by eapply H5].
Qed.

Lemma set_thread_ok t th b :
  bus_ok b → reading th = true → (∀ id, id ∈ targets th → is_Some (b_subs b !! id)) → bus_ok (set_thread t (Some th) b).
Proof.
  intros [H1 H2 H3 H4 H5] Hr Ht. constructor; simpl; try done.
  - intros t' th' id [[<- <-]|[_ Hl]]%lookup_insert_Some; [apply Ht|by eapply H2].
  - intros t' id [[-> E]|[Hne Hl]]%lookup_insert_Some; [by rewrite E in Hr|].
    destruct (H3 _ _ Hl) as (? & ? & Hu). split; [done|]. split; [done|].
    intros t2 [[<- E]|[_ Hl2]]%lookup_insert_Some; [by rewrite E in Hr|by apply Hu].
Qed.

Lemma end_thread_ok t b : bus_ok b → bus_ok (set_thread t None b).
Proof.
  intros [H1 H2 H3 H4 H5]. constructor; simpl; try done.
  - intros t' th' id [_ Hl]%lookup_delete_Some. by eapply H2.
  - intros t' id [_ Hl]%lookup_delete_Some. destruct (H3 _ _ Hl) as (? & ? & Hu). split; [done|]. split; [done|].
    intros t2 [_ Hl2]%lookup_delete_Some. by apply Hu.
Qed.

Lemma not_full_push ev c : full c = false → (length (ch_queue (push ev c)) <= subscriberBufferSize)%nat.
Proof. unfold full. intros H%Nat.leb_gt. cbn [push ch_queue]. rewrite length_app. cbn [length]. lia. Qed.
Lemma pop_length c : (length (ch_queue (pop c)) <= length (ch_queue c))%nat.
Proof. unfold pop. simpl. destruct (ch_queue c); simpl; lia. Qed.

Lemma lockable_spec b t th : lockable b = true → b_threads b !! t = Some th → reading th = false.
Proof. intros H%bool_decide_eq_true Ht. exact (H t th Ht). Qed.

Lemma addressed_subs to b id : id ∈ addressed to b → is_Some (b_subs b !! id).
Proof.
  destruct to as [u|]; simpl; intros [x Hx]%elem_of_dom; [|by exists x].
  apply map_lookup_filter_Some in Hx as [Hx _]. by exists x.
Qed.

Lemma run_thread_ok t b b' : bus_ok b → run_thread t b = To b' → bus_ok b'.
Proof.
  intros Hok. unfold run_thread. destruct (b_threads b !! t) as [th|] eqn:Et; [|done].
  destruct th as [ev [|id todo]|ev id todo|ev id todo|id].
  - intros [= <-]. by apply end_thread_ok.
  - pose proof (λ i, ok_targets _ Hok _ _ i Et) as Ht. simpl in Ht.
    destruct (b_chans b !! id) as [c|] eqn:Ec; [|done]. destruct (ch_closed c) eqn:Ecl; [done|].
    destruct (full c) eqn:Ef; intros [= <-].
    + by apply set_thread_ok.
    + apply set_thread_ok; [|done|intros i Hi; apply Ht; by right].
      eapply set_chan_ok; [done|exact Ec|done|by apply not_full_push].
  - pose proof (λ i, ok_targets _ Hok _ _ i Et) as Ht.
    destruct (b_chans b !! id) as [c|] eqn:Ec; [|done]. destruct (_ && _); [done|]. intros [= <-].
    apply set_thread_ok; [|done|exact Ht]. eapply set_chan_ok; [done|exact Ec|done|].
    etrans; [apply pop_length|]. by eapply ok_length.
  - pose proof (λ i, ok_targets _ Hok _ _ i Et) as Ht. simpl in Ht.
    destruct (b_chans b !! id) as [c|] eqn:Ec; [|done]. destruct (ch_closed c) eqn:Ecl; [done|].
    destruct (full c) eqn:Ef; [done|]. intros [= <-].
    apply set_thread_ok; [|done|intros i Hi; apply Ht; by right].
    eapply set_chan_ok; [done|exact Ec|done|by apply not_full_push].
  - destruct (ok_closing _ Hok _ _ Et) as (Hn & _ & Hu).
    destruct (b_chans b !! id) as [c|] eqn:Ec; [|done]. destruct (ch_closed c) eqn:Ecl; [done|]. intros [= <-].
    destruct Hok as [H1 H2 H3 H4 H5]. constructor; simpl.
    + intros i Hi. destruct (H1 i Hi) as (ci & Hci & Ho). exists ci. split; [|done].
      rewrite lookup_insert_ne; [done|]. intros <-. by rewrite Hn in Hi; destruct Hi.
    + intros t' th' i [_ Hl]%lookup_delete_Some. by eapply H2.
    + intros t' i [Hne Hl]%lookup_delete_Some. destruct (H3 _ _ Hl) as (? & (ci & Hci & Ho) & Hu').
      split; [done|]. split.
      * exists ci. split; [|done]. rewrite lookup_insert_ne; [done|]. intros <-. apply Hne. symmetry. by apply Hu.
      * intros t2 [_ Hl2]%lookup_delete_Some. by apply Hu'.
    + intros i [ci [[<- _]|[_ Hi]]%lookup_insert_Some]; apply H4; eauto.
    + intros i ci [[<- <-]|[_ Hi]]%lookup_insert_Some; [simpl|]; by eapply H5.
Qed.

Lemma exec_label_ok l b b' : bus_ok b → exec_label l b = To b' → bus_ok b'.
Proof.
  intros Hok. destruct l as [t to ev order|t|u|t id|id]; simpl.
  - destruct (bool_decide (list_to_set order = _)) eqn:Eo; rewrite ?andb_false_r; [|done].
    destruct (_ && _ && _); [|done]. intros [= <-]. apply bool_decide_eq_true in Eo.
    apply set_thread_ok; [done|done|]. intros id Hid. simpl in Hid. apply (addressed_subs to).
    rewrite <-Eo. by apply elem_of_list_to_set.
  - by apply run_thread_ok.
  - destruct (lockable b) eqn:El; simpl; [|done]. destruct (_ <? _)%Z; [|done]. intros [= <-].
    destruct Hok as [H1 H2 H3 H4 H5]. set (n := (b_nextID b + 1)%Z).
    assert (∀ i, is_Some (b_chans b !! i) → i ≠ n) as Hfresh by (intros i Hi ->; specialize (H4 _ Hi); unfold n in H4; lia).
    assert (∀ i, (∃ c, b_chans b !! i = Some c ∧ ch_closed c = false) →
              ∃ c, <[n := mkChannel [] false]> (b_chans b) !! i = Some c ∧ ch_closed c = false) as Hopen.
    { intros i (ci & Hi & Ho). exists ci. split; [|done]. rewrite lookup_insert_ne; [done|]. intros E. apply (Hfresh i); [by exists ci|by symmetry]. }
    constructor; simpl.
    + intros i [x [[<- _]|[_ Hi]]%lookup_insert_Some]; [exists (mkChannel [] false); by rewrite lookup_insert_eq|].
      apply Hopen, H1. eauto.
    + intros t th i Ht Hi. pose proof (lockable_spec _ _ _ El Ht). destruct th; try done. by apply elem_of_nil in Hi.
    + intros t i Ht. destruct (H3 _ _ Ht) as (Hn & Ho & Hu). split; [|auto].
      rewrite lookup_insert_ne; [done|]. intros <-. destruct Ho as (ci & Hci & _). apply (Hfresh n); [by exists ci|done].
    + intros i [ci [[<- _]|[_ Hi]]%lookup_insert_Some]; [lia|]. specialize (H4 i (ex_intro _ _ Hi)). unfold n. lia.
    + intros i ci [[<- <-]|[_ Hi]]%lookup_insert_Some; [simpl; unfold subscriberBufferSize; lia|by eapply H5].
  - destruct (lockable b) eqn:El; simpl; [|done]. destruct (bool_decide (_ = None)) eqn:En; simpl; [|done].
    destruct (bool_decide (is_Some _)) eqn:Es; [|done]. intros [= <-].
    apply bool_decide_eq_true in En, Es. destruct Hok as [H1 H2 H3 H4 H5]. constructor; simpl.
    + intros i [x [_ Hi]%lookup_delete_Some]. apply H1. eauto.
    + intros t' th i [[_ <-]|[_ Ht]]%lookup_insert_Some Hi; [by apply elem_of_nil in Hi|].
      pose proof (lockable_spec _ _ _ El Ht). destruct th; try done. by apply elem_of_nil in Hi.
    + intros t' i [[<- [= <-]]|[Hne Ht]]%lookup_insert_Some.
      * split; [apply lookup_delete_eq|]. split; [by apply H1|].
        intros t2 [[<- _]|[_ Ht2]]%lookup_insert_Some; [done|]. destruct (H3 _ _ Ht2) as (Hn & _). rewrite Hn in Es. by destruct Es.
      * destruct (H3 _ _ Ht) as (Hn & Ho & Hu). split; [by apply lookup_delete_None; right|]. split; [done|].
        intros t2 [[<- [= <-]]|[_ Ht2]]%lookup_insert_Some; [|by apply Hu]. rewrite Hn in Es. by destruct Es.
    + exact H4.
    + exact H5.
  - destruct (b_chans b !! id) as [c|] eqn:Ec; [|done]. case_bool_decide; [done|]. intros [= <-].
    eapply set_chan_ok; [done|exact Ec|done|]. etrans; [apply pop_length|]. by eapply ok_length.
Qed.

Lemma bus_reachable_ok b : bus_reachable b → bus_ok b.
Proof. induction 1 as [|l b b' _ IH H]; [apply NewBus_ok|by eapply exec_label_ok]. Qed.

(** ** Properties *)

(** C10. Whatever threads publish, subscribe, unsubscribe and receive, and in
    whatever order their operations interleave, no thread ever sends on a
    closed channel or closes one twice, and no subscriber holds more than 64
    unread events. *)
Theorem bus_never_panics (b : MemoryBus) (l : Label) :
  bus_reachable b → exec_label l b ≠ Panics ∧
  ∀ id c, b_chans b !! id = Some c → (length (ch_queue c) <= subscriberBufferSize)%nat.
Proof.
  intros Hb%bus_reachable_ok. split; [|by apply ok_length].
  assert (∀ t th id todo c, b_threads b !! t = Some th → targets th = id :: todo → b_chans b !! id = Some c → ch_closed c = false) as Hopen.
  { intros t th id todo c Ht Hth Hc. destruct (ok_open _ Hb id) as (c' & Hc' & Ho).
    - eapply ok_targets; [done|exact Ht|]. rewrite Hth. by left.
    - congruence. }
  destruct l as [t to ev order|t|u|t id|id]; simpl; try (by repeat case_match).
  unfold run_thread. destruct (b_threads b !! t) as [[ev [|id todo]|ev id todo|ev id todo|id]|] eqn:Et; try done.
  - destruct (b_chans b !! id) as [c|] eqn:Ec; [|done]. rewrite (Hopen t _ id todo c Et eq_refl Ec). by destruct (full c).
  - destruct (b_chans b !! id) as [c|]; [|done]. by destruct (_ && _).
  - destruct (b_chans b !! id) as [c|] eqn:Ec; [|done]. rewrite (Hopen t _ id todo c Et eq_refl Ec). by destruct (full c).
  - destruct (ok_closing _ Hb _ _ Et) as (_ & (c & -> & ->) & _). done.
Qed.

Lemma bus_never_panics_witness :
  bus_reachable NewBus ∧ exec_label (LRun 0) NewBus ≠ Panics.
Proof. split; [exact bus_start|]. apply (bus_never_panics NewBus (LRun 0) bus_start). Defined.

(** [busSend] when no other thread touches the channel meanwhile. *)
Definition busSend (ev : NotificationEvent) (c : Channel) : Channel := if full c then push ev (pop c) else push ev c.

Definition runs (t : nat) (b b' : MemoryBus) : Prop := run_thread t b = To b'.

Lemma full_pop c : (length (ch_queue c) <= subscriberBufferSize)%nat → full (pop c) = false.
Proof.
  intros H. unfold full, pop, subscriberBufferSize in *. apply Nat.leb_gt. cbn [ch_queue]. destruct (ch_queue c); cbn [tail length] in *; lia.
Qed.

(** Serving one subscriber. *)
Lemma serve_one t ev id todo c b :
  b_threads b !! t = Some (Publishing ev (id :: todo)) → b_chans b !! id = Some c → ch_closed c = false →
  (length (ch_queue c) <= subscriberBufferSize)%nat →
  ∃ b', rtc (runs t) b b' ∧ b_subs b' = b_subs b ∧ b_threads b' = <[t := Publishing ev todo]> (b_threads b) ∧
        b_chans b' = <[id := busSend ev c]> (b_chans b).
Proof.
  intros Ht Hc Ho Hl. unfold busSend. destruct (full c) eqn:Ef.
  - assert (bool_decide (ch_queue c = []) = false) as Hne.
    { apply bool_decide_eq_false. intros E. unfold full in Ef. by rewrite E in Ef. }
    eexists. split; [|split; [|split]].
    + eapply rtc_l; [unfold runs, run_thread; rewrite Ht, Hc, Ho, Ef; reflexivity|].
      eapply rtc_l; [unfold runs, run_thread; simpl; rewrite lookup_insert_eq, Hc, Hne; reflexivity|].
      eapply rtc_l; [unfold runs, run_thread; simpl; rewrite lookup_insert_eq, lookup_insert_eq; simpl; rewrite Ho, full_pop by done; reflexivity|].
      apply rtc_refl.
    + done.
    + simpl. by rewrite !insert_insert_eq.
    + simpl. by rewrite !insert_insert_eq.
  - eexists. split; [|split; [|split]].
    + eapply rtc_l; [unfold runs, run_thread; rewrite Ht, Hc, Ho, Ef; reflexivity|]. apply rtc_refl.
    + done.
    + done.
    + done.
Qed.

Lemma serve_all t ev todo b :
  NoDup todo → b_threads b !! t = Some (Publishing ev todo) →
  (∀ id, id ∈ todo → ∃ c, b_chans b !! id = Some c ∧ ch_closed c = false ∧ (length (ch_queue c) <= subscriberBufferSize)%nat) →
  ∃ b', rtc (runs t) b b' ∧ b_subs b' = b_subs b ∧ b_threads b' = delete t (b_threads b) ∧
        ∀ id, b_chans b' !! id = if bool_decide (id ∈ todo) then busSend ev <$> b_chans b !! id else b_chans b !! id.
Proof.
  revert b. induction todo as [|id todo IH]; intros b Hnd Ht Hc.
  - eexists. split; [|split; [|split]].
    + eapply rtc_l; [unfold runs, run_thread; rewrite Ht; reflexivity|]. apply rtc_refl.
    + done.
    + done.
    + intros id. rewrite bool_decide_eq_false_2 by apply not_elem_of_nil. done.
  - apply NoDup_cons in Hnd as [Hni Hnd]. destruct (Hc id) as (c & Hid & Ho & Hl); [by left|].
    destruct (serve_one t ev id todo c b Ht Hid Ho Hl) as (b1 & H1 & Hs1 & Ht1 & Hc1).
    destruct (IH b1 Hnd) as (b2 & H2 & Hs2 & Ht2 & Hc2).
    + rewrite Ht1. apply lookup_insert_eq.
    + intros i Hi. rewrite Hc1, lookup_insert_ne; [apply Hc; by right|]. by intros ->.
    + exists b2. split; [by etrans|]. split; [congruence|]. split.
      * rewrite Ht2, Ht1. apply map_eq. intros i. destruct (decide (i = t)) as [->|?]; rewrite ?lookup_delete_eq; [done|].
        rewrite !lookup_delete_ne, lookup_insert_ne; done.
      * intros i. rewrite Hc2, Hc1. destruct (decide (i = id)) as [->|Hne].
        -- rewrite (bool_decide_eq_false_2 (id ∈ todo)) by done. rewrite bool_decide_eq_true_2 by left.
           by rewrite lookup_insert_eq, Hid.
        -- rewrite lookup_insert_ne by done. rewrite (bool_decide_ext (i ∈ id :: todo) (i ∈ todo)); [done|].
           rewrite elem_of_cons. tauto.
Qed.

(** C11. Publishing, while no other thread touches the bus, runs to its end
    without waiting and hands the event to exactly the subscribers it is
    addressed to, all of them or those of one user: each gets it at the end of
    its queue, at the price of its oldest unread event when 64 are waiting. *)
Theorem publish_delivers (b b1 : MemoryBus) (t : nat) (to : option string) (ev : NotificationEvent) (order : list Z) :
  bus_reachable b → exec_label (LPublish t to ev order) b = To b1 →
  ∃ b2, rtc (runs t) b1 b2 ∧ b_subs b2 = b_subs b ∧ b_threads b2 = b_threads b ∧
    ∀ id, b_chans b2 !! id = if bool_decide (id ∈ addressed to b) then busSend ev <$> b_chans b !! id else b_chans b !! id.
Proof.
  intros Hb%bus_reachable_ok. simpl. destruct (bool_decide (_ = None)) eqn:En; simpl; [|done].
  destruct (negb _); simpl; [|done]. destruct (bool_decide (NoDup _)) eqn:Ed; simpl; [|done].
  destruct (bool_decide (list_to_set order = _)) eqn:Eo; [|done]. intros [= <-].
  apply bool_decide_eq_true in En, Ed, Eo.
  destruct (serve_all t ev order (set_thread t (Some (Publishing ev order)) b)) as (b2 & H & Hs & Ht & Hc); [done|apply lookup_insert_eq| |].
  - intros id Hid. destruct (ok_open _ Hb id) as (c & Hc & Ho); [|exists c; eauto using ok_length].
    apply (addressed_subs to). rewrite <-Eo. by apply elem_of_list_to_set.
  - exists b2. split; [done|]. split; [done|]. split; [rewrite Ht; simpl; by apply delete_insert_id|].
    intros id. rewrite Hc. rewrite (bool_decide_ext (id ∈ order) (id ∈ addressed to b)); [done|].
    rewrite <-Eo. by rewrite elem_of_list_to_set.
Qed.

Fixpoint run_labels (ls : list Label) (b : MemoryBus) : option MemoryBus :=
  match ls with
  | [] => Some b
  | l :: ls' => match exec_label l b with To b' => run_labels ls' b' | _ => None end
  end.
Lemma run_labels_reachable ls b b' : bus_reachable b → run_labels ls b = Some b' → bus_reachable b'.
Proof.
  revert b. induction ls as [|l ls IH]; intros b Hb; simpl; [by intros [= <-]|].
  destruct (exec_label l b) as [| |b1] eqn:E; try done. apply IH. by eapply bus_step.
Qed.

Definition some_event : NotificationEvent := KeepAlive 0%Z.
Definition publish_once (t : nat) : list Label := [LPublish t None some_event [1%Z]; LRun t; LRun t].

Lemma publish_delivers_witness :
  ∃ b b1, bus_reachable b ∧ exec_label (LPublish 0 (Some "alice") some_event [1%Z]) b = To b1 ∧
    ∃ b2, rtc (runs 0) b1 b2 ∧ b_subs b2 = b_subs b ∧ b_threads b2 = b_threads b ∧
      ∀ id, b_chans b2 !! id = if bool_decide (id ∈ addressed (Some "alice") b) then busSend some_event <$> b_chans b !! id else b_chans b !! id.
Proof.
  destruct (run_labels [LSubscribe "alice"; LSubscribe "bob"] NewBus) as [b|] eqn:E; [|vm_compute in E; discriminate].
  exists b. assert (bus_reachable b) as Hb by (eapply run_labels_reachable; [exact bus_start|exact E]).
  destruct (exec_label (LPublish 0 (Some "alice") some_event [1%Z]) b) as [| |b1] eqn:E1.
  - exfalso. vm_compute in E. injection E as <-. vm_compute in E1. discriminate.
  - exfalso. vm_compute in E. injection E as <-. vm_compute in E1. discriminate.
  - exists b1. split; [exact Hb|]. split; [reflexivity|]. exact (publish_delivers b b1 0 _ _ _ Hb E1).
Defined.

(** Thread 1 finds the full channel and takes an event out; before it sends,
    thread 2 publishes into the free slot. *)
Definition overtaken : list Label :=
  LSubscribe "slow" :: concat (repeat (publish_once 1) 64) ++
  [LPublish 1 None some_event [1%Z]; LRun 1; LRun 1] ++ publish_once 2.

(** [busSend] can wait for a slow subscriber: a state is reachable in
    which a publisher waits for a slot, no other thread is at work, and as the
    publisher holds the read lock nobody can subscribe or unsubscribe until the
    subscriber reads. *)
Theorem publisher_can_block :
  ∃ b ev, bus_reachable b ∧ b_threads b = {[1%nat := Sending ev 1%Z []]} ∧
    (∀ t, run_thread t b = Blocked) ∧
    (∀ u, exec_label (LSubscribe u) b = Blocked) ∧ (∀ t id, exec_label (LCleanup t id) b = Blocked).
Proof.
  assert (∃ b, run_labels overtaken NewBus = Some b ∧ b_threads b = {[1%nat := Sending some_event 1%Z []]} ∧
            (∃ c, b_chans b !! 1%Z = Some c ∧ ch_closed c = false ∧ full c = true)) as (b & E & Ht & c & Hc & Ho & Hf).
  { eexists. split; [vm_compute; reflexivity|]. split; [reflexivity|]. eexists. split; [vm_compute; reflexivity|]. split; reflexivity. }
  assert (lockable b = false) as Hl.
  { apply bool_decide_eq_false. intros H. specialize (H 1%nat). rewrite Ht in H. specialize (H _ (lookup_singleton_eq _ _)). discriminate. }
  exists b, some_event. split; [eapply run_labels_reachable; [exact bus_start|exact E]|]. split; [exact Ht|]. split; [|split].
  - intros t. unfold run_thread. rewrite Ht. destruct (decide (t = 1%nat)) as [->|Hne].
    + by rewrite lookup_singleton_eq, Hc, Ho, Hf.
    + by rewrite lookup_singleton_ne.
  - intros u. simpl. by rewrite Hl.
  - intros t id. simpl. by rewrite Hl.
Qed.
