(* ===== verification/NotificationService.v ===== *)
(** * Who receives a notification

    [src/adapter/rpc/notification_service.go]: the scope of an event, the
    decision whether a subscriber may have it, with its cache, and the stream
    of one subscriber as a sequence of decisions in a changing world. *)

From S2P Require Import Prelude Entity Json Models Queries Ports PermissionUsecase Repositories Headless Resources.
From S2P Require Import PermissionDecisions PermissionSafety PermissionTheorems Notification.
From stdpp Require Import base gmap strings list.
From Stdlib Require Import ZArith Lia.

Implicit Types (w : World) (ctx : Ctx).

Definition keepAliveInterval : Z := (30 * time_Second)%Z.
Definition notificationPermCacheTTL : Z := (30 * time_Second)%Z.

Record notificationPermCacheEntry : Type := mkCacheEntry { ce_allowed : bool; ce_expiresAt : Instant }.
Abbreviation PermCache := (gmap string notificationPermCacheEntry).

Definition notificationEventScope (ev : NotificationEvent) : string * list string * bool :=
  match ev_Payload ev with
  | HostUpdatedEvent host_id => (host_id, [PermKey_HostRead; PermKey_HostWrite], true)
  | SessionUpdatedEvent _ host_id | SessionUserChangedEvent _ host_id _ _ | SessionLifecycleEvent _ host_id _ =>
      (host_id, [PermKey_SessionRead; PermKey_SessionWrite], true)
  | KeepAliveEvent | HostListChangedEvent | JobCompletedEvent _ _ _ => (EmptyString, [], false)
  | UnknownEvent => (EmptyString, [], true)
  end.

Definition NUL : string := String (Ascii.ascii_of_nat 0) EmptyString.
Definition cacheKey (hostID : string) (permKeys : list string) : string := hostID +:+ NUL +:+ default EmptyString (head permKeys).

(** the entry of the cache, while it has not expired *)
Definition live (now : Instant) (o : option notificationPermCacheEntry) : option notificationPermCacheEntry :=
  match o with Some e => if (now <? ce_expiresAt e)%Z then Some e else None | None => None end.

(** What the [select] of the stream's loop picked. *)
Inductive Selected : Type := CtxDone | TickerFired | EventArrived (ev : NotificationEvent) | ChannelClosed.

Section NotificationService.
Context {GR : GroupRepository} {MR : GroupMemberRepository}.

Definition canReceiveEvent (userID : string) (ev : NotificationEvent) (cache : PermCache) : Go (bool * PermCache) :=
  let '(hostID, permKeys, gated) := notificationEventScope ev in
  if negb gated then ret (true, cache)
  else if bool_decide (hostID = EmptyString) then ret (false, cache)
  else
    let key := cacheKey hostID permKeys in
    let* now := gets w_now in
    match live now (cache !! key) with
    | Some e => ret (ce_allowed e, cache)
    | None =>
        let* r := attempt (HostRepo_GetGroupID hostID) in
        match r with
        | Fail _ => ret (false, cache)
        | Ok groupID =>
            let* r := attempt (CanReadGroupAny userID groupID permKeys) in
            match r with
            | Fail _ => ret (false, cache)
            | Ok allowed =>
                let* now := gets w_now in
                ret (allowed, <[key := mkCacheEntry allowed (now + notificationPermCacheTTL)%Z]> cache)
            end
        end
    end.

(** One round of the loop of [SubscribeNotifications]: what is sent, and the
    cache it goes on with; [None] ends the stream.  Failing sends are not
    modelled. *)
Definition SubscribeNotifications_round (userID : string) (sel : Selected) (cache : PermCache)
  : Go (option NotificationEvent * option PermCache) :=
  match sel with
  | CtxDone | ChannelClosed => ret (None, None)
  | TickerFired => let* now := gets w_now in ret (Some (KeepAlive now), Some cache)
  | EventArrived ev =>
      let* r := canReceiveEvent userID ev cache in
      ret (if fst r : bool then Some ev else None, Some (snd r))
  end.
End NotificationService.

(** ** The decision *)

Definition may_receive (d : DB) (u hostID : string) (permKeys : list string) : bool :=
  match host_group hostID d with Ok g => existsb (can_read d u g) permKeys | Fail _ => false end.

Lemma attempt_reads_run {A} (m : Go A) f w r w' : reads m f → attempt m w = (Ok r, w') →
  only_faults w w' ∧ (r = f (w_now w) (w_db w) ∨ ∃ e, r = Fail e).
Proof.
  intros Hm. unfold attempt. destruct (Hm w) as [Hof Hr]. destruct (m w) as [r1 w1]. simpl in *. intros [= -> ->].
  split; [done|]. destruct Hr as [?|(_ & e & -> & _)]; eauto.
Qed.

(** What one decision does: it uses a live entry, or decides now and
    remembers it for the TTL; a failure refuses this event and is forgotten. *)
Lemma canReceiveEvent_inv u ev cache w b cache' w' host keys :
  notificationEventScope ev = (host, keys, true) → canReceiveEvent u ev cache w = (Ok (b, cache'), w') →
  (∃ e, live (w_now w) (cache !! cacheKey host keys) = Some e ∧ b = ce_allowed e ∧ cache' = cache) ∨
  (b = false ∧ cache' = cache) ∨
  (b = may_receive (w_db w) u host keys ∧
   cache' = <[cacheKey host keys := mkCacheEntry b (w_now w + notificationPermCacheTTL)%Z]> cache).
Proof.
  intros Hs. unfold canReceiveEvent, ret. rewrite Hs. cbv zeta iota. change (negb true) with false. cbv iota.
  case_bool_decide as Hhost; [intros H; cbv beta in H; injection H as <- <- <-; auto|]. unfold bind at 1, gets at 1.
  destruct (live _ _) as [e|] eqn:El; [intros H; cbv beta in H; injection H as <- <- <-; left; eauto|].
  intros (r1 & w1 & H1 & H)%bind_inv_Ok.
  destruct (attempt_reads_run _ _ _ _ _ (HostRepo_GetGroupID_reads host) H1) as [Hof1 [Hr1|[e ->]]]; [|by cbv beta in H; injection H as <- <- <-; auto].
  destruct r1 as [g|e]; [|by cbv beta in H; injection H as <- <- <-; auto].
  apply bind_inv_Ok in H as (r2 & w2 & H2 & H).
  destruct (attempt_reads_run _ _ _ _ _ (CanReadGroupAny_reads u g keys) H2) as [Hof2 [->|[e ->]]]; [|by cbv beta in H; injection H as <- <- <-; auto].
  unfold bind, gets in H. cbv beta in H. injection H as <- <- <-. right. right. unfold may_receive.
  rewrite <-Hr1, (only_faults_db _ _ Hof1), (only_faults_now _ _ Hof2), (only_faults_now _ _ Hof1). done.
Qed.

(** ** A stream over time *)

Definition Round : Type := World * Selected * option NotificationEvent.
Definition round_at (r : Round) : World := fst (fst r).

Inductive streamed (u : string) : list Round → PermCache → Prop :=
  | streamed_start : streamed u [] ∅
  | streamed_round h cache w sel sent cache' w' :
      streamed u h cache → Forall (λ r, (w_now (round_at r) <= w_now w)%Z) h →
      SubscribeNotifications_round u sel cache w = (Ok (sent, Some cache'), w') →
      streamed u (h ++ [(w, sel, sent)]) cache'.

(** The user could read the host's group in the world of a round of [h] that
    is less than the TTL before [now]. *)
Definition recently_allowed (u : string) (h : list Round) (now : Instant) (host : string) (keys : list string) : Prop :=
  ∃ r, r ∈ h ∧ (now - notificationPermCacheTTL < w_now (round_at r) <= now)%Z ∧ may_receive (w_db (round_at r)) u host keys = true.

Lemma recently_allowed_app u h h' now host keys :
  recently_allowed u h now host keys → recently_allowed u (h ++ h') now host keys.
Proof. intros (r & Hr & ?). exists r. split; [apply elem_of_app; by left|done]. Qed.

(** ** Keys of the cache *)


(** The kinds of scope: the first key decides the list. *)
Lemma scope_keys ev host keys : notificationEventScope ev = (host, keys, true) → host ≠ EmptyString →
  keys = [PermKey_HostRead; PermKey_HostWrite] ∨ keys = [PermKey_SessionRead; PermKey_SessionWrite].
Proof. unfold notificationEventScope. destruct (ev_Payload ev); naive_solver. Qed.

Lemma cacheKey_kinds host host' :
  cacheKey host [PermKey_HostRead; PermKey_HostWrite] ≠ cacheKey host' [PermKey_SessionRead; PermKey_SessionWrite].
Proof.
  unfold cacheKey, PermKey_HostRead, PermKey_SessionRead. cbn [head default from_option id].
  change "host:read" with ("hos" +:+ "t:read"). change "session:read" with ("sessio" +:+ "n:read").
  rewrite <-!append_assoc. intros H. apply append_inj in H as [_ H]; [discriminate|reflexivity].
Qed.

Lemma cacheKey_inj ev ev' host host' keys keys' :
  notificationEventScope ev = (host, keys, true) → notificationEventScope ev' = (host', keys', true) →
  host ≠ EmptyString → host' ≠ EmptyString →
  cacheKey host keys = cacheKey host' keys' → host = host' ∧ keys = keys'.
Proof.
  intros Hs Hs' Hh Hh' E.
  destruct (scope_keys _ _ _ Hs Hh) as [-> | ->], (scope_keys _ _ _ Hs' Hh') as [-> | ->].
  - split; [by apply append_cancel_r in E|done].
  - by apply cacheKey_kinds in E.
  - symmetry in E. by apply cacheKey_kinds in E.
  - split; [by apply append_cancel_r in E|done].
Qed.

(** Every entry was decided in a round of the stream. *)
Definition cache_ok (u : string) (h : list Round) (cache : PermCache) : Prop :=
  ∀ key e, cache !! key = Some e → ∃ r ev host keys, r ∈ h ∧ notificationEventScope ev = (host, keys, true) ∧ host ≠ EmptyString ∧
    key = cacheKey host keys ∧ ce_expiresAt e = (w_now (round_at r) + notificationPermCacheTTL)%Z ∧
    ce_allowed e = may_receive (w_db (round_at r)) u host keys.

Lemma live_Some now o e : live now o = Some e → o = Some e ∧ (now < ce_expiresAt e)%Z.
Proof. destruct o as [e'|]; simpl; [|done]. destruct (Z.ltb_spec now (ce_expiresAt e')); [|done]. by intros [= ->]. Qed.

Lemma gated_host ev host keys w u cache b cache' w' :
  notificationEventScope ev = (host, keys, true) → canReceiveEvent u ev cache w = (Ok (b, cache'), w') →
  host = EmptyString → b = false ∧ cache' = cache.
Proof.
  intros Hs. unfold canReceiveEvent, ret. rewrite Hs. intros H ->. simpl in H. by injection H as <- <- _.
Qed.

Lemma ungated_event ev w u cache b cache' w' : snd (notificationEventScope ev) = false →
  canReceiveEvent u ev cache w = (Ok (b, cache'), w') → b = true ∧ cache' = cache.
Proof.
  intros Hg. unfold canReceiveEvent, ret. destruct (notificationEventScope ev) as [[host keys] gated].
  simpl in Hg. subst gated. simpl. intros H. by injection H as <- <- _.
Qed.

(** One decision keeps the cache justified, and a delivery is justified. *)
Lemma decision_ok u h cache w ev b cache' w' sent :
  cache_ok u h cache → Forall (λ r, (w_now (round_at r) <= w_now w)%Z) h →
  canReceiveEvent u ev cache w = (Ok (b, cache'), w') →
  let h' := h ++ [(w, EventArrived ev, sent)] in
  cache_ok u h' cache' ∧
  ∀ host keys, notificationEventScope ev = (host, keys, true) → b = true → recently_allowed u h' (w_now w) host keys.
Proof.
  intros Hc Ht H h'.
  assert (cache_ok u h' cache) as Hc'.
  { intros key e He. destruct (Hc key e He) as (r & ev' & host & keys & Hr & ?). exists r, ev', host, keys.
    split; [apply elem_of_app; by left|done]. }
  assert ((w, EventArrived ev, sent) ∈ h') as Hin by (apply elem_of_app; right; by left).
  destruct (notificationEventScope ev) as [[host keys] [|]] eqn:Hs.
  2: { destruct (ungated_event ev w u cache b cache' w') as [_ ->]; [by rewrite Hs|done|]. split; [done|]. intros ? ? [=]. }
  destruct (decide (host = EmptyString)) as [Hh|Hh].
  { destruct (gated_host _ _ _ _ _ _ _ _ _ Hs H Hh) as [-> ->]. split; [done|]. intros ? ? _ [=]. }
  destruct (canReceiveEvent_inv _ _ _ _ _ _ _ _ _ Hs H) as [(e & He & -> & ->)|[[-> ->]|[Hb ->]]].
  - split; [done|]. intros ? ? [= <- <-] Ha. apply live_Some in He as [He Hlt].
    destruct (Hc _ _ He) as (r & ev' & host' & keys' & Hr & Hs' & Hh' & Hk & Hexp & Hal).
    destruct (cacheKey_inj _ _ _ _ _ _ Hs Hs' Hh Hh' Hk) as [<- <-]. exists r.
    split; [apply elem_of_app; by left|]. rewrite Forall_forall in Ht. specialize (Ht r Hr). cbv beta in Ht. rewrite Hexp in Hlt. split; [lia|congruence].
  - split; [done|]. intros ? ? _ [=].
  - split.
    + intros key e [[<- <-]|[_ He]]%lookup_insert_Some; [|by apply Hc'].
      exists (w, EventArrived ev, sent), ev, host, keys. simpl. auto 6.
    + intros ? ? [= <- <-] Ha. exists (w, EventArrived ev, sent). split; [done|].
      change (round_at (w, EventArrived ev, sent)) with w. unfold notificationPermCacheTTL, time_Second. split; [lia|congruence].
Qed.

(** C12. A subscriber receives an event about a host, or about a session on a
    host, only if at some moment of the last 30 seconds he was allowed to read
    hosts (sessions) of that host's group, whatever failed in between: a
    revocation reaches every stream within 30 seconds.  What he receives is
    the event as it was published. *)
Theorem stream_respects_permissions (u : string) (h : list Round) (cache : PermCache) (w : World) (ev ev' : NotificationEvent)
    (host : string) (keys : list string) :
  streamed u h cache → (w, EventArrived ev, Some ev') ∈ h → notificationEventScope ev = (host, keys, true) →
  ev' = ev ∧ recently_allowed u h (w_now w) host keys.
Proof.
  intros Hs Hin Hsc.
  assert (cache_ok u h cache ∧ ∀ w ev ev' host keys, (w, EventArrived ev, Some ev') ∈ h → notificationEventScope ev = (host, keys, true) →
            ev' = ev ∧ recently_allowed u h (w_now w) host keys) as [_ Hall]; [|by apply Hall with (1 := Hin)].
  clear w ev ev' host keys Hin Hsc.
  induction Hs as [|h cache w sel sent cache' w' _ [IHc IH] Ht Hr].
  { split; [by intros key e He%lookup_empty_Some|]. intros * Hin. by apply elem_of_nil in Hin. }
  assert (cache_ok u (h ++ [(w, sel, sent)]) cache' ∧
          ∀ ev ev' host keys, sel = EventArrived ev → sent = Some ev' → notificationEventScope ev = (host, keys, true) →
            ev' = ev ∧ recently_allowed u (h ++ [(w, sel, sent)]) (w_now w) host keys) as [Hc Hnew].
  { destruct sel as [| |ev|]; simpl in Hr.
    - by unfold ret in Hr.
    - unfold bind, gets, ret in Hr. injection Hr as <- <- _. split; [|by intros ? ? ? ? [=]].
      intros key e He. destruct (IHc key e He) as (r & ev' & host & keys & Hin & ?). exists r, ev', host, keys.
      split; [apply elem_of_app; by left|done].
    - apply bind_inv_Ok in Hr as ([b c] & w1 & H & Hr). unfold ret in Hr. injection Hr as <- <- _.
      destruct (decision_ok u h cache w ev b c w1 (if b then Some ev else None) IHc Ht H) as [Hc Hd]. split; [done|].
      intros ev0 ev' host keys [= <-] Hb Hsc. destruct b; [|done]. injection Hb as <-. split; [done|]. by apply Hd.
    - by unfold ret in Hr. }
  split; [done|]. intros w0 ev ev' host keys [Hin|Hin]%elem_of_app Hsc.
  - destruct (IH _ _ _ _ _ Hin Hsc) as [? ?]. split; [done|]. by apply recently_allowed_app.
  - apply list_elem_of_singleton in Hin. injection Hin as -> <- <-. by apply Hnew.
Qed.

Definition alice_host : HostRow :=
  mkHostRow "h1" "host" 2 "U-a" (Some "alice") (JObj []) 1 "docker" "c1" (Some 0%Z) None 0 (Some 0%Z) (Some 0%Z) 1 "alice-personal".
Definition hosted_world : World := with_db (set_hosts (<["h1" := alice_host]>) (w_db alice_world)) alice_world.
Definition host_event : NotificationEvent := HostUpdated 0%Z "h1" "e1" None.

Definition goes_on (r : Result (option NotificationEvent * option PermCache)) : bool :=
  match r with Ok (Some _, Some _) => true | _ => false end.

Lemma stream_respects_permissions_witness :
  ∃ cache ev', let h := [] ++ [(hosted_world, EventArrived host_event, Some ev')] in
    streamed "alice" h cache ∧ ev' = host_event ∧
    recently_allowed "alice" h (w_now hosted_world) "h1" [PermKey_HostRead; PermKey_HostWrite].
Proof.
  assert (goes_on (SubscribeNotifications_round "alice" (EventArrived host_event) ∅ hosted_world).1 = true) as Hg
    by (vm_compute; reflexivity).
  destruct (SubscribeNotifications_round "alice" (EventArrived host_event) ∅ hosted_world) as [[[[ev'|] [cache|]]|] w'] eqn:E;
    [|discriminate Hg|discriminate Hg|discriminate Hg|discriminate Hg].
  exists cache, ev'. cbv zeta.
  assert (streamed "alice" ([] ++ [(hosted_world, EventArrived host_event, Some ev')]) cache) as Hs
    by (eapply streamed_round; [apply streamed_start|constructor|exact E]).
  split; [exact Hs|].
  refine (stream_respects_permissions _ _ _ hosted_world host_event ev' "h1" _ Hs _ eq_refl). by left.
Defined.
