(* ===== verification/Claims.v ===== *)
(** * Claiming work from a table

    What the statements of [src/db/async_jobs.sql.go] and
    [src/db/scheduled_session_operations.sql.go] share: choosing the first
    rows that are due (a [SELECT ... ORDER BY ... LIMIT ... FOR UPDATE SKIP
    LOCKED] below an [UPDATE ... WHERE id IN]), and updating the rows with
    given keys.  A statement is atomic, so no row is locked when it runs. *)

From S2P Require Import Prelude Entity Json Digest Models Queries.
From stdpp Require Import base gmap list sorting.
From Stdlib Require Import ZArith Lia.

Section Claims.
Context {R : Type} (due : R → bool) (key : R → Instant).
Implicit Types (t : gmap UUID R) (k : UUID) (r : R).

Definition earlier (a b : UUID * R) : bool := (key (snd a) <=? key (snd b))%Z.
Definition due_rows t : list (UUID * R) := order_by earlier (List.filter (λ kr, due (snd kr)) (map_to_list t)).
Definition chosen (limit : Z) t : list (UUID * R) := take (Z.to_nat limit) (due_rows t).

Lemma due_rows_spec t k r : (k, r) ∈ due_rows t ↔ t !! k = Some r ∧ due r = true.
Proof.
  unfold due_rows, order_by. rewrite merge_sort_Permutation, list_elem_of_In, List.filter_In, <-list_elem_of_In.
  by rewrite elem_of_map_to_list.
Qed.

Lemma chosen_spec n t k r : (k, r) ∈ chosen n t → t !! k = Some r ∧ due r = true.
Proof. intros H. apply due_rows_spec. unfold chosen in H. eapply elem_of_subseteq; [apply subseteq_take|exact H]. Qed.

Lemma due_rows_NoDup t : NoDup ((due_rows t).*1).
Proof.
  unfold due_rows, order_by. rewrite merge_sort_Permutation.
  pose proof (NoDup_fst_map_to_list t) as H. induction (map_to_list t) as [|[k r] l IH]; simpl in *; [done|].
  apply NoDup_cons in H as [Hn Hl]. specialize (IH Hl). destruct (due r); simpl; [|done]. apply NoDup_cons. split; [|done].
  intros Hin. apply Hn. apply list_elem_of_fmap in Hin as ([k' r'] & -> & Hin). apply list_elem_of_In, List.filter_In in Hin as [Hin _].
  apply list_elem_of_fmap. exists (k', r'). split; [done|]. by apply list_elem_of_In.
Qed.

Lemma chosen_NoDup n t : NoDup ((chosen n t).*1).
Proof.
  unfold chosen. pose proof (due_rows_NoDup t) as H. rewrite <-(take_drop (Z.to_nat n) (due_rows t)), fmap_app in H.
  by apply NoDup_app in H as [H _].
Qed.

Lemma chosen_length n t : (length (chosen n t) <= Z.to_nat n)%nat.
Proof. unfold chosen. rewrite length_take. lia. Qed.

#[local] Instance earlier_total : Total (before earlier).
Proof. intros a b. unfold before, earlier. rewrite !Z.leb_le. lia. Qed.
#[local] Instance earlier_trans : Transitive (before earlier).
Proof. intros a b c. unfold before, earlier. rewrite !Z.leb_le. lia. Qed.

(** What is left behind is not older than what was chosen, and nothing is
    left behind unless the limit was reached. *)
Lemma chosen_oldest n t k r k' r' :
  (k, r) ∈ chosen n t → t !! k' = Some r' → due r' = true → (k', r') ∉ chosen n t → (key r <= key r')%Z.
Proof.
  intros Hin Hk' Hd Hno. assert ((k', r') ∈ due_rows t) as Hin' by (by apply due_rows_spec).
  unfold chosen in *. rewrite <-(take_drop (Z.to_nat n) (due_rows t)) in Hin'. apply elem_of_app in Hin' as [?|Hin']; [done|].
  pose proof (StronglySorted_merge_sort (before earlier) (List.filter (λ kr, due (snd kr)) (map_to_list t))) as Hs.
  change (StronglySorted (before earlier) (due_rows t)) in Hs. rewrite <-(take_drop (Z.to_nat n) (due_rows t)) in Hs.
  eapply StronglySorted_app_1_elem_of in Hs as H; [|exact Hin|exact Hin']. by apply Z.leb_le in H.
Qed.

Lemma chosen_all n t k r : (length (chosen n t) < Z.to_nat n)%nat → t !! k = Some r → due r = true → (k, r) ∈ chosen n t.
Proof.
  intros Hl Hk Hd. assert ((k, r) ∈ due_rows t) as Hin by (by apply due_rows_spec).
  unfold chosen in *. rewrite length_take in Hl. by rewrite take_ge by lia.
Qed.

(** ** Updating rows by key *)

Definition update_rows (ids : list UUID) (f : R → R) t : gmap UUID R :=
  map_imap (λ k r, Some (if bool_decide (k ∈ ids) then f r else r)) t.

Lemma lookup_update_rows ids f t k :
  update_rows ids f t !! k = (λ r, if bool_decide (k ∈ ids) then f r else r) <$> t !! k.
Proof. unfold update_rows. rewrite map_lookup_imap. by destruct (t !! k). Qed.

(** The rows that satisfy [p], updated, and how many there are. *)
Definition update_where (p : R → bool) (f : R → R) t : gmap UUID R := (λ r, if p r then f r else r) <$> t.
Definition count_where (p : R → bool) t : Z := Z.of_nat (length (List.filter (λ kr, p (snd kr)) (map_to_list t))).

(** One row by its key, if it satisfies [p]: the number of rows updated, and the table. *)
Definition update_one (k : UUID) (p : R → bool) (f : R → R) t : Z * gmap UUID R :=
  match t !! k with
  | Some r => if p r then (1%Z, <[k := f r]> t) else (0%Z, t)
  | None => (0%Z, t)
  end.

Lemma update_one_lookup k p f t k' :
  (update_one k p f t).2 !! k' = (λ r, if bool_decide (k' = k) && p r then f r else r) <$> t !! k'.
Proof.
  unfold update_one. destruct (decide (k' = k)) as [->|Hne].
  - rewrite bool_decide_eq_true_2 by done. destruct (t !! k) as [r|] eqn:E; simpl; [|by rewrite E].
    destruct (p r); simpl; [by rewrite lookup_insert_eq|by rewrite E].
  - rewrite bool_decide_eq_false_2 by done. simpl.
    destruct (t !! k) as [r|]; [destruct (p r)|]; simpl; rewrite ?lookup_insert_ne by done; by destruct (t !! k').
Qed.
End Claims.

(** ** Histories

    Statements of many actors act on one table, each atomic; whatever they do
    to it is a sequence of statements, while others change other tables. *)

Section Histories.
Context {S R : Type} (table : DB → gmap UUID R) (run : Instant → S → DB → gmap UUID R).

(** [history d trace d']: the timed statements of [trace] lead from [d] to [d']. *)
Inductive history : DB → list (Instant * S) → DB → Prop :=
  | history_nil d d' : table d' = table d → history d [] d'
  | history_cons d now s d1 trace d' :
      table d1 = run now s d → history d1 trace d' → history d ((now, s) :: trace) d'.

(** A history is cut at any of its statements. *)
Lemma history_split d t1 now s t2 d' :
  history d (t1 ++ (now, s) :: t2) d' → ∃ d0 d1, history d t1 d0 ∧ table d1 = run now s d0 ∧ history d1 t2 d'.
Proof.
  revert d. induction t1 as [|[now1 s1] t1 IH]; intros d H; simpl in H; inversion H as [|? ? ? d1 ? ? E H']; subst.
  - exists d, d1. split; [by apply history_nil|done].
  - destruct (IH d1 H') as (d2 & d3 & H1 & H2 & H3). exists d2, d3. split; [by eapply history_cons|done].
Qed.

(** What every statement does to a row, the history does. *)
Lemma history_row (P : R → R → Prop) d trace d' k r :
  (∀ r, P r r) → (∀ r1 r2 r3, P r1 r2 → P r2 r3 → P r1 r3) →
  (∀ now s d k r, table d !! k = Some r → ∃ r', run now s d !! k = Some r' ∧ P r r') →
  history d trace d' → table d !! k = Some r → ∃ r', table d' !! k = Some r' ∧ P r r'.
Proof.
  intros Hrefl Htrans Hrun H. revert r. induction H as [d d' E|d now s d1 trace d' E _ IH]; intros r Hk.
  - exists r. by rewrite E.
  - destruct (Hrun now s d k r Hk) as (r1 & H1 & HP). rewrite <-E in H1. destruct (IH r1 H1) as (r' & ? & ?). exists r'. eauto.
Qed.

(** What every statement keeps of the table, the history keeps. *)
Lemma history_keeps (P : gmap UUID R → Prop) d trace d' :
  (∀ now s d, P (table d) → P (run now s d)) → history d trace d' → P (table d) → P (table d').
Proof. intros Hrun. induction 1 as [d d' E|d now s d1 trace d' E _ IH]; [by rewrite E|]. intros H. apply IH. rewrite E. by apply Hrun. Qed.

(** A row that none of the statements touches. *)
Lemma history_untouched (Q : Instant * S → Prop) d trace d' k r :
  (∀ now s d, Q (now, s) → table d !! k = Some r → run now s d !! k = Some r) →
  history d trace d' → Forall Q trace → table d !! k = Some r → table d' !! k = Some r.
Proof.
  intros Hrun. induction 1 as [d d' E|d now s d1 trace d' E _ IH]; intros Hf Hk; [by rewrite E|].
  apply Forall_cons in Hf as [Hq Hf]. apply IH; [done|]. rewrite E. by apply Hrun.
Qed.
End Histories.

(** ** What other code leaves alone *)

(** A computation that does not touch a table, and does not break a database
    that works. *)
Definition leaves {T} (table : DB → T) (w w' : World) : Prop :=
  table (w_db w') = table (w_db w) ∧ (w_faults w = [] → w_faults w' = []).

#[export] Instance leaves_preorder {T} (table : DB → T) : PreOrder (leaves table).
Proof. split; [done|]. intros w1 w2 w3 [H1 H2] [H3 H4]. split; [congruence|auto]. Qed.

Lemma leaves_only_faults {T} (table : DB → T) w w' : only_faults w w' → leaves table w w'.
Proof. intros H. split; [by rewrite (only_faults_db _ _ H)|]. intros Hw. by rewrite (only_faults_nil _ _ H Hw). Qed.

Lemma leaves_reads {T} (table : DB → T) {A} (m : Go A) f : reads m f → preserves (leaves table) m.
Proof. apply reads_preserves, leaves_only_faults. Qed.

Lemma leaves_exec {T} (table : DB → T) {A} (f : Instant → DB → Result (A * DB)) :
  (∀ t d a d', f t d = Ok (a, d') → table d' = table d) → preserves (leaves table) (exec f).
Proof.
  intros Hf w. split.
  - destruct (exec f w) as [r w'] eqn:E. simpl. apply exec_inv in E as [_ [(a & d & _ & Hx & ->)|(e & _ & ->)]]; [by eapply Hf|done].
  - intros Hw. rewrite exec_run by done. destruct (f _ _) as [[a d]|e]; [by destruct w|done].
Qed.

Lemma leaves_uuid {T} (table : DB → T) : preserves (leaves table) gen_random_uuid.
Proof. by intros w. Qed.

#[export] Hint Resolve leaves_uuid : preserves.
#[export] Hint Extern 5 (preserves (leaves _) _) => (eapply leaves_reads; solve [eauto with reads]) : preserves.

(** ** What one execution may do

    Whatever statements fail, the item it works on is settled at most once,
    and no other item is touched. *)

Section Settling.
Context {R : Type} (table : DB → gmap UUID R) (running : R → bool) (settles : R → R → Prop) (k : UUID).

Definition at_most_settled (w w' : World) : Prop :=
  (∀ k', k' ≠ k → table (w_db w') !! k' = table (w_db w) !! k') ∧
  (table (w_db w') !! k = table (w_db w) !! k ∨
   ∃ r r', table (w_db w) !! k = Some r ∧ running r = true ∧ table (w_db w') !! k = Some r' ∧ settles r r').

Context (Hends : ∀ r r', settles r r' → running r' = false).

#[local] Instance at_most_settled_preorder : PreOrder at_most_settled.
Proof.
  split; [by split; [|left]|]. intros w1 w2 w3 [Ho1 Hk1] [Ho2 Hk2]. split; [intros k' Hk'; by rewrite Ho2, Ho1|].
  destruct Hk2 as [E2|(r & r' & E2 & Hr & E3 & Hs)]; [rewrite E2; naive_solver|].
  destruct Hk1 as [E1|(r0 & r1 & _ & _ & E1 & Hs1)]; [right; exists r, r'; by rewrite <-E1|].
  assert (r1 = r) as -> by congruence. rewrite (Hends _ _ Hs1) in Hr. done.
Qed.

Lemma leaves_settled w w' : leaves table w w' → at_most_settled w w'.
Proof. intros [H _]. split; [|left]; by rewrite H. Qed.

Lemma leaves_at_most_settled {A} (m : Go A) : preserves (leaves table) m → preserves at_most_settled m.
Proof. intros H w. apply leaves_settled, H. Qed.

Lemma settles_exec {A} (g : Instant → R → R) (f : Instant → DB → Result (A * DB)) :
  (∀ now r, settles r (g now r)) →
  (∀ now d a d', f now d = Ok (a, d') → table d' = (update_one k running (g now) (table d)).2) → preserves at_most_settled (exec f).
Proof.
  intros Hg Hf w. destruct (exec f w) as [r w'] eqn:E. cbn [snd]. unfold at_most_settled.
  apply exec_inv in E as [_ [(a & d & _ & Hx & ->)|(e & _ & ->)]]; [|by split; [|left]].
  apply Hf in Hx. rewrite Hx. split.
  - intros k' Hk'. rewrite update_one_lookup, bool_decide_eq_false_2 by done. simpl. by destruct (_ !! k').
  - rewrite update_one_lookup, bool_decide_eq_true_2 by done. simpl. destruct (table (w_db w) !! k) as [row|] eqn:Ek; [|by left].
    simpl. destruct (running row) eqn:Er; [right|by left]. by exists row, (g (w_now w) row).
Qed.
End Settling.
