(* ===== verification/SessionUsecase.v ===== *)
(** * What the session use case calls

    The ports of [src/usecase/port] behind which containers live: the client
    of a container, the drainer of hosts, and the free ports of the machine.
    They are interfaces: each is a class, with a class of laws for what the
    program relies on.  The cache of session states is the one of
    [StateCache]. *)

From S2P Require Import Prelude Entity Json Headless StateCache Digest Models Queries Ports Repositories Resources Claims SessionRepo PermissionUsecase AuthTokens.
From stdpp Require Import base gmap strings list.
From Stdlib Require Import ZArith Lia.

(** ** The cache *)

Definition stateCache_Get (sessionID : string) : Go (option HeadlessSession) := gets (λ w, Cache_Get sessionID (w_cache w)).
Definition on_cache (f : MemoryCache → MemoryCache) : Go unit := λ w, (Ok tt, with_cache (f (w_cache w)) w).
Definition stateCache_Set (hostID sessionID : string) (snapshot : option HeadlessSession) : Go unit := on_cache (Cache_Set hostID sessionID snapshot).
Definition stateCache_Delete (sessionID : string) : Go unit := on_cache (Cache_Delete sessionID).
Definition stateCache_PruneHost (hostID : string) (live : gset string) : Go unit := on_cache (Cache_PruneHost hostID live).

(** ** Containers *)

(** [HeadlessControlServiceClient], as far as it is used; a message field of a
    response may be nil.  [GetAbout] answers the versions of Resonite and of the
    application, [GetAccountInfo] the user id and the display name, [GetStatus]
    the frame rate. *)
Class ContainerClient : Type := {
  Client : Type;
  rpc_StartWorld : Client → option WorldStartupParameters → Go (option HeadlessSession);
  rpc_StopSession : Client → string → Go unit;
  rpc_UpdateSessionParameters : Client → UpdateSessionParametersRequest → Go unit;
  rpc_GetSession : Client → string → Go (option HeadlessSession);
  rpc_ListSessions : Client → Go (list HeadlessSession);
  rpc_SaveSessionWorld : Client → string → Go string;
  rpc_SaveAsSessionWorld : Client → string → Z → Go string;
  rpc_GetAbout : Client → Go (string * string);
  rpc_GetAccountInfo : Client → Go (string * string);
  rpc_GetStatus : Client → Go Float32;
  rpc_GetStartupConfigToRestore : Client → bool → Go (option StartupConfig) }.

(** [HeadlessHostRepository.GetRpcClient] *)
Class HostClients {CC : ContainerClient} : Type := { GetRpcClient : string → Go Client }.

(** [HostDrainer.IsHostDraining] *)
Class HostDrainer : Type := { IsHostDraining : string → Go bool }.

(** [isPortAvailable], which asks the operating system. *)
Class PortProbe : Type := { isPortAvailable : Z → Go bool }.

(** Calls to the outside change neither the store nor the cache, take no time
    the program would notice, and do not break a database that works. *)
Definition abroad (w w' : World) : Prop :=
  w_db w' = w_db w ∧ w_cache w' = w_cache w ∧ w_now w' = w_now w ∧ (w_faults w = [] → w_faults w' = []).

#[export] Instance abroad_preorder : PreOrder abroad.
Proof.
  split; [done|]. intros w1 w2 w3 (H1 & H2 & H3 & H4) (G1 & G2 & G3 & G4).
  repeat split; [congruence..|auto].
Qed.

Class ClientLaws {CC : ContainerClient} : Prop := {
  StartWorld_abroad c p : preserves abroad (rpc_StartWorld c p);
  rpc_StopSession_abroad c s : preserves abroad (rpc_StopSession c s);
  rpc_UpdateSessionParameters_abroad c p : preserves abroad (rpc_UpdateSessionParameters c p);
  rpc_GetSession_abroad c s : preserves abroad (rpc_GetSession c s);
  rpc_ListSessions_abroad c : preserves abroad (rpc_ListSessions c);
  rpc_SaveSessionWorld_abroad c s : preserves abroad (rpc_SaveSessionWorld c s);
  rpc_SaveAsSessionWorld_abroad c s m : preserves abroad (rpc_SaveAsSessionWorld c s m);
  rpc_GetAbout_abroad c : preserves abroad (rpc_GetAbout c);
  rpc_GetAccountInfo_abroad c : preserves abroad (rpc_GetAccountInfo c);
  rpc_GetStatus_abroad c : preserves abroad (rpc_GetStatus c);
  rpc_GetStartupConfigToRestore_abroad c b : preserves abroad (rpc_GetStartupConfigToRestore c b) }.

Class OutsideLaws {CC : ContainerClient} {HC : HostClients} {HD : HostDrainer} {PP : PortProbe} : Prop := {
  client_laws :: ClientLaws;
  GetRpcClient_abroad h : preserves abroad (GetRpcClient h);
  IsHostDraining_abroad h : preserves abroad (IsHostDraining h);
  isPortAvailable_abroad p : preserves abroad (isPortAvailable p) }.

(** Relations between worlds that calls to the outside and reads respect. *)
Lemma preserves_weaken {A} (R R' : World → World → Prop) (m : Go A) : (∀ w w', R w w' → R' w w') → preserves R m → preserves R' m.
Proof. intros H Hm w. apply H, Hm. Qed.

Lemma abroad_leaves {T} (table : DB → T) w w' : abroad w w' → leaves table w w'.
Proof. intros (H & _ & _ & Hf). split; [by rewrite H|done]. Qed.
Lemma abroad_only_faults w w' : only_faults w w' → abroad w w'.
Proof.
  intros H. pose proof (only_faults_nil _ _ H) as Hn. destruct H as [E _]. rewrite E. repeat split. simpl. intros Hw. by rewrite (Hn Hw).
Qed.

(** ** Sessions: the use case

    [src/usecase/session_usecase.go]: starting, stopping, reading, searching,
    updating, saving and deleting sessions, the choice of a free port, and the
    tokens of the ResoniteLink socket.  Port numbers and counters stay far
    below the 64 bits of [int]; the mutex around the choice of a port changes
    nothing a single call could see. *)

Definition SaveMode_OVERWRITE : Z := 1.
Definition SaveMode_SAVE_AS : Z := 2.
Definition SaveMode_COPY : Z := 3.

(** The modes of the message [SaveAsSessionWorldRequest]. *)
Definition SAVE_AS_TYPE_SAVE_AS : Z := 1.
Definition SAVE_AS_TYPE_COPY : Z := 2.

(** The configuration the use case keeps. *)
Record SessionUsecase : Type := NewSessionUsecase {
  su_forcePortMin : Z; su_forcePortMax : Z; su_resoniteLinkTTL : Z }.

(** ** Messages, through the getters that accept nil *)

Definition of_session {A} (f : HeadlessSession → A) (o : option HeadlessSession) : A := f (default session_zero o).

(** ** Entities, with one field assigned *)

Definition with_status (status : Z) (s : Session) : Session :=
  mkSession (Session_ID s) (Session_Name s) status (Session_StartedAt s) (Session_CreatedBy s) (Session_EndedAt s) (Session_HostID s)
    (Session_StartupParameters s) (Session_AutoUpgrade s) (Session_Memo s) (Session_CurrentState s) (Session_GroupID s).
Definition with_current (x : option HeadlessSession) (s : Session) : Session :=
  mkSession (Session_ID s) (Session_Name s) (Session_Status s) (Session_StartedAt s) (Session_CreatedBy s) (Session_EndedAt s) (Session_HostID s)
    (Session_StartupParameters s) (Session_AutoUpgrade s) (Session_Memo s) x (Session_GroupID s).
Definition with_parameters (name : string) (p : option WorldStartupParameters) (s : Session) : Session :=
  mkSession (Session_ID s) name (Session_Status s) (Session_StartedAt s) (Session_CreatedBy s) (Session_EndedAt s) (Session_HostID s)
    p (Session_AutoUpgrade s) (Session_Memo s) (Session_CurrentState s) (Session_GroupID s).
Definition with_ended (t : Instant) (s : Session) : Session :=
  mkSession (Session_ID s) (Session_Name s) SessionStatus_ENDED (Session_StartedAt s) (Session_CreatedBy s) (Some t) (Session_HostID s)
    (Session_StartupParameters s) (Session_AutoUpgrade s) (Session_Memo s) (Session_CurrentState s) (Session_GroupID s).
Definition with_settings (autoUpgrade : option bool) (memo : option string) (s : Session) : Session :=
  mkSession (Session_ID s) (Session_Name s) (Session_Status s) (Session_StartedAt s) (Session_CreatedBy s) (Session_EndedAt s) (Session_HostID s)
    (Session_StartupParameters s) (default (Session_AutoUpgrade s) autoUpgrade) (default (Session_Memo s) memo) (Session_CurrentState s)
    (Session_GroupID s).

(** [updateStartupParamsByUpdateRequest]: the fields of the request that are
    set replace those of the parameters. *)
Definition updateStartupParamsByUpdateRequest (current : WorldStartupParameters) (params : UpdateSessionParametersRequest)
  : WorldStartupParameters :=
  mkWorldStartupParameters
    (match usp_Name params with Some v => Some v | None => wsp_Name current end)
    (wsp_CustomSessionId current)
    (match usp_Description params with Some v => Some v | None => wsp_Description current end)
    (if usp_UpdateTags params then usp_Tags params else wsp_Tags current)
    (match usp_MaxUsers params with Some v => Some v | None => wsp_MaxUsers current end)
    (default (wsp_AccessLevel current) (usp_AccessLevel params))
    (wsp_LoadWorld current) (wsp_AutoInviteUsernames current)
    (default (wsp_HideFromPublicListing current) (usp_HideFromPublicListing params))
    (wsp_DefaultUserRoles current)
    (default (wsp_AwayKickMinutes current) (usp_AwayKickMinutes params))
    (default (wsp_IdleRestartIntervalSeconds current) (usp_IdleRestartIntervalSeconds params))
    (default (wsp_SaveOnExit current) (usp_SaveOnExit params))
    (default (wsp_AutoSaveIntervalSeconds current) (usp_AutoSaveIntervalSeconds params))
    (default (wsp_AutoSleep current) (usp_AutoSleep params))
    (wsp_InviteRequestHandlerUsernames current) (wsp_ForcePort current) (wsp_ParentSessionIds current) (wsp_AutoRecover current)
    (wsp_ForcedRestartIntervalSeconds current) (wsp_UseCustomJoinVerifier current) (wsp_MobileFriendly current)
    (wsp_OverrideCorrespondingWorldId current) (wsp_KeepOriginalRoles current) (wsp_RoleCloudVariable current)
    (wsp_AllowUserCloudVariable current) (wsp_DenyUserCloudVariable current) (wsp_RequiredUserJoinCloudVariable current)
    (wsp_RequiredUserJoinCloudVariableDenyMessage current) (wsp_AutoInviteMessage current) (wsp_JoinAllowedUserIds current).

Section Usecase.
Context {SP : StartupParameters} {JW : JWT} {CC : ContainerClient} {HC : HostClients} {HD : HostDrainer} {PP : PortProbe}.
Context (secretKey : string) (u : SessionUsecase).

Definition IssueResoniteLinkToken (ctx : Ctx) (sessionID userID : string) : Go (string * Instant) :=
  SessionRepo_Get sessionID ;;;
  GenerateResoniteLinkToken secretKey userID sessionID (su_resoniteLinkTTL u).

(** ** A free port *)

Fixpoint probe_ports (min n offset : Z) (idx : list Z) : Go (option Z) :=
  match idx with
  | [] => ret None
  | i :: idx' =>
      let candidatePort := (min + Z.rem (offset + i) n)%Z in
      let* ok := isPortAvailable candidatePort in
      if ok : bool then ret (Some candidatePort) else probe_ports min n offset idx'
  end.

Definition getFreeSessionPort : Go Z :=
  let min := su_forcePortMin u in
  let max := su_forcePortMax u in
  if ((min =? 0) && (max =? 0))%Z then ret 0%Z
  else
    let n := (max - min + 1)%Z in
    if (n =? 0)%Z then fail (EPanic "runtime error: integer divide by zero")
    else
      let* now := gets w_now in
      let* port := probe_ports min n (Z.rem now n) (seqZ 0 n) in
      match port with
      | Some p => ret p
      | None => fail (EMsg ("no free port found in range " +:+ fmt_d min +:+ "-" +:+ fmt_d max))
      end.

(** ** Starting and stopping *)

Definition SessionUC_StartSession (ctx : Ctx) (hostId groupID : string) (userId : option string) (params : option WorldStartupParameters)
    (memo : option string) : Go Session :=
  let* draining := IsHostDraining hostId in
  if draining : bool then fail (ESent ErrHostDraining) else
  let* hostGroupID := HostRepo_GetGroupID hostId in
  if negb (bool_decide (groupID = EmptyString)) && negb (bool_decide (groupID = hostGroupID))
  then fail (EMsg "session group must equal host group") else
  RequireAllPermissionsForGroup ctx hostGroupID [PermKey_HostUse; PermKey_AccountUse; PermKey_SessionWrite] ;;;
  let* client := GetRpcClient hostId in
  let* paramsForContainer :=
    (if (wsp_ForcePort (default startup_zero params) =? 0)%Z then
       let* autoPort := getFreeSessionPort in
       if (autoPort =? 0)%Z then ret params
       else match params with
            | Some p => ret (Some (set_ForcePort (autoPort mod 2 ^ 32) p))
            | None => fail (EPanic "runtime error: invalid memory address or nil pointer dereference")
            end
     else ret params) in
  let* openedSession := rpc_StartWorld client paramsForContainer in
  let session :=
    mkSession (of_session hs_Id openedSession) (of_session hs_Name openedSession) SessionStatus_RUNNING
      (Some (default 0%Z (of_session hs_StartedAt openedSession))) userId None hostId params false (default EmptyString memo)
      openedSession hostGroupID in
  SessionRepo_Upsert session ;;;
  stateCache_Set hostId (of_session hs_Id openedSession) openedSession ;;;
  ret session.

(** the world to load next time is the last one observed *)
Definition resume_at (snapshot : option HeadlessSession) (s : Session) : Session :=
  match snapshot, Session_StartupParameters s with
  | Some x, Some p =>
      if bool_decide (hs_WorldUrl x = EmptyString) then s
      else with_parameters (Session_Name s) (Some (set_LoadWorld (Some (LoadWorldUrl (hs_WorldUrl x))) p)) s
  | _, _ => s
  end.

Definition SessionUC_StopSession (ctx : Ctx) (id : string) : Go unit :=
  let* s := SessionRepo_Get id in
  RequirePermissionForGroup ctx (Session_GroupID s) PermKey_SessionWrite ;;;
  let* client := GetRpcClient (Session_HostID s) in
  let* snapshot := stateCache_Get id in
  let s := resume_at snapshot s in
  rpc_StopSession client id ;;;
  let* now := gets w_now in
  SessionRepo_Upsert (with_ended now s) ;;;
  stateCache_Delete id.

(** ** Reading *)

(** The status is written only if it changes, and a failure to do so is ignored. *)
Definition heal_status (id : string) (status : Z) (s : Session) : Go Session :=
  if (Session_Status s =? status)%Z then ret s
  else attempt (SessionRepo_UpdateStatus id status) ;;; ret (with_status status s).

Definition SessionUC_GetSession (ctx : Ctx) (id : string) : Go Session :=
  let* dbSession := SessionRepo_Get id in
  if (Session_Status dbSession =? SessionStatus_ENDED)%Z then ret dbSession else
  let* snapshot := stateCache_Get id in
  match snapshot with
  | Some x => heal_status id SessionStatus_RUNNING (with_current (Some x) dbSession)
  | None =>
      let* client := attempt (GetRpcClient (Session_HostID dbSession)) in
      match client with
      | Fail _ => heal_status id SessionStatus_CRASHED dbSession
      | Ok client =>
          let* resp := attempt (rpc_GetSession client id) in
          match resp with
          | Ok (Some x) =>
              stateCache_Set (Session_HostID dbSession) id (Some x) ;;;
              heal_status id SessionStatus_RUNNING (with_current (Some x) dbSession)
          | _ => heal_status id SessionStatus_CRASHED dbSession
          end
      end
  end.

Record SearchSessionsFilter : Type := mkSearchFilter {
  ssf_HostID : option string; ssf_Status : option Z; ssf_PageIndex : Z; ssf_PageSize : Z; ssf_GroupIDs : option (list string) }.
Record SearchSessionsResult : Type := mkSearchResult { ssr_Sessions : list Session; ssr_TotalCount : Z }.

(** one look at the cache per session *)
Fixpoint hydrateCurrentState (sessions : list Session) : Go (list Session) :=
  match sessions with
  | [] => ret []
  | s :: sessions' =>
      let* snapshot := stateCache_Get (Session_ID s) in
      let* rest := hydrateCurrentState sessions' in
      ret (match snapshot with Some x => with_current (Some x) s | None => s end :: rest)
  end.

Definition SearchSessions (filter : SearchSessionsFilter) : Go SearchSessionsResult :=
  if (0 <? ssf_PageSize filter)%Z then
    let* pageResult := SessionRepo_ListPaged (mkSessionPageOptions (ssf_HostID filter) (ssf_Status filter) (ssf_PageIndex filter)
                                                (ssf_PageSize filter) (ssf_GroupIDs filter)) in
    let* sessions := hydrateCurrentState (spr_Sessions pageResult) in
    ret (mkSearchResult sessions (spr_TotalCount pageResult))
  else
    let* dbSessions := match ssf_Status filter with
                       | Some status => SessionRepo_ListByStatus status
                       | None => SessionRepo_ListAll
                       end in
    let dbSessions := match ssf_HostID filter with
                      | Some h => List.filter (λ s, bool_decide (Session_HostID s = h)) dbSessions
                      | None => dbSessions
                      end in
    let dbSessions := match ssf_GroupIDs filter with
                      | Some gs => List.filter (λ s, bool_decide (Session_GroupID s ∈ gs)) dbSessions
                      | None => dbSessions
                      end in
    let* sessions := hydrateCurrentState dbSessions in
    ret (mkSearchResult sessions (int32 (Z.of_nat (length sessions)))).

(** ** Changing *)

Definition SessionUC_UpdateSessionParameters (ctx : Ctx) (id : string) (params : UpdateSessionParametersRequest) : Go unit :=
  let* s := SessionRepo_Get id in
  RequirePermissionForGroup ctx (Session_GroupID s) PermKey_SessionWrite ;;;
  let* client := GetRpcClient (Session_HostID s) in
  rpc_UpdateSessionParameters client params ;;;
  let* newSession := rpc_GetSession client id in
  let* current := match Session_StartupParameters s with
                  | Some p => ret (Some (updateStartupParamsByUpdateRequest p params))
                  | None => fail (EPanic "runtime error: invalid memory address or nil pointer dereference")
                  end in
  SessionRepo_Upsert (with_parameters (of_session hs_Name newSession) current s) ;;;
  stateCache_Set (Session_HostID s) id newSession.

Definition SessionUC_DeleteSession (ctx : Ctx) (id : string) : Go unit :=
  let* s := SessionRepo_Get id in
  RequirePermissionForGroup ctx (Session_GroupID s) PermKey_SessionWrite ;;;
  SessionRepo_Delete id ;;;
  stateCache_Delete id.

Definition SessionUC_SaveSessionWorld (ctx : Ctx) (id : string) (saveMode : Z) : Go string :=
  let* s := SessionUC_GetSession ctx id in
  RequirePermissionForGroup ctx (Session_GroupID s) PermKey_SessionWrite ;;;
  let* client := GetRpcClient (Session_HostID s) in
  if (saveMode =? SaveMode_OVERWRITE)%Z then
    let* url := rpc_SaveSessionWorld client id in
    if negb (bool_decide (url = EmptyString)) then ret url
    else
      let* snapshot := stateCache_Get id in
      ret (match snapshot with Some x => hs_WorldUrl x | None => EmptyString end)
  else if (saveMode =? SaveMode_SAVE_AS)%Z then rpc_SaveAsSessionWorld client id SAVE_AS_TYPE_SAVE_AS
  else if (saveMode =? SaveMode_COPY)%Z then rpc_SaveAsSessionWorld client id SAVE_AS_TYPE_COPY
  else fail (EMsg ("unknown save mode: " +:+ fmt_d saveMode)).

Definition SessionUC_UpdateSessionExtraSettings (ctx : Ctx) (sessionID : string) (autoUpgrade : option bool) (memo : option string) : Go unit :=
  let* s := SessionUC_GetSession ctx sessionID in
  RequirePermissionForGroup ctx (Session_GroupID s) PermKey_SessionWrite ;;;
  SessionRepo_Upsert (with_settings autoUpgrade memo s).
End Usecase.
