(* ===== verification/SessionSafety.v ===== *)
(** * Sessions: who changes what

    Every operation of the use case changes the sessions table only, and there
    one session only, with the permission to write in its group; the status
    alone is brought up to date without it.  A session never changes its group
    or its creator. *)

From S2P Require Import Prelude Entity Json Headless StateCache Digest Models Queries Ports PermissionUsecase Repositories Resources SessionRepo.
From S2P Require Import PermissionDecisions PermissionSystem PermissionSafety AuthTokens Claims SessionUsecase.
From stdpp Require Import base gmap strings list.
From Stdlib Require Import ZArith Lia.

(** ** Computations that change the sessions table only *)

Definition only_sessions (w w' : World) : Prop :=
  w_db w' = set_sessions (λ _, t_sessions (w_db w')) (w_db w) ∧ w_now w' = w_now w ∧ (w_faults w = [] → w_faults w' = []).

Lemma set_sessions_same d : set_sessions (λ _, t_sessions d) d = d.
Proof. by destruct d. Qed.

#[export] Instance only_sessions_preorder : PreOrder only_sessions.
Proof.
  split; [intros w; split; [by rewrite set_sessions_same|done]|].
  intros w1 w2 w3 (H1 & N1 & F1) (H2 & N2 & F2). split; [|split; [congruence|auto]].
  rewrite H2, H1. by destruct (w_db w1), (w_db w3).
Qed.

Lemma abroad_sessions w w' : abroad w w' → only_sessions w w'.
Proof. intros (H & _ & N & F). split; [|done]. by rewrite H, set_sessions_same. Qed.

Section Relations.
Context (Q : gmap string SessionRow → gmap string SessionRow → Prop) `{!PreOrder Q}.

Definition sessions_rel (w w' : World) : Prop := only_sessions w w' ∧ Q (t_sessions (w_db w)) (t_sessions (w_db w')).

#[export] Instance sessions_rel_preorder : PreOrder sessions_rel.
Proof.
  split; [by intros w; split|]. intros w1 w2 w3 [H1 Q1] [H2 Q2]. split; [by etrans|by etrans].
Qed.

Lemma rel_abroad w w' : abroad w w' → sessions_rel w w'.
Proof.
  intros H. split; [by apply abroad_sessions|]. by destruct H as [-> _].
Qed.
Lemma rel_outside {A} (m : Go A) : preserves abroad m → preserves sessions_rel m.
Proof. apply preserves_weaken, rel_abroad. Qed.
Lemma rel_only_faults w w' : only_faults w w' → sessions_rel w w'.
Proof. intros H. by apply rel_abroad, abroad_only_faults. Qed.
Lemma rel_reads {A} (m : Go A) f : reads m f → preserves sessions_rel m.
Proof. apply reads_preserves. intros w w' H. by apply rel_abroad, abroad_only_faults. Qed.
Lemma rel_cache f : preserves sessions_rel (on_cache f).
Proof. intros w. split; [|done]. split; [|done]. by rewrite set_sessions_same. Qed.
Lemma rel_exec {A} (f : Instant → DB → Result (A * DB)) :
  (∀ t d a d', f t d = Ok (a, d') → d' = set_sessions (λ _, t_sessions d') d ∧ Q (t_sessions d) (t_sessions d')) → preserves sessions_rel (exec f).
Proof.
  intros Hf w. destruct (exec f w) as [r w'] eqn:E. simpl.
  assert (w_faults w = [] → w_faults w' = []) as HF.
  { intros Hw. rewrite exec_run in E by done. destruct (f _ _) as [[a d]|e]; injection E as _ <-; [by destruct w|done]. }
  apply exec_inv in E as [Hn [(a & d & _ & Hx & Hd)|(e & _ & Hd)]]; simpl in *.
  - destruct (Hf _ _ _ _ Hx) as [H1 H2]. rewrite <-Hd in H1, H2. split; [split; [exact H1|done]|exact H2].
  - split; [|by rewrite Hd]. split; [by rewrite Hd, set_sessions_same|done].
Qed.
End Relations.
#[export] Hint Resolve rel_cache : preserves.
#[export] Hint Extern 5 (preserves (sessions_rel _) _) => (eapply rel_reads; [typeclasses eauto|solve [eauto with reads]]) : preserves.

(** ** One session *)

(** The statement changes the session [id] only, and it as [P] says. *)
Definition at_row (id : string) (P : option SessionRow → option SessionRow → Prop) (s s' : gmap string SessionRow) : Prop :=
  (∀ id', id' ≠ id → s' !! id' = s !! id') ∧ P (s !! id) (s' !! id).

#[export] Instance at_row_preorder id P `{!PreOrder P} : PreOrder (at_row id P).
Proof.
  split; [by intros s; split|]. intros s1 s2 s3 [H1 P1] [H2 P2]. split; [|by etrans].
  intros id' Hne. by rewrite H2, H1.
Qed.

Lemma at_row_weaken id (P P' : option SessionRow → option SessionRow → Prop) w w' :
  (∀ o o', P o o' → P' o o') → sessions_rel (at_row id P) w w' → sessions_rel (at_row id P') w w'.
Proof. intros HP (H & Hne & Hr). split; [done|]. split; [done|]. by apply HP. Qed.

Lemma at_row_set id P s o' : P (s !! id) o' → at_row id P s (partial_alter (λ _, o') id s).
Proof. intros H. split; [intros id' Hne; by apply lookup_partial_alter_ne|by rewrite lookup_partial_alter_eq]. Qed.

(** What never changes of a session. *)
Definition same_session (r r' : SessionRow) : Prop :=
  se_ID r' = se_ID r ∧ se_GroupID r' = se_GroupID r ∧ se_CreatedAt r' = se_CreatedAt r ∧
  (∀ c, se_CreatedBy r = Some c → se_CreatedBy r' = Some c).
Definition kept (o o' : option SessionRow) : Prop := ∀ r, o = Some r → ∃ r', o' = Some r' ∧ same_session r r'.
Definition healed (o o' : option SessionRow) : Prop := o' = o ∨ ∃ r status t, o = Some r ∧ o' = Some (se_with_status status t r).
Definition gone (o o' : option SessionRow) : Prop := o' = o ∨ o' = None.

#[export] Instance same_session_preorder : PreOrder same_session.
Proof. split; [done|]. intros r1 r2 r3 (?&?&?&?) (?&?&?&?). repeat split; try congruence. eauto. Qed.
#[export] Instance kept_preorder : PreOrder kept.
Proof.
  split; [intros o r ->; by exists r|]. intros o1 o2 o3 H1 H2 r Hr. destruct (H1 r Hr) as (r2 & Hr2 & ?).
  destruct (H2 r2 Hr2) as (r3 & Hr3 & ?). exists r3. split; [done|]. by etrans.
Qed.
#[export] Instance healed_preorder : PreOrder healed.
Proof.
  split; [by left|]. intros o1 o2 o3 [->|(r & s & t & -> & ->)] [->|(r' & s' & t' & E & ->)]; [by left|right|right|right].
  - by exists r', s', t'.
  - by exists r, s, t.
  - exists r, s', t'. split; [done|]. by injection E as <-.
Qed.
#[export] Instance gone_preorder : PreOrder gone.
Proof. split; [by left|]. intros o1 o2 o3 [->| ->] [->| ->]; unfold gone; auto. Qed.

(** A new session is in the group [g]; an old one stays where it is. *)
Definition started (g : string) (o o' : option SessionRow) : Prop := kept o o' ∧ ∀ r', o = None → o' = Some r' → se_GroupID r' = g.
#[export] Instance started_preorder g : PreOrder (started g).
Proof.
  split; [intros o; split; [done|intros r -> ?; done]|]. intros o1 o2 o3 [K1 S1] [K2 S2]. split; [by etrans|]. intros r' -> H3.
  destruct o2 as [r2|]; [|by apply S2]. destruct (K2 r2 eq_refl) as (r3 & E & _ & Hg & _). rewrite E in H3. injection H3 as ->. rewrite Hg. by apply S1.
Qed.

Lemma healed_kept o o' : healed o o' → kept o o'.
Proof.
  intros [->|(r & s & t & -> & ->)] r0; [intros ->; by exists r0|]. intros [= <-]. eexists. split; [done|]. by repeat split.
Qed.

(** ** The statements *)

Abbreviation row_rel id P := (sessions_rel (at_row id P)).

Lemma row_exec {A} id P `{!PreOrder P} (f : Instant → DB → Result (A * DB)) :
  (∀ t d a d', f t d = Ok (a, d') → d' = d ∨ ∃ o', d' = set_sessions (partial_alter (λ _, o') id) d ∧ P (t_sessions d !! id) o') →
  preserves (row_rel id P) (exec f).
Proof.
  intros Hf. apply rel_exec; [apply _|]. intros t d a d' [->|(o' & -> & HP)]%Hf; [by rewrite set_sessions_same|].
  split; [by destruct d|]. simpl. by apply at_row_set.
Qed.

Lemma update_session_row id P `{!PreOrder P} cond f : (∀ now r, P (Some r) (Some (f now r))) →
  preserves (row_rel id P) (exec (λ now, update_session id cond (f now))).
Proof.
  intros Hf. apply row_exec; [done|]. intros t d a d'. unfold update_session. destruct (t_sessions d !! id) as [r|] eqn:E; [|by intros [= _ <-]; left].
  destruct (cond r); intros [= _ <-]; [|by left]. right. exists (Some (f t r)). by split.
Qed.
Lemma update_session_result_row id P `{!PreOrder P} (f : Instant → SessionRow → Result SessionRow) :
  (∀ now r r', f now r = Ok r' → P (Some r) (Some r')) →
  preserves (row_rel id P) (exec (λ now, update_session_result id (f now))).
Proof.
  intros Hf. apply row_exec; [done|]. intros t d a d'. unfold update_session_result. destruct (t_sessions d !! id) as [r|] eqn:E; [|by intros [= _ <-]; left].
  destruct (f t r) as [r'|] eqn:Er; simpl; [|done]. intros [= _ <-]. right. exists (Some r'). split; [done|]. by eapply Hf.
Qed.

Lemma UpsertSession_row p : preserves (row_rel (us_p_ID p) (started (us_p_GroupID p))) (UpsertSession p).
Proof.
  apply row_exec; [apply _|]. intros t d a d'. unfold x_UpsertSession. destruct (us_p_StartupParameters p) as [j|]; [|done].
  destruct (t_sessions d !! us_p_ID p) as [r|] eqn:E.
  - unfold check. destruct (opt_present _ _); [|done]. intros [= _ <-]. right. eexists (Some _). split; [done|]. split; [|done].
    intros r0 [= <-]. eexists. split; [done|]. repeat split. intros c Hc. simpl. by rewrite Hc.
  - unfold check. destruct (present _ _); [|done]. destruct (opt_present _ _); [|done]. intros [= _ <-]. right. eexists (Some _). split; [done|].
    split; [done|]. by intros r' _ [= <-].
Qed.
Lemma UpdateSessionStatus_row id status : preserves (row_rel id healed) (UpdateSessionStatus id status).
Proof.
  apply preserves_bind; [apply _| |intros ?; apply preserves_ret, _]. apply update_session_row; [apply _|]. intros now r. right. eauto.
Qed.
Lemma DeleteSession_row id : preserves (row_rel id gone) (DeleteSession id).
Proof. apply row_exec; [apply _|]. intros t d a d' [= _ <-]. right. exists None. split; [done|by right]. Qed.
#[export] Hint Resolve UpdateSessionStatus_row DeleteSession_row : preserves.

(** ** The operations *)

Definition sessions_keyed (d : DB) : Prop := ∀ id r, t_sessions d !! id = Some r → se_ID r = id.

Section Operations.
Context {SP : StartupParameters} {JW : JWT} {CC : ContainerClient} {HC : HostClients} {HD : HostDrainer} {PP : PortProbe} {OL : OutsideLaws}.
Context (u : SessionUsecase).

#[local] Hint Extern 6 (preserves (sessions_rel _) _) =>
  (apply rel_outside; [typeclasses eauto|]; first [apply GetRpcClient_abroad|apply StartWorld_abroad|apply rpc_StopSession_abroad
     |apply rpc_UpdateSessionParameters_abroad|apply rpc_GetSession_abroad|apply rpc_SaveSessionWorld_abroad|apply rpc_SaveAsSessionWorld_abroad
     |apply IsHostDraining_abroad|apply isPortAvailable_abroad]) : preserves.

Lemma Upsert_started s : preserves (row_rel (Session_ID s) (started (Session_GroupID s))) (SessionRepo_Upsert s).
Proof.
  unfold SessionRepo_Upsert. preserve.
  all: lazymatch goal with |- preserves _ (UpsertSession ?p) => apply (UpsertSession_row p) end.
Qed.
Lemma Upsert_row_at id s : Session_ID s = id → preserves (row_rel id kept) (SessionRepo_Upsert s).
Proof. intros <-. eapply preserves_weaken; [|apply Upsert_started]. intros w w'. apply at_row_weaken. by intros o o' [? _]. Qed.
Lemma resume_at_ID o s : Session_ID (resume_at o s) = Session_ID s.
Proof. unfold resume_at. by repeat case_match. Qed.

Lemma heal_status_row id status s : preserves (row_rel id healed) (heal_status id status s).
Proof. unfold heal_status, SessionRepo_UpdateStatus. preserve. Qed.
#[local] Hint Resolve heal_status_row : preserves.

Lemma GetSession_row ctx id : preserves (row_rel id healed) (SessionUC_GetSession ctx id).
Proof. unfold SessionUC_GetSession. preserve. Qed.

(** The entity it answers is the row's. *)
Definition entity_of (id : string) (w : World) (s : Session) : Prop :=
  ∃ row, t_sessions (w_db w) !! id = Some row ∧ Session_GroupID s = se_GroupID row ∧ Session_ID s = se_ID row.

Lemma get_session_entity id d s : get_session id d = Ok s →
  ∃ row, t_sessions d !! id = Some row ∧ Session_GroupID s = se_GroupID row ∧ Session_ID s = se_ID row.
Proof.
  unfold get_session, q_GetSession. destruct (t_sessions d !! id) as [row|]; [|done]. simpl. unfold sessionToEntity.
  destruct (protojson_Unmarshal _); simpl; [|done]. intros [= <-]. eauto.
Qed.

Lemma SessionRepo_Get_entity id w s w' : SessionRepo_Get id w = (Ok s, w') → entity_of id w s.
Proof. intros H. apply (reads_inv _ _ _ _ _ (SessionRepo_Get_reads id)) in H as [_ H]. apply (get_session_entity id _ s), H; done. Qed.

Lemma heal_status_entity id status s w s' w' : heal_status id status s w = (Ok s', w') → Session_GroupID s' = Session_GroupID s ∧ Session_ID s' = Session_ID s.
Proof.
  unfold heal_status. destruct (_ =? _)%Z; [by intros [= <- _]|]. unfold bind, attempt.
  destruct (SessionRepo_UpdateStatus id status w) as [r w1]. by intros [= <- _].
Qed.

Lemma GetSession_entity ctx id w s w' : SessionUC_GetSession ctx id w = (Ok s, w') → entity_of id w s.
Proof.
  unfold SessionUC_GetSession. intros (s0 & w1 & H0 & H)%bind_inv_Ok. apply SessionRepo_Get_entity in H0 as (row & Hrow & Hg & Hi).
  assert (Session_GroupID s = Session_GroupID s0 ∧ Session_ID s = Session_ID s0) as [E1 E2]; [|exists row; by rewrite E1, E2].
  destruct (_ =? _)%Z; [by injection H as <- _|]. apply bind_inv_Ok in H as (x & w2 & _ & H). destruct x as [x|].
  { by apply heal_status_entity in H. }
  apply bind_inv_Ok in H as (c & w3 & _ & H). destruct c as [c|e]; [|by apply heal_status_entity in H].
  apply bind_inv_Ok in H as (y & w4 & _ & H). destruct y as [[y|]|e]; [|by apply heal_status_entity in H..].
  apply bind_inv_Ok in H as (z & w5 & _ & H). by apply heal_status_entity in H.
Qed.

(** The caller may write in a group. *)
Definition may_write (ctx : Ctx) (d : DB) (g : string) : Prop := ∃ usr, current_user ctx = Ok usr ∧ may d usr g PermKey_SessionWrite.

Lemma may_write_sessions ctx w w' g : only_sessions w w' → may_write ctx (w_db w') g → may_write ctx (w_db w) g.
Proof. intros (-> & _) (usr & Hu & H). exists usr. by split. Qed.

Lemma only_faults_sessions w w' : only_faults w w' → only_sessions w w'.
Proof. intros H. by apply abroad_sessions, abroad_only_faults. Qed.

(** What a caller may have changed of the session [id]: its status, or what [P] allows to those who write in its group. *)
Definition authorised (ctx : Ctx) (id : string) (P : option SessionRow → option SessionRow → Prop) (w w' : World) : Prop :=
  row_rel id healed w w' ∨
  (row_rel id P w w' ∧ ∃ row, t_sessions (w_db w) !! id = Some row ∧ may_write ctx (w_db w) (se_GroupID row)).

(** Reading a session, asking for the permission in its group, changing it. *)
Lemma guarded {A} ctx id (H P : option SessionRow → option SessionRow → Prop) `{!PreOrder H, !PreOrder P} (m : Go Session) (k : Session → Go A) w :
  sessions_keyed (w_db w) →
  preserves (row_rel id H) m → (∀ o o', H o o' → healed o o' ∧ P o o') → (∀ s w1, m w = (Ok s, w1) → entity_of id w s) →
  (∀ s, Session_ID s = id → preserves (row_rel id P) (k s)) →
  authorised ctx id P w (bind m (λ s, RequirePermissionForGroup ctx (Session_GroupID s) PermKey_SessionWrite ;;; k s) w).2.
Proof.
  intros Hkeyed Hm HH He Hk. assert (∀ w1, row_rel id H w w1 → row_rel id healed w w1) as Hheal.
  { intros w1. apply at_row_weaken. intros o o' Ho. by apply HH. }
  pose proof (Hm w) as Hw. destruct (m w) as [[s|e] w1] eqn:E; simpl in Hw; [|left; by rewrite (bind_Fail _ _ _ _ _ E); apply Hheal].
  rewrite (bind_Ok _ _ _ _ _ E). destruct (RequirePermission_enforces ctx (Session_GroupID s) PermKey_SessionWrite w1) as [Hof Hr].
  destruct (RequirePermissionForGroup _ _ _ w1) as [[[]|e] w2] eqn:E2; simpl in Hof, Hr.
  - right. rewrite (bind_Ok _ _ _ _ _ E2). destruct (He s w1 eq_refl) as (row & Hrow & Hg & Hi). split.
    + trans w1; [eapply at_row_weaken; [|exact Hw]; intros o o' Ho; by apply HH|].
      trans w2; [by apply rel_abroad, abroad_only_faults; [apply _|]|]. apply Hk. rewrite Hi. by eapply Hkeyed.
    + exists row. split; [done|]. rewrite <-Hg. by eapply may_write_sessions; [apply Hw|].
  - left. rewrite (bind_Fail _ _ _ _ _ E2). apply Hheal. trans w1; [done|]. by apply (rel_only_faults _).
Qed.

Lemma Get_row id : preserves (row_rel id eq) (SessionRepo_Get id).
Proof. preserve. Qed.
Lemma StopSession_authorised ctx id w : sessions_keyed (w_db w) → authorised ctx id kept w (SessionUC_StopSession ctx id w).2.
Proof.
  intros Hk. apply guarded with (H := eq); [apply _..|done|apply Get_row|split; [by left|by subst]|apply SessionRepo_Get_entity|].
  intros s Hs. preserve. all: apply Upsert_row_at; simpl; by rewrite ?resume_at_ID.
Qed.
Lemma UpdateSessionParameters_authorised ctx id p w :
  sessions_keyed (w_db w) → authorised ctx id kept w (SessionUC_UpdateSessionParameters ctx id p w).2.
Proof.
  intros Hk. apply guarded with (H := eq); [apply _..|done|apply Get_row|split; [by left|by subst]|apply SessionRepo_Get_entity|].
  intros s Hs. preserve. all: by apply Upsert_row_at.
Qed.
Lemma DeleteSession_authorised ctx id w : sessions_keyed (w_db w) → authorised ctx id gone w (SessionUC_DeleteSession ctx id w).2.
Proof.
  intros Hk. apply guarded with (H := eq); [apply _..|done|apply Get_row|split; [by left|by subst; left]|apply SessionRepo_Get_entity|].
  intros s Hs. unfold SessionRepo_Delete. preserve.
Qed.
Lemma SaveSessionWorld_authorised ctx id mode w : sessions_keyed (w_db w) → authorised ctx id kept w (SessionUC_SaveSessionWorld ctx id mode w).2.
Proof.
  intros Hk. apply guarded with (H := healed); [apply _..|done|apply GetSession_row|split; [done|by apply healed_kept]|apply GetSession_entity|].
  intros s Hs. preserve.
Qed.
Lemma UpdateSessionExtraSettings_authorised ctx id a m w :
  sessions_keyed (w_db w) → authorised ctx id kept w (SessionUC_UpdateSessionExtraSettings ctx id a m w).2.
Proof.
  intros Hk. apply guarded with (H := healed); [apply _..|done|apply GetSession_row|split; [done|by apply healed_kept]|apply GetSession_entity|].
  intros s Hs. by apply Upsert_row_at.
Qed.

(** ** Starting *)

Lemma RequireAll_enforces ctx g ks w :
  let (r, w') := RequireAllPermissionsForGroup ctx g ks w in
  only_faults w w' ∧ (is_Ok r = true → ∀ k, k ∈ ks → ∃ usr, current_user ctx = Ok usr ∧ may (w_db w) usr g k).
Proof.
  revert w. induction ks as [|k ks IH]; intros w; simpl; [split; [done|by intros _ k ?%not_elem_of_nil]|].
  destruct (RequirePermission_enforces ctx g k w) as [Hof Hr]. destruct (RequirePermissionForGroup ctx g k w) as [[[]|e] w1] eqn:E; simpl in Hof, Hr.
  - rewrite (bind_Ok _ _ _ _ _ E). specialize (IH w1). destruct (RequireAllPermissionsForGroup ctx g ks w1) as [r w2]. destruct IH as [Hof2 Hall].
    split; [by etrans|]. intros Hok k' [->|Hk]%elem_of_cons; [done|]. rewrite <-(only_faults_db _ _ Hof). by apply Hall.
  - by rewrite (bind_Fail _ _ _ _ _ E).
Qed.

Lemma probe_ports_same min n offset idx : preserves (sessions_rel eq) (probe_ports min n offset idx).
Proof. induction idx; simpl; preserve. Qed.
#[local] Hint Resolve probe_ports_same : preserves.
Lemma getFreeSessionPort_same : preserves (sessions_rel eq) (getFreeSessionPort u).
Proof. unfold getFreeSessionPort. preserve. Qed.
#[local] Hint Resolve getFreeSessionPort_same : preserves.

(** At most one session is changed or made, in the group [g]. *)
Definition starts (g : string) (w w' : World) : Prop := ∃ id, row_rel id (started g) w w'.

Lemma starts_bind {A B} g (m : Go A) (k : A → Go B) w :
  preserves (sessions_rel eq) m → (∀ a w1, starts g w1 (k a w1).2) → starts g w (bind m k w).2.
Proof.
  intros Hm Hk. destruct (Hm w) as [Ho He]. unfold bind. destruct (m w) as [[a|e] w1]; simpl in *.
  - destruct (Hk a w1) as (id & H1 & H2). exists id. split; [by etrans|]. by rewrite He.
  - exists EmptyString. split; [done|]. by rewrite He.
Qed.
Lemma starts_row {A} g id (m : Go A) w : preserves (row_rel id (started g)) m → starts g w (m w).2.
Proof. intros H. exists id. apply H. Qed.

Lemma StartSession_authorised ctx host group user p memo w :
  let w' := (SessionUC_StartSession u ctx host group user p memo w).2 in
  sessions_rel eq w w' ∨
  ∃ g, host_group host (w_db w) = Ok g ∧ starts g w w' ∧
    ∀ k, k ∈ [PermKey_HostUse; PermKey_AccountUse; PermKey_SessionWrite] → ∃ usr, current_user ctx = Ok usr ∧ may (w_db w) usr g k.
Proof.
  cbv zeta. unfold SessionUC_StartSession.
  assert (preserves (sessions_rel eq) (IsHostDraining host)) as Hd by preserve. specialize (Hd w).
  destruct (IsHostDraining host w) as [[d|e] w1] eqn:Ed; [rewrite (bind_Ok _ _ _ _ _ Ed)|rewrite (bind_Fail _ _ _ _ _ Ed); by left]. simpl in Hd.
  destruct d; [by left|].
  pose proof (HostRepo_GetGroupID_reads host) as Hg. destruct (HostRepo_GetGroupID host w1) as [[g|e] w2] eqn:E.
  2: { rewrite (bind_Fail _ _ _ _ _ E). left. trans w1; [done|]. apply (reads_inv _ _ _ _ _ Hg) in E as [E _]. by apply (rel_only_faults _). }
  rewrite (bind_Ok _ _ _ _ _ E). apply (reads_inv _ _ _ _ _ Hg) in E as [Hof2 Hhost]. specialize (Hhost g eq_refl). simpl in Hhost.
  assert (sessions_rel eq w w2) as H2. { trans w1; [done|]. by apply (rel_only_faults _). }
  destruct (_ && _); [by left|]. pose proof (RequireAll_enforces ctx g [PermKey_HostUse; PermKey_AccountUse; PermKey_SessionWrite] w2) as Hp.
  destruct (RequireAllPermissionsForGroup _ _ _ w2) as [[[]|e] w3] eqn:Ea; destruct Hp as [Hof3 Hp];
    [rewrite (bind_Ok _ _ _ _ _ Ea)|rewrite (bind_Fail _ _ _ _ _ Ea)].
  2: { left. trans w2; [done|]. by apply (rel_only_faults _). }
  right. exists g. destruct Hd as [[Hdb _] _]. split; [by rewrite Hdb in Hhost|]. split; last first.
  { intros k Hk. destruct (Hp eq_refl k Hk) as (usr & Hu & Hm). exists usr. split; [done|]. destruct H2 as [[Hdb2 _] _]. by rewrite Hdb2 in Hm. }
  assert (sessions_rel eq w w3) as [H3 H3']. { trans w2; [done|]. by apply (rel_only_faults _). }
  lazymatch goal with |- starts _ _ (?m w3).2 => assert (starts g w3 (m w3).2) as (id & Hs1 & Hs2) end.
  2: { exists id. split; [by etrans|]. by rewrite H3'. }
  do 3 (apply starts_bind; [preserve|intros ? ?]).
  eapply starts_row. apply preserves_bind; [apply _|apply Upsert_started|intros _]. unfold stateCache_Set. preserve.
Qed.

Lemma hydrate_same l : preserves (sessions_rel eq) (hydrateCurrentState l).
Proof. induction l; simpl; unfold stateCache_Get; preserve. Qed.
#[local] Hint Resolve hydrate_same : preserves.
Lemma SearchSessions_same f : preserves (sessions_rel eq) (SearchSessions f).
Proof.
  unfold SearchSessions, SessionRepo_ListPaged, SessionRepo_ListByStatus, SessionRepo_ListAll, ListSessionsPaged, ListSessionsByStatus, ListSessions.
  preserve.
Qed.

(** ** The calls *)

Inductive SessionCall : Type :=
  | CallStart (hostId groupID : string) (userId : option string) (params : option WorldStartupParameters) (memo : option string)
  | CallStop (id : string)
  | CallGet (id : string)
  | CallSearch (f : SearchSessionsFilter)
  | CallUpdate (id : string) (params : UpdateSessionParametersRequest)
  | CallDelete (id : string)
  | CallSave (id : string) (saveMode : Z)
  | CallExtra (id : string) (autoUpgrade : option bool) (memo : option string).

Definition session_call (ctx : Ctx) (c : SessionCall) : Go unit :=
  match c with
  | CallStart h g us p m => discard (SessionUC_StartSession u ctx h g us p m)
  | CallStop id => SessionUC_StopSession ctx id
  | CallGet id => discard (SessionUC_GetSession ctx id)
  | CallSearch f => discard (SearchSessions f)
  | CallUpdate id p => SessionUC_UpdateSessionParameters ctx id p
  | CallDelete id => SessionUC_DeleteSession ctx id
  | CallSave id m => discard (SessionUC_SaveSessionWorld ctx id m)
  | CallExtra id a m => SessionUC_UpdateSessionExtraSettings ctx id a m
  end.

Lemma discard_world {A} (m : Go A) w : (discard m w).2 = (m w).2.
Proof. unfold discard, bind. by destruct (m w) as [[a|e] w']. Qed.

(** What a call may do to a session: bring its status up to date; change or
    delete it with the permission in its group; be the one a world started on
    a host came to. *)
Definition permitted (ctx : Ctx) (c : SessionCall) (d : DB) (o o' : option SessionRow) : Prop :=
  healed o o' ∨
  (∃ row, o = Some row ∧ may_write ctx d (se_GroupID row) ∧ (kept o o' ∨ o' = None)) ∨
  (∃ h g us p m hg, c = CallStart h g us p m ∧ host_group h d = Ok hg ∧ started hg o o' ∧
     ∀ k, k ∈ [PermKey_HostUse; PermKey_AccountUse; PermKey_SessionWrite] → ∃ usr, current_user ctx = Ok usr ∧ may d usr hg k).

Lemma authorised_permitted ctx c id P w w' id' :
  (∀ o o', P o o' → kept o o' ∨ o' = None) → authorised ctx id P w w' →
  only_sessions w w' ∧ permitted ctx c (w_db w) (t_sessions (w_db w) !! id') (t_sessions (w_db w') !! id').
Proof.
  intros HP [(Ho & Hne & Hr)|((Ho & Hne & Hr) & row & Hrow & Hmay)]; (split; [done|]);
    (destruct (decide (id' = id)) as [->|Hid]; [|left; left; by apply Hne]).
  - by left.
  - right. left. exists row. split; [done|]. split; [done|]. by apply HP.
Qed.

Lemma same_permitted ctx c w w' id :
  sessions_rel eq w w' → only_sessions w w' ∧ permitted ctx c (w_db w) (t_sessions (w_db w) !! id) (t_sessions (w_db w') !! id).
Proof. intros [H E]. split; [done|]. left. left. by rewrite E. Qed.

Lemma session_call_permitted ctx c w id : sessions_keyed (w_db w) →
  let w' := (session_call ctx c w).2 in
  only_sessions w w' ∧ permitted ctx c (w_db w) (t_sessions (w_db w) !! id) (t_sessions (w_db w') !! id).
Proof.
  intros Hk. cbv zeta. destruct c as [h g us p m|i|i|f|i p|i|i m|i a m]; unfold session_call; rewrite ?discard_world.
  - destruct (StartSession_authorised ctx h g us p m w) as [H|(hg & Hg & (i & Ho & Hne & Hs) & Hp)]; [by apply same_permitted|].
    split; [done|]. destruct (decide (id = i)) as [->|Hid]; [|left; left; by apply Hne]. right. right. exists h, g, us, p, m, hg. done.
  - eapply authorised_permitted; [|by apply StopSession_authorised]. auto.
  - eapply authorised_permitted with (P := healed); [|left; apply GetSession_row]. intros o o' H. left. by apply healed_kept.
  - apply same_permitted, SearchSessions_same.
  - eapply authorised_permitted; [|by apply UpdateSessionParameters_authorised]. auto.
  - eapply authorised_permitted; [|by apply DeleteSession_authorised]. intros o o' [->| ->]; [by left|by right].
  - eapply authorised_permitted; [|by apply SaveSessionWorld_authorised]. auto.
  - eapply authorised_permitted; [|by apply UpdateSessionExtraSettings_authorised]. auto.
Qed.
End Operations.
