(* ===== verification/SessionTheorems.v ===== *)
(** * Sessions: theorems of the use case

    Who changes a session, which port a session gets, what stopping does, what
    is read back, and that both ways to search find the same sessions. *)

From S2P Require Import Prelude Entity Json Headless StateCache Digest Models Queries Ports PermissionUsecase Repositories Resources SessionRepo.
From S2P Require Import PermissionDecisions PermissionSystem PermissionSafety AuthTokens Claims SessionUsecase SessionSafety.
From stdpp Require Import base gmap strings list sorting.
From Stdlib Require Import ZArith Lia.

(** ** Who changes a session *)

(** C17. Whatever a call of the use case does and however it fails, it changes
    the sessions table only.  Each session is as before; or its status alone
    was brought up to date; or the caller holds session:write in its group,
    and then it keeps its id, group, creation time and creator, or is gone;
    or it is what a world started on a host came to, and then the caller holds
    host:use, account:use and session:write in the group of the host, a new
    session is in that group, and an old one keeps its identity. *)
Theorem session_changes_authorised (SP : StartupParameters) (CC : ContainerClient) (HC : HostClients) (HD : HostDrainer) (PP : PortProbe) (OL : OutsideLaws)
    (u : SessionUsecase) (ctx : Ctx) (c : SessionCall) (w : World) :
  sessions_keyed (w_db w) →
  let w' := (session_call u ctx c w).2 in
  w_db w' = set_sessions (λ _, t_sessions (w_db w')) (w_db w) ∧
  ∀ id, permitted ctx c (w_db w) (t_sessions (w_db w) !! id) (t_sessions (w_db w') !! id).
Proof. intros Hk. split; [by apply (session_call_permitted u ctx c w EmptyString)|]. intros id. by apply session_call_permitted. Qed.

(** ** A free port *)

Section Ports.
Context {PP : PortProbe} (free : Z → bool) (Hfree : ∀ p w, isPortAvailable p w = (Ok (free p), w)).

Lemma probe_ports_find min n offset idx w :
  probe_ports min n offset idx w = (Ok (find free ((λ i, min + Z.rem (offset + i) n)%Z <$> idx)), w).
Proof.
  induction idx as [|i idx IH]; [done|]. simpl. rewrite (bind_Ok _ _ _ _ _ (Hfree _ _)).
  destruct (free _); [done|exact IH].
Qed.

(** Every port of the range is a candidate, and no other. *)
Lemma candidates min n offset p : (0 <= offset)%Z → (0 < n)%Z →
  p ∈ ((λ i, min + Z.rem (offset + i) n)%Z <$> seqZ 0 n) ↔ (min <= p < min + n)%Z.
Proof.
  intros Ho Hn. rewrite list_elem_of_fmap. setoid_rewrite elem_of_seqZ. split.
  - intros (i & -> & Hi). pose proof (Z.rem_bound_pos (offset + i) n). lia.
  - intros Hp. exists ((p - min - offset) mod n)%Z. pose proof (Z.mod_pos_bound (p - min - offset) n Hn) as Hm. split; [|lia].
    rewrite Z.rem_mod_nonneg by lia. rewrite Zplus_mod_idemp_r. replace (offset + (p - min - offset))%Z with (p - min)%Z by lia.
    rewrite Z.mod_small by lia. lia.
Qed.
End Ports.

(** If the probes answer which ports are free, the port the use case picks
    from its range is free and in the range, wherever the clock makes it
    start, and it fails only if no port of the range is free. *)
Theorem getFreeSessionPort_exact (PP : PortProbe) (u : SessionUsecase) (free : Z → bool) (w : World) :
  (∀ p w, isPortAvailable p w = (Ok (free p), w)) →
  (0 < su_forcePortMin u <= su_forcePortMax u)%Z → (0 <= w_now w)%Z →
  ∃ r, getFreeSessionPort u w = (r, w) ∧
  match r with
  | Ok p => (su_forcePortMin u <= p <= su_forcePortMax u)%Z ∧ free p = true
  | Fail _ => ∀ p, (su_forcePortMin u <= p <= su_forcePortMax u)%Z → free p = false
  end.
Proof.
  intros Hfree Hr Hn. unfold getFreeSessionPort. set (min := su_forcePortMin u) in *. set (max := su_forcePortMax u) in *. cbv zeta.
  destruct (Z.eqb_spec min 0) as [?|Hm]; [lia|]. simpl. destruct (Z.eqb_spec (max - min + 1) 0) as [?|Hz]; [lia|]. set (n := (max - min + 1)%Z) in *.
  unfold bind at 1, gets. erewrite bind_Ok by (by apply probe_ports_find).
  assert (0 <= Z.rem (w_now w) n)%Z as Ho by (apply Z.rem_nonneg; lia).
  pose proof (λ p, candidates min n (Z.rem (w_now w) n) p Ho ltac:(lia)) as Hc.
  destruct (find free _) as [p|] eqn:E.
  - eexists. split; [done|]. apply find_some in E as [Hin Hp]. apply list_elem_of_In, Hc in Hin. split; [lia|done].
  - eexists. split; [done|]. simpl. intros p Hp. apply (find_none _ _ E). apply list_elem_of_In, Hc. lia.
Qed.

(** ** Writing and reading back *)

Section Stored.
Context {SP : StartupParameters}.

Definition upsert_params (s : Session) (j : Json) : UpsertSessionParams :=
  mkUpsertSession (Session_ID s) (Session_Name s) (Session_Status s) (Session_StartedAt s) (Session_CreatedBy s) (Session_EndedAt s)
    (Session_HostID s) (Some j) 1 (Session_AutoUpgrade s) (if bool_decide (Session_Memo s = EmptyString) then None else Some (Session_Memo s))
    (Session_GroupID s).

(** What the store makes of an entity: instants have microseconds, the group
    and the first creator of an existing row stay, the snapshot is not stored. *)
Definition as_stored (o : option SessionRow) (s : Session) : Session :=
  mkSession (Session_ID s) (Session_Name s) (Session_Status s) (to_microseconds <$> Session_StartedAt s)
    (match o with Some r => match se_CreatedBy r with Some c => Some c | None => Session_CreatedBy s end | None => Session_CreatedBy s end)
    (to_microseconds <$> Session_EndedAt s) (Session_HostID s) (Session_StartupParameters s) (Session_AutoUpgrade s) (Session_Memo s) None
    (match o with Some r => se_GroupID r | None => Session_GroupID s end).

Definition upserted_row (s : Session) (j : Json) (now : Instant) (o : option SessionRow) : SessionRow :=
  match o with Some r => upserted (upsert_params s j) j now r | None => new_session_row (upsert_params s j) j now end.

Lemma upserted_row_entity s p j now o : Session_StartupParameters s = Some p → protojson_Marshal p = Ok j →
  (∀ r, o = Some r → se_ID r = Session_ID s) → sessionToEntity (upserted_row s j now o) = Ok (as_stored o s).
Proof.
  intros Hp Hj Hid. unfold sessionToEntity. assert (se_StartupParameters (upserted_row s j now o) = j) as -> by (by destruct o).
  rewrite (protojson_roundtrip p j Hj). simpl. rewrite <-Hp.
  assert (default EmptyString (if bool_decide (Session_Memo s = EmptyString) then None else Some (Session_Memo s)) = Session_Memo s) as Hm.
  { by case_bool_decide as H. }
  destruct o as [r|]; unfold as_stored; simpl; rewrite Hm; [by rewrite (Hid r eq_refl)|done].
Qed.

(** An upsert that the database accepts. *)
Definition accepts (s : Session) (d : DB) : Prop :=
  match t_sessions d !! Session_ID s with
  | Some r => opt_present (match se_CreatedBy r with Some c => Some c | None => Session_CreatedBy s end) (t_users d) = true
  | None => present (Session_GroupID s) (t_groups d) = true ∧ opt_present (Session_CreatedBy s) (t_users d) = true
  end.

Lemma Upsert_run s p j w : w_faults w = [] → Session_StartupParameters s = Some p → protojson_Marshal p = Ok j → accepts s (w_db w) →
  SessionRepo_Upsert s w =
  (Ok tt, with_db (set_sessions (<[Session_ID s := upserted_row s j (w_now w) (t_sessions (w_db w) !! Session_ID s)]>) (w_db w)) w).
Proof.
  intros Hw Hp Hj Ha. unfold SessionRepo_Upsert. rewrite Hp.
  assert ((let* j := lift (protojson_Marshal p) in ret (Some j)) w = (Ok (Some j), w)) as Hm by (unfold bind, lift; by rewrite Hj).
  rewrite (bind_Ok _ _ _ _ _ Hm). change (mkUpsertSession _ _ _ _ _ _ _ _ _ _ _ _) with (upsert_params s j).
  assert (UpsertSession (upsert_params s j) w =
    (Ok (upserted_row s j (w_now w) (t_sessions (w_db w) !! Session_ID s)),
     with_db (set_sessions (<[Session_ID s := upserted_row s j (w_now w) (t_sessions (w_db w) !! Session_ID s)]>) (w_db w)) w)) as Hu.
  { unfold UpsertSession. rewrite exec_run by done. unfold x_UpsertSession. simpl. unfold accepts in Ha.
    destruct (t_sessions (w_db w) !! Session_ID s) as [r|]; unfold check, upserted_row; simpl; [by rewrite Ha|by destruct Ha as [-> ->]]. }
  by rewrite (bind_Ok _ _ _ _ _ Hu).
Qed.
End Stored.

(** What [Upsert] accepts, [Get] reads back: the same session up to
    microseconds, in the group and with the creator it had before, if any. *)
Theorem upsert_get_roundtrip (SP : StartupParameters) (s : Session) (p : WorldStartupParameters) (j : Json) (w : World) :
  w_faults w = [] → sessions_keyed (w_db w) →
  Session_StartupParameters s = Some p → protojson_Marshal p = Ok j → accepts s (w_db w) →
  ∃ w', SessionRepo_Upsert s w = (Ok tt, w') ∧
    SessionRepo_Get (Session_ID s) w' = (Ok (as_stored (t_sessions (w_db w) !! Session_ID s) s), w') ∧
    ∀ id, id ≠ Session_ID s → SessionRepo_Get id w' = ((SessionRepo_Get id w).1, w').
Proof.
  intros Hw Hk Hp Hj Ha. rewrite (Upsert_run s p j w Hw Hp Hj Ha). eexists. split; [done|].
  set (w' := with_db _ w). assert (w_faults w' = []) as Hw' by done. split.
  - rewrite (reads_run _ _ w' (SessionRepo_Get_reads _) Hw'). f_equal. unfold get_session, q_GetSession. simpl.
    rewrite lookup_insert_eq. simpl. eapply upserted_row_entity; [done|done|]. intros r Hr. by eapply Hk.
  - intros id Hid. rewrite (reads_run _ _ w' (SessionRepo_Get_reads _) Hw'), (reads_run _ _ w (SessionRepo_Get_reads _) Hw). simpl.
    unfold get_session, q_GetSession. simpl. by rewrite lookup_insert_ne by done.
Qed.

(** ** Stopping *)

(** A permission held is granted when the database works. *)
Lemma RequirePermission_granted ctx g k w usr : w_faults w = [] → current_user ctx = Ok usr → may (w_db w) usr g k →
  RequirePermissionForGroup ctx g k w = (Ok tt, w).
Proof.
  intros Hw Hu Hm. destruct (RequirePermission_enforces ctx g k w) as [Hof Hr].
  destruct (RequirePermissionForGroup ctx g k w) as [[[]|e] w'] eqn:E; simpl in *; [by rewrite (only_faults_nil _ _ Hof Hw)|].
  destruct Hr as [[_ H]|[[_ (u' & H & Hn)]|(_ & _ & H)]]; [congruence| |done]. destruct Hn. congruence.
Qed.

Lemma resume_at_stored o s : Session_StartedAt (resume_at o s) = Session_StartedAt s ∧ Session_HostID (resume_at o s) = Session_HostID s ∧
  Session_CreatedBy (resume_at o s) = Session_CreatedBy s ∧ Session_Name (resume_at o s) = Session_Name s ∧ Session_GroupID (resume_at o s) = Session_GroupID s.
Proof. unfold resume_at. by repeat case_match. Qed.

(** What stopping a session leaves in its row. *)
Definition stopped_row (url : string) (j : Json) (now : Instant) (row row' : SessionRow) : Prop :=
  se_Status row' = SessionStatus_ENDED ∧ se_EndedAt row' = Some (to_microseconds now) ∧ se_StartupParameters row' = j ∧
  same_session row row' ∧ se_Name row' = se_Name row ∧ se_HostID row' = se_HostID row.

Lemma upserted_stopped id j now o s row :
  Session_Name s = se_Name row → Session_HostID s = se_HostID row →
  stopped_row id j now row (upserted_row (with_ended now (resume_at o s)) j now (Some row)).
Proof.
  intros Hn Hh. destruct (resume_at_stored o s) as (_ & Eh & _ & En & _). unfold stopped_row, same_session. simpl. rewrite Eh, En, Hn, Hh.
  repeat split. intros c Hc. by rewrite Hc.
Qed.

Lemma resume_at_url o x s p : o = Some x → hs_WorldUrl x ≠ EmptyString → is_Some (Session_StartupParameters s) →
  Session_StartupParameters (resume_at o s) = Some p → wsp_LoadWorld p = Some (LoadWorldUrl (hs_WorldUrl x)).
Proof. intros -> Hx [q Hq]. unfold resume_at. rewrite Hq, bool_decide_eq_false_2 by done. simpl. by intros [= <-]. Qed.

(** C18. Stopping a session the caller may write, with a database that works:
    either the container did not do it, and then the store and the cache are
    as before; or the row says that the session ended now, its startup
    parameters load the world last observed, nothing else changed in the
    store, and the cache forgot the session.  If the container can be reached
    and obeys, it is the latter. *)
Theorem StopSession_exact (SP : StartupParameters) (CC : ContainerClient) (HC : HostClients) (HD : HostDrainer) (PP : PortProbe) (OL : OutsideLaws)
    (ctx : Ctx) (id usr : string) (w : World) (row : SessionRow) (s : Session) (p : WorldStartupParameters) (j : Json) :
  w_faults w = [] → se_ID row = id → t_sessions (w_db w) !! id = Some row → sessionToEntity row = Ok s →
  opt_present (se_CreatedBy row) (t_users (w_db w)) = true →
  current_user ctx = Ok usr → may (w_db w) usr (se_GroupID row) PermKey_SessionWrite →
  Session_StartupParameters (resume_at (Cache_Get id (w_cache w)) s) = Some p → protojson_Marshal p = Ok j →
  ∃ r w', SessionUC_StopSession ctx id w = (r, w') ∧
    match r with
    | Ok _ =>
        w_cache w' = Cache_Delete id (w_cache w) ∧
        (∀ x, Cache_Get id (w_cache w) = Some x → hs_WorldUrl x ≠ EmptyString → wsp_LoadWorld p = Some (LoadWorldUrl (hs_WorldUrl x))) ∧
        ∃ row', w_db w' = set_sessions (<[id := row']>) (w_db w) ∧ stopped_row id j (w_now w) row row'
    | Fail _ => w_db w' = w_db w ∧ w_cache w' = w_cache w
    end ∧
    ((∀ w0, is_Ok (GetRpcClient (se_HostID row) w0).1 = true) → (∀ c w0, is_Ok (rpc_StopSession c id w0).1 = true) → r = Ok tt).
Proof.
  intros Hw Hid Hrow Hs Hfk Hu Hm Hp Hj. unfold SessionUC_StopSession.
  assert (Session_ID s = id ∧ Session_GroupID s = se_GroupID row ∧ Session_HostID s = se_HostID row ∧ Session_CreatedBy s = se_CreatedBy row ∧
          Session_Name s = se_Name row ∧ is_Some (Session_StartupParameters s)) as (Es & Eg & Eh & Ec & En & Hparams).
  { unfold sessionToEntity in Hs. destruct (protojson_Unmarshal _); simpl in Hs; [|done]. injection Hs as <-. simpl. eauto 10. }
  assert (SessionRepo_Get id w = (Ok s, w)) as Hget.
  { rewrite (reads_run _ _ w (SessionRepo_Get_reads _) Hw). f_equal. unfold get_session, q_GetSession. by rewrite Hrow. }
  rewrite (bind_Ok _ _ _ _ _ Hget), Eg, (bind_Ok _ _ _ _ _ (RequirePermission_granted ctx _ _ w usr Hw Hu Hm)), Eh.
  destruct (GetRpcClient_abroad (se_HostID row) w) as (D1 & C1 & N1 & F1). specialize (F1 Hw).
  destruct (GetRpcClient (se_HostID row) w) as [[c|e] w1] eqn:Ec1; simpl in D1, C1, N1, F1;
    [rewrite (bind_Ok _ _ _ _ _ Ec1)|rewrite (bind_Fail _ _ _ _ _ Ec1)].
  2: { eexists _, w1. do 2 (split; [done|]). intros H. specialize (H w). by rewrite Ec1 in H. }
  unfold bind at 1, stateCache_Get, gets. rewrite C1. destruct (rpc_StopSession_abroad c id w1) as (D2 & C2 & N2 & F2). specialize (F2 F1).
  destruct (rpc_StopSession c id w1) as [[[]|e] w2] eqn:Ec2; simpl in D2, C2, N2, F2;
    [rewrite (bind_Ok _ _ _ _ _ Ec2)|rewrite (bind_Fail _ _ _ _ _ Ec2)].
  2: { eexists _, w2. split; [done|]. split; [split; congruence|]. intros _ H. specialize (H c w1). by rewrite Ec2 in H. }
  unfold bind at 1. rewrite N2, N1.
  destruct (resume_at_stored (Cache_Get id (w_cache w)) s) as (_ & _ & Rc & _ & _).
  pose proof (Upsert_run (with_ended (w_now w) (resume_at (Cache_Get id (w_cache w)) s)) p j w2 F2 Hp Hj) as Hup.
  simpl in Hup. rewrite resume_at_ID, Es, D2, D1, Hrow in Hup. erewrite bind_Ok; [|apply Hup].
  2: { unfold accepts. simpl. rewrite resume_at_ID, Es, Hrow, Rc, Ec. by destruct (se_CreatedBy row). }
  eexists (Ok tt), _. split; [done|]. split; [|done]. simpl. rewrite C2, C1. split; [done|]. split.
  - intros x Hx Hurl. by eapply resume_at_url.
  - eexists. split; [done|]. rewrite N2, N1. by apply upserted_stopped.
Qed.
