(* ===== verification/SessionSearch.v ===== *)
(** * Sessions: both ways to search agree

    [SearchSessions] filters in SQL when it answers pages, and in memory when
    it answers everything. *)

From S2P Require Import Prelude Entity Json Headless StateCache Digest Models Queries Ports Repositories Resources SessionRepo Claims SessionUsecase.
From S2P Require Import PlainJson PermissionSafety.
From stdpp Require Import base gmap strings list sorting.
From Stdlib Require Import ZArith Lia.

(** ** Lists *)

Lemma List_filter_fmap {A B} (f : A → B) (p : B → bool) (l : list A) : List.filter p (f <$> l) = f <$> List.filter (λ a, p (f a)) l.
Proof. induction l as [|a l IH]; csimpl; [done|]. rewrite IH. by destruct (p (f a)). Qed.
Lemma List_filter_filter {A} (p q : A → bool) (l : list A) : List.filter p (List.filter q l) = List.filter (λ a, q a && p a) l.
Proof. induction l as [|a l IH]; simpl; [done|]. destruct (q a); simpl; [|done]. by rewrite IH. Qed.
Lemma List_filter_ext {A} (P : A → Prop) (p q : A → bool) (l : list A) : (∀ a, P a → p a = q a) → Forall P l → List.filter p l = List.filter q l.
Proof. intros H. induction 1 as [|a l Ha _ IH]; simpl; [done|]. by rewrite (H a Ha), IH. Qed.
Lemma List_filter_Forall {A} (P : A → Prop) (p : A → bool) (l : list A) : Forall P l → Forall P (List.filter p l).
Proof. induction 1; simpl; [constructor|]. case_match; [by constructor|done]. Qed.
Lemma List_filter_id {A} (l : list A) : List.filter (λ _, true) l = l.
Proof. induction l; simpl; congruence. Qed.
Lemma List_filter_Permutation {A} (p : A → bool) (l l' : list A) : l ≡ₚ l' → List.filter p l ≡ₚ List.filter p l'.
Proof. induction 1; simpl; repeat case_match; try done; try (by constructor); by etrans. Qed.
Lemma order_by_Permutation {A} (le : A → A → bool) (l : list A) : order_by le l ≡ₚ l.
Proof. apply merge_sort_Permutation. Qed.

Lemma concat_fmap {A B C} (g : B → C) (h : A → list B) (l : list A) : concat ((λ a, g <$> h a) <$> l) = g <$> concat (h <$> l).
Proof. induction l as [|a l IH]; csimpl; [done|]. by rewrite IH, fmap_app. Qed.

(** The first pages of a list are its beginning. *)
Lemma pages_take {A} (s k : nat) (l : list A) : concat ((λ i, take s (drop (i * s) l)) <$> seq 0 k) = take (k * s) l.
Proof.
  induction k as [|k IH]; [by rewrite take_0|]. rewrite seq_S, fmap_app, concat_app, IH. simpl. rewrite app_nil_r.
  rewrite take_take_drop. f_equal. lia.
Qed.

(** ** Entities *)

Section Search.
Context {SP : StartupParameters}.

(** the entity of a row that can be decoded *)
Definition entity (r : SessionRow) : Session :=
  match sessionToEntity r with Ok e => e | Fail _ => mkSession EmptyString EmptyString 0 None None None EmptyString None false EmptyString None EmptyString end.

Lemma entities_Ok rows es : sessions_to_entities rows = Ok es → es = entity <$> rows ∧ Forall (λ r, sessionToEntity r = Ok (entity r)) rows.
Proof.
  revert es. induction rows as [|r rows IH]; intros es; simpl; [by intros [= <-]|].
  destruct (sessionToEntity r) as [e|] eqn:Er; simpl; [|done]. assert (entity r = e) as He by (unfold entity; by rewrite Er).
  destruct (sessions_to_entities rows) as [es'|]; simpl; [|done]. intros [= <-]. destruct (IH es' eq_refl) as [-> H]. csimpl. rewrite He.
  split; [done|]. constructor; [by rewrite He|done].
Qed.
Lemma Ok_entities rows : Forall (λ r, sessionToEntity r = Ok (entity r)) rows → sessions_to_entities rows = Ok (entity <$> rows).
Proof. induction 1 as [|r rows Hr _ IH]; simpl; [done|]. by rewrite Hr, IH. Qed.

Lemma session_entity_fields r : sessionToEntity r = Ok (entity r) → Session_HostID (entity r) = se_HostID r ∧ Session_GroupID (entity r) = se_GroupID r.
Proof. unfold sessionToEntity. destruct (protojson_Unmarshal _); simpl; [|done]. by intros [= <-]. Qed.

(** ** The cache *)

Definition hydrated (c : MemoryCache) (s : Session) : Session :=
  match Cache_Get (Session_ID s) c with Some x => with_current (Some x) s | None => s end.
Lemma hydrate_run l w : hydrateCurrentState l w = (Ok (hydrated (w_cache w) <$> l), w).
Proof. induction l as [|s l IH]; simpl; [done|]. unfold bind at 1, stateCache_Get, gets. by rewrite (bind_Ok _ _ _ _ _ IH). Qed.

(** ** Both ways *)

Definition filter_row (f : SearchSessionsFilter) (r : SessionRow) : bool :=
  session_matches (mkListSessionsPaged (ssf_Status f) (ssf_HostID f) (ssf_GroupIDs f) 0 0) r.
Definition matching (f : SearchSessionsFilter) (d : DB) : list SessionRow := List.filter (filter_row f) (rows_of (t_sessions d)).
Definition page_filter (i s : Z) (f : SearchSessionsFilter) : SearchSessionsFilter :=
  mkSearchFilter (ssf_HostID f) (ssf_Status f) i s (ssf_GroupIDs f).

(** The filters of the slice, as functions of an entity. *)
Definition keep_host (f : SearchSessionsFilter) (s : Session) : bool :=
  match ssf_HostID f with Some h => bool_decide (Session_HostID s = h) | None => true end.
Definition keep_group (f : SearchSessionsFilter) (s : Session) : bool :=
  match ssf_GroupIDs f with Some gs => bool_decide (Session_GroupID s ∈ gs) | None => true end.
Definition keep_status (f : SearchSessionsFilter) (r : SessionRow) : bool :=
  match ssf_Status f with Some st => (se_Status r =? st)%Z | None => true end.

Definition decodes (r : SessionRow) : Prop := sessionToEntity r = Ok (entity r).

Lemma filter_row_split f r : (keep_status f r = true → decodes r) →
  keep_status f r && (keep_host f (entity r) && keep_group f (entity r)) = filter_row f r.
Proof.
  intros Hd. unfold filter_row, session_matches, unless_given. simpl. rewrite <-andb_assoc.
  replace (match ssf_Status f with Some _ => bool_decide (Some (se_Status r) = ssf_Status f) | None => true end) with (keep_status f r).
  2: { unfold keep_status. destruct (ssf_Status f) as [st|]; [|done]. apply eq_true_iff_eq. rewrite Z.eqb_eq, bool_decide_eq_true. naive_solver. }
  destruct (keep_status f r); [|done]. destruct (session_entity_fields r (Hd eq_refl)) as [Hh Hg]. simpl. unfold keep_host, keep_group. rewrite Hh, Hg.
  apply f_equal2; [|by destruct (ssf_GroupIDs f)]. destruct (ssf_HostID f) as [h|]; [|done].
  apply eq_true_iff_eq. rewrite !bool_decide_eq_true. naive_solver.
Qed.

Lemma filter_match {A B} (o : option B) (p : B → A → bool) (l : list A) :
  match o with Some b => List.filter (p b) l | None => l end = List.filter (λ a, match o with Some b => p b a | None => true end) l.
Proof. destruct o; [done|]. by rewrite List_filter_id. Qed.

(** what the unpaged way reads from the store *)
Lemma list_status f w es w' : w_faults w = [] →
  match ssf_Status f with Some st => SessionRepo_ListByStatus st | None => SessionRepo_ListAll end w = (Ok es, w') →
  w' = w ∧ es = entity <$> sessions_where (keep_status f) (w_db w) ∧ Forall decodes (sessions_where (keep_status f) (w_db w)).
Proof.
  intros Hw Hl. unfold keep_status. destruct (ssf_Status f) as [st|]; unfold SessionRepo_ListByStatus, SessionRepo_ListAll in Hl.
  - erewrite bind_Ok in Hl by (apply (reads_run _ _ w (on_err_reads _ _ _ (reads_query (q_ListSessionsByStatus st))) Hw)).
    injection Hl as He <-. by apply entities_Ok in He as [-> He].
  - erewrite bind_Ok in Hl by (apply (reads_run _ _ w (on_err_reads _ _ _ (reads_query q_ListSessions)) Hw)).
    injection Hl as He <-. by apply entities_Ok in He as [-> He].
Qed.

Lemma search_all f w w' r : w_faults w = [] → (ssf_PageSize f <= 0)%Z → SearchSessions f w = (Ok r, w') →
  w' = w ∧ ssr_Sessions r ≡ₚ (hydrated (w_cache w) ∘ entity) <$> matching f (w_db w) ∧ Forall decodes (matching f (w_db w)) ∧
  ssr_TotalCount r = int32 (Z.of_nat (length (matching f (w_db w)))).
Proof.
  intros Hw Hs. unfold SearchSessions. destruct (Z.ltb_spec 0 (ssf_PageSize f)); [lia|].
  intros (es & w1 & Hl & Hr)%bind_inv_Ok. apply list_status in Hl as (-> & -> & Hok); [|done].
  rewrite (bind_Ok _ _ _ _ _ (hydrate_run _ _)) in Hr. injection Hr as <- <-. split; [done|]. simpl. rewrite length_fmap.
  rewrite (filter_match (ssf_HostID f)), (filter_match (ssf_GroupIDs f)), List_filter_filter, List_filter_fmap, length_fmap.
  change (λ a, _) with (λ r, keep_host f (entity r) && keep_group f (entity r)). unfold sessions_where in *.
  set (rows := rows_of (t_sessions (w_db w))) in *.
  assert (Forall (λ r, keep_status f r = true → decodes r) rows) as Hd.
  { apply List.Forall_forall. intros r Hr Hk. apply Forall_forall with (x := r) in Hok; [done|].
    rewrite order_by_Permutation. apply list_elem_of_In, List.filter_In. by split. }
  assert (List.filter (λ r, keep_host f (entity r) && keep_group f (entity r)) (order_by started_desc (List.filter (keep_status f) rows)) ≡ₚ
          matching f (w_db w)) as HP.
  { rewrite (List_filter_Permutation _ _ _ (order_by_Permutation started_desc _)), List_filter_filter. unfold matching. fold rows.
    erewrite List_filter_ext; [done| |exact Hd]. intros r Hr. by apply filter_row_split. }
  split; [|split; [|by rewrite HP]].
  - rewrite HP. by rewrite list_fmap_compose.
  - rewrite <-HP. by apply List_filter_Forall.
Qed.

(** One page, in the order of the statement. *)
Definition page_of_found (f : SearchSessionsFilter) (i s : Z) (d : DB) : list SessionRow :=
  take (Z.to_nat s) (drop (Z.to_nat (i * s)) (order_by started_desc_nulls_last (matching f d))).
Definition page_total (f : SearchSessionsFilter) (i s : Z) (d : DB) : Z :=
  if bool_decide (page_of_found f i s d = []) then 0%Z else int32 (Z.of_nat (length (matching f d))).

Lemma ListPaged_run f i s w : w_faults w = [] → (0 <= i)%Z → (0 < s)%Z → (i * s < 2 ^ 31)%Z → Forall decodes (matching f (w_db w)) →
  SessionRepo_ListPaged (mkSessionPageOptions (ssf_HostID f) (ssf_Status f) i s (ssf_GroupIDs f)) w =
  (Ok (mkSessionPageResult (entity <$> page_of_found f i s (w_db w)) (page_total f i s (w_db w))), w).
Proof.
  intros Hw Hi Hs Hb Hd. assert (int32 (i * s) = (i * s)%Z) as E. { unfold int32. rewrite Z.mod_small; lia. }
  unfold SessionRepo_ListPaged. simpl. rewrite E.
  set (p := mkListSessionsPaged _ _ _ _ _). set (all := order_by started_desc_nulls_last (matching f (w_db w))).
  assert (q_ListSessionsPaged p (w_now w) (w_db w) =
          Ok ((λ r, (r, Z.of_nat (length all))) <$> page_of_found f i s (w_db w))) as Hq.
  { unfold q_ListSessionsPaged, limit_offset. simpl. destruct (Z.ltb_spec s 0); [lia|]. destruct (Z.ltb_spec (i * s) 0); [lia|]. done. }
  pose proof (reads_run _ _ w (on_err_reads "session" _ _ (reads_query (q_ListSessionsPaged p))) Hw) as Hr. cbv beta in Hr. rewrite Hq in Hr.
  rewrite (bind_Ok _ _ _ _ _ Hr). rewrite <-list_fmap_compose. change (fst ∘ _) with (λ r : SessionRow, r). rewrite list_fmap_id.
  assert (Forall decodes (page_of_found f i s (w_db w))) as Hp.
  { apply Forall_take, Forall_drop. by rewrite order_by_Permutation. }
  unfold lift, bind. rewrite (Ok_entities _ Hp). unfold ret. do 3 f_equal. unfold page_total.
  assert (length all = length (matching f (w_db w))) as <- by (unfold all; by rewrite order_by_Permutation).
  by destruct (page_of_found f i s (w_db w)).
Qed.

Lemma search_page f i s w : w_faults w = [] → (0 <= i)%Z → (0 < s)%Z → (i * s < 2 ^ 31)%Z → Forall decodes (matching f (w_db w)) →
  SearchSessions (page_filter i s f) w =
    (Ok (mkSearchResult ((hydrated (w_cache w) ∘ entity) <$> page_of_found f i s (w_db w)) (page_total f i s (w_db w))), w).
Proof.
  intros Hw Hi Hs Hb Hd. unfold SearchSessions, page_filter. simpl. destruct (Z.ltb_spec 0 s); [|lia].
  rewrite (bind_Ok _ _ _ _ _ (ListPaged_run f i s w Hw Hi Hs Hb Hd)), (bind_Ok _ _ _ _ _ (hydrate_run _ _)). simpl.
  by rewrite list_fmap_compose.
Qed.
End Search.

(** C19. Both ways to search agree: with the same filter, the pages of the SQL
    way together hold exactly the sessions the way in memory answers, each
    once and with the same snapshot of the cache, as long as the pages reach
    far enough and their offsets fit in 32 bits; every page that is not empty
    carries the same total. *)
Theorem search_paths_agree (SP : StartupParameters) (f : SearchSessionsFilter) (w w' : World) (r : SearchSessionsResult) (s : Z) (k : nat) :
  w_faults w = [] → (ssf_PageSize f <= 0)%Z → SearchSessions f w = (Ok r, w') →
  (0 < s)%Z → (Z.of_nat k * s < 2 ^ 31)%Z → (Z.of_nat (length (ssr_Sessions r)) <= Z.of_nat k * s)%Z →
  ∃ pages : list SearchSessionsResult,
    length pages = k ∧
    (∀ i p, pages !! i = Some p → SearchSessions (page_filter (Z.of_nat i) s f) w = (Ok p, w) ∧
       (ssr_Sessions p = [] ∨ ssr_TotalCount p = ssr_TotalCount r)) ∧
    concat (ssr_Sessions <$> pages) ≡ₚ ssr_Sessions r.
Proof.
  intros Hw Hf Hr Hs Hk Hl. apply search_all in Hr as (-> & Hperm & Hd & Ht); [|done..].
  set (page i := mkSearchResult ((hydrated (w_cache w) ∘ entity) <$> page_of_found f i s (w_db w)) (page_total f i s (w_db w))).
  exists ((λ i, page (Z.of_nat i)) <$> seq 0 k). split; [by rewrite length_fmap, length_seq|]. split.
  - intros i p (j & -> & [-> Hj]%lookup_seq)%list_lookup_fmap_Some. simpl. split; [apply search_page; [done|lia|done|nia|done]|].
    rewrite Ht. unfold page_total. case_bool_decide as He; [left; by rewrite He|by right].
  - rewrite Hperm, <-list_fmap_compose.
    rewrite (list_fmap_ext _ (λ i, (hydrated (w_cache w) ∘ entity) <$> take (Z.to_nat s) (drop (i * Z.to_nat s) (order_by started_desc_nulls_last (matching f (w_db w))))) (seq 0 k)).
    2: { intros _ i _. simpl. unfold page_of_found. by rewrite Z2Nat.inj_mul, Nat2Z.id by lia. }
    rewrite concat_fmap, pages_take, take_ge; [by rewrite order_by_Permutation|].
    rewrite order_by_Permutation. assert (length (ssr_Sessions r) = length (matching f (w_db w))) as E by (by rewrite Hperm, length_fmap). lia.
Qed.

(** ** A world with three sessions *)

#[local] Existing Instance raw_parameters.

Definition stored_session (id group host : string) (status : Z) (startedAt : option Instant) : SessionRow :=
  mkSessionRow id id status startedAt None None host (JObj []) 1 false None None None group.
Definition three_sessions : World :=
  with_cache (Cache_Set "h1" "s2" (Some session_zero) NewMemoryCache)
    (with_db (set_sessions (λ _, <["s1" := stored_session "s1" "g" "h1" 2 None]> (<["s2" := stored_session "s2" "g" "h1" 2 (Some 5%Z)]>
       (<["s3" := stored_session "s3" "other" "h1" 2 (Some 7%Z)]> (<["s4" := stored_session "s4" "g" "h1" 2 (Some 9%Z)]> ∅)))) (w_db fresh_world)) fresh_world).
Definition in_group_g : SearchSessionsFilter := mkSearchFilter (Some "h1") (Some SessionStatus_RUNNING) 0 0 (Some ["g"]).

Lemma search_paths_agree_witness :
  match SearchSessions in_group_g three_sessions with
  | (Ok r, _) =>
      Session_ID <$> ssr_Sessions r = ["s1"; "s4"; "s2"] ∧
      ∃ pages : list SearchSessionsResult,
        length pages = 2%nat ∧
        (∀ i p, pages !! i = Some p → SearchSessions (page_filter (Z.of_nat i) 2 in_group_g) three_sessions = (Ok p, three_sessions) ∧
           (ssr_Sessions p = [] ∨ ssr_TotalCount p = ssr_TotalCount r)) ∧
        concat (ssr_Sessions <$> pages) ≡ₚ ssr_Sessions r
  | (Fail _, _) => False
  end.
Proof.
  assert (match SearchSessions in_group_g three_sessions with
          | (Ok r, _) => bool_decide (Session_ID <$> ssr_Sessions r = ["s1"; "s4"; "s2"]) | (Fail _, _) => false end = true) as H by (vm_compute; reflexivity).
  destruct (SearchSessions in_group_g three_sessions) as [[r|e] w'] eqn:E; [|discriminate H]. apply bool_decide_eq_true in H. split; [exact H|].
  assert (length (ssr_Sessions r) = 3%nat) as Hl by (rewrite <-(length_fmap Session_ID), H; reflexivity).
  apply (search_paths_agree _ in_group_g three_sessions w' r 2 2); [reflexivity|discriminate|exact E|lia|lia|rewrite Hl; lia].
Defined.
