(* ===== verification/Slots.v ===== *)
(** * A batch on a bounded number of goroutines

    The loop of [dispatchOnce] in [src/worker/scheduled_operation_executor.go]
    and [src/worker/async_job_executor.go]: each item of a claimed batch waits
    for a slot of the semaphore and then runs in a goroutine of its own, which
    gives the slot back when it ends. *)

From S2P Require Import Prelude Entity.
From stdpp Require Import base list.
From Stdlib Require Import ZArith Lia.
#[local] Open Scope Z_scope.

(** When each slot is free, in order; the first one is taken next. *)
Fixpoint insert_time (t : Z) (slots : list Z) : list Z :=
  match slots with
  | [] => [t]
  | s :: slots' => if t <=? s then t :: slots else s :: insert_time t slots'
  end.

(** When the items end, given how long each takes. *)
Fixpoint run_batch (slots : list Z) (durations : list Z) : list Z :=
  match slots, durations with
  | s :: slots', d :: durations' => s + d :: run_batch (insert_time (s + d) slots') durations'
  | _, _ => []
  end.

(** [sem := make(chan struct{}, concurrency)]: all slots are free at [start]. *)
Definition finish_times (start : Z) (concurrency : nat) (durations : list Z) : list Z :=
  run_batch (repeat start concurrency) durations.

(** ** How long a batch can take *)

Definition later (x : Z) (slots : list Z) : Z := Z.of_nat (length (List.filter (λ s, x <? s) slots)).
Definition ordered (slots : list Z) : Prop := Sorted.StronglySorted Z.le slots.

Lemma later_insert x t slots : later x (insert_time t slots) = later x slots + (if x <? t then 1 else 0).
Proof.
  unfold later. induction slots as [|s slots IH]; simpl; [by destruct (x <? t)|].
  destruct (t <=? s); simpl; destruct (x <? t), (x <? s); simpl in *; lia.
Qed.

Lemma insert_time_length t slots : length (insert_time t slots) = S (length slots).
Proof. induction slots as [|s slots IH]; simpl; [done|]. destruct (t <=? s); simpl; lia. Qed.

Lemma insert_time_Forall (P : Z → Prop) t slots : P t → Forall P slots → Forall P (insert_time t slots).
Proof. intros Ht. induction 1; simpl; [by constructor|]. destruct (t <=? x); repeat constructor; auto. Qed.

Lemma insert_time_ordered t slots : ordered slots → ordered (insert_time t slots).
Proof.
  induction 1 as [|s slots Hs IH Hf]; simpl; [repeat constructor|].
  destruct (Z.leb_spec t s).
  - constructor; [by constructor|]. constructor; [done|]. eapply Forall_impl; [exact Hf|]. simpl. lia.
  - constructor; [done|]. apply insert_time_Forall; [lia|done].
Qed.

(** After [j] items, at most [j - m * c] slots are busy beyond [m] rounds. *)
Definition rounds_ok (start T : Z) (c : nat) (j : Z) (slots : list Z) : Prop :=
  ordered slots ∧ length slots = c ∧ ∀ m, 0 <= m → later (start + m * T) slots <= Z.max 0 (j - m * Z.of_nat c).

Lemma later_all x slots s : ordered (s :: slots) → x < s → later x (s :: slots) = Z.of_nat (S (length slots)).
Proof.
  intros H Hx. apply Sorted.StronglySorted_inv in H as [_ Hf]. unfold later. simpl. rewrite (proj2 (Z.ltb_lt x s)) by done. simpl.
  do 2 f_equal. induction Hf as [|y l Hy _ IH]; simpl; [done|]. rewrite (proj2 (Z.ltb_lt x y)) by lia. simpl. by rewrite IH.
Qed.

Lemma start_bound start T c j s slots : 0 <= j → 0 <= T →
  rounds_ok start T c j (s :: slots) → s <= start + (j / Z.of_nat c) * T.
Proof.
  intros Hj HT (Ho & Hl & Hr). assert (0 < Z.of_nat c) as Hc by (simpl in Hl; lia).
  destruct (Z.le_gt_cases s (start + j / Z.of_nat c * T)) as [?|Hgt]; [done|exfalso].
  specialize (Hr (j / Z.of_nat c) ltac:(apply Z.div_pos; lia)). rewrite (later_all _ _ s Ho) in Hr by lia.
  simpl in Hl. rewrite Hl in Hr. pose proof (Z.div_mod j (Z.of_nat c)). pose proof (Z.mod_pos_bound j (Z.of_nat c)). lia.
Qed.

Lemma rounds_step start T c j s d slots : 0 <= j → 0 <= d <= T →
  rounds_ok start T c j (s :: slots) → rounds_ok start T c (j + 1) (insert_time (s + d) slots).
Proof.
  intros Hj Hd (Ho & Hl & Hr). pose proof (Sorted.StronglySorted_inv Ho) as [Ho' _].
  split; [by apply insert_time_ordered|]. split; [by rewrite insert_time_length|].
  intros m Hm. rewrite later_insert. pose proof (Hr m Hm) as Hrm.
  assert (later (start + m * T) slots <= later (start + m * T) (s :: slots)) as Hle.
  { unfold later. simpl. destruct (_ <? s); simpl; lia. }
  destruct (Z.ltb_spec (start + m * T) (s + d)) as [Hlt|_]; [|lia].
  destruct (decide (m = 0)) as [->|Hm0]; [lia|].
  assert (start + (m - 1) * T < s) as Hs by lia.
  pose proof (Hr (m - 1) ltac:(lia)) as Hr1. rewrite (later_all _ _ s Ho) in Hr1 by lia. simpl in Hl. rewrite Hl in Hr1. lia.
Qed.

Lemma run_batch_bound start T c durations j slots : 0 <= j → 0 <= T → Forall (λ d, 0 <= d <= T) durations →
  rounds_ok start T c j slots →
  ∀ k e, run_batch slots durations !! k = Some e → e <= start + ((j + Z.of_nat k) / Z.of_nat c + 1) * T.
Proof.
  intros Hj HT Hd. revert j slots Hj. induction Hd as [|d durations Hd _ IH]; intros j slots Hj Hr k e; [by destruct slots|].
  destruct slots as [|s slots]; [done|]. simpl. destruct k as [|k]; simpl.
  - intros [= <-]. pose proof (start_bound _ _ _ _ _ _ Hj HT Hr). rewrite Z.add_0_r. lia.
  - intros He. pose proof (IH (j + 1) _ ltac:(lia) (rounds_step _ _ _ _ _ _ _ Hj Hd Hr) k e He) as H.
    replace (j + Z.of_nat (S k)) with (j + 1 + Z.of_nat k) by lia. done.
Qed.

(** Item [k] ends within [k / concurrency + 1] times the longest duration. *)
Lemma finish_times_bound start T c durations k e : 0 <= T → Forall (λ d, 0 <= d <= T) durations →
  finish_times start c durations !! k = Some e → e <= start + (Z.of_nat k / Z.of_nat c + 1) * T.
Proof.
  intros HT Hd H. eapply run_batch_bound with (j := 0); [done|exact HT|exact Hd| |exact H].
  assert (∀ n, ordered (repeat start n)) as Ho.
  { induction n; simpl; constructor; [done|]. apply Forall_forall. intros x Hx%list_elem_of_In%repeat_spec. lia. }
  split; [apply Ho|]. split; [apply repeat_length|]. intros m Hm. unfold later.
  assert (List.filter (λ s, start + m * T <? s) (repeat start c) = []) as ->; [|simpl; lia].
  clear H. induction c as [|c IH]; simpl; [done|]. rewrite (proj2 (Z.ltb_ge (start + m * T) start)) by lia. exact IH.
Qed.
