(* ===== verification/ScheduledOps.v ===== *)
(** * Scheduled operations: actions and triggers

    [src/domain/entity/scheduled_session_operation.go] and the package
    [src/usecase/scheduled_op] with its [actions] and [triggers]: what an
    operation does when it fires, when it fires, how both are stored, and the
    registries that decode them. *)

From S2P Require Import Prelude Entity Rfc3339 Json Digest Models Queries Ports Headless Resources SessionRepo.
From stdpp Require Import base gmap strings list.
From Stdlib Require Import ZArith Lia.

(** ** Entity *)

Definition ScheduledOperationType_UNKNOWN : Z := 0.
Definition ScheduledOperationType_START_SESSION : Z := 1.
Definition ScheduledOperationType_STOP_SESSION : Z := 2.
Definition ScheduledOperationType_UPDATE_PARAMETERS : Z := 3.
Definition ScheduledOperationType_UPDATE_EXTRA_SETTINGS : Z := 4.

Definition ScheduledTriggerType_TIME : Z := 1.
Definition ScheduledTriggerType_SESSION_USER_COUNT : Z := 2.

Definition ScheduledOperationStatus_PENDING : Z := 0.
Definition ScheduledOperationStatus_RUNNING : Z := 1.
Definition ScheduledOperationStatus_SUCCEEDED : Z := 2.
Definition ScheduledOperationStatus_FAILED : Z := 3.
Definition ScheduledOperationStatus_CANCELED : Z := 4.

Record ScheduledSessionOperation : Type := mkScheduledOp {
  op_ID : string; op_OperationType : Z; op_OperationPayload : Json; op_TriggerType : Z; op_TriggerConfig : Json;
  op_NextFireAt : Instant; op_HostID : option string; op_SessionID : option string; op_Status : Z;
  op_LastError : option string; op_ClaimedBy : option string; op_ClaimedAt : option Instant;
  op_ExecutedAt : option Instant; op_CreatedBy : option string; op_CreatedAt : Instant; op_UpdatedAt : Instant }.

(** ** What actions and triggers call *)

Section ScheduledOps.
Context `{SP : StartupParameters}.

(** [scheduled_op.SessionOperator] *)
Class SessionOperator : Type := {
  StartSession : Ctx → string → string → option string → WorldStartupParameters → option string → Go Session;
  StopSession : Ctx → string → Go unit;
  UpdateSessionParameters : Ctx → string → UpdateSessionParametersRequest → Go unit;
  UpdateSessionExtraSettings : Ctx → string → option bool → option string → Go unit }.

(** The dependencies of an evaluation; each may be nil. *)
Record TriggerEvalDeps : Type := mkTriggerEvalDeps {
  ted_Now : option (Go Instant);
  ted_SessionRepo : option (string → Go Session);
  ted_StateCache : option (string → Go (option HeadlessSession)) }.

Definition no_deps : TriggerEvalDeps := mkTriggerEvalDeps None None None.

(** ** Actions *)

Inductive Action : Type :=
  | StartSessionAction (HostID GroupID : string) (UserID Memo : option string) (StartupParamsJSON : option Json)
  | StopSessionAction (SessionID : string)
  | UpdateParametersAction (SessionID : string) (ParamsJSON : option Json)
  | UpdateExtraSettingsAction (SessionID : string) (AutoUpgrade : option bool) (Memo : option string).

Definition Action_Type (a : Action) : Z :=
  match a with
  | StartSessionAction _ _ _ _ _ => ScheduledOperationType_START_SESSION
  | StopSessionAction _ => ScheduledOperationType_STOP_SESSION
  | UpdateParametersAction _ _ => ScheduledOperationType_UPDATE_PARAMETERS
  | UpdateExtraSettingsAction _ _ _ => ScheduledOperationType_UPDATE_EXTRA_SETTINGS
  end.

Definition StartSessionAction_Execute `{SessionOperator} (ctx : Ctx) (host group : string) (user memo : option string) (params : option Json)
  : Go unit :=
  let* params := match params with
                 | None => ret startup_zero
                 | Some j => on_err (EWrap "decode startup parameters") (lift (protojson_Unmarshal j))
                 end in
  StartSession ctx host group user params memo ;;; ret tt.
Definition StopSessionAction_Execute `{SessionOperator} (ctx : Ctx) (sid : string) : Go unit := StopSession ctx sid.
Definition UpdateParametersAction_Execute `{SessionOperator} (ctx : Ctx) (sid : string) (params : option Json) : Go unit :=
  let* req := on_err (EWrap "decode update parameters request")
                (lift match params with Some j => protojson_Unmarshal j | None => Fail (EMsg "proto: unexpected end of input") end) in
  UpdateSessionParameters ctx sid (set_update_SessionId sid req).
Definition UpdateExtraSettingsAction_Execute `{SessionOperator} (ctx : Ctx) (sid : string) (auto : option bool) (memo : option string)
  : Go unit := UpdateSessionExtraSettings ctx sid auto memo.

Definition Action_Execute `{SessionOperator} (ctx : Ctx) (a : Action) : Go unit :=
  match a with
  | StartSessionAction host group user memo params => StartSessionAction_Execute ctx host group user memo params
  | StopSessionAction sid => StopSessionAction_Execute ctx sid
  | UpdateParametersAction sid params => UpdateParametersAction_Execute ctx sid params
  | UpdateExtraSettingsAction sid auto memo => UpdateExtraSettingsAction_Execute ctx sid auto memo
  end.

Definition StartSessionAction_Marshal (host group : string) (user memo : option string) (params : option Json) : Json :=
  JObj (str_member "host_id" host ++ str_member "group_id" group ++ opt_member JStr "user_id" user ++
        opt_member JStr "memo" memo ++ raw_member "startup_parameters" params).
Definition StopSessionAction_Marshal (sid : string) : Json := JObj (str_member "session_id" sid).
Definition UpdateParametersAction_Marshal (sid : string) (params : option Json) : Json :=
  JObj (str_member "session_id" sid ++ raw_member "params" params).
Definition UpdateExtraSettingsAction_Marshal (sid : string) (auto : option bool) (memo : option string) : Json :=
  JObj (str_member "session_id" sid ++ opt_member JBool "auto_upgrade" auto ++ opt_member JStr "memo" memo).

Definition Action_Marshal (a : Action) : Json :=
  match a with
  | StartSessionAction host group user memo params => StartSessionAction_Marshal host group user memo params
  | StopSessionAction sid => StopSessionAction_Marshal sid
  | UpdateParametersAction sid params => UpdateParametersAction_Marshal sid params
  | UpdateExtraSettingsAction sid auto memo => UpdateExtraSettingsAction_Marshal sid auto memo
  end.

Definition decodeStartSession (payload : Json) : Result Action :=
  rbind (map_err (EWrap "start session action")
    (rbind (json_members payload) (λ ms,
     rbind (decode_field set_string EmptyString "host_id" ms) (λ host,
     rbind (decode_field set_string EmptyString "group_id" ms) (λ group,
     rbind (decode_field (set_ptr EmptyString set_string) None "user_id" ms) (λ user,
     rbind (decode_field (set_ptr EmptyString set_string) None "memo" ms) (λ memo,
     rbind (decode_field set_raw None "startup_parameters" ms) (λ params,
     Ok (host, StartSessionAction host group user memo params))))))))) (λ r,
  if bool_decide (fst r = EmptyString) then Fail (EMsg "start session action: host_id is required") else Ok (snd r)).

Definition decodeStopSession (payload : Json) : Result Action :=
  rbind (map_err (EWrap "stop session action")
    (rbind (json_members payload) (λ ms, decode_field set_string EmptyString "session_id" ms))) (λ sid,
  if bool_decide (sid = EmptyString) then Fail (EMsg "stop session action: session_id is required")
  else Ok (StopSessionAction sid)).

Definition decodeUpdateParameters (payload : Json) : Result Action :=
  rbind (map_err (EWrap "update parameters action")
    (rbind (json_members payload) (λ ms,
     rbind (decode_field set_string EmptyString "session_id" ms) (λ sid,
     rbind (decode_field set_raw None "params" ms) (λ params, Ok (sid, params)))))) (λ r,
  if bool_decide (fst r = EmptyString) then Fail (EMsg "update parameters action: session_id is required")
  else Ok (UpdateParametersAction (fst r) (snd r))).

Definition decodeUpdateExtra (payload : Json) : Result Action :=
  rbind (map_err (EWrap "update extra settings action")
    (rbind (json_members payload) (λ ms,
     rbind (decode_field set_string EmptyString "session_id" ms) (λ sid,
     rbind (decode_field (set_ptr false set_bool) None "auto_upgrade" ms) (λ auto,
     rbind (decode_field (set_ptr EmptyString set_string) None "memo" ms) (λ memo, Ok (sid, auto, memo))))))) (λ r,
  let '(sid, auto, memo) := r in
  if bool_decide (sid = EmptyString) then Fail (EMsg "update extra settings action: session_id is required")
  else if bool_decide (auto = None) && bool_decide (memo = None)
  then Fail (EMsg "update extra settings action: at least one field is required")
  else Ok (UpdateExtraSettingsAction sid auto memo)).

(** ** Triggers *)

Definition SessionUserCountComparator_LESS_OR_EQUAL : Z := 1.
Definition SessionUserCountComparator_GREATER_OR_EQUAL : Z := 2.
Definition sessionUserCountMissBackoff : Z := time_Minute.

Inductive Trigger : Type :=
  | TimeTrigger (ScheduledAt : Instant)
  | SessionUserCountTrigger (SessionID : string) (Comparator Threshold : Z).

Definition Trigger_Type (t : Trigger) : Z :=
  match t with
  | TimeTrigger _ => ScheduledTriggerType_TIME
  | SessionUserCountTrigger _ _ _ => ScheduledTriggerType_SESSION_USER_COUNT
  end.

(** whether it fires, and otherwise when to look again; the zero time is
    "at the next opportunity" *)
Definition TimeTrigger_Evaluate (at_ : Instant) (deps : TriggerEvalDeps) : Go (bool * Instant) :=
  let* now := gets w_now in
  let* now := match ted_Now deps with Some f => f | None => ret now end in
  if (now <? at_)%Z then ret (false, at_) else ret (true, time_Time_zero).

Definition SessionUserCount_Evaluate (sid : string) (comparator threshold : Z) (deps : TriggerEvalDeps) : Go (bool * Instant) :=
  match ted_StateCache deps with
  | None => ret (false, time_Time_zero)
  | Some cache =>
      let* snapshot := cache sid in
      match snapshot with
      | None =>
          let* ended := match ted_SessionRepo deps with
                        | Some get => let* s := attempt (get sid) in
                                      ret match s with Ok s => bool_decide (Session_Status s = SessionStatus_ENDED) | Fail _ => false end
                        | None => ret false
                        end in
          if ended : bool then fail (EMsg ("session " +:+ sid +:+ " has ended; trigger will never fire"))
          else let* now := gets w_now in ret (false, (now + sessionUserCountMissBackoff)%Z)
      | Some s =>
          let count := hs_UsersCount s in
          if (comparator =? SessionUserCountComparator_LESS_OR_EQUAL)%Z then
            if (count <=? threshold)%Z then ret (true, time_Time_zero) else ret (false, time_Time_zero)
          else if (comparator =? SessionUserCountComparator_GREATER_OR_EQUAL)%Z then
            if (threshold <=? count)%Z then ret (true, time_Time_zero) else ret (false, time_Time_zero)
          else fail (EMsg ("session_user_count trigger: invalid comparator " +:+ fmt_d comparator))
      end
  end.

Definition Trigger_Evaluate (t : Trigger) (deps : TriggerEvalDeps) : Go (bool * Instant) :=
  match t with
  | TimeTrigger at_ => TimeTrigger_Evaluate at_ deps
  | SessionUserCountTrigger sid c n => SessionUserCount_Evaluate sid c n deps
  end.

Definition TimeTrigger_Marshal (at_ : Instant) : Result Json :=
  match Time_MarshalJSON at_ with
  | Some s => Ok (JObj (str_member "scheduled_at" s))
  | None => Fail (EMsg "Time.MarshalJSON: year outside of range [0,9999]")
  end.
Definition SessionUserCountTrigger_Marshal (sid : string) (c n : Z) : Result Json :=
  Ok (JObj (str_member "session_id" sid ++ int_member "comparator" c ++ int_member "threshold" n)).
Definition Trigger_Marshal (t : Trigger) : Result Json :=
  match t with
  | TimeTrigger at_ => TimeTrigger_Marshal at_
  | SessionUserCountTrigger sid c n => SessionUserCountTrigger_Marshal sid c n
  end.

Definition decodeTimeTrigger (cfg : Json) : Result Trigger :=
  rbind (map_err (EWrap "time trigger")
    (rbind (json_members cfg) (λ ms, decode_field set_time time_Time_zero "scheduled_at" ms))) (λ at_,
  if bool_decide (at_ = time_Time_zero) then Fail (EMsg "time trigger: scheduled_at is required") else Ok (TimeTrigger at_)).

Definition decodeSessionUserCountTrigger (cfg : Json) : Result Trigger :=
  rbind (map_err (EWrap "session_user_count trigger")
    (rbind (json_members cfg) (λ ms,
     rbind (decode_field set_string EmptyString "session_id" ms) (λ sid,
     rbind (decode_field set_int32 0%Z "comparator" ms) (λ c,
     rbind (decode_field set_int32 0%Z "threshold" ms) (λ n, Ok (sid, c, n))))))) (λ r,
  let '(sid, c, n) := r in
  if bool_decide (sid = EmptyString) then Fail (EMsg "session_user_count trigger: session_id is required")
  else if negb (bool_decide (c ∈ [SessionUserCountComparator_LESS_OR_EQUAL; SessionUserCountComparator_GREATER_OR_EQUAL]))
  then Fail (EMsg ("session_user_count trigger: invalid comparator " +:+ fmt_d c))
  else if (n <? 0)%Z then Fail (EMsg "session_user_count trigger: threshold must be >= 0")
  else Ok (SessionUserCountTrigger sid c n)).

(** ** Registries

    A registration panics ([None]) when its type is taken; the registrations
    are those of the [init] functions. *)

Definition register {F} (t : Z) (f : F) (r : option (gmap Z F)) : option (gmap Z F) :=
  match r with Some m => match m !! t with Some _ => None | None => Some (<[t := f]> m) end | None => None end.

Definition RegisterAction := register (F := Json → Result Action).
Definition RegisterTrigger := register (F := Json → Result Trigger).

Definition init_actions : option (gmap Z (Json → Result Action)) :=
  RegisterAction ScheduledOperationType_UPDATE_PARAMETERS decodeUpdateParameters
  (RegisterAction ScheduledOperationType_UPDATE_EXTRA_SETTINGS decodeUpdateExtra
  (RegisterAction ScheduledOperationType_STOP_SESSION decodeStopSession
  (RegisterAction ScheduledOperationType_START_SESSION decodeStartSession (Some ∅)))).
Definition init_triggers : option (gmap Z (Json → Result Trigger)) :=
  RegisterTrigger ScheduledTriggerType_TIME decodeTimeTrigger
  (RegisterTrigger ScheduledTriggerType_SESSION_USER_COUNT decodeSessionUserCountTrigger (Some ∅)).

Definition actionRegistry : gmap Z (Json → Result Action) := default ∅ init_actions.
Definition triggerRegistry : gmap Z (Json → Result Trigger) := default ∅ init_triggers.

Definition DecodeAction (t : Z) (payload : Json) : Result Action :=
  match actionRegistry !! t with Some f => f payload | None => Fail (EMsg ("unknown action type: " +:+ fmt_d t)) end.
Definition DecodeTrigger (t : Z) (cfg : Json) : Result Trigger :=
  match triggerRegistry !! t with Some f => f cfg | None => Fail (EMsg ("unknown trigger type: " +:+ fmt_d t)) end.

Lemma registration_succeeds : is_Some init_actions ∧ is_Some init_triggers.
Proof. split; by eexists. Qed.

(** ** Reading what was stored *)

(** The actions and triggers a request can schedule. *)
Definition action_ok (a : Action) : Prop :=
  match a with
  | StartSessionAction host _ _ _ params => host ≠ EmptyString ∧ is_Some params
  | StopSessionAction sid => sid ≠ EmptyString
  | UpdateParametersAction sid params => sid ≠ EmptyString ∧ is_Some params
  | UpdateExtraSettingsAction sid auto memo => sid ≠ EmptyString ∧ (is_Some auto ∨ is_Some memo)
  end.

Definition trigger_ok (t : Trigger) : Prop :=
  match t with
  | TimeTrigger at_ => at_ ≠ time_Time_zero
  | SessionUserCountTrigger sid c n =>
      sid ≠ EmptyString ∧ (c = SessionUserCountComparator_LESS_OR_EQUAL ∨ c = SessionUserCountComparator_GREATER_OR_EQUAL) ∧
      (0 <= n < 2 ^ 31)%Z
  end.
End ScheduledOps.
