(* ===== verification/ScheduledRepo.v ===== *)
(** * Scheduled operations: statements and repository

    [src/db/scheduled_session_operations.sql.go] on the table of its
    migration, and [src/adapter/scheduled_session_operation_repository.go].
    Timestamps are stored in microseconds. *)

From S2P Require Import Prelude Entity Json Digest Models Queries Ports Repositories Headless Resources Claims ScheduledOps.
From stdpp Require Import base gmap strings list sorting.
From Stdlib Require Import ZArith Lia.

(** ** Statements *)

(** An UPDATE of the columns the statements touch; the trigger
    update_scheduled_session_operations_modtime sets updated_at. *)
Definition so_update (now : Instant) (status : Z) (lastError claimedBy : option string) (claimedAt executedAt nextFireAt : option Instant)
    (r : ScheduledOpRow) : ScheduledOpRow :=
  mkScheduledOpRow (so_ID r) (so_OperationType r) (so_OperationPayload r) (so_TriggerType r) (so_TriggerConfig r) nextFireAt
    (so_HostID r) (so_SessionID r) status lastError claimedBy claimedAt executedAt (so_CreatedBy r) (so_CreatedAt r) (Some now).

Definition has_status (s : Z) (r : ScheduledOpRow) : bool := (so_Status r =? s)%Z.

Record CreateOpParams : Type := mkCreateOpParams {
  cop_OperationType : Z; cop_OperationPayload : Json; cop_TriggerType : Z; cop_TriggerConfig : Json;
  cop_NextFireAt : Instant; cop_HostID : option string; cop_SessionID : option string; cop_CreatedBy : option string }.

Definition new_op_row (id : UUID) (p : CreateOpParams) (now : Instant) : ScheduledOpRow :=
  mkScheduledOpRow (Some id) (cop_OperationType p) (cop_OperationPayload p) (cop_TriggerType p) (cop_TriggerConfig p)
    (Some (to_microseconds (cop_NextFireAt p))) (cop_HostID p) (cop_SessionID p) 0 None None None None (cop_CreatedBy p) (Some now) (Some now).

Definition x_CreateScheduledSessionOperation (id : UUID) (p : CreateOpParams) (now : Instant) (d : DB) : Result (ScheduledOpRow * DB) :=
  check (negb (present id (t_scheduled_ops d))) "scheduled_session_operations_pkey" >>>
  let r := new_op_row id p now in Ok (r, set_scheduled_ops (<[id := r]>) d).
(** the column default draws the id *)
Definition CreateScheduledSessionOperation (p : CreateOpParams) : Go ScheduledOpRow :=
  let* id := gen_random_uuid in exec (x_CreateScheduledSessionOperation id p).

Definition q_GetScheduledSessionOperation (id : UUID) (_ : Instant) (d : DB) : Result ScheduledOpRow :=
  row_or_ErrNoRows (t_scheduled_ops d !! id).
Definition GetScheduledSessionOperation id : Go ScheduledOpRow := query (q_GetScheduledSessionOperation id).

Record ListOpsParams : Type := mkListOpsParams {
  lop_SessionID : option string; lop_HostID : option string; lop_Status : option Z; lop_PageOffset : Z; lop_PageSize : Z }.

Definition op_matches (p : ListOpsParams) (r : ScheduledOpRow) : bool :=
  unless_given (lop_SessionID p) (so_SessionID r) && unless_given (lop_HostID p) (so_HostID r) && unless_given (lop_Status p) (Some (so_Status r)).
(** the order of the type uuid: byte by byte *)
Fixpoint uuid_leb (a b : UUID) : bool :=
  match a, b with
  | [], _ => true
  | _ :: _, [] => false
  | x :: a', y :: b' => (x <? y)%Z || ((x =? y)%Z && uuid_leb a' b')
  end.
(** [ORDER BY next_fire_at ASC, id ASC]; a NULL is last. *)
Definition fires_before (a b : ScheduledOpRow) : bool :=
  let tie := uuid_leb (default [] (so_ID a)) (default [] (so_ID b)) in
  match so_NextFireAt a, so_NextFireAt b with
  | Some x, Some y => (x <? y)%Z || ((x =? y)%Z && tie)
  | Some _, None => true
  | None, Some _ => false
  | None, None => tie
  end.
Definition matching_ops (p : ListOpsParams) (d : DB) : list ScheduledOpRow :=
  order_by fires_before (List.filter (op_matches p) (rows_of (t_scheduled_ops d))).

Definition q_ListScheduledSessionOperations (p : ListOpsParams) (_ : Instant) (d : DB) : Result (list (ScheduledOpRow * Z)) :=
  limit_offset (lop_PageSize p) (lop_PageOffset p) (matching_ops p d).
Definition ListScheduledSessionOperations p : Go (list (ScheduledOpRow * Z)) := query (q_ListScheduledSessionOperations p).

Definition op_due (now : Instant) (r : ScheduledOpRow) : bool :=
  has_status 0 r && match so_NextFireAt r with Some t => (t <=? now)%Z | None => false end.
Definition op_claim (instance : string) (now : Instant) (r : ScheduledOpRow) : ScheduledOpRow :=
  so_update now 1 (so_LastError r) (Some instance) (Some now) (so_ExecutedAt r) (so_NextFireAt r) r.

Definition x_ClaimDueScheduledSessionOperations (instance : string) (batch : Z) (now : Instant) (d : DB) : Result (list ScheduledOpRow * DB) :=
  if (batch <? 0)%Z then Fail (EConstraint "LIMIT must not be negative")
  else let rows := chosen (op_due now) (λ r, ts (so_NextFireAt r)) batch (t_scheduled_ops d) in
       Ok (op_claim instance now <$> rows.*2, set_scheduled_ops (update_rows (rows.*1) (op_claim instance now)) d).
Definition ClaimDueScheduledSessionOperations instance batch : Go (list ScheduledOpRow) :=
  exec (x_ClaimDueScheduledSessionOperations instance batch).

(** The single-row updates answer how many rows they changed. *)
Definition so_update_one (id : UUID) (status : Z) (f : ScheduledOpRow → ScheduledOpRow) (d : DB) : Result (Z * DB) :=
  let (n, t) := update_one id (has_status status) f (t_scheduled_ops d) in Ok (n, set_scheduled_ops (λ _, t) d).

Definition op_cancel (now : Instant) (r : ScheduledOpRow) : ScheduledOpRow :=
  so_update now 4 (so_LastError r) (so_ClaimedBy r) (so_ClaimedAt r) (so_ExecutedAt r) (so_NextFireAt r) r.
Definition x_CancelScheduledSessionOperation (id : UUID) (now : Instant) (d : DB) : Result (Z * DB) := so_update_one id 0 (op_cancel now) d.
Definition CancelScheduledSessionOperation id : Go Z := exec (x_CancelScheduledSessionOperation id).

Definition op_succeed (now : Instant) (r : ScheduledOpRow) : ScheduledOpRow := so_update now 2 None None None (Some now) (so_NextFireAt r) r.
Definition x_MarkScheduledSessionOperationSucceeded (id : UUID) (now : Instant) (d : DB) : Result (Z * DB) := so_update_one id 1 (op_succeed now) d.
Definition MarkScheduledSessionOperationSucceeded id : Go Z := exec (x_MarkScheduledSessionOperationSucceeded id).

Definition op_fail (msg : string) (now : Instant) (r : ScheduledOpRow) : ScheduledOpRow :=
  so_update now 3 (Some msg) None None (Some now) (so_NextFireAt r) r.
Definition x_MarkScheduledSessionOperationFailed (id : UUID) (msg : string) (now : Instant) (d : DB) : Result (Z * DB) :=
  so_update_one id 1 (op_fail msg now) d.
Definition MarkScheduledSessionOperationFailed id msg : Go Z := exec (x_MarkScheduledSessionOperationFailed id msg).

Definition op_requeue (at_ : Instant) (now : Instant) (r : ScheduledOpRow) : ScheduledOpRow :=
  so_update now 0 (so_LastError r) None None (so_ExecutedAt r) (Some (to_microseconds at_)) r.
Definition x_RequeueScheduledSessionOperation (id : UUID) (at_ : Instant) (now : Instant) (d : DB) : Result (Z * DB) :=
  so_update_one id 1 (op_requeue at_ now) d.
Definition RequeueScheduledSessionOperation id at_ : Go Z := exec (x_RequeueScheduledSessionOperation id at_).

Definition op_stale (secs : Z) (now : Instant) (r : ScheduledOpRow) : bool :=
  has_status 1 r && match so_ClaimedAt r with Some t => (t <? now - secs * time_Second)%Z | None => false end.
Definition op_release (now : Instant) (r : ScheduledOpRow) : ScheduledOpRow :=
  so_update now 0 (so_LastError r) None None (so_ExecutedAt r) (so_NextFireAt r) r.
Definition x_ReleaseStaleScheduledSessionOperationClaims (secs : Z) (now : Instant) (d : DB) : Result (Z * DB) :=
  Ok (count_where (op_stale secs now) (t_scheduled_ops d),
      set_scheduled_ops (update_where (op_stale secs now) (op_release now)) d).
Definition ReleaseStaleScheduledSessionOperationClaims secs : Go Z := exec (x_ReleaseStaleScheduledSessionOperationClaims secs).

(** ** Repository *)

Definition wrap_op := wrap_db "scheduled_session_operation".

Definition scheduledSessionOperationToEntity (s : ScheduledOpRow) : Result ScheduledSessionOperation :=
  rbind (formatUUID (so_ID s)) (λ id,
  Ok (mkScheduledOp id (so_OperationType s) (so_OperationPayload s) (so_TriggerType s) (so_TriggerConfig s)
        (default time_Time_zero (so_NextFireAt s)) (so_HostID s) (so_SessionID s) (so_Status s) (so_LastError s) (so_ClaimedBy s)
        (so_ClaimedAt s) (so_ExecutedAt s) (so_CreatedBy s) (default time_Time_zero (so_CreatedAt s)) (default time_Time_zero (so_UpdatedAt s)))).

Fixpoint ops_to_entities (rows : list ScheduledOpRow) : Result (list ScheduledSessionOperation) :=
  match rows with
  | [] => Ok []
  | r :: rows' => rbind (scheduledSessionOperationToEntity r) (λ e, rbind (ops_to_entities rows') (λ es, Ok (e :: es)))
  end.

Record OpListFilter : Type := mkOpListFilter {
  olf_SessionID : option string; olf_HostID : option string; olf_Status : option Z;
  olf_PageIndex : Z; olf_PageSize : Z; olf_GroupID : option string }.
Record OpListResult : Type := mkOpListResult { olr_Items : list ScheduledSessionOperation; olr_TotalCount : Z }.

Section Repository.
Context {US : UUIDScan}.

Definition OpRepo_Create (p : CreateOpParams) : Go ScheduledSessionOperation :=
  let* row := on_err wrap_op (CreateScheduledSessionOperation p) in lift (scheduledSessionOperationToEntity row).

Definition OpRepo_Get (id : string) : Go ScheduledSessionOperation :=
  let* uid := lift (parseUUID id) in
  let* row := on_err wrap_op (GetScheduledSessionOperation uid) in lift (scheduledSessionOperationToEntity row).

Definition repo_page_size (n : Z) : Z := if (n <=? 0)%Z then 100 else n.

Definition OpRepo_List (f : OpListFilter) : Go OpListResult :=
  let pageSize := repo_page_size (olf_PageSize f) in
  let params := mkListOpsParams (olf_SessionID f) (olf_HostID f) (olf_Status f) (int32 (olf_PageIndex f * pageSize)) pageSize in
  let* rows := on_err wrap_op (ListScheduledSessionOperations params) in
  let total := match rows with [] => 0%Z | r :: _ => int32 (snd r) end in
  let* items := lift (ops_to_entities (fst <$> rows)) in
  ret (mkOpListResult items total).

Definition OpRepo_ClaimDue (instanceID : string) (batchSize : Z) : Go (list ScheduledSessionOperation) :=
  let* rows := on_err wrap_op (ClaimDueScheduledSessionOperations instanceID batchSize) in lift (ops_to_entities rows).

Definition OpRepo_ReleaseStaleClaims (staleAfter : Z) : Go Z :=
  on_err wrap_op (ReleaseStaleScheduledSessionOperationClaims (int32 (Z.quot staleAfter time_Second))).

Definition OpRepo_MarkSucceeded (id : string) : Go unit :=
  let* uid := lift (parseUUID id) in on_err wrap_op (MarkScheduledSessionOperationSucceeded uid) ;;; ret tt.
Definition OpRepo_MarkFailed (id msg : string) : Go unit :=
  let* uid := lift (parseUUID id) in on_err wrap_op (MarkScheduledSessionOperationFailed uid msg) ;;; ret tt.
Definition OpRepo_Requeue (id : string) (at_ : Instant) : Go unit :=
  let* uid := lift (parseUUID id) in on_err wrap_op (RequeueScheduledSessionOperation uid at_) ;;; ret tt.
Definition OpRepo_Cancel (id : string) : Go bool :=
  let* uid := lift (parseUUID id) in
  let* rows := on_err wrap_op (CancelScheduledSessionOperation uid) in ret (0 <? rows)%Z.
End Repository.
