(* ===== verification/ScheduledUsecase.v ===== *)
(** * Scheduled operations: the use case

    [src/usecase/scheduled_session_operation_usecase.go]: scheduling, listing
    and cancelling, each with its permission check on the group of the target
    host or session. *)

From S2P Require Import Prelude Entity Json Digest Models Queries Ports PermissionUsecase Repositories Headless Resources.
From S2P Require Import Claims ScheduledOps ScheduledRepo.
From stdpp Require Import base gmap strings list.
From Stdlib Require Import ZArith Lia.

Section Usecase.
Context {GR : GroupRepository} {MR : GroupMemberRepository} {SP : StartupParameters} {US : UUIDScan}.

(** the string behind a pointer, if there is one and it is not empty *)
Definition given (o : option string) : option string :=
  match o with Some s => if bool_decide (s = EmptyString) then None else Some s | None => None end.

Definition resolveTargetGroupID (hostID sessionID : option string) : Go string :=
  match given sessionID with
  | Some sid => let* s := SessionRepo_Get sid in ret (Session_GroupID s)
  | None =>
      match given hostID with
      | Some hid => HostRepo_GetGroupID hid
      | None => fail (EMsg "either host_id or session_id is required")
      end
  end.

Record CreateParams : Type := mkCreateParams {
  cp_Action : option Action; cp_Trigger : option Trigger; cp_HostID : option string; cp_SessionID : option string;
  cp_CreatedBy : option string }.

Definition Usecase_Create (ctx : Ctx) (params : CreateParams) : Go ScheduledSessionOperation :=
  match cp_Action params, cp_Trigger params with
  | None, _ => fail (EMsg "create scheduled operation: action is required")
  | _, None => fail (EMsg "create scheduled operation: trigger is required")
  | Some action, Some trigger =>
      let* groupID := resolveTargetGroupID (cp_HostID params) (cp_SessionID params) in
      RequirePermissionForGroup ctx groupID PermKey_SessionWrite ;;;
      let actionPayload := Action_Marshal action in
      let* triggerConfig := on_err (EWrap "marshal trigger") (lift (Trigger_Marshal trigger)) in
      let* ev := on_err (EWrap "trigger initial evaluate") (Trigger_Evaluate trigger no_deps) in
      let* now := gets w_now in
      let nextFire := if bool_decide (snd ev = time_Time_zero) then now else snd ev in
      OpRepo_Create (mkCreateOpParams (Action_Type action) actionPayload (Trigger_Type trigger) triggerConfig nextFire
                       (cp_HostID params) (cp_SessionID params) (cp_CreatedBy params))
  end.

Definition Usecase_Get (id : string) : Go ScheduledSessionOperation := OpRepo_Get id.

(** the loop of [listFilteredByGroups]: an operation whose group cannot be
    found is left out *)
Fixpoint accessible_ops (accessible : list string) (ops : list ScheduledSessionOperation) : Go (list ScheduledSessionOperation) :=
  match ops with
  | [] => ret []
  | op :: ops' =>
      let* r := attempt (resolveTargetGroupID (op_HostID op) (op_SessionID op)) in
      let* rest := accessible_ops accessible ops' in
      ret match r with
          | Ok gid => if bool_decide (gid ∈ accessible) then op :: rest else rest
          | Fail _ => rest
          end
  end.

(** the paging at the end of [listFilteredByGroups]; the slice [filtered\[start:end\]]
    panics when [end] is below [start] *)
Definition page_of (filtered : list ScheduledSessionOperation) (pageIndex pageSize : Z) : Result OpListResult :=
  let total := int32 (Z.of_nat (length filtered)) in
  let start := int32 (pageIndex * pageSize) in
  if ((start <? 0) || (total <=? start))%Z then Ok (mkOpListResult [] total)
  else
    let end_ := int32 (start + pageSize) in
    let end_ := if ((pageSize =? 0) || (total <? end_))%Z then total else end_ in
    if (end_ <? start)%Z then Fail (EMsg "panic: slice bounds out of range")
    else Ok (mkOpListResult (take (Z.to_nat (end_ - start)) (drop (Z.to_nat start) filtered)) total).

Definition without_page (f : OpListFilter) : OpListFilter :=
  mkOpListFilter (olf_SessionID f) (olf_HostID f) (olf_Status f) 0 0 (olf_GroupID f).

Definition listFilteredByGroups (f : OpListFilter) (accessible : list string) : Go OpListResult :=
  let* result := OpRepo_List (without_page f) in
  let* filtered := accessible_ops accessible (olr_Items result) in
  lift (page_of filtered (olf_PageIndex f) (olf_PageSize f)).

Definition Usecase_List (ctx : Ctx) (f : OpListFilter) : Go OpListResult :=
  match given (olf_GroupID f) with
  | Some g =>
      RequirePermissionForGroup ctx g PermKey_SessionRead ;;;
      listFilteredByGroups f [g]
  | None =>
      if negb (bool_decide (olf_HostID f = None)) || negb (bool_decide (olf_SessionID f = None)) then
        let* r := attempt (resolveTargetGroupID (olf_HostID f) (olf_SessionID f)) in
        match r with
        | Fail e => if errors_Is e ErrNotFound then ret (mkOpListResult [] 0) else fail e
        | Ok groupID =>
            RequirePermissionForGroup ctx groupID PermKey_SessionRead ;;;
            OpRepo_List f
        end
      else
        let* userID := CurrentUserID ctx in
        let* filter := ResolveListGroupFilter userID PermKey_SessionRead in
        if snd filter : bool then OpRepo_List f else listFilteredByGroups f (fst filter)
  end.

Definition Usecase_Cancel (ctx : Ctx) (id : string) : Go unit :=
  let* op := OpRepo_Get id in
  let* groupID := resolveTargetGroupID (op_HostID op) (op_SessionID op) in
  RequirePermissionForGroup ctx groupID PermKey_SessionWrite ;;;
  let* ok := OpRepo_Cancel id in
  if ok : bool then ret tt else fail (ESent ErrScheduledOperationNotCancelable).
End Usecase.
