(* ===== verification/ScheduledExecutor.v ===== *)
(** * Scheduled operations: the executor

    [src/worker/scheduled_operation_executor.go]: claiming what is due,
    running one operation as the user who scheduled it, and the sweep of stale
    claims.  An execution is a computation of its own; how the statements of
    several executors and users interleave is in [ScheduledSystem]. *)

From S2P Require Import Prelude Entity Json Digest Models Queries Ports Repositories Headless Resources Claims ScheduledOps ScheduledRepo ScheduledUsecase Slots.
From stdpp Require Import base gmap strings list.
From Stdlib Require Import ZArith Lia.

(** ** Options *)

Definition defaultExecutorTickInterval : Z := (10 * time_Second)%Z.
Definition defaultExecutorStaleAfter : Z := (10 * time_Minute)%Z.
Definition defaultExecutorStaleSweep : Z := time_Minute.
Definition defaultExecutorBatchSize : Z := 16.
Definition defaultExecutorConcurrency : Z := 4.
Definition defaultExecutorActionTimeout : Z := (2 * time_Minute)%Z.
Definition persistTimeout : Z := (10 * time_Second)%Z.

Record ExecutorOptions : Type := mkExecutorOptions {
  eo_InstanceID : string; eo_TickInterval : Z; eo_StaleAfter : Z; eo_StaleSweep : Z; eo_BatchSize : Z; eo_Concurrency : Z;
  eo_ActionTimeout : Z }.

Definition or_default (z d : Z) : Z := if (z <=? 0)%Z then d else z.

(** [hostname] is the answer of [os.Hostname]; the action timeout of the
    options is not used. *)
Definition NewScheduledOperationExecutor (hostname : option string) (o : ExecutorOptions) : ExecutorOptions :=
  mkExecutorOptions
    (if bool_decide (eo_InstanceID o = EmptyString) then default "controller" (given hostname) else eo_InstanceID o)
    (or_default (eo_TickInterval o) defaultExecutorTickInterval)
    (or_default (eo_StaleAfter o) defaultExecutorStaleAfter)
    (or_default (eo_StaleSweep o) defaultExecutorStaleSweep)
    (or_default (eo_BatchSize o) defaultExecutorBatchSize)
    (or_default (eo_Concurrency o) defaultExecutorConcurrency)
    defaultExecutorActionTimeout.

(** ** One execution *)

Section Executor.
Context {SP : StartupParameters} {US : UUIDScan} {SO : SessionOperator}.
(** the dependencies that may be nil *)
Context (userChecker : option (string → Go bool)) (stateCache : option (string → Go (option HeadlessSession))).
Context (e : ExecutorOptions).

Definition markFailed (id : string) (runErr : Err) : Go unit :=
  attempt (OpRepo_MarkFailed id (Err_Error runErr)) ;;; ret tt.

(** What the check of the creator comes to: go on, leave the claim for a
    retry, or refuse. *)
Inductive Verdict : Type := Proceed | LeaveClaim | Refuse (err : Err).

Definition check_creator (user : string) : Go Verdict :=
  match userChecker with
  | None => ret Proceed
  | Some exists_ =>
      let* r := attempt (exists_ user) in
      ret match r with
          | Fail err => if errors_Is err ErrCanceled || errors_Is err ErrDeadlineExceeded then LeaveClaim
                        else Refuse (EWrap "check created_by user" err)
          | Ok false => Refuse (EMsg ("created_by user " +:+ strconv_Quote user +:+ " does not exist"))
          | Ok true => Proceed
          end
  end.

Definition executor_deps : TriggerEvalDeps := mkTriggerEvalDeps (Some (gets w_now)) (Some SessionRepo_Get) stateCache.

(** nothing recovers a panic of the action *)
Definition run_action (ctx : Ctx) (user : string) (op : ScheduledSessionOperation) : Go unit :=
  match DecodeAction (op_OperationType op) (op_OperationPayload op) with
  | Fail err => markFailed (op_ID op) (EWrap "decode action" err)
  | Ok act =>
      let* r := attempt (Action_Execute (WithActAsUser ctx user) act) in
      match r with
      | Fail (EPanic v) => fail (EPanic v)
      | Fail err => markFailed (op_ID op) err
      | Ok _ => attempt (OpRepo_MarkSucceeded (op_ID op)) ;;; ret tt
      end
  end.

Definition run_trigger (ctx : Ctx) (user : string) (op : ScheduledSessionOperation) : Go unit :=
  match DecodeTrigger (op_TriggerType op) (op_TriggerConfig op) with
  | Fail err => markFailed (op_ID op) (EWrap "decode trigger" err)
  | Ok trig =>
      let* r := attempt (Trigger_Evaluate trig executor_deps) in
      match r with
      | Fail err => markFailed (op_ID op) (EWrap "evaluate trigger" err)
      | Ok (true, _) => run_action ctx user op
      | Ok (false, nextCheck) =>
          let* now := gets w_now in
          let nextCheck := if bool_decide (nextCheck = time_Time_zero) then (now + eo_TickInterval e)%Z else nextCheck in
          attempt (OpRepo_Requeue (op_ID op) nextCheck) ;;; ret tt
      end
  end.

Definition executeOne (ctx : Ctx) (op : ScheduledSessionOperation) : Go unit :=
  match given (op_CreatedBy op) with
  | None => markFailed (op_ID op) (EMsg "scheduled operation has no created_by")
  | Some user =>
      let* v := check_creator user in
      match v with
      | LeaveClaim => ret tt
      | Refuse err => markFailed (op_ID op) err
      | Proceed => run_trigger ctx user op
      end
  end.

(** ** The loop *)

Fixpoint execute_all (ctx : Ctx) (ops : list ScheduledSessionOperation) : Go unit :=
  match ops with [] => ret tt | op :: ops' => executeOne ctx op ;;; execute_all ctx ops' end.

(** [dispatchOnce], with the goroutines run one after the other; [started] is
    how many start before the context is cancelled. *)
Definition dispatchOnce (ctx : Ctx) (started : nat) : Go unit :=
  let* r := attempt (OpRepo_ClaimDue (eo_InstanceID e) (eo_BatchSize e)) in
  match r with Fail _ => ret tt | Ok ops => execute_all ctx (take started ops) end.

(** What the [select] of [Run] picks, and one round of its loop. *)
Inductive Tick : Type := StaleSweep | DispatchTick (started : nat).
Definition Run_round (ctx : Ctx) (t : Tick) : Go unit :=
  match t with
  | StaleSweep => attempt (OpRepo_ReleaseStaleClaims (eo_StaleAfter e)) ;;; ret tt
  | DispatchTick started => dispatchOnce ctx started
  end.
Fixpoint Run_rounds (ctx : Ctx) (ts : list Tick) : Go unit :=
  match ts with [] => ret tt | t :: ts' => Run_round ctx t ;;; Run_rounds ctx ts' end.
(** [Run] until it is cancelled: the sweep at the start, then the rounds. *)
Definition Run (ctx : Ctx) (ts : list Tick) : Go unit :=
  attempt (OpRepo_ReleaseStaleClaims (eo_StaleAfter e)) ;;; Run_rounds ctx ts.
End Executor.

(** ** Scheduled operations: one execution

    What [executeOne] of [src/worker/scheduled_operation_executor.go] does to
    the table, on every branch, when the database works. *)

Section Execution.
Context {SP : StartupParameters} {US : UUIDScan} {SO : SessionOperator}.
Context (stateCache : option (string → Go (option HeadlessSession))) (e : ExecutorOptions).

(** What the execution relies on: sessions are operated on without touching
    scheduled operations, and the cache only answers. *)
Class OperatorLaws : Prop := {
  StartSession_leaves ctx h g u p m : preserves (leaves t_scheduled_ops) (StartSession ctx h g u p m);
  StopSession_leaves ctx s : preserves (leaves t_scheduled_ops) (StopSession ctx s);
  UpdateSessionParameters_leaves ctx s p : preserves (leaves t_scheduled_ops) (UpdateSessionParameters ctx s p);
  UpdateSessionExtraSettings_leaves ctx s a m : preserves (leaves t_scheduled_ops) (UpdateSessionExtraSettings ctx s a m);
  cache_answers f sid w : stateCache = Some f → ∃ s, f sid w = (Ok s, w) }.
#[local] Hint Resolve StartSession_leaves StopSession_leaves UpdateSessionParameters_leaves UpdateSessionExtraSettings_leaves : preserves.

Lemma Action_Execute_leaves `{!OperatorLaws} ctx a : preserves (leaves t_scheduled_ops) (Action_Execute ctx a).
Proof.
  destruct a; simpl; [unfold StartSessionAction_Execute|unfold StopSessionAction_Execute|unfold UpdateParametersAction_Execute|
    unfold UpdateExtraSettingsAction_Execute]; preserve.
Qed.

Inductive Outcome : Type :=
  | Fails (msg : string)
  | Waits (until : Instant)
  | Runs (user : string) (act : Action).

(** What an execution decides before it acts. *)
Definition verdict (w : World) (op : ScheduledSessionOperation) : Outcome :=
  match given (op_CreatedBy op) with
  | None => Fails "scheduled operation has no created_by"
  | Some user =>
      if negb (present user (t_users (w_db w))) then Fails ("created_by user " +:+ strconv_Quote user +:+ " does not exist")
      else
        match DecodeTrigger (op_TriggerType op) (op_TriggerConfig op) with
        | Fail err => Fails (Err_Error (EWrap "decode trigger" err))
        | Ok trig =>
            match (Trigger_Evaluate trig (executor_deps stateCache) w).1 with
            | Fail err => Fails (Err_Error (EWrap "evaluate trigger" err))
            | Ok (false, next) => Waits (if bool_decide (next = time_Time_zero) then w_now w + eo_TickInterval e else next)%Z
            | Ok (true, _) =>
                match DecodeAction (op_OperationType op) (op_OperationPayload op) with
                | Fail err => Fails (Err_Error (EWrap "decode action" err))
                | Ok act => Runs user act
                end
            end
        end
  end.

Definition put_op (k : UUID) (row : ScheduledOpRow) (w : World) : World := with_db (set_scheduled_ops (<[k := row]>) (w_db w)) w.

(** How an execution of the operation of [row] from [w] ends, and in which world. *)
Definition after_execution (ctx : Ctx) (k : UUID) (row : ScheduledOpRow) (op : ScheduledSessionOperation) (w : World) : Result unit * World :=
  match verdict w op with
  | Fails msg => (Ok tt, put_op k (op_fail msg (w_now w) row) w)
  | Waits until => (Ok tt, put_op k (op_requeue until (w_now w) row) w)
  | Runs user act =>
      match Action_Execute (WithActAsUser ctx user) act w with
      | (Ok _, w1) => (Ok tt, put_op k (op_succeed (w_now w1) row) w1)
      | (Fail (EPanic v), w1) => (Fail (EPanic v), w1)
      | (Fail err, w1) => (Ok tt, put_op k (op_fail (Err_Error err) (w_now w1) row) w1)
      end
  end.

Section Marks.
Context (k : UUID) (row : ScheduledOpRow) (id : string) (w : World).
Hypothesis Hw : w_faults w = [].
Hypothesis Hv : valid_uuid k.
Hypothesis Hid : formatUUID (Some k) = Ok id.
Hypothesis Hrow : t_scheduled_ops (w_db w) !! k = Some row.
Hypothesis Hst : so_Status row = 1%Z.

Lemma mark_run (g : Instant → ScheduledOpRow → ScheduledOpRow) :
  (attempt (let* uid := lift (parseUUID id) in on_err wrap_op (exec (λ now d, so_update_one uid 1 (g now) d)) ;;; ret tt) ;;; ret tt) w
  = (Ok tt, put_op k (g (w_now w) row) w).
Proof.
  unfold attempt, bind, lift. rewrite (parse_formatted k id Hv Hid). unfold on_err. rewrite exec_run by done.
  unfold so_update_one, update_one, has_status. rewrite Hrow, Hst. done.
Qed.

Lemma fails_run err : markFailed id err w = (Ok tt, put_op k (op_fail (Err_Error err) (w_now w) row) w).
Proof. exact (mark_run (op_fail (Err_Error err))). Qed.
Lemma succeeds_run : (attempt (OpRepo_MarkSucceeded id) ;;; ret tt) w = (Ok tt, put_op k (op_succeed (w_now w) row) w).
Proof. exact (mark_run op_succeed). Qed.
Lemma requeues_run at_ : (attempt (OpRepo_Requeue id at_) ;;; ret tt) w = (Ok tt, put_op k (op_requeue at_ (w_now w) row) w).
Proof. exact (mark_run (op_requeue at_)). Qed.
End Marks.

Lemma evaluate_quiet `{!OperatorLaws} t w : w_faults w = [] → (Trigger_Evaluate t (executor_deps stateCache) w).2 = w.
Proof.
  intros Hw. destruct t as [at_|sid c n]; simpl.
  - unfold TimeTrigger_Evaluate, bind, gets. simpl. by case_match.
  - unfold SessionUserCount_Evaluate. simpl. destruct stateCache as [f|] eqn:Ef; [|done]. unfold bind at 1.
    destruct (cache_answers f sid w Ef) as [s ->]. destruct s as [s|]; [by repeat case_match|].
    unfold bind, attempt. rewrite (reads_run _ _ w (SessionRepo_Get_reads sid) Hw). unfold ret.
    destruct (get_session sid (w_db w)) as [s|]; [|done]. cbv beta iota. by destruct (bool_decide _).
Qed.

(** ** Whatever fails *)

(** What settling makes of a running operation. *)
Definition op_settled (row row' : ScheduledOpRow) : Prop :=
  (∃ msg now, row' = op_fail msg now row) ∨ (∃ at_ now, row' = op_requeue at_ now row) ∨ ∃ now, row' = op_succeed now row.

(** The operation [k] is settled at most once, and no other is touched. *)
Definition op_at_most_settled (k : UUID) : World → World → Prop :=
  at_most_settled t_scheduled_ops (has_status ScheduledOperationStatus_RUNNING) op_settled k.

#[local] Instance op_at_most_settled_preorder k : PreOrder (op_at_most_settled k).
Proof. apply at_most_settled_preorder. by intros r r' [(? & ? & ->)|[(? & ? & ->)|(? & ->)]]. Qed.

Lemma op_leaves_settled k {A} (m : Go A) : preserves (leaves t_scheduled_ops) m → preserves (op_at_most_settled k) m.
Proof. apply leaves_at_most_settled. Qed.

Section Anyhow.
Context (k : UUID) (id : string).
Hypothesis Hv : valid_uuid k.
Hypothesis Hid : formatUUID (Some k) = Ok id.

Lemma settles_mark (g : Instant → ScheduledOpRow → ScheduledOpRow) : (∀ now r, op_settled r (g now r)) →
  preserves (op_at_most_settled k)
    (let* uid := lift (parseUUID id) in on_err wrap_op (exec (λ now d, so_update_one uid 1 (g now) d)) ;;; ret tt).
Proof.
  intros Hg. rewrite (parse_formatted k id Hv Hid).
  change (preserves (op_at_most_settled k) (on_err wrap_op (exec (λ now d, so_update_one k 1 (g now) d)) ;;; ret tt)).
  apply preserves_bind; [apply _| |intros ?; apply preserves_ret, _]. apply preserves_on_err.
  apply (settles_exec t_scheduled_ops _ _ k g); [done|]. intros now d a d'. unfold so_update_one.
  change (has_status ScheduledOperationStatus_RUNNING) with (has_status 1). destruct (update_one _ _ _ _) as [n t]. by intros [= _ <-].
Qed.

Lemma MarkFailed_settles msg : preserves (op_at_most_settled k) (OpRepo_MarkFailed id msg).
Proof. apply (settles_mark (op_fail msg)). intros now r. left. eauto. Qed.
Lemma Requeue_settles at_ : preserves (op_at_most_settled k) (OpRepo_Requeue id at_).
Proof. apply (settles_mark (op_requeue at_)). intros now r. right. left. eauto. Qed.
Lemma MarkSucceeded_settles : preserves (op_at_most_settled k) (OpRepo_MarkSucceeded id).
Proof. apply (settles_mark op_succeed). intros now r. right. right. eauto. Qed.
#[local] Hint Resolve MarkFailed_settles Requeue_settles MarkSucceeded_settles : preserves.

Lemma evaluate_leaves `{!OperatorLaws} t : preserves (leaves t_scheduled_ops) (Trigger_Evaluate t (executor_deps stateCache)).
Proof.
  assert (∀ f sid, stateCache = Some f → preserves (leaves t_scheduled_ops) (f sid)) as Hc.
  { intros f sid Hf w. destruct (cache_answers f sid w Hf) as [s ->]. done. }
  destruct t as [at_|sid c n]; simpl; [unfold TimeTrigger_Evaluate; simpl; preserve|].
  unfold SessionUserCount_Evaluate. simpl. destruct stateCache as [f|]; [|preserve]. specialize (Hc f sid eq_refl).
  assert (preserves (leaves t_scheduled_ops) (SessionRepo_Get sid)) by (eapply leaves_reads, SessionRepo_Get_reads). preserve.
Qed.

Lemma executeOne_settles `{!OperatorLaws} check ctx op : op_ID op = id →
  (∀ user, preserves (leaves t_scheduled_ops) (check user)) →
  preserves (op_at_most_settled k) (executeOne (Some check) stateCache e ctx op).
Proof.
  intros Eid Hcheck. unfold executeOne, check_creator, run_trigger, run_action, markFailed. rewrite Eid.
  assert (∀ u, preserves (op_at_most_settled k) (check u)) as Hu by (intros u; by apply op_leaves_settled).
  assert (∀ t, preserves (op_at_most_settled k) (Trigger_Evaluate t (executor_deps stateCache))) as Ht
    by (intros t; apply op_leaves_settled, evaluate_leaves).
  assert (∀ c a, preserves (op_at_most_settled k) (Action_Execute c a)) as Ha
    by (intros c a; apply op_leaves_settled, Action_Execute_leaves).
  preserve.
Qed.
End Anyhow.

(** C15. When every statement of the database succeeds, the execution of a
    claimed operation ends with its row settled, on every branch: failed with
    the reason when it cannot be run, pending again until the trigger's next
    time when it is not due, and otherwise succeeded or failed as its action
    did, which ran as the user who scheduled it, and ran only then.  An action
    that panics is the exception: nothing recovers it, and the row stays
    claimed.  Whatever statements fail, with any check of the creator, the row
    stays claimed as it was or is settled once, and no other operation is
    touched; a check that is cut off leaves the claim for a retry. *)
Theorem executeOne_exact `{!OperatorLaws} (ctx : Ctx) (k : UUID) (row : ScheduledOpRow) (op : ScheduledSessionOperation) (w : World) :
  valid_uuid k → so_ID row = Some k → t_scheduled_ops (w_db w) !! k = Some row → so_Status row = ScheduledOperationStatus_RUNNING →
  scheduledSessionOperationToEntity row = Ok op →
  (w_faults w = [] → executeOne (Some UserExistsByID) stateCache e ctx op w = after_execution ctx k row op w) ∧
  ∀ check : string → Go bool, (∀ user, preserves (leaves t_scheduled_ops) (check user)) →
    op_at_most_settled k w (executeOne (Some check) stateCache e ctx op w).2 ∧
    ∀ user err w1, given (op_CreatedBy op) = Some user → check user w = (Fail err, w1) →
      errors_Is err ErrCanceled || errors_Is err ErrDeadlineExceeded = true →
      executeOne (Some check) stateCache e ctx op w = (Ok tt, w1).
Proof.
  intros Hv Hid Hrow Hst Hop.
  assert (formatUUID (Some k) = Ok (op_ID op)) as Hfmt.
  { unfold scheduledSessionOperationToEntity in Hop. rewrite Hid in Hop. destruct (formatUUID (Some k)); simpl in Hop; [|done]. by injection Hop as <-. }
  split.
  2:{ intros check Hcheck. split; [by apply (executeOne_settles k (op_ID op))|]. intros user err w1 Hu Hc Hcut.
      unfold executeOne, check_creator, bind, attempt. by rewrite Hu, Hc, Hcut. }
  intros Hw.
  unfold executeOne, after_execution, verdict. destruct (given (op_CreatedBy op)) as [user|]; [|by apply fails_run].
  unfold check_creator. unfold bind at 1. unfold bind at 1. unfold attempt at 1.
  rewrite (reads_run _ _ w (UserExistsByID_reads user) Hw). cbv beta iota. unfold ret at 1. cbv beta iota.
  destruct (present user (t_users (w_db w))); [|by apply fails_run]. cbv beta iota. unfold run_trigger, negb.
  destruct (DecodeTrigger (op_TriggerType op) (op_TriggerConfig op)) as [trig|err]; [|by apply fails_run].
  unfold bind at 1. unfold attempt at 1. pose proof (evaluate_quiet trig w Hw) as Hq.
  destruct (Trigger_Evaluate trig (executor_deps stateCache) w) as [r w1]. simpl in Hq. subst w1. cbv beta iota. unfold fst at 1.
  destruct r as [[[|] next]|err]; [|exact (requeues_run k row (op_ID op) w Hw Hv Hfmt Hrow Hst _)|by apply fails_run].
  unfold run_action. destruct (DecodeAction (op_OperationType op) (op_OperationPayload op)) as [act|err]; [|by apply fails_run].
  unfold bind at 1. unfold attempt at 1. destruct (Action_Execute_leaves (WithActAsUser ctx user) act w) as [Hops Hw1]. specialize (Hw1 Hw).
  destruct (Action_Execute (WithActAsUser ctx user) act w) as [r w1]. cbn [snd] in Hops, Hw1. rewrite <-Hops in Hrow.
  destruct r as [[]|err]; [by apply succeeds_run|]. destruct err; first [by apply fails_run|reflexivity].
Qed.
End Execution.
