(* ===== verification/ScheduledSystem.v ===== *)
(** * Scheduled operations as a concurrent system

    Users, executors and sweeps of any number of server instances act on the
    table of scheduled operations through its statements, each atomic.  Any
    interleaving of their requests is a sequence of statements at increasing
    times; everything here is proved of every such sequence. *)

From S2P Require Import Prelude Entity Json Digest Models Queries Ports Repositories Headless Resources Claims ScheduledOps ScheduledRepo Slots ScheduledUsecase ScheduledExecutor.
From stdpp Require Import base gmap strings list.
From Stdlib Require Import ZArith Lia.

(** ** Statements of all actors *)

Inductive OpStatement : Type :=
  | SCreate (id : UUID) (p : CreateOpParams)
  | SClaim (instance : string) (batch : Z)
  | SCancel (id : UUID)
  | SSucceed (id : UUID)
  | SFail (id : UUID) (msg : string)
  | SRequeue (id : UUID) (at_ : Instant)
  | SRelease (secs : Z).

Definition op_table {A} (d : DB) (r : Result (A * DB)) : gmap UUID ScheduledOpRow :=
  match r with Ok (_, d') => t_scheduled_ops d' | Fail _ => t_scheduled_ops d end.

Definition run_statement (now : Instant) (s : OpStatement) (d : DB) : gmap UUID ScheduledOpRow :=
  match s with
  | SCreate id p => op_table d (x_CreateScheduledSessionOperation id p now d)
  | SClaim inst batch => op_table d (x_ClaimDueScheduledSessionOperations inst batch now d)
  | SCancel id => op_table d (x_CancelScheduledSessionOperation id now d)
  | SSucceed id => op_table d (x_MarkScheduledSessionOperationSucceeded id now d)
  | SFail id msg => op_table d (x_MarkScheduledSessionOperationFailed id msg now d)
  | SRequeue id at_ => op_table d (x_RequeueScheduledSessionOperation id at_ now d)
  | SRelease secs => op_table d (x_ReleaseStaleScheduledSessionOperationClaims secs now d)
  end.

(** What a statement makes of a row that was there. *)
Definition row_after (now : Instant) (s : OpStatement) (d : DB) (k : UUID) (r : ScheduledOpRow) : ScheduledOpRow :=
  match s with
  | SCreate _ _ => r
  | SClaim inst batch =>
      if (0 <=? batch)%Z && bool_decide (k ∈ (chosen (op_due now) (λ r, ts (so_NextFireAt r)) batch (t_scheduled_ops d)).*1)
      then op_claim inst now r else r
  | SCancel id => if bool_decide (k = id) && has_status 0 r then op_cancel now r else r
  | SSucceed id => if bool_decide (k = id) && has_status 1 r then op_succeed now r else r
  | SFail id msg => if bool_decide (k = id) && has_status 1 r then op_fail msg now r else r
  | SRequeue id at_ => if bool_decide (k = id) && has_status 1 r then op_requeue at_ now r else r
  | SRelease secs => if op_stale secs now r then op_release now r else r
  end.

Lemma so_update_one_table id s f d k :
  op_table d (so_update_one id s f d) !! k = (λ r, if bool_decide (k = id) && has_status s r then f r else r) <$> t_scheduled_ops d !! k.
Proof.
  unfold so_update_one, op_table. pose proof (update_one_lookup id (has_status s) f (t_scheduled_ops d) k) as H.
  destruct (update_one _ _ _ _) as [n t]. exact H.
Qed.

Lemma run_statement_row now s d k r :
  t_scheduled_ops d !! k = Some r → run_statement now s d !! k = Some (row_after now s d k r).
Proof.
  intros Hk. destruct s; simpl; unfold x_CancelScheduledSessionOperation, x_MarkScheduledSessionOperationSucceeded,
    x_MarkScheduledSessionOperationFailed, x_RequeueScheduledSessionOperation; rewrite ?so_update_one_table, ?Hk; try done.
  - unfold x_CreateScheduledSessionOperation, check, present. case_bool_decide as Hp; simpl; [done|].
    rewrite lookup_insert_ne; [done|]. intros ->. apply Hp. by eexists.
  - unfold x_ClaimDueScheduledSessionOperations. rewrite Z.leb_antisym. destruct (batch <? 0)%Z; simpl; [done|].
    by rewrite lookup_update_rows, Hk.
  - unfold x_ReleaseStaleScheduledSessionOperationClaims, update_where. simpl. by rewrite lookup_fmap, Hk.
Qed.

(** A row that was not there is a new one. *)
Lemma run_statement_new now s d k r :
  t_scheduled_ops d !! k = None → run_statement now s d !! k = Some r →
  ∃ p, s = SCreate k p ∧ r = new_op_row k p now.
Proof.
  intros Hk. destruct s; simpl; unfold x_CancelScheduledSessionOperation, x_MarkScheduledSessionOperationSucceeded,
    x_MarkScheduledSessionOperationFailed, x_RequeueScheduledSessionOperation; rewrite ?so_update_one_table, ?Hk; try done.
  - unfold x_CreateScheduledSessionOperation, check. destruct (negb _); simpl; [|by rewrite Hk].
    intros [[<- <-]|[_ ?]]%lookup_insert_Some; [eauto|congruence].
  - unfold x_ClaimDueScheduledSessionOperations. destruct (batch <? 0)%Z; simpl; [by rewrite Hk|].
    by rewrite lookup_update_rows, Hk.
  - unfold x_ReleaseStaleScheduledSessionOperationClaims, update_where. simpl. by rewrite lookup_fmap, Hk.
Qed.

(** The timed statements of a trace lead from one store to another. *)
Abbreviation history := (Claims.history t_scheduled_ops run_statement).

(** ** The life of an operation *)

(** What never changes after an operation is scheduled. *)
Definition op_core (r : ScheduledOpRow) :=
  (so_ID r, (so_OperationType r, so_OperationPayload r), (so_TriggerType r, so_TriggerConfig r), (so_HostID r, so_SessionID r),
   (so_CreatedBy r, so_CreatedAt r)).

(** Succeeded, failed or cancelled. *)
Definition op_done (r : ScheduledOpRow) : bool := (2 <=? so_Status r)%Z.

Record op_row_ok (k : UUID) (r : ScheduledOpRow) : Prop := {
  row_id : so_ID r = Some k;
  row_status : (0 <= so_Status r <= 4)%Z;
  row_fires : is_Some (so_NextFireAt r);
  row_claimed : so_Status r = 1%Z ↔ is_Some (so_ClaimedBy r);
  row_claimed_at : is_Some (so_ClaimedAt r) ↔ is_Some (so_ClaimedBy r);
  row_executed : is_Some (so_ExecutedAt r) ↔ so_Status r = 2%Z ∨ so_Status r = 3%Z }.

Definition ops_ok (d : DB) : Prop := map_Forall op_row_ok (t_scheduled_ops d).

(** One step of a row. *)
Inductive op_step (now : Instant) : ScheduledOpRow → ScheduledOpRow → Prop :=
  | step_stay r : op_step now r r
  | step_claim inst r : so_Status r = 0%Z → op_step now r (op_claim inst now r)
  | step_cancel r : so_Status r = 0%Z → op_step now r (op_cancel now r)
  | step_succeed r : so_Status r = 1%Z → op_step now r (op_succeed now r)
  | step_fail msg r : so_Status r = 1%Z → op_step now r (op_fail msg now r)
  | step_requeue at_ r : so_Status r = 1%Z → op_step now r (op_requeue at_ now r)
  | step_release secs r : so_Status r = 1%Z → op_stale secs now r = true → op_step now r (op_release now r).

Lemma has_status_eq s r : has_status s r = true ↔ so_Status r = s.
Proof. apply Z.eqb_eq. Qed.

Lemma row_after_step now s d k r : t_scheduled_ops d !! k = Some r → op_step now r (row_after now s d k r).
Proof.
  intros Hk. destruct s; simpl; try apply step_stay.
  - destruct (0 <=? batch)%Z; simpl; [|apply step_stay]. case_bool_decide as Hin; [|apply step_stay].
    apply list_elem_of_fmap in Hin as ([k' r'] & -> & Hin). apply chosen_spec in Hin as [Hk' Hd]. simpl in Hk.
    assert (r' = r) as -> by congruence. apply step_claim. unfold op_due in Hd. apply andb_true_iff in Hd as [Hd _]. by apply has_status_eq.
  - destruct (_ && _) eqn:E; [|apply step_stay]. apply andb_true_iff in E as [_ E%has_status_eq]. by apply step_cancel.
  - destruct (_ && _) eqn:E; [|apply step_stay]. apply andb_true_iff in E as [_ E%has_status_eq]. by apply step_succeed.
  - destruct (_ && _) eqn:E; [|apply step_stay]. apply andb_true_iff in E as [_ E%has_status_eq]. by apply step_fail.
  - destruct (_ && _) eqn:E; [|apply step_stay]. apply andb_true_iff in E as [_ E%has_status_eq]. by apply step_requeue.
  - destruct (op_stale secs now r) eqn:E; [|apply step_stay]. eapply step_release; [|exact E].
    unfold op_stale in E. apply andb_true_iff in E as [E _]. by apply has_status_eq.
Qed.

Lemma op_step_core now r r' : op_step now r r' → op_core r' = op_core r.
Proof. by destruct 1. Qed.

Lemma op_step_done now r r' : op_step now r r' → op_done r = true → r' = r.
Proof. unfold op_done. destruct 1 as [|? ? H|? H|? H|? ? H|? ? H|? ? H ?]; [done|rewrite H; done..]. Qed.

Lemma op_step_ok now k r r' : op_step now r r' → op_row_ok k r → op_row_ok k r'.
Proof.
  intros Hs [H1 H2 H3 H4 H5 H6]. destruct Hs; [by constructor|..]; constructor; simpl; try done; try lia;
    split; try done; try naive_solver lia; intros [? ?]; naive_solver lia.
Qed.

Lemma new_row_ok k p now : op_row_ok k (new_op_row k p now).
Proof. constructor; simpl; try done; try lia; split; try done; try naive_solver lia; intros [? ?]; done. Qed.

Lemma run_statement_ok now s d : map_Forall op_row_ok (t_scheduled_ops d) → map_Forall op_row_ok (run_statement now s d).
Proof.
  intros Hok k r Hk. destruct (t_scheduled_ops d !! k) as [r0|] eqn:H0.
  - rewrite (run_statement_row now s d k r0 H0) in Hk. injection Hk as <-. eapply op_step_ok; [by apply row_after_step|by apply Hok].
  - destruct (run_statement_new now s d k r H0 Hk) as (p & _ & ->). apply new_row_ok.
Qed.

(** What a row keeps along a history. *)
Definition op_kept (r r' : ScheduledOpRow) : Prop := op_core r' = op_core r ∧ (op_done r = true → r' = r).

Lemma run_statement_kept now s d k r : t_scheduled_ops d !! k = Some r → ∃ r', run_statement now s d !! k = Some r' ∧ op_kept r r'.
Proof.
  intros Hk. eexists. split; [by apply run_statement_row|]. pose proof (row_after_step now s d k r Hk) as Hs.
  split; [by eapply op_step_core|by eapply op_step_done].
Qed.

Lemma op_kept_trans r1 r2 r3 : op_kept r1 r2 → op_kept r2 r3 → op_kept r1 r3.
Proof. intros [Hc1 Hd1] [Hc2 Hd2]. split; [congruence|]. intros H. pose proof (Hd1 H) as Heq. subst r2. auto. Qed.

(** ** The moves of an operation

    What each statement may do to the operation [k], in the words of the
    source: the statuses by their names, the conditions on both rows. *)

(** It happens under the condition [c], and otherwise the row stays. *)
Definition moves_if (c : Prop) (r r' : ScheduledOpRow) (P : Prop) : Prop := (c → P) ∧ (¬ c → r' = r).

Definition unclaimed (r : ScheduledOpRow) : Prop := so_ClaimedBy r = None ∧ so_ClaimedAt r = None.

Definition op_moves (now : Instant) (s : OpStatement) (k : UUID) (r r' : ScheduledOpRow) : Prop :=
  match s with
  | SCreate _ _ => r' = r
  | SClaim inst _ =>
      r' = r ∨
      so_Status r = ScheduledOperationStatus_PENDING ∧ (∃ t, so_NextFireAt r = Some t ∧ (t <= now)%Z) ∧
      so_Status r' = ScheduledOperationStatus_RUNNING ∧ so_ClaimedBy r' = Some inst ∧ so_ClaimedAt r' = Some now
  | SCancel id =>
      moves_if (id = k ∧ so_Status r = ScheduledOperationStatus_PENDING) r r' (so_Status r' = ScheduledOperationStatus_CANCELED)
  | SSucceed id =>
      moves_if (id = k ∧ so_Status r = ScheduledOperationStatus_RUNNING) r r'
        (so_Status r' = ScheduledOperationStatus_SUCCEEDED ∧ so_ExecutedAt r' = Some now ∧ unclaimed r')
  | SFail id msg =>
      moves_if (id = k ∧ so_Status r = ScheduledOperationStatus_RUNNING) r r'
        (so_Status r' = ScheduledOperationStatus_FAILED ∧ so_LastError r' = Some msg ∧ so_ExecutedAt r' = Some now ∧ unclaimed r')
  | SRequeue id at_ =>
      moves_if (id = k ∧ so_Status r = ScheduledOperationStatus_RUNNING) r r'
        (so_Status r' = ScheduledOperationStatus_PENDING ∧ so_NextFireAt r' = Some (to_microseconds at_) ∧ unclaimed r')
  | SRelease secs =>
      moves_if (so_Status r = ScheduledOperationStatus_RUNNING ∧ ∃ t, so_ClaimedAt r = Some t ∧ (t < now - secs * time_Second)%Z) r r'
        (so_Status r' = ScheduledOperationStatus_PENDING ∧ so_NextFireAt r' = so_NextFireAt r ∧ unclaimed r')
  end.

Lemma moves_if_bool (c : Prop) (b : bool) (f : ScheduledOpRow → ScheduledOpRow) r P :
  (b = true ↔ c) → (c → P (f r)) → moves_if c r (if b then f r else r) (P (if b then f r else r)).
Proof. intros Hb HP. destruct b; split; [tauto|intros Hc; tauto|intros Hc; naive_solver|done]. Qed.

Lemma addressed_iff (k id : UUID) (z : Z) (r : ScheduledOpRow) : bool_decide (k = id) && has_status z r = true ↔ id = k ∧ so_Status r = z.
Proof. rewrite andb_true_iff, bool_decide_eq_true, has_status_eq. naive_solver. Qed.

Lemma op_stale_iff secs now r :
  op_stale secs now r = true ↔ so_Status r = 1%Z ∧ ∃ t, so_ClaimedAt r = Some t ∧ (t < now - secs * time_Second)%Z.
Proof.
  unfold op_stale. rewrite andb_true_iff, has_status_eq. destruct (so_ClaimedAt r) as [t|]; [rewrite Z.ltb_lt|]; naive_solver.
Qed.

Lemma row_after_moves now s d k r : t_scheduled_ops d !! k = Some r → op_moves now s k r (row_after now s d k r).
Proof.
  intros Hk. destruct s; simpl; [done| | | | | |].
  - destruct (0 <=? batch)%Z; simpl; [|by left]. case_bool_decide as Hin; [right|by left].
    apply list_elem_of_fmap in Hin as ([k' r'] & -> & Hin). apply chosen_spec in Hin as [Hk' Hd]. simpl in Hk.
    assert (r' = r) as -> by congruence. unfold op_due in Hd. apply andb_true_iff in Hd as [Hs%has_status_eq Ht].
    split; [done|]. split; [|done]. destruct (so_NextFireAt r) as [t|]; [|done]. exists t. by apply Z.leb_le in Ht.
  - apply (moves_if_bool _ _ _ _ (λ r', so_Status r' = ScheduledOperationStatus_CANCELED)); [apply addressed_iff|done].
  - apply (moves_if_bool _ _ _ _ (λ r', so_Status r' = ScheduledOperationStatus_SUCCEEDED ∧ so_ExecutedAt r' = Some now ∧ unclaimed r'));
      [apply addressed_iff|done].
  - apply (moves_if_bool _ _ _ _ (λ r', so_Status r' = ScheduledOperationStatus_FAILED ∧ so_LastError r' = Some msg ∧ so_ExecutedAt r' = Some now ∧ unclaimed r'));
      [apply addressed_iff|done].
  - apply (moves_if_bool _ _ _ _ (λ r', so_Status r' = ScheduledOperationStatus_PENDING ∧ so_NextFireAt r' = Some (to_microseconds at_) ∧ unclaimed r'));
      [apply addressed_iff|done].
  - apply (moves_if_bool _ _ _ _ (λ r', so_Status r' = ScheduledOperationStatus_PENDING ∧ so_NextFireAt r' = so_NextFireAt r ∧ unclaimed r'));
      [apply op_stale_iff|done].
Qed.

(** What one statement does to the table: every operation keeps what was asked
    and moves as the statement says, and a new one is pending. *)
Definition table_moves (now : Instant) (s : OpStatement) (t t' : gmap UUID ScheduledOpRow) : Prop :=
  (∀ k r, t !! k = Some r → ∃ r', t' !! k = Some r' ∧ op_core r' = op_core r ∧ op_moves now s k r r') ∧
  (∀ k r, t !! k = None → t' !! k = Some r → ∃ p, s = SCreate k p ∧ so_Status r = ScheduledOperationStatus_PENDING ∧ unclaimed r ∧
     so_NextFireAt r = Some (to_microseconds (cop_NextFireAt p)) ∧ so_CreatedBy r = cop_CreatedBy p).

Lemma run_statement_moves now s d : table_moves now s (t_scheduled_ops d) (run_statement now s d).
Proof.
  split.
  - intros k r Hk. exists (row_after now s d k r). split; [by apply run_statement_row|]. split; [|by apply row_after_moves].
    eapply op_step_core. by apply row_after_step.
  - intros k r Hk Hk'. destruct (run_statement_new now s d k r Hk Hk') as (p & -> & ->). by exists p.
Qed.

(** C14. Whatever users, executors and sweeps of any number of instances do,
    in any interleaving of their statements: an operation is never lost, what
    was scheduled and by whom never changes, its status, claim and execution
    time always agree, and once it has succeeded, failed or been cancelled
    nothing touches it again.  And at every statement of the interleaving each
    operation moves only as the statement allows ([op_moves]): a claim makes a
    due PENDING one RUNNING for its instance, a cancel makes a PENDING one
    CANCELED, the end of an execution makes a RUNNING one SUCCEEDED, FAILED or
    PENDING again, a sweep makes a RUNNING one PENDING if its claim is stale;
    only a create adds one, PENDING. *)
Theorem scheduled_lifecycle (d d' : DB) (trace : list (Instant * OpStatement)) :
  ops_ok d → history d trace d' →
  ops_ok d' ∧
  (∀ k r, t_scheduled_ops d !! k = Some r →
    ∃ r', t_scheduled_ops d' !! k = Some r' ∧ op_core r' = op_core r ∧ (op_done r = true → r' = r)) ∧
  ∀ t1 now s t2, trace = t1 ++ (now, s) :: t2 →
    ∃ d0 d1, history d t1 d0 ∧ ops_ok d0 ∧ table_moves now s (t_scheduled_ops d0) (t_scheduled_ops d1) ∧ history d1 t2 d'.
Proof.
  intros Hok H. split; [by apply (history_keeps _ _ _ d trace d' run_statement_ok)|]. split.
  - intros k r. apply (history_row t_scheduled_ops run_statement op_kept d trace); [done|apply op_kept_trans|apply run_statement_kept|done].
  - intros t1 now s t2 ->. apply history_split in H as (d0 & d1 & H1 & Hs & H2). exists d0, d1. split; [done|].
    split; [by apply (history_keeps _ _ _ d t1 d0 run_statement_ok)|]. split; [|done]. rewrite Hs. apply run_statement_moves.
Qed.

Definition stop_params : CreateOpParams :=
  mkCreateOpParams 2 (JObj (str_member "session_id" "S-1")) 1 (JObj (str_member "scheduled_at" "2026-01-01T00:00:00Z")) 0%Z None (Some "S-1") (Some "alice").
Definition an_id : UUID := seqZ 0 16.

(** An operation is created, claimed and succeeds. *)
Definition after_statement (now : Instant) (s : OpStatement) (d : DB) : DB := set_scheduled_ops (λ _, run_statement now s d) d.
Definition created_op : DB := after_statement 0%Z (SCreate an_id stop_params) empty_DB.
Definition claimed_op : DB := after_statement time_Second (SClaim "one" 16) created_op.
Definition succeeded_op : DB := after_statement (2 * time_Second)%Z (SSucceed an_id) claimed_op.

Lemma scheduled_lifecycle_witness :
  (so_Status <$> t_scheduled_ops claimed_op !! an_id = Some ScheduledOperationStatus_RUNNING) ∧
  (so_Status <$> t_scheduled_ops succeeded_op !! an_id = Some ScheduledOperationStatus_SUCCEEDED) ∧
  ops_ok succeeded_op ∧
  (∀ k r, t_scheduled_ops empty_DB !! k = Some r →
    ∃ r', t_scheduled_ops succeeded_op !! k = Some r' ∧ op_core r' = op_core r ∧ (op_done r = true → r' = r)) ∧
  ∀ t1 now s t2, [(0%Z, SCreate an_id stop_params); (time_Second, SClaim "one" 16); ((2 * time_Second)%Z, SSucceed an_id)] = t1 ++ (now, s) :: t2 →
    ∃ d0 d1, history empty_DB t1 d0 ∧ ops_ok d0 ∧ table_moves now s (t_scheduled_ops d0) (t_scheduled_ops d1) ∧ history d1 t2 succeeded_op.
Proof.
  split; [vm_compute; reflexivity|]. split; [vm_compute; reflexivity|].
  apply (scheduled_lifecycle empty_DB succeeded_op).
  - apply map_Forall_empty.
  - apply (history_cons _ _ _ _ _ created_op); [reflexivity|]. apply (history_cons _ _ _ _ _ claimed_op); [reflexivity|].
    apply (history_cons _ _ _ _ _ succeeded_op); [reflexivity|]. by apply history_nil.
Defined.

(** ** One execution at a time *)

(** A statement that could end the claim on [k]: the end of its execution. *)
Definition ends_claim (k : UUID) (s : OpStatement) : bool :=
  match s with SSucceed id | SFail id _ | SRequeue id _ => bool_decide (id = k) | _ => false end.
(** A sweep of an instance whose claims go stale after [stale]. *)
Definition sweeps_after (stale : Z) (s : OpStatement) : bool :=
  match s with SRelease secs => (stale <=? secs * time_Second)%Z | _ => true end.

Lemma claim_kept now s d k r stale t0 :
  t_scheduled_ops d !! k = Some r → so_Status r = 1%Z → so_ClaimedAt r = Some t0 →
  (now <= t0 + stale)%Z → ends_claim k s = false → sweeps_after stale s = true → run_statement now s d !! k = Some r.
Proof.
  intros Hk Hs Ht Hnow He Hst. rewrite (run_statement_row now s d k r Hk). f_equal.
  assert (∀ id, bool_decide (id = k) = false → bool_decide (k = id) = false) as Hsym.
  { intros id H%bool_decide_eq_false. apply bool_decide_eq_false. congruence. }
  destruct s; simpl in *; rewrite ?(Hsym _ He); try done.
  - destruct (0 <=? batch)%Z; simpl; [|done]. case_bool_decide as Hin; [|done].
    apply list_elem_of_fmap in Hin as ([k' r'] & -> & Hin). apply chosen_spec in Hin as [Hk' Hd]. simpl in Hk.
    assert (r' = r) as -> by congruence. unfold op_due, has_status in Hd. by rewrite Hs in Hd.
  - unfold has_status. rewrite Hs. by rewrite andb_false_r.
  - unfold op_stale. rewrite Ht. apply Z.leb_le in Hst. rewrite (proj2 (Z.ltb_ge t0 _)) by lia. by rewrite andb_false_r.
Qed.

(** The options an executor gets when none are given. *)
Definition default_executor (inst : string) : ExecutorOptions := NewScheduledOperationExecutor None (mkExecutorOptions inst 0 0 0 0 0 0).

(** C13. An executor with the default options claims a batch; as long as each
    execution, with its lookups and writes, takes at most 150 seconds (its
    action is cut off after 120), the operation stays claimed by this executor
    until its execution ends, whatever other instances and users do meanwhile:
    no instance executes it a second time. *)
Theorem no_double_execution (inst : string) (d d1 d' : DB) (t0 : Instant) (rows : list ScheduledOpRow) (durations : list Z)
    (i : nat) (k : UUID) (r : ScheduledOpRow) (finish : Instant) (trace : list (Instant * OpStatement)) :
  ops_ok d →
  let e := default_executor inst in
  x_ClaimDueScheduledSessionOperations (eo_InstanceID e) (eo_BatchSize e) t0 d = Ok (rows, d1) →
  rows !! i = Some r → so_ID r = Some k →
  Forall (λ t, (0 <= t <= 150 * time_Second)%Z) durations →
  finish_times t0 (Z.to_nat (eo_Concurrency e)) durations !! i = Some finish →
  history d1 trace d' →
  Forall (λ ts, (fst ts <= finish)%Z ∧ ends_claim k (snd ts) = false ∧ sweeps_after (eo_StaleAfter e) (snd ts) = true) trace →
  so_Status r = 1%Z ∧ so_ClaimedBy r = Some (eo_InstanceID e) ∧ t_scheduled_ops d' !! k = Some r.
Proof.
  intros Hok e Hc Hi Hid Hdur Hfin Hh Htr. unfold x_ClaimDueScheduledSessionOperations in Hc.
  change (eo_BatchSize e <? 0)%Z with false in Hc. cbv iota in Hc. injection Hc as <- <-.
  rewrite list_lookup_fmap in Hi. destruct ((chosen _ _ _ _).*2 !! i) as [r0|] eqn:E0; [|done]. injection Hi as <-.
  rewrite list_lookup_fmap in E0. destruct (chosen _ _ _ _ !! i) as [[k0 r1]|] eqn:E1; [|done]. injection E0 as ->.
  assert (i < 16)%nat as Hlt.
  { apply lookup_lt_Some in E1. pose proof (chosen_length (op_due t0) (λ r, ts (so_NextFireAt r)) (eo_BatchSize e) (t_scheduled_ops d)) as Hl.
    eapply Nat.lt_le_trans; [exact E1|]. exact Hl. }
  apply list_elem_of_lookup_2 in E1 as Hin. pose proof (chosen_spec _ _ _ _ _ _ Hin) as [Hk0 _].
  assert (k0 = k) as -> by (pose proof (row_id _ _ (Hok _ _ Hk0)); simpl in Hid; congruence).
  split; [done|]. split; [done|].
  eapply (history_untouched _ _ (λ ts, (fst ts <= t0 + eo_StaleAfter e)%Z ∧ ends_claim k (snd ts) = false ∧ sweeps_after (eo_StaleAfter e) (snd ts) = true));
    [|exact Hh| |].
  { intros now s d0 (Hn & He & Hst) Hk. by eapply claim_kept. }
  2:{ simpl. rewrite lookup_update_rows, Hk0. simpl. rewrite bool_decide_eq_true_2; [done|]. apply list_elem_of_fmap. by exists (k, r0). }
  assert (finish <= t0 + eo_StaleAfter e)%Z as Hle.
  { pose proof (finish_times_bound t0 (150 * time_Second) 4 durations i finish ltac:(done) Hdur Hfin) as Hb.
    change (eo_StaleAfter e) with (4 * (150 * time_Second))%Z.
    assert (Z.of_nat i / Z.of_nat 4 < 4)%Z by (apply Z.div_lt_upper_bound; lia).
    change time_Second with 1000000000%Z in *. nia. }
  eapply Forall_impl; [exact Htr|]. simpl. intros x (? & ? & ?). split; [by etrans|done].
Qed.

(** A claimed operation, and an instance that looks for work and sweeps while
    it is executed. *)
Definition due_world : DB := set_scheduled_ops (λ _, {[an_id := new_op_row an_id stop_params 0%Z]}) empty_DB.
Definition busy_trace : list (Instant * OpStatement) := [((90 * time_Second)%Z, SClaim "other" 16); ((100 * time_Second)%Z, SRelease 600)].

Lemma no_double_execution_witness :
  ∃ rows d1 d' r, x_ClaimDueScheduledSessionOperations "one" 16 0%Z due_world = Ok (rows, d1) ∧ rows !! 0%nat = Some r ∧
    history d1 busy_trace d' ∧ so_Status r = 1%Z ∧ so_ClaimedBy r = Some "one" ∧ t_scheduled_ops d' !! an_id = Some r.
Proof.
  set (d1 := set_scheduled_ops (update_rows [an_id] (op_claim "one" 0%Z)) due_world).
  assert (history d1 busy_trace d1) as Hh.
  { eapply (history_cons _ _ d1 _ _ d1); [vm_compute; reflexivity|]. eapply (history_cons _ _ d1 _ _ d1); [vm_compute; reflexivity|]. by apply history_nil. }
  exists [op_claim "one" 0%Z (new_op_row an_id stop_params 0%Z)], d1, d1, (op_claim "one" 0%Z (new_op_row an_id stop_params 0%Z)).
  assert (x_ClaimDueScheduledSessionOperations "one" 16 0%Z due_world = Ok ([op_claim "one" 0%Z (new_op_row an_id stop_params 0%Z)], d1)) as Hc
    by (vm_compute; reflexivity).
  split; [exact Hc|]. split; [reflexivity|]. split; [exact Hh|].
  apply (no_double_execution "one" due_world d1 d1 0%Z [op_claim "one" 0%Z (new_op_row an_id stop_params 0%Z)] [(120 * time_Second)%Z] 0%nat an_id
    (op_claim "one" 0%Z (new_op_row an_id stop_params 0%Z)) (120 * time_Second)%Z busy_trace).
  - apply map_Forall_singleton, new_row_ok.
  - exact Hc.
  - reflexivity.
  - reflexivity.
  - repeat constructor; vm_compute; discriminate.
  - vm_compute. reflexivity.
  - exact Hh.
  - repeat constructor; vm_compute; try discriminate; reflexivity.
Defined.
