(* ===== verification/ScheduledRpc.v ===== *)
(** * Scheduled operations: the service

    [src/adapter/rpc/scheduled_session_operation_service.go] and
    [normalizePageRequest] of [src/adapter/rpc/controller_service.go].  The
    procedures are registered with [requireAuthOnly] ([RpcPermission]): the
    use case checks the permissions.  A stored message that does not decode is
    shown as the zero message; rows the program wrote do decode. *)

From S2P Require Import Prelude Entity Rfc3339 Json Digest Models Queries Ports PermissionUsecase Repositories Headless Resources.
From S2P Require Import RpcPermission Claims ScheduledOps ScheduledRepo ScheduledUsecase Messages.
From stdpp Require Import base gmap strings list.
From Stdlib Require Import ZArith Lia.

(** ** Pages *)

Definition defaultPageSize : Z := 20.
Definition maxPageSize : Z := 100.

Definition normalizePageRequest (p : option PageRequest) : Result (Z * Z) :=
  match p with
  | None => Ok (0%Z, defaultPageSize)
  | Some p =>
      if (pgr_PageIndex p <? 0)%Z then Fail (connect_NewError CodeInvalidArgument (EMsg "page_index must be >= 0"))
      else
        let pageSize := pgr_PageSize p in
        let pageSize := if (pageSize <=? 0)%Z then defaultPageSize else if (maxPageSize <? pageSize)%Z then maxPageSize else pageSize in
        Ok (pgr_PageIndex p, pageSize)
  end.

(** ** Requests to actions and triggers *)

Definition invalid_argument (msg : string) : Err := connect_NewError CodeInvalidArgument (EMsg msg).

Section Service.
Context {GR : GroupRepository} {MR : GroupMemberRepository} {SP : StartupParameters} {US : UUIDScan}.

(** [protojson.Marshal] of a message pointer: nil is the empty object. *)
Definition marshal_pointer {T} `{ProtoJSON T} (o : option T) : Result Json :=
  match o with Some m => protojson_Marshal m | None => Ok (JObj []) end.

(** the action, and the host or session it is listed under *)
Definition buildActionFromProto (op : ScheduledOperation) : Result (Action * option string * option string) :=
  match op with
  | OpStartSession start =>
      if bool_decide (swr_HostId start = EmptyString) then Fail (EMsg "start_session: host_id is required")
      else
        rbind (marshal_pointer (swr_Parameters start)) (λ paramsJSON,
        let memo := if bool_decide (swr_Memo start = EmptyString) then None else Some (swr_Memo start) in
        Ok (StartSessionAction (swr_HostId start) (default EmptyString (swr_GroupId start)) None memo (Some paramsJSON),
            Some (swr_HostId start), None))
  | OpStopSession stop =>
      if bool_decide (ssr_SessionId stop = EmptyString) then Fail (EMsg "stop_session: session_id is required")
      else Ok (StopSessionAction (ssr_SessionId stop), None, Some (ssr_SessionId stop))
  | OpUpdateParameters upd =>
      match upr_Parameters upd with
      | None => Fail (EMsg "update_parameters: parameters is required")
      | Some inner =>
          let sid := usp_SessionId inner in
          if bool_decide (sid = EmptyString) then Fail (EMsg "update_parameters: parameters.session_id is required")
          else rbind (protojson_Marshal inner) (λ paramsJSON, Ok (UpdateParametersAction sid (Some paramsJSON), None, Some sid))
      end
  | OpUpdateExtraSettings upd =>
      let sid := uer_SessionId upd in
      if bool_decide (sid = EmptyString) then Fail (EMsg "update_extra_settings: session_id is required")
      else Ok (UpdateExtraSettingsAction sid (uer_AutoUpgrade upd) (uer_Memo upd), None, Some sid)
  | OpUnset => Fail (EMsg "operation oneof is not set")
  end.

Definition buildTriggerFromProto (tr : ScheduledTrigger) : Result Trigger :=
  match tr with
  | TrTime None => Fail (EMsg "time trigger: scheduled_at is required")
  | TrTime (Some ts) => Ok (TimeTrigger ts)
  | TrSessionUserCount sid comparator threshold =>
      if bool_decide (sid = EmptyString) then Fail (EMsg "session_user_count trigger: session_id is required")
      else
        rbind (if (comparator =? COMPARATOR_LESS_OR_EQUAL)%Z then Ok SessionUserCountComparator_LESS_OR_EQUAL
               else if (comparator =? COMPARATOR_GREATER_OR_EQUAL)%Z then Ok SessionUserCountComparator_GREATER_OR_EQUAL
               else if (comparator =? COMPARATOR_UNSPECIFIED)%Z then Fail (EMsg "session_user_count trigger: comparator is required")
               else Fail (EMsg "session_user_count trigger: unknown comparator")) (λ cmp,
        if (threshold <? 0)%Z then Fail (EMsg "session_user_count trigger: threshold must be >= 0")
        else Ok (SessionUserCountTrigger sid cmp threshold))
  | TrUnset => Fail (EMsg "trigger oneof is not set")
  end.

(** ** Entities to responses *)

Definition startupParamsFromJSON (raw : Json) : WorldStartupParameters :=
  match protojson_Unmarshal raw with Ok m => m | Fail _ => startup_zero end.
Definition updateParamsFromJSON (raw : option Json) : option UpdateSessionParametersRequest :=
  match raw with Some j => match protojson_Unmarshal j with Ok m => Some m | Fail _ => None end | None => None end.

Definition triggerToProto (t : Trigger) : ScheduledTrigger :=
  match t with
  | TimeTrigger at_ => TrTime (Some at_)
  | SessionUserCountTrigger sid c n =>
      TrSessionUserCount sid
        (if (c =? SessionUserCountComparator_LESS_OR_EQUAL)%Z then COMPARATOR_LESS_OR_EQUAL
         else if (c =? SessionUserCountComparator_GREATER_OR_EQUAL)%Z then COMPARATOR_GREATER_OR_EQUAL else COMPARATOR_UNSPECIFIED) n
  end.

Definition actionToProto (a : Action) : ScheduledOperation :=
  match a with
  | StartSessionAction host _ _ memo params =>
      OpStartSession (mkStartWorldRequest host (startupParamsFromJSON <$> params) (default EmptyString memo) None)
  | StopSessionAction sid => OpStopSession (mkStopSessionRequest EmptyString sid)
  | UpdateParametersAction sid params =>
      OpUpdateParameters (mkUpdateParamsRequest EmptyString (Some (set_update_SessionId sid (default update_zero (updateParamsFromJSON params)))))
  | UpdateExtraSettingsAction sid auto memo => OpUpdateExtraSettings (mkUpdateExtraRequest sid auto memo)
  end.

Definition protoStatusToDomain (p : Z) : Z :=
  if (p =? 1)%Z then ScheduledOperationStatus_PENDING
  else if (p =? 2)%Z then ScheduledOperationStatus_RUNNING
  else if (p =? 3)%Z then ScheduledOperationStatus_SUCCEEDED
  else if (p =? 4)%Z then ScheduledOperationStatus_FAILED
  else if (p =? 5)%Z then ScheduledOperationStatus_CANCELED
  else ScheduledOperationStatus_PENDING.
Definition domainStatusToProto (s : Z) : Z :=
  if (s =? ScheduledOperationStatus_PENDING)%Z then 1
  else if (s =? ScheduledOperationStatus_RUNNING)%Z then 2
  else if (s =? ScheduledOperationStatus_SUCCEEDED)%Z then 3
  else if (s =? ScheduledOperationStatus_FAILED)%Z then 4
  else if (s =? ScheduledOperationStatus_CANCELED)%Z then 5
  else 0.

Definition scheduledOperationToProto (e : ScheduledSessionOperation) : Result PbScheduledSessionOperation :=
  rbind (DecodeTrigger (op_TriggerType e) (op_TriggerConfig e)) (λ trig,
  rbind (DecodeAction (op_OperationType e) (op_OperationPayload e)) (λ act,
  Ok (mkPbScheduledOp (op_ID e) (actionToProto act) (triggerToProto trig) (op_NextFireAt e) (op_HostID e) (op_SessionID e)
        (domainStatusToProto (op_Status e)) (op_LastError e) (op_ExecutedAt e) (op_CreatedBy e) (op_CreatedAt e) (op_UpdatedAt e)))).

Fixpoint ops_to_proto (es : list ScheduledSessionOperation) : Result (list PbScheduledSessionOperation) :=
  match es with
  | [] => Ok []
  | e :: es' => rbind (scheduledOperationToProto e) (λ p, rbind (ops_to_proto es') (λ ps, Ok (p :: ps)))
  end.

Definition callerUserIDOrNil (ctx : Ctx) : option string :=
  match GetAuthClaimsFromContext ctx with
  | Ok claims => if bool_decide (ac_UserID claims = EmptyString) then None else Some (ac_UserID claims)
  | Fail _ => None
  end.

(** ** Handlers; a message field that is nil is [None] *)

Definition CreateScheduledSessionOperation_rpc (ctx : Ctx) (operation : option ScheduledOperation) (trigger : option ScheduledTrigger)
  : Go PbScheduledSessionOperation :=
  match operation, trigger with
  | None, _ => fail (invalid_argument "operation is required")
  | _, None => fail (invalid_argument "trigger is required")
  | Some op, Some tr =>
      let* a := on_err (connect_NewError CodeInvalidArgument) (lift (buildActionFromProto op)) in
      let '(action, hostID, sessionID) := a in
      let* trig := on_err (connect_NewError CodeInvalidArgument) (lift (buildTriggerFromProto tr)) in
      let* created := on_err convertErr
        (Usecase_Create ctx (mkCreateParams (Some action) (Some trig) hostID sessionID (callerUserIDOrNil ctx))) in
      on_err (connect_NewError CodeInternal) (lift (scheduledOperationToProto created))
  end.

Definition ListScheduledSessionOperations_rpc (ctx : Ctx) (req : ListOpsRequest) : Go ListOpsResponse :=
  let* page := lift (normalizePageRequest (lor_Page req)) in
  let filter := mkOpListFilter (lor_SessionId req) (lor_HostId req) (protoStatusToDomain <$> lor_Status req)
                  (fst page) (snd page) (lor_GroupId req) in
  let* result := on_err convertErr (Usecase_List ctx filter) in
  let* protoList := on_err (connect_NewError CodeInternal) (lift (ops_to_proto (olr_Items result))) in
  ret (mkListOpsResponse protoList (mkPageResponse (olr_TotalCount result) (fst page) (snd page))).

Definition CancelScheduledSessionOperation_rpc (ctx : Ctx) (id : string) : Go unit :=
  if bool_decide (id = EmptyString) then fail (invalid_argument "id is required")
  else on_err (λ e, if errors_Is e ErrScheduledOperationNotCancelable then connect_NewError CodeFailedPrecondition e else convertErr e)
         (Usecase_Cancel ctx id).
End Service.
