(* ===== verification/ScheduledSafety.v ===== *)
(** * Scheduled operations: who may do what

    What scheduling, cancelling and listing do to the table and answer, for
    every caller, every request and every pattern of database failures. *)

From S2P Require Import Prelude Entity Rfc3339 Json Digest Models Queries Ports PermissionUsecase Repositories Headless Resources.
From S2P Require Import PermissionDecisions RpcPermission Claims ScheduledOps ScheduledRepo ScheduledUsecase Messages ScheduledRpc.
From stdpp Require Import base gmap strings list sorting.
From Stdlib Require Import ZArith Lia.

Implicit Types (w : World) (ctx : Ctx).

Section Safety.
Context {GR : GroupRepository} {MR : GroupMemberRepository} {V : PermissionView GR MR} {SP : StartupParameters} {US : UUIDScan}.

(** ** The group of a target *)

Definition target_group (hostID sessionID : option string) (d : DB) : Result string :=
  match given sessionID with
  | Some sid => rbind (get_session sid d) (λ s, Ok (Session_GroupID s))
  | None => match given hostID with
            | Some hid => host_group hid d
            | None => Fail (EMsg "either host_id or session_id is required")
            end
  end.

Lemma resolveTargetGroupID_reads h s : reads (resolveTargetGroupID h s) (λ _ d, target_group h s d).
Proof.
  unfold resolveTargetGroupID, target_group. destruct (given s); [|destruct (given h)].
  - eapply reads_map; [apply SessionRepo_Get_reads|done].
  - apply HostRepo_GetGroupID_reads.
  - apply reads_fail.
Qed.

(** ** Scheduling *)

(** when a new operation is looked at first *)
Definition first_fire (now : Instant) (t : Trigger) : Instant :=
  match t with
  | TimeTrigger at_ => if (now <? at_)%Z && negb (bool_decide (at_ = time_Time_zero)) then at_ else now
  | SessionUserCountTrigger _ _ _ => now
  end.

Lemma first_evaluation t w : ∃ b n, Trigger_Evaluate t no_deps w = (Ok (b, n), w) ∧
  (if bool_decide (n = time_Time_zero) then w_now w else n) = first_fire (w_now w) t.
Proof.
  destruct t as [at_|sid c n]; simpl.
  - unfold TimeTrigger_Evaluate, bind, gets, ret. simpl. destruct (w_now w <? at_)%Z; simpl.
    + do 2 eexists. split; [done|]. by case_bool_decide.
    + by do 2 eexists.
  - by do 2 eexists.
Qed.

Definition op_params (action : Action) (trigger : Trigger) (cfg : Json) (h s cb : option string) (now : Instant) : CreateOpParams :=
  mkCreateOpParams (Action_Type action) (Action_Marshal action) (Trigger_Type trigger) cfg (first_fire now trigger) h s cb.

Lemma gen_random_uuid_valid w id w' : gen_random_uuid w = (Ok id, w') → valid_uuid id ∧ w_db w' = w_db w ∧ w_now w' = w_now w.
Proof.
  unfold gen_random_uuid. intros [= <- <-]. split; [|done]. split; [apply length_resize|]. apply Forall_resize; [done|].
  apply Forall_fmap, Forall_true. intros b. simpl. unfold is_byte. apply Z.mod_pos_bound. lia.
Qed.

Lemma OpRepo_Create_run p w r w' : OpRepo_Create p w = (r, w') →
  (w_db w' = w_db w ∧ ∃ e, r = Fail e) ∨
  (∃ id, valid_uuid id ∧ t_scheduled_ops (w_db w) !! id = None ∧
     let row := new_op_row id p (w_now w) in
     w_db w' = set_scheduled_ops (<[id := row]>) (w_db w) ∧ r = scheduledSessionOperationToEntity row).
Proof.
  unfold OpRepo_Create. intros [(e & H & ->)|(row & w1 & H & Hr)]%bind_inv.
  - left. split; [|by eexists]. apply on_err_inv in H as (r0 & H & Hr0). destruct r0 as [|e0]; [done|].
    unfold CreateScheduledSessionOperation in H. apply bind_inv in H as [(e1 & H & _)|(id & w1 & H & H2)]; [done|].
    apply gen_random_uuid_valid in H as (_ & Hdb & _). apply exec_inv in H2 as [_ [(a & d & ? & _)|(e2 & _ & ->)]]; [done|done].
  - apply on_err_Ok in H. unfold CreateScheduledSessionOperation in H. apply bind_inv_Ok in H as (id & w0 & H & H2).
    apply gen_random_uuid_valid in H as (Hv & Hdb & Hnow). apply exec_Ok in H2 as [H2 _]. rewrite Hdb, Hnow in H2.
    unfold x_CreateScheduledSessionOperation, check, present in H2. case_bool_decide as Hp; [done|]. simpl in H2. injection H2 as <- Hdb1.
    injection Hr as <- <-. right. exists id. split; [done|]. split; [by apply eq_None_not_Some|]. by rewrite <-Hdb1.
Qed.

Lemma Usecase_Create_run ctx action trigger h s cb w r w' :
  Usecase_Create ctx (mkCreateParams (Some action) (Some trigger) h s cb) w = (r, w') →
  (w_db w' = w_db w ∧ ∃ e, r = Fail e) ∨
  (∃ g u cfg id, target_group h s (w_db w) = Ok g ∧ current_user ctx = Ok u ∧ holds (w_db w) u g PermKey_SessionWrite = true ∧
     Trigger_Marshal trigger = Ok cfg ∧ valid_uuid id ∧ t_scheduled_ops (w_db w) !! id = None ∧
     let row := new_op_row id (op_params action trigger cfg h s cb (w_now w)) (w_now w) in
     w_db w' = set_scheduled_ops (<[id := row]>) (w_db w) ∧ r = scheduledSessionOperationToEntity row).
Proof.
  unfold Usecase_Create. simpl. intros [(e & H & ->)|(g & w1 & H & Hr)]%bind_inv;
    apply (reads_inv _ _ _ _ _ (resolveTargetGroupID_reads h s)) in H as [Hof1 Hg]; [left; split; [by apply only_faults_db|by eexists]|].
  specialize (Hg g eq_refl).
  apply bind_inv in Hr as [(e & H & ->)|([] & w2 & H & Hr)];
    apply (reads_inv _ _ _ _ _ (RequirePermissionForGroup_reads ctx g PermKey_SessionWrite)) in H as [Hof2 Hperm];
    pose proof (transitivity Hof1 Hof2) as Hof; [left; split; [by apply only_faults_db|by eexists]|].
  specialize (Hperm _ eq_refl). rewrite (only_faults_db _ _ Hof1) in Hperm.
  destruct (current_user ctx) as [u|] eqn:Eu; [|done]. simpl in Hperm. unfold guard in Hperm.
  destruct (holds (w_db w) u g PermKey_SessionWrite) eqn:Eh; [|done].
  unfold bind at 1, on_err at 1, lift at 1 in Hr.
  destruct (Trigger_Marshal trigger) as [cfg|e]; simpl in Hr; [|injection Hr as <- <-; left; split; [by apply only_faults_db|by eexists]].
  destruct (first_evaluation trigger w2) as (b & n & Hev & Hn).
  apply bind_inv in Hr as [(e & H & ->)|(ev & w3 & H & Hr)]; apply on_err_inv in H as (r0 & H & Hr0); rewrite Hev in H; injection H as <- <-;
    simpl in Hr0; [done|]. injection Hr0 as ->. unfold bind, gets in Hr. simpl in Hr. rewrite Hn in Hr.
  apply OpRepo_Create_run in Hr. rewrite (only_faults_db _ _ Hof), (only_faults_now _ _ Hof) in Hr.
  destruct Hr as [[? ?]|(id & Hv & Hid & Hdb & ->)]; [by left|]. right. exists g, u, cfg, id. auto 10.
Qed.

Lemma schedule_cases ctx (operation : option ScheduledOperation) (trigger : option ScheduledTrigger) w :
  let '(r, w') := CreateScheduledSessionOperation_rpc ctx operation trigger w in
  (w_db w' = w_db w ∧ ∃ e, r = Fail e) ∨
  ∃ op tr action t h s g u cfg id,
    operation = Some op ∧ buildActionFromProto op = Ok (action, h, s) ∧
    trigger = Some tr ∧ buildTriggerFromProto tr = Ok t ∧ Trigger_Marshal t = Ok cfg ∧
    target_group h s (w_db w) = Ok g ∧ current_user ctx = Ok u ∧ holds (w_db w) u g PermKey_SessionWrite = true ∧
    valid_uuid id ∧ t_scheduled_ops (w_db w) !! id = None ∧
    w_db w' = set_scheduled_ops (<[id := new_op_row id (op_params action t cfg h s (Some u) (w_now w)) (w_now w)]>) (w_db w) ∧
    ∀ p, r = Ok p → Ok (po_Id p) = formatUUID (Some id) ∧ po_Status p = 1%Z.
Proof.
  destruct (CreateScheduledSessionOperation_rpc ctx operation trigger w) as [r w'] eqn:E.
  unfold CreateScheduledSessionOperation_rpc in E.
  destruct operation as [op|]; [|injection E as <- <-; left; split; [done|by eexists]].
  destruct trigger as [tr|]; [|injection E as <- <-; left; split; [done|by eexists]].
  unfold bind at 1, on_err at 1, lift at 1 in E. destruct (buildActionFromProto op) as [[[action h] s]|e] eqn:Ea; simpl in E;
    [|injection E as <- <-; left; split; [done|by eexists]].
  unfold bind at 1, on_err at 1, lift at 1 in E. destruct (buildTriggerFromProto tr) as [t|e] eqn:Et; simpl in E;
    [|injection E as <- <-; left; split; [done|by eexists]].
  apply bind_inv in E as [(e & H & ->)|(created & w1 & H & E)]; apply on_err_inv in H as (r0 & H & Hr0); apply Usecase_Create_run in H.
  - destruct H as [[Hdb _]|(g & u & cfg & id & _ & _ & _ & _ & _ & _ & _ & ->)]; [left; split; [done|by eexists]|].
    destruct (format_total id) as [sid Hs]. unfold scheduledSessionOperationToEntity in Hr0. simpl in Hr0. discriminate.
  - assert (w' = w1) as -> by (unfold on_err, lift in E; by injection E).
    destruct H as [[_ [e ->]]|(g & u & cfg & id & Hg & Hu & Hh & Hcfg & Hv & Hid & Hdb & Hr)]; [done|].
    right. exists op, tr, action, t, h, s, g, u, cfg, id.
    assert (callerUserIDOrNil ctx = Some u) as Hcb.
    { unfold callerUserIDOrNil, current_user in *. destruct ctx as [c|]; [|done]. simpl. destruct (bool_decide _); congruence. }
    rewrite Hcb in Hdb, Hr. do 10 (split; [done|]). split; [done|]. intros p ->. rewrite Hr in Hr0. unfold scheduledSessionOperationToEntity in Hr0.
    destruct (format_total id) as [sid Hs]. cbn [so_ID new_op_row] in Hr0. rewrite Hs in Hr0. simpl in Hr0. injection Hr0 as ->.
    unfold on_err, lift, scheduledOperationToProto in E. cbn [op_TriggerType op_TriggerConfig op_OperationType op_OperationPayload] in E.
    destruct (DecodeTrigger _ _) as [trig|]; [|done]. simpl in E. destruct (DecodeAction _ _) as [act|]; [|done]. simpl in E.
    injection E as <-. by rewrite Hs.
Qed.

(** C16. A request to schedule either changes nothing and fails, or adds
    exactly one operation: a new pending one, with the requested action and
    trigger, on the requested host or session, created by the caller, who may
    write sessions in the group of that host or session. *)
Theorem schedule_exact ctx (operation : option ScheduledOperation) (trigger : option ScheduledTrigger) w :
  let '(r, w') := CreateScheduledSessionOperation_rpc ctx operation trigger w in
  (w_db w' = w_db w ∧ ∃ e, r = Fail e) ∨
  ∃ op tr action t h s g u cfg id,
    operation = Some op ∧ buildActionFromProto op = Ok (action, h, s) ∧
    trigger = Some tr ∧ buildTriggerFromProto tr = Ok t ∧ Trigger_Marshal t = Ok cfg ∧
    target_group h s (w_db w) = Ok g ∧ current_user ctx = Ok u ∧ holds (w_db w) u g PermKey_SessionWrite = true ∧
    valid_uuid id ∧ t_scheduled_ops (w_db w) !! id = None ∧
    w_db w' = set_scheduled_ops (<[id := new_op_row id (op_params action t cfg h s (Some u) (w_now w)) (w_now w)]>) (w_db w) ∧
    ∀ p, r = Ok p → Ok (po_Id p) = formatUUID (Some id) ∧ po_Status p = 1%Z.
Proof. apply schedule_cases. Qed.

(** ** Cancelling *)

Lemma set_same_ops d : set_scheduled_ops (λ _, t_scheduled_ops d) d = d.
Proof. by destruct d. Qed.

Lemma entity_fields row op : scheduledSessionOperationToEntity row = Ok op →
  op_HostID op = so_HostID row ∧ op_SessionID op = so_SessionID row.
Proof. unfold scheduledSessionOperationToEntity. destruct (formatUUID _); simpl; [|done]. by intros [= <-]. Qed.

Definition get_op (id : string) (d : DB) : Result ScheduledSessionOperation :=
  rbind (parseUUID id) (λ uid, rbind (map_err wrap_op (q_GetScheduledSessionOperation uid 0%Z d)) scheduledSessionOperationToEntity).

Lemma OpRepo_Get_reads id : reads (OpRepo_Get id) (λ _ d, get_op id d).
Proof.
  eapply reads_bind_ext with (g := λ uid _ d, rbind (map_err wrap_op (q_GetScheduledSessionOperation uid 0%Z d)) scheduledSessionOperationToEntity);
    [apply reads_lift| |done].
  intros uid. eapply reads_bind_ext with (g := λ row _ _, scheduledSessionOperationToEntity row);
    [apply on_err_reads, reads_query|intros row; apply reads_lift|done].
Qed.

(** Cancelling either changes nothing and fails, or cancels exactly the
    named operation, which was pending, for a caller who may write sessions in
    the group of its host or session. *)
Theorem cancel_exact ctx (id : string) w :
  let '(r, w') := Usecase_Cancel ctx id w in
  (w_db w' = w_db w ∧ ∃ e, r = Fail e) ∨
  (r = Ok tt ∧ ∃ k row g u, parseUUID id = Ok k ∧ t_scheduled_ops (w_db w) !! k = Some row ∧ so_Status row = 0%Z ∧
     target_group (so_HostID row) (so_SessionID row) (w_db w) = Ok g ∧
     current_user ctx = Ok u ∧ holds (w_db w) u g PermKey_SessionWrite = true ∧
     w_db w' = set_scheduled_ops (<[k := op_cancel (w_now w) row]>) (w_db w)).
Proof.
  destruct (Usecase_Cancel ctx id w) as [r w'] eqn:E. unfold Usecase_Cancel in E.
  apply bind_inv in E as [(e & H & ->)|(op & w1 & H & E)]; apply (reads_inv _ _ _ _ _ (OpRepo_Get_reads id)) in H as [Hof1 Hop];
    [left; split; [by apply only_faults_db|by eexists]|]. specialize (Hop _ eq_refl).
  apply bind_inv in E as [(e & H & ->)|(g & w2 & H & E)]; apply (reads_inv _ _ _ _ _ (resolveTargetGroupID_reads _ _)) in H as [Hof2 Hg];
    pose proof (transitivity Hof1 Hof2) as Hof; [left; split; [by apply only_faults_db|by eexists]|]. specialize (Hg _ eq_refl).
  rewrite (only_faults_db _ _ Hof1) in Hg.
  apply bind_inv in E as [(e & H & ->)|([] & w3 & H & E)]; apply (reads_inv _ _ _ _ _ (RequirePermissionForGroup_reads ctx g PermKey_SessionWrite)) in H as [Hof3 Hp];
    rewrite (only_faults_db _ _ Hof) in Hp; pose proof (transitivity Hof Hof3) as Hof'; [left; split; [by apply only_faults_db|by eexists]|].
  specialize (Hp _ eq_refl). destruct (current_user ctx) as [u|] eqn:Eu; [|done]. simpl in Hp. unfold guard in Hp.
  destruct (holds (w_db w) u g PermKey_SessionWrite) eqn:Eh; [|done]. clear Hp Hof1 Hof2 Hof3 Hof.
  unfold get_op in Hop. destruct (parseUUID id) as [k|] eqn:Ek; [|done]. simpl in Hop. unfold q_GetScheduledSessionOperation in Hop.
  destruct (t_scheduled_ops (w_db w) !! k) as [row|] eqn:Er; [|done]. simpl in Hop.
  destruct (entity_fields _ _ Hop) as [Hh Hs]. rewrite Hh, Hs in Hg.
  assert (∀ r w', OpRepo_Cancel id w3 = (r, w') →
     (w_db w' = w_db w ∧ (r = Ok false ∨ ∃ e, r = Fail e)) ∨
     (r = Ok true ∧ so_Status row = 0%Z ∧ w_db w' = set_scheduled_ops (<[k := op_cancel (w_now w) row]>) (w_db w))) as Hrun.
  { intros r0 w0 H. unfold OpRepo_Cancel in H. rewrite Ek in H. unfold bind at 1, lift in H.
    apply bind_inv in H as [(e & H & ->)|(n & w4 & H & H2)]; apply on_err_inv in H as (r1 & H & Hr1);
      apply exec_inv in H as [_ [(n' & d & -> & Hx & Hdb)|(e' & -> & Hdb)]]; try done;
      [left; rewrite Hdb, (only_faults_db _ _ Hof'); eauto|].
    unfold ret in H2. injection H2 as <- <-. simpl in Hr1. injection Hr1 as ->.
    rewrite (only_faults_db _ _ Hof'), (only_faults_now _ _ Hof') in Hx. unfold x_CancelScheduledSessionOperation, so_update_one, update_one in Hx.
    rewrite Er in Hx. destruct (has_status 0 row) eqn:Est; injection Hx as <- <-.
    - right. split; [done|]. split; [by apply Z.eqb_eq|done].
    - left. split; [by rewrite Hdb, set_same_ops|by left]. }
  apply bind_inv in E as [(e & H & ->)|([] & w4 & H & E)]; apply Hrun in H; unfold ret, fail in *.
  - destruct H as [[Hdb _]|[? _]]; [left; split; [done|by eexists]|done].
  - injection E as <- <-. destruct H as [[_ [?|[? ?]]]|(_ & Hst & Hdb)]; [done..|]. right. split; [done|]. exists k, row, g, u. auto 10.
  - injection E as <- <-. destruct H as [[Hdb _]|[? _]]; [left; split; [done|by eexists]|done].
Qed.

(** ** Listing *)

(** The user may see sessions in a group of one of the operation's targets. *)
Definition op_readable (d : DB) (u : string) (op : ScheduledSessionOperation) : Prop :=
  has_system d u PermKey_SystemGroupList = true ∨
  ∃ g, (target_group (op_HostID op) (op_SessionID op) d = Ok g ∨ target_group (op_HostID op) None d = Ok g) ∧
       holds d u g PermKey_SessionRead = true.

Lemma ops_to_entities_spec rows es : ops_to_entities rows = Ok es → Forall2 (λ r e, scheduledSessionOperationToEntity r = Ok e) rows es.
Proof.
  revert es. induction rows as [|r rows IH]; simpl; intros es; [intros [= <-]; constructor|].
  destruct (scheduledSessionOperationToEntity r) as [e|] eqn:Er; [|done]. simpl.
  destruct (ops_to_entities rows) as [es'|]; [|done]. simpl. intros [= <-]. constructor; auto.
Qed.

Definition list_params (f : OpListFilter) : ListOpsParams :=
  let pageSize := repo_page_size (olf_PageSize f) in
  mkListOpsParams (olf_SessionID f) (olf_HostID f) (olf_Status f) (int32 (olf_PageIndex f * pageSize)) pageSize.

Lemma OpRepo_List_items f w res w' : OpRepo_List f w = (Ok res, w') →
  only_faults w w' ∧
  ∀ op, op ∈ olr_Items res → ∃ row, op_matches (list_params f) row = true ∧ scheduledSessionOperationToEntity row = Ok op.
Proof.
  unfold OpRepo_List. fold (list_params f). intros (rows & w1 & H & E)%bind_inv_Ok. apply on_err_Ok in H.
  apply (reads_inv _ _ _ _ _ (reads_query _)) in H as [Hof Hr]. specialize (Hr _ eq_refl).
  apply bind_inv_Ok in E as (items & w2 & H & E). unfold lift in H. injection H as Hi <-. unfold ret in E. injection E as <- <-.
  split; [done|]. simpl. intros op Hop. apply ops_to_entities_spec in Hi.
  apply list_elem_of_lookup in Hop as [i Hop]. destruct (Forall2_lookup_r _ _ _ _ _ Hi Hop) as (row & Hrow & He). exists row. split; [|done].
  apply list_elem_of_lookup_2, list_elem_of_fmap in Hrow as ([row' n] & -> & Hrow).
  apply (limit_offset_spec _ _ _ _ _ _ Hr) in Hrow as [Hm _]. simpl.
  unfold matching_ops, order_by in Hm. rewrite merge_sort_Permutation, list_elem_of_In, List.filter_In in Hm. tauto.
Qed.

Lemma accessible_ops_spec gs ops w res w' : accessible_ops gs ops w = (Ok res, w') →
  only_faults w w' ∧ ∀ op, op ∈ res → op ∈ ops ∧ ∃ g, target_group (op_HostID op) (op_SessionID op) (w_db w) = Ok g ∧ g ∈ gs.
Proof.
  revert w res w'. induction ops as [|op ops IH]; intros w res w'; simpl.
  { unfold ret. intros [= <- <-]. split; [reflexivity|]. intros op Hop. by apply elem_of_nil in Hop. }
  intros (r & w1 & H & E)%bind_inv_Ok. unfold attempt in H.
  destruct (resolveTargetGroupID (op_HostID op) (op_SessionID op) w) as [r0 w0] eqn:E0. injection H as -> <-.
  apply (reads_inv _ _ _ _ _ (resolveTargetGroupID_reads _ _)) in E0 as [Hof1 Hg].
  apply bind_inv_Ok in E as (rest & w2 & H & E). apply IH in H as [Hof2 Hrest]. rewrite (only_faults_db _ _ Hof1) in Hrest.
  unfold ret in E. injection E as Hres <-. split; [by etrans|]. intros op' Hop'.
  assert (op' ∈ rest → op' ∈ op :: ops ∧ ∃ g, target_group (op_HostID op') (op_SessionID op') (w_db w) = Ok g ∧ g ∈ gs) as Hin.
  { intros Hin. destruct (Hrest _ Hin) as [? ?]. split; [by right|done]. }
  destruct r as [g|e]; subst res; [|by apply Hin]. case_bool_decide as Hgs; [|by apply Hin].
  apply elem_of_cons in Hop' as [->|Hop']; [|by apply Hin]. split; [by left|]. exists g. split; [by apply Hg|done].
Qed.

Lemma page_of_items l i n res : page_of l i n = Ok res → ∀ op, op ∈ olr_Items res → op ∈ l.
Proof.
  unfold page_of. cbv zeta. destruct (_ || _); [intros [= <-] op Hop; by apply elem_of_nil in Hop|].
  destruct (_ <? _)%Z; [done|]. intros [= <-] op. cbn [olr_Items]. intros Hop.
  eapply elem_of_subseteq; [|eapply elem_of_subseteq; [apply subseteq_take|exact Hop]]. apply subseteq_drop.
Qed.

Lemma listFiltered_items f gs w res w' : listFilteredByGroups f gs w = (Ok res, w') →
  only_faults w w' ∧ ∀ op, op ∈ olr_Items res → ∃ g, target_group (op_HostID op) (op_SessionID op) (w_db w) = Ok g ∧ g ∈ gs.
Proof.
  unfold listFilteredByGroups. intros (r1 & w1 & H & E)%bind_inv_Ok. apply OpRepo_List_items in H as [Hof1 _].
  apply bind_inv_Ok in E as (l & w2 & H & E). apply accessible_ops_spec in H as [Hof2 Hl]. rewrite (only_faults_db _ _ Hof1) in Hl.
  unfold lift in E. injection E as Hp <-. split; [by etrans|]. intros op Hop. eapply page_of_items in Hop; [|exact Hp].
  by apply Hl in Hop as [_ ?].
Qed.

(** Whatever fails meanwhile, a listing changes nothing and shows an
    operation only to a caller who may list every group, or who may read
    sessions in the group of its host or session. *)
Theorem list_safe ctx (f : OpListFilter) w (res : OpListResult) w' :
  Usecase_List ctx f w = (Ok res, w') →
  w_db w' = w_db w ∧ ∀ op, op ∈ olr_Items res → ∃ u, current_user ctx = Ok u ∧ op_readable (w_db w) u op.
Proof.
  intros E. unfold Usecase_List in E. destruct (given (olf_GroupID f)) as [g|] eqn:Eg; [|destruct (_ || _) eqn:Ef].
  - apply bind_inv_Ok in E as ([] & w1 & H & E). apply (reads_inv _ _ _ _ _ (RequirePermissionForGroup_reads _ _ _)) in H as [Hof Hp].
    specialize (Hp _ eq_refl). apply listFiltered_items in E as [Hof2 Hi]. rewrite (only_faults_db _ _ Hof) in Hi.
    split; [apply only_faults_db; by etrans|]. intros op Hop. destruct (Hi op Hop) as (g' & Hg & ->%list_elem_of_singleton).
    destruct (current_user ctx) as [u|]; [|done]. exists u. split; [done|]. right. exists g. split; [by left|].
    simpl in Hp. unfold guard in Hp. by destruct (holds _ _ _ _).
  - apply bind_inv_Ok in E as (r & w1 & H & E). unfold attempt in H. destruct (resolveTargetGroupID _ _ w) as [r0 w0] eqn:E0. injection H as -> <-.
    apply (reads_inv _ _ _ _ _ (resolveTargetGroupID_reads _ _)) in E0 as [Hof1 Hg]. destruct r as [g|e].
    + specialize (Hg _ eq_refl). apply bind_inv_Ok in E as ([] & w1 & H & E).
      apply (reads_inv _ _ _ _ _ (RequirePermissionForGroup_reads _ _ _)) in H as [Hof2 Hp]. specialize (Hp _ eq_refl).
      rewrite (only_faults_db _ _ Hof1) in Hp. apply OpRepo_List_items in E as [Hof3 Hi].
      split; [apply only_faults_db; etrans; [exact Hof1|by etrans]|]. intros op Hop. destruct (Hi op Hop) as (row & Hm & He).
      destruct (entity_fields _ _ He) as [Hh Hs]. destruct (current_user ctx) as [u|]; [|done]. exists u. split; [done|]. right. exists g.
      split; [|simpl in Hp; unfold guard in Hp; by destruct (holds _ _ _ _)]. rewrite Hh, Hs.
      unfold op_matches in Hm. apply andb_true_iff in Hm as [[Hm1 Hm2]%andb_true_iff _]. simpl in Hm1, Hm2.
      unfold unless_given in Hm1, Hm2. unfold target_group in *. simpl.
      destruct (olf_SessionID f) as [s|]; [apply bool_decide_eq_true in Hm1; rewrite Hm1|]; simpl in Hg;
        (destruct (olf_HostID f) as [h|]; [apply bool_decide_eq_true in Hm2; rewrite Hm2|]); simpl in Hg |- *; auto.
      * destruct (bool_decide (s = EmptyString)); [done|by left].
      * done.
    + destruct (errors_Is e ErrNotFound); [|done]. unfold ret in E. injection E as <- <-.
      split; [by apply only_faults_db|]. intros op Hop. by apply elem_of_nil in Hop.
  - apply bind_inv_Ok in E as (u & w1 & H & E). apply (reads_inv _ _ _ _ _ (CurrentUserID_reads _)) in H as [Hof1 Hu]. specialize (Hu _ eq_refl).
    apply bind_inv_Ok in E as (flt & w2 & H & E). apply (reads_inv _ _ _ _ _ (ResolveListGroupFilter_reads _ _)) in H as [Hof2 Hf].
    specialize (Hf _ eq_refl). rewrite (only_faults_db _ _ Hof1) in Hf. injection Hf as Hf. pose proof (transitivity Hof1 Hof2) as Hof.
    unfold PermissionDecisions.list_filter in Hf. destruct (has_system (w_db w) u PermKey_SystemGroupList) eqn:Es; subst flt; cbn [fst snd] in E.
    + apply OpRepo_List_items in E as [Hof3 _]. split; [apply only_faults_db; by etrans|]. intros op _. exists u. split; [done|by left].
    + apply listFiltered_items in E as [Hof3 Hi]. rewrite (only_faults_db _ _ Hof) in Hi. split; [apply only_faults_db; by etrans|].
      intros op Hop. destruct (Hi op Hop) as (g & Hg & Hgs). exists u. split; [done|]. right. exists g. split; [by left|].
      apply list_elem_of_fmap in Hgs as (m & -> & Hm). apply list_elem_of_filter in Hm as [Hm _]. unfold listed in Hm.
      apply andb_true_iff in Hm as [_ Hm]. by apply orb_true_iff in Hm as [Hm|Hm].
Qed.
End Safety.
