(* ===== verification/ScheduledTheorems.v ===== *)
(** * Scheduled operations: properties

    Scheduling, cancelling and listing behave as the permissions say; what is
    stored decodes to what was asked for; an execution does what its trigger
    and its creator's permissions allow and records the outcome. *)

From S2P Require Import Prelude Entity Rfc3339 Json Digest Models Queries Ports PermissionUsecase Repositories Headless Resources PlainJson.
From S2P Require Import StoreInvariant PermissionInvariant PermissionSystem PermissionDecisions PermissionSafety RpcPermission RpcAccess Claims ScheduledOps ScheduledRepo ScheduledUsecase Slots ScheduledExecutor ScheduledSystem Messages ScheduledRpc.
From stdpp Require Import base gmap strings list.
From Stdlib Require Import ZArith Lia.

(** ** What is stored decodes *)

Section Stored.
Context {SP : StartupParameters}.

(** a required string, then the rest *)
Lemma required_ok {A} (s : string) (e : Err) (r : Result A) : s ≠ EmptyString → (if bool_decide (s = EmptyString) then Fail e else r) = r.
Proof. intros H. by rewrite bool_decide_eq_false_2. Qed.

Lemma action_roundtrip a : action_ok a → DecodeAction (Action_Type a) (Action_Marshal a) = Ok a.
Proof.
  destruct a as [host group user memo params|sid|sid params|sid auto memo].
  - intros [H [j ->]]. etransitivity; [|apply (required_ok host (EMsg "start session action: host_id is required")), H].
    by destruct user, memo.
  - intros H. etransitivity; [|apply (required_ok sid (EMsg "stop session action: session_id is required")), H]. done.
  - intros [H [j ->]]. etransitivity; [|apply (required_ok sid (EMsg "update parameters action: session_id is required")), H]. done.
  - intros [H Ho]. etransitivity; [|apply (required_ok sid (EMsg "update extra settings action: session_id is required")), H].
    destruct auto, memo; try done. destruct Ho as [[? [=]]|[? [=]]].
Qed.

Lemma trigger_roundtrip t j : trigger_ok t → Trigger_Marshal t = Ok j → DecodeTrigger (Trigger_Type t) j = Ok t.
Proof.
  destruct t as [at_|sid c n]; simpl.
  - intros Hz. unfold TimeTrigger_Marshal. destruct (Time_MarshalJSON at_) as [s|] eqn:E; [|done]. intros [= <-]. apply time_json_roundtrip in E.
    transitivity (rbind (map_err (EWrap "time trigger") (match Time_UnmarshalJSON s with Some t => Ok t | None => Fail (EMsg "parsing time") end))
      (λ at_, if bool_decide (at_ = time_Time_zero) then Fail (EMsg "time trigger: scheduled_at is required") else Ok (TimeTrigger at_))).
    { reflexivity. }
    rewrite E. simpl. by rewrite bool_decide_eq_false_2.
  - intros (Hs & Hc & Hn) [= <-]. etransitivity; [|apply (required_ok sid (EMsg "session_user_count trigger: session_id is required")), Hs].
    transitivity (rbind (map_err (EWrap "session_user_count trigger")
        (rbind (set_int32 0%Z (JInt c)) (λ c, rbind (set_int32 0%Z (JInt n)) (λ n, Ok (sid, c, n))))) (λ r,
      let '(sid, c, n) := r in
      if bool_decide (sid = EmptyString) then Fail (EMsg "session_user_count trigger: session_id is required")
      else if negb (bool_decide (c ∈ [SessionUserCountComparator_LESS_OR_EQUAL; SessionUserCountComparator_GREATER_OR_EQUAL]))
      then Fail (EMsg ("session_user_count trigger: invalid comparator " +:+ fmt_d c))
      else if (n <? 0)%Z then Fail (EMsg "session_user_count trigger: threshold must be >= 0")
      else Ok (SessionUserCountTrigger sid c n))); [reflexivity|].
    assert (∀ x, (0 <= x < 2 ^ 31)%Z → set_int32 0%Z (JInt x) = Ok x) as Hint.
    { intros x Hx. unfold set_int32. by rewrite (proj2 (Z.leb_le _ x)), (proj2 (Z.ltb_lt x _)) by lia. }
    rewrite (Hint c), (Hint n) by (unfold SessionUserCountComparator_LESS_OR_EQUAL, SessionUserCountComparator_GREATER_OR_EQUAL in *; lia).
    simpl. rewrite (proj2 (Z.ltb_ge n 0)) by lia. destruct Hc as [-> | ->]; simpl; by rewrite bool_decide_eq_false_2.
Qed.

(** Requests that name something to do, at a time that is not the zero time. *)
Definition requests_something (op : ScheduledOperation) : Prop :=
  match op with OpUpdateExtraSettings m => is_Some (uer_AutoUpgrade m) ∨ is_Some (uer_Memo m) | _ => True end.
Definition requests_time (tr : ScheduledTrigger) : Prop :=
  match tr with
  | TrTime (Some t) => t ≠ time_Time_zero
  | TrSessionUserCount _ _ n => (n < 2 ^ 31)%Z
  | _ => True
  end.

(** How a request comes back: without the identifiers the answer leaves out. *)
Definition shown (op : ScheduledOperation) : ScheduledOperation :=
  match op with
  | OpStartSession m => OpStartSession (mkStartWorldRequest (swr_HostId m) (Some (default startup_zero (swr_Parameters m))) (swr_Memo m) None)
  | OpStopSession m => OpStopSession (mkStopSessionRequest EmptyString (ssr_SessionId m))
  | OpUpdateParameters m => OpUpdateParameters (mkUpdateParamsRequest EmptyString (upr_Parameters m))
  | _ => op
  end.

Lemma build_action_ok op a h s : buildActionFromProto op = Ok (a, h, s) → requests_something op → action_ok a ∧ actionToProto a = shown op.
Proof.
  destruct op as [m|m|m|m|]; simpl; [..|done].
  - case_bool_decide as Hh; [done|]. destruct (marshal_pointer (swr_Parameters m)) as [j|] eqn:Ej; [|done]. simpl. intros [= <- _ _] _.
    split; [split; [done|by eexists]|]. simpl. f_equal. unfold startupParamsFromJSON.
    assert (protojson_Unmarshal j = Ok (default startup_zero (swr_Parameters m))) as ->.
    { destruct (swr_Parameters m) as [q|]; simpl in *; [by eapply protojson_roundtrip|]. injection Ej as <-. apply startup_empty_object. }
    f_equal. case_bool_decide as Hm; simpl; congruence.
  - case_bool_decide as Hh; [done|]. intros [= <- _ _] _. done.
  - destruct (upr_Parameters m) as [inner|] eqn:Em; [|done]. case_bool_decide as Hh; [done|].
    destruct (protojson_Marshal inner) as [j|] eqn:Ej; [|done]. simpl. intros [= <- _ _] _.
    split; [split; [done|by eexists]|]. simpl. by rewrite (protojson_roundtrip _ _ Ej), set_update_same.
  - case_bool_decide as Hh; [done|]. intros [= <- _ _] Hr. split; [done|]. by destruct m.
Qed.

Lemma build_trigger_ok tr t : buildTriggerFromProto tr = Ok t → requests_time tr → trigger_ok t ∧ triggerToProto t = tr.
Proof.
  destruct tr as [[at_|]|sid c n|]; simpl; try done.
  - by intros [= <-].
  - case_bool_decide as Hs; [done|].
    destruct (Z.eqb_spec c COMPARATOR_LESS_OR_EQUAL) as [->|]; simpl; [|destruct (Z.eqb_spec c COMPARATOR_GREATER_OR_EQUAL) as [->|]; simpl;
      [|by destruct (c =? _)%Z]];
      (destruct (Z.ltb_spec n 0); [done|]); intros [= <-] Hn; (split; [|done]); (split; [done|]); (split; [auto|lia]).
Qed.

(** What an accepted request stores comes back: its action and trigger
    decode to themselves and are shown as they were sent, as long as an update
    names a setting and the time is not the zero time. *)
Theorem scheduled_request_roundtrip (op : ScheduledOperation) (tr : ScheduledTrigger) (a : Action) (h s : option string) (t : Trigger) (j : Json) :
  buildActionFromProto op = Ok (a, h, s) → buildTriggerFromProto tr = Ok t → Trigger_Marshal t = Ok j →
  requests_something op → requests_time tr →
  DecodeAction (Action_Type a) (Action_Marshal a) = Ok a ∧ DecodeTrigger (Trigger_Type t) j = Ok t ∧
  actionToProto a = shown op ∧ triggerToProto t = tr.
Proof.
  intros Ha Ht Hj Ho Hr. destruct (build_action_ok _ _ _ _ Ha Ho) as [Ha1 Ha2], (build_trigger_ok _ _ Ht Hr) as [Ht1 Ht2].
  split; [by apply action_roundtrip|]. split; [by apply trigger_roundtrip|done].
Qed.
End Stored.

#[local] Existing Instance raw_parameters.

Lemma scheduled_request_roundtrip_witness :
  let op := OpStartSession (mkStartWorldRequest "h1" None "evening" (Some "team")) in
  ∃ a h s t j, buildActionFromProto op = Ok (a, h, s) ∧ Trigger_Marshal t = Ok j ∧
    DecodeAction (Action_Type a) (Action_Marshal a) = Ok a ∧ DecodeTrigger (Trigger_Type t) j = Ok t ∧
    actionToProto a = shown op ∧ triggerToProto t = TrTime (Some 1767225600000000000%Z).
Proof.
  intros op. exists (StartSessionAction "h1" "team" None (Some "evening") (Some (JObj []))), (Some "h1"), None,
    (TimeTrigger 1767225600000000000%Z), (JObj [("scheduled_at", JStr "2026-01-01T00:00:00Z")]).
  split; [reflexivity|]. split; [vm_compute; reflexivity|].
  apply (scheduled_request_roundtrip op (TrTime (Some 1767225600000000000%Z)) _ (Some "h1") None); [reflexivity..|vm_compute; reflexivity|exact I|discriminate].
Defined.
