(* ===== verification/ScheduledFindings.v ===== *)
(** * Scheduled operations: concrete runs

    A world with a host and a session, in which the properties of
    [ScheduledSafety] and [ScheduledExecution] apply, and the runs that show
    where listing goes wrong.  The pages of a listing are here too. *)

From S2P Require Import Prelude Entity Rfc3339 Json Digest Models Queries Ports PermissionUsecase Repositories Headless Resources SessionRepo PlainJson.
From S2P Require Import PermissionDecisions PermissionSafety PermissionTheorems RpcPermission RpcAccess NotificationService Claims ScheduledOps ScheduledRepo ScheduledUsecase Slots ScheduledExecutor Messages ScheduledRpc ScheduledSafety.
From stdpp Require Import base gmap strings list.
From Stdlib Require Import ZArith Lia.
#[local] Existing Instance raw_parameters.
#[local] Existing Instance scanning_UUID.

(** ** Pages *)

Lemma normalize_bounds p i n : normalizePageRequest p = Ok (i, n) → (0 <= i)%Z ∧ (1 <= n <= 100)%Z.
Proof.
  unfold normalizePageRequest. destruct p as [[pi pn]|]; simpl; [|intros [= <- <-]; unfold defaultPageSize; lia].
  destruct (Z.ltb_spec pi 0); [done|]. intros [= <- <-].
  destruct (Z.leb_spec pn 0); [unfold defaultPageSize; lia|]. destruct (Z.ltb_spec maxPageSize pn); unfold maxPageSize in *; lia.
Qed.

(** For every page request the service accepts, paging over the
    accessible operations never slices out of range; it answers the exact page
    as long as the offset fits an int32, and otherwise the page at the offset
    that wrapped around, or none. *)
Theorem pages_exact (p : option PageRequest) (i n : Z) (ops : list ScheduledSessionOperation) :
  normalizePageRequest p = Ok (i, n) → (Z.of_nat (length ops) + 100 <= 2 ^ 31)%Z →
  let start := int32 (i * n) in
  page_of ops i n = Ok (mkOpListResult (if (start <? 0)%Z then [] else take (Z.to_nat n) (drop (Z.to_nat start) ops)) (Z.of_nat (length ops))) ∧
  ((i * n < 2 ^ 31)%Z → start = (i * n)%Z).
Proof.
  intros Hp Hl start. destruct (normalize_bounds p i n Hp) as [Hi Hn]. split; [|intros H; apply int32_id; nia].
  unfold page_of. fold start. cbv zeta. rewrite (int32_id (Z.of_nat _)) by lia.
  destruct (Z.ltb_spec start 0) as [|H0]; simpl; [done|].
  destruct (Z.leb_spec (Z.of_nat (length ops)) start) as [H1|H1].
  { rewrite drop_ge by lia. by rewrite take_nil. }
  rewrite (int32_id (start + n)) by lia. rewrite (proj2 (Z.eqb_neq n 0)) by lia. simpl.
  destruct (Z.ltb_spec (Z.of_nat (length ops)) (start + n)) as [H2|H2].
  - rewrite (proj2 (Z.ltb_ge _ _)) by lia. do 2 f_equal. rewrite !take_ge; [done|rewrite length_drop; lia..].
  - rewrite (proj2 (Z.ltb_ge _ _)) by lia. do 3 f_equal. lia.
Qed.

Lemma pages_exact_witness :
  let start := int32 (42949673 * 100) in
  page_of [] 42949673 100 = Ok (mkOpListResult (if (start <? 0)%Z then [] else take 100 (drop (Z.to_nat start) [])) 0) ∧ start = 4%Z.
Proof.
  split; [|reflexivity].
  apply (pages_exact (Some (mkPageRequest 42949673 200)) 42949673 100 []); [reflexivity|simpl; lia].
Defined.

(** ** A world with a session *)

Definition alice_session : SessionRow :=
  mkSessionRow "s1" "lobby" SessionStatus_RUNNING None (Some "alice") None "h1" (JObj []) 1 false None None None "alice-personal".
Definition session_world : World := with_db (set_sessions (<["s1" := alice_session]>) (w_db hosted_world)) hosted_world.
Definition tomorrow : Instant := (w_now session_world + 86400 * time_Second)%Z.

Definition schedule (op : ScheduledOperation) (t : Instant) (w : World) : World :=
  (CreateScheduledSessionOperation_rpc (user_ctx "alice") (Some op) (Some (TrTime (Some t))) w).2.
Definition stop_s1 : ScheduledOperation := OpStopSession (mkStopSessionRequest "h1" "s1").
Definition scheduled_world : World := schedule stop_s1 tomorrow session_world.

Definition all_ops : OpListFilter := mkOpListFilter None None None 0 20 None.
Definition listed_count (ctx : Ctx) (f : OpListFilter) (w : World) : Z :=
  match (Usecase_List ctx f w).1 with Ok res => Z.of_nat (length (olr_Items res)) | Fail _ => -1 end.

Lemma list_safe_witness :
  ∃ res w', Usecase_List (user_ctx "alice") all_ops scheduled_world = (Ok res, w') ∧ length (olr_Items res) = 1%nat ∧
    w_db w' = w_db scheduled_world ∧
    ∀ op, op ∈ olr_Items res → ∃ u, current_user (user_ctx "alice") = Ok u ∧ op_readable (w_db scheduled_world) u op.
Proof.
  assert (listed_count (user_ctx "alice") all_ops scheduled_world = 1%Z) as Hc by (vm_compute; reflexivity).
  unfold listed_count in Hc. destruct (Usecase_List (user_ctx "alice") all_ops scheduled_world) as [[res|e] w'] eqn:E; [|discriminate Hc].
  exists res, w'. split; [reflexivity|]. split; [simpl in Hc; apply Nat2Z.inj; exact Hc|].
  exact (list_safe (user_ctx "alice") all_ops scheduled_world res w' E).
Defined.

(** ** An execution *)

(** Sessions that can be stopped, and nothing else. *)
#[local] Instance stopping_operator : SessionOperator := {
  StartSession _ _ _ _ _ _ := fail (EMsg "not offered");
  StopSession _ sid := exec (λ _ d, Ok (tt, set_sessions (delete sid) d));
  UpdateSessionParameters _ _ _ := fail (EMsg "not offered");
  UpdateSessionExtraSettings _ _ _ _ := fail (EMsg "not offered") }.

#[local] Instance stopping_laws : OperatorLaws None.
Proof.
  split; [| | | |done]; intros; simpl; preserve. apply leaves_exec. by intros t d a d' [= _ <-].
Qed.

Definition op_key : UUID := replicate 16 7%Z.
Definition claimed_row : ScheduledOpRow :=
  mkScheduledOpRow (Some op_key) ScheduledOperationType_STOP_SESSION (Action_Marshal (StopSessionAction "s1")) ScheduledTriggerType_TIME
    (JObj [("scheduled_at", JStr "1970-01-01T00:00:00Z")]) (Some 0%Z) None (Some "s1") ScheduledOperationStatus_RUNNING
    None (Some "controller") (Some 0%Z) None (Some "alice") None None.
Definition claimed_world : World := put_op op_key claimed_row session_world.
Definition default_executor : ExecutorOptions := NewScheduledOperationExecutor None (mkExecutorOptions EmptyString 0 0 0 0 0 0).

Definition stopped (w : World) : bool :=
  bool_decide (t_sessions (w_db w) !! "s1" = None) &&
  match t_scheduled_ops (w_db w) !! op_key with Some r => has_status ScheduledOperationStatus_SUCCEEDED r | None => false end.

Lemma executeOne_exact_witness :
  ∃ op, scheduledSessionOperationToEntity claimed_row = Ok op ∧
    let res := after_execution None default_executor None op_key claimed_row op claimed_world in
    (w_faults claimed_world = [] → executeOne (Some UserExistsByID) None default_executor None op claimed_world = res) ∧
    (∀ check : string → Go bool, (∀ user, preserves (leaves t_scheduled_ops) (check user)) →
      op_at_most_settled op_key claimed_world (executeOne (Some check) None default_executor None op claimed_world).2 ∧
      ∀ user err w1, given (op_CreatedBy op) = Some user → check user claimed_world = (Fail err, w1) →
        errors_Is err ErrCanceled || errors_Is err ErrDeadlineExceeded = true →
        executeOne (Some check) None default_executor None op claimed_world = (Ok tt, w1)) ∧
    is_Ok res.1 && stopped res.2 = true.
Proof.
  destruct (scheduledSessionOperationToEntity claimed_row) as [op|e] eqn:E; [|discriminate E]. exists op.
  split; [reflexivity|]. cbv zeta. rewrite (assoc (∧)). split.
  - apply (executeOne_exact None default_executor None op_key claimed_row op claimed_world);
      [split; [reflexivity|repeat constructor; discriminate]|reflexivity|apply lookup_insert_eq|reflexivity|exact E].
  - injection E as <-. vm_compute. reflexivity.
Defined.

(** The write of the outcome fails: the operation stays claimed although its
    session was stopped. *)
Definition third_fails : World :=
  mkWorld (w_db claimed_world) [false; false; true] (w_now claimed_world) (w_uniuri claimed_world) (w_entropy claimed_world)
    (w_draws claimed_world) (w_cache claimed_world) (w_outside claimed_world).

Example outcome_lost :
  match scheduledSessionOperationToEntity claimed_row with
  | Ok op =>
      let w' := (executeOne (Some UserExistsByID) None default_executor None op third_fails).2 in
      bool_decide (t_sessions (w_db w') !! "s1" = None) &&
      match t_scheduled_ops (w_db w') !! op_key with Some r => has_status ScheduledOperationStatus_RUNNING r | None => false end
  | Fail _ => false
  end = true.
Proof. vm_compute. reflexivity. Qed.

(** ** Runs that go wrong *)

Definition connect_code {A} (r : Result A) : option Code :=
  match r with Fail (EConnect c _) => Some c | _ => None end.
Definition everything : ListOpsRequest := mkListOpsRequest None None None None None.
Definition list_as (u : string) (w : World) : Result ListOpsResponse := (ListScheduledSessionOperations_rpc (user_ctx u) everything w).1.

Definition change_nothing : ScheduledOperation := OpUpdateExtraSettings (mkUpdateExtraRequest "s1" None None).
Definition poisoned_world : World := schedule change_nothing tomorrow scheduled_world.

(** A concrete run: an update of the extra settings that names no setting
    is refused with an internal error, but it was stored, and from then on
    nobody who may see it can list scheduled operations, not even the
    administrator. *)
Theorem empty_update_breaks_listing :
  connect_code (CreateScheduledSessionOperation_rpc (user_ctx "alice") (Some change_nothing) (Some (TrTime (Some tomorrow))) scheduled_world).1 = Some CodeInternal ∧
  connect_code (list_as "alice" scheduled_world) = None ∧ connect_code (list_as SystemUserID scheduled_world) = None ∧
  connect_code (list_as "alice" poisoned_world) = Some CodeInternal ∧ connect_code (list_as SystemUserID poisoned_world) = Some CodeInternal.
Proof. vm_compute. repeat split. Qed.

Fixpoint times (n : nat) (f : World → World) (w : World) : World := match n with O => w | S n => times n f (f w) end.
(** 101 operations on a session of alice, all at the same time *)
Definition busy_world : World := times 101 (schedule stop_s1 tomorrow) session_world.
Definition second_page : OpListFilter := mkOpListFilter None None None 1 100 None.
Definition of_s1 : OpListFilter := mkOpListFilter (Some "s1") None None 1 100 None.

Definition total_count (ctx : Ctx) (f : OpListFilter) (w : World) : Z :=
  match (Usecase_List ctx f w).1 with Ok res => olr_TotalCount res | Fail _ => -1 end.

(** A concrete run: of 101 operations on her session, alice sees the last
    one when she asks for that session, and cannot reach it when she lists
    all, where the total is given as 100. *)
Theorem listing_hides_after_100 :
  size (t_scheduled_ops (w_db busy_world)) = 101%nat ∧
  listed_count (user_ctx "alice") of_s1 busy_world = 1%Z ∧
  listed_count (user_ctx "alice") second_page busy_world = 0%Z ∧ total_count (user_ctx "alice") all_ops busy_world = 100%Z.
Proof. vm_compute. repeat split. Qed.
