(* ===== verification/HostEvents.v ===== *)
(** * Events of the hosts

    [src/worker/host_event_watcher.go] with its checkpoints
    ([src/worker/host_event_checkpoint_store.go],
    [src/db/host_event_checkpoints.sql.go]), the retry loop of
    [src/worker/loop.go], and the handlers that only tell others:
    [src/worker/notification_dispatcher.go] and
    [src/worker/logging_host_event_handler.go].  What a handler publishes on
    the bus is its answer. *)

From S2P Require Import Prelude Entity Headless StateCache Json Digest Models Queries Ports Repositories Resources Notification Claims SessionRepo SessionUsecase Messages.
From stdpp Require Import base gmap strings list.
From Stdlib Require Import ZArith Lia.

(** ** Messages ([headlessv1.HostEvent]) *)

Inductive HostEventPayload : Type :=
  | SessionStarted (session_id session_name : string)
  | SessionEnded (session_id : string)
  | UserJoinedSession (session_id user_id user_name : string)
  | UserLeftSession (session_id user_id user_name : string)
  | WorldSaved (session_id world_url : string)
  | SessionParametersChanged (session_id : string) (session : option HeadlessSession)
  | NoPayload.

Record HostEvent : Type := mkHostEvent {
  he_Id : string; he_OccurredAt : option Instant; he_Payload : HostEventPayload }.

(** ** Checkpoints *)

Definition q_GetHostEventCheckpoint (hostID : string) (_ : Instant) (d : DB) : Result string := row_or_ErrNoRows (t_checkpoints d !! hostID).
Definition GetHostEventCheckpoint hostID : Go string := query (q_GetHostEventCheckpoint hostID).
Definition x_UpsertHostEventCheckpoint (hostID lastEventID : string) (_ : Instant) (d : DB) : Result (unit * DB) :=
  check (present hostID (t_hosts d)) "host_event_checkpoints_host_id_fkey" >>> Ok (tt, set_checkpoints (<[hostID := lastEventID]>) d).
Definition UpsertHostEventCheckpoint hostID lastEventID : Go unit := exec (x_UpsertHostEventCheckpoint hostID lastEventID).
Definition x_DeleteHostEventCheckpoint (hostID : string) (_ : Instant) (d : DB) : Result (unit * DB) := Ok (tt, set_checkpoints (delete hostID) d).
Definition DeleteHostEventCheckpoint hostID : Go unit := exec (x_DeleteHostEventCheckpoint hostID).

Definition GetCheckpoint (hostID : string) : Go string :=
  let* r := attempt (GetHostEventCheckpoint hostID) in
  match r with
  | Fail err => if errors_Is err ErrNoRows then ret EmptyString else fail err
  | Ok id => ret id
  end.
Definition UpsertCheckpoint (hostID eventID : string) : Go unit := UpsertHostEventCheckpoint hostID eventID.
Definition DeleteCheckpoint (hostID : string) : Go unit := DeleteHostEventCheckpoint hostID.

(** ** Retrying *)

(** One run of the function: how long it took and how it ended.  Durations are
    far below the 64 bits of [time.Duration]. *)
Inductive RunEnd : Type := RunCancelled | RunClean | RunFailed.
Record FnRun : Type := mkFnRun { fr_Took : Z; fr_End : RunEnd }.

Definition stableConnectionThreshold : Z := (30 * time_Second)%Z.

(** The waits between the runs, until the context is cancelled. *)
Fixpoint retry_from (baseDelay maxDelay resetAfter delay : Z) (runs : list FnRun) : list Z :=
  match runs with
  | [] => []
  | r :: runs' =>
      match fr_End r with
      | RunCancelled => []
      | e =>
          let delay := if (resetAfter <=? fr_Took r)%Z then baseDelay else delay in
          match e with
          | RunFailed => delay :: retry_from baseDelay maxDelay resetAfter (Z.min (delay * 2) maxDelay) runs'
          | _ => retry_from baseDelay maxDelay resetAfter delay runs'
          end
      end
  end.
Definition RetryWithBackoff (baseDelay maxDelay resetAfter : Z) (runs : list FnRun) : list Z :=
  retry_from baseDelay maxDelay resetAfter baseDelay runs.

(** ** Handlers *)

Record HostEventHandler : Type := mkHandler {
  HandleHostEvent : string → HostEvent → Go (list NotificationEvent);
  HandleHostEventStreamReset : string → Go (list NotificationEvent) }.

Definition KIND_JOINED : Z := 1.
Definition KIND_LEFT : Z := 2.
Definition KIND_STARTED : Z := 1.
Definition KIND_ENDED : Z := 2.

Definition NotificationDispatcher_HandleHostEvent (hostID : string) (ev : HostEvent) : Go (list NotificationEvent) :=
  let* now := gets w_now in
  let id := he_Id ev in
  let occurredAt := he_OccurredAt ev in
  ret match he_Payload ev with
      | SessionParametersChanged sid _ => [SessionUpdated now sid hostID id occurredAt]
      | WorldSaved sid _ => [SessionUpdated now sid hostID id occurredAt]
      | UserJoinedSession sid _ name => [SessionUserChanged now sid hostID name id KIND_JOINED occurredAt]
      | UserLeftSession sid _ name => [SessionUserChanged now sid hostID name id KIND_LEFT occurredAt]
      | SessionStarted sid _ => [SessionLifecycle now sid hostID id KIND_STARTED occurredAt]
      | SessionEnded sid => [SessionLifecycle now sid hostID id KIND_ENDED occurredAt]
      | NoPayload => []
      end.
Definition NotificationDispatcher_HandleHostEventStreamReset (hostID : string) : Go (list NotificationEvent) :=
  let* now := gets w_now in ret [HostUpdated now hostID EmptyString None].
Definition NotificationDispatcher : HostEventHandler :=
  mkHandler NotificationDispatcher_HandleHostEvent NotificationDispatcher_HandleHostEventStreamReset.

Definition payloadKind (ev : HostEvent) : string :=
  match he_Payload ev with
  | SessionStarted _ _ => "session_started"
  | SessionEnded _ => "session_ended"
  | UserJoinedSession _ _ _ => "user_joined_session"
  | UserLeftSession _ _ _ => "user_left_session"
  | WorldSaved _ _ => "world_saved"
  | SessionParametersChanged _ _ => "session_parameters_changed"
  | NoPayload => "unknown"
  end.

(** ** The watcher of one host *)

(** How a stream ends: the host closes it, it no longer has the resume point,
    or something else fails. *)
Inductive StreamEnd : Type := StreamEOF | StreamOutOfRange | StreamError (e : Err).

(** The stream [WatchHostEvents] opens after an event: what it delivers until it ends. *)
Class EventStreams {CC : ContainerClient} {HC : HostClients} : Type := { WatchHostEvents : Client → string → Go (list HostEvent * StreamEnd) }.

Section Watcher.
Context {CC : ContainerClient} {HC : HostClients} {ES : EventStreams} (handlers : list HostEventHandler).

(** a handler that panics is recovered and has published nothing more *)
Definition callHandler (hostID : string) (ev : HostEvent) (h : HostEventHandler) : Go (list NotificationEvent) :=
  let* r := attempt (HandleHostEvent h hostID ev) in ret match r with Ok ps => ps | Fail _ => [] end.
Definition callReset (hostID : string) (h : HostEventHandler) : Go (list NotificationEvent) :=
  let* r := attempt (HandleHostEventStreamReset h hostID) in ret match r with Ok ps => ps | Fail _ => [] end.

Fixpoint for_handlers (call : HostEventHandler → Go (list NotificationEvent)) (hs : list HostEventHandler) : Go (list NotificationEvent) :=
  match hs with
  | [] => ret []
  | h :: hs' => let* ps := call h in let* qs := for_handlers call hs' in ret (ps ++ qs)
  end.
Definition dispatch (hostID : string) (ev : HostEvent) : Go (list NotificationEvent) := for_handlers (callHandler hostID ev) handlers.
Definition notifyReset (hostID : string) : Go (list NotificationEvent) := for_handlers (callReset hostID) handlers.

Definition persistCheckpoint (hostID eventID : string) : Go unit := attempt (UpsertCheckpoint hostID eventID) ;;; ret tt.
Definition deleteCheckpoint (hostID : string) : Go unit := attempt (DeleteCheckpoint hostID) ;;; ret tt.

(** The loop over the events received; the resume point advances with each. *)
Fixpoint deliver (hostID lastEventID : string) (evs : list HostEvent) : Go (string * list NotificationEvent) :=
  match evs with
  | [] => ret (lastEventID, [])
  | ev :: evs' =>
      let* ps := dispatch hostID ev in
      persistCheckpoint hostID (he_Id ev) ;;;
      let* r := deliver hostID (he_Id ev) evs' in
      ret (fst r, ps ++ snd r)
  end.

(** It answers the resume point for the next run, what was published, and the error. *)
Definition streamOnce (hostID lastEventID : string) : Go (string * list NotificationEvent * Err) :=
  let* client := attempt (GetRpcClient hostID) in
  match client with
  | Fail err => ret (lastEventID, [], err)
  | Ok client =>
      let* stream := attempt (WatchHostEvents client lastEventID) in
      match stream with
      | Fail err => ret (lastEventID, [], err)
      | Ok (evs, ending) =>
          let* r := deliver hostID lastEventID evs in
          match ending with
          | StreamEOF => ret (fst r, snd r, EMsg "EOF")
          | StreamError err => ret (fst r, snd r, err)
          | StreamOutOfRange =>
              deleteCheckpoint hostID ;;;
              let* ps := notifyReset hostID in
              ret (EmptyString, snd r ++ ps, EMsg "out of range")
          end
      end
  end.

(** The runs of [runHostStream] until its context is cancelled. *)
Fixpoint stream_runs (hostID lastEventID : string) (n : nat) : Go (list NotificationEvent) :=
  match n with
  | O => ret []
  | S n' =>
      let* r := streamOnce hostID lastEventID in
      let* ps := stream_runs hostID (fst (fst r)) n' in
      ret (snd (fst r) ++ ps)
  end.
Definition runHostStream (hostID : string) (n : nat) : Go (list NotificationEvent) :=
  let* r := attempt (GetCheckpoint hostID) in
  stream_runs hostID (match r with Ok id => id | Fail _ => EmptyString end) n.
End Watcher.

(** ** Streams and hosts *)

(** [reconcile]: the hosts whose streams go on, are cancelled, and are started. *)
Definition reconcile (running streams : gset string) : gset string * gset string * gset string :=
  (streams ∩ running, streams ∖ running, running ∖ streams).

(** ** Sessions: what host events do to them

    [src/worker/session_lifecycle_handler.go] keeps the rows up to date with
    the sessions that start and end in a container;
    [src/worker/session_state_sync_handler.go] keeps the cache and the startup
    parameters, and rebuilds both when a stream is reset.  Log lines are left
    out, so an error that is only logged is an [attempt] whose result is
    dropped. *)

Section Handlers.
Context {SP : StartupParameters} {RJ : RealJSON} {CC : ContainerClient} {HC : HostClients}.

(** ** Lifecycle *)

Definition handleSessionStarted (hostID : string) (occurredAt : Instant) (sessionID sessionName : string) : Go unit :=
  let newSession := mkSession sessionID sessionName SessionStatus_RUNNING (Some occurredAt) None None hostID (Some startup_zero) false EmptyString
                      None EmptyString in
  let* r := attempt (SessionRepo_InsertFromEvent newSession) in
  match r with
  | Fail _ => ret tt
  | Ok _ => attempt (SessionRepo_ApplySessionStarted sessionID hostID sessionName occurredAt) ;;; ret tt
  end.

Definition handleSessionEnded (hostID : string) (occurredAt : Instant) (sessionID : string) : Go unit :=
  let* existing := attempt (SessionRepo_Get sessionID) in
  match existing with
  | Fail _ => ret tt
  | Ok existing =>
      if negb (bool_decide (Session_HostID existing = hostID)) then ret tt
      else if match Session_StartedAt existing with Some s => (occurredAt <? s)%Z | None => false end then ret tt
      else attempt (SessionRepo_ApplySessionEnded sessionID hostID occurredAt) ;;; ret tt
  end.

Definition SessionLifecycle_HandleHostEvent (hostID : string) (ev : HostEvent) : Go unit :=
  match he_OccurredAt ev with
  | None => ret tt
  | Some occurredAt =>
      match he_Payload ev with
      | SessionStarted sid name => handleSessionStarted hostID occurredAt sid name
      | SessionEnded sid => handleSessionEnded hostID occurredAt sid
      | _ => ret tt
      end
  end.
Definition SessionLifecycleHandler : HostEventHandler :=
  mkHandler (λ h ev, SessionLifecycle_HandleHostEvent h ev ;;; ret []) (λ _, ret []).

(** ** State *)

Definition applySessionParametersChanged (hostID sessionID : string) (snapshot : option HeadlessSession) : Go unit :=
  match snapshot with
  | None => ret tt
  | Some x =>
      stateCache_Set hostID sessionID (Some x) ;;;
      attempt (SessionRepo_ApplySessionParametersChanged sessionID (Some x)) ;;;
      ret tt
  end.

(** Get, a changed copy, Set: a write of another goroutine in between would be lost, which is not modelled *)
Definition update_cached (hostID sessionID : string) (f : HeadlessSession → HeadlessSession) : Go unit :=
  let* existing := stateCache_Get sessionID in
  match existing with
  | Some x => stateCache_Set hostID sessionID (Some (f x))
  | None => ret tt
  end.

Definition applyWorldSaved (hostID sessionID worldURL : string) : Go unit :=
  if bool_decide (worldURL = EmptyString) then ret tt
  else
    update_cached hostID sessionID (set_WorldUrl worldURL) ;;;
    attempt (SessionRepo_UpdateAfterWorldSaved sessionID worldURL) ;;;
    ret tt.

Definition bumpUsersCount (hostID sessionID : string) (delta : Z) : Go unit :=
  update_cached hostID sessionID (λ x, set_UsersCount (Z.max (int32 (hs_UsersCount x + delta)) 0) x).

Definition SessionStateSync_HandleHostEvent (hostID : string) (ev : HostEvent) : Go unit :=
  match he_Payload ev with
  | SessionParametersChanged sid s => applySessionParametersChanged hostID sid s
  | WorldSaved sid url => applyWorldSaved hostID sid url
  | UserJoinedSession sid _ _ => bumpUsersCount hostID sid 1
  | UserLeftSession sid _ _ => bumpUsersCount hostID sid (-1)
  | SessionEnded sid => stateCache_Delete sid
  | SessionStarted _ _ | NoPayload => ret tt
  end.

(** ** After a reset *)

(** the last session of each id *)
Definition live_sessions (l : list HeadlessSession) : gmap string HeadlessSession := foldl (λ m s, <[hs_Id s := s]> m) ∅ l.

Fixpoint set_all (hostID : string) (l : list (string * HeadlessSession)) : Go unit :=
  match l with
  | [] => ret tt
  | (sessionID, snapshot) :: l' => stateCache_Set hostID sessionID (Some snapshot) ;;; set_all hostID l'
  end.
Fixpoint downgrade_lost (live : gmap string HeadlessSession) (l : list Session) : Go unit :=
  match l with
  | [] => ret tt
  | s :: l' =>
      (if bool_decide (is_Some (live !! Session_ID s)) then ret tt
       else attempt (SessionRepo_DowngradeToUnknownIfRunning (Session_ID s)) ;;; ret tt) ;;;
      downgrade_lost live l'
  end.

Definition SessionStateSync_HandleHostEventStreamReset (hostID : string) : Go unit :=
  let* runningSessions := attempt (SessionRepo_ListByHostAndStatus hostID SessionStatus_RUNNING) in
  match runningSessions with
  | Fail _ => ret tt
  | Ok runningSessions =>
      let* client := attempt (GetRpcClient hostID) in
      match client with
      | Fail _ => ret tt
      | Ok client =>
          let* listResp := attempt (rpc_ListSessions client) in
          match listResp with
          | Fail _ => ret tt
          | Ok sessions =>
              let live := live_sessions sessions in
              set_all hostID (map_to_list live) ;;;
              stateCache_PruneHost hostID (dom live) ;;;
              downgrade_lost live runningSessions
          end
      end
  end.
Definition SessionStateSyncHandler : HostEventHandler :=
  mkHandler (λ h ev, SessionStateSync_HandleHostEvent h ev ;;; ret []) (λ h, SessionStateSync_HandleHostEventStreamReset h ;;; ret []).
End Handlers.
