(* ===== verification/SessionRedelivery.v ===== *)
(** * Sessions: events delivered again

    Delivery is at least once ([HostEventHandler]).  For the handler of the
    lifecycle of sessions that is harmless: a start or an end that was
    handled, in the order of one host, changes nothing when it comes again. *)

From S2P Require Import Prelude Entity Json Headless StateCache Digest Models Queries Ports Repositories Resources SessionRepo Claims SessionUsecase SessionSafety PlainJson PermissionSafety RpcAccess Notification Messages HostEvents SessionSearch.

From stdpp Require Import base gmap strings list sorting.
From Stdlib Require Import ZArith Lia.

(** ** One event and one row *)

Section Rows.
Context {SP : StartupParameters}.

(** The row a container's session gets that was not started from here. *)
Definition row_from_event (id name hostID : string) (t : Instant) (params : Json) (now : Instant) (h : HostRow) : SessionRow :=
  mkSessionRow id name SessionStatus_RUNNING (Some (to_microseconds t)) None None hostID params 1 false None (Some now) (Some now) (ho_GroupID h).

Definition started_row (hostID : string) (host : option HostRow) (t : Instant) (id name : string) (now : Instant) (o : option SessionRow)
  : option SessionRow :=
  match protojson_Marshal startup_zero with
  | Fail _ => o
  | Ok params =>
      let o1 := match o, host with None, Some h => Some (row_from_event id name hostID t params now h) | _, _ => o end in
      (λ r, if before_or_null (se_StartedAt r) (to_microseconds t) then se_started name SessionStatus_RUNNING (to_microseconds t) hostID now r else r) <$> o1
  end.

Definition ends_it (hostID : string) (t : Instant) (r : SessionRow) : bool :=
  is_Ok (sessionToEntity r) && bool_decide (se_HostID r = hostID) &&
  negb match se_StartedAt r with Some s => (t <? s)%Z | None => false end && before_or_null (se_EndedAt r) (to_microseconds t).
Definition ended_row (hostID : string) (t now : Instant) (o : option SessionRow) : option SessionRow :=
  (λ r, if ends_it hostID t r then se_ended SessionStatus_ENDED (to_microseconds t) now r else r) <$> o.

(** What the handler does to the rows: [None] if the event is none of its own. *)
Definition row_event (hostID : string) (host : option HostRow) (now : Instant) (ev : HostEvent)
  : option (string * (option SessionRow → option SessionRow)) :=
  match he_OccurredAt ev, he_Payload ev with
  | Some t, SessionStarted id name => Some (id, started_row hostID host t id name now)
  | Some t, SessionEnded id => Some (id, ended_row hostID t now)
  | _, _ => None
  end.
Definition after_event (hostID : string) (now : Instant) (ev : HostEvent) (d : DB) : DB :=
  match row_event hostID (t_hosts d !! hostID) now ev with
  | Some (id, f) => set_sessions (λ _, partial_alter f id (t_sessions d)) d
  | None => d
  end.

Lemma partial_alter_noop (f : option SessionRow → option SessionRow) id (m : gmap string SessionRow) : f (m !! id) = m !! id → partial_alter f id m = m.
Proof. apply partial_alter_id. Qed.
Lemma partial_alter_known (f : option SessionRow → option SessionRow) id (m : gmap string SessionRow) o : f (m !! id) = o → partial_alter f id m = partial_alter (λ _, o) id m.
Proof. intros <-. apply partial_alter_ext. by intros x ->. Qed.

(** ** The handler is that function of the store *)

Lemma run_exec {A} (f : Instant → DB → Result (A * DB)) w a d : w_faults w = [] → f (w_now w) (w_db w) = Ok (a, d) → exec f w = (Ok a, with_db d w).
Proof. intros Hw E. by rewrite exec_run, E by done. Qed.

Lemma with_db_same w : with_db (w_db w) w = w.
Proof. by destruct w. Qed.

Lemma attempt_run {A} (m : Go A) w r w' : m w = (r, w') → attempt m w = (Ok r, w').
Proof. unfold attempt. by intros ->. Qed.

Lemma set_sessions_ext f g d : f (t_sessions d) = g (t_sessions d) → set_sessions f d = set_sessions g d.
Proof. unfold set_sessions. by intros ->. Qed.
Lemma set_sessions_id f d : f (t_sessions d) = t_sessions d → set_sessions f d = d.
Proof. intros H. rewrite (set_sessions_ext f (λ _, t_sessions d)) by done. apply set_sessions_same. Qed.

Lemma update_session_run id cond f d : ∃ n, update_session id cond f d =
  Ok (n, set_sessions (partial_alter (fmap (λ r, if cond r : bool then f r else r)) id) d).
Proof.
  unfold update_session. destruct (t_sessions d !! id) as [r|] eqn:E; [destruct (cond r) eqn:Ec|]; eexists.
  - do 2 f_equal. apply set_sessions_ext. rewrite (partial_alter_known _ _ _ (Some (f r))); [done|]. by rewrite E; simpl; rewrite Ec.
  - do 2 f_equal. symmetry. apply set_sessions_id, partial_alter_noop. by rewrite E; simpl; rewrite Ec.
  - do 2 f_equal. symmetry. apply set_sessions_id, partial_alter_noop. by rewrite E.
Qed.

Lemma InsertFromEvent_run id name hostID t params now d : ∃ n, x_InsertSessionFromEvent id name SessionStatus_RUNNING (Some t) hostID params 1 now d =
  Ok (n, set_sessions (partial_alter (λ o, match o, t_hosts d !! hostID with
                                           | None, Some h => Some (row_from_event id name hostID t params now h) | _, _ => o end) id) d).
Proof.
  unfold x_InsertSessionFromEvent. destruct (t_hosts d !! hostID) as [h|] eqn:Eh; [destruct (t_sessions d !! id) as [r|] eqn:E|]; eexists; do 2 f_equal.
  - symmetry. apply set_sessions_id, partial_alter_noop. by rewrite E.
  - apply set_sessions_ext. symmetry. apply partial_alter_known. by rewrite E.
  - symmetry. apply set_sessions_id, partial_alter_noop. by destruct (t_sessions d !! id).
Qed.

Lemma handleSessionStarted_run hostID t id name w : w_faults w = [] →
  handleSessionStarted hostID t id name w =
  (Ok tt, with_db (set_sessions (partial_alter (started_row hostID (t_hosts (w_db w) !! hostID) t id name (w_now w)) id) (w_db w)) w).
Proof.
  intros Hw. unfold handleSessionStarted, SessionRepo_InsertFromEvent. simpl default. unfold started_row.
  destruct (protojson_Marshal startup_zero) as [params|e] eqn:Em.
  - destruct (InsertFromEvent_run id name hostID t params (w_now w) (w_db w)) as [n Hi]. set (d1 := set_sessions _ _) in Hi.
    assert (InsertSessionFromEvent id name SessionStatus_RUNNING (Some t) hostID params 1 w = (Ok n, with_db d1 w)) as Hx by (by apply run_exec).
    destruct (update_session_run id (λ r, before_or_null (se_StartedAt r) (to_microseconds t))
                (se_started name SessionStatus_RUNNING (to_microseconds t) hostID (w_now w)) d1) as [m Hu].
    pose proof (run_exec (x_ApplySessionStarted id name SessionStatus_RUNNING t hostID) (with_db d1 w) _ _ Hw Hu) as Hy.
    unfold bind, attempt, lift, on_err, SessionRepo_ApplySessionStarted, ApplySessionStarted, bind, on_err. simpl. rewrite Hx. simpl. rewrite Hy. simpl.
    unfold ret. f_equal. destruct w. unfold with_db. simpl. f_equal. subst d1. simpl. unfold set_sessions. simpl. f_equal.
    by rewrite partial_alter_partial_alter_eq.
  - erewrite bind_Ok; [|by apply attempt_run; unfold lift; apply bind_Fail]. unfold ret. f_equal.
    rewrite set_sessions_id; [by rewrite with_db_same|]. by apply partial_alter_noop.
Qed.

Lemma handleSessionEnded_run hostID t id w : w_faults w = [] →
  handleSessionEnded hostID t id w = (Ok tt, with_db (set_sessions (partial_alter (ended_row hostID t (w_now w)) id) (w_db w)) w).
Proof.
  intros Hw. unfold handleSessionEnded.
  rewrite (bind_Ok _ _ _ _ _ (attempt_run _ _ _ _ (reads_run _ _ w (SessionRepo_Get_reads id) Hw))).
  assert (∀ o, t_sessions (w_db w) !! id = o → ended_row hostID t (w_now w) o = o →
    (Ok tt, w) = (Ok tt, with_db (set_sessions (partial_alter (ended_row hostID t (w_now w)) id) (w_db w)) w)) as Hskip.
  { intros o Eo Hn. rewrite set_sessions_id; [by rewrite with_db_same|]. apply partial_alter_noop. by rewrite Eo. }
  unfold get_session, q_GetSession. destruct (t_sessions (w_db w) !! id) as [r|] eqn:E; [|by apply (Hskip None)]. simpl.
  destruct (sessionToEntity r) as [e|err] eqn:Ee.
  2: { apply (Hskip (Some r)); [done|]. unfold ended_row, ends_it. simpl. by rewrite Ee. }
  assert (Session_HostID e = se_HostID r ∧ Session_StartedAt e = se_StartedAt r) as [-> ->].
  { unfold sessionToEntity in Ee. destruct (protojson_Unmarshal _); simpl in Ee; [|done]. by injection Ee as <-. }
  destruct (negb (bool_decide (se_HostID r = hostID))) eqn:Eh.
  { apply (Hskip (Some r)); [done|]. unfold ended_row, ends_it. simpl. apply negb_true_iff in Eh. by rewrite Eh, andb_false_r. }
  destruct (match se_StartedAt r with Some s => (t <? s)%Z | None => false end) eqn:Es.
  { apply (Hskip (Some r)); [done|]. unfold ended_row, ends_it. simpl. rewrite Es. by rewrite andb_false_r. }
  destruct (update_session_run id (λ r, bool_decide (se_HostID r = hostID) && before_or_null (se_EndedAt r) (to_microseconds t))
              (se_ended SessionStatus_ENDED (to_microseconds t) (w_now w)) (w_db w)) as [n Hu].
  pose proof (run_exec (x_ApplySessionEnded id SessionStatus_ENDED t hostID) w _ _ Hw Hu) as Hy.
  unfold bind, attempt, SessionRepo_ApplySessionEnded, ApplySessionEnded, bind, on_err. rewrite Hy. simpl. unfold ret. do 2 f_equal.
  apply set_sessions_ext, partial_alter_ext. intros o Ho. rewrite E in Ho. subst o. unfold ended_row, ends_it. simpl.
  by rewrite Ee, Es; simpl; rewrite andb_true_r.
Qed.

Lemma lifecycle_run hostID ev w : w_faults w = [] →
  SessionLifecycle_HandleHostEvent hostID ev w = (Ok tt, with_db (after_event hostID (w_now w) ev (w_db w)) w).
Proof.
  intros Hw. unfold SessionLifecycle_HandleHostEvent, after_event, row_event.
  destruct (he_OccurredAt ev) as [t|]; [|by rewrite with_db_same].
  destruct (he_Payload ev); [by rewrite handleSessionStarted_run|by rewrite handleSessionEnded_run|by rewrite with_db_same..].
Qed.

(** ** Events that were handled *)

(** The row shows that the event was handled. *)
Definition absorbed (hostID : string) (host : option HostRow) (ev : HostEvent) (o : option SessionRow) : Prop :=
  match he_OccurredAt ev, he_Payload ev with
  | Some t, SessionStarted _ _ =>
      is_Ok (protojson_Marshal startup_zero) = false ∨
      match o with None => host = None | Some r => ∃ x, se_StartedAt r = Some x ∧ (to_microseconds t <= x)%Z end
  | Some t, SessionEnded _ =>
      match o with
      | None => True
      | Some r =>
          is_Ok (sessionToEntity r) = false ∨ se_HostID r ≠ hostID ∨ (∃ x, se_StartedAt r = Some x ∧ (t < x)%Z) ∨
          (∃ x, se_EndedAt r = Some x ∧ (to_microseconds t <= x)%Z)
      end
  | _, _ => True
  end.

Definition earlier_event (a b : HostEvent) : Prop :=
  ∀ s t, he_OccurredAt a = Some s → he_OccurredAt b = Some t → (to_microseconds s < to_microseconds t)%Z.

Lemma before_or_null_false o t : before_or_null o t = false ↔ ∃ x, o = Some x ∧ (t <= x)%Z.
Proof. destruct o as [x|]; simpl; [|naive_solver]. rewrite Z.ltb_ge. naive_solver. Qed.
Lemma microseconds_lt s t : (to_microseconds s < to_microseconds t)%Z → (s < to_microseconds t)%Z.
Proof. unfold to_microseconds. intros H. pose proof (Z.mod_pos_bound s 1000 ltac:(lia)). pose proof (Z.div_mod s 1000 ltac:(lia)). lia. Qed.

(** the condition under which the end is recorded, negated *)
Lemma ends_it_false hostID t r : ends_it hostID t r = false ↔
  is_Ok (sessionToEntity r) = false ∨ se_HostID r ≠ hostID ∨ (∃ x, se_StartedAt r = Some x ∧ (t < x)%Z) ∨
  (∃ x, se_EndedAt r = Some x ∧ (to_microseconds t <= x)%Z).
Proof.
  unfold ends_it. rewrite !andb_false_iff, before_or_null_false, negb_false_iff, bool_decide_eq_false.
  destruct (se_StartedAt r) as [s|]; rewrite ?Z.ltb_lt; naive_solver.
Qed.

Lemma absorbed_noop hostID host now ev id f o : row_event hostID host now ev = Some (id, f) → absorbed hostID host ev o → f o = o.
Proof.
  unfold row_event, absorbed. destruct (he_OccurredAt ev) as [t|]; [|done]. destruct (he_Payload ev); try done; intros [= <- <-].
  - intros [Hm|Ho]; unfold started_row; [by destruct (protojson_Marshal _)|]. destruct (protojson_Marshal _); [|done].
    destruct o as [r|]; [|by rewrite Ho]. simpl. destruct Ho as (x & Hx & Hle). by rewrite (proj2 (before_or_null_false _ _)) by eauto.
  - intros Ho. unfold ended_row. destruct o as [r|]; [|done]. simpl. by rewrite (proj2 (ends_it_false _ _ _) Ho).
Qed.

(** However the row was, a start leaves it with a start that is not older. *)
Lemma start_applied hostID t name now r : ∃ x,
  se_StartedAt (if before_or_null (se_StartedAt r) (to_microseconds t)
                then se_started name SessionStatus_RUNNING (to_microseconds t) hostID now r else r) = Some x ∧ (to_microseconds t <= x)%Z.
Proof. destruct (before_or_null _ _) eqn:Eb; [simpl; eauto with lia|by apply before_or_null_false]. Qed.

Lemma started_row_later hostID host t id name now o params : protojson_Marshal startup_zero = Ok params →
  match started_row hostID host t id name now o with
  | None => o = None ∧ host = None
  | Some r => ∃ x, se_StartedAt r = Some x ∧ (to_microseconds t <= x)%Z
  end.
Proof.
  intros Hm. unfold started_row. rewrite Hm. destruct o as [r|]; [apply start_applied|]. destruct host as [h|]; [|done]. apply start_applied.
Qed.

Lemma absorbs hostID host now ev id f o : row_event hostID host now ev = Some (id, f) → absorbed hostID host ev (f o).
Proof.
  unfold row_event, absorbed. destruct (he_OccurredAt ev) as [t|]; [|done]. destruct (he_Payload ev); try done; intros [= <- <-].
  - destruct (protojson_Marshal startup_zero) as [params|] eqn:Em; [right|by left].
    pose proof (started_row_later hostID host t session_id session_name now o params Em) as H. by destruct (started_row _ _ _ _ _ _ _); [|destruct H].
  - unfold ended_row. destruct o as [r|]; simpl; [|done]. destruct (ends_it hostID t r) eqn:Ee; [|by apply ends_it_false].
    right. right. right. simpl. eauto with lia.
Qed.

Lemma absorbed_stable hostID host now e ev id f o :
  earlier_event e ev → row_event hostID host now ev = Some (id, f) → absorbed hostID host e o → absorbed hostID host e (f o).
Proof.
  unfold earlier_event, row_event, absorbed. destruct (he_OccurredAt e) as [s|], (he_OccurredAt ev) as [t|]; try done. intros Hlt. specialize (Hlt s t eq_refl eq_refl).
  pose proof (microseconds_lt _ _ Hlt) as Hs.
  destruct (he_Payload ev) as [i n|i| | | | |]; try done; intros [= <- <-]; destruct (he_Payload e) as [i' n'|i'| | | | |]; try done.
  - intros [Hm|Ho]; [by left|]. destruct (protojson_Marshal startup_zero) as [params|] eqn:Em; [right|by left].
    pose proof (started_row_later hostID host t i n now o params Em) as H. destruct (started_row _ _ _ _ _ _ _) as [r|]; [|by destruct H].
    destruct H as (x & Hx & Hle). exists x. split; [done|lia].
  - intros Ho. destruct (protojson_Marshal startup_zero) as [params|e'] eqn:Em; [|by unfold started_row; rewrite Em].
    pose proof (started_row_later hostID host t i n now o params Em) as H. destruct (started_row _ _ _ _ _ _ _) as [r|]; [|done].
    destruct H as (x & Hx & Hle). right. right. left. exists x. split; [done|lia].
  - intros [Hm|Ho]; [by left|right]. destruct o as [r|]; [|done]. simpl. by destruct (ends_it hostID t r).
  - destruct o as [r|]; [|done]. simpl. destruct (ends_it hostID t r); [|done]. intros _. right. right. right. simpl. exists (to_microseconds t). split; [done|lia].
Qed.

(** ** All events of a host *)

Fixpoint lifecycle_events (hostID : string) (evs : list HostEvent) : Go unit :=
  match evs with
  | [] => ret tt
  | ev :: evs' => SessionLifecycle_HandleHostEvent hostID ev ;;; lifecycle_events hostID evs'
  end.

Definition handled (hostID : string) (ev : HostEvent) (d : DB) : Prop :=
  ∀ now id f, row_event hostID (t_hosts d !! hostID) now ev = Some (id, f) → absorbed hostID (t_hosts d !! hostID) ev (t_sessions d !! id).

Lemma row_event_id hostID host now now' ev id f id' f' :
  row_event hostID host now ev = Some (id, f) → row_event hostID host now' ev = Some (id', f') → id' = id.
Proof. unfold row_event. destruct (he_OccurredAt ev), (he_Payload ev); naive_solver. Qed.

Lemma handled_again hostID now ev d : handled hostID ev d → after_event hostID now ev d = d.
Proof.
  intros H. unfold after_event. destruct (row_event _ _ now ev) as [[id f]|] eqn:E; [|done]. apply set_sessions_id, partial_alter_noop.
  eapply absorbed_noop; [exact E|]. by eapply H.
Qed.
Lemma handled_now hostID now ev d : handled hostID ev (after_event hostID now ev d).
Proof.
  intros now' id' f' E'. unfold after_event in *. destruct (row_event hostID (t_hosts d !! hostID) now ev) as [[id f]|] eqn:E; simpl in *.
  - rewrite <-(row_event_id _ _ _ _ _ _ _ _ _ E' E) in *. rewrite lookup_partial_alter_eq. by eapply absorbs.
  - unfold row_event in E, E'. by destruct (he_OccurredAt ev), (he_Payload ev).
Qed.
Lemma handled_later hostID now e ev d : earlier_event e ev → handled hostID e d → handled hostID e (after_event hostID now ev d).
Proof.
  intros He H now' id' f' E'. unfold after_event in *. destruct (row_event hostID (t_hosts d !! hostID) now ev) as [[id f]|] eqn:E; simpl in *; [|by eapply H].
  destruct (decide (id' = id)) as [->|Hne].
  - rewrite lookup_partial_alter_eq. eapply absorbed_stable; [exact He|exact E|by eapply H].
  - rewrite lookup_partial_alter_ne by done. by eapply H.
Qed.

(** In order, every event stays handled. *)
Lemma lifecycle_events_handled hostID evs w w' :
  w_faults w = [] → StronglySorted earlier_event evs → lifecycle_events hostID evs w = (Ok tt, w') →
  w_faults w' = [] ∧ (∀ e, e ∈ evs → handled hostID e (w_db w')) ∧
  ∀ e, (∀ ev, ev ∈ evs → earlier_event e ev) → handled hostID e (w_db w) → handled hostID e (w_db w').
Proof.
  revert w. induction evs as [|ev evs IH]; intros w Hw Hs; simpl.
  - intros [= <-]. split; [done|]. split; [|done]. by intros e ?%not_elem_of_nil.
  - rewrite (bind_Ok _ _ _ _ _ (lifecycle_run hostID ev w Hw)). apply StronglySorted_inv in Hs as [Hs He]. rewrite List.Forall_forall in He.
    intros H. destruct (IH (with_db (after_event hostID (w_now w) ev (w_db w)) w) Hw Hs H) as (Hf & Hall & Hkeep). split; [done|]. split.
    + intros e [->|Hin]%elem_of_cons; [|by apply Hall]. apply Hkeep; [|apply handled_now]. intros ev' Hin. apply He. by apply list_elem_of_In.
    + intros e Hord Hh. apply Hkeep; [intros ev' Hin; apply Hord; by right|]. simpl. apply handled_later; [|done]. apply Hord. by left.
Qed.

Lemma handled_lifecycle hostID evs w : w_faults w = [] → (∀ e, e ∈ evs → handled hostID e (w_db w)) → lifecycle_events hostID evs w = (Ok tt, w).
Proof.
  intros Hw. induction evs as [|ev evs IH]; intros H; [done|]. simpl.
  rewrite (bind_Ok _ _ _ _ _ (lifecycle_run hostID ev w Hw)), handled_again by (apply H; by left). rewrite with_db_same. apply IH. intros e He. apply H. by right.
Qed.
End Rows.

(** C21. Delivery at least once is harmless to the handler of the lifecycle of
    sessions ([SessionLifecycle_HandleHostEvent], which writes when a session
    starts and when it ends): once it has handled the events of a host in the
    order in which they occurred, delivering any of them to it again, in any
    order and at any later time, leaves the store as it is, unless the
    database fails.  Nothing of the kind is said of the other handlers:
    [SessionStateSync_HandleHostEvent] is not idempotent
    ([SessionWitness.old_save_comes_back]). *)
Theorem redelivery_changes_nothing (SP : StartupParameters) (hostID : string) (evs again : list HostEvent) (w w' later : World) :
  w_faults w = [] → StronglySorted earlier_event evs → lifecycle_events hostID evs w = (Ok tt, w') →
  (∀ e, e ∈ again → e ∈ evs) → w_db later = w_db w' → w_faults later = [] →
  lifecycle_events hostID again later = (Ok tt, later).
Proof.
  intros Hw Hs H Hsub Hdb Hl. destruct (lifecycle_events_handled hostID evs w w' Hw Hs H) as (_ & Hall & _).
  apply handled_lifecycle; [done|]. intros e He. rewrite Hdb. by apply Hall, Hsub.
Qed.

(** ** Sessions: after a stream was reset

    The host no longer has the events the controller missed, so the handler
    rebuilds what it knows of the host's sessions from their list. *)

(** ** The cache *)

Definition fold_set (hostID : string) (l : list (string * HeadlessSession)) (c : MemoryCache) : MemoryCache :=
  foldl (λ c p, Cache_Set hostID (fst p) (Some (snd p)) c) c l.

Lemma fold_set_ok hostID l c : cache_ok c → cache_ok (fold_set hostID l c).
Proof. revert c. induction l as [|p l IH]; intros c Hc; [done|]. apply IH. by apply Cache_Set_ok. Qed.
Lemma fold_set_cached hostID l c s : NoDup l.*1 →
  cached (fold_set hostID l c) !! s =
  match (list_to_map l : gmap string HeadlessSession) !! s with Some x => Some (hostID, x) | None => cached c !! s end.
Proof.
  revert c. induction l as [|[i x] l IH]; intros c Hn; [done|]. apply NoDup_cons in Hn as [Hi Hn].
  change (fold_set hostID ((i, x) :: l) c) with (fold_set hostID l (Cache_Set hostID i (Some x) c)).
  rewrite IH, cached_Set by done. simpl. destruct (decide (s = i)) as [->|Hne].
  - rewrite lookup_insert_eq, (not_elem_of_list_to_map_1 l i Hi). by rewrite lookup_insert_eq.
  - by rewrite !lookup_insert_ne by done.
Qed.
Lemma set_all_run hostID l w : set_all hostID l w = (Ok tt, with_cache (fold_set hostID l (w_cache w)) w).
Proof.
  revert w. induction l as [|[i x] l IH]; intros w; simpl; [by destruct w|]. unfold bind at 1, stateCache_Set at 1, on_cache. rewrite IH. done.
Qed.

(** Rebuilding the part of a host. *)
Lemma rebuilt hostID (live : gmap string HeadlessSession) c s p : cache_ok c →
  cached (Cache_PruneHost hostID (dom live) (fold_set hostID (map_to_list live) c)) !! s = Some p ↔
  (∃ x, live !! s = Some x ∧ p = (hostID, x)) ∨ (live !! s = None ∧ fst p ≠ hostID ∧ cached c !! s = Some p).
Proof.
  intros Hc. rewrite cached_PruneHost by (by apply fold_set_ok).
  rewrite (fold_set_cached _ _ _ _ (NoDup_fst_map_to_list live)), list_to_map_to_list, elem_of_dom.
  destruct (live !! s) as [x|]; split; naive_solver.
Qed.

(** ** The rows *)

Section Rows.
Context {SP : StartupParameters} {CC : ContainerClient} {HC : HostClients}.

Definition lost (live : gmap string HeadlessSession) (l : list Session) : list string :=
  List.filter (λ i, negb (bool_decide (is_Some (live !! i)))) (Session_ID <$> l).
Definition downgraded (now : Instant) (r : SessionRow) : SessionRow := if (se_Status r =? 2)%Z then se_with_status 0 now r else r.
Definition downgrade_all (now : Instant) (ids : list string) (m : gmap string SessionRow) : gmap string SessionRow :=
  foldl (λ m i, partial_alter (fmap (downgraded now)) i m) m ids.

Lemma downgraded_idem now r : downgraded now (downgraded now r) = downgraded now r.
Proof. unfold downgraded. by destruct (se_Status r =? 2)%Z eqn:E; [|rewrite E]. Qed.
Lemma downgrade_all_lookup now ids m i :
  downgrade_all now ids m !! i = (if bool_decide (i ∈ ids) then downgraded now else λ r, r) <$> m !! i.
Proof.
  revert m. induction ids as [|j ids IH]; intros m; simpl; [by rewrite option_fmap_id|]. rewrite IH.
  destruct (decide (i = j)) as [->|Hne].
  - rewrite lookup_partial_alter_eq. rewrite (bool_decide_eq_true_2 (j ∈ j :: ids)) by (by left).
    destruct (m !! j) as [r|]; [|done]. simpl. f_equal. case_bool_decide; [by rewrite downgraded_idem|done].
  - rewrite lookup_partial_alter_ne by done. replace (bool_decide (i ∈ j :: ids)) with (bool_decide (i ∈ ids)); [done|].
    apply bool_decide_ext. rewrite elem_of_cons. naive_solver.
Qed.

Lemma downgrade_lost_run live l w : w_faults w = [] →
  downgrade_lost live l w = (Ok tt, with_db (set_sessions (downgrade_all (w_now w) (lost live l)) (w_db w)) w).
Proof.
  revert w. induction l as [|s l IH]; intros w Hw; [by destruct w as [[] ]|]. unfold lost. csimpl. case_bool_decide as Hs; simpl.
  - unfold bind at 1, ret at 1. by rewrite IH.
  - destruct (update_session_run (Session_ID s) (λ r, (se_Status r =? 2)%Z) (se_with_status 0 (w_now w)) (w_db w)) as [n Hu].
    pose proof (run_exec (x_DowngradeSessionToUnknownIfRunning (Session_ID s)) w _ _ Hw Hu) as Hy.
    erewrite bind_Ok.
    2: { unfold SessionRepo_DowngradeToUnknownIfRunning, DowngradeSessionToUnknownIfRunning. erewrite bind_Ok; [done|]. apply attempt_run.
         by rewrite (bind_Ok _ _ _ _ _ Hy). }
    rewrite IH by done. done.
Qed.
End Rows.

(** ** The handler *)

Section Reset.
Context {SP : StartupParameters} {CC : ContainerClient} {HC : HostClients}.

Definition running_on (hostID : string) (d : DB) : list SessionRow :=
  sessions_where (λ r, bool_decide (se_HostID r = hostID) && (se_Status r =? SessionStatus_RUNNING)%Z) d.

Lemma running_on_spec hostID d r :
  r ∈ running_on hostID d ↔ (∃ i, t_sessions d !! i = Some r) ∧ se_HostID r = hostID ∧ se_Status r = SessionStatus_RUNNING.
Proof.
  unfold running_on, sessions_where, order_by. rewrite merge_sort_Permutation, list_elem_of_In, List.filter_In, <-list_elem_of_In.
  unfold rows_of. rewrite list_elem_of_fmap, andb_true_iff, bool_decide_eq_true, Z.eqb_eq. split.
  - intros [([i r'] & -> & Hin%elem_of_map_to_list) H]. split; [by exists i|done].
  - intros [[i Hi] H]. split; [|done]. exists (i, r). split; [done|]. by apply elem_of_map_to_list.
Qed.

(** What a reset makes of a row. *)
Definition after_reset (hostID : string) (live : gmap string HeadlessSession) (now : Instant) (id : string) (r : SessionRow) : SessionRow :=
  if bool_decide (se_HostID r = hostID ∧ se_Status r = SessionStatus_RUNNING ∧ live !! id = None) then se_with_status SessionStatus_UNKNOWN now r
  else r.

Lemma entity_ID r : decodes r → Session_ID (entity r) = se_ID r.
Proof. unfold decodes, sessionToEntity. destruct (protojson_Unmarshal _); simpl; [|done]. by intros [= <-]. Qed.

Lemma entities_lost d hostID live id r : sessions_keyed d → Forall decodes (running_on hostID d) → t_sessions d !! id = Some r →
  id ∈ lost live (entity <$> running_on hostID d) ↔ se_HostID r = hostID ∧ se_Status r = SessionStatus_RUNNING ∧ live !! id = None.
Proof.
  intros Hk Hd Hr. unfold lost. rewrite list_elem_of_In, List.filter_In, <-list_elem_of_In, negb_true_iff, bool_decide_eq_false, <-eq_None_not_Some.
  rewrite <-list_fmap_compose, list_elem_of_fmap. rewrite Forall_forall in Hd. split.
  - intros [(r' & Hid & Hin) Hl]. rewrite Hid in Hr. change ((Session_ID ∘ entity) r') with (Session_ID (entity r')) in Hid, Hr.
    rewrite (entity_ID r' (Hd r' Hin)) in Hid, Hr. apply running_on_spec in Hin as ([i Hi] & Hh & Hs).
    rewrite (Hk _ _ Hi), Hi in Hr. by injection Hr as ->.
  - intros (Hh & Hs & Hl). split; [|done]. assert (r ∈ running_on hostID d) as Hin by (apply running_on_spec; eauto).
    exists r. split; [|done]. change ((Session_ID ∘ entity) r) with (Session_ID (entity r)). rewrite (entity_ID r (Hd r Hin)). symmetry. by eapply Hk.
Qed.

Lemma downgraded_after_reset d hostID live now : sessions_keyed d → Forall decodes (running_on hostID d) → ∀ id,
  downgrade_all now (lost live (entity <$> running_on hostID d)) (t_sessions d) !! id = after_reset hostID live now id <$> t_sessions d !! id.
Proof.
  intros Hk Hd id. rewrite downgrade_all_lookup. destruct (t_sessions d !! id) as [r|] eqn:Er; [|done]. simpl. f_equal. unfold after_reset.
  rewrite (bool_decide_ext _ _ (entities_lost d hostID live id r Hk Hd Er)). case_bool_decide as H; [|done].
  unfold downgraded. destruct H as (_ & -> & _). done.
Qed.
End Reset.

(** C20. After a reset the controller knows what the host reports, and nothing
    else: if the database works, the rows can be decoded and the container
    answers, the cache holds for the host exactly the sessions of the answer,
    the entries of other hosts stay unless the session is live here, exactly
    the sessions that were running on the host and are not reported are set
    to UNKNOWN, and nothing else changes in the store. *)
Theorem reset_rebuilds (SP : StartupParameters) (CC : ContainerClient) (HC : HostClients) (hostID : string) (w w1 w2 : World) (c : Client) (l : list HeadlessSession) :
  w_faults w = [] → cache_ok (w_cache w) → sessions_keyed (w_db w) → Forall decodes (running_on hostID (w_db w)) →
  GetRpcClient hostID w = (Ok c, w1) → abroad w w1 → rpc_ListSessions c w1 = (Ok l, w2) → abroad w1 w2 →
  let live := live_sessions l in
  ∃ w', SessionStateSync_HandleHostEventStreamReset hostID w = (Ok tt, w') ∧ cache_ok (w_cache w') ∧
    (∀ s p, cached (w_cache w') !! s = Some p ↔
       (∃ x, live !! s = Some x ∧ p = (hostID, x)) ∨ (live !! s = None ∧ fst p ≠ hostID ∧ cached (w_cache w) !! s = Some p)) ∧
    w_db w' = set_sessions (λ _, t_sessions (w_db w')) (w_db w) ∧
    ∀ id, t_sessions (w_db w') !! id = after_reset hostID live (w_now w) id <$> t_sessions (w_db w) !! id.
Proof.
  intros Hw Hc Hk Hd Hcl (D1 & C1 & N1 & F1) Hls (D2 & C2 & N2 & F2) live. specialize (F2 (F1 Hw)).
  unfold SessionStateSync_HandleHostEventStreamReset.
  assert (SessionRepo_ListByHostAndStatus hostID SessionStatus_RUNNING w = (Ok (entity <$> running_on hostID (w_db w)), w)) as Hlist.
  { assert (on_err wrap_session (ListSessionsByHostAndStatus hostID SessionStatus_RUNNING) w = (Ok (running_on hostID (w_db w)), w)) as Hq
      by exact (reads_run _ _ w (on_err_reads _ _ _ (reads_query (q_ListSessionsByHostAndStatus hostID SessionStatus_RUNNING))) Hw).
    unfold SessionRepo_ListByHostAndStatus. rewrite (bind_Ok _ _ _ _ _ Hq). unfold lift. f_equal. by apply Ok_entities. }
  rewrite (bind_Ok _ _ _ _ _ (attempt_run _ _ _ _ Hlist)), (bind_Ok _ _ _ _ _ (attempt_run _ _ _ _ Hcl)), (bind_Ok _ _ _ _ _ (attempt_run _ _ _ _ Hls)).
  cbv zeta. fold live. rewrite (bind_Ok _ _ _ _ _ (set_all_run _ _ _)). unfold bind at 1, stateCache_PruneHost, on_cache.
  rewrite downgrade_lost_run by done. eexists. split; [done|]. simpl. rewrite C2, C1, D2, D1, N2, N1. split; [|split; [|split; [done|]]].
  - by apply Cache_PruneHost_ok, fold_set_ok.
  - intros s p. by apply rebuilt.
  - by apply downgraded_after_reset.
Qed.
