(* ===== verification/SessionWitness.v ===== *)
(** * Sessions: a concrete host

    A container with two sessions that obeys, and a store in which alice owns
    one of them; the properties of the session files apply to them. *)

From S2P Require Import Prelude Entity Json Headless StateCache Digest Models Queries Ports PermissionUsecase Repositories Resources SessionRepo.
From S2P Require Import PlainJson PermissionDecisions PermissionSystem PermissionSafety PermissionTheorems RpcAccess NotificationService AuthTokens Claims SessionUsecase SessionSafety SessionTheorems SessionSearch.
From S2P Require Import HostEvents SessionRedelivery.
From stdpp Require Import base gmap strings list sorting.
From Stdlib Require Import ZArith Lia.
#[local] Existing Instance raw_parameters.

(** ** The container *)

Definition reported (id url : string) : HeadlessSession :=
  mkHeadlessSession id id EmptyString 0 0 0 None None EmptyString 0 0 0 false 0 false false [] None false url None [] false 0.

#[local] Instance quiet_container : ContainerClient := {
  Client := string;
  rpc_StartWorld _ _ := ret (Some (reported "s9" EmptyString));
  rpc_StopSession _ _ := ret tt;
  rpc_UpdateSessionParameters _ _ := ret tt;
  rpc_GetSession _ id := ret (Some (reported id EmptyString));
  rpc_ListSessions _ := ret [reported "s1" EmptyString; reported "s2" "resrec:///U-a/R-2"];
  rpc_SaveSessionWorld _ _ := ret "resrec:///U-a/R-3";
  rpc_SaveAsSessionWorld _ _ _ := ret "resrec:///U-a/R-4";
  rpc_GetAbout _ := ret ("2026.1.1", "1.0.0");
  rpc_GetAccountInfo _ := ret ("U-a", "alice");
  rpc_GetStatus _ := ret 0%Z;
  rpc_GetStartupConfigToRestore _ _ := ret None }.
#[local] Instance quiet_hosts : HostClients := { GetRpcClient h := ret h }.
#[local] Instance no_draining : HostDrainer := { IsHostDraining _ := ret false }.
Definition odd_free (p : Z) : bool := Z.odd p.
#[local] Instance odd_ports : PortProbe := { isPortAvailable p := ret (odd_free p) }.

Lemma ret_abroad {A} (a : A) : preserves abroad (ret a).
Proof. by intros w. Qed.
#[local] Instance quiet_outside : OutsideLaws.
Proof. split; [split|..]; intros; apply ret_abroad. Qed.

(** ** The store *)

Definition observed : HeadlessSession := reported "s1" "resrec:///U-a/R-1".
Definition alice_session (id : string) : SessionRow := stored_session id "alice-personal" "h1" SessionStatus_RUNNING (Some (5 * time_Second)%Z).
Definition sessions_world : World :=
  with_cache (Cache_Set "h1" "s1" (Some observed) NewMemoryCache)
    (with_db (set_sessions (λ _, <["s1" := alice_session "s1"]> (<["s3" := alice_session "s3"]> ∅)) (w_db hosted_world)) hosted_world).

Lemma sessions_world_keyed : sessions_keyed (w_db sessions_world).
Proof.
  intros id r. change (t_sessions (w_db sessions_world)) with (<["s1" := alice_session "s1"]> (<["s3" := alice_session "s3"]> (∅ : gmap string SessionRow))).
  intros [[<- <-]|[_ [[<- <-]|[_ H]]%lookup_insert_Some]]%lookup_insert_Some; [done..|by rewrite lookup_empty in H].
Qed.

Lemma alice_may_write : may (w_db sessions_world) "alice" "alice-personal" PermKey_SessionWrite.
Proof.
  right. right. split; [reflexivity|]. left. split; [discriminate|]. apply elem_of_member_keys.
  apply (bool_decide_unpack (PermKey_SessionWrite ∈ member_keys "alice" "alice-personal" (w_db sessions_world))). vm_compute. exact I.
Qed.

(** ** Witnesses *)

Lemma session_changes_authorised_witness :
  let u := NewSessionUsecase 0 0 0 in let ctx := user_ctx "alice" in
  let w' := (session_call u ctx (CallStop "s1") sessions_world).2 in
  se_Status <$> t_sessions (w_db w') !! "s1" = Some SessionStatus_ENDED ∧
  w_db w' = set_sessions (λ _, t_sessions (w_db w')) (w_db sessions_world) ∧
  ∀ id, permitted ctx (CallStop "s1") (w_db sessions_world) (t_sessions (w_db sessions_world) !! id) (t_sessions (w_db w') !! id).
Proof.
  intros u ctx w'. split; [vm_compute; reflexivity|].
  exact (session_changes_authorised _ _ _ _ _ _ u ctx (CallStop "s1") sessions_world sessions_world_keyed).
Defined.

Lemma getFreeSessionPort_exact_witness :
  ∃ p, getFreeSessionPort (NewSessionUsecase 40000 40003 0) sessions_world = (Ok p, sessions_world) ∧ (40000 <= p <= 40003)%Z ∧ odd_free p = true.
Proof.
  destruct (getFreeSessionPort_exact odd_ports (NewSessionUsecase 40000 40003 0) odd_free sessions_world) as ([p|e] & E & H).
  - intros p w. reflexivity.
  - split; [reflexivity|discriminate].
  - vm_compute; discriminate.
  - exists p. split; [exact E|exact H].
  - specialize (H 40001%Z). discriminate H. split; discriminate.
Defined.

Definition edited : Session :=
  mkSession "s1" "renamed" SessionStatus_RUNNING (Some 1234567%Z) (Some "alice") None "h1" (Some startup_zero) true "memo" None "elsewhere".

Lemma upsert_get_roundtrip_witness :
  ∃ w', SessionRepo_Upsert edited sessions_world = (Ok tt, w') ∧
    SessionRepo_Get "s1" w' = (Ok (as_stored (t_sessions (w_db sessions_world) !! "s1") edited), w') ∧
    ∀ id, id ≠ "s1" → SessionRepo_Get id w' = ((SessionRepo_Get id sessions_world).1, w').
Proof.
  destruct (protojson_Marshal startup_zero) as [j|e] eqn:Ej; [|discriminate Ej].
  apply (upsert_get_roundtrip _ edited startup_zero j sessions_world);
    [vm_compute; reflexivity|exact sessions_world_keyed|reflexivity|exact Ej|vm_compute; reflexivity].
Defined.

Definition resumed : WorldStartupParameters := set_LoadWorld (Some (LoadWorldUrl "resrec:///U-a/R-1")) startup_zero.
Definition alice_entity : Session :=
  mkSession "s1" "s1" SessionStatus_RUNNING (Some (5 * time_Second)%Z) None None "h1" (Some startup_zero) false EmptyString None "alice-personal".

Lemma StopSession_exact_witness :
  ∃ j w' row', protojson_Marshal resumed = Ok j ∧ SessionUC_StopSession (user_ctx "alice") "s1" sessions_world = (Ok tt, w') ∧
    w_db w' = set_sessions (<["s1" := row']>) (w_db sessions_world) ∧
    stopped_row "s1" j (w_now sessions_world) (alice_session "s1") row'.
Proof.
  destruct (protojson_Marshal resumed) as [j|e] eqn:Ej; [|discriminate Ej].
  destruct (StopSession_exact _ _ _ _ _ _ (user_ctx "alice") "s1" "alice" sessions_world (alice_session "s1") alice_entity resumed j)
    as (r & w' & E & H & Hok); [vm_compute; reflexivity|reflexivity|vm_compute; reflexivity|vm_compute; reflexivity|vm_compute; reflexivity|
      reflexivity|exact alice_may_write|vm_compute; reflexivity|exact Ej|].
  assert (r = Ok tt) as -> by (apply Hok; reflexivity). destruct H as (_ & _ & row' & Hd & Hr). exists j, w', row'. repeat split; try exact E; try exact Hd; apply Hr.
Defined.

Definition started_event : HostEvent := mkHostEvent "e1" (Some (10 * time_Second)%Z) (SessionStarted "s7" "evening").
Definition ended_event : HostEvent := mkHostEvent "e2" (Some (20 * time_Second)%Z) (SessionEnded "s7").

Lemma redelivery_changes_nothing_witness :
  ∃ w', lifecycle_events "h1" [started_event; ended_event] sessions_world = (Ok tt, w') ∧
    se_Status <$> t_sessions (w_db w') !! "s7" = Some SessionStatus_ENDED ∧
    lifecycle_events "h1" [started_event] w' = (Ok tt, w').
Proof.
  assert (w_faults (lifecycle_events "h1" [started_event; ended_event] sessions_world).2 = []) as Hf by (vm_compute; reflexivity).
  assert (is_Ok (lifecycle_events "h1" [started_event; ended_event] sessions_world).1 = true) as Hok by (vm_compute; reflexivity).
  assert (se_Status <$> t_sessions (w_db (lifecycle_events "h1" [started_event; ended_event] sessions_world).2) !! "s7" = Some SessionStatus_ENDED) as Hs
    by (vm_compute; reflexivity).
  destruct (lifecycle_events "h1" [started_event; ended_event] sessions_world) as [[[]|e] w'] eqn:E; [|discriminate Hok].
  exists w'. split; [reflexivity|]. split; [exact Hs|].
  apply (redelivery_changes_nothing _ "h1" [started_event; ended_event] [started_event] sessions_world w' w' eq_refl); [|exact E| |reflexivity|exact Hf].
  - repeat constructor. intros s t [= <-] [= <-]. reflexivity.
  - intros e He. apply list_elem_of_singleton in He as ->. left.
Defined.

(** The handler that keeps the state of sessions is not idempotent: an older
    save that is delivered again replaces the address of the newer one in the
    stored parameters, so the next start loads the old world. *)
#[local] Instance whole_reals : RealJSON := { jsonb_of_real x := JInt x }.
Definition save_event (id url : string) : HostEvent := mkHostEvent id (Some (10 * time_Second)%Z) (WorldSaved "s1" url).
Fixpoint state_events (hostID : string) (evs : list HostEvent) (w : World) : World :=
  match evs with [] => w | ev :: evs' => state_events hostID evs' (SessionStateSync_HandleHostEvent hostID ev w).2 end.
Definition first_save : HostEvent := save_event "e5" "resrec:///U-a/R-1".
Definition second_save : HostEvent := save_event "e6" "resrec:///U-a/R-2".
(** the address the next start of the session loads *)
Definition stored_url (w : World) : option Json :=
  r ← t_sessions (w_db w) !! "s1"; match se_StartupParameters r with JObj ms => head (field_values "loadWorldUrl" ms) | _ => None end.

Example old_save_comes_back :
  stored_url (state_events "h1" [first_save; second_save] sessions_world) = Some (JStr "resrec:///U-a/R-2") ∧
  stored_url (state_events "h1" [first_save; second_save; first_save] sessions_world) = Some (JStr "resrec:///U-a/R-1").
Proof. split; vm_compute; reflexivity. Qed.

Lemma reset_rebuilds_witness :
  ∃ w', SessionStateSync_HandleHostEventStreamReset "h1" sessions_world = (Ok tt, w') ∧
    cached (w_cache w') !! "s2" = Some ("h1", reported "s2" "resrec:///U-a/R-2") ∧
    se_Status <$> t_sessions (w_db w') !! "s3" = Some SessionStatus_UNKNOWN.
Proof.
  destruct (reset_rebuilds raw_parameters quiet_container quiet_hosts "h1" sessions_world sessions_world sessions_world "h1"
    [reported "s1" EmptyString; reported "s2" "resrec:///U-a/R-2"]) as (w' & E & _ & Hc & _ & Hd).
  - reflexivity.
  - apply Cache_Set_ok, empty_cache_ok.
  - exact sessions_world_keyed.
  - vm_compute. repeat constructor.
  - reflexivity.
  - reflexivity.
  - reflexivity.
  - reflexivity.
  - exists w'. split; [exact E|]. split; [apply Hc; left; eexists; split; reflexivity|]. rewrite Hd. vm_compute. reflexivity.
Defined.
