(* ===== verification/AsyncJobs.v ===== *)
(** * Asynchronous jobs: statements and repository

    [src/domain/entity/async_job.go], [src/db/async_jobs.sql.go] on the table
    of its migration, and [src/adapter/async_job_repository.go]. *)

From S2P Require Import Prelude Entity Json Digest Models Queries Ports Repositories Claims ScheduledRepo Headless Resources Messages.
From stdpp Require Import base gmap strings list sorting.
From Stdlib Require Import ZArith Lia.

(** ** Entity *)

Definition AsyncJobType_UNKNOWN : Z := 0.
Definition AsyncJobType_START_HOST : Z := 1.
Definition AsyncJobType_SHUTDOWN_HOST : Z := 2.
Definition AsyncJobType_RESTART_HOST : Z := 3.
Definition AsyncJobType_START_SESSION : Z := 4.
Definition AsyncJobType_STOP_SESSION : Z := 5.

Definition AsyncJobStatus_PENDING : Z := 0.
Definition AsyncJobStatus_RUNNING : Z := 1.
Definition AsyncJobStatus_SUCCEEDED : Z := 2.
Definition AsyncJobStatus_FAILED : Z := 3.

Record AsyncJob : Type := mkAsyncJob {
  job_ID : string; job_JobType : Z; job_Payload : Json; job_Status : Z; job_ResultPayload : option Json; job_LastError : option string;
  job_ClaimedBy : option string; job_ClaimedAt : option Instant; job_ExecutedAt : option Instant; job_HostID : option string;
  job_SessionID : option string; job_CreatedBy : option string; job_CreatedAt : Instant; job_UpdatedAt : Instant }.

(** ** Statements *)

(** An UPDATE of the columns the statements touch; the trigger
    update_async_jobs_modtime sets updated_at. *)
Definition aj_update (now : Instant) (status : Z) (result : option Json) (lastError claimedBy : option string)
    (claimedAt executedAt : option Instant) (r : AsyncJobRow) : AsyncJobRow :=
  mkAsyncJobRow (aj_ID r) (aj_JobType r) (aj_Payload r) status result lastError claimedBy claimedAt executedAt
    (aj_HostID r) (aj_SessionID r) (aj_CreatedBy r) (aj_CreatedAt r) (Some now).

Definition job_status (s : Z) (r : AsyncJobRow) : bool := (aj_Status r =? s)%Z.

Record CreateJobParams : Type := mkCreateJobParams {
  cjp_JobType : Z; cjp_Payload : Json; cjp_HostID : option string; cjp_SessionID : option string; cjp_CreatedBy : option string }.

Definition new_job_row (id : UUID) (p : CreateJobParams) (now : Instant) : AsyncJobRow :=
  mkAsyncJobRow (Some id) (cjp_JobType p) (cjp_Payload p) 0 None None None None None (cjp_HostID p) (cjp_SessionID p) (cjp_CreatedBy p)
    (Some now) (Some now).

Definition x_CreateAsyncJob (id : UUID) (p : CreateJobParams) (now : Instant) (d : DB) : Result (AsyncJobRow * DB) :=
  check (negb (present id (t_async_jobs d))) "async_jobs_pkey" >>>
  let r := new_job_row id p now in Ok (r, set_async_jobs (<[id := r]>) d).
(** the column default draws the id *)
Definition CreateAsyncJob (p : CreateJobParams) : Go AsyncJobRow :=
  let* id := gen_random_uuid in exec (x_CreateAsyncJob id p).

Definition q_GetAsyncJob (id : UUID) (_ : Instant) (d : DB) : Result AsyncJobRow := row_or_ErrNoRows (t_async_jobs d !! id).
Definition GetAsyncJob id : Go AsyncJobRow := query (q_GetAsyncJob id).

Definition job_claim (instance : string) (now : Instant) (r : AsyncJobRow) : AsyncJobRow :=
  aj_update now 1 (aj_ResultPayload r) (aj_LastError r) (Some instance) (Some now) (aj_ExecutedAt r) r.
Definition x_ClaimDueAsyncJobs (instance : string) (batch : Z) (now : Instant) (d : DB) : Result (list AsyncJobRow * DB) :=
  if (batch <? 0)%Z then Fail (EConstraint "LIMIT must not be negative")
  else let rows := chosen (job_status 0) (λ r, ts (aj_CreatedAt r)) batch (t_async_jobs d) in
       Ok (job_claim instance now <$> rows.*2, set_async_jobs (update_rows (rows.*1) (job_claim instance now)) d).
Definition ClaimDueAsyncJobs instance batch : Go (list AsyncJobRow) := exec (x_ClaimDueAsyncJobs instance batch).

(** The end of an execution: one running row, answered by the number of rows. *)
Definition aj_update_running (id : UUID) (f : AsyncJobRow → AsyncJobRow) (d : DB) : Result (Z * DB) :=
  let (n, t) := update_one id (job_status 1) f (t_async_jobs d) in Ok (n, set_async_jobs (λ _, t) d).

Definition job_fail (msg : string) (now : Instant) (r : AsyncJobRow) : AsyncJobRow :=
  aj_update now 3 (aj_ResultPayload r) (Some msg) None None (Some now) r.
Definition x_MarkAsyncJobFailed (id : UUID) (msg : string) (now : Instant) (d : DB) : Result (Z * DB) :=
  aj_update_running id (job_fail msg now) d.
Definition MarkAsyncJobFailed id msg : Go Z := exec (x_MarkAsyncJobFailed id msg).

Definition job_succeed (result : Json) (now : Instant) (r : AsyncJobRow) : AsyncJobRow :=
  aj_update now 2 (Some result) None None None (Some now) r.
Definition x_MarkAsyncJobSucceeded (id : UUID) (result : Json) (now : Instant) (d : DB) : Result (Z * DB) :=
  aj_update_running id (job_succeed result now) d.
Definition MarkAsyncJobSucceeded id result : Go Z := exec (x_MarkAsyncJobSucceeded id result).

Definition job_stale (secs : Z) (now : Instant) (r : AsyncJobRow) : bool :=
  job_status 1 r && match aj_ClaimedAt r with Some t => (t <? now - secs * time_Second)%Z | None => false end.
Definition job_release (now : Instant) (r : AsyncJobRow) : AsyncJobRow :=
  aj_update now 0 (aj_ResultPayload r) (aj_LastError r) None None (aj_ExecutedAt r) r.
Definition x_ReleaseStaleAsyncJobClaims (secs : Z) (now : Instant) (d : DB) : Result (Z * DB) :=
  Ok (count_where (job_stale secs now) (t_async_jobs d), set_async_jobs (update_where (job_stale secs now) (job_release now)) d).
Definition ReleaseStaleAsyncJobClaims secs : Go Z := exec (x_ReleaseStaleAsyncJobClaims secs).

(** ** Repository *)

Definition wrap_job := wrap_db "async_job".

Definition asyncJobToEntity (s : AsyncJobRow) : Result AsyncJob :=
  rbind (formatUUID (aj_ID s)) (λ id,
  Ok (mkAsyncJob id (aj_JobType s) (aj_Payload s) (aj_Status s) (aj_ResultPayload s) (aj_LastError s) (aj_ClaimedBy s) (aj_ClaimedAt s)
        (aj_ExecutedAt s) (aj_HostID s) (aj_SessionID s) (aj_CreatedBy s)
        (default time_Time_zero (aj_CreatedAt s)) (default time_Time_zero (aj_UpdatedAt s)))).

Fixpoint jobs_to_entities (rows : list AsyncJobRow) : Result (list AsyncJob) :=
  match rows with
  | [] => Ok []
  | r :: rows' => rbind (asyncJobToEntity r) (λ e, rbind (jobs_to_entities rows') (λ es, Ok (e :: es)))
  end.

Section Repository.
Context {US : UUIDScan}.

Definition JobRepo_Create (p : CreateJobParams) : Go AsyncJob :=
  let* row := on_err wrap_job (CreateAsyncJob p) in lift (asyncJobToEntity row).
Definition JobRepo_Get (id : string) : Go AsyncJob :=
  let* uid := lift (parseUUID id) in
  let* row := on_err wrap_job (GetAsyncJob uid) in lift (asyncJobToEntity row).
Definition JobRepo_ClaimDue (instanceID : string) (batchSize : Z) : Go (list AsyncJob) :=
  let* rows := on_err wrap_job (ClaimDueAsyncJobs instanceID batchSize) in lift (jobs_to_entities rows).
Definition JobRepo_ReleaseStaleClaims (staleAfter : Z) : Go Z :=
  on_err wrap_job (ReleaseStaleAsyncJobClaims (int32 (Z.quot staleAfter time_Second))).
(** an empty payload is stored as JSON null *)
Definition JobRepo_MarkSucceeded (id : string) (resultPayload : option Json) : Go unit :=
  let* uid := lift (parseUUID id) in on_err wrap_job (MarkAsyncJobSucceeded uid (default JNull resultPayload)) ;;; ret tt.
Definition JobRepo_MarkFailed (id msg : string) : Go unit :=
  let* uid := lift (parseUUID id) in on_err wrap_job (MarkAsyncJobFailed uid msg) ;;; ret tt.
End Repository.

(** ** Asynchronous jobs: enqueueing and dispatching

    [src/usecase/async_job/usecase.go] and [src/usecase/async_job/handler.go].
    A job carries its request as JSON; the operations it dispatches to are the
    interfaces of the package, as classes. *)

From stdpp Require Import base gmap strings list.
From Stdlib Require Import ZArith.

Section Jobs.
Context {SP : StartupParameters} {US : UUIDScan}.

(** ** Interfaces *)

Class HostOperator : Type := {
  HeadlessHostStart : Ctx → HeadlessHostStartParams → option string → Go string;
  HeadlessHostShutdown : Ctx → string → Go unit;
  HeadlessHostRestart : Ctx → string → option string → bool → Z → Go unit }.

Class JobSessionOperator : Type := {
  job_StartSession : Ctx → string → string → option string → option WorldStartupParameters → option string → Go Session;
  job_StopSession : Ctx → string → Go unit }.

Class AccountFetcher : Type := { FetchHeadlessAccount : Ctx → string → Go HeadlessAccount }.

(** ** Enqueueing *)

Context {JM : JobMessages}.

Definition marshalPayload {T} `{ProtoJSON T} (msg : T) : Result Json := map_err (EWrap "marshal async job payload") (protojson_Marshal msg).

Definition enqueue (jobType : Z) (payload : Json) (hostID sessionID createdBy : option string) : Go string :=
  let* job := JobRepo_Create (mkCreateJobParams jobType payload hostID sessionID createdBy) in ret (job_ID job).

Definition EnqueueStartHost (req : StartHeadlessHostRequest) (createdBy : option string) : Go string :=
  let* payload := lift (marshalPayload req) in enqueue AsyncJobType_START_HOST payload None None createdBy.
Definition EnqueueShutdownHost (req : ShutdownHeadlessHostRequest) (createdBy : option string) : Go string :=
  let* payload := lift (marshalPayload req) in enqueue AsyncJobType_SHUTDOWN_HOST payload (Some (shr_HostId req)) None createdBy.
Definition EnqueueRestartHost (req : RestartHeadlessHostRequest) (createdBy : option string) : Go string :=
  let* payload := lift (marshalPayload req) in enqueue AsyncJobType_RESTART_HOST payload (Some (rhr_HostId req)) None createdBy.
Definition EnqueueStartSession (req : StartWorldRequest) (createdBy : option string) : Go string :=
  let* payload := lift (marshalPayload req) in enqueue AsyncJobType_START_SESSION payload (Some (swr_HostId req)) None createdBy.
Definition EnqueueStopSession (req : StopSessionRequest) (createdBy : option string) : Go string :=
  let* payload := lift (marshalPayload req) in enqueue AsyncJobType_STOP_SESSION payload None (Some (ssr_SessionId req)) createdBy.

(** ** Dispatching *)

Record JobResult : Type := mkJobResult { jr_HostID : string; jr_SessionID : string }.

(** [omitempty] *)
Definition omit_empty (name s : string) : Members := if bool_decide (s = EmptyString) then [] else str_member name s.
Definition MarshalResult (r : JobResult) : Result Json :=
  Ok (JObj (omit_empty "host_id" (jr_HostID r) ++ omit_empty "session_id" (jr_SessionID r))).

Definition defaultRestartTimeoutSeconds : Z := 10 * 60.

Context {HO : HostOperator} {SO : JobSessionOperator} {AF : AccountFetcher}.

(** What each handler does with its decoded request; it answers the result
    and the message of the notification. *)
Definition do_startHost (ctx : Ctx) (req : StartHeadlessHostRequest) (createdBy : option string) : Go (JobResult * string) :=
  let* account := on_err (EWrap "get headless account") (FetchHeadlessAccount ctx (hsr_HeadlessAccountId req)) in
  let groupID := default EmptyString (hsr_GroupId req) in
  let groupID := if bool_decide (groupID = EmptyString) then HeadlessAccount_GroupID account else groupID in
  let params := mkHostStartParams (hsr_Name req) (default EmptyString (hsr_ImageTag req)) account (hsr_StartupConfig req)
                  (default HostAutoUpdatePolicy_UNSPECIFIED (hsr_AutoUpdatePolicy req)) (default EmptyString (hsr_Memo req)) groupID in
  let* hostID := HeadlessHostStart ctx params createdBy in
  ret (mkJobResult hostID EmptyString, "ホスト " +:+ strconv_Quote (hsr_Name req) +:+ " を起動しました").

Definition do_shutdownHost (ctx : Ctx) (req : ShutdownHeadlessHostRequest) : Go (JobResult * string) :=
  HeadlessHostShutdown ctx (shr_HostId req) ;;;
  ret (mkJobResult (shr_HostId req) EmptyString, "ホスト " +:+ shr_HostId req +:+ " を停止しました").

Definition do_restartHost (ctx : Ctx) (req : RestartHeadlessHostRequest) : Go (JobResult * string) :=
  let tag := default EmptyString (rhr_WithImageTag req) in
  let newTag := if rhr_WithUpdate req then Some "latestRelease"
                else if bool_decide (tag = EmptyString) then None else Some tag in
  let timeout := default defaultRestartTimeoutSeconds (rhr_TimeoutSeconds req) in
  HeadlessHostRestart ctx (rhr_HostId req) newTag (rhr_WithWorldRestart req) timeout ;;;
  ret (mkJobResult (rhr_HostId req) EmptyString, "ホスト " +:+ rhr_HostId req +:+ " を再起動しました").

Definition do_startSession (ctx : Ctx) (req : StartWorldRequest) (createdBy : option string) : Go (JobResult * string) :=
  let memo := if bool_decide (swr_Memo req = EmptyString) then None else Some (swr_Memo req) in
  let* s := job_StartSession ctx (swr_HostId req) (default EmptyString (swr_GroupId req)) createdBy (swr_Parameters req) memo in
  let name := match swr_Parameters req with Some p => GetName p | None => EmptyString end in
  let name := if bool_decide (name = EmptyString) then Session_ID s else name in
  ret (mkJobResult (swr_HostId req) (Session_ID s), "セッション " +:+ strconv_Quote name +:+ " を開始しました").

Definition do_stopSession (ctx : Ctx) (req : StopSessionRequest) : Go (JobResult * string) :=
  job_StopSession ctx (ssr_SessionId req) ;;;
  ret (mkJobResult EmptyString (ssr_SessionId req), "セッション " +:+ ssr_SessionId req +:+ " を停止しました").

Definition decode_payload {T} `{ProtoJSON T} (prefix : string) (job : AsyncJob) : Go T :=
  on_err (EWrap prefix) (lift (protojson_Unmarshal (job_Payload job))).

Definition startHost (ctx : Ctx) (job : AsyncJob) : Go (JobResult * string) :=
  let* req := decode_payload "decode start_host payload" job in do_startHost ctx req (job_CreatedBy job).
Definition shutdownHost (ctx : Ctx) (job : AsyncJob) : Go (JobResult * string) :=
  let* req := decode_payload "decode shutdown_host payload" job in do_shutdownHost ctx req.
Definition restartHost (ctx : Ctx) (job : AsyncJob) : Go (JobResult * string) :=
  let* req := decode_payload "decode restart_host payload" job in do_restartHost ctx req.
Definition startSession (ctx : Ctx) (job : AsyncJob) : Go (JobResult * string) :=
  let* req := decode_payload "decode start_session payload" job in do_startSession ctx req (job_CreatedBy job).
Definition stopSession (ctx : Ctx) (job : AsyncJob) : Go (JobResult * string) :=
  let* req := decode_payload "decode stop_session payload" job in do_stopSession ctx req.

Definition Dispatch (ctx : Ctx) (job : AsyncJob) : Go (JobResult * string) :=
  let t := job_JobType job in
  if (t =? AsyncJobType_START_HOST)%Z then startHost ctx job
  else if (t =? AsyncJobType_SHUTDOWN_HOST)%Z then shutdownHost ctx job
  else if (t =? AsyncJobType_RESTART_HOST)%Z then restartHost ctx job
  else if (t =? AsyncJobType_START_SESSION)%Z then startSession ctx job
  else if (t =? AsyncJobType_STOP_SESSION)%Z then stopSession ctx job
  else if (t =? AsyncJobType_UNKNOWN)%Z then fail (EMsg "unknown job type")
  else fail (EMsg ("unsupported job type: " +:+ fmt_d t)).
End Jobs.
