(* ===== verification/AsyncExecutor.v ===== *)
(** * Asynchronous jobs: the executor

    [src/worker/async_job_executor.go]: executing one claimed job as the user
    who enqueued it, recording the outcome and notifying that user, and the
    rounds of the loop.  What is published on the bus is part of the answer:
    the list of events with their addressees ([Bus.PublishTo]). *)

From S2P Require Import Prelude Entity Json Digest Models Queries Ports Repositories Headless Resources Notification Claims ScheduledOps ScheduledRepo ScheduledUsecase ScheduledExecutor Messages AsyncJobs.
From stdpp Require Import base gmap strings list.
From Stdlib Require Import ZArith.

(** ** Options *)

Definition defaultAsyncJobTickInterval : Z := (5 * time_Second)%Z.
Definition defaultAsyncJobStaleAfter : Z := (30 * time_Minute)%Z.
Definition defaultAsyncJobStaleSweep : Z := time_Minute.
Definition defaultAsyncJobBatchSize : Z := 8.
Definition defaultAsyncJobConcurrency : Z := 4.
Definition defaultAsyncJobActionTimeout : Z := (20 * time_Minute)%Z.

(** the fields are those of the options of the other executor *)
Definition NewAsyncJobExecutor (hostname : option string) (o : ExecutorOptions) : ExecutorOptions :=
  mkExecutorOptions
    (if bool_decide (eo_InstanceID o = EmptyString) then default "controller" (given hostname) else eo_InstanceID o)
    (or_default (eo_TickInterval o) defaultAsyncJobTickInterval)
    (or_default (eo_StaleAfter o) defaultAsyncJobStaleAfter)
    (or_default (eo_StaleSweep o) defaultAsyncJobStaleSweep)
    (or_default (eo_BatchSize o) defaultAsyncJobBatchSize)
    (or_default (eo_Concurrency o) defaultAsyncJobConcurrency)
    (or_default (eo_ActionTimeout o) defaultAsyncJobActionTimeout).

(** ** One execution *)

Abbreviation Publications := (list (string * NotificationEvent)).

Section Executor.
Context {SP : StartupParameters} {JM : JobMessages} {US : UUIDScan}.
Context {HO : HostOperator} {SO : JobSessionOperator} {AF : AccountFetcher}.
Context (userChecker : option (string → Go bool)) (e : ExecutorOptions).

(** Whether the handler panics, with the value of the panic and what it had
    done: the code it calls is not ours, and [executeOne] recovers. *)
Context (handler_panics : Ctx → AsyncJob → World → option (string * World)).

Definition publishCompletion (job : AsyncJob) (message : string) (level : Z) : Go Publications :=
  match given (job_CreatedBy job) with
  | None => ret []
  | Some user => let* now := gets w_now in ret [(user, JobCompleted now (job_ID job) message level)]
  end.

Definition job_markFailed (job : AsyncJob) (runErr : Err) : Go Publications :=
  let msg := Err_Error runErr in
  attempt (JobRepo_MarkFailed (job_ID job) msg) ;;; publishCompletion job msg LEVEL_ERROR.

(** what the deferred [recover] makes of a panic of the code modelled here *)
Definition recovered (err : Err) : Err := match err with EPanic v => EMsg ("handler panicked: " +:+ v) | _ => err end.
Definition run_dispatched (ctx : Ctx) (job : AsyncJob) : Go Publications :=
  let* r := attempt (Dispatch ctx job) in
  match r with
  | Fail err => job_markFailed job (recovered err)
  | Ok (result, message) =>
      match MarshalResult result with
      | Fail err => job_markFailed job err
      | Ok resultJSON =>
          attempt (JobRepo_MarkSucceeded (job_ID job) (Some resultJSON)) ;;; publishCompletion job message LEVEL_SUCCESS
      end
  end.

(** with the deferred [recover] *)
Definition run_recovering (ctx : Ctx) (job : AsyncJob) : Go Publications := λ w,
  match handler_panics ctx job w with
  | Some (v, w') => job_markFailed job (EMsg ("handler panicked: " +:+ v)) w'
  | None => run_dispatched ctx job w
  end.

Definition job_executeOne (ctx : Ctx) (job : AsyncJob) : Go Publications :=
  match given (job_CreatedBy job) with
  | None => job_markFailed job (EMsg "job has no created_by")
  | Some user =>
      let* v := check_creator userChecker user in
      match v with
      | LeaveClaim => ret []
      | Refuse err => job_markFailed job err
      | Proceed => run_recovering (WithActAsUser ctx user) job
      end
  end.

(** ** The loop *)

Fixpoint job_execute_all (ctx : Ctx) (jobs : list AsyncJob) : Go Publications :=
  match jobs with
  | [] => ret []
  | job :: jobs' => let* p := job_executeOne ctx job in let* ps := job_execute_all ctx jobs' in ret (p ++ ps)
  end.

(** [dispatchOnce], with the goroutines run one after the other; [started] is
    how many start before the context is cancelled. *)
Definition job_dispatchOnce (ctx : Ctx) (started : nat) : Go Publications :=
  let* r := attempt (JobRepo_ClaimDue (eo_InstanceID e) (eo_BatchSize e)) in
  match r with Fail _ => ret [] | Ok jobs => job_execute_all ctx (take started jobs) end.

Definition job_Run_round (ctx : Ctx) (t : Tick) : Go Publications :=
  match t with
  | StaleSweep => attempt (JobRepo_ReleaseStaleClaims (eo_StaleAfter e)) ;;; ret []
  | DispatchTick started => job_dispatchOnce ctx started
  end.
Fixpoint job_Run_rounds (ctx : Ctx) (ts : list Tick) : Go Publications :=
  match ts with
  | [] => ret []
  | t :: ts' => let* p := job_Run_round ctx t in let* ps := job_Run_rounds ctx ts' in ret (p ++ ps)
  end.
(** [Run] until it is cancelled: the sweep at the start, then the rounds. *)
Definition job_Run (ctx : Ctx) (ts : list Tick) : Go Publications :=
  attempt (JobRepo_ReleaseStaleClaims (eo_StaleAfter e)) ;;; job_Run_rounds ctx ts.
End Executor.
