(* ===== verification/AsyncSystem.v ===== *)
(** * Asynchronous jobs as a concurrent system

    Users, executors and sweeps of any number of server instances act on the
    table of jobs through its statements, each atomic ([Claims.history]).  A
    job lives like a scheduled operation, but it cannot be cancelled or put
    back. *)

From S2P Require Import Prelude Entity Json Digest Models Queries Ports Repositories Headless Resources Claims ScheduledRepo Slots ScheduledExecutor AsyncJobs AsyncExecutor.
From stdpp Require Import base gmap strings list.
From Stdlib Require Import ZArith Lia.

(** ** Statements of all actors *)

Inductive JobStatement : Type :=
  | JCreate (id : UUID) (p : CreateJobParams)
  | JClaim (instance : string) (batch : Z)
  | JSucceed (id : UUID) (result : Json)
  | JFail (id : UUID) (msg : string)
  | JRelease (secs : Z).

Definition job_table {A} (d : DB) (r : Result (A * DB)) : gmap UUID AsyncJobRow :=
  match r with Ok (_, d') => t_async_jobs d' | Fail _ => t_async_jobs d end.

Definition run_job_statement (now : Instant) (s : JobStatement) (d : DB) : gmap UUID AsyncJobRow :=
  match s with
  | JCreate id p => job_table d (x_CreateAsyncJob id p now d)
  | JClaim inst batch => job_table d (x_ClaimDueAsyncJobs inst batch now d)
  | JSucceed id result => job_table d (x_MarkAsyncJobSucceeded id result now d)
  | JFail id msg => job_table d (x_MarkAsyncJobFailed id msg now d)
  | JRelease secs => job_table d (x_ReleaseStaleAsyncJobClaims secs now d)
  end.

Abbreviation job_history := (Claims.history t_async_jobs run_job_statement).

(** ** What a statement does to a row *)

(** One step of a row. *)
Inductive job_step (now : Instant) : JobStatement → UUID → AsyncJobRow → AsyncJobRow → Prop :=
  | job_stays s k r : job_step now s k r r
  | job_claimed inst batch k r : aj_Status r = 0%Z → job_step now (JClaim inst batch) k r (job_claim inst now r)
  | job_succeeded k result r : aj_Status r = 1%Z → job_step now (JSucceed k result) k r (job_succeed result now r)
  | job_failed k msg r : aj_Status r = 1%Z → job_step now (JFail k msg) k r (job_fail msg now r)
  | job_released secs k r : aj_Status r = 1%Z → job_stale secs now r = true → job_step now (JRelease secs) k r (job_release now r).

Lemma job_status_eq s r : job_status s r = true ↔ aj_Status r = s.
Proof. apply Z.eqb_eq. Qed.

Lemma aj_update_running_row id f d k r : t_async_jobs d !! k = Some r →
  job_table d (aj_update_running id f d) !! k = Some (if bool_decide (k = id) && job_status 1 r then f r else r).
Proof.
  intros Hk. unfold aj_update_running, job_table. pose proof (update_one_lookup id (job_status 1) f (t_async_jobs d) k) as H.
  destruct (update_one _ _ _ _) as [n t]. simpl in *. by rewrite H, Hk.
Qed.

Lemma run_job_row now s d k r : t_async_jobs d !! k = Some r →
  ∃ r', run_job_statement now s d !! k = Some r' ∧ job_step now s k r r'.
Proof.
  intros Hk. destruct s as [id p|inst batch|id result|id msg|secs]; simpl.
  - exists r. split; [|constructor]. unfold x_CreateAsyncJob, check, present. case_bool_decide as Hp; simpl; [done|].
    rewrite lookup_insert_ne; [done|]. intros ->. apply Hp. by eexists.
  - unfold x_ClaimDueAsyncJobs. destruct (batch <? 0)%Z; [exists r; by split; [|constructor]|].
    simpl. rewrite lookup_update_rows, Hk. simpl. case_bool_decide as Hin; [|exists r; by split; [|constructor]].
    eexists. split; [done|]. constructor. apply list_elem_of_fmap in Hin as ([k' r'] & -> & Hin).
    apply chosen_spec in Hin as [Hk' Hd]. simpl in Hk. assert (r' = r) as -> by congruence. by apply job_status_eq.
  - eexists. split; [by apply aj_update_running_row|]. case_bool_decide as Hid; [|constructor].
    destruct (job_status 1 r) eqn:Es; [subst; constructor; by apply job_status_eq|constructor].
  - eexists. split; [by apply aj_update_running_row|]. case_bool_decide as Hid; [|constructor].
    destruct (job_status 1 r) eqn:Es; [subst; constructor; by apply job_status_eq|constructor].
  - unfold x_ReleaseStaleAsyncJobClaims, update_where. simpl. rewrite lookup_fmap, Hk. eexists. split; [done|].
    destruct (job_stale secs now r) eqn:Es; [|constructor]. constructor; [|done].
    unfold job_stale in Es. apply andb_true_iff in Es as [Es _]. by apply job_status_eq.
Qed.

(** A row that was not there is a new one. *)
Lemma run_job_new now s d k r : t_async_jobs d !! k = None → run_job_statement now s d !! k = Some r →
  ∃ p, s = JCreate k p ∧ r = new_job_row k p now.
Proof.
  assert (∀ id f, t_async_jobs d !! k = None → job_table d (aj_update_running id f d) !! k = None) as Hone.
  { intros id f Hk. unfold aj_update_running, job_table. pose proof (update_one_lookup id (job_status 1) f (t_async_jobs d) k) as H.
    destruct (update_one _ _ _ _) as [n t]. simpl in *. by rewrite H, Hk. }
  intros Hk. destruct s as [id p|inst batch|id result|id msg|secs]; simpl.
  - unfold x_CreateAsyncJob, check. destruct (negb _); simpl; [|by rewrite Hk].
    intros [[<- <-]|[_ ?]]%lookup_insert_Some; [eauto|congruence].
  - unfold x_ClaimDueAsyncJobs. destruct (batch <? 0)%Z; simpl; [by rewrite Hk|]. by rewrite lookup_update_rows, Hk.
  - unfold x_MarkAsyncJobSucceeded. by rewrite (Hone _ _ Hk).
  - unfold x_MarkAsyncJobFailed. by rewrite (Hone _ _ Hk).
  - unfold x_ReleaseStaleAsyncJobClaims, update_where. simpl. by rewrite lookup_fmap, Hk.
Qed.

(** ** The life of a job *)

(** What never changes after a job is enqueued. *)
Definition job_core (r : AsyncJobRow) :=
  (aj_ID r, (aj_JobType r, aj_Payload r), (aj_HostID r, aj_SessionID r), (aj_CreatedBy r, aj_CreatedAt r)).
(** Succeeded or failed. *)
Definition job_done (r : AsyncJobRow) : bool := (2 <=? aj_Status r)%Z.

Record job_row_ok (k : UUID) (r : AsyncJobRow) : Prop := {
  job_row_id : aj_ID r = Some k;
  job_row_status : (0 <= aj_Status r <= 3)%Z;
  job_row_claimed : aj_Status r = 1%Z ↔ is_Some (aj_ClaimedBy r);
  job_row_claimed_at : is_Some (aj_ClaimedAt r) ↔ is_Some (aj_ClaimedBy r);
  job_row_executed : is_Some (aj_ExecutedAt r) ↔ job_done r = true;
  job_row_result : is_Some (aj_ResultPayload r) ↔ aj_Status r = 2%Z;
  job_row_error : is_Some (aj_LastError r) ↔ aj_Status r = 3%Z }.

Definition jobs_ok (d : DB) : Prop := map_Forall job_row_ok (t_async_jobs d).

Definition job_kept (r r' : AsyncJobRow) : Prop := job_core r' = job_core r ∧ (job_done r = true → r' = r).

Lemma job_step_kept now s k r r' : job_step now s k r r' → job_kept r r'.
Proof. unfold job_kept, job_done. destruct 1 as [|? ? ? ? H|? ? ? H|? ? ? H|? ? ? H ?]; [done|rewrite H; done..]. Qed.

Lemma job_kept_trans r1 r2 r3 : job_kept r1 r2 → job_kept r2 r3 → job_kept r1 r3.
Proof. intros [Hc1 Hd1] [Hc2 Hd2]. split; [congruence|]. intros H. pose proof (Hd1 H) as Heq. subst r2. auto. Qed.

Lemma job_step_ok now s k r r' : job_step now s k r r' → job_row_ok k r → job_row_ok k r'.
Proof.
  intros Hs [H1 H2 H3 H4 H5 H6 H7]. unfold job_done in *.
  destruct Hs as [|? ? ? ? H|? ? ? H|? ? ? H|? ? ? H ?]; [by constructor|..]; rewrite H in *; constructor; unfold job_done; simpl; try done; try lia;
    split; try done; try naive_solver lia; intros [? ?]; naive_solver lia.
Qed.

Lemma new_job_ok k p now : job_row_ok k (new_job_row k p now).
Proof. constructor; unfold job_done; simpl; try done; try lia; split; try done; try naive_solver lia; intros [? ?]; done. Qed.

Lemma run_job_ok now s d : map_Forall job_row_ok (t_async_jobs d) → map_Forall job_row_ok (run_job_statement now s d).
Proof.
  intros Hok k r Hk. destruct (t_async_jobs d !! k) as [r0|] eqn:H0.
  - destruct (run_job_row now s d k r0 H0) as (r' & Hk' & Hs). rewrite Hk in Hk'. injection Hk' as <-. eapply job_step_ok; [exact Hs|by apply Hok].
  - destruct (run_job_new now s d k r H0 Hk) as (p & _ & ->). apply new_job_ok.
Qed.

(** ** The moves of a job

    What each statement may do to the job [k], in the words of the source: the
    statuses by their names, the conditions on both rows. *)

(** It happens under the condition [c], and otherwise the row stays. *)
Definition job_moves_if (c : Prop) (r r' : AsyncJobRow) (P : Prop) : Prop := (c → P) ∧ (¬ c → r' = r).

Definition job_unclaimed (r : AsyncJobRow) : Prop := aj_ClaimedBy r = None ∧ aj_ClaimedAt r = None.

Definition job_moves (now : Instant) (s : JobStatement) (k : UUID) (r r' : AsyncJobRow) : Prop :=
  match s with
  | JCreate _ _ => r' = r
  | JClaim inst _ =>
      r' = r ∨
      aj_Status r = AsyncJobStatus_PENDING ∧ aj_Status r' = AsyncJobStatus_RUNNING ∧ aj_ClaimedBy r' = Some inst ∧ aj_ClaimedAt r' = Some now
  | JSucceed id result =>
      job_moves_if (id = k ∧ aj_Status r = AsyncJobStatus_RUNNING) r r'
        (aj_Status r' = AsyncJobStatus_SUCCEEDED ∧ aj_ResultPayload r' = Some result ∧ aj_ExecutedAt r' = Some now ∧ job_unclaimed r')
  | JFail id msg =>
      job_moves_if (id = k ∧ aj_Status r = AsyncJobStatus_RUNNING) r r'
        (aj_Status r' = AsyncJobStatus_FAILED ∧ aj_LastError r' = Some msg ∧ aj_ExecutedAt r' = Some now ∧ job_unclaimed r')
  | JRelease secs =>
      job_moves_if (aj_Status r = AsyncJobStatus_RUNNING ∧ ∃ t, aj_ClaimedAt r = Some t ∧ (t < now - secs * time_Second)%Z) r r'
        (aj_Status r' = AsyncJobStatus_PENDING ∧ job_unclaimed r')
  end.

Lemma job_moves_if_bool (c : Prop) (b : bool) (f : AsyncJobRow → AsyncJobRow) r (P : AsyncJobRow → Prop) :
  (b = true ↔ c) → (c → P (f r)) → job_moves_if c r (if b then f r else r) (P (if b then f r else r)).
Proof. intros Hb HP. destruct b; split; [tauto|intros Hc; tauto|intros Hc; naive_solver|done]. Qed.

Lemma job_addressed_iff (k id : UUID) (z : Z) (r : AsyncJobRow) :
  bool_decide (k = id) && job_status z r = true ↔ id = k ∧ aj_Status r = z.
Proof. rewrite andb_true_iff, bool_decide_eq_true, job_status_eq. naive_solver. Qed.

Lemma job_stale_iff secs now r :
  job_stale secs now r = true ↔ aj_Status r = 1%Z ∧ ∃ t, aj_ClaimedAt r = Some t ∧ (t < now - secs * time_Second)%Z.
Proof.
  unfold job_stale. rewrite andb_true_iff, job_status_eq. destruct (aj_ClaimedAt r) as [t|]; [rewrite Z.ltb_lt|]; naive_solver.
Qed.

Lemma run_job_moves_row now s d k r : t_async_jobs d !! k = Some r →
  ∃ r', run_job_statement now s d !! k = Some r' ∧ job_moves now s k r r'.
Proof.
  intros Hk. destruct s as [id p|inst batch|id result|id msg|secs].
  - destruct (run_job_row now (JCreate id p) d k r Hk) as (r' & ? & Hs). exists r'. split; [done|]. by inversion Hs.
  - destruct (run_job_row now (JClaim inst batch) d k r Hk) as (r' & ? & Hs). exists r'. split; [done|]. inversion Hs; subst; [by left|by right].
  - eexists. split; [by apply aj_update_running_row|].
    apply (job_moves_if_bool _ _ _ _ (λ r', aj_Status r' = AsyncJobStatus_SUCCEEDED ∧ aj_ResultPayload r' = Some result ∧
      aj_ExecutedAt r' = Some now ∧ job_unclaimed r')); [apply job_addressed_iff|done].
  - eexists. split; [by apply aj_update_running_row|].
    apply (job_moves_if_bool _ _ _ _ (λ r', aj_Status r' = AsyncJobStatus_FAILED ∧ aj_LastError r' = Some msg ∧
      aj_ExecutedAt r' = Some now ∧ job_unclaimed r')); [apply job_addressed_iff|done].
  - eexists. split; [simpl; unfold update_where; by rewrite lookup_fmap, Hk|].
    apply (job_moves_if_bool _ _ _ _ (λ r', aj_Status r' = AsyncJobStatus_PENDING ∧ job_unclaimed r')); [apply job_stale_iff|done].
Qed.

(** What one statement does to the table: every job keeps what was asked and
    moves as the statement says, and a new one is pending. *)
Definition jobs_move (now : Instant) (s : JobStatement) (t t' : gmap UUID AsyncJobRow) : Prop :=
  (∀ k r, t !! k = Some r → ∃ r', t' !! k = Some r' ∧ job_core r' = job_core r ∧ job_moves now s k r r') ∧
  (∀ k r, t !! k = None → t' !! k = Some r →
     ∃ p, s = JCreate k p ∧ aj_Status r = AsyncJobStatus_PENDING ∧ job_unclaimed r ∧ aj_JobType r = cjp_JobType p ∧ aj_CreatedBy r = cjp_CreatedBy p).

Lemma run_job_moves now s d : jobs_move now s (t_async_jobs d) (run_job_statement now s d).
Proof.
  split.
  - intros k r Hk. destruct (run_job_moves_row now s d k r Hk) as (r' & Hk' & Hm). exists r'. split; [done|]. split; [|done].
    destruct (run_job_row now s d k r Hk) as (r2 & Hk2 & Hs). assert (r2 = r') as -> by congruence. by eapply job_step_kept.
  - intros k r Hk Hk'. destruct (run_job_new now s d k r Hk Hk') as (p & -> & ->). by exists p.
Qed.

(** C23. Whatever users, executors and sweeps of any number of instances do,
    in any interleaving of their statements: a job is never lost, what was
    enqueued and by whom never changes, its status, claim, result and error
    always agree, and once it has succeeded or failed nothing touches it
    again.  And at every statement of the interleaving each job moves only as
    the statement allows ([job_moves]): a claim makes a PENDING one RUNNING
    for its instance, the end of an execution makes a RUNNING one SUCCEEDED or
    FAILED, a sweep makes a RUNNING one PENDING if its claim is stale; only a
    create adds one, PENDING. *)
Theorem job_lifecycle (d d' : DB) (trace : list (Instant * JobStatement)) :
  jobs_ok d → job_history d trace d' →
  jobs_ok d' ∧
  (∀ k r, t_async_jobs d !! k = Some r →
    ∃ r', t_async_jobs d' !! k = Some r' ∧ job_core r' = job_core r ∧ (job_done r = true → r' = r)) ∧
  ∀ t1 now s t2, trace = t1 ++ (now, s) :: t2 →
    ∃ d0 d1, job_history d t1 d0 ∧ jobs_ok d0 ∧ jobs_move now s (t_async_jobs d0) (t_async_jobs d1) ∧ job_history d1 t2 d'.
Proof.
  intros Hok H. split; [by apply (history_keeps _ _ _ d trace d' run_job_ok)|]. split.
  - intros k r. apply (history_row t_async_jobs run_job_statement job_kept d trace); [done|apply job_kept_trans| |done].
    intros now s d0 k0 r0 Hk. destruct (run_job_row now s d0 k0 r0 Hk) as (r' & ? & Hs). exists r'. split; [done|]. by eapply job_step_kept.
  - intros t1 now s t2 ->. apply history_split in H as (d0 & d1 & H1 & Hs & H2). exists d0, d1. split; [done|].
    split; [by apply (history_keeps _ _ _ d t1 d0 run_job_ok)|]. split; [|done]. rewrite Hs. apply run_job_moves.
Qed.

(** ** One execution at a time *)



(** The options an executor gets when none are given. *)
Definition default_job_executor (inst : string) : ExecutorOptions := NewAsyncJobExecutor None (mkExecutorOptions inst 0 0 0 0 0 0).

(** How many rounds a full batch takes on the slots of the executor. *)
Definition rounds (e : ExecutorOptions) : Z := ((eo_BatchSize e - 1) / eo_Concurrency e + 1)%Z.

(** By default there are two, and two actions of full length do not fit. *)
Example default_rounds :
  rounds (default_job_executor "one") = 2%Z ∧
  (rounds (default_job_executor "one") * (15 * time_Minute) = eo_StaleAfter (default_job_executor "one"))%Z ∧
  (eo_StaleAfter (default_job_executor "one") < rounds (default_job_executor "one") * eo_ActionTimeout (default_job_executor "one"))%Z.
Proof. by vm_compute. Qed.




(** ** Where the default options do not suffice *)

Definition job_id (n : Z) : UUID := replicate 15 0%Z ++ [n].
Definition a_job : CreateJobParams := mkCreateJobParams AsyncJobType_START_HOST JNull None None (Some "alice").
(** five jobs waiting *)
Definition five_jobs : DB :=
  set_async_jobs (λ _, list_to_map ((λ n, (job_id n, new_job_row (job_id n) a_job n)) <$> [1; 2; 3; 4; 5]%Z)) empty_DB.
Definition after_job_statement (now : Instant) (s : JobStatement) (d : DB) : DB := set_async_jobs (λ _, run_job_statement now s d) d.

Definition twenty_minutes : list Z := replicate 5 defaultAsyncJobActionTimeout.
Definition first_claim : DB := after_job_statement 0%Z (JClaim "one" defaultAsyncJobBatchSize) five_jobs.
(** another instance sweeps and looks for work after 31 minutes *)
Definition second_claim : DB :=
  after_job_statement (31 * time_Minute)%Z (JClaim "other" defaultAsyncJobBatchSize)
    (after_job_statement (31 * time_Minute)%Z (JRelease (Z.quot defaultAsyncJobStaleAfter time_Second)) first_claim).
Definition claimant (d : DB) (k : UUID) : option string := t_async_jobs d !! k ≫= aj_ClaimedBy.

(** A concrete run: with the default options four executions that use
    their whole time make the fifth start after twenty minutes; it is still
    running after 31, when the claim is stale and another instance executes
    the job a second time. *)
Theorem fifth_job_runs_twice :
  claimant first_claim (job_id 5) = Some "one" ∧
  (∃ finish, finish_times 0%Z (Z.to_nat defaultAsyncJobConcurrency) twenty_minutes !! 4%nat = Some finish ∧ (31 * time_Minute < finish)%Z) ∧
  claimant second_claim (job_id 5) = Some "other".
Proof. split; [vm_compute; reflexivity|]. split; [|vm_compute; reflexivity]. eexists. split; [vm_compute; reflexivity|]. reflexivity. Qed.

(** ** Witnesses *)


Lemma five_jobs_ok : jobs_ok five_jobs.
Proof.
  intros k r Hk. apply elem_of_list_to_map_2, list_elem_of_fmap in Hk as (n & [= -> ->] & _). apply new_job_ok.
Qed.

Definition finished_job : DB := after_job_statement time_Second (JSucceed (job_id 5) JNull) first_claim.

Lemma job_lifecycle_witness :
  (aj_Status <$> t_async_jobs first_claim !! job_id 5 = Some AsyncJobStatus_RUNNING) ∧
  (aj_Status <$> t_async_jobs finished_job !! job_id 5 = Some AsyncJobStatus_SUCCEEDED) ∧
  jobs_ok finished_job ∧
  (∀ k r, t_async_jobs five_jobs !! k = Some r →
    ∃ r', t_async_jobs finished_job !! k = Some r' ∧ job_core r' = job_core r ∧ (job_done r = true → r' = r)) ∧
  ∀ t1 now s t2, [(0%Z, JClaim "one" defaultAsyncJobBatchSize); (time_Second, JSucceed (job_id 5) JNull)] = t1 ++ (now, s) :: t2 →
    ∃ d0 d1, job_history five_jobs t1 d0 ∧ jobs_ok d0 ∧ jobs_move now s (t_async_jobs d0) (t_async_jobs d1) ∧ job_history d1 t2 finished_job.
Proof.
  split; [vm_compute; reflexivity|]. split; [vm_compute; reflexivity|].
  apply (job_lifecycle five_jobs finished_job); [exact five_jobs_ok|].
  apply (history_cons _ _ _ _ _ first_claim); [reflexivity|]. apply (history_cons _ _ _ _ _ finished_job); [reflexivity|]. by apply history_nil.
Defined.

