(* ===== verification/AsyncSafety.v ===== *)
(** * Asynchronous jobs: one execution

    What [executeOne] of [src/worker/async_job_executor.go] does to the table
    and whom it notifies, and that a job carries its request unchanged from
    the user who enqueued it to the operation it calls. *)

From S2P Require Import Prelude Entity Json Digest Models Queries Ports Repositories Headless Resources Notification Claims ScheduledRepo ScheduledUsecase ScheduledSafety ScheduledExecutor Messages AsyncJobs AsyncExecutor AsyncSystem PlainJson PermissionTheorems RpcAccess NotificationService.
From stdpp Require Import base gmap strings list.
From Stdlib Require Import ZArith Lia.

Section Safety.
Context {SP : StartupParameters} {JM : JobMessages} {US : UUIDScan}.
Context {HO : HostOperator} {SO : JobSessionOperator} {AF : AccountFetcher}.
Context (userChecker : option (string → Go bool)).
Context (handler_panics : Ctx → AsyncJob → World → option (string * World)).

(** ** Notifications *)

Definition is_completion (user : string) (job : AsyncJob) (level : Z) (ps : Publications) : Prop :=
  ∃ now msg, ps = [(user, JobCompleted now (job_ID job) msg level)].

Lemma publish_run user job msg level w : given (job_CreatedBy job) = Some user →
  publishCompletion job msg level w = (Ok [(user, JobCompleted (w_now w) (job_ID job) msg level)], w).
Proof. intros H. unfold publishCompletion. by rewrite H. Qed.

Lemma attempt_then {A B} (m : Go A) (k : Go B) w : (attempt m ;;; k) w = k (m w).2.
Proof. unfold bind, attempt. by destruct (m w). Qed.

Lemma markFailed_notifies user job err w : given (job_CreatedBy job) = Some user →
  ∃ ps w', job_markFailed job err w = (Ok ps, w') ∧ is_completion user job LEVEL_ERROR ps.
Proof.
  intros H. unfold job_markFailed. cbv zeta. rewrite attempt_then, (publish_run user) by done. do 2 eexists. split; [done|]. by do 2 eexists.
Qed.

(** Whatever fails, the database included, an execution ends; it notifies
    nobody but the user who enqueued the job, at most once, and only the
    check that he exists, cut off by the end of the context, keeps it from
    notifying him; and it reports success only if the operation succeeded,
    run as that user. *)
Theorem job_notification (ctx : Ctx) (job : AsyncJob) (w : World) :
  ∃ ps w', job_executeOne userChecker handler_panics ctx job w = (Ok ps, w') ∧
  match given (job_CreatedBy job) with
  | None => ps = []
  | Some user =>
      is_completion user job LEVEL_ERROR ps ∨
      (is_completion user job LEVEL_SUCCESS ps ∧ ∃ w1 result w2, Dispatch (WithActAsUser ctx user) job w1 = (Ok result, w2)) ∨
      (ps = [] ∧ ∃ exists_ err w1, userChecker = Some exists_ ∧ exists_ user w = (Fail err, w1) ∧
         (errors_Is err ErrCanceled || errors_Is err ErrDeadlineExceeded) = true)
  end.
Proof.
  unfold job_executeOne. destruct (given (job_CreatedBy job)) as [user|] eqn:Eu.
  2:{ unfold job_markFailed, publishCompletion. rewrite Eu. cbv zeta. rewrite attempt_then. by do 2 eexists. }
  assert (∀ w1, ∃ ps w', run_recovering handler_panics (WithActAsUser ctx user) job w1 = (Ok ps, w') ∧
            (is_completion user job LEVEL_ERROR ps ∨
             (is_completion user job LEVEL_SUCCESS ps ∧ ∃ w1 result w2, Dispatch (WithActAsUser ctx user) job w1 = (Ok result, w2)))) as Hrun.
  { intros w1. unfold run_recovering. destruct (handler_panics _ _ _) as [[v w2]|].
    - destruct (markFailed_notifies user job (EMsg ("handler panicked: " +:+ v)) w2 Eu) as (ps & w' & -> & H). eauto.
    - unfold run_dispatched. unfold bind at 1. unfold attempt at 1. destruct (Dispatch (WithActAsUser ctx user) job w1) as [[[result msg]|err] w2] eqn:Ed.
      + simpl. rewrite attempt_then, (publish_run user) by done. do 2 eexists. split; [done|]. right. split; [by do 2 eexists|eauto].
      + destruct (markFailed_notifies user job (recovered err) w2 Eu) as (ps & w' & -> & H). eauto. }
  assert (∀ w1, ∃ ps w', run_recovering handler_panics (WithActAsUser ctx user) job w1 = (Ok ps, w') ∧
            (is_completion user job LEVEL_ERROR ps ∨
             (is_completion user job LEVEL_SUCCESS ps ∧ ∃ w1 result w2, Dispatch (WithActAsUser ctx user) job w1 = (Ok result, w2)) ∨
             (ps = [] ∧ ∃ exists_ err w1, userChecker = Some exists_ ∧ exists_ user w = (Fail err, w1) ∧
               (errors_Is err ErrCanceled || errors_Is err ErrDeadlineExceeded) = true))) as Hrun'.
  { intros w1. destruct (Hrun w1) as (ps & w' & ? & [?|?]); exists ps, w'; auto. }
  unfold check_creator. destruct userChecker as [exists_|]; [|apply Hrun'].
  unfold bind at 1. unfold bind at 1. unfold attempt at 1. destruct (exists_ user w) as [[[|]|err] w1] eqn:Ex; unfold ret at 1.
  - apply Hrun'.
  - destruct (markFailed_notifies user job (EMsg ("created_by user " +:+ strconv_Quote user +:+ " does not exist")) w1 Eu) as (ps & w' & -> & H). eauto 10.
  - destruct (errors_Is err ErrCanceled || errors_Is err ErrDeadlineExceeded) eqn:Ec.
    + do 2 eexists. split; [done|]. right. right. split; [done|]. exists exists_, err, w1. auto.
    + destruct (markFailed_notifies user job (EWrap "check created_by user" err) w1 Eu) as (ps & w' & -> & H). eauto 10.
Qed.

(** ** The row *)

(** What an execution relies on: the operations do not touch jobs. *)
Class JobLaws : Prop := {
  HeadlessHostStart_leaves ctx p u : preserves (leaves t_async_jobs) (HeadlessHostStart ctx p u);
  HeadlessHostShutdown_leaves ctx h : preserves (leaves t_async_jobs) (HeadlessHostShutdown ctx h);
  HeadlessHostRestart_leaves ctx h t b n : preserves (leaves t_async_jobs) (HeadlessHostRestart ctx h t b n);
  job_StartSession_leaves ctx h g u p m : preserves (leaves t_async_jobs) (job_StartSession ctx h g u p m);
  job_StopSession_leaves ctx s : preserves (leaves t_async_jobs) (job_StopSession ctx s);
  FetchHeadlessAccount_leaves ctx a : preserves (leaves t_async_jobs) (FetchHeadlessAccount ctx a);
  panic_leaves ctx job w v w' : handler_panics ctx job w = Some (v, w') → leaves t_async_jobs w w' }.
#[local] Hint Resolve HeadlessHostStart_leaves HeadlessHostShutdown_leaves HeadlessHostRestart_leaves job_StartSession_leaves
  job_StopSession_leaves FetchHeadlessAccount_leaves : preserves.

Lemma Dispatch_leaves `{!JobLaws} ctx job : preserves (leaves t_async_jobs) (Dispatch ctx job).
Proof.
  unfold Dispatch, startHost, shutdownHost, restartHost, startSession, stopSession,
    do_startHost, do_shutdownHost, do_restartHost, do_startSession, do_stopSession, decode_payload. preserve.
Qed.

Definition put_job (k : UUID) (row : AsyncJobRow) (w : World) : World := with_db (set_async_jobs (<[k := row]>) (w_db w)) w.

(** A settled job: its row and the notification of its owner. *)
Definition settled (k : UUID) (row : AsyncJobRow) (user : string) (job : AsyncJob) (level : Z) (msg : string) (w : World) : Publications * World :=
  ([(user, JobCompleted (w_now w) (job_ID job) msg level)], put_job k row w).

(** The publications and the world after an execution of the job of [row] from [w]. *)
Definition after_job (ctx : Ctx) (k : UUID) (row : AsyncJobRow) (job : AsyncJob) (w : World) : Publications * World :=
  match given (job_CreatedBy job) with
  | None => ([], put_job k (job_fail "job has no created_by" (w_now w) row) w)
  | Some user =>
      let failed msg w1 := settled k (job_fail msg (w_now w1) row) user job LEVEL_ERROR msg w1 in
      if negb (present user (t_users (w_db w))) then failed ("created_by user " +:+ strconv_Quote user +:+ " does not exist") w
      else
        match handler_panics (WithActAsUser ctx user) job w with
        | Some (v, w1) => failed ("handler panicked: " +:+ v) w1
        | None =>
            let (r, w1) := Dispatch (WithActAsUser ctx user) job w in
            match r with
            | Fail err => failed (Err_Error (recovered err)) w1
            | Ok (result, msg) =>
                settled k (job_succeed (JObj (omit_empty "host_id" (jr_HostID result) ++ omit_empty "session_id" (jr_SessionID result))) (w_now w1) row)
                  user job LEVEL_SUCCESS msg w1
            end
        end
  end.

Section Marks.
Context (k : UUID) (row : AsyncJobRow) (job : AsyncJob) (w : World).
Hypothesis Hw : w_faults w = [].
Hypothesis Hv : valid_uuid k.
Hypothesis Hid : formatUUID (Some k) = Ok (job_ID job).
Hypothesis Hrow : t_async_jobs (w_db w) !! k = Some row.
Hypothesis Hst : aj_Status row = 1%Z.

Lemma mark_job_run {A} (g : Instant → AsyncJobRow → AsyncJobRow) (m : Go A) :
  (attempt (let* uid := lift (parseUUID (job_ID job)) in on_err wrap_job (exec (λ now d, aj_update_running uid (g now) d)) ;;; ret tt) ;;; m) w
  = m (put_job k (g (w_now w) row) w).
Proof.
  rewrite attempt_then. f_equal. unfold bind, lift. rewrite (parse_formatted k _ Hv Hid). unfold on_err. rewrite exec_run by done.
  unfold aj_update_running, update_one, job_status. rewrite Hrow, Hst. done.
Qed.

Lemma markFailed_run err : job_markFailed job err w =
  (Ok match given (job_CreatedBy job) with
      | Some user => [(user, JobCompleted (w_now w) (job_ID job) (Err_Error err) LEVEL_ERROR)]
      | None => []
      end, put_job k (job_fail (Err_Error err) (w_now w) row) w).
Proof.
  etransitivity; [exact (mark_job_run (job_fail (Err_Error err)) _)|]. unfold publishCompletion. by destruct (given (job_CreatedBy job)).
Qed.
Lemma markSucceeded_run user result msg : given (job_CreatedBy job) = Some user →
  (attempt (JobRepo_MarkSucceeded (job_ID job) (Some result)) ;;; publishCompletion job msg LEVEL_SUCCESS) w =
  (Ok (settled k (job_succeed result (w_now w) row) user job LEVEL_SUCCESS msg w).1, put_job k (job_succeed result (w_now w) row) w).
Proof. intros Hu. etransitivity; [exact (mark_job_run (job_succeed result) _)|]. exact (publish_run user job msg LEVEL_SUCCESS (put_job k _ w) Hu). Qed.
End Marks.

(** ** Whatever fails *)

(** What settling makes of a running job. *)
Definition job_settled (row row' : AsyncJobRow) : Prop :=
  (∃ msg now, row' = job_fail msg now row) ∨ ∃ result now, row' = job_succeed result now row.

(** The job [k] is settled at most once, and no other is touched. *)
Definition job_at_most_settled (k : UUID) : World → World → Prop :=
  at_most_settled t_async_jobs (job_status AsyncJobStatus_RUNNING) job_settled k.

#[local] Instance job_at_most_settled_preorder k : PreOrder (job_at_most_settled k).
Proof. apply at_most_settled_preorder. by intros r r' [(? & ? & ->)|(? & ? & ->)]. Qed.

Lemma job_leaves_settled k {A} (m : Go A) : preserves (leaves t_async_jobs) m → preserves (job_at_most_settled k) m.
Proof. apply leaves_at_most_settled. Qed.

Section Anyhow.
Context (k : UUID) (id : string).
Hypothesis Hv : valid_uuid k.
Hypothesis Hid : formatUUID (Some k) = Ok id.

Lemma settles_job (g : Instant → AsyncJobRow → AsyncJobRow) : (∀ now r, job_settled r (g now r)) →
  preserves (job_at_most_settled k)
    (let* uid := lift (parseUUID id) in on_err wrap_job (exec (λ now d, aj_update_running uid (g now) d)) ;;; ret tt).
Proof.
  intros Hg. rewrite (parse_formatted k id Hv Hid).
  change (preserves (job_at_most_settled k) (on_err wrap_job (exec (λ now d, aj_update_running k (g now) d)) ;;; ret tt)).
  apply preserves_bind; [apply _| |intros ?; apply preserves_ret, _]. apply preserves_on_err.
  apply (settles_exec t_async_jobs _ _ k g); [done|]. intros now d a d'. unfold aj_update_running.
  change (job_status AsyncJobStatus_RUNNING) with (job_status 1). destruct (update_one _ _ _ _) as [n t]. by intros [= _ <-].
Qed.

Lemma JobFailed_settles msg : preserves (job_at_most_settled k) (JobRepo_MarkFailed id msg).
Proof. apply (settles_job (job_fail msg)). intros now r. left. eauto. Qed.
Lemma JobSucceeded_settles result : preserves (job_at_most_settled k) (JobRepo_MarkSucceeded id result).
Proof. apply (settles_job (job_succeed (default JNull result))). intros now r. right. eauto. Qed.
#[local] Hint Resolve JobFailed_settles JobSucceeded_settles : preserves.

Lemma job_executeOne_settles `{!JobLaws} check ctx job : job_ID job = id →
  (∀ user, preserves (leaves t_async_jobs) (check user)) →
  preserves (job_at_most_settled k) (job_executeOne (Some check) handler_panics ctx job).
Proof.
  intros Eid Hcheck.
  assert (∀ u, preserves (job_at_most_settled k) (check u)) as Hu by (intros u; by apply job_leaves_settled).
  assert (∀ c, preserves (job_at_most_settled k) (Dispatch c job)) as Hd by (intros c; apply job_leaves_settled, Dispatch_leaves).
  assert (∀ err, preserves (job_at_most_settled k) (job_markFailed job err)) as Hf
    by (intros err; unfold job_markFailed, publishCompletion; rewrite Eid; preserve).
  assert (∀ c, preserves (job_at_most_settled k) (run_recovering handler_panics c job)) as Hr.
  { intros c w. unfold run_recovering. destruct (handler_panics c job w) as [[v w1]|] eqn:Ep.
    - etransitivity; [by eapply leaves_settled, panic_leaves|apply Hf].
    - clear Ep. revert w. change (preserves (job_at_most_settled k) (run_dispatched c job)). unfold run_dispatched, publishCompletion. rewrite Eid. preserve. }
  unfold job_executeOne, check_creator. preserve.
Qed.
End Anyhow.

(** C25. When every statement of the database succeeds, the execution of a
    claimed job ends with its row settled and its owner notified of just that,
    on every branch: failed with the reason when it has no owner, when he no
    longer exists, when the handler fails or panics; otherwise succeeded, with
    the host and session it made as the result.  Whatever statements fail,
    with any check of the owner, the row stays claimed as it was or is settled
    once, and no other job is touched; a check that is cut off leaves the claim
    for a retry and notifies nobody. *)
Theorem job_executeOne_exact `{!JobLaws} (ctx : Ctx) (k : UUID) (row : AsyncJobRow) (job : AsyncJob) (w : World) :
  valid_uuid k → aj_ID row = Some k → t_async_jobs (w_db w) !! k = Some row → aj_Status row = AsyncJobStatus_RUNNING →
  asyncJobToEntity row = Ok job →
  (w_faults w = [] → job_executeOne (Some UserExistsByID) handler_panics ctx job w =
    (Ok (after_job ctx k row job w).1, (after_job ctx k row job w).2)) ∧
  ∀ check : string → Go bool, (∀ user, preserves (leaves t_async_jobs) (check user)) →
    job_at_most_settled k w (job_executeOne (Some check) handler_panics ctx job w).2 ∧
    ∀ user err w1, given (job_CreatedBy job) = Some user → check user w = (Fail err, w1) →
      errors_Is err ErrCanceled || errors_Is err ErrDeadlineExceeded = true →
      job_executeOne (Some check) handler_panics ctx job w = (Ok [], w1).
Proof.
  intros Hv Hid Hrow Hst Hjob.
  assert (formatUUID (Some k) = Ok (job_ID job)) as Hfmt.
  { unfold asyncJobToEntity in Hjob. rewrite Hid in Hjob. destruct (formatUUID (Some k)); simpl in Hjob; [|done]. by injection Hjob as <-. }
  split.
  2:{ intros check Hcheck. split; [by apply (job_executeOne_settles k (job_ID job))|]. intros user err w1 Hu Hc Hcut.
      unfold job_executeOne, check_creator, bind, attempt. by rewrite Hu, Hc, Hcut. }
  intros Hw.
  unfold job_executeOne, after_job. destruct (given (job_CreatedBy job)) as [user|] eqn:Eu.
  2:{ rewrite (markFailed_run k row job w) by done. by rewrite Eu. }
  assert (∀ w1 err, w_faults w1 = [] → t_async_jobs (w_db w1) !! k = Some row →
    job_markFailed job err w1 = (Ok (settled k (job_fail (Err_Error err) (w_now w1) row) user job LEVEL_ERROR (Err_Error err) w1).1,
                                 put_job k (job_fail (Err_Error err) (w_now w1) row) w1)) as Hfail.
  { intros w1 err Hw1 Hrow1. rewrite (markFailed_run k row job w1) by done. by rewrite Eu. }
  unfold check_creator. unfold bind at 1. unfold bind at 1. unfold attempt at 1.
  rewrite (reads_run _ _ w (UserExistsByID_reads user) Hw). cbv beta iota. unfold ret at 1. cbv beta iota zeta.
  destruct (present user (t_users (w_db w))); [|by apply Hfail]. cbv beta iota. unfold run_recovering, negb.
  destruct (handler_panics (WithActAsUser ctx user) job w) as [[v w1]|] eqn:Ep.
  { destruct (panic_leaves _ _ _ _ _ Ep) as [Ht Hf]. apply (Hfail w1 (EMsg ("handler panicked: " +:+ v))); [auto|congruence]. }
  unfold run_dispatched. unfold bind at 1. unfold attempt at 1.
  destruct (Dispatch_leaves (WithActAsUser ctx user) job w) as [Ht Hf]. specialize (Hf Hw).
  destruct (Dispatch (WithActAsUser ctx user) job w) as [r w1]. cbn [snd] in Ht, Hf. rewrite <-Ht in Hrow.
  destruct r as [[result msg]|err]; [by apply (markSucceeded_run k row job w1)|by apply Hfail].
Qed.

(** ** From the request to the operation *)

Inductive JobRequest : Type :=
  | StartHostRequest (m : StartHeadlessHostRequest)
  | ShutdownHostRequest (m : ShutdownHeadlessHostRequest)
  | RestartHostRequest (m : RestartHeadlessHostRequest)
  | StartSessionRequest (m : StartWorldRequest)
  | StopSessionRequest_ (m : StopSessionRequest).

Definition Enqueue (r : JobRequest) (createdBy : option string) : Go string :=
  match r with
  | StartHostRequest m => EnqueueStartHost m createdBy
  | ShutdownHostRequest m => EnqueueShutdownHost m createdBy
  | RestartHostRequest m => EnqueueRestartHost m createdBy
  | StartSessionRequest m => EnqueueStartSession m createdBy
  | StopSessionRequest_ m => EnqueueStopSession m createdBy
  end.

(** What the request asks for. *)
Definition perform (ctx : Ctx) (r : JobRequest) (createdBy : option string) : Go (JobResult * string) :=
  match r with
  | StartHostRequest m => do_startHost ctx m createdBy
  | ShutdownHostRequest m => do_shutdownHost ctx m
  | RestartHostRequest m => do_restartHost ctx m
  | StartSessionRequest m => do_startSession ctx m createdBy
  | StopSessionRequest_ m => do_stopSession ctx m
  end.

Definition request_type (r : JobRequest) : Z :=
  match r with
  | StartHostRequest _ => AsyncJobType_START_HOST | ShutdownHostRequest _ => AsyncJobType_SHUTDOWN_HOST
  | RestartHostRequest _ => AsyncJobType_RESTART_HOST | StartSessionRequest _ => AsyncJobType_START_SESSION
  | StopSessionRequest_ _ => AsyncJobType_STOP_SESSION
  end.
Definition request_json (r : JobRequest) : Result Json :=
  match r with
  | StartHostRequest m => protojson_Marshal m | ShutdownHostRequest m => protojson_Marshal m
  | RestartHostRequest m => protojson_Marshal m | StartSessionRequest m => protojson_Marshal m
  | StopSessionRequest_ m => protojson_Marshal m
  end.

Lemma dispatch_decodes ctx r job w : job_JobType job = request_type r → request_json r = Ok (job_Payload job) →
  Dispatch ctx job w = perform ctx r (job_CreatedBy job) w.
Proof.
  intros Ht Hj. unfold Dispatch. rewrite Ht.
  destruct r; simpl in *; unfold startHost, shutdownHost, restartHost, startSession, stopSession, decode_payload;
    unfold bind at 1; unfold on_err, lift; by rewrite (protojson_roundtrip _ _ Hj).
Qed.

Lemma enqueue_inv t payload h s cb w id w' : enqueue t payload h s cb w = (Ok id, w') →
  ∃ k, valid_uuid k ∧ formatUUID (Some k) = Ok id ∧ t_async_jobs (w_db w) !! k = None ∧
    w_db w' = set_async_jobs (<[k := new_job_row k (mkCreateJobParams t payload h s cb) (w_now w)]>) (w_db w).
Proof.
  unfold enqueue, JobRepo_Create. intros (job & w1 & H & Hr)%bind_inv_Ok. apply bind_inv_Ok in H as (row & w2 & H & Hj).
  apply on_err_Ok in H. unfold CreateAsyncJob in H. apply bind_inv_Ok in H as (k & w0 & H & Hx).
  apply gen_random_uuid_valid in H as (Hv & Hdb & Hnow). apply exec_Ok in Hx as [Hx _]. rewrite Hdb, Hnow in Hx.
  unfold x_CreateAsyncJob, check, present in Hx. case_bool_decide as Hp; [done|]. simpl in Hx. injection Hx as <- Hdb1.
  destruct (format_total k) as [s0 Hs]. unfold lift, asyncJobToEntity in Hj. cbn [aj_ID new_job_row] in Hj. rewrite Hs in Hj. simpl in Hj.
  injection Hj as <- <-. unfold ret in Hr. injection Hr as <- <-.
  exists k. split; [done|]. split; [done|]. split; [by apply eq_None_not_Some|by rewrite <-Hdb1].
Qed.

(** C26. An enqueued job is one new pending row of its creator, and whatever
    happens to the row until it is claimed, dispatching it does exactly what
    the request asked for. *)
Theorem enqueued_is_performed (r : JobRequest) (createdBy : option string) (w : World) (id : string) (w' : World) :
  Enqueue r createdBy w = (Ok id, w') →
  ∃ k row, valid_uuid k ∧ formatUUID (Some k) = Ok id ∧ t_async_jobs (w_db w) !! k = None ∧
    w_db w' = set_async_jobs (<[k := row]>) (w_db w) ∧ aj_Status row = AsyncJobStatus_PENDING ∧ aj_CreatedBy row = createdBy ∧
    ∀ row' job ctx w1, job_core row' = job_core row → asyncJobToEntity row' = Ok job → Dispatch ctx job w1 = perform ctx r createdBy w1.
Proof.
  intros E.
  assert (∃ payload h s, request_json r = Ok payload ∧ enqueue (request_type r) payload h s createdBy w = (Ok id, w')) as (payload & h & s & Hj & He).
  { destruct r; simpl in *; unfold EnqueueStartHost, EnqueueShutdownHost, EnqueueRestartHost, EnqueueStartSession, EnqueueStopSession, marshalPayload in E;
      unfold bind at 1, lift at 1 in E; destruct (protojson_Marshal m) as [j|]; simpl in E; try done; eauto. }
  apply enqueue_inv in He as (k & Hv & Hf & Hn & Hdb). exists k, (new_job_row k (mkCreateJobParams (request_type r) payload h s createdBy) (w_now w)).
  do 4 (split; [done|]). split; [done|]. split; [done|]. intros row' job ctx w1 Hc Hjob. unfold job_core in Hc. simpl in Hc.
  injection Hc as _ Ht Hp _ _ Hcb _. unfold asyncJobToEntity in Hjob. destruct (formatUUID (aj_ID row')); simpl in Hjob; [|done].
  injection Hjob as <-. rewrite <-Hcb. apply (dispatch_decodes ctx r); simpl; congruence.
Qed.
End Safety.

(** ** Asynchronous jobs: a concrete system

    Messages with a plain JSON form and operators that stop sessions, in which
    the properties of [AsyncSafety] apply. *)

#[local] Existing Instance raw_parameters.
#[local] Existing Instance scanning_UUID.

(** ** Messages *)

#[local] Existing Instance plain_jobs.

(** ** Operators *)

#[local] Instance idle_hosts : HostOperator := {
  HeadlessHostStart _ _ _ := fail (EMsg "not offered");
  HeadlessHostShutdown _ _ := fail (EMsg "not offered");
  HeadlessHostRestart _ _ _ _ _ := fail (EMsg "not offered") }.
#[local] Instance stopping_sessions : JobSessionOperator := {
  job_StartSession _ _ _ _ _ _ := fail (EMsg "not offered");
  job_StopSession _ sid := exec (λ _ d, Ok (tt, set_sessions (delete sid) d)) }.
#[local] Instance stored_accounts : AccountFetcher := { FetchHeadlessAccount _ id := GetHeadlessAccount id }.

Definition no_panics (_ : Ctx) (_ : AsyncJob) (_ : World) : option (string * World) := None.
#[local] Instance stopping_job_laws : JobLaws no_panics.
Proof. split; [..|done]; intros; simpl; preserve. apply leaves_exec. by intros t d a d' [= _ <-]. Qed.

(** ** Witnesses *)

Definition stop_request : JobRequest := StopSessionRequest_ (mkStopSessionRequest "h1" "s1").

Lemma enqueued_is_performed_witness :
  ∃ id w', Enqueue stop_request (Some "alice") hosted_world = (Ok id, w') ∧
  ∃ k row, valid_uuid k ∧ formatUUID (Some k) = Ok id ∧ t_async_jobs (w_db hosted_world) !! k = None ∧
    w_db w' = set_async_jobs (<[k := row]>) (w_db hosted_world) ∧ aj_Status row = AsyncJobStatus_PENDING ∧ aj_CreatedBy row = Some "alice" ∧
    ∀ row' job ctx w1, job_core row' = job_core row → asyncJobToEntity row' = Ok job →
      Dispatch ctx job w1 = perform ctx stop_request (Some "alice") w1.
Proof.
  assert (match (Enqueue stop_request (Some "alice") hosted_world).1 with Ok _ => true | Fail _ => false end = true) as Hok by (vm_compute; reflexivity).
  destruct (Enqueue stop_request (Some "alice") hosted_world) as [[id|e] w'] eqn:E; [|discriminate Hok].
  exists id, w'. split; [reflexivity|]. exact (enqueued_is_performed stop_request (Some "alice") hosted_world id w' E).
Defined.

Definition running_stop : AsyncJobRow :=
  job_claim "one" 0%Z (new_job_row (job_id 1) (mkCreateJobParams AsyncJobType_STOP_SESSION (JArr [JStr "h1"; JStr "s1"]) None (Some "s1") (Some "alice")) 0%Z).
Definition running_world : World := put_job (job_id 1) running_stop hosted_world.

Lemma job_executeOne_exact_witness :
  ∃ job, asyncJobToEntity running_stop = Ok job ∧
    ((w_faults running_world = [] → job_executeOne (Some UserExistsByID) no_panics None job running_world =
       (Ok (after_job no_panics None (job_id 1) running_stop job running_world).1, (after_job no_panics None (job_id 1) running_stop job running_world).2)) ∧
     ∀ check : string → Go bool, (∀ user, preserves (leaves t_async_jobs) (check user)) →
       job_at_most_settled (job_id 1) running_world (job_executeOne (Some check) no_panics None job running_world).2 ∧
       ∀ user err w1, given (job_CreatedBy job) = Some user → check user running_world = (Fail err, w1) →
         errors_Is err ErrCanceled || errors_Is err ErrDeadlineExceeded = true →
         job_executeOne (Some check) no_panics None job running_world = (Ok [], w1)) ∧
    (job_status AsyncJobStatus_SUCCEEDED <$> t_async_jobs (w_db (after_job no_panics None (job_id 1) running_stop job running_world).2) !! job_id 1) = Some true.
Proof.
  destruct (asyncJobToEntity running_stop) as [job|e] eqn:E; [|discriminate E]. exists job. split; [reflexivity|]. split.
  - apply (job_executeOne_exact no_panics None (job_id 1) running_stop job running_world);
      [split; [reflexivity|repeat constructor; discriminate]|reflexivity|apply lookup_insert_eq|reflexivity|exact E].
  - injection E as <-. vm_compute. reflexivity.
Defined.
