(* ===== verification/HostQueries.v ===== *)
(** * Hosts: statements

    [src/db/hosts.sql.go] on the table of the migrations.  A host belongs to a
    group and, if he still exists, to the user who started it; its checkpoint
    goes with it.  The trigger update_hosts_modtime sets updated_at. *)

From S2P Require Import Prelude Entity Json Digest Models Queries Ports Repositories Resources Claims.
From stdpp Require Import base gmap strings list sorting.
From Stdlib Require Import ZArith Lia Ascii.

(** ** LIKE

    [%] stands for any text, [_] for one character, and a backslash takes the
    next character as it is; on ASCII patterns, and with a backslash before
    nothing as no match instead of an error. *)

Fixpoint sql_like (pattern s : string) : bool :=
  match pattern with
  | EmptyString => match s with EmptyString => true | _ => false end
  | String c p =>
      if bool_decide (c = "%"%char)
      then (fix skip s := sql_like p s || match s with EmptyString => false | String _ s' => skip s' end) s
      else match s with
           | EmptyString => false
           | String x s' =>
               if bool_decide (c = "_"%char) then sql_like p s'
               else if bool_decide (c = "\"%char)
               then match p with EmptyString => false | String e p' => bool_decide (x = e) && sql_like p' s' end
               else bool_decide (x = c) && sql_like p s'
           end
  end.

(** ** Statements that write *)

Record CreateHostParams : Type := mkCreateHost {
  ch_ID : string; ch_Name : string; ch_Status : Z; ch_AccountID : string; ch_CreatedBy : option string; ch_LastStartupConfig : Json;
  ch_SchemaVersion : Z; ch_ConnectorType : string; ch_ConnectString : string; ch_StartedAt : option Instant; ch_AutoUpdatePolicy : Z;
  ch_Memo : option string; ch_InstanceCount : Z; ch_GroupID : string }.

Definition new_host_row (p : CreateHostParams) (now : Instant) : HostRow :=
  mkHostRow (ch_ID p) (ch_Name p) (ch_Status p) (ch_AccountID p) (ch_CreatedBy p) (ch_LastStartupConfig p) (ch_SchemaVersion p)
    (ch_ConnectorType p) (ch_ConnectString p) (to_microseconds <$> ch_StartedAt p) (ch_Memo p) (ch_AutoUpdatePolicy p) (Some now) (Some now)
    (ch_InstanceCount p) (ch_GroupID p).
Definition x_CreateHost (p : CreateHostParams) (now : Instant) (d : DB) : Result (HostRow * DB) :=
  check (negb (present (ch_ID p) (t_hosts d))) "hosts_pkey" >>>
  check (present (ch_GroupID p) (t_groups d)) "hosts_group_id_fkey" >>>
  check (opt_present (ch_CreatedBy p) (t_users d)) "hosts_created_by_fkey" >>>
  Ok (new_host_row p now, set_hosts (<[ch_ID p := new_host_row p now]>) d).
Definition CreateHost p : Go HostRow := exec (x_CreateHost p).

(** the checkpoint of the host goes with it (ON DELETE CASCADE) *)
Definition x_DeleteHost (id : string) (_ : Instant) (d : DB) : Result (unit * DB) :=
  Ok (tt, set_checkpoints (delete id) (set_hosts (delete id) d)).
Definition DeleteHost id : Go unit := exec (x_DeleteHost id).

(** An UPDATE of a host. *)
Definition ho_update (now : Instant) (name : string) (status : Z) (config : Json) (connectString : string) (startedAt : option Instant)
    (memo : option string) (policy : Z) (instances : Z) (r : HostRow) : HostRow :=
  mkHostRow (ho_ID r) name status (ho_AccountID r) (ho_CreatedBy r) config (ho_LastStartupConfigSchemaVersion r) (ho_ConnectorType r)
    connectString startedAt memo policy (ho_CreatedAt r) (Some now) instances (ho_GroupID r).
Definition update_host (id : string) (f : HostRow → HostRow) (d : DB) : Result (unit * DB) :=
  match t_hosts d !! id with
  | Some r => Ok (tt, set_hosts (<[id := f r]>) d)
  | None => Ok (tt, d)
  end.

Definition ho_with_name (v : string) (now : Instant) (r : HostRow) : HostRow :=
  ho_update now v (ho_Status r) (ho_LastStartupConfig r) (ho_ConnectString r) (ho_StartedAt r) (ho_Memo r) (ho_AutoUpdatePolicy r) (ho_InstanceCount r) r.
Definition ho_with_status (v : Z) (now : Instant) (r : HostRow) : HostRow :=
  ho_update now (ho_Name r) v (ho_LastStartupConfig r) (ho_ConnectString r) (ho_StartedAt r) (ho_Memo r) (ho_AutoUpdatePolicy r) (ho_InstanceCount r) r.
Definition ho_with_config (v : Json) (now : Instant) (r : HostRow) : HostRow :=
  ho_update now (ho_Name r) (ho_Status r) v (ho_ConnectString r) (ho_StartedAt r) (ho_Memo r) (ho_AutoUpdatePolicy r) (ho_InstanceCount r) r.
Definition ho_with_connect (v : string) (now : Instant) (r : HostRow) : HostRow :=
  ho_update now (ho_Name r) (ho_Status r) (ho_LastStartupConfig r) v (ho_StartedAt r) (ho_Memo r) (ho_AutoUpdatePolicy r) (ho_InstanceCount r) r.
Definition ho_with_started (v : option Instant) (now : Instant) (r : HostRow) : HostRow :=
  ho_update now (ho_Name r) (ho_Status r) (ho_LastStartupConfig r) (ho_ConnectString r) (to_microseconds <$> v) (ho_Memo r) (ho_AutoUpdatePolicy r) (ho_InstanceCount r) r.
Definition ho_with_memo (v : option string) (now : Instant) (r : HostRow) : HostRow :=
  ho_update now (ho_Name r) (ho_Status r) (ho_LastStartupConfig r) (ho_ConnectString r) (ho_StartedAt r) v (ho_AutoUpdatePolicy r) (ho_InstanceCount r) r.
Definition ho_with_policy (v : Z) (now : Instant) (r : HostRow) : HostRow :=
  ho_update now (ho_Name r) (ho_Status r) (ho_LastStartupConfig r) (ho_ConnectString r) (ho_StartedAt r) (ho_Memo r) v (ho_InstanceCount r) r.
Definition ho_with_instances (v : Z) (now : Instant) (r : HostRow) : HostRow :=
  ho_update now (ho_Name r) (ho_Status r) (ho_LastStartupConfig r) (ho_ConnectString r) (ho_StartedAt r) (ho_Memo r) (ho_AutoUpdatePolicy r) v r.

Definition x_UpdateHostName (id name : string) (now : Instant) := update_host id (ho_with_name name now).
Definition UpdateHostName id name : Go unit := exec (x_UpdateHostName id name).
Definition x_UpdateHostStatus (id : string) (status : Z) (now : Instant) := update_host id (ho_with_status status now).
Definition UpdateHostStatus id status : Go unit := exec (x_UpdateHostStatus id status).
Definition x_UpdateHostLastStartupConfig (id : string) (config : Json) (now : Instant) := update_host id (ho_with_config config now).
Definition UpdateHostLastStartupConfig id config : Go unit := exec (x_UpdateHostLastStartupConfig id config).
Definition x_UpdateHostConnectString (id connectString : string) (now : Instant) := update_host id (ho_with_connect connectString now).
Definition UpdateHostConnectString id connectString : Go unit := exec (x_UpdateHostConnectString id connectString).
Definition x_UpdateHostStartedAt (id : string) (startedAt : option Instant) (now : Instant) := update_host id (ho_with_started startedAt now).
Definition UpdateHostStartedAt id startedAt : Go unit := exec (x_UpdateHostStartedAt id startedAt).
Definition x_UpdateHostMemo (id : string) (memo : option string) (now : Instant) := update_host id (ho_with_memo memo now).
Definition UpdateHostMemo id memo : Go unit := exec (x_UpdateHostMemo id memo).
Definition x_UpdateHostAutoUpdatePolicy (id : string) (policy : Z) (now : Instant) := update_host id (ho_with_policy policy now).
Definition UpdateHostAutoUpdatePolicy id policy : Go unit := exec (x_UpdateHostAutoUpdatePolicy id policy).

(** the counter is a 32-bit column *)
Definition x_IncrementHostInstanceCount (id : string) (now : Instant) (d : DB) : Result (Z * DB) :=
  match t_hosts d !! id with
  | Some r =>
      let n := (ho_InstanceCount r + 1)%Z in
      check (n <? 2 ^ 31)%Z "integer out of range" >>>
      Ok (n, set_hosts (<[id := ho_with_instances n now r]>) d)
  | None => Fail (ESent ErrNoRows)
  end.
Definition IncrementHostInstanceCount id : Go Z := exec (x_IncrementHostInstanceCount id).

(** ** Statements that read *)

(** LIMIT 1 without ORDER BY: which row it is, if several match, is up to the
    database; here the first by key. *)
Definition q_GetHostByContainerID (containerID : string) (_ : Instant) (d : DB) : Result HostRow :=
  row_or_ErrNoRows (head (List.filter (λ r, sql_like (containerID +:+ ":%") (ho_ConnectString r)) (rows_of (t_hosts d)))).
Definition GetHostByContainerID containerID : Go HostRow := query (q_GetHostByContainerID containerID).

(** [ORDER BY started_at DESC]: hosts without a start come first. *)
Definition host_started_desc (a b : HostRow) : bool :=
  match ho_StartedAt a, ho_StartedAt b with None, _ => true | Some _, None => false | Some x, Some y => (y <=? x)%Z end.
Definition hosts_where (p : HostRow → bool) (d : DB) : list HostRow := order_by host_started_desc (List.filter p (rows_of (t_hosts d))).
Definition q_ListHosts (_ : Instant) (d : DB) : Result (list HostRow) := Ok (hosts_where (λ _, true) d).
Definition ListHosts : Go (list HostRow) := query q_ListHosts.
Definition q_ListHostsByStatus (status : Z) (_ : Instant) (d : DB) : Result (list HostRow) := Ok (hosts_where (λ r, (ho_Status r =? status)%Z) d).
Definition ListHostsByStatus status : Go (list HostRow) := query (q_ListHostsByStatus status).
Definition q_ListRunningHostsByAccount (accountID : string) (_ : Instant) (d : DB) : Result (list HostRow) :=
  Ok (hosts_where (λ r, bool_decide (ho_AccountID r = accountID) && (ho_Status r =? 2)%Z) d).
Definition ListRunningHostsByAccount accountID : Go (list HostRow) := query (q_ListRunningHostsByAccount accountID).

(** [ORDER BY started_at DESC NULLS LAST, id ASC] *)
Definition host_started_desc_nulls_last (a b : HostRow) : bool :=
  match ho_StartedAt a, ho_StartedAt b with
  | None, None => String.leb (ho_ID a) (ho_ID b)
  | None, Some _ => false
  | Some _, None => true
  | Some x, Some y => if (x =? y)%Z then String.leb (ho_ID a) (ho_ID b) else (y <? x)%Z
  end.
Record ListHostsPagedParams : Type := mkListHostsPaged { lhp_GroupIds : option (list string); lhp_PageOffset : Z; lhp_PageSize : Z }.
Definition q_ListHostsPaged (p : ListHostsPagedParams) (_ : Instant) (d : DB) : Result (list (HostRow * Z)) :=
  limit_offset (lhp_PageSize p) (lhp_PageOffset p)
    (order_by host_started_desc_nulls_last
       (List.filter (λ r, match lhp_GroupIds p with None => true | Some gs => bool_decide (ho_GroupID r ∈ gs) end) (rows_of (t_hosts d)))).
Definition ListHostsPaged p : Go (list (HostRow * Z)) := query (q_ListHostsPaged p).
