(* ===== verification/HostRepo.v ===== *)
(** * Hosts: repository

    [src/adapter/headless_host_repository.go] over the statements of
    [HostQueries] and a container runtime, the conversions of
    [src/adapter/converter/entity_converter.go] between settings and startup
    configurations, and the entities of [src/domain/entity/headless_host.go].
    Goroutines that only fetch are run one after the other; their timeouts
    reach the model as the errors the calls answer.  Log lines are left out. *)

From S2P Require Import Prelude Entity Json Headless StateCache Digest Models Queries Ports Repositories Resources Claims SessionRepo SessionUsecase Messages HostQueries GoStrings.
From stdpp Require Import base gmap strings list.
From Stdlib Require Import ZArith Lia.

(** ** Entities *)

Record HostAllowedAccessEntry : Type := mkHostAccess { haa_Host : string; haa_Ports : list Z; haa_AccessTypes : list Z }.
Record HeadlessHostSettings : Type := mkHostSettings {
  hst_UniverseID : option string; hst_TickRate : Float32; hst_MaxConcurrentAssetTransfers : Z; hst_UsernameOverride : option string;
  hst_AllowedUrlHosts : list HostAllowedAccessEntry; hst_AutoSpawnItems : list string; hst_StartWorlds : list WorldStartupParameters }.
Definition settings_zero : HeadlessHostSettings := mkHostSettings None 0 0 None [] [] [].

Record HeadlessHost : Type := mkHeadlessHost {
  hh_ID : string; hh_Name : string; hh_Status : Z; hh_ResoniteVersion : string; hh_AppVersion : string; hh_AccountId : string;
  hh_AccountName : string; hh_Fps : Float32; hh_HostSettings : HeadlessHostSettings; hh_AutoUpdatePolicy : Z; hh_Memo : string;
  hh_InstanceId : Z; hh_GroupID : string; hh_CreatedBy : option string }.

(** ** Conversions *)

Definition config_zero : StartupConfig := mkStartupConfig None None None None [] [] [].

Definition HeadlessHostSettingsToStartupConfigProto (e : HeadlessHostSettings) : StartupConfig :=
  mkStartupConfig (hst_UniverseID e) (Some (hst_TickRate e)) (Some (hst_MaxConcurrentAssetTransfers e)) (hst_UsernameOverride e)
    (hst_StartWorlds e) ((λ a, mkAllowedAccessEntry (haa_Host a) (haa_Ports a) (haa_AccessTypes a)) <$> hst_AllowedUrlHosts e) [].

(** the fields that are read without a getter make a nil message panic *)
Definition HeadlessHostSettingsProtoToEntity (p : option StartupConfig) : Result HeadlessHostSettings :=
  match p with
  | None => Fail (EPanic "runtime error: invalid memory address or nil pointer dereference")
  | Some c =>
      Ok (mkHostSettings (sc_UniverseId c) (default 0%Z (sc_TickRate c)) (default 0%Z (sc_MaxConcurrentAssetTransfers c)) (sc_UsernameOverride c)
            ((λ a, mkHostAccess (aae_Host a) (aae_Ports a) (aae_AccessTypes a)) <$> sc_AllowedUrlHosts c) [] (sc_StartWorlds c))
  end.

(** [protojson] on startup configurations; a nil message is written as the empty one. *)
Class ConfigMessages : Type := {
  config_json :: ProtoJSON StartupConfig;
  config_empty_object : protojson_Unmarshal (JObj []) = Ok config_zero;
  config_empty_written : protojson_Marshal config_zero = Ok (JObj []) }.
Definition marshal_config {CM : ConfigMessages} (o : option StartupConfig) : Result Json := protojson_Marshal (default config_zero o).

(** ** The container runtime *)

Record HostStartParams : Type := mkHostStart {
  hs_p_ID : string; hs_p_InstanceId : Z; hs_p_ContainerImageTag : string; hs_p_HeadlessAccount : HeadlessAccount; hs_p_StartupConfig : option StartupConfig }.

(** [hostconnector.HostConnector] *)
Class HostConnector {CC : ContainerClient} : Type := {
  conn_GetStatus : string → Go Z;
  conn_GetRpcClient : string → Go Client;
  conn_ListContainerTags : option string → Go (list ContainerImage);
  conn_PullContainerImage : string → Go string;
  conn_Start : HostStartParams → Go string;
  conn_Stop : string → Z → Go unit;
  conn_Kill : string → Go unit;
  conn_Remove : string → Go unit }.
Class ConnectorLaws {CC : ContainerClient} {CN : HostConnector} : Prop := {
  conn_client_laws :: ClientLaws;
  conn_GetStatus_abroad c : preserves abroad (conn_GetStatus c);
  conn_GetRpcClient_abroad c : preserves abroad (conn_GetRpcClient c);
  conn_ListContainerTags_abroad t : preserves abroad (conn_ListContainerTags t);
  conn_PullContainerImage_abroad t : preserves abroad (conn_PullContainerImage t);
  conn_Start_abroad p : preserves abroad (conn_Start p);
  conn_Stop_abroad c t : preserves abroad (conn_Stop c t);
  conn_Kill_abroad c : preserves abroad (conn_Kill c);
  conn_Remove_abroad c : preserves abroad (conn_Remove c) }.

(** ** Repository *)

Definition HostConnectorType_DOCKER : string := "docker".
Definition createHostCleanupStopGrace : Z := 10.
Definition wrap_host := wrap_db "headless host".

Section Repository.
Context {CM : ConfigMessages} {CC : ContainerClient} {CN : HostConnector}.

(** all connectors of a supported type are the one the repository was given *)
Definition getConnector (connector_type : string) : Result unit :=
  if bool_decide (connector_type = HostConnectorType_DOCKER) then Ok tt else Fail (EMsg ("unsupported connector type: " +:+ connector_type)).

Definition HostRepo_UpdateHostSettings (id : string) (settings : HeadlessHostSettings) : Go unit :=
  let* json := lift (protojson_Marshal (HeadlessHostSettingsToStartupConfigProto settings)) in
  UpdateHostLastStartupConfig id json.
Definition HostRepo_UpdateAutoUpdatePolicy (id : string) (policy : Z) : Go unit := UpdateHostAutoUpdatePolicy id policy.
Definition HostRepo_Rename (id newName : string) : Go unit := UpdateHostName id newName.

Definition HostRepo_GetRpcClient (id : string) : Go Client :=
  let* host := on_err wrap_host (GetHost id) in
  lift (getConnector (ho_ConnectorType host)) ;;;
  conn_GetRpcClient (ho_ConnectString host).
Definition HostRepo_ListContainerTags (lastTag : option string) : Go (list ContainerImage) := conn_ListContainerTags lastTag.

(** *** Reading hosts *)

(** what the row alone says *)
Definition host_of_row (status : Z) (r : HostRow) : HeadlessHost :=
  mkHeadlessHost (ho_ID r) (ho_Name r) status EmptyString EmptyString (ho_AccountID r) EmptyString 0 settings_zero (ho_AutoUpdatePolicy r)
    (default EmptyString (ho_Memo r)) (ho_InstanceCount r) (ho_GroupID r) (ho_CreatedBy r).
Definition hh_with_versions (resonite app : string) (h : HeadlessHost) : HeadlessHost :=
  mkHeadlessHost (hh_ID h) (hh_Name h) (hh_Status h) resonite app (hh_AccountId h) (hh_AccountName h) (hh_Fps h) (hh_HostSettings h)
    (hh_AutoUpdatePolicy h) (hh_Memo h) (hh_InstanceId h) (hh_GroupID h) (hh_CreatedBy h).
Definition hh_with_account (id name : string) (h : HeadlessHost) : HeadlessHost :=
  mkHeadlessHost (hh_ID h) (hh_Name h) (hh_Status h) (hh_ResoniteVersion h) (hh_AppVersion h) id name (hh_Fps h) (hh_HostSettings h)
    (hh_AutoUpdatePolicy h) (hh_Memo h) (hh_InstanceId h) (hh_GroupID h) (hh_CreatedBy h).
Definition hh_with_fps (fps : Float32) (h : HeadlessHost) : HeadlessHost :=
  mkHeadlessHost (hh_ID h) (hh_Name h) (hh_Status h) (hh_ResoniteVersion h) (hh_AppVersion h) (hh_AccountId h) (hh_AccountName h) fps (hh_HostSettings h)
    (hh_AutoUpdatePolicy h) (hh_Memo h) (hh_InstanceId h) (hh_GroupID h) (hh_CreatedBy h).
Definition hh_with_settings (s : HeadlessHostSettings) (h : HeadlessHost) : HeadlessHost :=
  mkHeadlessHost (hh_ID h) (hh_Name h) (hh_Status h) (hh_ResoniteVersion h) (hh_AppVersion h) (hh_AccountId h) (hh_AccountName h) (hh_Fps h) s
    (hh_AutoUpdatePolicy h) (hh_Memo h) (hh_InstanceId h) (hh_GroupID h) (hh_CreatedBy h).

(** It answers what was filled in, and whether everything was. *)
Definition fetchHostInfo (host : HeadlessHost) (client : Client) : Go (HeadlessHost * bool) :=
  let* about := attempt (rpc_GetAbout client) in
  let* account := attempt (rpc_GetAccountInfo client) in
  let* status := attempt (rpc_GetStatus client) in
  ret match about with
      | Fail _ => (host, false)
      | Ok (resonite, app) =>
          let host := hh_with_versions resonite app host in
          match account with
          | Fail _ => (host, false)
          | Ok (id, name) =>
              let host := hh_with_account id name host in
              match status with
              | Fail _ => (host, false)
              | Ok fps => (hh_with_fps fps host, true)
              end
          end
      end.

Definition dbToEntity (dbHost : HostRow) (includeStartWorlds : bool) : Go HeadlessHost :=
  let status := ho_Status dbHost in
  let host := host_of_row status dbHost in
  if (status =? HeadlessHostStatus_RUNNING)%Z then
    lift (getConnector (ho_ConnectorType dbHost)) ;;;
    let* conn := attempt (conn_GetRpcClient (ho_ConnectString dbHost)) in
    match conn with
    | Fail _ => ret host
    | Ok conn =>
        let* r := fetchHostInfo host conn in
        if snd r then
          let* startupConfig := attempt (rpc_GetStartupConfigToRestore conn includeStartWorlds) in
          match startupConfig with
          | Fail _ => ret (fst r)
          | Ok c => let* settings := lift (HeadlessHostSettingsProtoToEntity c) in ret (hh_with_settings settings (fst r))
          end
        else ret (fst r)
    end
  else
    let* parsed := lift (protojson_Unmarshal (ho_LastStartupConfig dbHost)) in
    let* settings := lift (HeadlessHostSettingsProtoToEntity (Some parsed)) in
    let host := hh_with_settings settings host in
    let* account := attempt (Queries_GetHeadlessAccount (ho_AccountID dbHost)) in
    match account with
    | Ok a => ret (hh_with_account (hh_AccountId host) (default EmptyString (ha_LastDisplayName a)) host)
    | Fail _ => ret host
    end.

(** one host that cannot be converted answers what its row says, with the
    status unknown; a panic is not recovered *)
Fixpoint dbHostsToEntities (hosts : list HostRow) (includeStartWorlds : bool) : Go (list HeadlessHost) :=
  match hosts with
  | [] => ret []
  | r :: hosts' =>
      let* e := attempt (dbToEntity r includeStartWorlds) in
      let* h := match e with
                | Ok h => ret h
                | Fail (EPanic v) => fail (EPanic v)
                | Fail _ => ret (host_of_row HeadlessHostStatus_UNKNOWN r)
                end in
      let* es := dbHostsToEntities hosts' includeStartWorlds in
      ret (h :: es)
  end.

Definition HostRepo_Find (id : string) (includeStartWorlds : bool) : Go HeadlessHost :=
  let* host := on_err wrap_host (GetHost id) in dbToEntity host includeStartWorlds.
Definition HostRepo_ListAll (includeStartWorlds : bool) : Go (list HeadlessHost) :=
  let* hosts := on_err wrap_host ListHosts in dbHostsToEntities hosts includeStartWorlds.

Record HostListPageOptions : Type := mkHostPageOptions {
  hpo_PageIndex : Z; hpo_PageSize : Z; hpo_IncludeStartWorlds : bool; hpo_GroupIDs : option (list string) }.
Record HostListPageResult : Type := mkHostPageResult { hpr_Hosts : list HeadlessHost; hpr_TotalCount : Z }.
Definition HostRepo_ListPaged (o : HostListPageOptions) : Go HostListPageResult :=
  let* rows := on_err wrap_host (ListHostsPaged (mkListHostsPaged (hpo_GroupIDs o) (int32 (hpo_PageIndex o * hpo_PageSize o)) (hpo_PageSize o))) in
  let* hosts := dbHostsToEntities (fst <$> rows) (hpo_IncludeStartWorlds o) in
  ret (mkHostPageResult hosts (match rows with [] => 0%Z | r :: _ => int32 (snd r) end)).

(** fields that are not copied keep their zero values *)
Definition running_host_of_row (r : HostRow) : HeadlessHost :=
  mkHeadlessHost (ho_ID r) (ho_Name r) (ho_Status r) EmptyString EmptyString (ho_AccountID r) EmptyString 0 settings_zero (ho_AutoUpdatePolicy r)
    EmptyString 0 (ho_GroupID r) (ho_CreatedBy r).
Definition HostRepo_ListRunningByAccount (accountId : string) : Go (list HeadlessHost) :=
  let* hosts := on_err wrap_host (ListRunningHostsByAccount accountId) in ret (running_host_of_row <$> hosts).

(** *** Starting and stopping *)

Definition HostRepo_Start (connector : string) (params : HeadlessHostStartParams) (userId : option string) : Go string :=
  lift (getConnector connector) ;;;
  let* json := lift (marshal_config (hsp_StartupConfig params)) in
  let* id := uniuri_New in
  let createdBy := match userId with Some u => if bool_decide (u = EmptyString) then None else Some u | None => None end in
  let* newConnectStr := conn_Start (mkHostStart id 1 (hsp_ContainerImageTag params) (hsp_HeadlessAccount params) (hsp_StartupConfig params)) in
  let* now := gets w_now in
  let* dbHost := attempt (CreateHost (mkCreateHost id (hsp_Name params) HeadlessHostStatus_RUNNING
                   (HeadlessAccount_ResoniteID (hsp_HeadlessAccount params)) createdBy json 1 connector newConnectStr (Some now)
                   (hsp_AutoUpdatePolicy params) (Some (hsp_Memo params)) 1 (hsp_GroupID params))) in
  match dbHost with
  | Ok h => ret (ho_ID h)
  | Fail err =>
      attempt (conn_Stop newConnectStr createHostCleanupStopGrace) ;;;
      attempt (conn_Remove newConnectStr) ;;;
      fail (wrap_host err)
  end.

Definition HostRepo_Restart (id : string) (newStartupConfig : HeadlessHostStartParams) (timeoutSeconds : Z) : Go unit :=
  let* dbHost := on_err wrap_host (GetHost id) in
  lift (getConnector (ho_ConnectorType dbHost)) ;;;
  attempt (UpdateHostStatus id HeadlessHostStatus_STOPPING) ;;;
  (if (ho_Status dbHost =? HeadlessHostStatus_RUNNING)%Z then conn_Stop (ho_ConnectString dbHost) timeoutSeconds else ret tt) ;;;
  conn_Remove (ho_ConnectString dbHost) ;;;
  on_err wrap_host (UpdateHostMemo id (Some (hsp_Memo newStartupConfig))) ;;;
  on_err wrap_host (UpdateHostAutoUpdatePolicy id (hsp_AutoUpdatePolicy newStartupConfig)) ;;;
  attempt (UpdateHostStatus id HeadlessHostStatus_STARTING) ;;;
  let* instanceCount := on_err wrap_host (IncrementHostInstanceCount id) in
  let* newConnectStr := conn_Start (mkHostStart id instanceCount (hsp_ContainerImageTag newStartupConfig)
                                      (hsp_HeadlessAccount newStartupConfig) (hsp_StartupConfig newStartupConfig)) in
  on_err wrap_host (UpdateHostConnectString id newConnectStr) ;;;
  attempt (UpdateHostStatus id HeadlessHostStatus_RUNNING) ;;;
  let* json := lift (marshal_config (hsp_StartupConfig newStartupConfig)) in
  on_err wrap_host (UpdateHostLastStartupConfig id json).

Definition HostRepo_Stop (id : string) (timeoutSeconds : Z) : Go unit :=
  let* dbHost := on_err wrap_host (GetHost id) in
  lift (getConnector (ho_ConnectorType dbHost)) ;;;
  attempt (UpdateHostStatus (ho_ID dbHost) HeadlessHostStatus_STOPPING) ;;;
  let* client := conn_GetRpcClient (ho_ConnectString dbHost) in
  let* startupConfig := rpc_GetStartupConfigToRestore client true in
  let* json := lift (marshal_config startupConfig) in
  on_err wrap_host (UpdateHostLastStartupConfig (ho_ID dbHost) json) ;;;
  conn_Stop (ho_ConnectString dbHost) timeoutSeconds ;;;
  attempt (UpdateHostStatus (ho_ID dbHost) HeadlessHostStatus_EXITED) ;;;
  ret tt.

Definition HostRepo_Kill (id : string) : Go unit :=
  let* dbHost := on_err wrap_host (GetHost id) in
  lift (getConnector (ho_ConnectorType dbHost)) ;;;
  attempt (UpdateHostStatus (ho_ID dbHost) HeadlessHostStatus_STOPPING) ;;;
  conn_Kill (ho_ConnectString dbHost) ;;;
  attempt (UpdateHostStatus (ho_ID dbHost) HeadlessHostStatus_EXITED) ;;;
  ret tt.
End Repository.

(** The clients the session use case gets. *)
#[export] Instance repo_HostClients {CC : ContainerClient} {CN : HostConnector} : HostClients := { GetRpcClient := HostRepo_GetRpcClient }.

(** ** Hosts: logs, and deletion

    [src/db/container_logs.sql.go], the log methods of
    [src/adapter/headless_host_repository.go], and the deletion of a host,
    which takes its logs along.  Fluent Bit writes the lines, under the tag
    headless-(host)-(instance). *)

From stdpp Require Import base gmap strings list sorting.
From Stdlib Require Import ZArith Lia Ascii.

(** ** Statements *)

Definition of_host (hostID : string) (r : ContainerLogRow) : bool :=
  match cl_Tag r with Some tag => sql_like ("headless-" +:+ hostID +:+ "-%") tag | None => false end.

Definition x_DeleteContainerLogsByHostID (hostID : string) (_ : Instant) (d : DB) : Result (unit * DB) :=
  Ok (tt, set_container_logs (filter (λ kr, of_host hostID (snd kr) = false)) d).
Definition DeleteContainerLogsByHostID hostID : Go unit := exec (x_DeleteContainerLogsByHostID hostID).

Record GetContainerLogsByTagParams : Type := mkLogsByTag { lbt_Tag : string; lbt_BeforeID : Z; lbt_AfterID : Z; lbt_MaxRows : Z }.
Definition log_wanted (p : GetContainerLogsByTagParams) (r : ContainerLogRow) : bool :=
  bool_decide (cl_Tag r = Some (lbt_Tag p)) && ((lbt_BeforeID p =? 0) || (cl_ID r <? lbt_BeforeID p))%Z && ((lbt_AfterID p =? 0) || (lbt_AfterID p <? cl_ID r))%Z.
Definition newest_log_first (a b : ContainerLogRow) : bool := (cl_ID b <=? cl_ID a)%Z.
Definition q_GetContainerLogsByTag (p : GetContainerLogsByTagParams) (_ : Instant) (d : DB) : Result (list ContainerLogRow) :=
  let n := if (0 <? lbt_MaxRows p)%Z then lbt_MaxRows p else 100%Z in
  Ok (take (Z.to_nat n) (order_by newest_log_first (List.filter (log_wanted p) (rows_of (t_container_logs d))))).
Definition GetContainerLogsByTag p : Go (list ContainerLogRow) := query (q_GetContainerLogsByTag p).

(** The digits that [SUBSTRING] finds with the pattern headless-[^-]+-(\d+), at
    the first place where it matches. *)
Fixpoint after_dash (s : string) : option string :=
  match s with String c s' => if bool_decide (c = "-"%char) then Some s' else after_dash s' | EmptyString => None end.
Definition starts_with_dash (s : string) : bool := match s with String c _ => bool_decide (c = "-"%char) | EmptyString => false end.
Definition matched_digits (s : string) : option string :=
  match CutPrefix "headless-" s with
  | Some s1 =>
      if starts_with_dash s1 then None
      else match after_dash s1 with
           | Some s2 => if bool_decide (leading_digits s2 = EmptyString) then None else Some (leading_digits s2)
           | None => None
           end
  | None => None
  end.
Fixpoint instance_digits (tag : string) : option string :=
  match matched_digits tag with
  | Some ds => Some ds
  | None => match tag with String _ tag' => instance_digits tag' | EmptyString => None end
  end.
Record GetInstanceTimestampsRow : Type := mkInstanceRow {
  itr_InstanceID : Z; itr_FirstLogAt : option Instant; itr_LastLogAt : option Instant; itr_LogCount : Z }.

(** MIN and MAX skip NULL *)
Definition fold_ts (f : Instant → Instant → Instant) (l : list ContainerLogRow) : option Instant :=
  foldr (λ r acc, match cl_Ts r, acc with Some t, Some a => Some (f t a) | Some t, None => Some t | None, _ => acc end) None l.
(** a group without an instance, or with one too large for its type, is an error *)
Definition instance_row (rows : list ContainerLogRow) (key : option string) : Result GetInstanceTimestampsRow :=
  match key with
  | None => Fail (EMsg "cannot scan NULL into *int32")
  | Some ds =>
      let members := List.filter (λ r, bool_decide ((cl_Tag r ≫= instance_digits) = key)) rows in
      check (digits_value 0 ds <? 2 ^ 31)%Z "value out of range for type integer" >>>
      Ok (mkInstanceRow (digits_value 0 ds) (fold_ts Z.min members) (fold_ts Z.max members) (Z.of_nat (length members)))
  end.
Fixpoint all_Ok {A B} (f : A → Result B) (l : list A) : Result (list B) :=
  match l with [] => Ok [] | a :: l' => rbind (f a) (λ b, rbind (all_Ok f l') (λ bs, Ok (b :: bs))) end.
Definition q_GetInstanceTimestamps (hostID : string) (_ : Instant) (d : DB) : Result (list GetInstanceTimestampsRow) :=
  let rows := List.filter (of_host hostID) (rows_of (t_container_logs d)) in
  rbind (all_Ok (instance_row rows) (remove_dups ((λ r, cl_Tag r ≫= instance_digits) <$> rows)))
    (λ groups, Ok (order_by (λ a b, (itr_InstanceID b <=? itr_InstanceID a)%Z) groups)).
Definition Queries_GetInstanceTimestamps hostID : Go (list GetInstanceTimestampsRow) := query (q_GetInstanceTimestamps hostID).

(** ** Repository *)

Record LogLine : Type := mkLogLine { ll_ID : Z; ll_Timestamp : Z; ll_IsError : bool; ll_Body : string }.
Record GetLogsParams : Type := mkGetLogs { glp_HostID : string; glp_InstanceID : Z; glp_Limit : Z; glp_BeforeID : Z; glp_AfterID : Z }.

Definition Time_Unix (t : Instant) : Z := (t / time_Second)%Z.
Definition newline : string := String (ascii_of_nat 10) EmptyString.
Fixpoint TrimSuffix_newline (s : string) : string :=
  match s with
  | EmptyString => EmptyString
  | String c s' => if bool_decide (s = newline) then EmptyString else String c (TrimSuffix_newline s')
  end.

Definition parseContainerLogRow (row : ContainerLogRow) : Result LogLine :=
  match cl_Data row with
  | None => Fail (EMsg "unexpected end of JSON input")
  | Some j =>
      rbind (json_members j) (λ ms,
      rbind (decode_field set_string EmptyString "log" ms) (λ log,
      rbind (decode_field set_string EmptyString "stream" ms) (λ stream,
      match cl_Ts row with
      | None => Fail (EMsg "invalid row data")
      | Some ts => Ok (mkLogLine (cl_ID row) (Time_Unix ts) (bool_decide (stream = "stderr")) (TrimSuffix_newline log))
      end)))
  end.

Definition log_tag (hostID : string) (instanceID : Z) : string := "headless-" +:+ hostID +:+ "-" +:+ fmt_d instanceID.

Definition HostRepo_GetLogs (params : GetLogsParams) : Go (list LogLine) :=
  let queryLimit := if (glp_Limit params <=? 0)%Z then 100%Z else glp_Limit params in
  let* rows := GetContainerLogsByTag (mkLogsByTag (log_tag (glp_HostID params) (glp_InstanceID params)) (glp_BeforeID params) (glp_AfterID params) queryLimit) in
  ret (rev (omap (λ row, match parseContainerLogRow row with Ok l => Some l | Fail _ => None end) rows)).

Record InstanceTimestamp : Type := mkInstanceTimestamp { it_InstanceID : Z; it_FirstLogAt : option Z; it_LastLogAt : option Z; it_LogCount : Z }.
Definition HostRepo_GetInstanceTimestamps (hostID : string) : Go (list InstanceTimestamp) :=
  let* rows := Queries_GetInstanceTimestamps hostID in
  ret ((λ r, mkInstanceTimestamp (itr_InstanceID r) (Time_Unix <$> itr_FirstLogAt r) (Time_Unix <$> itr_LastLogAt r) (itr_LogCount r)) <$> rows).

Section Repository.
Context {CC : ContainerClient} {CN : HostConnector}.

Definition HostRepo_Delete (id : string) : Go unit :=
  let* dbHost := attempt (GetHost id) in
  match dbHost with
  | Fail err => if errors_Is (convertDBErr err) ErrNotFound then ret tt else fail (wrap_host err)
  | Ok dbHost =>
      lift (getConnector (ho_ConnectorType dbHost)) ;;;
      conn_Remove (ho_ConnectString dbHost) ;;;
      DeleteContainerLogsByHostID id ;;;
      DeleteHost id
  end.
End Repository.

(** ** Examples *)

Definition log_row (id : Z) (tag text : string) : Z * ContainerLogRow :=
  (id, mkContainerLogRow id (Some tag) (Some (id * time_Second)%Z) (Some (JObj [("log", JStr (text +:+ newline)); ("stream", JStr "stdout")]))).

Example digits_found : instance_digits "headless-abc-12x" = Some "12" ∧ instance_digits "headless--headless-a-7" = Some "7" ∧ instance_digits "headless-a" = None.
Proof. by vm_compute. Qed.
