(* ===== verification/HostUsecase.v ===== *)
(** * Hosts: the use case

    [src/usecase/headless_host_usecase.go]: starting, listing, reading,
    restarting, shutting down, killing and deleting hosts, their logs and
    instances, and the choice of the image. *)

From S2P Require Import Prelude Entity Json Headless StateCache Digest Models Queries Ports PermissionUsecase Repositories Resources SessionRepo.
From S2P Require Import Claims SessionUsecase Messages HostQueries HostRepo.
From stdpp Require Import base gmap strings list.
From Stdlib Require Import ZArith Lia.

Section Usecase.
Context {SP : StartupParameters} {CM : ConfigMessages} {CC : ContainerClient} {CN : HostConnector}.

(** ** Permissions *)

Definition requireHostWrite (ctx : Ctx) (hostID : string) : Go unit :=
  let* groupID := HostRepo_GetGroupID hostID in
  RequirePermissionForGroup ctx groupID PermKey_HostWrite.
Definition requireHostRead (ctx : Ctx) (hostID : string) : Go unit :=
  let* groupID := HostRepo_GetGroupID hostID in
  RequireAnyPermissionForGroup ctx groupID [PermKey_HostRead; PermKey_HostWrite].

(** ** Images *)

Definition no_tags {A} : Go A := fail (EMsg "no available container image tags").

(** a tag that is not one of the symbolic names is used as it is *)
Definition resolveTagToUse (tagInput : option string) : Go string :=
  let symbolic := match tagInput with
                  | None => true
                  | Some t => bool_decide (t ∈ [EmptyString; "latestRelease"; "latestPreRelease"])
                  end in
  if symbolic then
    let* tags := HostRepo_ListContainerTags None in
    let wantPreRelease := bool_decide (tagInput = Some "latestPreRelease") in
    match find (λ t, Bool.eqb (ci_IsPreRelease t) wantPreRelease) (rev tags) with
    | Some t => ret (ci_Tag t)
    | None => no_tags
    end
  else ret (default EmptyString tagInput).

(** ** Sessions *)

(** the world to load next time is the last one observed; parameters that are
    missing would be a nil pointer *)
Definition ended_at (now : Instant) (s : Session) : Result Session :=
  match Session_CurrentState s with
  | Some x =>
      if bool_decide (hs_WorldUrl x = EmptyString) then Ok (with_ended now s)
      else match Session_StartupParameters s with
           | Some p => Ok (with_ended now (with_parameters (Session_Name s) (Some (set_LoadWorld (Some (LoadWorldUrl (hs_WorldUrl x))) p)) s))
           | None => Fail (EPanic "runtime error: invalid memory address or nil pointer dereference")
           end
  | None => Ok (with_ended now s)
  end.
Fixpoint mark_ended (now : Instant) (sessions : list Session) : Go unit :=
  match sessions with
  | [] => ret tt
  | s :: sessions' =>
      let* s' := lift (ended_at now s) in
      SessionRepo_Upsert s' ;;;
      mark_ended now sessions'
  end.
Definition markSessionsAsEnded (sessions : list Session) : Go unit := let* now := gets w_now in mark_ended now sessions.

(** the sessions that run on a host, as the three operations that stop it look them up *)
Definition endRunningSessions (hostID : string) : Go unit :=
  let* sessions := SearchSessions (mkSearchFilter (Some hostID) (Some SessionStatus_RUNNING) 0 0 None) in
  markSessionsAsEnded (ssr_Sessions sessions).

(** ** Starting and stopping *)

Definition HostUC_Start (ctx : Ctx) (params : HeadlessHostStartParams) (userId : option string) : Go string :=
  RequirePermissionForGroup ctx (hsp_GroupID params) PermKey_HostWrite ;;;
  RequirePermissionForGroup ctx (hsp_GroupID params) PermKey_AccountUse ;;;
  let accountGroup := HeadlessAccount_GroupID (hsp_HeadlessAccount params) in
  if negb (bool_decide (accountGroup = EmptyString)) && negb (bool_decide (accountGroup = hsp_GroupID params))
  then fail (EMsg "account group does not match host group")
  else
    let* tag := resolveTagToUse (Some (hsp_ContainerImageTag params)) in
    HostRepo_Start HostConnectorType_DOCKER
      (mkHostStartParams (hsp_Name params) tag (hsp_HeadlessAccount params) (hsp_StartupConfig params) (hsp_AutoUpdatePolicy params)
         (hsp_Memo params) (hsp_GroupID params)) userId.

(** the policy, the memo and the group of the parameters are not set *)
Definition HostUC_Restart (ctx : Ctx) (id : string) (newTag : option string) (withWorldRestart : bool) (timeoutSeconds : Z) : Go unit :=
  requireHostWrite ctx id ;;;
  let* host := HostRepo_Find id withWorldRestart in
  let* tagToUse := resolveTagToUse newTag in
  let* account := GetHeadlessAccount (hh_AccountId host) in
  endRunningSessions (hh_ID host) ;;;
  HostRepo_Restart (hh_ID host)
    (mkHostStartParams (hh_Name host) tagToUse account (Some (HeadlessHostSettingsToStartupConfigProto (hh_HostSettings host))) 0 EmptyString EmptyString)
    timeoutSeconds.

Definition HostUC_Shutdown (ctx : Ctx) (id : string) : Go unit :=
  requireHostWrite ctx id ;;;
  endRunningSessions id ;;;
  HostRepo_Stop id (-1).

Definition HostUC_Kill (ctx : Ctx) (id : string) : Go unit :=
  requireHostWrite ctx id ;;;
  endRunningSessions id ;;;
  HostRepo_Kill id.

Definition HostUC_Delete (ctx : Ctx) (id : string) : Go unit :=
  requireHostWrite ctx id ;;;
  HostRepo_Delete id.

(** ** Reading *)

Definition HostUC_List : Go (list HeadlessHost) := HostRepo_ListAll false.

Record HostListOptions : Type := mkHostListOptions { hlo_PageIndex : Z; hlo_PageSize : Z; hlo_GroupIDs : option (list string) }.
Definition HostUC_ListPaged (o : HostListOptions) : Go HostListPageResult :=
  HostRepo_ListPaged (mkHostPageOptions (hlo_PageIndex o) (hlo_PageSize o) false (hlo_GroupIDs o)).

Definition HostUC_Get (ctx : Ctx) (id : string) : Go HeadlessHost :=
  requireHostRead ctx id ;;;
  HostRepo_Find id false.

Record HostGetLogsResult : Type := mkLogsResult { lr_Logs : list LogLine; lr_HasMoreBefore : bool; lr_HasMoreAfter : bool }.

(** a slice of one element less panics when there is none *)
Definition drop_last (logs : list LogLine) : Result (list LogLine) :=
  match logs with
  | [] => Fail (EPanic "runtime error: slice bounds out of range [:-1]")
  | _ => Ok (take (length logs - 1) logs)
  end.
Definition HostUC_GetLogs (ctx : Ctx) (params : GetLogsParams) : Go HostGetLogsResult :=
  requireHostRead ctx (glp_HostID params) ;;;
  let fetchLimit := if (glp_Limit params <=? 0)%Z then 100%Z else glp_Limit params in
  let fetchLimit := int32 (fetchLimit + 1) in
  let* logs := HostRepo_GetLogs (mkGetLogs (glp_HostID params) (glp_InstanceID params) fetchLimit (glp_BeforeID params) (glp_AfterID params)) in
  let hasMore := (fetchLimit <=? Z.of_nat (length logs))%Z in
  let* logs := (if hasMore : bool then lift (drop_last logs) else ret logs) in
  ret (if (0 <? glp_BeforeID params)%Z then mkLogsResult logs hasMore false
       else if (0 <? glp_AfterID params)%Z then mkLogsResult logs false hasMore
       else mkLogsResult logs hasMore false).

Record HeadlessHostInstance : Type := mkHostInstance {
  hi_InstanceID : Z; hi_FirstLogAt : option Z; hi_LastLogAt : option Z; hi_LogCount : Z; hi_IsCurrent : bool }.
Definition HostUC_GetInstances (ctx : Ctx) (hostID : string) : Go (list HeadlessHostInstance) :=
  requireHostRead ctx hostID ;;;
  let* host := HostRepo_Find hostID false in
  let* timestamps := HostRepo_GetInstanceTimestamps hostID in
  ret ((λ ts, mkHostInstance (it_InstanceID ts) (it_FirstLogAt ts) (it_LastLogAt ts) (it_LogCount ts) (it_InstanceID ts =? hh_InstanceId host)%Z) <$> timestamps).
End Usecase.
