(* ===== verification/HostSafety.v ===== *)
(** * Hosts: who changes what

    Every operation of the use case on an existing host changes that host, the
    sessions that run on it, and when it deletes it its logs and checkpoint,
    and only with the permission to write in its group.  A host never changes
    its group, its account or its creator.  Starting adds one host. *)

From S2P Require Import Prelude Entity Json Headless StateCache Digest Models Queries Ports PermissionUsecase Repositories Resources SessionRepo.
From S2P Require Import PermissionDecisions PermissionSystem PermissionSafety Claims SessionUsecase SessionSafety SessionSearch.
From S2P Require Import Messages HostQueries HostRepo HostUsecase.
From stdpp Require Import base gmap strings list.
From Stdlib Require Import ZArith Lia.

(** ** Computations that move the tables along a relation *)

Section Relation.
Context (Q : DB → DB → Prop) `{!PreOrder Q}.

Definition db_rel (w w' : World) : Prop := Q (w_db w) (w_db w').
#[export] Instance db_rel_preorder : PreOrder db_rel.
Proof. split; [intros w; unfold db_rel; reflexivity|]. intros w1 w2 w3. unfold db_rel. intros ??. by etrans. Qed.

Lemma db_rel_abroad {A} (m : Go A) : preserves abroad m → preserves db_rel m.
Proof. apply preserves_weaken. intros w w' [H _]. unfold db_rel. by rewrite H. Qed.
Lemma db_rel_reads {A} (m : Go A) f : reads m f → preserves db_rel m.
Proof. apply reads_preserves. intros w w' H. unfold db_rel. by rewrite (only_faults_db _ _ H). Qed.
Lemma db_rel_exec {A} (f : Instant → DB → Result (A * DB)) : (∀ t d a d', f t d = Ok (a, d') → Q d d') → preserves db_rel (exec f).
Proof.
  intros Hf w. destruct (exec f w) as [r w'] eqn:E. unfold db_rel. simpl. apply exec_inv in E as [_ [(a & d & _ & Hx & Hd)|(e & _ & Hd)]].
  - rewrite Hd. by eapply Hf.
  - by rewrite Hd.
Qed.
Lemma db_rel_cache f : preserves db_rel (on_cache f).
Proof. intros w. unfold db_rel. simpl. reflexivity. Qed.
End Relation.

(** ** What may change of a host *)

Definition same_host (r r' : HostRow) : Prop :=
  ho_ID r' = ho_ID r ∧ ho_AccountID r' = ho_AccountID r ∧ ho_CreatedBy r' = ho_CreatedBy r ∧ ho_ConnectorType r' = ho_ConnectorType r ∧
  ho_CreatedAt r' = ho_CreatedAt r ∧ ho_GroupID r' = ho_GroupID r.
Definition host_edited (o o' : option HostRow) : Prop :=
  match o with None => o' = None | Some r => o' = None ∨ ∃ r', o' = Some r' ∧ same_host r r' end.
#[export] Instance same_host_preorder : PreOrder same_host.
Proof. split; [done|]. intros r1 r2 r3 (?&?&?&?&?&?) (?&?&?&?&?&?). repeat split; congruence. Qed.
#[export] Instance host_edited_preorder : PreOrder host_edited.
Proof.
  split; [intros [r|]; simpl; [right; by exists r|done]|]. intros [r1|] o2 o3; simpl; [|by intros ->].
  intros [->|(r2 & -> & H1)]; simpl; [intros ->; by left|]. intros [->|(r3 & -> & H2)]; [by left|right]. exists r3. split; [done|by etrans].
Qed.

(** A session of the host may have ended. *)
Definition session_ended (hostID : string) (o o' : option SessionRow) : Prop :=
  kept o o' ∧ ∀ r', o' = Some r' → o' = o ∨ (se_Status r' = SessionStatus_ENDED ∧ se_HostID r' = hostID).
#[export] Instance session_ended_preorder hostID : PreOrder (session_ended hostID).
Proof.
  split; [intros o; split; [done|by left]|]. intros o1 o2 o3 [K1 S1] [K2 S2]. split; [by etrans|].
  intros r3 E. destruct (S2 r3 E) as [E2|H]; [|by right]. subst o2. by apply S1.
Qed.

(** The logs of the host may be gone. *)
Definition logs_pruned (hostID : string) (m m' : gmap Z ContainerLogRow) : Prop :=
  ∀ k, m' !! k = m !! k ∨ (m' !! k = None ∧ ∃ r, m !! k = Some r ∧ of_host hostID r = true).
#[export] Instance logs_pruned_preorder hostID : PreOrder (logs_pruned hostID).
Proof.
  split; [by left|]. intros m1 m2 m3 H1 H2 k. destruct (H2 k) as [E2|(E2 & r & Hr & Ho)].
  - destruct (H1 k) as [E1|(E1 & r & Hr & Ho)]; [left; congruence|right]. split; [congruence|eauto].
  - destruct (H1 k) as [E1|(E1 & _)]; [right|congruence]. split; [done|]. exists r. split; [congruence|done].
Qed.

(** One host, some of its sessions, its logs and its checkpoint. *)
Record touches (hostID : string) (S : gset string) (d d' : DB) : Prop := mkTouches {
  to_others : d' = set_checkpoints (λ _, t_checkpoints d') (set_container_logs (λ _, t_container_logs d')
                     (set_sessions (λ _, t_sessions d') (set_hosts (λ _, t_hosts d') d)));
  to_hosts id : id ≠ hostID → t_hosts d' !! id = t_hosts d !! id;
  to_host : host_edited (t_hosts d !! hostID) (t_hosts d' !! hostID);
  to_sessions sid : sid ∉ S → t_sessions d' !! sid = t_sessions d !! sid;
  to_ended sid : session_ended hostID (t_sessions d !! sid) (t_sessions d' !! sid);
  to_logs : logs_pruned hostID (t_container_logs d) (t_container_logs d');
  to_checkpoints id : id ≠ hostID → t_checkpoints d' !! id = t_checkpoints d !! id }.

#[export] Instance touches_preorder hostID S : PreOrder (touches hostID S).
Proof.
  split.
  - intros d. split; [by destruct d|done|reflexivity|done|intros; reflexivity|reflexivity|done].
  - intros d1 d2 d3 [O1 H1 E1 S1 N1 L1 C1] [O2 H2 E2 S2 N2 L2 C2]. constructor.
    + rewrite O2, O1. by destruct d1, d2, d3.
    + intros id Hne. by rewrite H2, H1.
    + by etrans.
    + intros sid Hne. by rewrite S2, S1.
    + intros sid. etrans; [apply N1|apply N2].
    + by etrans.
    + intros id Hne. by rewrite C2, C1.
Qed.

(** ** Statements *)

#[export] Hint Resolve db_rel_cache : preserves.
#[export] Hint Extern 5 (preserves (db_rel _) _) => (eapply db_rel_reads; [typeclasses eauto|solve [eauto with reads]]) : preserves.

Section Touching.
Context (hostID : string) (S : gset string).
#[local] Abbreviation T := (db_rel (touches hostID S)).

Lemma set_hosts_touches r d : same_host r r →
  host_edited (t_hosts d !! hostID) (Some r) → touches hostID S d (set_hosts (<[hostID := r]>) d).
Proof.
  intros _ He. constructor; simpl; [by destruct d| | |done|intros; reflexivity|reflexivity|done].
  - intros id Hne. by apply lookup_insert_ne.
  - by rewrite lookup_insert_eq.
Qed.
Lemma update_host_touches f : (∀ now r, same_host r (f now r)) → preserves T (exec (λ now, update_host hostID (f now))).
Proof.
  intros Hf. apply db_rel_exec; [apply _|]. intros t d a d'. unfold update_host. destruct (t_hosts d !! hostID) as [r|] eqn:E; intros [= _ <-]; [|reflexivity].
  apply set_hosts_touches; [done|]. rewrite E. right. exists (f t r). by split.
Qed.

Lemma UpdateHostName_touches name : preserves T (UpdateHostName hostID name).
Proof. by apply (update_host_touches (ho_with_name name)). Qed.
Lemma UpdateHostStatus_touches status : preserves T (UpdateHostStatus hostID status).
Proof. by apply (update_host_touches (ho_with_status status)). Qed.
Lemma UpdateHostLastStartupConfig_touches c : preserves T (UpdateHostLastStartupConfig hostID c).
Proof. by apply (update_host_touches (ho_with_config c)). Qed.
Lemma UpdateHostConnectString_touches c : preserves T (UpdateHostConnectString hostID c).
Proof. by apply (update_host_touches (ho_with_connect c)). Qed.
Lemma UpdateHostMemo_touches m : preserves T (UpdateHostMemo hostID m).
Proof. by apply (update_host_touches (ho_with_memo m)). Qed.
Lemma UpdateHostAutoUpdatePolicy_touches p : preserves T (UpdateHostAutoUpdatePolicy hostID p).
Proof. by apply (update_host_touches (ho_with_policy p)). Qed.
Lemma IncrementHostInstanceCount_touches : preserves T (IncrementHostInstanceCount hostID).
Proof.
  apply db_rel_exec; [apply _|]. intros t d a d'. unfold x_IncrementHostInstanceCount. destruct (t_hosts d !! hostID) as [r|] eqn:E; [|done].
  cbv zeta. destruct (check _ _); simpl; [|done]. intros [= _ <-]. apply set_hosts_touches; [done|]. rewrite E. right. by eexists.
Qed.
Lemma DeleteHost_touches : preserves T (DeleteHost hostID).
Proof.
  apply db_rel_exec; [apply _|]. intros t d a d' [= _ <-]. constructor; simpl; [by destruct d| | |done|intros; reflexivity|reflexivity|].
  - intros id Hne. by apply lookup_delete_ne.
  - rewrite lookup_delete_eq. by destruct (t_hosts d !! hostID); [left|].
  - intros id Hne. by apply lookup_delete_ne.
Qed.
Lemma DeleteContainerLogs_touches : preserves T (DeleteContainerLogsByHostID hostID).
Proof.
  apply db_rel_exec; [apply _|]. intros t d a d' [= _ <-]. constructor; simpl; [by destruct d|done|reflexivity|done|intros; reflexivity| |done].
  intros k. destruct (t_container_logs d !! k) as [r|] eqn:E.
  - destruct (of_host hostID r) eqn:Ho.
    + right. split; [|by exists r]. apply map_lookup_filter_None. right. intros x Hx. simpl. congruence.
    + left. apply map_lookup_filter_Some. by split.
  - left. apply map_lookup_filter_None. by left.
Qed.
Lemma UpsertSession_touches p : us_p_ID p ∈ S → us_p_Status p = SessionStatus_ENDED → us_p_HostID p = hostID → preserves T (UpsertSession p).
Proof.
  intros Hin Hs Hh. apply db_rel_exec; [apply _|]. intros t d a d'. unfold x_UpsertSession. destruct (us_p_StartupParameters p) as [j|]; [|done].
  assert (∀ r', session_ended hostID (t_sessions d !! us_p_ID p) (Some r') → touches hostID S d (set_sessions (<[us_p_ID p := r']>) d)) as Hset.
  { intros r' He. constructor; simpl; [by destruct d|done|reflexivity| | |reflexivity|done].
    - intros sid Hsid. apply lookup_insert_ne. intros E. apply Hsid. by rewrite <-E.
    - intros sid. destruct (decide (sid = us_p_ID p)) as [->|Hne]; [rewrite lookup_insert_eq; exact He|]. rewrite lookup_insert_ne by done. reflexivity. }
  destruct (t_sessions d !! us_p_ID p) as [r|] eqn:E.
  - cbv zeta. destruct (check _ _); simpl; [|done]. intros [= _ <-]. apply Hset. split; [|intros r' [= <-]; right; by split].
    intros r0 [= <-]. eexists. split; [done|]. repeat split. intros c Hc. simpl. by rewrite Hc.
  - cbv zeta. destruct (check _ _); simpl; [|done]. destruct (check _ _); simpl; [|done]. intros [= _ <-]. apply Hset.
    split; [done|]. intros r' [= <-]. right. by split.
Qed.
End Touching.
#[export] Hint Resolve UpdateHostName_touches UpdateHostStatus_touches UpdateHostLastStartupConfig_touches UpdateHostConnectString_touches
  UpdateHostMemo_touches UpdateHostAutoUpdatePolicy_touches IncrementHostInstanceCount_touches DeleteHost_touches DeleteContainerLogs_touches : preserves.

(** ** The sessions a host loses *)

Section Operations.
Context {SP : StartupParameters} {CM : ConfigMessages} {CC : ContainerClient} {CN : HostConnector} {CL : ConnectorLaws}.

Definition runs_on (hostID : string) (r : SessionRow) : Prop := se_HostID r = hostID ∧ se_Status r = SessionStatus_RUNNING.
Definition running_ids (hostID : string) (d : DB) : gset string :=
  dom (filter (λ kr, se_HostID (snd kr) = hostID ∧ se_Status (snd kr) = SessionStatus_RUNNING) (t_sessions d)).

Lemma elem_of_running_ids hostID d sid : sid ∈ running_ids hostID d ↔ ∃ r, t_sessions d !! sid = Some r ∧ runs_on hostID r.
Proof.
  unfold running_ids, runs_on. rewrite elem_of_dom. split.
  - intros [r [Hr H]%map_lookup_filter_Some]. by exists r.
  - intros (r & Hr & H). exists r. by apply map_lookup_filter_Some.
Qed.

Definition running_filter (hostID : string) : SearchSessionsFilter := mkSearchFilter (Some hostID) (Some SessionStatus_RUNNING) 0 0 None.

Lemma search_running hostID w r w' : sessions_keyed (w_db w) → SearchSessions (running_filter hostID) w = (r, w') →
  only_faults w w' ∧ ∀ res s, r = Ok res → s ∈ ssr_Sessions res → Session_ID s ∈ running_ids hostID (w_db w) ∧ Session_HostID s = hostID.
Proof.
  intros Hk. unfold SearchSessions, running_filter. simpl. unfold SessionRepo_ListByStatus.
  assert (reads (on_err wrap_session (ListSessionsByStatus SessionStatus_RUNNING)) (λ t d, map_err wrap_session (q_ListSessionsByStatus SessionStatus_RUNNING t d))) as Hrd
    by exact (on_err_reads _ _ _ (reads_query (q_ListSessionsByStatus SessionStatus_RUNNING))).
  intros [(e & He & ->)|(es & w1 & Hl & H)]%bind_inv; [|apply bind_inv in Hl as [(e & _ & [=])|(rows & w2 & Hq & Hl)]].
  { split; [|done]. apply bind_inv in He as [(e' & Hq & _)|(rows & w2 & Hq & Hl)]; [by apply (reads_inv _ _ _ _ _ Hrd) in Hq as [? _]|].
    apply (reads_inv _ _ _ _ _ Hrd) in Hq as [? _]. by injection Hl as _ <-. }
  apply (reads_inv _ _ _ _ _ Hrd) in Hq as [Hof Hrows]. specialize (Hrows rows eq_refl). injection Hrows as <-.
  injection Hl as Hes <-. apply entities_Ok in Hes as [-> Hd]. rewrite (bind_Ok _ _ _ _ _ (hydrate_run _ _)) in H. injection H as <- <-.
  split; [done|]. intros res s [= <-]. simpl. intros (e & -> & He)%list_elem_of_fmap.
  rewrite list_elem_of_In, List.filter_In, <-list_elem_of_In, bool_decide_eq_true, list_elem_of_fmap in He. destruct He as [(row & -> & Hin) Hh].
  rewrite Forall_forall in Hd. specialize (Hd row Hin). destruct (session_entity_fields row Hd) as [Eh _].
  assert (Session_ID (hydrated (w_cache w2) (entity row)) = Session_ID (entity row) ∧ Session_HostID (hydrated (w_cache w2) (entity row)) = Session_HostID (entity row)) as [-> ->].
  { unfold hydrated. by destruct (Cache_Get _ _). }
  split; [|done]. assert (Session_ID (entity row) = se_ID row) as ->.
  { clear -Hd. unfold sessionToEntity in Hd. destruct (protojson_Unmarshal _); simpl in Hd; [|done]. by injection Hd as <-. }
  unfold sessions_where in Hin. rewrite order_by_Permutation, list_elem_of_In, List.filter_In, <-list_elem_of_In, Z.eqb_eq in Hin.
  destruct Hin as [Hin Hs]. unfold rows_of in Hin. apply list_elem_of_fmap in Hin as ([i row'] & -> & Hi%elem_of_map_to_list). simpl in *.
  apply elem_of_running_ids. exists row'. rewrite (Hk _ _ Hi). split; [done|]. split; [by rewrite <-Eh|done].
Qed.

Lemma ended_at_fields now s s' : ended_at now s = Ok s' →
  Session_ID s' = Session_ID s ∧ Session_HostID s' = Session_HostID s ∧ Session_Status s' = SessionStatus_ENDED.
Proof. unfold ended_at. repeat case_match; intros [= <-]; done. Qed.

Lemma mark_ended_touches hostID S now l :
  (∀ s, s ∈ l → Session_ID s ∈ S ∧ Session_HostID s = hostID) → preserves (db_rel (touches hostID S)) (mark_ended now l).
Proof.
  induction l as [|s l IH]; intros Hl; simpl; [preserve|]. destruct (Hl s) as [Hin Hh]; [by left|].
  assert (preserves (db_rel (touches hostID S)) (mark_ended now l)) as Hrec by (apply IH; intros s' Hs'; apply Hl; by right).
  intros w. destruct (ended_at now s) as [s'|e] eqn:E; [|by unfold bind, lift; reflexivity].
  change ((SessionRepo_Upsert s';;; mark_ended now l) w).2 with ((SessionRepo_Upsert s';;; mark_ended now l) w).2.
  destruct (ended_at_fields _ _ _ E) as (Ei & Eh & Es).
  assert (preserves (db_rel (touches hostID S)) (SessionRepo_Upsert s' ;;; mark_ended now l)) as Hp; [|exact (Hp w)].
  apply preserves_bind; [apply _| |done]. unfold SessionRepo_Upsert. preserve.
  all: apply UpsertSession_touches; simpl; congruence.
Qed.

Lemma endRunningSessions_touches hostID w : sessions_keyed (w_db w) →
  touches hostID (running_ids hostID (w_db w)) (w_db w) (w_db (endRunningSessions hostID w).2).
Proof.
  intros Hk. unfold endRunningSessions. fold (running_filter hostID).
  destruct (SearchSessions (running_filter hostID) w) as [[res|e] w1] eqn:E.
  - apply search_running in E as E'; [|done]. destruct E' as [Hof Hres]. rewrite (bind_Ok _ _ _ _ _ E). unfold markSessionsAsEnded, bind, gets.
    rewrite <-(only_faults_db _ _ Hof) at 2. apply mark_ended_touches. intros s Hs. by apply (Hres res s).
  - apply search_running in E as E'; [|done]. destruct E' as [Hof _]. rewrite (bind_Fail _ _ _ _ _ E). simpl. rewrite (only_faults_db _ _ Hof). reflexivity.
Qed.
End Operations.

(** ** The operations *)

Section Calls.
Context {SP : StartupParameters} {CM : ConfigMessages} {CC : ContainerClient} {CN : HostConnector} {CL : ConnectorLaws}.

Definition hosts_keyed (d : DB) : Prop := ∀ id r, t_hosts d !! id = Some r → ho_ID r = id.

#[local] Hint Extern 6 (preserves (db_rel _) _) =>
  (apply db_rel_abroad; [typeclasses eauto|]; first [apply conn_GetRpcClient_abroad|apply conn_ListContainerTags_abroad|apply conn_Start_abroad
     |apply conn_Stop_abroad|apply conn_Kill_abroad|apply conn_Remove_abroad|apply rpc_GetAbout_abroad|apply rpc_GetAccountInfo_abroad
     |apply rpc_GetStatus_abroad|apply rpc_GetStartupConfigToRestore_abroad]) : preserves.

(** Reading hosts changes nothing. *)
Lemma dbToEntity_same r b : preserves (db_rel eq) (dbToEntity r b).
Proof. unfold dbToEntity, fetchHostInfo, Queries_GetHeadlessAccount. preserve. Qed.
#[local] Hint Resolve dbToEntity_same : preserves.
Lemma dbHostsToEntities_same l b : preserves (db_rel eq) (dbHostsToEntities l b).
Proof. induction l as [|r l IH]; simpl; preserve. Qed.
#[local] Hint Resolve dbHostsToEntities_same : preserves.
Lemma HostRepo_Find_same id b : preserves (db_rel eq) (HostRepo_Find id b).
Proof. unfold HostRepo_Find, GetHost. preserve. Qed.
Lemma resolveTag_same t : preserves (db_rel eq) (resolveTagToUse t).
Proof. unfold resolveTagToUse, HostRepo_ListContainerTags, no_tags. preserve. Qed.
#[local] Hint Resolve HostRepo_Find_same resolveTag_same : preserves.

(** The entity that was found is the row's. *)
Lemma dbToEntity_of_row r b w h w' : dbToEntity r b w = (Ok h, w') → hh_ID h = ho_ID r ∧ hh_GroupID h = ho_GroupID r.
Proof.
  unfold dbToEntity. destruct (_ =? _)%Z.
  - intros (? & w1 & _ & H)%bind_inv_Ok. apply bind_inv_Ok in H as (c & w2 & _ & H). destruct c as [c|e]; [|by injection H as <- _].
    apply bind_inv_Ok in H as ([h1 ok] & w3 & Hf & H). assert (hh_ID h1 = ho_ID r ∧ hh_GroupID h1 = ho_GroupID r) as E.
    { unfold fetchHostInfo in Hf. apply bind_inv_Ok in Hf as (a & w4 & _ & Hf). apply bind_inv_Ok in Hf as (u & w5 & _ & Hf).
      apply bind_inv_Ok in Hf as (s & w6 & _ & Hf). unfold ret in Hf. repeat case_match; by injection Hf as <- _ _. }
    simpl in H. destruct ok; [|by injection H as <- _]. apply bind_inv_Ok in H as (cfg & w7 & _ & H).
    destruct cfg as [cfg|e]; [|by injection H as <- _]. apply bind_inv_Ok in H as (s & w5 & _ & H). by injection H as <- _.
  - intros (p & w1 & _ & H)%bind_inv_Ok. apply bind_inv_Ok in H as (s & w2 & _ & H). apply bind_inv_Ok in H as (a & w3 & _ & H).
    destruct a as [a|e]; by injection H as <- _.
Qed.
Lemma dbToEntity_ID r b w h w' : dbToEntity r b w = (Ok h, w') → hh_ID h = ho_ID r.
Proof. by intros [H _]%dbToEntity_of_row. Qed.
Lemma HostRepo_Find_ID id b w h w' : hosts_keyed (w_db w) → HostRepo_Find id b w = (Ok h, w') → hh_ID h = id.
Proof.
  intros Hk (r & w1 & Hg & H)%bind_inv_Ok. apply dbToEntity_ID in H as ->.
  apply on_err_inv in Hg as ([r0|e] & Hg & [= ->]). apply (reads_inv _ _ _ _ _ (reads_query (q_GetHost id))) in Hg as [_ Hg].
  specialize (Hg _ eq_refl). unfold q_GetHost in Hg. destruct (t_hosts (w_db w) !! id) as [r1|] eqn:E; [|done]. injection Hg as ->. by eapply Hk.
Qed.

(** Changes of one host; the row that was read first names it. *)
Lemma with_host {A} hostID S (k : HostRow → Go A) w : hosts_keyed (w_db w) →
  (∀ r, ho_ID r = hostID → preserves (db_rel (touches hostID S)) (k r)) →
  touches hostID S (w_db w) (w_db ((let* r := on_err wrap_host (GetHost hostID) in k r) w).2).
Proof.
  intros Hk Hp. destruct (on_err wrap_host (GetHost hostID) w) as [[r|e] w1] eqn:E.
  - rewrite (bind_Ok _ _ _ _ _ E). apply on_err_inv in E as ([r0|e] & E & [= ->]).
    apply (reads_inv _ _ _ _ _ (reads_query (q_GetHost hostID))) in E as [Hof Hr]. specialize (Hr _ eq_refl). rewrite <-(only_faults_db _ _ Hof).
    apply Hp. unfold q_GetHost in Hr. destruct (t_hosts (w_db w) !! hostID) as [r1|] eqn:E; [|done]. injection Hr as ->. by eapply Hk.
  - rewrite (bind_Fail _ _ _ _ _ E). apply on_err_inv in E as (r0 & E & _).
    apply (reads_inv _ _ _ _ _ (reads_query (q_GetHost hostID))) in E as [Hof _]. simpl. rewrite (only_faults_db _ _ Hof). reflexivity.
Qed.

Lemma HostRepo_Restart_touches hostID S p t w : hosts_keyed (w_db w) →
  touches hostID S (w_db w) (w_db (HostRepo_Restart hostID p t w).2).
Proof. intros Hk. apply with_host; [done|]. intros r Hr. preserve. Qed.
Lemma HostRepo_Stop_touches hostID S t w : hosts_keyed (w_db w) → touches hostID S (w_db w) (w_db (HostRepo_Stop hostID t w).2).
Proof. intros Hk. apply with_host; [done|]. intros r ->. preserve. Qed.
Lemma HostRepo_Kill_touches hostID S w : hosts_keyed (w_db w) → touches hostID S (w_db w) (w_db (HostRepo_Kill hostID w).2).
Proof. intros Hk. apply with_host; [done|]. intros r ->. preserve. Qed.
Lemma HostRepo_Delete_touches hostID S : preserves (db_rel (touches hostID S)) (HostRepo_Delete hostID).
Proof. unfold HostRepo_Delete, GetHost. preserve. Qed.
End Calls.
