(* ===== verification/HostTheorems.v ===== *)
(** * Hosts: theorems of the use case

    Who changes a host, what starting, restarting and killing leave behind,
    and what a page of logs shows. *)

From S2P Require Import Prelude Entity Json Headless StateCache Digest Models Queries Ports PermissionUsecase Repositories Resources SessionRepo.
From S2P Require Import PermissionDecisions PermissionSystem PermissionSafety Claims SessionUsecase SessionSafety SessionRedelivery.
From S2P Require Import Messages HostQueries HostRepo HostUsecase HostSafety.
From stdpp Require Import base gmap strings list.
From Stdlib Require Import ZArith Lia.

(** ** Who changes a host *)

Section Calls.
Context {SP : StartupParameters} {CM : ConfigMessages} {CC : ContainerClient} {CN : HostConnector} {CL : ConnectorLaws}.

Inductive HostCall : Type :=
  | CallHostStart (params : HeadlessHostStartParams) (userId : option string)
  | CallHostRestart (id : string) (newTag : option string) (withWorldRestart : bool) (timeoutSeconds : Z)
  | CallHostShutdown (id : string)
  | CallHostKill (id : string)
  | CallHostDelete (id : string)
  | CallHostGet (id : string)
  | CallHostList
  | CallHostListPaged (o : HostListOptions)
  | CallHostGetLogs (p : GetLogsParams)
  | CallHostGetInstances (id : string).

Definition host_call (ctx : Ctx) (c : HostCall) : Go unit :=
  match c with
  | CallHostStart p us => discard (HostUC_Start ctx p us)
  | CallHostRestart id tag wr t => HostUC_Restart ctx id tag wr t
  | CallHostShutdown id => HostUC_Shutdown ctx id
  | CallHostKill id => HostUC_Kill ctx id
  | CallHostDelete id => HostUC_Delete ctx id
  | CallHostGet id => discard (HostUC_Get ctx id)
  | CallHostList => discard HostUC_List
  | CallHostListPaged o => discard (HostUC_ListPaged o)
  | CallHostGetLogs p => discard (HostUC_GetLogs ctx p)
  | CallHostGetInstances id => discard (HostUC_GetInstances ctx id)
  end.

Definition may_manage (ctx : Ctx) (d : DB) (g k : string) : Prop := ∃ usr, current_user ctx = Ok usr ∧ may d usr g k.

(** A host that was added by starting it. *)
Definition host_started (p : HeadlessHostStartParams) (us : option string) (d d' : DB) : Prop :=
  ∃ row, t_hosts d !! ho_ID row = None ∧ d' = set_hosts (<[ho_ID row := row]>) d ∧
    ho_GroupID row = hsp_GroupID p ∧ ho_AccountID row = HeadlessAccount_ResoniteID (hsp_HeadlessAccount p) ∧
    ho_Status row = HeadlessHostStatus_RUNNING ∧ (ho_CreatedBy row = us ∨ ho_CreatedBy row = None).

(** Nothing, or what host:write on that host permits. *)
Definition host_guarded (ctx : Ctx) (id : string) (d d' : DB) : Prop :=
  d' = d ∨ ∃ row, t_hosts d !! id = Some row ∧ may_manage ctx d (ho_GroupID row) PermKey_HostWrite ∧ touches id (running_ids id d) d d'.
Definition host_permitted (ctx : Ctx) (c : HostCall) (d d' : DB) : Prop :=
  d' = d ∨
  (∃ id row, t_hosts d !! id = Some row ∧ may_manage ctx d (ho_GroupID row) PermKey_HostWrite ∧ touches id (running_ids id d) d d') ∨
  (∃ p us, c = CallHostStart p us ∧ may_manage ctx d (hsp_GroupID p) PermKey_HostWrite ∧ may_manage ctx d (hsp_GroupID p) PermKey_AccountUse ∧
     HeadlessAccount_GroupID (hsp_HeadlessAccount p) ∈ [EmptyString; hsp_GroupID p] ∧ host_started p us d d').

Lemma requireHostWrite_run ctx id w :
  let (r, w') := requireHostWrite ctx id w in
  only_faults w w' ∧ (r = Ok tt → ∃ row, t_hosts (w_db w) !! id = Some row ∧ may_manage ctx (w_db w) (ho_GroupID row) PermKey_HostWrite).
Proof.
  unfold requireHostWrite. pose proof (HostRepo_GetGroupID_reads id) as Hg. destruct (HostRepo_GetGroupID id w) as [[g|e] w1] eqn:E.
  - rewrite (bind_Ok _ _ _ _ _ E). apply (reads_inv _ _ _ _ _ Hg) in E as [Hof Hr]. specialize (Hr g eq_refl).
    destruct (RequirePermission_enforces ctx g PermKey_HostWrite w1) as [Hof2 H].
    destruct (RequirePermissionForGroup ctx g PermKey_HostWrite w1) as [[[]|e] w2]; simpl in *; (split; [by etrans|]); [|done].
    intros _. unfold host_group, q_GetHost in Hr. destruct (t_hosts (w_db w) !! id) as [row|]; [|done]. injection Hr as Hrow.
    exists row. split; [done|]. rewrite Hrow. rewrite (only_faults_db _ _ Hof) in H. exact H.
  - rewrite (bind_Fail _ _ _ _ _ E). apply (reads_inv _ _ _ _ _ Hg) in E as [Hof _]. by split.
Qed.

Lemma host_guarded_permitted ctx c id d d' : host_guarded ctx id d d' → host_permitted ctx c d d'.
Proof. intros [->|(row & H)]; [by left|right; left; by exists id, row]. Qed.
Lemma guarded_host {A} ctx id (m : Go A) w :
  (∀ w1, w_db w1 = w_db w → touches id (running_ids id (w_db w)) (w_db w) (w_db (m w1).2)) →
  host_guarded ctx id (w_db w) (w_db ((requireHostWrite ctx id ;;; m) w).2).
Proof.
  intros Hm. pose proof (requireHostWrite_run ctx id w) as H. destruct (requireHostWrite ctx id w) as [[[]|e] w1] eqn:E; destruct H as [Hof H].
  - rewrite (bind_Ok _ _ _ _ _ E). destruct (H eq_refl) as (row & Hrow & Hmay). right. exists row. split; [done|]. split; [done|].
    apply Hm. by apply only_faults_db.
  - rewrite (bind_Fail _ _ _ _ _ E). left. by apply only_faults_db.
Qed.

Lemma then_touches {A B} hostID S (m : Go A) (k : A → Go B) w :
  touches hostID S (w_db w) (w_db (m w).2) → (∀ a w1, m w = (Ok a, w1) → touches hostID S (w_db w1) (w_db (k a w1).2)) →
  touches hostID S (w_db w) (w_db (bind m k w).2).
Proof. unfold bind. destruct (m w) as [[a|e] w1]; [|done]. simpl. intros H1 H2. etrans; [exact H1|by apply H2]. Qed.

(** A step that leaves the tables alone. *)
Lemma same_touches {A B} hostID S (m : Go A) (k : A → Go B) w :
  preserves (db_rel eq) m → (∀ a w1, m w = (Ok a, w1) → w_db w1 = w_db w → touches hostID S (w_db w) (w_db (k a w1).2)) →
  touches hostID S (w_db w) (w_db (bind m k w).2).
Proof.
  intros Hm Hk. specialize (Hm w). unfold db_rel in Hm. destruct (m w) as [[a|e] w1] eqn:E; simpl in Hm.
  - rewrite (bind_Ok _ _ _ _ _ E). by apply Hk.
  - rewrite (bind_Fail _ _ _ _ _ E). simpl. rewrite <-Hm. reflexivity.
Qed.

Lemma hosts_keyed_touches hostID S d d' : hosts_keyed d → touches hostID S d d' → hosts_keyed d'.
Proof.
  intros Hk [_ Hne He _ _ _ _] id r Hr. destruct (decide (id = hostID)) as [->|Hid]; [|apply Hk; by rewrite <-Hne].
  destruct (t_hosts d !! hostID) as [r0|] eqn:E; simpl in He; [|congruence]. destruct He as [He|(r' & He & Hs & _)]; [congruence|].
  rewrite He in Hr. injection Hr as <-. rewrite Hs. by apply Hk.
Qed.

Lemma stopping_touches hostID (m : Go unit) w w0 : sessions_keyed (w_db w0) → hosts_keyed (w_db w0) → w_db w = w_db w0 →
  (∀ w1, hosts_keyed (w_db w1) → touches hostID (running_ids hostID (w_db w0)) (w_db w1) (w_db (m w1).2)) →
  touches hostID (running_ids hostID (w_db w0)) (w_db w0) (w_db ((endRunningSessions hostID ;;; m) w).2).
Proof.
  intros Hs Hh E Hm. rewrite <-E. assert (touches hostID (running_ids hostID (w_db w)) (w_db w) (w_db (endRunningSessions hostID w).2)) as Ht
    by (apply endRunningSessions_touches; by rewrite E).
  apply then_touches; [exact Ht|]. intros [] w1 Ew. rewrite E. apply Hm. rewrite Ew in Ht. simpl in Ht.
  eapply hosts_keyed_touches; [|exact Ht]. by rewrite E.
Qed.

Lemma Restart_guarded ctx id tag wr t w : sessions_keyed (w_db w) → hosts_keyed (w_db w) →
  host_guarded ctx id (w_db w) (w_db (HostUC_Restart ctx id tag wr t w).2).
Proof.
  intros Hs Hh. apply guarded_host. intros w1 E1. rewrite <-E1.
  apply same_touches; [apply HostRepo_Find_same|]. intros h w2 Eh E2. rewrite <-E2. rewrite <-E1 in Hh. apply HostRepo_Find_ID in Eh as Eid; [|done].
  apply same_touches; [apply resolveTag_same|]. intros tg w3 _ E3. rewrite <-E3.
  apply same_touches; [preserve|]. intros a w4 _ E4. rewrite Eid.
  apply stopping_touches; [by rewrite E3, E2, E1|by rewrite E3, E2|by rewrite E4|]. intros w5 Hk. by apply HostRepo_Restart_touches.
Qed.
Lemma Shutdown_guarded ctx id w : sessions_keyed (w_db w) → hosts_keyed (w_db w) →
  host_guarded ctx id (w_db w) (w_db (HostUC_Shutdown ctx id w).2).
Proof.
  intros Hs Hh. apply guarded_host. intros w1 E1. apply stopping_touches; [done..|]. intros w2 Hk. by apply HostRepo_Stop_touches.
Qed.

(** Starting: whatever fails, the store is as before; otherwise there is one new host. *)
Lemma HostRepo_Start_db connector p us w r w' : HostRepo_Start connector p us w = (r, w') →
  w_db w' = w_db w ∨ (host_started p us (w_db w) (w_db w') ∧ is_Ok r = true).
Proof.
  unfold HostRepo_Start. unfold bind at 1, lift. destruct (getConnector connector) as [[]|e]; [|intros [= _ <-]; by left].
  unfold bind at 1, lift. destruct (marshal_config _) as [json|e]; [|intros [= _ <-]; by left]. unfold bind at 1, uniuri_New. cbv zeta.
  set (w1 := with_draws _ w). change (w_db w) with (w_db w1). clearbody w1. set (sp := mkHostStart _ _ _ _ _).
  intros [(e & Es & ->)|(cs & w2 & Es & H)]%bind_inv; [left|]; pose proof (conn_Start_abroad sp w1) as (D2 & _); rewrite Es in D2; [exact D2|].
  simpl in D2. unfold bind at 1, gets in H. set (cp := mkCreateHost _ _ _ _ _ _ _ _ _ _ _ _ _ _) in H.
  destruct (CreateHost cp w2) as [r3 w3] eqn:Ec. rewrite (bind_Ok _ _ _ _ _ (attempt_run _ _ _ _ Ec)) in H.
  apply exec_inv in Ec as [_ [(row & d & -> & Hx & Hd)|(e & -> & Hd)]].
  - injection H as <- <-. right. split; [|done]. unfold x_CreateHost, check in Hx. destruct (negb _) eqn:Hn; [|done].
    destruct (present _ (t_groups _)); [|done]. destruct (opt_present _ _); [|done]. injection Hx as <- <-. exists (new_host_row cp (w_now w2)).
    rewrite Hd, D2. rewrite negb_true_iff in Hn. unfold present in Hn. apply bool_decide_eq_false in Hn. rewrite D2 in Hn.
    split; [by apply eq_None_not_Some|]. do 4 (split; [done|]). simpl. destruct us as [u|]; [|by left]. case_bool_decide; [by right|by left].
  - left. rewrite <-D2, <-Hd. revert H. unfold bind, attempt. pose proof (conn_Stop_abroad cs createHostCleanupStopGrace w3) as (D4 & _).
    destruct (conn_Stop cs _ w3) as [r4 w4]. pose proof (conn_Remove_abroad cs w4) as (D5 & _). destruct (conn_Remove cs w4) as [r5 w5].
    simpl in *. intros [= _ <-]. congruence.
Qed.

Lemma require_then {A} ctx g k (m : Go A) w (P : DB → Prop) : P (w_db w) →
  (∀ w1, w_db w1 = w_db w → may_manage ctx (w_db w) g k → P (w_db (m w1).2)) →
  P (w_db ((RequirePermissionForGroup ctx g k ;;; m) w).2).
Proof.
  intros H0 Hm. destruct (RequirePermission_enforces ctx g k w) as [Hof H].
  destruct (RequirePermissionForGroup ctx g k w) as [[[]|e] w1] eqn:E; simpl in *.
  - rewrite (bind_Ok _ _ _ _ _ E). apply Hm; [by apply only_faults_db|]. exact H.
  - rewrite (bind_Fail _ _ _ _ _ E). simpl. by rewrite (only_faults_db _ _ Hof).
Qed.

Lemma Start_permitted ctx p us w : host_permitted ctx (CallHostStart p us) (w_db w) (w_db (HostUC_Start ctx p us w).2).
Proof.
  unfold HostUC_Start. apply (require_then _ _ _ _ _ (host_permitted ctx (CallHostStart p us) (w_db w))); [by left|]. intros w1 E1 M1.
  rewrite <-E1. rewrite <-E1 in M1. apply (require_then _ _ _ _ _ (host_permitted ctx (CallHostStart p us) (w_db w1))); [by left|]. intros w2 E2 M2.
  rewrite <-E2. cbv zeta. destruct (negb _ && _) eqn:Hg; [by left|].
  pose proof (resolveTag_same (Some (hsp_ContainerImageTag p)) w2) as Ht. unfold db_rel in Ht. destruct (resolveTagToUse _ w2) as [[tag|e] w3] eqn:Et; simpl in Ht.
  2: { rewrite (bind_Fail _ _ _ _ _ Et). by left. }
  rewrite (bind_Ok _ _ _ _ _ Et), Ht. destruct (HostRepo_Start _ _ _ w3) as [r w4] eqn:Es. apply HostRepo_Start_db in Es as [E|[H _]]; simpl; [by left|].
  right. right. exists p, us. rewrite <-E2 in M1, M2. rewrite Ht in M1, M2. split; [done|]. do 2 (split; [done|]). split; [|exact H].
  apply andb_false_iff in Hg as [Hg|Hg]; apply negb_false_iff, bool_decide_eq_true in Hg as ->; [by left|by right; left].
Qed.

Lemma read_permitted {A} ctx c (m : Go A) w : preserves (db_rel eq) m → host_permitted ctx c (w_db w) (w_db (m w).2).
Proof. intros Hm. left. symmetry. apply Hm. Qed.

Lemma requireHostRead_same ctx id : preserves (db_rel eq) (requireHostRead ctx id).
Proof. unfold requireHostRead. preserve. Qed.
#[local] Hint Resolve requireHostRead_same HostRepo_Find_same dbHostsToEntities_same : preserves.

Lemma host_call_permitted ctx c w : sessions_keyed (w_db w) → hosts_keyed (w_db w) →
  host_permitted ctx c (w_db w) (w_db (host_call ctx c w).2).
Proof.
  intros Hs Hh. destruct c as [p us|id tag wr t|id|id|id|id| |o|p|id]; unfold host_call; rewrite ?discard_world.
  - apply Start_permitted.
  - by apply (host_guarded_permitted _ _ id), Restart_guarded.
  - by apply (host_guarded_permitted _ _ id), Shutdown_guarded.
  - apply (host_guarded_permitted _ _ id), guarded_host. intros w1 E1. apply stopping_touches; [done..|]. intros w2 Hk. by apply HostRepo_Kill_touches.
  - apply (host_guarded_permitted _ _ id), guarded_host. intros w1 E1. rewrite <-E1. apply HostRepo_Delete_touches.
  - apply read_permitted. unfold HostUC_Get. preserve.
  - apply read_permitted. unfold HostUC_List, HostRepo_ListAll, ListHosts. preserve.
  - apply read_permitted. unfold HostUC_ListPaged, HostRepo_ListPaged, ListHostsPaged. preserve.
  - apply read_permitted. unfold HostUC_GetLogs, HostRepo_GetLogs, GetContainerLogsByTag. preserve.
  - apply read_permitted. unfold HostUC_GetInstances, HostRepo_GetInstanceTimestamps, Queries_GetInstanceTimestamps. preserve.
Qed.
End Calls.

(** C27. Whatever a call of the use case on hosts does and however it fails:
    either the tables are as before; or the caller holds host:write in the
    group of a host, and at most that host, its logs and its checkpoint changed
    or went, and the sessions that ran on it ended, with the host and each of
    the sessions keeping its group, creator and identity; or the call started
    a host with host:write and account:use in its group and an account of the
    same group, and one running host was added. *)
Theorem host_changes_authorised (SP : StartupParameters) (CM : ConfigMessages) (CC : ContainerClient) (CN : HostConnector) (CL : ConnectorLaws)
    (ctx : Ctx) (c : HostCall) (w : World) :
  sessions_keyed (w_db w) → hosts_keyed (w_db w) → host_permitted ctx c (w_db w) (w_db (host_call ctx c w).2).
Proof. apply host_call_permitted. Qed.
