(* ===== verification/HostLifecycle.v ===== *)
(** * Hosts: what starting and stopping leave behind

    The repository on a database that works, whatever the container runtime
    does. *)

From S2P Require Import Prelude Entity Json Headless StateCache Digest Models Queries Ports Repositories Resources SessionRepo Claims SessionUsecase SessionSafety SessionRedelivery Messages HostQueries HostRepo HostUsecase HostSafety PermissionUsecase.

From stdpp Require Import base gmap strings list.
From Stdlib Require Import ZArith Lia.

(** ** One row of a store that is otherwise fixed *)

Section Row.
Context (id : string) (d0 : DB) (now : Instant).

(** The store is [d0] with the row [r] for the host; the database works. *)
Definition host_is (r : HostRow) (w : World) : Prop := w_faults w = [] ∧ w_db w = set_hosts (<[id := r]>) d0 ∧ w_now w = now.

Lemma host_is_abroad r w w' : abroad w w' → host_is r w → host_is r w'.
Proof. intros (D & _ & N & F) (Hf & Hd & Hn). repeat split; [by apply F|congruence..]. Qed.
Lemma host_is_lookup r w : host_is r w → t_hosts (w_db w) !! id = Some r.
Proof. intros (_ & -> & _). apply lookup_insert_eq. Qed.
Lemma host_is_put r r' w : host_is r w → host_is r' (with_db (set_hosts (<[id := r']>) (w_db w)) w).
Proof. intros (Hf & Hd & Hn). repeat split; [done| |done]. simpl. rewrite Hd. unfold set_hosts. simpl. by rewrite insert_insert_eq. Qed.

Lemma update_host_run f r w : host_is r w →
  ∃ w', exec (λ now, update_host id (f now)) w = (Ok tt, w') ∧ host_is (f now r) w' ∧ w_outside w' = w_outside w.
Proof.
  intros H. eexists. split; [|split; [by apply (host_is_put r (f now r))|reflexivity]]. pose proof (host_is_lookup r w H) as Hl. destruct H as (Hf & _ & <-).
  rewrite exec_run by done. unfold update_host. by rewrite Hl.
Qed.
Lemma increment_run r w : host_is r w → (ho_InstanceCount r + 1 < 2 ^ 31)%Z →
  ∃ w', IncrementHostInstanceCount id w = (Ok (ho_InstanceCount r + 1)%Z, w') ∧
    host_is (ho_with_instances (ho_InstanceCount r + 1) now r) w' ∧ w_outside w' = w_outside w.
Proof.
  intros H Hb. eexists. split; [|split; [by apply (host_is_put r (ho_with_instances (ho_InstanceCount r + 1) now r))|reflexivity]].
  pose proof (host_is_lookup r w H) as Hl. destruct H as (Hf & _ & <-). unfold IncrementHostInstanceCount. rewrite exec_run by done.
  unfold x_IncrementHostInstanceCount. rewrite Hl. cbv zeta. apply Z.ltb_lt in Hb. rewrite Hb. done.
Qed.
Lemma get_host_run r w : host_is r w → on_err wrap_host (GetHost id) w = (Ok r, w).
Proof.
  intros H. pose proof (host_is_lookup r w H) as Hl. destruct H as (Hf & _). unfold GetHost.
  etrans; [exact (reads_run _ _ w (on_err_reads "headless host" _ _ (reads_query (q_GetHost id))) Hf)|]. unfold q_GetHost. by rewrite Hl.
Qed.
End Row.

Lemma on_err_run {A} (f : Err → Err) (m : Go A) w a w' : m w = (Ok a, w') → on_err f m w = (Ok a, w').
Proof. unfold on_err. by intros ->. Qed.

(** A write is not a call to the outside. *)
Lemma exec_outside {A} (f : Instant → DB → Result (A * DB)) w : w_outside (exec f w).2 = w_outside w.
Proof. unfold exec. destruct (statement_fails w); [done|]. by destruct (f _ _) as [[a d]|e]. Qed.

Section Lifecycle.
Context {CM : ConfigMessages} {CC : ContainerClient} {CN : HostConnector} {CL : ConnectorLaws}.

(** ** Restarting *)

(** What the new container is asked to be: the next instance of the host, of
    the image, for the account and with the configuration of the parameters. *)
Definition next_container (id : string) (p : HeadlessHostStartParams) (row : HostRow) : HostStartParams :=
  mkHostStart id (ho_InstanceCount row + 1) (hsp_ContainerImageTag p) (hsp_HeadlessAccount p) (hsp_StartupConfig p).

(** The last things the runtime was asked: to remove the old container, which
    it did, and then to start the new one, which it answered with [answer]. *)
Definition container_asked (id : string) (p : HeadlessHostStartParams) (row : HostRow) (answer : Result string) (w' : World) : Prop :=
  ∃ wr wr' ws ws', conn_Remove (ho_ConnectString row) wr = (Ok tt, wr') ∧ w_outside ws = w_outside wr' ∧
    conn_Start (next_container id p row) ws = (answer, ws') ∧ w_outside w' = w_outside ws'.

(** The row of a host that runs in the container of the address [cs]. *)
Definition restarted (p : HeadlessHostStartParams) (j : Json) (cs : string) (row row' : HostRow) : Prop :=
  same_host row row' ∧ ho_Name row' = ho_Name row ∧ ho_StartedAt row' = ho_StartedAt row ∧ ho_Status row' = HeadlessHostStatus_RUNNING ∧
  ho_ConnectString row' = cs ∧ ho_LastStartupConfig row' = j ∧ ho_Memo row' = Some (hsp_Memo p) ∧
  ho_AutoUpdatePolicy row' = hsp_AutoUpdatePolicy p ∧ ho_InstanceCount row' = (ho_InstanceCount row + 1)%Z.

(** A restart that succeeded: the row has the very address the runtime answered
    when it was asked for the new container. *)
Definition runs_anew (id : string) (p : HeadlessHostStartParams) (j : Json) (row row' : HostRow) (w' : World) : Prop :=
  ∃ cs, container_asked id p row (Ok cs) w' ∧ restarted p j cs row row'.

(** Where a restart that failed with [e] stopped: stopping or removing the old
    container failed, or the old one was removed and the new one did not start. *)
Definition interrupted (id : string) (p : HeadlessHostStartParams) (row row' : HostRow) (e : Err) (w' : World) : Prop :=
  same_host row row' ∧ ho_Name row' = ho_Name row ∧ ho_ConnectString row' = ho_ConnectString row ∧ ho_LastStartupConfig row' = ho_LastStartupConfig row ∧
  ((ho_Status row' = HeadlessHostStatus_STOPPING ∧ ho_Memo row' = ho_Memo row ∧ ho_AutoUpdatePolicy row' = ho_AutoUpdatePolicy row ∧
    ho_InstanceCount row' = ho_InstanceCount row ∧
    ∃ t w1 w2, (conn_Stop (ho_ConnectString row) t w1 = (Fail e, w2) ∨ conn_Remove (ho_ConnectString row) w1 = (Fail e, w2)) ∧ w_outside w' = w_outside w2) ∨
   (ho_Status row' = HeadlessHostStatus_STARTING ∧ ho_Memo row' = Some (hsp_Memo p) ∧ ho_AutoUpdatePolicy row' = hsp_AutoUpdatePolicy p ∧
    ho_InstanceCount row' = (ho_InstanceCount row + 1)%Z ∧ container_asked id p row (Fail e) w')).

(** Running an update of the row, from what is known of it. *)
Ltac update H f w' E :=
  let H' := fresh "H" in let O := fresh "O" in
  destruct (update_host_run _ _ _ f _ _ H) as (w' & E & H' & O); clear H; rename H' into H.
(** Calling the container runtime; [law] is what the call keeps. *)
Ltac outside H m w a w' E law :=
  let A := fresh "A" in
  pose proof (law w) as A; destruct (m w) as [[a|?e] w'] eqn:E; simpl in A; apply (host_is_abroad _ _ _ _ _ _ A) in H; clear A.

Definition obedient : Prop :=
  (∀ c t w, is_Ok (conn_Stop c t w).1 = true) ∧ (∀ c w, is_Ok (conn_Remove c w).1 = true) ∧ (∀ p w, is_Ok (conn_Start p w).1 = true).

Lemma restart_from id p t d0 now row w j :
  host_is id d0 now row w → ho_ConnectorType row = HostConnectorType_DOCKER → (ho_InstanceCount row + 1 < 2 ^ 31)%Z →
  marshal_config (hsp_StartupConfig p) = Ok j →
  ∃ r w' row', HostRepo_Restart id p t w = (r, w') ∧ host_is id d0 now row' w' ∧
    match r with Ok _ => runs_anew id p j row row' w' | Fail e => interrupted id p row row' e w' end ∧
    (obedient → r = Ok tt).
Proof.
  intros H Hc Hb Hj. unfold HostRepo_Restart. rewrite (bind_Ok _ _ _ _ _ (get_host_run _ _ _ _ _ H)).
  unfold bind at 1, lift at 1, getConnector at 1. rewrite Hc, bool_decide_eq_true_2 by done.
  update H (ho_with_status HeadlessHostStatus_STOPPING) w1 E1. rewrite (bind_Ok _ _ _ _ _ (attempt_run _ _ _ _ E1)).
  set (stop := if (ho_Status row =? _)%Z then _ else _).
  assert (preserves abroad stop) as Hstop by (unfold stop; case_match; [apply conn_Stop_abroad|by intros ?]).
  outside H stop w1 u w2 E2 Hstop; [rewrite (bind_Ok _ _ _ _ _ E2)|rewrite (bind_Fail _ _ _ _ _ E2)].
  2: { unfold stop in E2. destruct (_ =? _)%Z; [|done]. do 3 eexists. split; [done|]. split; [exact H|]. split.
       - repeat split. left. repeat split. exists t, w1, w2. split; [by left|done].
       - intros (Ho & _). exfalso. specialize (Ho (ho_ConnectString row) t w1). by rewrite E2 in Ho. }
  outside H (conn_Remove (ho_ConnectString row)) w2 u' w3 E3 (conn_Remove_abroad (ho_ConnectString row));
    [rewrite (bind_Ok _ _ _ _ _ E3)|rewrite (bind_Fail _ _ _ _ _ E3)].
  2: { do 3 eexists. split; [done|]. split; [exact H|]. split.
       - repeat split. left. repeat split. exists t, w2, w3. split; [by right|done].
       - intros (_ & Ho & _). specialize (Ho (ho_ConnectString row) w2). by rewrite E3 in Ho. }
  update H (ho_with_memo (Some (hsp_Memo p))) w4 E4. rewrite (bind_Ok _ _ _ _ _ (on_err_run wrap_host _ _ _ _ E4)).
  update H (ho_with_policy (hsp_AutoUpdatePolicy p)) w5 E5. rewrite (bind_Ok _ _ _ _ _ (on_err_run wrap_host _ _ _ _ E5)).
  update H (ho_with_status HeadlessHostStatus_STARTING) w6 E6. rewrite (bind_Ok _ _ _ _ _ (attempt_run _ _ _ _ E6)).
  destruct (increment_run _ _ _ _ _ H Hb) as (w7 & E7 & H7 & O7). clear H. rename H7 into H. rewrite (bind_Ok _ _ _ _ _ (on_err_run wrap_host _ _ _ _ E7)).
  set (sp := mkHostStart _ _ _ _ _). change sp with (next_container id p row). destruct u'.
  assert (∀ answer w8 w', conn_Start (next_container id p row) w7 = (answer, w8) → w_outside w' = w_outside w8 →
    container_asked id p row answer w') as Hasked by (intros answer w8 w' ? ?; exists w2, w3, w7, w8; repeat split; [done|congruence|done..]).
  outside H (conn_Start (next_container id p row)) w7 cs w8 E8 (conn_Start_abroad (next_container id p row));
    [rewrite (bind_Ok _ _ _ _ _ E8)|rewrite (bind_Fail _ _ _ _ _ E8)].
  2: { do 3 eexists. split; [done|]. split; [exact H|]. split; [repeat split; right; repeat split; by eapply Hasked|].
       intros (_ & _ & Ho). specialize (Ho (next_container id p row) w7). by rewrite E8 in Ho. }
  update H (ho_with_connect cs) w9 E9. rewrite (bind_Ok _ _ _ _ _ (on_err_run wrap_host _ _ _ _ E9)).
  update H (ho_with_status HeadlessHostStatus_RUNNING) w10 E10. rewrite (bind_Ok _ _ _ _ _ (attempt_run _ _ _ _ E10)).
  unfold bind at 1, lift. rewrite Hj. update H (ho_with_config j) w11 E11.
  do 3 eexists. split; [exact (on_err_run wrap_host _ _ _ _ E11)|]. split; [exact H|]. split; [|done].
  exists cs. split; [|by repeat split]. eapply Hasked; [reflexivity|congruence].
Qed.
End Lifecycle.

(** C28. Restarting a host, with a database that works: either the old
    container was removed, the runtime was asked for a container of the next
    instance with the image, account and configuration given, and the host runs
    at the very address it answered, counted as one more instance, with the
    configuration, the memo and the policy it was given; or the restart failed
    with what the runtime answered, and the host is left STOPPING, when
    stopping or removing the old container failed, or STARTING, when the old
    one was removed and the new one did not start.  Nothing else changes in the
    store.  If the runtime does what it is asked, it is the former. *)
Theorem Restart_exact (CM : ConfigMessages) (CC : ContainerClient) (CN : HostConnector) (CL : ConnectorLaws)
    (id : string) (p : HeadlessHostStartParams) (t : Z) (w : World) (row : HostRow) (j : Json) :
  w_faults w = [] → t_hosts (w_db w) !! id = Some row → ho_ConnectorType row = HostConnectorType_DOCKER →
  (ho_InstanceCount row + 1 < 2 ^ 31)%Z → marshal_config (hsp_StartupConfig p) = Ok j →
  ∃ r w' row', HostRepo_Restart id p t w = (r, w') ∧ w_db w' = set_hosts (<[id := row']>) (w_db w) ∧
    match r with Ok _ => runs_anew id p j row row' w' | Fail e => interrupted id p row row' e w' end ∧
    (obedient → r = Ok tt).
Proof.
  intros Hw Hrow Hc Hb Hj. assert (host_is id (w_db w) (w_now w) row w) as H.
  { split; [done|]. split; [|done]. unfold set_hosts. rewrite insert_id by done. by destruct (w_db w). }
  destruct (restart_from id p t _ _ row w j H Hc Hb Hj) as (r & w' & row' & E & (_ & Hd & _) & Hr & Ho). exists r, w', row'. done.
Qed.

(** ** Starting *)

(** C29. Starting a host: if the container was started but its row was refused,
    for whatever reason, then the last things the runtime is asked, with the
    address it had answered, are to stop the container, with a grace of ten
    seconds, and then, whatever it answered to that, to remove it; the store is
    as before and the caller gets an error.  Failures of these two calls are
    ignored, as the source says, and then the container stays.  Otherwise the
    row is there, with the address of the container; and a container that could
    not be started leaves the store as it was. *)
Theorem Start_leaves_no_orphan (CM : ConfigMessages) (CC : ContainerClient) (CN : HostConnector) (CL : ConnectorLaws)
    (p : HeadlessHostStartParams) (us : option string) (w : World) (j : Json) :
  marshal_config (hsp_StartupConfig p) = Ok j →
  let id := w_uniuri w (w_draws w) in
  match conn_Start (mkHostStart id 1 (hsp_ContainerImageTag p) (hsp_HeadlessAccount p) (hsp_StartupConfig p)) (with_draws (S (w_draws w)) w) with
  | (Fail e, w2) => HostRepo_Start HostConnectorType_DOCKER p us w = (Fail e, w2) ∧ w_db w2 = w_db w
  | (Ok cs, w2) =>
      (∃ w3 row, HostRepo_Start HostConnectorType_DOCKER p us w = (Ok id, w3) ∧ w_db w3 = set_hosts (<[id := row]>) (w_db w) ∧
         t_hosts (w_db w) !! id = None ∧ ho_ConnectString row = cs ∧ ho_LastStartupConfig row = j ∧ ho_InstanceCount row = 1%Z) ∨
      (∃ e w3, HostRepo_Start HostConnectorType_DOCKER p us w = (Fail e, (conn_Remove cs (conn_Stop cs 10 w3).2).2) ∧
         w_db w3 = w_db w ∧ w_outside w3 = w_outside w2 ∧ w_db (conn_Remove cs (conn_Stop cs 10 w3).2).2 = w_db w)
  end.
Proof.
  intros Hj id. set (sp := mkHostStart _ _ _ _ _). set (w1 := with_draws _ w).
  assert (HostRepo_Start HostConnectorType_DOCKER p us w =
    (let* newConnectStr := conn_Start sp in
     let* now := gets w_now in
     let* dbHost := attempt (CreateHost (mkCreateHost id (hsp_Name p) HeadlessHostStatus_RUNNING (HeadlessAccount_ResoniteID (hsp_HeadlessAccount p))
       (match us with Some u => if bool_decide (u = EmptyString) then None else Some u | None => None end) j 1 HostConnectorType_DOCKER newConnectStr
       (Some now) (hsp_AutoUpdatePolicy p) (Some (hsp_Memo p)) 1 (hsp_GroupID p))) in
     match dbHost with
     | Ok h => ret (ho_ID h)
     | Fail err => attempt (conn_Stop newConnectStr createHostCleanupStopGrace) ;;; attempt (conn_Remove newConnectStr) ;;; fail (wrap_host err)
     end) w1) as HS.
  { unfold HostRepo_Start. unfold bind at 1, lift, getConnector. rewrite bool_decide_eq_true_2 by done. unfold bind at 1, lift. rewrite Hj. done. }
  pose proof (conn_Start_abroad sp w1) as (D1 & _). destruct (conn_Start sp w1) as [[cs|e] w2] eqn:E; simpl in D1;
    [rewrite (bind_Ok _ _ _ _ _ E) in HS|rewrite (bind_Fail _ _ _ _ _ E) in HS; by split].
  unfold bind at 1, gets in HS. set (cp := mkCreateHost _ _ _ _ _ _ _ _ _ _ _ _ _ _) in HS. pose proof (exec_outside (x_CreateHost cp) w2) as Hout.
  change (exec (x_CreateHost cp) w2) with (CreateHost cp w2) in Hout. destruct (CreateHost cp w2) as [r w3] eqn:Ec. simpl in Hout.
  rewrite (bind_Ok _ _ _ _ _ (attempt_run _ _ _ _ Ec)) in HS. apply exec_inv in Ec as [_ [(row & d & -> & Hx & Hd)|(e & -> & Hd)]].
  - left. unfold x_CreateHost, check in Hx. destruct (negb _) eqn:Hn; [|done]. destruct (present _ (t_groups _)); [|done].
    destruct (opt_present _ _); [|done]. injection Hx as <- <-. exists w3, (new_host_row cp (w_now w2)). rewrite Hd, D1. rewrite negb_true_iff in Hn.
    apply bool_decide_eq_false in Hn. rewrite D1 in Hn. split; [exact HS|]. repeat split. by apply eq_None_not_Some.
  - right. exists (wrap_host e), w3. assert (w_db w3 = w_db w) as E3 by (by rewrite Hd, D1).
    pose proof (conn_Stop_abroad cs 10 w3) as (D4 & _). unfold bind, attempt, createHostCleanupStopGrace in HS.
    destruct (conn_Stop cs 10 w3) as [r4 w4]. simpl in *. pose proof (conn_Remove_abroad cs w4) as (D5 & _). destruct (conn_Remove cs w4) as [r5 w5].
    simpl in *. split; [exact HS|]. split; [exact E3|]. split; [exact Hout|]. by rewrite D5, D4.
Qed.

(** ** Hosts: what a page of logs shows

    [HeadlessHostGetLogs] asks for one line more than the page holds, to know
    whether there are more. *)

From stdpp Require Import base gmap strings list sorting.


(** The lines of a list of rows, those that cannot be read left out. *)
Definition lines_of (rows : list ContainerLogRow) : list LogLine :=
  omap (λ row, match parseContainerLogRow row with Ok l => Some l | Fail _ => None end) rows.
(** The rows that a request asks for, newest first and without a limit. *)
Definition rows_asked (p : GetLogsParams) (d : DB) : list ContainerLogRow :=
  order_by newest_log_first (List.filter (log_wanted (mkLogsByTag (log_tag (glp_HostID p) (glp_InstanceID p)) (glp_BeforeID p) (glp_AfterID p) 0))
    (rows_of (t_container_logs d))).
Definition page_size (p : GetLogsParams) : Z := if (glp_Limit p <=? 0)%Z then 100%Z else glp_Limit p.

Lemma filter_ext_eq {A} (f g : A → bool) l : (∀ x, f x = g x) → List.filter f l = List.filter g l.
Proof. intros H. induction l as [|x l IH]; simpl; [done|]. by rewrite H, IH. Qed.

Lemma drop_last_rev (l : list LogLine) : l ≠ [] → drop_last (rev l) = Ok (rev (drop 1 l)).
Proof.
  destruct l as [|x l]; [done|]. intros _. unfold drop_last. simpl. destruct (rev l ++ [x]) eqn:E; [by destruct (rev l)|]. rewrite <-E. f_equal.
  rewrite length_app. simpl. rewrite Nat.add_sub. by rewrite take_app_length.
Qed.

Lemma lines_of_take n rows : Forall (λ r, is_Ok (parseContainerLogRow r) = true) rows → lines_of (take n rows) = take n (lines_of rows).
Proof.
  intros H. revert n. induction H as [|r rows Hr _ IH]; intros n; [by destruct n|].
  destruct n as [|n]; [done|]. unfold lines_of in *. simpl. destruct (parseContainerLogRow r); [|done]. simpl. by rewrite IH.
Qed.

Lemma HostRepo_GetLogs_run p w : w_faults w = [] → (0 < glp_Limit p)%Z →
  HostRepo_GetLogs p w = (Ok (rev (lines_of (take (Z.to_nat (glp_Limit p)) (rows_asked p (w_db w))))), w).
Proof.
  intros Hw Hl. unfold HostRepo_GetLogs, GetContainerLogsByTag. rewrite (proj2 (Z.leb_gt _ _) Hl).
  rewrite (bind_Ok _ _ _ _ _ (reads_run _ _ w (reads_query _) Hw)). simpl. by rewrite (proj2 (Z.ltb_lt _ _) Hl).
Qed.
Lemma requireHostRead_only_faults ctx id w : only_faults w (requireHostRead ctx id w).2.
Proof.
  exact (proj1 (reads_bind _ _ _ _ (HostRepo_GetGroupID_reads id) (λ g, RequireAnyPermissionForGroup_reads ctx g [PermKey_HostRead; PermKey_HostWrite]) w)).
Qed.

(** C30. A page of the log of an instance, for a caller who may read the host
    and rows that can all be read: of the lines asked for, the newest ones up
    to the size of the page; but if there are more than that, the newest line
    of all is left out, and one older line shown in its place. *)
Theorem logs_page_exact (ctx : Ctx) (p : GetLogsParams) (w : World) :
  w_faults w = [] → (glp_Limit p < 2 ^ 31 - 1)%Z → requireHostRead ctx (glp_HostID p) w = (Ok tt, w) →
  Forall (λ r, is_Ok (parseContainerLogRow r) = true) (rows_asked p (w_db w)) →
  let lines := lines_of (rows_asked p (w_db w)) in
  let n := Z.to_nat (page_size p) in
  let more := bool_decide (n < length lines) in
  HostUC_GetLogs ctx p w =
    (Ok (mkLogsResult (rev (if more then take n (drop 1 lines) else lines))
           (more && negb ((glp_BeforeID p <=? 0) && (0 <? glp_AfterID p))%Z)
           (more && ((glp_BeforeID p <=? 0) && (0 <? glp_AfterID p))%Z)), w).
Proof.
  intros Hw Hb Hread Hok lines n more. unfold HostUC_GetLogs. rewrite (bind_Ok _ _ _ _ _ Hread). fold (page_size p). cbv zeta.
  assert (0 < page_size p < 2 ^ 31 - 1)%Z as Hp by (unfold page_size; case_match eqn:E; [lia|apply Z.leb_gt in E; lia]).
  rewrite int32_id by lia.
  rewrite (bind_Ok _ _ _ _ _ (HostRepo_GetLogs_run (mkGetLogs _ _ (page_size p + 1) _ _) w Hw ltac:(simpl; lia))). simpl glp_Limit.
  change (rows_asked (mkGetLogs _ _ _ _ _)) with (rows_asked p). rewrite lines_of_take by done. fold lines.
  replace (Z.to_nat (page_size p + 1)) with (S n) by lia.
  rewrite length_rev, length_take.
  assert ((page_size p + 1 <=? Z.of_nat (S n `min` length lines))%Z = more) as ->.
  { unfold more. case_bool_decide; [apply Z.leb_le|apply Z.leb_gt]; lia. }
  destruct more eqn:Em.
  - apply bool_decide_eq_true in Em. destruct lines as [|l0 lines'] eqn:El; [simpl in Em; lia|].
    rewrite drop_last_rev by done. simpl. unfold bind, lift, ret. simpl.
    destruct (0 <? glp_BeforeID p)%Z eqn:E1, (0 <? glp_AfterID p)%Z eqn:E2, (glp_BeforeID p <=? 0)%Z eqn:E3; rewrite ?Z.ltb_lt, ?Z.ltb_ge, ?Z.leb_gt, ?Z.leb_le in *; simpl;
      try lia; rewrite ?drop_0; done.
  - apply bool_decide_eq_false in Em. rewrite take_ge by lia. unfold bind, ret. simpl. by repeat case_match.
Qed.
