(* ===== verification/HostWitness.v ===== *)
(** * Hosts: a concrete runtime

    A container runtime that obeys, and one that refuses to start containers;
    the properties of the host files apply to them. *)

From S2P Require Import Prelude Entity Json Headless StateCache Digest Models Queries Ports PermissionUsecase Repositories Resources SessionRepo.
From S2P Require Import PlainJson PermissionDecisions PermissionSystem PermissionSafety PermissionTheorems NotificationService Claims SessionUsecase SessionSafety SessionRedelivery SessionWitness.
From S2P Require Import Messages HostQueries HostRepo HostUsecase HostSafety HostTheorems HostLifecycle.
From stdpp Require Import base gmap strings list.
From Stdlib Require Import ZArith Lia.
#[local] Existing Instance raw_parameters.
#[local] Existing Instance quiet_container.
#[local] Existing Instance quiet_outside.

(** ** Messages and runtime *)

Definition config_is_zero (c : StartupConfig) : bool :=
  match c with mkStartupConfig None None None None [] [] [] => true | _ => false end.
Lemma config_is_zero_true c : config_is_zero c = true → c = config_zero.
Proof. destruct c as [[] [] [] [] [] [] []]; simpl; by intros [=]. Qed.

#[local] Instance plain_config_json : ProtoJSON StartupConfig.
Proof.
  refine {| protojson_Marshal c := Ok (if config_is_zero c then JObj [] else enc (Codec := codec_config) c);
            protojson_Unmarshal j := protojson_Unmarshal (ProtoJSON := proto_via config_zero codec_config ltac:(not_object)) j |}.
  intros c j [= <-]. destruct (config_is_zero c) eqn:E; [by rewrite (config_is_zero_true c E)|].
  by apply (protojson_roundtrip (ProtoJSON := proto_via config_zero codec_config ltac:(not_object))).
Defined.
#[local] Instance plain_config : ConfigMessages := {| config_empty_object := eq_refl; config_empty_written := eq_refl |}.

(** a runtime that starts containers if told to *)
#[local] Instance local_runtime (starts : bool) : HostConnector := {
  conn_GetStatus _ := ret HeadlessHostStatus_RUNNING;
  conn_GetRpcClient c := ret c;
  conn_ListContainerTags _ := ret [mkContainerImage "2026.1.1" "2026.1.1" false "1.0.0"];
  conn_PullContainerImage t := ret t;
  conn_Start p := if starts then ret ("c-" +:+ hs_p_ID p) else fail (EMsg "no space left on device");
  conn_Stop _ _ := ret tt;
  conn_Kill _ := ret tt;
  conn_Remove _ := ret tt }.
#[local] Instance local_runtime_laws (starts : bool) : ConnectorLaws (CN := local_runtime starts).
Proof.
  split; [typeclasses eauto|intros; simpl..]; try apply ret_abroad. destruct starts; [apply ret_abroad|]. by intros w.
Qed.

(** ** Witnesses *)

Lemma sessions_world_hosts : hosts_keyed (w_db sessions_world).
Proof.
  intros id r. change (t_hosts (w_db sessions_world)) with (<["h1" := alice_host]> (∅ : gmap string HostRow)).
  intros [[<- <-]|[_ H]]%lookup_insert_Some; [done|by rewrite lookup_empty in H].
Qed.

(** Alice has no account of her own, so the host she kills is the one that is
    there. *)
Lemma host_changes_authorised_witness :
  let w' := (host_call (CN := local_runtime true) (user_ctx "alice") (CallHostKill "h1") sessions_world).2 in
  ho_Status <$> t_hosts (w_db w') !! "h1" = Some HeadlessHostStatus_EXITED ∧
  se_Status <$> t_sessions (w_db w') !! "s1" = Some SessionStatus_ENDED ∧
  host_permitted (user_ctx "alice") (CallHostKill "h1") (w_db sessions_world) (w_db w').
Proof.
  intros w'. split; [vm_compute; reflexivity|]. split; [vm_compute; reflexivity|].
  exact (host_changes_authorised _ _ _ (local_runtime true) (local_runtime_laws true) (user_ctx "alice") (CallHostKill "h1") sessions_world
           sessions_world_keyed sessions_world_hosts).
Defined.

Definition new_config : StartupConfig := mkStartupConfig None (Some 60%Z) None None [] [] [].
Definition alice_account : HeadlessAccount := mkHeadlessAccount "U-a" "cred" "pw" None None "alice-personal" None.
Definition new_params : HeadlessHostStartParams :=
  mkHostStartParams "host" "2026.1.1" alice_account (Some new_config) HostAutoUpdatePolicy_NEVER "memo" "alice-personal".

Lemma Restart_exact_witness :
  ∃ j w' row', marshal_config (Some new_config) = Ok j ∧
    HostRepo_Restart (CN := local_runtime true) "h1" new_params 60 sessions_world = (Ok tt, w') ∧
    w_db w' = set_hosts (<["h1" := row']>) (w_db sessions_world) ∧
    runs_anew (CN := local_runtime true) "h1" new_params j alice_host row' w' ∧ ho_ConnectString row' = "c-h1".
Proof.
  destruct (marshal_config (Some new_config)) as [j|e] eqn:Ej; [|discriminate Ej].
  destruct (Restart_exact plain_config quiet_container (local_runtime true) (local_runtime_laws true) "h1" new_params 60%Z sessions_world alice_host j)
    as (r & w' & row' & E & Hd & Hr & Hok); [reflexivity|reflexivity|reflexivity|reflexivity|exact Ej|].
  assert (r = Ok tt) as -> by (apply Hok; repeat split).
  exists j, w', row'. split; [reflexivity|]. split; [exact E|]. split; [exact Hd|]. split; [exact Hr|].
  destruct Hr as (cs & (wr & wr' & ws & ws' & _ & _ & Hs & _) & (_ & _ & _ & _ & -> & _)). simpl in Hs. unfold ret in Hs. by injection Hs as <- _.
Defined.

Lemma Start_leaves_no_orphan_witness :
  ∃ j w' row, marshal_config (Some new_config) = Ok j ∧
    HostRepo_Start (CN := local_runtime true) HostConnectorType_DOCKER new_params (Some "alice") sessions_world = (Ok (w_uniuri sessions_world (w_draws sessions_world)), w') ∧
    w_db w' = set_hosts (<[w_uniuri sessions_world (w_draws sessions_world) := row]>) (w_db sessions_world) ∧ ho_LastStartupConfig row = j.
Proof.
  destruct (marshal_config (Some new_config)) as [j|e] eqn:Ej; [|discriminate Ej].
  assert (is_Ok (HostRepo_Start (CN := local_runtime true) HostConnectorType_DOCKER new_params (Some "alice") sessions_world).1 = true) as Hok by (vm_compute; reflexivity).
  destruct (Start_leaves_no_orphan plain_config quiet_container (local_runtime true) (local_runtime_laws true) new_params (Some "alice") sessions_world j Ej)
    as [(w3 & row & E & Hd & _ & _ & Hj & _)|(e & w3 & E & _)].
  - exists j, w3, row. split; [reflexivity|]. split; [exact E|]. split; [exact Hd|exact Hj].
  - rewrite E in Hok. discriminate Hok.
Defined.

Definition logged_world : World :=
  with_db (set_container_logs (λ _, list_to_map [log_row 1 "headless-h1-1" "one"; log_row 2 "headless-h1-1" "two"; log_row 3 "headless-h1-1" "three"])
    (w_db hosted_world)) hosted_world.

(** Of three lines a page of two shows the first and the second. *)
Lemma logs_page_exact_witness :
  HostUC_GetLogs (user_ctx "alice") (mkGetLogs "h1" 1 2 0 0) logged_world =
    (Ok (mkLogsResult [mkLogLine 1 1 false "one"; mkLogLine 2 2 false "two"] true false), logged_world).
Proof.
  assert (requireHostRead (user_ctx "alice") "h1" logged_world = (Ok tt, logged_world)) as Hr.
  { destruct (requireHostRead (user_ctx "alice") "h1" logged_world) as [r w'] eqn:E.
    assert (r = Ok tt) as -> by (apply (f_equal fst) in E; vm_compute in E; exact (eq_sym E)).
    f_equal. apply (only_faults_nil logged_world w'); [|reflexivity]. change w' with (snd (Ok tt, w')). rewrite <-E. apply requireHostRead_only_faults. }
  refine (eq_trans (logs_page_exact (user_ctx "alice") (mkGetLogs "h1" 1 2 0 0) logged_world _ _ Hr _) _).
  - reflexivity.
  - vm_compute. reflexivity.
  - apply Forall_forall. intros r Hin. apply list_elem_of_In in Hin. revert r Hin. apply forallb_forall. vm_compute. reflexivity.
  - apply (f_equal (λ r, (Ok r, logged_world))). vm_compute. reflexivity.
Defined.
