(* ===== verification/HostUpgrade.v ===== *)
(** * Hosts: rolling onto a new image

    [src/worker/host_upgrade_orchestrator.go]: a host that opted in is drained
    when a new image appears: no session is admitted, those without users are
    stopped, and when none is left the host is restarted on the new image with
    the configuration taken before.  The goroutines of the code lock the maps
    at each access and a mutex per host around a reconciliation; here one call
    runs after the other, and the locks are left out, like the log lines. *)

From S2P Require Import Prelude Entity Json Headless StateCache Digest Models Queries Ports PermissionUsecase Repositories Resources SessionRepo.
From S2P Require Import Claims SessionUsecase Messages HostEvents HostQueries HostRepo.
From stdpp Require Import base gmap strings list.
From Stdlib Require Import ZArith Lia.

(** ** State *)

Record drainState : Type := mkDrainState { ds_targetTag : string; ds_restartParms : HeadlessHostStartParams; ds_attempts : Z }.

Record Orchestrator : Type := mkOrchestrator {
  drainTargets : gmap string drainState;
  sessionUsers : gmap string (gmap string Z) }.
Definition NewHostUpgradeOrchestrator : Orchestrator := mkOrchestrator ∅ ∅.

Definition defaultRestartStopTimeoutSeconds : Z := 180.
Definition defaultMaxRestartAttempts : Z := 5.

Definition set_drain (f : gmap string drainState → gmap string drainState) (o : Orchestrator) : Orchestrator :=
  mkOrchestrator (f (drainTargets o)) (sessionUsers o).
Definition set_users (f : gmap string (gmap string Z) → gmap string (gmap string Z)) (o : Orchestrator) : Orchestrator :=
  mkOrchestrator (drainTargets o) (f (sessionUsers o)).

(** The orchestrator computes on its own state and the world. *)
Definition Up (A : Type) : Type := M (World * Orchestrator) A.
Definition go {A} (m : Go A) : Up A := λ s, let (r, w) := m (fst s) in (r, (w, snd s)).
Definition on_state (f : Orchestrator → Orchestrator) : Up unit := modify (λ s, (fst s, f (snd s))).
Definition of_state {A} (f : Orchestrator → A) : Up A := gets (λ s, f (snd s)).
(** A call whose error is logged: a panic is not an error. *)
Definition logged {A} (m : Up A) : Up (Result A) :=
  let* r := attempt m in match r with Fail (EPanic v) => fail (EPanic v) | _ => ret r end.

Definition host_draining (hostID : string) (o : Orchestrator) : bool := bool_decide (is_Some (drainTargets o !! hostID)).

(** What the session use case asks before it starts a session. *)
Definition drainer_of (o : Orchestrator) : HostDrainer := {| IsHostDraining h := ret (host_draining h o) |}.

(** ** Counting users *)

Definition user_count (hostID sessionID : string) (o : Orchestrator) : option Z := sessionUsers o !! hostID ≫= lookup sessionID.
Definition set_count (hostID sessionID : string) (n : Z) (o : Orchestrator) : Orchestrator :=
  set_users (λ m, <[hostID := <[sessionID := n]> (default ∅ (m !! hostID))]> m) o.

Definition bumped (hostID sessionID : string) (delta : Z) (o : Orchestrator) : Orchestrator :=
  if bool_decide (hostID = EmptyString) || bool_decide (sessionID = EmptyString) then o
  else set_count hostID sessionID (Z.max (int32 (default 0%Z (user_count hostID sessionID o) + delta)) 0) o.
Definition bumpUserCount (hostID sessionID : string) (delta : Z) : Up unit := on_state (bumped hostID sessionID delta).

Definition forgotten (hostID sessionID : string) (o : Orchestrator) : Orchestrator :=
  match sessionUsers o !! hostID with
  | Some hostMap => set_users (λ m, let hostMap := delete sessionID hostMap in if bool_decide (hostMap = ∅) then delete hostID m else <[hostID := hostMap]> m) o
  | None => o
  end.
Definition forgetSession (hostID sessionID : string) : Up unit := on_state (forgotten hostID sessionID).

Section Orchestration.
Context {SP : StartupParameters} {CM : ConfigMessages} {CC : ContainerClient} {CN : HostConnector}.
(** the stopper wired after construction, if it was *)
Variable sessionStopper : option (Ctx → string → Go unit).

Definition counts_of (sessions : list HeadlessSession) : gmap string Z := foldl (λ m s, <[hs_Id s := hs_UsersCount s]> m) ∅ sessions.
Definition seedSessionUserCache (hostID : string) : Up unit :=
  let* client := go (HostRepo_GetRpcClient hostID) in
  let* sessions := go (rpc_ListSessions client) in
  on_state (set_users (<[hostID := counts_of sessions]>)).

Definition fetchUserCountRPC (hostID sessionID : string) : Up Z :=
  let* client := go (HostRepo_GetRpcClient hostID) in
  let* session := go (rpc_GetSession client sessionID) in
  let count := match session with Some s => hs_UsersCount s | None => 0%Z end in
  on_state (set_count hostID sessionID count) ;;;
  ret count.

(** a count of zero is not taken from the cache *)
Definition userCountForSession (hostID sessionID : string) : Up Z :=
  let* cached := of_state (user_count hostID sessionID) in
  match cached with
  | Some n => if (0 <? n)%Z then ret n else fetchUserCountRPC hostID sessionID
  | None => fetchUserCountRPC hostID sessionID
  end.

(** ** Reconciling one host *)

Definition runningSessionsForHost (hostID : string) : Go (list Session) :=
  let* all := SessionRepo_ListByStatus SessionStatus_RUNNING in
  ret (List.filter (λ s, bool_decide (Session_HostID s = hostID)) all).

Definition stopSession (ctx : Ctx) (sessionID : string) : Go unit :=
  match sessionStopper with
  | Some stopper => stopper ctx sessionID
  | None => fail (EMsg "upgrade-orchestrator: SessionStopper not wired")
  end.

(** how many of the sessions are still there *)
Fixpoint drain_sessions (ctx : Ctx) (hostID : string) (sessions : list Session) (remaining : nat) : Up nat :=
  match sessions with
  | [] => ret remaining
  | s :: sessions' =>
      let* count := logged (userCountForSession hostID (Session_ID s)) in
      match count with
      | Fail _ => drain_sessions ctx hostID sessions' (S remaining)
      | Ok n =>
          if (0 <? n)%Z then drain_sessions ctx hostID sessions' (S remaining)
          else
            let* stopped := logged (go (stopSession ctx (Session_ID s))) in
            match stopped with
            | Fail _ => drain_sessions ctx hostID sessions' (S remaining)
            | Ok _ => forgetSession hostID (Session_ID s) ;;; drain_sessions ctx hostID sessions' remaining
            end
      end
  end.

Definition forget_host (hostID : string) (o : Orchestrator) : Orchestrator := set_users (delete hostID) (set_drain (delete hostID) o).

Definition failure_recorded (hostID : string) (o : Orchestrator) : Orchestrator :=
  match drainTargets o !! hostID with
  | None => o
  | Some state =>
      let attempts := (ds_attempts state + 1)%Z in
      if (defaultMaxRestartAttempts <=? attempts)%Z then forget_host hostID o
      else set_drain (<[hostID := mkDrainState (ds_targetTag state) (ds_restartParms state) attempts]>) o
  end.
Definition recordRestartFailure (hostID : string) : Up unit := on_state (failure_recorded hostID).

Definition restartHost (hostID : string) (state : drainState) : Go unit :=
  HostRepo_Restart hostID (ds_restartParms state) defaultRestartStopTimeoutSeconds.

Definition reconcileHost (ctx : Ctx) (hostID : string) : Up unit :=
  let ctx := WithActAsUser ctx SystemUserID in
  let* state := of_state (λ o, drainTargets o !! hostID) in
  match state with
  | None => ret tt
  | Some state =>
      let* sessions := logged (go (runningSessionsForHost hostID)) in
      match sessions with
      | Fail _ => ret tt
      | Ok sessions =>
          let* remaining := drain_sessions ctx hostID sessions 0 in
          if (0 <? remaining)%nat then ret tt
          else
            let* restarted := logged (go (restartHost hostID state)) in
            match restarted with
            | Fail _ => recordRestartFailure hostID
            | Ok _ => on_state (forget_host hostID)
            end
      end
  end.

(** the order of the hosts is the map's *)
Fixpoint reconcileAllDraining (ctx : Ctx) (ids : list string) : Up unit :=
  match ids with
  | [] => ret tt
  | id :: ids' => reconcileHost ctx id ;;; reconcileAllDraining ctx ids'
  end.

(** ** Enrolling *)

Definition enrollHost (ctx : Ctx) (host : HeadlessHost) (targetTag : string) : Up unit :=
  let hostID := hh_ID host in
  let* client := logged (go (HostRepo_GetRpcClient hostID)) in
  match client with Fail _ => ret tt | Ok client =>
  let* config := logged (go (rpc_GetStartupConfigToRestore client true)) in
  match config with Fail _ | Ok None => ret tt | Ok (Some startupConfig) =>
  let* account := logged (go (GetHeadlessAccount (hh_AccountId host))) in
  match account with Fail _ => ret tt | Ok account =>
  let* already := of_state (host_draining hostID) in
  if already : bool then ret tt
  else
    on_state (set_drain (<[hostID := mkDrainState targetTag
      (mkHostStartParams (hh_Name host) targetTag account (Some startupConfig) (hh_AutoUpdatePolicy host) (hh_Memo host) EmptyString) 0]>)) ;;;
    logged (seedSessionUserCache hostID) ;;;
    reconcileHost ctx hostID
  end end end.

Definition upgrade_wanted (latest : ContainerImage) (h : HeadlessHost) : bool :=
  (hh_Status h =? HeadlessHostStatus_RUNNING)%Z && (hh_AutoUpdatePolicy h =? HostAutoUpdatePolicy_USERS_EMPTY)%Z &&
  negb (bool_decide (hh_AppVersion h = ci_AppVersion latest) && bool_decide (hh_ResoniteVersion h = ci_ResoniteVersion latest)).
Fixpoint enroll_all (ctx : Ctx) (latest : ContainerImage) (hosts : list HeadlessHost) : Up unit :=
  match hosts with
  | [] => ret tt
  | h :: hosts' =>
      (if upgrade_wanted latest h then
         let* draining := of_state (host_draining (hh_ID h)) in
         if draining : bool then ret tt else enrollHost ctx h (ci_Tag latest)
       else ret tt) ;;;
      enroll_all ctx latest hosts'
  end.
Definition handleNewImage (ctx : Ctx) (latest : option ContainerImage) : Up unit :=
  match latest with
  | None => ret tt
  | Some latest =>
      if ci_IsPreRelease latest then ret tt
      else
        let* hosts := logged (go (HostRepo_ListAll false)) in
        match hosts with Fail _ => ret tt | Ok hosts => enroll_all ctx latest hosts end
  end.

(** ** Events *)

Definition Upgrade_HandleHostEvent (ctx : Ctx) (hostID : string) (ev : HostEvent) : Up unit :=
  let continue := let* draining := of_state (host_draining hostID) in if draining : bool then reconcileHost ctx hostID else ret tt in
  match he_Payload ev with
  | UserJoinedSession sid _ _ => bumpUserCount hostID sid 1 ;;; continue
  | UserLeftSession sid _ _ => bumpUserCount hostID sid (-1) ;;; continue
  | SessionEnded sid => forgetSession hostID sid ;;; continue
  | _ => ret tt
  end.

Definition Upgrade_HandleHostEventStreamReset (ctx : Ctx) (hostID : string) : Up unit :=
  on_state (set_users (delete hostID)) ;;;
  let* draining := of_state (host_draining hostID) in
  if draining : bool then logged (seedSessionUserCache hostID) ;;; reconcileHost ctx hostID
  else ret tt.

(** ** The calls the orchestrator gets *)

Inductive UpgradeCall : Type :=
  | NewImage (latest : option ContainerImage)
  | Event (hostID : string) (ev : HostEvent)
  | StreamReset (hostID : string)
  | Tick (ids : list string).
Definition upgrade_call (ctx : Ctx) (c : UpgradeCall) : Up unit :=
  match c with
  | NewImage latest => handleNewImage ctx latest
  | Event h ev => Upgrade_HandleHostEvent ctx h ev
  | StreamReset h => Upgrade_HandleHostEventStreamReset ctx h
  | Tick ids => reconcileAllDraining ctx ids
  end.
End Orchestration.
