(* ===== verification/HostUpgradeSafety.v ===== *)
(** * Hosts: an upgrade spares users, and ends

    What the orchestrator of [HostUpgrade] does to sessions and hosts, whatever
    events, ticks and new images reach it, for every stopper of sessions that
    keeps to its session. *)

From S2P Require Import Prelude Entity Json Headless StateCache Digest Models Queries Ports PermissionUsecase Repositories Resources SessionRepo.
From S2P Require Import PermissionDecisions PermissionSystem PermissionSafety Claims SessionUsecase SessionSafety SessionSearch SessionRedelivery.
From S2P Require Import Messages HostEvents HostQueries HostRepo HostUsecase HostSafety HostTheorems HostUpgrade.
From stdpp Require Import base gmap strings list.
From Stdlib Require Import ZArith Lia.

(** ** Stopping sessions, as the orchestrator relies on it *)

(** Stopping a session leaves every other session and every host alone. *)
Class StopperLaws (stop : Ctx → string → Go unit) : Prop := {
  stop_keeps_to_session ctx sid w : sessions_keyed (w_db w) → row_rel sid kept w (stop ctx sid w).2;
  stop_keeps_keys ctx sid w : sessions_keyed (w_db w) → sessions_keyed (w_db (stop ctx sid w).2) }.

(** The sessions stay under their identifiers. *)
Definition keys_kept (s s' : gmap string SessionRow) : Prop :=
  (∀ id r, s !! id = Some r → se_ID r = id) → ∀ id r, s' !! id = Some r → se_ID r = id.
#[export] Instance keys_kept_preorder : PreOrder keys_kept.
Proof. split; [by intros s H|]. intros s1 s2 s3 H1 H2 H. by apply H2, H1. Qed.

Lemma keys_kept_insert s id r : (∀ r0, s !! id = Some r0 → se_ID r = se_ID r0) → (s !! id = None → se_ID r = id) → keys_kept s (<[id := r]> s).
Proof.
  intros H1 H2 Hk id' r'. destruct (decide (id' = id)) as [->|Hne].
  - rewrite lookup_insert_eq. intros [= <-]. destruct (s !! id) as [r0|] eqn:E; [|by apply H2]. rewrite (H1 r0 eq_refl). by apply Hk.
  - rewrite lookup_insert_ne by done. apply Hk.
Qed.

Lemma UpsertSession_keys p : preserves (sessions_rel keys_kept) (UpsertSession p).
Proof.
  apply rel_exec; [apply _|]. intros t d a d'. unfold x_UpsertSession. destruct (us_p_StartupParameters p) as [j|]; [|done].
  destruct (t_sessions d !! us_p_ID p) as [r|] eqn:E; unfold check; repeat (destruct (opt_present _ _) || destruct (present _ _)); try done;
    intros [= _ <-]; (split; [by destruct d|]); simpl; apply keys_kept_insert; rewrite ?E; try done. by intros r0 [= <-].
Qed.
Lemma keys_kept_keyed w w' : sessions_rel keys_kept w w' → sessions_keyed (w_db w) → sessions_keyed (w_db w').
Proof. intros [_ H]. exact H. Qed.

Section Stopper.
Context {SP : StartupParameters} {CC : ContainerClient} {HC : HostClients} {HD : HostDrainer} {PP : PortProbe} {OL : OutsideLaws}.

#[local] Hint Extern 6 (preserves (sessions_rel _) _) =>
  (apply rel_outside; [typeclasses eauto|]; first [apply GetRpcClient_abroad|apply rpc_StopSession_abroad]) : preserves.
#[local] Hint Extern 4 (preserves (sessions_rel keys_kept) (UpsertSession _)) => apply UpsertSession_keys : preserves.

(** The session use case is such a stopper. *)
#[export] Instance StopSession_laws : StopperLaws SessionUC_StopSession.
Proof.
  split.
  - intros ctx sid w Hk. destruct (StopSession_authorised ctx sid w Hk) as [H|[H _]]; [|exact H].
    eapply at_row_weaken; [|exact H]. apply healed_kept.
  - intros ctx sid w. apply keys_kept_keyed. assert (preserves (sessions_rel keys_kept) (SessionUC_StopSession ctx sid)) as H; [|apply H].
    unfold SessionUC_StopSession, SessionRepo_Upsert. preserve.
Qed.
End Stopper.

(** ** The state of a computation *)

Section Lifting.
Context (Q : DB → DB → Prop) `{!PreOrder Q}.

Definition up_rel (s s' : World * Orchestrator) : Prop := db_rel Q (fst s) (fst s').
#[export] Instance up_rel_preorder : PreOrder up_rel.
Proof. split; [intros s; unfold up_rel; reflexivity|]. intros s1 s2 s3. unfold up_rel. intros ??. by etrans. Qed.
Lemma up_go {A} (m : Go A) : preserves (db_rel Q) m → preserves up_rel (go m).
Proof. intros Hm [w o]. specialize (Hm w). unfold go. simpl. by destruct (m w). Qed.
Lemma up_on_state f : preserves up_rel (on_state f).
Proof. intros [w o]. unfold up_rel. simpl. reflexivity. Qed.
Lemma up_of_state {A} (f : Orchestrator → A) : preserves up_rel (of_state f).
Proof. intros [w o]. unfold up_rel. simpl. reflexivity. Qed.
Lemma up_logged {A} (m : Up A) : preserves up_rel m → preserves up_rel (logged m).
Proof.
  intros Hm s. specialize (Hm s). unfold logged, bind, attempt. destruct (m s) as [[a|[]] s']; exact Hm.
Qed.
End Lifting.
#[export] Hint Resolve up_on_state up_of_state : preserves.

Lemma logged_run {A} (m : Up A) s r s' : m s = (r, s') → logged m s = (match r with Fail (EPanic v) => Fail (EPanic v) | _ => Ok r end, s').
Proof. unfold logged, bind, attempt. intros ->. by destruct r as [a|[]]. Qed.
Lemma logged_Ok {A} (m : Up A) s r s' : logged m s = (Ok r, s') → m s = (r, s').
Proof. unfold logged, bind, attempt. destruct (m s) as [[a|[]] s1]; by intros [= <- <-]. Qed.
Lemma go_run {A} (m : Go A) w o r w' : m w = (r, w') → go m (w, o) = (r, (w', o)).
Proof. unfold go. simpl. by intros ->. Qed.
Lemma go_inv {A} (m : Go A) s r s' : go m s = (r, s') → m (fst s) = (r, fst s') ∧ snd s' = snd s.
Proof. unfold go. destruct (m (fst s)) as [r0 w]. by intros [= <- <-]. Qed.

(** ** Which sessions run *)

Section Running.
Context {SP : StartupParameters}.

Lemma SessionID_entity r : sessionToEntity r = Ok (entity r) → Session_ID (entity r) = se_ID r.
Proof. unfold sessionToEntity. destruct (protojson_Unmarshal _); simpl; [|done]. by intros [= <-]. Qed.

Lemma elem_of_sessions_where p d r : r ∈ sessions_where p d ↔ p r = true ∧ ∃ id, t_sessions d !! id = Some r.
Proof.
  unfold sessions_where. rewrite order_by_Permutation, list_elem_of_In, List.filter_In, <-list_elem_of_In. unfold rows_of. rewrite list_elem_of_fmap.
  split; [intros [([i r'] & -> & Hi%elem_of_map_to_list) Hp]; by split; [|exists i]|].
  intros [Hp [i Hi]]. split; [|done]. exists (i, r). split; [done|]. by apply elem_of_map_to_list.
Qed.

(** The sessions that are found are those that run on the host. *)
Lemma runningSessions_run h w r w' : runningSessionsForHost h w = (r, w') →
  only_faults w w' ∧ ∀ l, r = Ok l →
    (∀ sid row, t_sessions (w_db w) !! sid = Some row → runs_on h row → ∃ s, s ∈ l ∧ Session_ID s = se_ID row) ∧
    (∀ s, s ∈ l → ∃ sid row, t_sessions (w_db w) !! sid = Some row ∧ runs_on h row).
Proof.
  unfold runningSessionsForHost, SessionRepo_ListByStatus. intros H.
  assert (reads (on_err wrap_session (ListSessionsByStatus SessionStatus_RUNNING)) (λ t d, map_err wrap_session (q_ListSessionsByStatus SessionStatus_RUNNING t d))) as Hrd
    by exact (on_err_reads _ _ _ (reads_query (q_ListSessionsByStatus SessionStatus_RUNNING))).
  destruct (on_err wrap_session (ListSessionsByStatus SessionStatus_RUNNING) w) as [[rows|e] w1] eqn:E;
    apply (reads_inv _ _ _ _ _ Hrd) in E as E'; destruct E' as [Hof Hrows].
  - specialize (Hrows rows eq_refl). injection Hrows as <-. unfold bind at 1 in H. rewrite (bind_Ok _ _ _ _ _ E) in H. unfold lift in H.
    destruct (sessions_to_entities _) as [es|e] eqn:Ees; injection H as <- <-; (split; [done|]); [|done]. intros l [= <-].
    apply entities_Ok in Ees as [-> Hd]. rewrite Forall_forall in Hd. split.
    + intros sid row Hl [Hh Hs]. assert (row ∈ sessions_where (λ r, (se_Status r =? SessionStatus_RUNNING)%Z) (w_db w)) as Hin
        by (apply elem_of_sessions_where; split; [by apply Z.eqb_eq|by exists sid]).
      exists (entity row). split; [|by apply SessionID_entity, Hd].
      rewrite list_elem_of_In, List.filter_In, <-list_elem_of_In, bool_decide_eq_true. split; [by apply list_elem_of_fmap_2|].
      destruct (session_entity_fields row (Hd _ Hin)) as [-> _]. done.
    + intros s. rewrite list_elem_of_In, List.filter_In, <-list_elem_of_In, bool_decide_eq_true, list_elem_of_fmap. intros [(row & -> & Hin) Hh].
      destruct (session_entity_fields row (Hd _ Hin)) as [Eh _]. apply elem_of_sessions_where in Hin as [Hs%Z.eqb_eq (sid & Hl)].
      exists sid, row. split; [done|]. split; [congruence|done].
  - unfold bind at 1 in H. rewrite (bind_Fail _ _ _ _ _ E) in H. injection H as <- <-. by split.
Qed.
End Running.

(** ** Users are spared *)

Section Spared.
Context {SP : StartupParameters} {CM : ConfigMessages} {CC : ContainerClient} {CN : HostConnector} {CL : ConnectorLaws}.
Context (stop : Ctx → string → Go unit) {SL : StopperLaws stop}.

(** The containers report the users that are there. *)
Definition truthful (users : string → Z) : Prop :=
  ∀ c sid w o, (rpc_GetSession c sid w).1 = Ok o → (match o with Some s => hs_UsersCount s | None => 0%Z end) = users sid.

Context (users : string → Z) (Htrue : truthful users) (sid : string) (row : SessionRow) (Hbusy : (0 < users sid)%Z) (Hrun : se_Status row = SessionStatus_RUNNING).

(** The session and its host are as they were. *)
Definition spared (d d' : DB) : Prop :=
  sessions_keyed d → hosts_keyed d → t_sessions d !! sid = Some row →
  sessions_keyed d' ∧ hosts_keyed d' ∧ t_sessions d' !! sid = Some row ∧ t_hosts d' !! se_HostID row = t_hosts d !! se_HostID row.
#[local] Instance spared_preorder : PreOrder spared.
Proof.
  split; [done|]. intros d1 d2 d3 H1 H2 K1 G1 L1. destruct (H1 K1 G1 L1) as (K2 & G2 & L2 & E2). destruct (H2 K2 G2 L2) as (K3 & G3 & L3 & E3).
  split; [done|]. split; [done|]. split; [done|]. congruence.
Qed.
Abbreviation S := (up_rel spared).

#[local] Hint Extern 6 (preserves (db_rel _) _) =>
  (apply db_rel_abroad; [typeclasses eauto|]; first [apply conn_GetRpcClient_abroad|apply rpc_ListSessions_abroad|apply rpc_GetSession_abroad
     |apply rpc_GetStartupConfigToRestore_abroad]) : preserves.
#[local] Hint Extern 4 (preserves (up_rel _) (go _)) => (apply up_go) : preserves.
#[local] Hint Extern 4 (preserves (up_rel _) (logged _)) => (apply up_logged) : preserves.
#[local] Hint Extern 4 (preserves (up_rel _) (on_state _)) => (apply up_on_state; typeclasses eauto) : preserves.
#[local] Hint Extern 4 (preserves (up_rel _) (of_state _)) => (apply up_of_state; typeclasses eauto) : preserves.

Lemma same_spared {A} (m : Go A) : preserves (db_rel eq) m → preserves (db_rel spared) m.
Proof. apply preserves_weaken. unfold db_rel. intros w w' ->. reflexivity. Qed.
Lemma HostRepo_GetRpcClient_same h : preserves (db_rel eq) (HostRepo_GetRpcClient h).
Proof. unfold HostRepo_GetRpcClient, GetHost. preserve. Qed.
#[local] Hint Extern 3 (preserves (db_rel spared) (HostRepo_GetRpcClient _)) => (apply same_spared, HostRepo_GetRpcClient_same) : preserves.

Lemma fetch_spared h s : preserves S (fetchUserCountRPC h s).
Proof. unfold fetchUserCountRPC. preserve. Qed.
#[local] Hint Resolve fetch_spared : preserves.
Lemma userCount_spared h s : preserves S (userCountForSession h s).
Proof. unfold userCountForSession. preserve. Qed.
Lemma seed_spared h : preserves S (seedSessionUserCache h).
Proof. unfold seedSessionUserCache. preserve. Qed.
#[local] Hint Resolve userCount_spared seed_spared : preserves.

(** The count of a session with users is not zero, from the cache or not. *)
Lemma userCount_busy h s n s' : userCountForSession h sid s = (Ok n, s') → (0 < n)%Z.
Proof.
  intros (cached & s1 & Hc & H)%bind_inv_Ok. injection Hc as <- <-.
  assert (∀ s1 n s', fetchUserCountRPC h sid s1 = (Ok n, s') → (0 < n)%Z) as Hf.
  { intros s1 n1 s1' (c & s2 & _ & H1)%bind_inv_Ok. apply bind_inv_Ok in H1 as (o & s3 & Hg & H1). apply bind_inv_Ok in H1 as ([] & s4 & _ & H1).
    injection H1 as <- _. apply go_inv in Hg as [Hg _]. rewrite (Htrue c sid (fst s2) o); [done|]. by rewrite Hg. }
  destruct (user_count h sid (snd s)) as [n0|]; [|by eapply Hf]. destruct (0 <? n0)%Z eqn:E; [|by eapply Hf]. injection H as <- _. by apply Z.ltb_lt.
Qed.

Lemma stop_spared ctx id : id ≠ sid → preserves (db_rel spared) (stopSession (Some stop) ctx id).
Proof.
  intros Hne w Hk Hh Hl. simpl. pose proof (stop_keeps_to_session ctx id w Hk) as [[Hd _] [Hs _]].
  split; [by apply stop_keeps_keys|]. rewrite Hd. split; [exact Hh|]. split; [|done]. rewrite <-Hl. by apply Hs.
Qed.

(** Draining passes by a session with users, and then something remains. *)
Lemma drain_spared ctx h l n : preserves S (drain_sessions (Some stop) ctx h l n).
Proof.
  revert n. induction l as [|s l IH]; intros n; simpl; [preserve|]. intros st.
  pose proof (up_logged spared _ (userCount_spared h (Session_ID s)) st) as H1. destruct (logged (userCountForSession h (Session_ID s)) st) as [[r|e] st1] eqn:E;
    [rewrite (bind_Ok _ _ _ _ _ E)|by rewrite (bind_Fail _ _ _ _ _ E)]. simpl in H1. etrans; [exact H1|]. clear H1.
  destruct r as [c|e]; [|apply IH]. destruct (0 <? c)%Z eqn:Ec; [apply IH|].
  destruct (decide (Session_ID s = sid)) as [Hs|Hs].
  { exfalso. apply logged_Ok in E. rewrite Hs in E. apply userCount_busy in E. apply Z.ltb_ge in Ec. lia. }
  assert (preserves S (let* stopped := logged (go (stopSession (Some stop) ctx (Session_ID s))) in
    match stopped with Fail _ => drain_sessions (Some stop) ctx h l (Datatypes.S n) | Ok _ => forgetSession h (Session_ID s) ;;; drain_sessions (Some stop) ctx h l n end)) as Hp; [|exact (Hp st1)].
  apply preserves_bind; [apply _|apply up_logged, up_go; by apply stop_spared|]. intros [?|?]; [|apply IH].
  apply preserves_bind; [apply _|unfold forgetSession; preserve|]. intros _. apply IH.
Qed.

Lemma drain_remaining ctx h l n st m st' : drain_sessions (Some stop) ctx h l n st = (Ok m, st') →
  n ≤ m ∧ ((∃ s, s ∈ l ∧ Session_ID s = sid) → n < m).
Proof.
  revert n st. induction l as [|s l IH]; intros n st; simpl.
  { intros [= <- _]. split; [done|]. intros (s & Hin & _). by apply elem_of_nil in Hin. }
  intros (r & st1 & E & H)%bind_inv_Ok. apply logged_Ok in E.
  assert (∀ n', drain_sessions (Some stop) ctx h l n' st1 = (Ok m, st') → n < n' → n ≤ m ∧ ((∃ s0, s0 ∈ s :: l ∧ Session_ID s0 = sid) → n < m)) as Hmore.
  { intros n' Hd Hn. apply IH in Hd as [Hd _]. split; [lia|]. intros _. lia. }
  destruct r as [c|e]; [|apply (Hmore _ H); lia]. destruct (0 <? c)%Z eqn:Ec; [apply (Hmore _ H); lia|]. clear Hmore.
  assert (Session_ID s ≠ sid) as Hne. { intros Hs. rewrite Hs in E. apply userCount_busy in E. apply Z.ltb_ge in Ec. lia. }
  assert (∀ n' st1, drain_sessions (Some stop) ctx h l n' st1 = (Ok m, st') → n ≤ n' → n ≤ m ∧ ((∃ s0, s0 ∈ s :: l ∧ Session_ID s0 = sid) → n < m)) as Hrest.
  { intros n' st2 Hd Hn. apply IH in Hd as [Hd Hd']. split; [lia|]. intros (s0 & [->|Hin]%elem_of_cons & Hs0); [done|].
    assert (n' < m) by (apply Hd'; by exists s0). lia. }
  apply bind_inv_Ok in H as ([[]|e] & st2 & _ & H); [|apply (Hrest _ _ H); lia].
  apply bind_inv_Ok in H as ([] & st3 & _ & H). apply (Hrest _ _ H). lia.
Qed.

(** Restarting a host on which the session does not run. *)
Lemma restart_spared h st : h ≠ se_HostID row → preserves (db_rel spared) (restartHost h st).
Proof.
  intros Hne w Hk Hh Hl. unfold restartHost. pose proof (HostRepo_Restart_touches h ∅ (ds_restartParms st) defaultRestartStopTimeoutSeconds w Hh) as Ht.
  split; [|split; [by eapply hosts_keyed_touches|split]].
  - intros id r Hr. rewrite (to_sessions _ _ _ _ Ht) in Hr by apply not_elem_of_empty. by apply Hk.
  - rewrite (to_sessions _ _ _ _ Ht) by apply not_elem_of_empty. exact Hl.
  - apply (to_hosts _ _ _ _ Ht). congruence.
Qed.

Lemma reconcile_spared ctx h : preserves S (reconcileHost (Some stop) ctx h).
Proof.
  intros st. unfold reconcileHost. cbv zeta. set (ctx' := WithActAsUser _ _). unfold bind at 1, of_state, gets.
  destruct (drainTargets (snd st) !! h) as [state|]; [|reflexivity].
  destruct (logged (go (runningSessionsForHost h)) st) as [[r|e] st1] eqn:E.
  2: { rewrite (bind_Fail _ _ _ _ _ E). simpl. unfold logged, bind, attempt in E. destruct (go (runningSessionsForHost h) st) as [r s1] eqn:Eg.
       assert (st1 = s1) as -> by (destruct r as [?|[]]; by injection E). apply go_inv in Eg as [Eg _]. apply runningSessions_run in Eg as [Hof _].
       unfold up_rel, db_rel. rewrite (only_faults_db _ _ Hof). reflexivity. }
  rewrite (bind_Ok _ _ _ _ _ E). apply logged_Ok in E. apply go_inv in E as [E _]. apply runningSessions_run in E as [Hof Hl].
  assert (db_rel spared (fst st) (fst st1)) as Hof' by (unfold db_rel; rewrite (only_faults_db _ _ Hof); reflexivity).
  destruct r as [l|e]; [|exact Hof']. specialize (Hl l eq_refl) as [Hl _].
  intros Hk Hh Hrow. pose proof (Hof' Hk Hh Hrow) as (Hk1 & Hh1 & Hrow1 & He1).
  pose proof (drain_spared ctx' h l 0 st1) as Hd. destruct (drain_sessions (Some stop) ctx' h l 0 st1) as [[m|e] st2] eqn:Ed;
    [rewrite (bind_Ok _ _ _ _ _ Ed)|rewrite (bind_Fail _ _ _ _ _ Ed); by apply (spared_preorder.(PreOrder_Transitive) _ _ _ Hof' Hd)].
  simpl in Hd. assert (spared (w_db (fst st)) (w_db (fst st2))) as H2 by (etrans; [exact Hof'|exact Hd]).
  destruct (0 <? m)%nat eqn:Em; [by apply H2|]. apply Nat.ltb_ge in Em.
  assert (h ≠ se_HostID row) as Hne.
  { intros ->. apply drain_remaining in Ed as [_ Hm]. assert (0 < m); [|lia]. apply Hm.
    destruct (Hl sid row Hrow) as (s & Hin & Hs); [by split|]. exists s. split; [done|]. by rewrite Hs; apply Hk. }
  assert (preserves S (let* restarted := logged (go (restartHost h state)) in
    match restarted with Fail _ => recordRestartFailure h | Ok _ => on_state (forget_host h) end)) as Hr.
  { apply preserves_bind; [apply _|apply up_logged, up_go; by apply restart_spared|]. intros [?|?]; [preserve|unfold recordRestartFailure; preserve]. }
  assert (spared (w_db (fst st)) (w_db (fst ((let* restarted := logged (go (restartHost h state)) in
    match restarted with Fail _ => recordRestartFailure h | Ok _ => on_state (forget_host h) end) st2).2))) as H3 by (etrans; [exact H2|exact (Hr st2)]).
  by apply H3.
Qed.
#[local] Hint Resolve reconcile_spared : preserves.

Lemma GetHeadlessAccount_same id : preserves (db_rel eq) (GetHeadlessAccount id).
Proof. unfold GetHeadlessAccount, Queries_GetHeadlessAccount. preserve. Qed.
#[local] Hint Extern 3 (preserves (db_rel spared) (GetHeadlessAccount _)) => (apply same_spared, GetHeadlessAccount_same) : preserves.
Lemma ListAll_same b : preserves (db_rel eq) (HostRepo_ListAll b).
Proof.
  unfold HostRepo_ListAll, ListHosts. apply preserves_bind; [apply _|preserve|intros l; apply dbHostsToEntities_same].
Qed.
#[local] Hint Extern 3 (preserves (db_rel spared) (HostRepo_ListAll _)) => (apply same_spared, ListAll_same) : preserves.

Lemma enroll_spared ctx host tag : preserves S (enrollHost (Some stop) ctx host tag).
Proof. unfold enrollHost. preserve. Qed.
#[local] Hint Resolve enroll_spared : preserves.
Lemma enroll_all_spared ctx latest l : preserves S (enroll_all (Some stop) ctx latest l).
Proof. induction l as [|h l IH]; simpl; preserve. Qed.
#[local] Hint Resolve enroll_all_spared : preserves.
Lemma reconcileAll_spared ctx ids : preserves S (reconcileAllDraining (Some stop) ctx ids).
Proof. induction ids as [|id ids IH]; simpl; preserve. Qed.
#[local] Hint Resolve reconcileAll_spared : preserves.

Lemma upgrade_call_spared ctx c : preserves S (upgrade_call (Some stop) ctx c).
Proof.
  destruct c as [latest|h ev|h|ids]; simpl; [unfold handleNewImage|unfold Upgrade_HandleHostEvent, bumpUserCount, forgetSession|
    unfold Upgrade_HandleHostEventStreamReset|]; preserve.
Qed.
End Spared.

(** Calls one after the other, each with its error or panic contained. *)
Fixpoint upgrade_calls {SP : StartupParameters} {CM : ConfigMessages} {CC : ContainerClient} {CN : HostConnector}
    (stopper : option (Ctx → string → Go unit)) (ctx : Ctx) (cs : list UpgradeCall) : Up unit :=
  match cs with
  | [] => ret tt
  | c :: cs' => attempt (upgrade_call stopper ctx c) ;;; upgrade_calls stopper ctx cs'
  end.

(** C31. Upgrades spare users.  A running session in which the container
    reports users, and the host it runs on, are exactly as before after any
    sequence of new images, events, stream resets and ticks, whatever the
    counters of the orchestrator said and whatever the container runtime
    does. *)
Theorem upgrade_spares_users (SP : StartupParameters) (CM : ConfigMessages) (CC : ContainerClient) (CN : HostConnector) (CL : ConnectorLaws)
    (stop : Ctx → string → Go unit) (SL : StopperLaws stop) (users : string → Z)
    (ctx : Ctx) (cs : list UpgradeCall) (w : World) (o : Orchestrator) (sid : string) (row : SessionRow) :
  truthful users → sessions_keyed (w_db w) → hosts_keyed (w_db w) →
  t_sessions (w_db w) !! sid = Some row → se_Status row = SessionStatus_RUNNING → (0 < users sid)%Z →
  let w' := fst (upgrade_calls (Some stop) ctx cs (w, o)).2 in
  t_sessions (w_db w') !! sid = Some row ∧ t_hosts (w_db w') !! se_HostID row = t_hosts (w_db w) !! se_HostID row.
Proof.
  intros Ht Hk Hh Hrow Hrun Hbusy. assert (preserves (up_rel (spared sid row)) (upgrade_calls (Some stop) ctx cs)) as Hp.
  { induction cs as [|c cs IH]; simpl; [apply preserves_ret, up_rel_preorder, spared_preorder|].
    apply preserves_bind; [apply up_rel_preorder, spared_preorder| |done]. apply preserves_attempt, (upgrade_call_spared stop users); done. }
  destruct (Hp (w, o) Hk Hh Hrow) as (_ & _ & H1 & H2). by split.
Qed.
