(* ===== verification/HostUpgradeExact.v ===== *)
(** * Hosts: a drained host is restarted

    With a database that works: a host without running sessions is upgraded,
    and leaves the drain after at most five attempts. *)

From S2P Require Import Prelude Entity Json Headless StateCache Digest Models Queries Ports PermissionUsecase Repositories Resources SessionRepo PermissionDecisions PermissionSystem PermissionSafety Claims SessionUsecase SessionSafety SessionSearch SessionRedelivery Messages HostEvents HostQueries HostRepo HostUsecase HostSafety HostTheorems HostLifecycle HostUpgrade HostUpgradeSafety PlainJson PermissionTheorems NotificationService SessionWitness HostWitness.


From stdpp Require Import base gmap strings list.
From Stdlib Require Import ZArith Lia.

(** No session runs on the host, and those that run elsewhere can be read. *)
Definition idle {SP : StartupParameters} (h : string) (d : DB) : Prop :=
  ∀ sid row, t_sessions d !! sid = Some row → se_Status row = SessionStatus_RUNNING →
    se_HostID row ≠ h ∧ is_Ok (sessionToEntity row) = true.

(** ** Panics *)

Definition calm {A} (m : Go A) : Prop := ∀ w v, (m w).1 ≠ Fail (EPanic v).

Lemma calm_ret {A} (a : A) : calm (ret a).
Proof. by intros w v. Qed.
Lemma calm_lift {A} (r : Result A) : (∀ v, r ≠ Fail (EPanic v)) → calm (lift r).
Proof. intros H w v. apply H. Qed.
Lemma calm_bind {A B} (m : Go A) (k : A → Go B) : calm m → (∀ a, calm (k a)) → calm (bind m k).
Proof.
  intros Hm Hk w v. specialize (Hm w v). unfold bind. destruct (m w) as [[a|e] w1]; [apply Hk|]. simpl in *. congruence.
Qed.
Lemma calm_attempt {A} (m : Go A) : calm (attempt m).
Proof. intros w v. unfold attempt. by destruct (m w). Qed.
Lemma calm_wrapped {A} (m : Go A) : calm (on_err wrap_host m).
Proof. intros w v. unfold on_err. destruct (m w) as [[a|e] w1]; simpl; [done|]. by unfold wrap_host, wrap_db. Qed.

(** The runtime and the encoding of configurations do not panic. *)
Definition calm_runtime {CM : ConfigMessages} {CC : ContainerClient} {CN : HostConnector} : Prop :=
  (∀ p, calm (conn_Start p)) ∧ (∀ c t, calm (conn_Stop c t)) ∧ (∀ c, calm (conn_Remove c)) ∧
  (∀ (c : StartupConfig) v, protojson_Marshal c ≠ Fail (EPanic v)).

Lemma restart_calm {CM : ConfigMessages} {CC : ContainerClient} {CN : HostConnector} h st : calm_runtime → calm (restartHost h st).
Proof.
  intros (Hs & Ht & Hr & Hj). unfold restartHost, HostRepo_Restart. apply calm_bind; [apply calm_wrapped|]. intros row.
  apply calm_bind; [apply calm_lift; intros v; unfold getConnector; by case_bool_decide|]. intros _.
  apply calm_bind; [apply calm_attempt|]. intros _. apply calm_bind; [destruct (_ =? _)%Z; [apply Ht|apply calm_ret]|]. intros _.
  apply calm_bind; [apply Hr|]. intros _. do 2 (apply calm_bind; [apply calm_wrapped|]; intros _).
  apply calm_bind; [apply calm_attempt|]. intros _. apply calm_bind; [apply calm_wrapped|]. intros n.
  apply calm_bind; [apply Hs|]. intros cs. apply calm_bind; [apply calm_wrapped|]. intros _. apply calm_bind; [apply calm_attempt|]. intros _.
  apply calm_bind; [apply calm_lift; intros v; apply Hj|]. intros j. apply calm_wrapped.
Qed.

Section Exact.
Context {SP : StartupParameters} {CM : ConfigMessages} {CC : ContainerClient} {CN : HostConnector} {CL : ConnectorLaws}.
Context (stopper : option (Ctx → string → Go unit)).

Lemma runningSessions_idle h w : w_faults w = [] → idle h (w_db w) → runningSessionsForHost h w = (Ok [], w).
Proof.
  intros Hw Hi. unfold runningSessionsForHost, SessionRepo_ListByStatus.
  assert (reads (on_err wrap_session (ListSessionsByStatus SessionStatus_RUNNING)) (λ t d, map_err wrap_session (q_ListSessionsByStatus SessionStatus_RUNNING t d))) as Hrd
    by exact (on_err_reads _ _ _ (reads_query (q_ListSessionsByStatus SessionStatus_RUNNING))).
  unfold bind at 1. rewrite (bind_Ok _ _ _ _ _ (reads_run _ _ w Hrd Hw)).
  assert (∀ row, row ∈ sessions_where (λ r, (se_Status r =? SessionStatus_RUNNING)%Z) (w_db w) → se_HostID row ≠ h ∧ sessionToEntity row = Ok (entity row)) as Hall.
  { intros row [Hs%Z.eqb_eq (sid & Hl)]%elem_of_sessions_where. destruct (Hi sid row Hl Hs) as [Hne Hok]. split; [done|].
    unfold entity. by destruct (sessionToEntity row). }
  unfold lift. rewrite Ok_entities by (apply Forall_forall; intros row Hin; by apply Hall).
  unfold ret. do 2 f_equal. apply elem_of_nil_inv. intros s.
  rewrite list_elem_of_In, List.filter_In, <-list_elem_of_In, bool_decide_eq_true, list_elem_of_fmap. intros [(row & -> & Hin) Hh].
  destruct (Hall row Hin) as [Hne Hd]. destruct (session_entity_fields row Hd) as [Eh _]. congruence.
Qed.

(** Reconciling such a host is one attempt to restart it. *)
Lemma reconcile_idle ctx h w o st : w_faults w = [] → idle h (w_db w) → drainTargets o !! h = Some st →
  reconcileHost stopper ctx h (w, o) =
    match restartHost h st w with
    | (Ok _, w') => (Ok tt, (w', forget_host h o))
    | (Fail (EPanic v), w') => (Fail (EPanic v), (w', o))
    | (Fail _, w') => (Ok tt, (w', failure_recorded h o))
    end.
Proof.
  intros Hw Hi Hst. unfold reconcileHost. cbv zeta. unfold bind at 1, of_state, gets. simpl. rewrite Hst.
  rewrite (bind_Ok _ _ _ _ _ (logged_run _ _ _ _ (go_run _ w o _ _ (runningSessions_idle h w Hw Hi)))). simpl.
  unfold bind at 1, ret. simpl. destruct (restartHost h st w) as [r w'] eqn:E.
  unfold bind. rewrite (logged_run _ _ _ _ (go_run _ w o _ _ E)). destruct r as [[]|[]]; done.
Qed.

Lemma reconcile_gone ctx h w o : drainTargets o !! h = None → reconcileHost stopper ctx h (w, o) = (Ok tt, (w, o)).
Proof. intros H. unfold reconcileHost. cbv zeta. unfold bind at 1, of_state, gets. simpl. by rewrite H. Qed.

(** ** Restarting keeps what the next attempt needs *)

Definition healthy (w w' : World) : Prop := w_faults w = [] → w_faults w' = [].
#[local] Instance healthy_preorder : PreOrder healthy.
Proof. split; [by intros w H|]. intros w1 w2 w3 H1 H2 H. by apply H2, H1. Qed.
Lemma healthy_exec {A} (f : Instant → DB → Result (A * DB)) : preserves healthy (exec f).
Proof. intros w Hw. rewrite exec_run by done. destruct (f _ _) as [[a d]|e]; [done|]. by destruct w. Qed.
Lemma healthy_query {A} (f : Instant → DB → Result A) : preserves healthy (query f).
Proof. intros w Hw. by rewrite (reads_run _ _ w (reads_query f) Hw). Qed.
Lemma healthy_outside {A} (m : Go A) : preserves abroad m → preserves healthy m.
Proof. apply preserves_weaken. by intros w w' (_ & _ & _ & H). Qed.
#[local] Hint Resolve healthy_exec healthy_query : preserves.
#[local] Hint Extern 6 (preserves healthy _) =>
  (apply healthy_outside; first [apply conn_Start_abroad|apply conn_Stop_abroad|apply conn_Remove_abroad]) : preserves.

Lemma restart_healthy h st : preserves healthy (restartHost h st).
Proof.
  unfold restartHost, HostRepo_Restart, GetHost, UpdateHostStatus, UpdateHostMemo, UpdateHostAutoUpdatePolicy, IncrementHostInstanceCount,
    UpdateHostConnectString, UpdateHostLastStartupConfig. preserve.
Qed.
Lemma restart_keeps h st w : hosts_keyed (w_db w) → w_faults w = [] → idle h (w_db w) →
  let w' := (restartHost h st w).2 in hosts_keyed (w_db w') ∧ w_faults w' = [] ∧ idle h (w_db w').
Proof.
  intros Hk Hw Hi w'. pose proof (HostRepo_Restart_touches h ∅ (ds_restartParms st) defaultRestartStopTimeoutSeconds w Hk) as Ht.
  split; [by eapply hosts_keyed_touches|]. split; [by apply restart_healthy|].
  intros sid row. rewrite (to_sessions _ _ _ _ Ht) by apply not_elem_of_empty. apply Hi.
Qed.

(** ** Repeated attempts *)

Fixpoint reconcile_times (n : nat) (ctx : Ctx) (h : string) : Up unit :=
  match n with 0 => ret tt | S n' => reconcileHost stopper ctx h ;;; reconcile_times n' ctx h end.

Lemma reconcile_times_gone n ctx h w o : drainTargets o !! h = None → reconcile_times n ctx h (w, o) = (Ok tt, (w, o)).
Proof. intros H. induction n as [|n IH]; [done|]. simpl. by rewrite (bind_Ok _ _ _ _ _ (reconcile_gone ctx h w o H)). Qed.

Lemma drain_from n ctx h w o : hosts_keyed (w_db w) → w_faults w = [] → idle h (w_db w) →
  calm_runtime →
  (∀ st, drainTargets o !! h = Some st → (defaultMaxRestartAttempts - Z.of_nat n <= ds_attempts st < defaultMaxRestartAttempts)%Z) →
  ∃ w' o', reconcile_times n ctx h (w, o) = (Ok tt, (w', o')) ∧ host_draining h o' = false.
Proof.
  intros Hk Hw Hi Hp. revert w o Hk Hw Hi. induction n as [|n IH]; intros w o Hk Hw Hi Hn.
  { exists w, o. split; [done|]. unfold host_draining. destruct (drainTargets o !! h) as [st|] eqn:E; [|by apply bool_decide_eq_false; intros [? [=]]].
    specialize (Hn st eq_refl). lia. }
  destruct (drainTargets o !! h) as [st|] eqn:E.
  2: { exists w, o. split; [by apply reconcile_times_gone|]. unfold host_draining. rewrite E. by apply bool_decide_eq_false; intros [? [=]]. }
  pose proof (restart_keeps h st w Hk Hw Hi) as (Hk' & Hw' & Hi'). specialize (restart_calm h st Hp w) as Hp1. specialize (Hn st eq_refl).
  assert (∃ w' o', reconcileHost stopper ctx h (w, o) = (Ok tt, (w', o')) ∧ w' = (restartHost h st w).2 ∧
            ∀ st', drainTargets o' !! h = Some st' → (defaultMaxRestartAttempts - Z.of_nat n <= ds_attempts st' < defaultMaxRestartAttempts)%Z)
    as (w' & o' & Hr & -> & Hn').
  { rewrite (reconcile_idle ctx h w o st Hw Hi E). destruct (restartHost h st w) as [[[]|e] w'].
    - exists w', (forget_host h o). repeat split; simpl in *; by rewrite lookup_delete_eq in *.
    - assert (∀ st', drainTargets (failure_recorded h o) !! h = Some st' →
        (defaultMaxRestartAttempts - Z.of_nat n <= ds_attempts st' < defaultMaxRestartAttempts)%Z) as Hf.
      { intros st'. unfold failure_recorded. rewrite E. destruct (Z.leb_spec defaultMaxRestartAttempts (ds_attempts st + 1)); simpl;
          [by rewrite lookup_delete_eq|]. rewrite lookup_insert_eq. intros [= <-]. simpl. lia. }
      exists w', (failure_recorded h o). destruct e as [ | | | | | |v]; try (by split). by destruct (Hp1 v). }
  destruct (IH (restartHost h st w).2 o' Hk' Hw' Hi' Hn') as (w2 & o2 & H2 & Hd). exists w2, o2. simpl. by rewrite (bind_Ok _ _ _ _ _ Hr).
Qed.
End Exact.

(** The attempts of a host that is drained, and the image its parameters name. *)
Definition orchestrator_ok (o : Orchestrator) : Prop :=
  ∀ h st, drainTargets o !! h = Some st →
    (0 <= ds_attempts st < defaultMaxRestartAttempts)%Z ∧ hsp_ContainerImageTag (ds_restartParms st) = ds_targetTag st.

(** C32. A drain ends.  With a database that works, a host on which no session
    runs is admitted to again after at most five reconciliations, whether or
    not the container runtime manages to restart it. *)
Theorem drain_ends (SP : StartupParameters) (CM : ConfigMessages) (CC : ContainerClient) (CN : HostConnector) (CL : ConnectorLaws)
    (stopper : option (Ctx → string → Go unit)) (ctx : Ctx) (h : string) (w : World) (o : Orchestrator) :
  hosts_keyed (w_db w) → w_faults w = [] → idle h (w_db w) → orchestrator_ok o →
  calm_runtime →
  ∃ w' o', reconcile_times stopper 5 ctx h (w, o) = (Ok tt, (w', o')) ∧ host_draining h o' = false.
Proof.
  intros Hk Hw Hi Ho Hp. apply drain_from; [done..|]. intros st Hst. destruct (Ho h st Hst) as [? _]. unfold defaultMaxRestartAttempts in *. lia.
Qed.

(** ** The state of the orchestrator *)

Section Invariant.
Context {SP : StartupParameters} {CM : ConfigMessages} {CC : ContainerClient} {CN : HostConnector}.
Context (stopper : option (Ctx → string → Go unit)).

Definition ok_rel (s s' : World * Orchestrator) : Prop := orchestrator_ok (snd s) → orchestrator_ok (snd s').
#[local] Instance ok_rel_preorder : PreOrder ok_rel.
Proof. split; [by intros s H|]. intros s1 s2 s3 H1 H2 H. by apply H2, H1. Qed.
Lemma ok_go {A} (m : Go A) : preserves ok_rel (go m).
Proof. intros [w o] H. unfold go. simpl. destruct (m w). exact H. Qed.
Lemma ok_logged {A} (m : Up A) : preserves ok_rel m → preserves ok_rel (logged m).
Proof. intros Hm s. specialize (Hm s). unfold logged, bind, attempt. destruct (m s) as [[a|[]] s']; exact Hm. Qed.
Lemma ok_state f : (∀ o, orchestrator_ok o → orchestrator_ok (f o)) → preserves ok_rel (on_state f).
Proof. intros Hf [w o]. exact (Hf o). Qed.
Lemma ok_users f : preserves ok_rel (on_state (set_users f)).
Proof. apply ok_state. intros o H. exact H. Qed.
Lemma ok_of_state {A} (f : Orchestrator → A) : preserves ok_rel (of_state f).
Proof. intros s H. exact H. Qed.
Lemma ok_count h s n : preserves ok_rel (on_state (set_count h s n)).
Proof. apply ok_users. Qed.
#[local] Hint Resolve ok_go ok_logged ok_users ok_of_state ok_count : preserves.

Lemma ok_bump h s d : preserves ok_rel (bumpUserCount h s d).
Proof. apply ok_state. intros o Ho. unfold bumped. destruct (_ || _); exact Ho. Qed.
Lemma ok_forget h s : preserves ok_rel (forgetSession h s).
Proof. apply ok_state. intros o Ho. unfold forgotten. destruct (sessionUsers o !! h); exact Ho. Qed.
Lemma ok_forget_host h o : orchestrator_ok o → orchestrator_ok (forget_host h o).
Proof. intros Ho h' st. simpl. intros [_ H]%lookup_delete_Some. by eapply Ho. Qed.
Lemma ok_failure h : preserves ok_rel (recordRestartFailure h).
Proof.
  apply ok_state. intros o Ho. unfold failure_recorded. destruct (drainTargets o !! h) as [st|] eqn:E; [|done].
  destruct (Z.leb_spec defaultMaxRestartAttempts (ds_attempts st + 1)); [by apply ok_forget_host|].
  intros h' st'. simpl. intros [[<- <-]|[_ H']]%lookup_insert_Some; [|by eapply Ho]. destruct (Ho _ _ E) as [? ?]. simpl. split; [lia|done].
Qed.
#[local] Hint Resolve ok_bump ok_forget ok_failure : preserves.

Lemma ok_count_of h s : preserves ok_rel (userCountForSession h s).
Proof. unfold userCountForSession, fetchUserCountRPC. preserve. Qed.
Lemma ok_seed h : preserves ok_rel (seedSessionUserCache h).
Proof. unfold seedSessionUserCache. preserve. Qed.
#[local] Hint Resolve ok_count_of ok_seed : preserves.
Lemma ok_drain ctx h l n : preserves ok_rel (drain_sessions stopper ctx h l n).
Proof. revert n. induction l as [|s l IH]; intros n; simpl; preserve. Qed.
#[local] Hint Resolve ok_drain : preserves.
Lemma ok_reconcile ctx h : preserves ok_rel (reconcileHost stopper ctx h).
Proof. unfold reconcileHost. preserve. apply ok_state, ok_forget_host. Qed.
#[local] Hint Resolve ok_reconcile : preserves.
Lemma ok_enroll ctx host tag : preserves ok_rel (enrollHost stopper ctx host tag).
Proof.
  unfold enrollHost. preserve. apply ok_state. intros o Ho h' st. simpl. intros [[<- <-]|[_ H]]%lookup_insert_Some; [by split|by eapply Ho].
Qed.
#[local] Hint Resolve ok_enroll : preserves.
Lemma ok_enroll_all ctx latest l : preserves ok_rel (enroll_all stopper ctx latest l).
Proof. induction l as [|h l IH]; simpl; preserve. Qed.
Lemma ok_reconcile_all ctx ids : preserves ok_rel (reconcileAllDraining stopper ctx ids).
Proof. induction ids as [|id ids IH]; simpl; preserve. Qed.
#[local] Hint Resolve ok_enroll_all ok_reconcile_all : preserves.
Lemma ok_calls ctx cs : preserves ok_rel (upgrade_calls stopper ctx cs).
Proof.
  induction cs as [|[latest|h ev|h|ids] cs IH]; simpl; [preserve|..]; unfold handleNewImage, Upgrade_HandleHostEvent, Upgrade_HandleHostEventStreamReset; preserve.
Qed.
End Invariant.

(** What [drain_ends] asks of the orchestrator holds from an empty one on,
    whatever new images, events, resets and ticks arrive. *)
Theorem orchestrator_stays_ok (SP : StartupParameters) (CM : ConfigMessages) (CC : ContainerClient) (CN : HostConnector)
    (stopper : option (Ctx → string → Go unit)) (ctx : Ctx) (cs : list UpgradeCall) (w : World) :
  orchestrator_ok (snd (upgrade_calls stopper ctx cs (w, NewHostUpgradeOrchestrator)).2).
Proof. apply ok_calls. intros h st H. unfold NewHostUpgradeOrchestrator in H. simpl in H. by rewrite lookup_empty in H. Qed.

(** ** An idle host *)

Section Upgrade.
Context {SP : StartupParameters} {CM : ConfigMessages} {CC : ContainerClient} {CN : HostConnector} {CL : ConnectorLaws}.

(** What is captured when a host is enrolled. *)
Definition snapshot (host : HeadlessHost) (tag : string) (account : HeadlessAccount) (config : StartupConfig) : HeadlessHostStartParams :=
  mkHostStartParams (hh_Name host) tag account (Some config) (hh_AutoUpdatePolicy host) (hh_Memo host) EmptyString.

(** Where an upgrade of the host leaves it. *)
Definition upgraded (h : string) (p : HeadlessHostStartParams) (j : Json) (row row' : HostRow) (w' : World) (o' : Orchestrator) : Prop :=
  runs_anew h p j row row' w' ∧ host_draining h o' = false.
Definition to_retry (h : string) (p : HeadlessHostStartParams) (row row' : HostRow) (w' : World) (o' : Orchestrator) : Prop :=
  (∃ e, interrupted h p row row' e w') ∧ drainTargets o' !! h = Some (mkDrainState (hsp_ContainerImageTag p) p 1).

Lemma reconcile_upgrades stopper ctx h p d0 now row w o j :
  host_is h d0 now row w → ho_ConnectorType row = HostConnectorType_DOCKER → (ho_InstanceCount row + 1 < 2 ^ 31)%Z →
  marshal_config (hsp_StartupConfig p) = Ok j → idle h d0 → drainTargets o !! h = Some (mkDrainState (hsp_ContainerImageTag p) p 0) →
  calm_runtime →
  ∃ w' o' row', reconcileHost stopper ctx h (w, o) = (Ok tt, (w', o')) ∧ host_is h d0 now row' w' ∧
    (upgraded h p j row row' w' o' ∨ to_retry h p row row' w' o') ∧ (obedient → upgraded h p j row row' w' o').
Proof.
  intros H Hc Hb Hj Hi Hd Hp. pose proof H as (Hw & Hdb & Hnow). assert (idle h (w_db w)) as Hi' by (rewrite Hdb; exact Hi).
  rewrite (reconcile_idle stopper ctx h w o _ Hw Hi' Hd).
  destruct (restart_from h p defaultRestartStopTimeoutSeconds d0 now row w j H Hc Hb Hj) as (r & w' & row' & E & H' & Hr & Ho).
  specialize (restart_calm h (mkDrainState (hsp_ContainerImageTag p) p 0) Hp w) as Hcalm. unfold restartHost in *. simpl in *. rewrite E in *. simpl in Hcalm.
  destruct r as [[]|e].
  - exists w', (forget_host h o), row'. split; [done|]. split; [done|]. assert (upgraded h p j row row' w' (forget_host h o)) as Hu; [|by split; [left|]].
    split; [exact Hr|]. unfold host_draining. simpl. rewrite lookup_delete_eq. by apply bool_decide_eq_false; intros [? [=]].
  - exists w', (failure_recorded h o), row'. split; [destruct e as [ | | | | | |v]; try done; by destruct (Hcalm v)|]. split; [done|].
    split; [right|by intros Hob; specialize (Ho Hob)]. split; [by exists e|]. unfold failure_recorded. rewrite Hd. simpl. by rewrite lookup_insert_eq.
Qed.

(** Asking the container of a host, whose answers are known. *)
Definition answers {A} (m : Go A) (a : A) : Prop := ∀ w, (m w).1 = Ok a.

Lemma host_asks {A} h d0 now row w (m : Go A) a : host_is h d0 now row w → preserves abroad m → answers m a →
  ∃ w', m w = (Ok a, w') ∧ host_is h d0 now row w'.
Proof.
  intros H Hm Ha. specialize (Hm w). specialize (Ha w). destruct (m w) as [r w']. simpl in *. subst r. exists w'. split; [done|].
  by apply (host_is_abroad h d0 now row w w').
Qed.
Lemma host_client h d0 now row w c : host_is h d0 now row w → ho_ConnectorType row = HostConnectorType_DOCKER →
  answers (conn_GetRpcClient (ho_ConnectString row)) c → ∃ w', HostRepo_GetRpcClient h w = (Ok c, w') ∧ host_is h d0 now row w'.
Proof.
  intros H Hc Ha. unfold HostRepo_GetRpcClient. rewrite (bind_Ok _ _ _ _ _ (get_host_run _ _ _ _ _ H)).
  unfold bind, lift, getConnector. rewrite bool_decide_eq_true_2 by done. by apply (host_asks h d0 now row w _ c H (conn_GetRpcClient_abroad _)).
Qed.
Lemma seed_run h d0 now row w o c : host_is h d0 now row w → ho_ConnectorType row = HostConnectorType_DOCKER →
  answers (conn_GetRpcClient (ho_ConnectString row)) c → calm (rpc_ListSessions c) →
  ∃ r w' o', logged (seedSessionUserCache h) (w, o) = (Ok r, (w', o')) ∧ host_is h d0 now row w' ∧ drainTargets o' = drainTargets o.
Proof.
  intros H Hc Ha Hl. destruct (host_client h d0 now row w c H Hc Ha) as (w1 & E1 & H1). specialize (Hl w1).
  pose proof (rpc_ListSessions_abroad c w1) as Hab. destruct (rpc_ListSessions c w1) as [r w2] eqn:E2. simpl in Hl, Hab.
  assert (seedSessionUserCache h (w, o) = (match r with Ok l => (Ok tt, (w2, set_users (<[h := counts_of l]>) o)) | Fail e => (Fail e, (w2, o)) end)) as E.
  { unfold seedSessionUserCache. rewrite (bind_Ok _ _ _ _ _ (go_run _ w o _ _ E1)). unfold bind. rewrite (go_run _ w1 o _ _ E2). by destruct r. }
  apply (host_is_abroad h d0 now row w1 w2 Hab) in H1. destruct r as [l|e].
  - rewrite (logged_run _ _ _ _ E). eexists _, w2, _. by split.
  - rewrite (logged_run _ _ _ _ E). exists (Fail e), w2, o. split; [|by split].
    destruct e as [ | | | | | |v]; try done. by destruct (Hl v).
Qed.
End Upgrade.

(** C33. Enrolling a host on which no session runs upgrades it at once: its old
    container is removed, the runtime is asked for one of the new image with the
    account of the host and the configuration its container reported
    ([runs_anew] of the parameters [snapshot], which name the tag), and the host
    runs at the very address it answered, with the memo and the policy it had;
    or, if the runtime fails on the way, it stays in the drain with those
    parameters for the next attempt.  Nothing else in the store changes, and if
    the runtime obeys it is the former. *)
Theorem enrolled_host_is_upgraded (SP : StartupParameters) (CM : ConfigMessages) (CC : ContainerClient) (CN : HostConnector) (CL : ConnectorLaws)
    (stopper : option (Ctx → string → Go unit)) (ctx : Ctx) (host : HeadlessHost) (tag : string) (w : World) (o : Orchestrator)
    (row : HostRow) (account : HeadlessAccount) (c : Client) (config : StartupConfig) (j : Json) :
  let h := hh_ID host in let p := snapshot host tag account config in
  w_faults w = [] → t_hosts (w_db w) !! h = Some row → ho_ConnectorType row = HostConnectorType_DOCKER → (ho_InstanceCount row + 1 < 2 ^ 31)%Z →
  get_account (hh_AccountId host) (w_db w) = Ok account → idle h (w_db w) → drainTargets o !! h = None →
  answers (conn_GetRpcClient (ho_ConnectString row)) c → answers (rpc_GetStartupConfigToRestore c true) (Some config) →
  marshal_config (Some config) = Ok j →
  calm (rpc_ListSessions c) → calm_runtime →
  ∃ w' o' row', enrollHost stopper ctx host tag (w, o) = (Ok tt, (w', o')) ∧ w_db w' = set_hosts (<[h := row']>) (w_db w) ∧
    (upgraded h p j row row' w' o' ∨ to_retry h p row row' w' o') ∧ (obedient → upgraded h p j row row' w' o').
Proof.
  intros h p Hw Hrow Hc Hb Hacc Hi Hd Hcl Hcfg Hj Hl Hp.
  assert (host_is h (w_db w) (w_now w) row w) as H.
  { split; [done|]. split; [|done]. unfold set_hosts. rewrite insert_id by done. by destruct (w_db w). }
  unfold enrollHost. cbv zeta. fold h.
  destruct (host_client h _ _ row w c H Hc Hcl) as (w1 & E1 & H1). rewrite (bind_Ok _ _ _ _ _ (logged_run _ _ _ _ (go_run _ w o _ _ E1))). simpl.
  destruct (host_asks h _ _ row w1 _ _ H1 (rpc_GetStartupConfigToRestore_abroad c true) Hcfg) as (w2 & E2 & H2).
  rewrite (bind_Ok _ _ _ _ _ (logged_run _ _ _ _ (go_run _ w1 o _ _ E2))).
  assert (GetHeadlessAccount (hh_AccountId host) w2 = (Ok account, w2)) as E3.
  { destruct H2 as (Hw2 & Hd2 & _). rewrite (reads_run _ _ w2 (GetHeadlessAccount_reads _) Hw2). rewrite Hd2. f_equal. exact Hacc. }
  rewrite (bind_Ok _ _ _ _ _ (logged_run _ _ _ _ (go_run _ w2 o _ _ E3))). unfold bind at 1, of_state, gets. simpl. unfold host_draining at 1.
  rewrite Hd. rewrite bool_decide_eq_false_2 by (intros [? [=]]). fold (snapshot host tag account config). fold p.
  set (o1 := set_drain (<[h := mkDrainState tag p 0]>) o). unfold bind at 1, on_state at 1, modify. simpl. fold o1.
  destruct (seed_run h _ _ row w2 o1 c H2 Hc Hcl Hl) as (r & w3 & o3 & E4 & H4 & Ho3). rewrite (bind_Ok _ _ _ _ _ E4).
  destruct (reconcile_upgrades stopper ctx h p _ _ row w3 o3 j H4 Hc Hb Hj Hi) as (w' & o' & row' & E & (_ & Hdb & _) & Hr); [|done|].
  { rewrite Ho3. unfold o1. simpl. apply lookup_insert_eq. }
  exists w', o', row'. split; [exact E|]. split; [exact Hdb|exact Hr].
Qed.

(** ** Hosts: a concrete upgrade

    A host with a session that has a guest and one that has none; a runtime
    that starts containers, and one that does not. *)

#[local] Existing Instance raw_parameters.
#[local] Existing Instance plain_config.

(** ** The runtime *)

Definition guests (sid : string) : Z := if bool_decide (sid = "s1") then 1%Z else 0%Z.
#[local] Instance guest_container : ContainerClient := {
  Client := string;
  rpc_StartWorld _ _ := ret (Some (reported "s9" EmptyString));
  rpc_StopSession _ _ := ret tt;
  rpc_UpdateSessionParameters _ _ := ret tt;
  rpc_GetSession _ id := ret (Some (set_UsersCount (guests id) (reported id EmptyString)));
  rpc_ListSessions _ := ret [];
  rpc_SaveSessionWorld _ _ := ret "resrec:///U-a/R-3";
  rpc_SaveAsSessionWorld _ _ _ := ret "resrec:///U-a/R-4";
  rpc_GetAbout _ := ret ("2026.1.1", "1.0.0");
  rpc_GetAccountInfo _ := ret ("U-a", "alice");
  rpc_GetStatus _ := ret 0%Z;
  rpc_GetStartupConfigToRestore _ _ := ret (Some new_config) }.
#[local] Instance guest_runtime (starts : bool) : HostConnector := {
  conn_GetStatus _ := ret HeadlessHostStatus_RUNNING;
  conn_GetRpcClient c := ret c;
  conn_ListContainerTags _ := ret [];
  conn_PullContainerImage t := ret t;
  conn_Start p := if starts then ret ("c-" +:+ hs_p_ID p) else fail (EMsg "no space left on device");
  conn_Stop _ _ := ret tt;
  conn_Kill _ := ret tt;
  conn_Remove _ := ret tt }.
#[local] Instance guest_runtime_laws (starts : bool) : ConnectorLaws (CN := guest_runtime starts).
Proof.
  split; [split|..]; intros; simpl; try apply ret_abroad. destruct starts; [apply ret_abroad|]. by intros w.
Qed.
#[local] Existing Instance no_draining.
#[local] Existing Instance odd_ports.
#[local] Instance guest_outside (starts : bool) : OutsideLaws (HC := repo_HostClients (CN := guest_runtime starts)).
Proof.
  split; [exact (@conn_client_laws _ _ (guest_runtime_laws starts))|..]; intros; simpl; [|apply ret_abroad..].
  unfold HostRepo_GetRpcClient, GetHost. apply preserves_bind; [apply _| |intros r].
  - intros w. apply abroad_only_faults. exact (proj1 (on_err_reads "headless host" _ _ (reads_query (q_GetHost h)) w)).
  - apply preserves_bind; [apply _|by intros w|intros _; apply ret_abroad].
Qed.

Lemma guest_runtime_calm starts : calm_runtime (CN := guest_runtime starts).
Proof. split; [|split; [|split]]; simpl; try by intros. by destruct starts. Qed.

(** The host is drained for a new image. *)
Definition stored_params : HeadlessHostStartParams :=
  mkHostStartParams "host" "2026.2.1" alice_account (Some new_config) HostAutoUpdatePolicy_USERS_EMPTY "memo" EmptyString.
Definition draining : Orchestrator := mkOrchestrator (<["h1" := mkDrainState "2026.2.1" stored_params 0]> ∅) ∅.

(** ** Witnesses *)

(** The session with a guest stays, the other is stopped, and the host is left
    alone. *)
Lemma upgrade_spares_users_witness :
  let stop := SessionUC_StopSession (HC := repo_HostClients (CN := guest_runtime true)) in
  let w' := fst (upgrade_calls (CN := guest_runtime true) (Some stop) None [Tick ["h1"]] (sessions_world, draining)).2 in
  se_Status <$> t_sessions (w_db w') !! "s3" = Some SessionStatus_ENDED ∧
  t_sessions (w_db w') !! "s1" = Some (alice_session "s1") ∧ t_hosts (w_db w') !! "h1" = t_hosts (w_db sessions_world) !! "h1".
Proof.
  intros stop w'. split; [vm_compute; reflexivity|].
  apply (upgrade_spares_users raw_parameters plain_config guest_container (guest_runtime true) (guest_runtime_laws true) stop
           (StopSession_laws (OL := guest_outside true)) guests None [Tick ["h1"]] sessions_world draining "s1" (alice_session "s1")).
  - intros c sid w o. simpl. intros [= <-]. reflexivity.
  - exact sessions_world_keyed.
  - exact sessions_world_hosts.
  - reflexivity.
  - reflexivity.
  - reflexivity.
Defined.

Lemma hosted_world_hosts : hosts_keyed (w_db hosted_world).
Proof.
  intros id r. change (t_hosts (w_db hosted_world)) with (<["h1" := alice_host]> (∅ : gmap string HostRow)).
  intros [[<- <-]|[_ H]]%lookup_insert_Some; [done|by rewrite lookup_empty in H].
Qed.
Lemma hosted_world_idle h : idle h (w_db hosted_world).
Proof. intros sid row. change (t_sessions (w_db hosted_world)) with (∅ : gmap string SessionRow). by rewrite lookup_empty. Qed.

Lemma drain_ends_witness :
  ∃ w' o', reconcile_times (CN := guest_runtime false) None 5 None "h1" (hosted_world, draining) = (Ok tt, (w', o')) ∧ host_draining "h1" o' = false.
Proof.
  apply (drain_ends raw_parameters plain_config guest_container (guest_runtime false) (guest_runtime_laws false) None None "h1" hosted_world draining).
  - exact hosted_world_hosts.
  - reflexivity.
  - apply hosted_world_idle.
  - intros h st. unfold draining. simpl. intros [[<- <-]|[_ H]]%lookup_insert_Some; [|by rewrite lookup_empty in H]. split; [split; [discriminate|reflexivity]|reflexivity].
  - apply guest_runtime_calm.
Defined.

Definition account_world : World :=
  with_db (set_headless_accounts (<["U-a" := mkHeadlessAccountRow "U-a" "cred" "pw" None None None None "alice-personal" None]>) (w_db hosted_world)) hosted_world.
Definition h1 : HeadlessHost := host_of_row HeadlessHostStatus_RUNNING alice_host.

Lemma enrolled_host_is_upgraded_witness :
  ∃ j w' o' row', marshal_config (Some new_config) = Ok j ∧
    enrollHost (CN := guest_runtime true) None None h1 "2026.2.1" (account_world, NewHostUpgradeOrchestrator) = (Ok tt, (w', o')) ∧
    w_db w' = set_hosts (<["h1" := row']>) (w_db account_world) ∧
    upgraded (CN := guest_runtime true) "h1" (snapshot h1 "2026.2.1" alice_account new_config) j alice_host row' w' o'.
Proof.
  destruct (marshal_config (Some new_config)) as [j|e] eqn:Ej; [|discriminate Ej].
  destruct (enrolled_host_is_upgraded raw_parameters plain_config guest_container (guest_runtime true) (guest_runtime_laws true) None None h1 "2026.2.1"
    account_world NewHostUpgradeOrchestrator alice_host alice_account "c1" new_config j) as (w' & o' & row' & E & Hd & _ & Ho).
  - reflexivity.
  - reflexivity.
  - reflexivity.
  - reflexivity.
  - vm_compute. reflexivity.
  - intros sid row. change (t_sessions (w_db account_world)) with (∅ : gmap string SessionRow). rewrite lookup_empty. discriminate.
  - reflexivity.
  - intros w. reflexivity.
  - intros w. reflexivity.
  - exact Ej.
  - intros w v. discriminate.
  - apply guest_runtime_calm.
  - exists j, w', o', row'. split; [reflexivity|]. split; [exact E|]. split; [exact Hd|]. apply Ho. repeat split.
Defined.
