(* ===== verification/DockerConnector.v ===== *)
(** * Hosts: the Docker connector

    [src/adapter/hostconnector/docker_connector.go]: the container runtime of
    [HostRepo], on top of the Docker API, the registry of images and gRPC,
    which are the class [DockerAPI].  A connect string is the identifier of a
    container and the port its process listens on. *)

From S2P Require Import Prelude Entity GoStrings Json Headless StateCache Digest Models Queries Ports Repositories Resources SessionRepo Claims SessionUsecase SessionRedelivery Messages HostQueries HostRepo Notification.

From stdpp Require Import base gmap strings list.
From Stdlib Require Import ZArith Lia Ascii.

(** ** The runtime underneath *)

(** [container.Summary], [container.Config] with the host configuration, and
    the messages of the event stream, as far as they are used. *)
Record ContainerSummary : Type := mkContainerSummary { cs_ID : string; cs_Image : string; cs_State : string; cs_Status : string }.
Record ContainerConfig : Type := mkContainerConfig {
  cc_Env : list string; cc_Image : string; cc_NetworkMode : string; cc_LogType : string; cc_FluentdAddress : string; cc_LogTag : string }.
Record DockerMessage : Type := mkDockerMessage { dm_ActorID : string; dm_Action : string; dm_Attributes : gmap string string }.

Class DockerAPI {CC : ContainerClient} : Type := {
  api_New : Go unit;
  api_ContainerList : option string → Go (list ContainerSummary);
  api_ContainerCreate : ContainerConfig → Go string;
  api_ContainerStart : string → Go unit;
  api_ContainerStop : string → Z → Go unit;
  api_ContainerKill : string → string → Go unit;
  api_ContainerRemove : string → Go unit;
  api_ImageList : string → Go (list (list string));
  api_ImagePull : string → string → Go string;
  (** GET with an Authorization header: the status code, and the tags if the body is what is expected *)
  http_Get : string → option string → Go (Z * Result (list string));
  grpc_NewClient : string → Go Client;
  net_FreePort : Go Z }.

Record DockerConfig : Type := mkDockerConfig {
  HeadlessImageName : string; FluentdAddress : string; GHCRAuthToken : string; HeadlessRegistryAuth : string }.

(** [base64.StdEncoding], from the URL alphabet *)
Definition std_char (c : ascii) : ascii :=
  if bool_decide (c = "-"%char) then "+"%char else if bool_decide (c = "_"%char) then "/"%char else c.
Fixpoint string_map (f : ascii → ascii) (s : string) : string :=
  match s with String c s' => String (f c) (string_map f s') | EmptyString => EmptyString end.
Fixpoint string_bytes (s : string) : list Z :=
  match s with String c s' => Z.of_nat (nat_of_ascii c) :: string_bytes s' | EmptyString => [] end.
Definition base64_StdEncode (s : string) : string := string_map std_char (base64_URLEncode (string_bytes s)).

(** ** Connect strings and tags *)

Definition parseConnectString (connect_string : string) : Result (string * Z) :=
  match Split ":"%char connect_string with
  | [id; port] =>
      match Atoi port with
      | Some n => Ok (id, n)
      | None => Fail (EMsg ("invalid port format: " +:+ port))
      end
  | _ => Fail (EMsg ("invalid connect string format: " +:+ connect_string))
  end.
Definition connect_string_of (id : string) (port : Z) : string := id +:+ ":" +:+ fmt_d port.

Record TagInfo : Type := mkTagInfo { ti_Tag : string; ti_IsVersioned : bool; ti_IsPreRelease : bool; ti_ResoniteVersion : string; ti_AppVersion : string }.
Definition parseTag (tag : string) : TagInfo :=
  let splitted := Split "-"%char (TrimPrefix tag "prerelease-") in
  let appVersion := match splitted with [_; v] => v | _ => "v0.0.0" end in
  match splitted with
  | v :: _ => if ValidateResoniteVersionString v then mkTagInfo tag true (HasPrefix tag "prerelease-") v appVersion
              else mkTagInfo tag false false EmptyString EmptyString
  | [] => mkTagInfo tag false false EmptyString EmptyString
  end.

Definition containerStatusToEntityStatus (state status : string) : Z :=
  if bool_decide (state = "running") then HeadlessHostStatus_RUNNING
  else if bool_decide (state = "exited") then
    if Contains status "Exited (0)" then HeadlessHostStatus_EXITED else HeadlessHostStatus_CRASHED
  else if bool_decide (state = "dead") then HeadlessHostStatus_CRASHED
  else HeadlessHostStatus_UNKNOWN.

Definition ErrContainerNotFound : Err := EMsg "container not found".

Section Connector.
Context {CM : ConfigMessages} {CC : ContainerClient} {DA : DockerAPI}.
Context (cfg : DockerConfig).

(** ** Containers *)

Definition newDockerClient : Go unit := api_New.
Definition or_no_client (m : Go unit) : Go unit := on_err (EWrap "failed to create docker client") m.

Definition getContainer (container_id : string) : Go ContainerSummary :=
  newDockerClient ;;;
  let* containers := api_ContainerList (Some container_id) in
  match containers with
  | [] => fail ErrContainerNotFound
  | [c] => ret c
  | _ => fail (EMsg "found several containers")
  end.

Definition Docker_GetStatus (connect_string : string) : Go Z :=
  match parseConnectString connect_string with
  | Fail _ => ret HeadlessHostStatus_UNKNOWN
  | Ok (id, _) =>
      let* container := attempt (getContainer id) in
      ret match container with Ok c => containerStatusToEntityStatus (cs_State c) (cs_Status c) | Fail _ => HeadlessHostStatus_UNKNOWN end
  end.

Definition Docker_GetRpcClient (connect_string : string) : Go Client :=
  let* address := lift (parseConnectString connect_string) in
  let* container := attempt (getContainer (fst address)) in
  match container with
  | Fail err => fail (if bool_decide (err = ErrContainerNotFound) then EWrap "grpc client (docker container)" (ESent ErrNotFound)
                      else EWrap "failed to get container" err)
  | Ok c =>
      if negb (bool_decide (cs_State c = "running")) then fail (EMsg "specific container is not running")
      else grpc_NewClient ("localhost:" +:+ fmt_d (snd address))
  end.

Definition Docker_Stop (connect_string : string) (timeoutSeconds : Z) : Go unit :=
  let* address := lift (parseConnectString connect_string) in
  or_no_client newDockerClient ;;;
  on_err (EWrap "failed to stop container") (api_ContainerStop (fst address) timeoutSeconds).
Definition Docker_Kill (connect_string : string) : Go unit :=
  let* address := lift (parseConnectString connect_string) in
  or_no_client newDockerClient ;;;
  on_err (EWrap "failed to kill container") (api_ContainerKill (fst address) "SIGKILL").
Definition Docker_Remove (connect_string : string) : Go unit :=
  let* address := lift (parseConnectString connect_string) in
  let* container := attempt (getContainer (fst address)) in
  match container with
  | Fail err => if bool_decide (err = ErrContainerNotFound) then ret tt else fail (EWrap "failed to get container" err)
  | Ok _ =>
      or_no_client newDockerClient ;;;
      on_err (EWrap "failed to remove container") (api_ContainerRemove (fst address))
  end.

(** ** Images *)

Definition has_tag (tag repoTag : string) : bool :=
  HasPrefix repoTag (HeadlessImageName cfg) &&
  match Split ":"%char repoTag with [_; t] => bool_decide (t = tag) | _ => false end.
Definition isAvailableTag (tag : string) : Go bool :=
  let* client := attempt newDockerClient in
  match client with
  | Fail _ => ret false
  | Ok _ =>
      let* images := attempt (api_ImageList (HeadlessImageName cfg)) in
      ret match images with Ok l => existsb (existsb (has_tag tag)) (rev l) | Fail _ => false end
  end.

Definition Docker_PullContainerImage (tag : string) : Go string :=
  newDockerClient ;;;
  api_ImagePull (HeadlessImageName cfg +:+ ":" +:+ tag) (base64_StdEncode (HeadlessRegistryAuth cfg)).

Definition image_of (info : TagInfo) : ContainerImage :=
  mkContainerImage (ti_Tag info) (ti_ResoniteVersion info) (ti_IsPreRelease info) (ti_AppVersion info).
Definition versioned_images (tags : list string) : list ContainerImage :=
  image_of <$> List.filter ti_IsVersioned (parseTag <$> tags).

(** One request after the other until a page is empty.  The code goes on for as
    long as the deadline of its context allows: [pages] is how many that are. *)
Fixpoint tag_pages (pages : nat) (url : string) (auth : option string) (currentLastTag : option string) : Go (list ContainerImage) :=
  match pages with
  | 0 => fail (EMsg "context deadline exceeded")
  | S pages' =>
      let* resp := on_err (EWrap "failed to send request") (http_Get (match currentLastTag with Some t => url +:+ "?last=" +:+ t | None => url end) auth) in
      if negb (fst resp =? 200)%Z then fail (EMsg "failed to get tags")
      else
        let* tags := on_err (EWrap "failed to decode response") (lift (snd resp)) in
        match last tags with
        | Some lastTagInPage =>
            let* rest := tag_pages pages' url auth (Some lastTagInPage) in
            ret (versioned_images tags ++ rest)
        | None => ret []
        end
  end.
Definition Docker_ListContainerTags (pages : nat) (lastTag : option string) : Go (list ContainerImage) :=
  match Split "/"%char (HeadlessImageName cfg) with
  | [registryName; user; image] =>
      let url := "https://" +:+ registryName +:+ "/v2/" +:+ user +:+ "/" +:+ image +:+ "/tags/list" in
      if bool_decide (registryName = "ghcr.io") then
        if bool_decide (GHCRAuthToken cfg = EmptyString) then fail (EMsg "GHCR_AUTH_TOKEN is not set")
        else tag_pages pages url (Some ("Bearer " +:+ base64_StdEncode (GHCRAuthToken cfg))) lastTag
      else tag_pages pages url None lastTag
  | _ => fail (EMsg ("invalid image name format: " +:+ HeadlessImageName cfg))
  end.

(** ** Starting *)

(** the text of a JSON value, which the generated code writes *)
Variable json_text : Json → string.

Definition container_config (params : HostStartParams) (port : Z) (startupConfig : option Json) : ContainerConfig :=
  let account := hs_p_HeadlessAccount params in
  mkContainerConfig
    (["RpcHostUrl=http://localhost:" +:+ fmt_d port; "HeadlessUserCredential=" +:+ HeadlessAccount_Credential account;
      "HeadlessUserPassword=" +:+ HeadlessAccount_Password account] ++
     match startupConfig with Some j => ["StartupConfig=" +:+ json_text j] | None => [] end)
    (HeadlessImageName cfg +:+ ":" +:+ hs_p_ContainerImageTag params) "host" "fluentd"
    (if bool_decide (FluentdAddress cfg = EmptyString) then "localhost:24224" else FluentdAddress cfg)
    ("headless-" +:+ hs_p_ID params +:+ "-" +:+ fmt_d (hs_p_InstanceId params)).

Definition Docker_Start (params : HostStartParams) : Go string :=
  or_no_client newDockerClient ;;;
  let imageTag := hs_p_ContainerImageTag params in
  let* available := isAvailableTag imageTag in
  (if available : bool then ret tt
   else on_err (EWrap "failed to pull container image") (Docker_PullContainerImage imageTag) ;;; ret tt) ;;;
  let* port := on_err (EWrap "failed to get free port") net_FreePort in
  let* startupConfig :=
    match hs_p_StartupConfig params with
    | Some c => let* j := on_err (EWrap "failed to marshal startup config") (lift (protojson_Marshal c)) in ret (Some j)
    | None => ret None
    end in
  let* id := on_err (EWrap "failed to create container") (api_ContainerCreate (container_config params port startupConfig)) in
  on_err (EWrap "failed to start container") (api_ContainerStart id) ;;;
  ret (connect_string_of id port).

(** ** Statuses *)

Definition is_ours (c : ContainerSummary) : bool :=
  HasPrefix (cs_Image c) (HeadlessImageName cfg +:+ ":") || bool_decide (cs_Image c = HeadlessImageName cfg).
Definition statuses_of (containers : list ContainerSummary) : gmap string Z :=
  foldl (λ m c, if is_ours c then <[cs_ID c := containerStatusToEntityStatus (cs_State c) (cs_Status c)]> m else m) ∅ containers.
Definition ListAllContainerStatuses : Go (gmap string Z) :=
  or_no_client newDockerClient ;;;
  if bool_decide (HeadlessImageName cfg = EmptyString) then fail (EMsg "HEADLESS_IMAGE_NAME environment variable is not set")
  else
    let* containers := on_err (EWrap "failed to list containers") (api_ContainerList None) in
    ret (statuses_of containers).

(** The runtime that [HostRepo] uses. *)
Definition docker_HostConnector (pages : nat) : HostConnector := {|
  conn_GetStatus := Docker_GetStatus;
  conn_GetRpcClient := Docker_GetRpcClient;
  conn_ListContainerTags := Docker_ListContainerTags pages;
  conn_PullContainerImage := Docker_PullContainerImage;
  conn_Start := Docker_Start;
  conn_Stop := Docker_Stop;
  conn_Kill := Docker_Kill;
  conn_Remove := Docker_Remove |}.
End Connector.

(** ** The events of containers *)

Record ContainerEvent : Type := mkContainerEvent { ce_ContainerID : string; ce_Action : string; ce_ExitCode : string }.
Definition ContainerEventStart : string := "start".
Definition ContainerEventStop : string := "stop".
Definition ContainerEventDie : string := "die".
Definition ContainerEventKill : string := "kill".
Definition ContainerEventOOM : string := "oom".
Definition ContainerEventRestart : string := "restart".
Definition ContainerEventDestroy : string := "destroy".
Definition container_event (m : DockerMessage) : ContainerEvent :=
  mkContainerEvent (dm_ActorID m) (dm_Action m) (default EmptyString (dm_Attributes m !! "exitCode")).

(** ** Hosts: following the containers

    [src/worker/docker_event_watcher.go] and [src/worker/image_checker.go]: the
    status of a host follows the events of its container, and is brought up to
    date when the program starts; the newest image is looked up periodically.
    What a call publishes on the bus is part of its result. *)

From Stdlib Require Import ZArith Lia.

(** ** Events *)

Definition eventToStatus (event : ContainerEvent) : Z :=
  let a := ce_Action event in
  if bool_decide (a = ContainerEventStart) || bool_decide (a = ContainerEventRestart) then HeadlessHostStatus_RUNNING
  else if bool_decide (a = ContainerEventStop) then HeadlessHostStatus_EXITED
  else if bool_decide (a = ContainerEventDie) then
    if bool_decide (ce_ExitCode event = "0") then HeadlessHostStatus_EXITED else HeadlessHostStatus_CRASHED
  else if bool_decide (a = ContainerEventKill) || bool_decide (a = ContainerEventOOM) then HeadlessHostStatus_CRASHED
  else HeadlessHostStatus_UNKNOWN.

Definition publishHostUpdated (hostID : string) : Go (list NotificationEvent) :=
  let* now := gets w_now in ret [HostUpdated now hostID EmptyString None].

(** a failure is logged *)
Definition handleEvent (event : ContainerEvent) : Go (list NotificationEvent) :=
  let* host := attempt (GetHostByContainerID (ce_ContainerID event)) in
  match host with
  | Fail _ => ret []
  | Ok host =>
      let newStatus := eventToStatus event in
      if (newStatus =? HeadlessHostStatus_UNKNOWN)%Z then ret []
      else if (ho_Status host =? newStatus)%Z then ret []
      else
        let* updated := attempt (UpdateHostStatus (ho_ID host) newStatus) in
        match updated with Fail _ => ret [] | Ok _ => publishHostUpdated (ho_ID host) end
  end.

(** What a run of the stream meets: an event, the end of one of the two
    channels, an error (or a nil one), or the end of the context. *)
Inductive WatchInput : Type :=
  | GotEvent (e : ContainerEvent)
  | EventsClosed
  | GotError (e : option Err)
  | ErrorsClosed
  | Cancelled.
(** the events that were handled, and the error the run ends with *)
Fixpoint watch_from (inputs : list WatchInput) : Go (list NotificationEvent * option Err) :=
  match inputs with
  | [] => ret ([], None)
  | GotEvent e :: inputs' =>
      let* ps := handleEvent e in
      let* r := watch_from inputs' in
      ret (ps ++ fst r, snd r)
  | EventsClosed :: _ => ret ([], Some (EMsg "docker events channel closed"))
  | GotError None :: inputs' => watch_from inputs'
  | GotError (Some err) :: _ => ret ([], Some err)
  | ErrorsClosed :: _ => ret ([], Some (EMsg "docker events error channel closed"))
  | Cancelled :: _ => ret ([], Some (EMsg "context canceled"))
  end.

(** ** The start of the program *)

(** the status a host should have, if it should have another *)
Definition synced_status (statuses : gmap string Z) (host : HostRow) : option Z :=
  match parseConnectString (ho_ConnectString host) with
  | Fail _ => None
  | Ok (containerID, _) =>
      let newStatus := match statuses !! containerID with
                       | Some s => Some s
                       | None => if (ho_Status host =? HeadlessHostStatus_RUNNING)%Z || (ho_Status host =? HeadlessHostStatus_STARTING)%Z
                                 then Some HeadlessHostStatus_CRASHED else None
                       end in
      match newStatus with Some s => if (ho_Status host =? s)%Z then None else Some s | None => None end
  end.
Fixpoint sync_hosts (statuses : gmap string Z) (hosts : list HostRow) : Go (list NotificationEvent) :=
  match hosts with
  | [] => ret []
  | host :: hosts' =>
      let* ps := match synced_status statuses host with
                 | None => ret []
                 | Some newStatus =>
                     let* updated := attempt (UpdateHostStatus (ho_ID host) newStatus) in
                     match updated with Fail _ => ret [] | Ok _ => publishHostUpdated (ho_ID host) end
                 end in
      let* ps' := sync_hosts statuses hosts' in
      ret (ps ++ ps')
  end.

Section Watcher.
Context {CM : ConfigMessages} {CC : ContainerClient} {DA : DockerAPI}.
Context (cfg : DockerConfig).

Definition syncAllStatuses : Go (list NotificationEvent) :=
  let* statuses := attempt (ListAllContainerStatuses cfg) in
  match statuses with
  | Fail _ => ret []
  | Ok statuses =>
      let* hosts := attempt ListHosts in
      match hosts with Fail _ => ret [] | Ok hosts => sync_hosts statuses hosts end
  end.

(** ** New images *)

(** It answers the newest image seen so far, and the one the observers are told of. *)
Definition checkNewImages (pages : nat) (autoPullNewImage : bool) (lastTag : option ContainerImage) : Go (option ContainerImage * option ContainerImage) :=
  let* tags := attempt (Docker_ListContainerTags cfg pages (ci_Tag <$> lastTag)) in
  match tags with
  | Fail _ => ret (lastTag, None)
  | Ok tags =>
      match last tags with
      | None => ret (lastTag, None)
      | Some newestTag =>
          if bool_decide (ci_Tag <$> lastTag = Some (ci_Tag newestTag)) then ret (lastTag, None)
          else
            (if autoPullNewImage then attempt (Docker_PullContainerImage cfg (ci_Tag newestTag)) ;;; ret tt else ret tt) ;;;
            ret (Some newestTag, Some newestTag)
      end
  end.
End Watcher.
