(* ===== verification/DockerTheorems.v ===== *)
(** * Hosts: the Docker connector keeps its promises

    The connector has the laws the repository relies on; what it answers can
    be read back; the pages of tags end; the statuses of hosts become those of
    their containers. *)

From S2P Require Import Prelude Entity GoStrings Json Headless StateCache Digest Models Queries Ports Repositories Resources SessionRepo Claims SessionUsecase PermissionSafety PermissionDecisions PermissionSystem SessionSafety SessionSearch SessionRedelivery Notification Messages HostQueries HostRepo HostUsecase HostSafety HostLifecycle DockerConnector PermissionTheorems NotificationService SessionWitness HostWitness.

From stdpp Require Import base gmap strings list.
From Stdlib Require Import ZArith Lia Ascii.

(** ** The laws of the runtime *)

(** Docker, the registry and the network do not touch the store. *)
Class DockerLaws {CC : ContainerClient} {DA : DockerAPI} : Prop := {
  api_client_laws :: ClientLaws;
  api_New_abroad : preserves abroad api_New;
  api_ContainerList_abroad i : preserves abroad (api_ContainerList i);
  api_ContainerCreate_abroad c : preserves abroad (api_ContainerCreate c);
  api_ContainerStart_abroad i : preserves abroad (api_ContainerStart i);
  api_ContainerStop_abroad i t : preserves abroad (api_ContainerStop i t);
  api_ContainerKill_abroad i s : preserves abroad (api_ContainerKill i s);
  api_ContainerRemove_abroad i : preserves abroad (api_ContainerRemove i);
  api_ImageList_abroad n : preserves abroad (api_ImageList n);
  api_ImagePull_abroad r a : preserves abroad (api_ImagePull r a);
  http_Get_abroad u a : preserves abroad (http_Get u a);
  grpc_NewClient_abroad a : preserves abroad (grpc_NewClient a);
  net_FreePort_abroad : preserves abroad net_FreePort }.

Create HintDb abroad.
#[export] Hint Resolve api_New_abroad api_ContainerList_abroad api_ContainerCreate_abroad api_ContainerStart_abroad api_ContainerStop_abroad
  api_ContainerKill_abroad api_ContainerRemove_abroad api_ImageList_abroad api_ImagePull_abroad http_Get_abroad grpc_NewClient_abroad net_FreePort_abroad : abroad.

Section Laws.
Context {CM : ConfigMessages} {CC : ContainerClient} {DA : DockerAPI} {DL : DockerLaws}.
Context (cfg : DockerConfig) (json_text : Json → string) (pages : nat).

#[local] Hint Extern 5 (preserves abroad _) => solve [auto with abroad] : preserves.

Lemma abroad_ret {A} (a : A) : preserves abroad (ret a).
Proof. apply preserves_ret, _. Qed.
Lemma abroad_fail {A} e : preserves abroad (fail (A:=A) e).
Proof. apply preserves_fail, _. Qed.
Lemma abroad_lift {A} (r : Result A) : preserves abroad (lift r).
Proof. apply preserves_lift, _. Qed.
#[local] Hint Resolve abroad_ret abroad_fail abroad_lift : preserves.

Lemma getContainer_abroad i : preserves abroad (getContainer i).
Proof. unfold getContainer, newDockerClient. preserve. Qed.
#[local] Hint Resolve getContainer_abroad : preserves.
Lemma isAvailableTag_abroad t : preserves abroad (isAvailableTag cfg t).
Proof. unfold isAvailableTag, newDockerClient. preserve. Qed.
Lemma Pull_abroad t : preserves abroad (Docker_PullContainerImage cfg t).
Proof. unfold Docker_PullContainerImage, newDockerClient. preserve. Qed.
#[local] Hint Resolve isAvailableTag_abroad Pull_abroad : preserves.
Lemma tag_pages_abroad n url auth t : preserves abroad (tag_pages n url auth t).
Proof. revert t. induction n as [|n IH]; intros t; simpl; preserve. Qed.
#[local] Hint Resolve tag_pages_abroad : preserves.

(** The connector is a runtime as [HostRepo] wants it. *)
#[export] Instance docker_laws : ConnectorLaws (CN := docker_HostConnector cfg json_text pages).
Proof.
  split; [exact api_client_laws|..]; intros; simpl;
    unfold Docker_GetStatus, Docker_GetRpcClient, Docker_ListContainerTags, Docker_Start, Docker_Stop, Docker_Kill, Docker_Remove, or_no_client, newDockerClient;
    preserve.
Qed.
Lemma ListAllContainerStatuses_abroad : preserves abroad (ListAllContainerStatuses cfg).
Proof. unfold ListAllContainerStatuses, or_no_client, newDockerClient. preserve. Qed.
End Laws.

(** ** Connect strings *)

(** Identifiers of containers are hexadecimal; this much of it matters. *)
Definition plain (id : string) : Prop := ∀ c, c ∈ [":"; "%"; "_"; "\"]%char → mentions c id = false.

Lemma parse_connect_string id port : plain id → (0 <= port < 2 ^ 63)%Z → parseConnectString (connect_string_of id port) = Ok (id, port).
Proof.
  intros Hid Hp. unfold parseConnectString, connect_string_of. change (id +:+ ":" +:+ fmt_d port) with (id +:+ String ":"%char (fmt_d port)).
  rewrite Split_front by (apply Hid; by left). rewrite Split_no_sep; [by rewrite Atoi_fmt_d|by apply fmt_d_digits; lia|done].
Qed.

Lemma sql_like_any s : sql_like "%" s = true.
Proof. induction s as [|c s IH]; [reflexivity|exact IH]. Qed.
Lemma mentions_cons c x s : mentions c (String x s) = false → x ≠ c ∧ mentions c s = false.
Proof. simpl. intros [H1 H2]%orb_false_iff. by apply bool_decide_eq_false in H1. Qed.
Lemma sql_like_plain p q s : plain p → sql_like (p +:+ q) (p +:+ s) = sql_like q s.
Proof.
  induction p as [|x p IH]; intros Hp; [done|]. assert (plain p ∧ x ≠ "%"%char ∧ x ≠ "_"%char ∧ x ≠ "\"%char) as (Hp' & H1 & H2 & H3).
  { split; [intros c Hc; by apply (mentions_cons c x p), Hp|]. repeat split; intros ->; refine (proj1 (mentions_cons _ _ p (Hp _ _)) eq_refl); set_solver. }
  change (String x p +:+ q) with (String x (p +:+ q)). change (String x p +:+ s) with (String x (p +:+ s)). simpl.
  rewrite !bool_decide_eq_false_2 by done. rewrite bool_decide_eq_true_2 by done. by apply IH.
Qed.

(** A container that was started is the one its address, its events and its
    logs lead back to. *)
Lemma Docker_Start_inv {CM : ConfigMessages} {CC : ContainerClient} {DA : DockerAPI} cfg json_text p w cs w' :
  Docker_Start cfg json_text p w = (Ok cs, w') →
  ∃ port w1 w2 j id w3 w4, net_FreePort w1 = (Ok port, w2) ∧ api_ContainerCreate (container_config cfg json_text p port j) w3 = (Ok id, w4) ∧
    cs = connect_string_of id port ∧ match hs_p_StartupConfig p with Some c => ∃ j', j = Some j' ∧ protojson_Marshal c = Ok j' | None => j = None end.
Proof.
  unfold Docker_Start. intros ([] & w1 & _ & H)%bind_inv_Ok. apply bind_inv_Ok in H as (av & w2 & _ & H). apply bind_inv_Ok in H as ([] & w3 & _ & H).
  apply bind_inv_Ok in H as (port & w4 & Hp & H). apply on_err_inv in Hp as ([port'|e] & Hp & [= ->]). apply bind_inv_Ok in H as (j & w5 & Hj & H).
  apply bind_inv_Ok in H as (id & w6 & Hc & H). apply on_err_inv in Hc as ([id'|e] & Hc & [= ->]). apply bind_inv_Ok in H as ([] & w7 & _ & H).
  injection H as <- _. exists port', w3, w4, j, id', w5, w6. split; [done|]. split; [done|]. split; [done|].
  destruct (hs_p_StartupConfig p) as [c|]; [|by injection Hj as <- _]. apply bind_inv_Ok in Hj as (j' & w8 & Hm & Hj).
  injection Hj as <- _. apply on_err_inv in Hm as ([j''|e] & Hm & [= ->]). injection Hm as Hm _. by exists j''.
Qed.

(** C36. The container that a start answers: its connect string names its
    identifier and port, the event of Docker about it finds the host that has
    that connect string, it listens where it is called, and its log lines carry
    the tag under which the logs of the instance are read. *)
Theorem started_container_is_found (CM : ConfigMessages) (CC : ContainerClient) (DA : DockerAPI) (cfg : DockerConfig) (json_text : Json → string)
    (p : HostStartParams) (w : World) (cs : string) (w' : World) (d : DB) (host : HostRow) :
  (∀ c w id, (api_ContainerCreate c w).1 = Ok id → plain id) → (∀ w port, (net_FreePort w).1 = Ok port → (0 <= port < 65536)%Z) →
  Docker_Start cfg json_text p w = (Ok cs, w') →
  t_hosts d !! ho_ID host = Some host → ho_ConnectString host = cs →
  (∀ i h, t_hosts d !! i = Some h → i ≠ ho_ID host → ∀ id port, cs = connect_string_of id port → sql_like (id +:+ ":%") (ho_ConnectString h) = false) →
  ∃ id port config, parseConnectString cs = Ok (id, port) ∧ q_GetHostByContainerID id 0%Z d = Ok host ∧
    (∃ w3 w4, api_ContainerCreate config w3 = (Ok id, w4)) ∧ "RpcHostUrl=http://localhost:" +:+ fmt_d port ∈ cc_Env config ∧
    cc_LogTag config = log_tag (hs_p_ID p) (hs_p_InstanceId p) ∧ cc_Image config = HeadlessImageName cfg +:+ ":" +:+ hs_p_ContainerImageTag p.
Proof.
  intros Hid Hport Hs Hhost Hcs Hother. apply Docker_Start_inv in Hs as (port & w1 & w2 & j & id & w3 & w4 & Hp & Hc & -> & _).
  assert (plain id) as Hpl by (apply (Hid (container_config cfg json_text p port j) w3); by rewrite Hc).
  assert (0 <= port < 65536)%Z as Hb by (apply (Hport w1); by rewrite Hp).
  exists id, port, (container_config cfg json_text p port j). split; [by apply parse_connect_string; [|lia]|]. split; [|split; [by exists w3, w4|split; [by left|done]]].
  unfold q_GetHostByContainerID. set (f := λ r, sql_like (id +:+ ":%") (ho_ConnectString r)).
  assert (f host = true) as Hf.
  { unfold f. rewrite Hcs. unfold connect_string_of. rewrite sql_like_plain by done. simpl. apply sql_like_any. }
  assert (∀ h, h ∈ List.filter f (rows_of (t_hosts d)) → h = host) as Hall.
  { intros h. rewrite list_elem_of_In, List.filter_In, <-list_elem_of_In. intros [Hin Hfh]. unfold rows_of in Hin.
    apply list_elem_of_fmap in Hin as ([i h'] & -> & Hi%elem_of_map_to_list). simpl in *. destruct (decide (i = ho_ID host)) as [->|Hne]; [congruence|].
    unfold f in Hfh. by rewrite (Hother i h' Hi Hne id port eq_refl) in Hfh. }
  assert (host ∈ List.filter f (rows_of (t_hosts d))) as Hin.
  { rewrite list_elem_of_In, List.filter_In, <-list_elem_of_In. split; [|done]. unfold rows_of. apply list_elem_of_fmap. exists (ho_ID host, host).
    split; [done|]. by apply elem_of_map_to_list. }
  destruct (List.filter f (rows_of (t_hosts d))) as [|h l]; [by apply elem_of_nil in Hin|]. simpl. by rewrite (Hall h) by left.
Qed.

(** ** Pages of tags *)

(** What the pages of a registry hold from a tag on, and how many there are
    with the empty one at the end. *)
Inductive paged (next : option string → list string) : option string → list string → nat → Prop :=
  | paged_end l : next l = [] → paged next l [] 1
  | paged_more l t tags n : last (next l) = Some t → paged next (Some t) tags n → paged next l (next l ++ tags) (S n).

Lemma versioned_images_app a b : versioned_images (a ++ b) = versioned_images a ++ versioned_images b.
Proof. unfold versioned_images. by rewrite fmap_app, List.filter_app, fmap_app. Qed.

(** Listing the tags of the image ends after the pages the registry has,
    with the versioned ones of every page in its order. *)
Theorem tag_pages_exact (CC : ContainerClient) (DA : DockerAPI) (url : string) (auth : option string) (next : option string → list string)
    (l : option string) (tags : list string) (n pages : nat) (w : World) :
  (∀ l w, http_Get (match l with Some t => url +:+ "?last=" +:+ t | None => url end) auth w = (Ok (200%Z, Ok (next l)), w)) →
  paged next l tags n → n ≤ pages → tag_pages pages url auth l w = (Ok (versioned_images tags), w).
Proof.
  intros Hg H. revert pages. induction H as [l Hl|l t tags n Hl H IH]; intros [|pages] Hn; try lia; simpl.
  - unfold bind, on_err. rewrite Hg. simpl. by rewrite Hl.
  - unfold bind, on_err. rewrite Hg. simpl. rewrite Hl. rewrite IH by lia. unfold ret. by rewrite versioned_images_app.
Qed.

(** ** Bringing the statuses up to date *)

Definition synced (statuses : gmap string Z) (now : Instant) (row : HostRow) : HostRow :=
  match synced_status statuses row with Some s => ho_with_status s now row | None => row end.
(** Who hears of it. *)
Definition sync_events (statuses : gmap string Z) (now : Instant) (hosts : list HostRow) : list NotificationEvent :=
  omap (λ row, match synced_status statuses row with Some _ => Some (HostUpdated now (ho_ID row) EmptyString None) | None => None end) hosts.

Lemma sync_hosts_run statuses l w : w_faults w = [] → NoDup (ho_ID <$> l) → (∀ r, r ∈ l → t_hosts (w_db w) !! ho_ID r = Some r) →
  ∃ w', sync_hosts statuses l w = (Ok (sync_events statuses (w_now w) l), w') ∧
    w_db w' = set_hosts (λ _, t_hosts (w_db w')) (w_db w) ∧
    ∀ id, t_hosts (w_db w') !! id = if bool_decide (id ∈ ho_ID <$> l) then synced statuses (w_now w) <$> t_hosts (w_db w) !! id else t_hosts (w_db w) !! id.
Proof.
  revert w. induction l as [|r l IH]; intros w Hw Hnd Hl.
  { exists w. split; [done|]. split; [by destruct (w_db w)|done]. }
  rewrite fmap_cons, NoDup_cons in Hnd. destruct Hnd as [Hni Hnd]. specialize (Hl r (list_elem_of_here _ _)) as Hr.
  assert (∃ w1, (match synced_status statuses r with
                 | None => ret []
                 | Some newStatus => let* updated := attempt (UpdateHostStatus (ho_ID r) newStatus) in
                                     match updated with Fail _ => ret [] | Ok _ => publishHostUpdated (ho_ID r) end end) w =
              (Ok (match synced_status statuses r with Some _ => [HostUpdated (w_now w) (ho_ID r) EmptyString None] | None => [] end), w1) ∧
            w_db w1 = set_hosts (<[ho_ID r := synced statuses (w_now w) r]>) (w_db w) ∧ w_faults w1 = [] ∧ w_now w1 = w_now w) as (w1 & E1 & D1 & F1 & N1).
  { unfold synced. destruct (synced_status statuses r) as [s|].
    - assert (UpdateHostStatus (ho_ID r) s w = (Ok tt, with_db (set_hosts (<[ho_ID r := ho_with_status s (w_now w) r]>) (w_db w)) w)) as E.
      { unfold UpdateHostStatus. rewrite exec_run by done. unfold x_UpdateHostStatus, update_host. by rewrite Hr. }
      eexists. split; [by rewrite (bind_Ok _ _ _ _ _ (attempt_run _ _ _ _ E))|]. by repeat split.
    - exists w. split; [done|]. unfold set_hosts. rewrite insert_id by done. split; [by destruct (w_db w)|done]. }
  destruct (IH w1 F1 Hnd) as (w2 & E2 & D2 & H2).
  { intros r' Hr'. rewrite D1. simpl. rewrite lookup_insert_ne; [by apply Hl, list_elem_of_further|].
    intros Heq. apply Hni. rewrite Heq. by apply list_elem_of_fmap_2. }
  exists w2. simpl. rewrite (bind_Ok _ _ _ _ _ E1), (bind_Ok _ _ _ _ _ E2), N1. split; [|split].
  - unfold ret, sync_events. simpl. by destruct (synced_status statuses r).
  - rewrite D2, D1. by destruct (w_db w).
  - intros id. rewrite H2, D1, N1. simpl. rewrite !bool_decide_decide. destruct (decide (id = ho_ID r)) as [->|Hne].
    + rewrite decide_False by done. rewrite decide_True by (by left). rewrite lookup_insert_eq. by rewrite Hr.
    + rewrite lookup_insert_ne by done. destruct (decide (id ∈ ho_ID <$> l)) as [Hin|Hin].
      * rewrite decide_True by (by right). done.
      * rewrite decide_False; [done|]. by intros [?|?]%elem_of_cons.
Qed.

Lemma rows_of_ids d : hosts_keyed d → (∀ r, r ∈ hosts_where (λ _, true) d ↔ t_hosts d !! ho_ID r = Some r) ∧ NoDup (ho_ID <$> hosts_where (λ _, true) d) ∧
  (∀ id r, t_hosts d !! id = Some r → id ∈ ho_ID <$> hosts_where (λ _, true) d).
Proof.
  intros Hk. assert (hosts_where (λ _, true) d ≡ₚ snd <$> map_to_list (t_hosts d)) as Hp.
  { unfold hosts_where. rewrite order_by_Permutation. unfold rows_of. induction (snd <$> map_to_list (t_hosts d)) as [|x l IH]; simpl; [done|by constructor]. }
  assert (∀ r, r ∈ hosts_where (λ _, true) d ↔ t_hosts d !! ho_ID r = Some r) as Hin.
  { intros r. rewrite Hp, list_elem_of_fmap. split.
    - intros ([i r'] & -> & Hi%elem_of_map_to_list). simpl. by rewrite (Hk _ _ Hi).
    - intros Hr. exists (ho_ID r, r). split; [done|]. by apply elem_of_map_to_list. }
  split; [done|]. split.
  - rewrite Hp. assert (ho_ID <$> (snd <$> map_to_list (t_hosts d)) = fst <$> map_to_list (t_hosts d)) as ->; [|apply NoDup_fst_map_to_list].
    rewrite <-list_fmap_compose. apply list_fmap_ext. intros i [k r] Hi. simpl. apply Hk, elem_of_map_to_list. by apply list_elem_of_lookup_2 in Hi.
  - intros id r Hr. apply list_elem_of_fmap. exists r. pose proof (Hk _ _ Hr) as Hi. split; [done|]. apply Hin. by rewrite Hi.
Qed.

Lemma NoDup_filtered_ids (f : HostRow → bool) l : NoDup (ho_ID <$> l) → NoDup (ho_ID <$> List.filter f l).
Proof.
  induction l as [|r l IH]; [done|]. rewrite fmap_cons. intros [Hni Hnd]%NoDup_cons. simpl. destruct (f r); [|by apply IH].
  rewrite fmap_cons. apply NoDup_cons. split; [|by apply IH]. intros (r' & Heq & Hr')%list_elem_of_fmap. apply Hni. rewrite Heq.
  apply list_elem_of_fmap_2. by apply list_elem_of_In, List.filter_In in Hr' as [Hr'%list_elem_of_In _].
Qed.

Lemma sync_events_ids statuses now l :
  sync_events statuses now l =
  (λ id, HostUpdated now id EmptyString None) <$> (ho_ID <$> List.filter (λ row, bool_decide (is_Some (synced_status statuses row))) l).
Proof.
  unfold sync_events. induction l as [|row l IH]; [done|]. cbn. destruct (synced_status statuses row) as [s|] eqn:E.
  - rewrite bool_decide_eq_true_2 by by eexists. cbn. by rewrite IH.
  - rewrite bool_decide_eq_false_2 by by intros [? [=]]. exact IH.
Qed.

(** The run in the words of the code. *)
Lemma sync_run {CC : ContainerClient} {DA : DockerAPI} (cfg : DockerConfig) (w w1 : World) (statuses : gmap string Z) :
  hosts_keyed (w_db w) → w_faults w = [] → ListAllContainerStatuses cfg w = (Ok statuses, w1) → abroad w w1 →
  ∃ w', syncAllStatuses cfg w = (Ok (sync_events statuses (w_now w) (hosts_where (λ _, true) (w_db w))), w') ∧
    w_db w' = set_hosts (fmap (synced statuses (w_now w))) (w_db w).
Proof.
  intros Hk Hw E (D1 & _ & N1 & F1). specialize (F1 Hw). unfold syncAllStatuses.
  rewrite (bind_Ok _ _ _ _ _ (attempt_run _ _ _ _ E)).
  rewrite (bind_Ok _ _ _ _ _ (attempt_run _ _ _ _ (reads_run _ _ w1 (reads_query q_ListHosts) F1))). unfold q_ListHosts. rewrite D1.
  destruct (rows_of_ids (w_db w) Hk) as (Hin & Hnd & Hall).
  destruct (sync_hosts_run statuses (hosts_where (λ _, true) (w_db w)) w1 F1 Hnd) as (w2 & E2 & D2 & H2).
  { intros r Hr. rewrite D1. by apply Hin. }
  rewrite N1 in E2. exists w2. split; [exact E2|]. rewrite D2, D1. unfold set_hosts. f_equal. apply map_eq. intros id. rewrite H2, D1, N1, lookup_fmap.
  case_bool_decide as Hid; [done|]. destruct (t_hosts (w_db w) !! id) as [row|] eqn:El; [|done]. destruct Hid. by eapply Hall.
Qed.

(** *** What a host should have

    In terms of the containers Docker lists, clause by clause. *)

(** A container of the image of the headless: with a tag, or without. *)
Definition of_our_image (cfg : DockerConfig) (c : ContainerSummary) : Prop :=
  cs_Image c = HeadlessImageName cfg ∨ ∃ tag, cs_Image c = HeadlessImageName cfg +:+ ":" +:+ tag.

(** What the state of a container means for its host. *)
Inductive state_means : string → string → Z → Prop :=
  | means_running text : state_means "running" text HeadlessHostStatus_RUNNING
  | means_exited text : Contains text "Exited (0)" = true → state_means "exited" text HeadlessHostStatus_EXITED
  | means_failed text : Contains text "Exited (0)" = false → state_means "exited" text HeadlessHostStatus_CRASHED
  | means_dead text : state_means "dead" text HeadlessHostStatus_CRASHED
  | means_other state text : state ∉ ["running"; "exited"; "dead"] → state_means state text HeadlessHostStatus_UNKNOWN.

(** [found_in cfg l row s]: by the containers [l] the host of [row] should have the status [s]. *)
Inductive found_in (cfg : DockerConfig) (l : list ContainerSummary) (row : HostRow) : Z → Prop :=
  | found_no_address e : parseConnectString (ho_ConnectString row) = Fail e → found_in cfg l row (ho_Status row)
  | found_container id port c s : parseConnectString (ho_ConnectString row) = Ok (id, port) →
      c ∈ l → of_our_image cfg c → cs_ID c = id → state_means (cs_State c) (cs_Status c) s → found_in cfg l row s
  | found_lost id port : parseConnectString (ho_ConnectString row) = Ok (id, port) →
      (∀ c, c ∈ l → of_our_image cfg c → cs_ID c ≠ id) →
      ho_Status row = HeadlessHostStatus_RUNNING ∨ ho_Status row = HeadlessHostStatus_STARTING →
      found_in cfg l row HeadlessHostStatus_CRASHED
  | found_ended id port : parseConnectString (ho_ConnectString row) = Ok (id, port) →
      (∀ c, c ∈ l → of_our_image cfg c → cs_ID c ≠ id) →
      ho_Status row ≠ HeadlessHostStatus_RUNNING → ho_Status row ≠ HeadlessHostStatus_STARTING →
      found_in cfg l row (ho_Status row).

Lemma is_ours_iff cfg c : is_ours cfg c = true ↔ of_our_image cfg c.
Proof.
  unfold is_ours, of_our_image, HasPrefix. rewrite orb_true_iff, !bool_decide_eq_true. split.
  - intros [[tag H%CutPrefix_Some]|H]; [right; exists tag; by rewrite H, append_assoc|by left].
  - intros [H|(tag & ->)]; [by right|left]. exists tag. rewrite <-append_assoc. apply CutPrefix_app.
Qed.

Lemma containerStatus_means state text : state_means state text (containerStatusToEntityStatus state text).
Proof.
  unfold containerStatusToEntityStatus. repeat case_bool_decide; subst; [constructor|destruct (Contains _ _) eqn:E; by constructor|constructor|].
  constructor. rewrite !not_elem_of_cons. repeat split; [done..|]. apply not_elem_of_nil.
Qed.

Definition add_status (cfg : DockerConfig) (m : gmap string Z) (c : ContainerSummary) : gmap string Z :=
  if is_ours cfg c then <[cs_ID c := containerStatusToEntityStatus (cs_State c) (cs_Status c)]> m else m.

Lemma add_statuses_other cfg l m id : (∀ c, c ∈ l → is_ours cfg c = true → cs_ID c ≠ id) → foldl (add_status cfg) m l !! id = m !! id.
Proof.
  revert m. induction l as [|c l IH]; intros m H; [done|]. simpl. rewrite IH by (intros c' Hc'; apply H; by right).
  unfold add_status. destruct (is_ours cfg c) eqn:E; [|done]. apply lookup_insert_ne, H; [by left|done].
Qed.
Lemma add_statuses_found cfg l m c : NoDup (cs_ID <$> l) → c ∈ l → is_ours cfg c = true →
  foldl (add_status cfg) m l !! cs_ID c = Some (containerStatusToEntityStatus (cs_State c) (cs_Status c)).
Proof.
  revert m. induction l as [|c' l IH]; intros m Hn Hin Ho; [by apply elem_of_nil in Hin|].
  rewrite fmap_cons in Hn. apply NoDup_cons in Hn as [Hni Hn]. simpl. apply elem_of_cons in Hin as [<-|Hin]; [|by apply IH].
  rewrite add_statuses_other; [unfold add_status; rewrite Ho; apply lookup_insert_eq|].
  intros c' Hc' _ Heq. apply Hni. rewrite <-Heq. by apply list_elem_of_fmap_2.
Qed.
Lemma statuses_of_cases cfg l id : NoDup (cs_ID <$> l) →
  (∃ c, c ∈ l ∧ is_ours cfg c = true ∧ cs_ID c = id ∧ statuses_of cfg l !! id = Some (containerStatusToEntityStatus (cs_State c) (cs_Status c))) ∨
  ((∀ c, c ∈ l → is_ours cfg c = true → cs_ID c ≠ id) ∧ statuses_of cfg l !! id = None).
Proof.
  intros Hn. change (statuses_of cfg l) with (foldl (add_status cfg) ∅ l).
  destruct (decide (Exists (λ c, is_ours cfg c = true ∧ cs_ID c = id) l)) as [(c & Hc & Ho & Hid)%Exists_exists|Hno].
  - left. exists c. split; [done|]. split; [done|]. split; [done|]. rewrite <-Hid. by apply add_statuses_found.
  - right. assert (∀ c, c ∈ l → is_ours cfg c = true → cs_ID c ≠ id) as H by (intros c Hc Ho Hid; apply Hno, Exists_exists; eauto).
    split; [done|]. by rewrite add_statuses_other.
Qed.

(** What the code decides is what the host should have. *)
Lemma synced_found cfg l row : NoDup (cs_ID <$> l) →
  found_in cfg l row (default (ho_Status row) (synced_status (statuses_of cfg l) row)) ∧
  synced_status (statuses_of cfg l) row ≠ Some (ho_Status row).
Proof.
  intros Hn. unfold synced_status. destruct (parseConnectString (ho_ConnectString row)) as [[id port]|e] eqn:Ep; [|split; [by eapply found_no_address|done]].
  destruct (statuses_of_cases cfg l id Hn) as [(c & Hc & Ho & Hid & ->)|[Hno ->]].
  - pose proof (found_container cfg l row id port c _ Ep Hc (proj1 (is_ours_iff cfg c) Ho) Hid (containerStatus_means _ _)) as Hf.
    destruct (Z.eqb_spec (ho_Status row) (containerStatusToEntityStatus (cs_State c) (cs_Status c))) as [Heq|Hne]; simpl; [|split; [done|congruence]].
    split; [|done]. by rewrite Heq.
  - assert (∀ c, c ∈ l → of_our_image cfg c → cs_ID c ≠ id) as Hno' by (intros c Hc Ho; by apply Hno; [|apply is_ours_iff]).
    destruct ((ho_Status row =? HeadlessHostStatus_RUNNING)%Z || (ho_Status row =? HeadlessHostStatus_STARTING)%Z) eqn:Es.
    + rewrite orb_true_iff, !Z.eqb_eq in Es. pose proof (found_lost cfg l row id port Ep Hno' Es) as Hf.
      assert (ho_Status row ≠ HeadlessHostStatus_CRASHED) as Hne by (destruct Es as [Es | Es]; rewrite Es; discriminate).
      rewrite (proj2 (Z.eqb_neq _ _) Hne). split; [done|congruence].
    + rewrite orb_false_iff, !Z.eqb_neq in Es. destruct Es. split; [by eapply found_ended|done].
Qed.

(** C35. At the start of the program, with a database that works and a Docker
    that lists its containers, each identifier once: each host gets the status it should have by them
    ([found_in]): that of its container if it is there, RUNNING, EXITED,
    CRASHED or UNKNOWN by its state; CRASHED if there is none and the host was
    RUNNING or STARTING; and otherwise, or if its connect string names no
    container, the one it has.  A row whose status is right is untouched,
    nothing else changes in the store, and the users hear once of exactly the
    hosts whose row changed. *)
Theorem sync_exact (CC : ContainerClient) (DA : DockerAPI) (DL : DockerLaws) (cfg : DockerConfig) (w w1 w2 : World) (l : list ContainerSummary) :
  hosts_keyed (w_db w) → w_faults w = [] → HeadlessImageName cfg ≠ EmptyString →
  api_New w = (Ok tt, w1) → api_ContainerList None w1 = (Ok l, w2) → NoDup (cs_ID <$> l) →
  ∃ ids w', syncAllStatuses cfg w = (Ok ((λ id, HostUpdated (w_now w) id EmptyString None) <$> ids), w') ∧
    w_db w' = set_hosts (λ _, t_hosts (w_db w')) (w_db w) ∧
    (∀ id, t_hosts (w_db w) !! id = None → t_hosts (w_db w') !! id = None) ∧
    (∀ id row, t_hosts (w_db w) !! id = Some row →
       ∃ s row', found_in cfg l row s ∧ t_hosts (w_db w') !! id = Some row' ∧ ho_Status row' = s ∧
         row' = if (s =? ho_Status row)%Z then row else ho_with_status s (w_now w) row) ∧
    NoDup ids ∧ ∀ id, id ∈ ids ↔ t_hosts (w_db w') !! id ≠ t_hosts (w_db w) !! id.
Proof.
  intros Hk Hw Hname E1 E2 Hnd. pose proof (ListAllContainerStatuses_abroad cfg w) as Ha.
  assert (ListAllContainerStatuses cfg w = (Ok (statuses_of cfg l), w2)) as E.
  { unfold ListAllContainerStatuses, or_no_client, newDockerClient. rewrite (bind_Ok _ _ _ _ _ (on_err_run _ _ _ _ _ E1)).
    rewrite bool_decide_eq_false_2 by done. by rewrite (bind_Ok _ _ _ _ _ (on_err_run _ _ _ _ _ E2)). }
  rewrite E in Ha. destruct (sync_run cfg w w2 (statuses_of cfg l) Hk Hw E Ha) as (w' & Hrun & Hdb). set (st := statuses_of cfg l) in *.
  assert (∀ row, synced st (w_now w) row = if (default (ho_Status row) (synced_status st row) =? ho_Status row)%Z then row
                   else ho_with_status (default (ho_Status row) (synced_status st row)) (w_now w) row) as Hsy.
  { intros row. unfold synced. destruct (synced_status st row) as [s|] eqn:Es; simpl; [|by rewrite Z.eqb_refl].
    destruct (Z.eqb_spec s (ho_Status row)) as [->|]; [|done]. by destruct (proj2 (synced_found cfg l row Hnd)). }
  destruct (rows_of_ids (w_db w) Hk) as (Hin & Hnodup & Hall).
  set (changed := List.filter (λ row, bool_decide (is_Some (synced_status st row))) (hosts_where (λ _, true) (w_db w))).
  exists (ho_ID <$> changed), w'. split; [by rewrite Hrun, sync_events_ids|].
  split; [rewrite Hdb; by destruct (w_db w)|]. rewrite Hdb. simpl. setoid_rewrite lookup_fmap. split; [by intros id ->|]. split; [|split].
  - intros id row Hrow. exists (default (ho_Status row) (synced_status st row)), (synced st (w_now w) row). rewrite Hrow.
    split; [exact (proj1 (synced_found cfg l row Hnd))|]. split; [done|]. rewrite Hsy. split; [|done]. destruct (Z.eqb_spec (default (ho_Status row) (synced_status st row)) (ho_Status row)); [congruence|done].
  - by apply NoDup_filtered_ids.
  - intros id. rewrite list_elem_of_fmap. unfold changed. setoid_rewrite list_elem_of_In. setoid_rewrite List.filter_In. setoid_rewrite <-list_elem_of_In.
    setoid_rewrite bool_decide_eq_true. split.
    + intros (row & -> & Hr%Hin & [s Hs]). rewrite Hr. simpl. intros [= Heq]. rewrite Hsy, Hs in Heq. simpl in Heq.
      destruct (Z.eqb_spec s (ho_Status row)) as [->|Hne]; [by destruct (proj2 (synced_found cfg l row Hnd))|]. apply Hne. by rewrite <-Heq.
    + destruct (t_hosts (w_db w) !! id) as [row|] eqn:Er; [|done]. simpl. intros Hne. exists row. split; [by symmetry; apply (Hk id row)|]. split; [by apply Hin; rewrite (Hk _ _ Er)|].
      unfold synced in Hne. destruct (synced_status st row); [by eexists|done].
Qed.

(** ** Hosts: a concrete Docker

    One container, a registry with two pages, and a host that lost its
    container. *)

#[local] Existing Instance quiet_container.
#[local] Existing Instance quiet_outside.
#[local] Existing Instance plain_config.

(** ** Docker *)

Definition first_page : list string := ["latest"; "2026.1.1.1-v1.0.0"].
Definition second_page : list string := ["prerelease-2026.2.1.7-v1.1.0"].
Definition local_url : string := "https://registry.local/v2/user/headless/tags/list".
Definition next_page (l : option string) : list string :=
  match l with
  | None => first_page
  | Some t => if bool_decide (t = "2026.1.1.1-v1.0.0") then second_page else []
  end.
(** what follows the address in a request *)
Definition asked_from (url : string) : option string := CutPrefix (local_url +:+ "?last=") url.
Lemma asked_last t : asked_from (local_url +:+ "?last=" +:+ t) = Some t.
Proof. unfold asked_from. rewrite <-append_assoc. apply CutPrefix_app. Qed.
#[local] Instance local_docker : DockerAPI := {
  api_New := ret tt;
  api_ContainerList _ := ret [mkContainerSummary "abc" "registry.local/user/headless:2026.1.1.1-v1.0.0" "exited" "Exited (137) 2 hours ago"];
  api_ContainerCreate _ := ret "def";
  api_ContainerStart _ := ret tt;
  api_ContainerStop _ _ := ret tt;
  api_ContainerKill _ _ := ret tt;
  api_ContainerRemove _ := ret tt;
  api_ImageList _ := ret [["registry.local/user/headless:2026.1.1.1-v1.0.0"]];
  api_ImagePull _ _ := ret EmptyString;
  http_Get url _ := ret (200%Z, Ok (next_page (asked_from url)));
  grpc_NewClient a := ret a;
  net_FreePort := ret 40123%Z }.
#[local] Instance local_docker_laws : DockerLaws.
Proof. split; [exact (client_laws (OutsideLaws := quiet_outside))|..]; intros; apply ret_abroad. Qed.
Definition local_cfg : DockerConfig := mkDockerConfig "registry.local/user/headless" EmptyString EmptyString EmptyString.

(** ** Witnesses *)

Lemma tag_pages_exact_witness :
  tag_pages 3 local_url None None sessions_world =
    (Ok [mkContainerImage "2026.1.1.1-v1.0.0" "2026.1.1.1" false "v1.0.0"; mkContainerImage "prerelease-2026.2.1.7-v1.1.0" "2026.2.1.7" true "v1.1.0"], sessions_world).
Proof.
  refine (eq_trans (tag_pages_exact _ local_docker local_url None next_page None (first_page ++ second_page ++ []) 3 3 sessions_world _ _ _) _).
  - intros [t|] w; [|reflexivity]. unfold http_Get, local_docker. by rewrite asked_last.
  - exact (paged_more next_page None "2026.1.1.1-v1.0.0" (second_page ++ []) 2 eq_refl
      (paged_more next_page (Some "2026.1.1.1-v1.0.0") "prerelease-2026.2.1.7-v1.1.0" [] 1 eq_refl
        (paged_end next_page (Some "prerelease-2026.2.1.7-v1.1.0") eq_refl))).
  - lia.
  - apply (f_equal (λ r, (Ok r, sessions_world))). vm_compute. reflexivity.
Defined.

Definition started_host : HostRow := ho_with_connect "def:40123" 0%Z alice_host.
Definition started_db : DB := set_hosts (<["h1" := started_host]>) (w_db hosted_world).
Definition host_params : HostStartParams := mkHostStart "h1" 1 "2026.1.1.1-v1.0.0" alice_account (Some new_config).

Lemma started_container_is_found_witness :
  ∃ id port config, parseConnectString "def:40123" = Ok (id, port) ∧ q_GetHostByContainerID id 0%Z started_db = Ok started_host ∧
    (∃ w3 w4, api_ContainerCreate config w3 = (Ok id, w4)) ∧ "RpcHostUrl=http://localhost:" +:+ fmt_d port ∈ cc_Env config ∧
    cc_LogTag config = log_tag "h1" 1 ∧ cc_Image config = "registry.local/user/headless:2026.1.1.1-v1.0.0".
Proof.
  assert ((Docker_Start local_cfg (λ _, "{}") host_params sessions_world).1 = Ok "def:40123") as Hok by (vm_compute; reflexivity).
  destruct (Docker_Start local_cfg (λ _, "{}") host_params sessions_world) as [r w'] eqn:E. simpl in Hok. subst r.
  apply (started_container_is_found plain_config quiet_container local_docker local_cfg (λ _, "{}") host_params sessions_world "def:40123" w' started_db started_host).
  - intros c w id [= <-] x Hx. repeat (apply elem_of_cons in Hx as [->|Hx]; [reflexivity|]). by apply elem_of_nil in Hx.
  - intros w port [= <-]. split; [discriminate|reflexivity].
  - exact E.
  - reflexivity.
  - reflexivity.
  - intros i h. change (t_hosts started_db) with (<["h1" := started_host]> (<["h1" := alice_host]> (∅ : gmap string HostRow))).
    intros [[<- _]|[Hne [[<- _]|[_ H]]%lookup_insert_Some]]%lookup_insert_Some Hi; [done|done|by rewrite lookup_empty in H].
Defined.

Definition started_world : World := with_db started_db hosted_world.
Definition other_container : ContainerSummary :=
  mkContainerSummary "abc" "registry.local/user/headless:2026.1.1.1-v1.0.0" "exited" "Exited (137) 2 hours ago".

(** The container of the host is gone, another one is there. *)
Lemma sync_exact_witness :
  ∃ ids w', syncAllStatuses local_cfg started_world =
      (Ok ((λ id, HostUpdated (w_now started_world) id EmptyString None) <$> ids), w') ∧ "h1" ∈ ids ∧
    ho_Status <$> t_hosts (w_db w') !! "h1" = Some HeadlessHostStatus_CRASHED.
Proof.
  destruct (sync_exact quiet_container local_docker local_docker_laws local_cfg started_world started_world started_world [other_container])
    as (ids & w' & E & _ & _ & Hrows & _ & Hids).
  - intros id r. change (t_hosts (w_db started_world)) with (<["h1" := started_host]> (<["h1" := alice_host]> (∅ : gmap string HostRow))).
    intros [[<- <-]|[_ [[<- <-]|[_ H]]%lookup_insert_Some]]%lookup_insert_Some; [done..|by rewrite lookup_empty in H].
  - reflexivity.
  - discriminate.
  - reflexivity.
  - reflexivity.
  - apply NoDup_singleton.
  - assert (t_hosts (w_db started_world) !! "h1" = Some started_host) as Hrow by reflexivity.
    assert (parseConnectString (ho_ConnectString started_host) = Ok ("def", 40123%Z)) as Hparse by (vm_compute; reflexivity).
    destruct (Hrows "h1" started_host Hrow) as (s & row' & Hf & Hrow' & Hs & _).
    assert (s = HeadlessHostStatus_CRASHED) as ->.
    { destruct Hf as [e Hp|id port c s Hp Hin _ Hc _|id port _ _ _|id port _ _ Hrun _].
      - rewrite Hparse in Hp. discriminate Hp.
      - rewrite Hparse in Hp. injection Hp as <- _. apply list_elem_of_singleton in Hin as ->. discriminate Hc.
      - reflexivity.
      - destruct Hrun. reflexivity. }
    exists ids, w'. split; [exact E|]. rewrite Hrow'. simpl. split; [|by rewrite Hs].
    apply Hids. rewrite Hrow, Hrow'. intros [= ->]. discriminate Hs.
Defined.
