(* ===== verification/Accounts.v ===== *)
(** * Headless accounts

    [src/db/headless_accounts.sql.go], [src/usecase/headless_account_usecase.go]
    and the client of the Resonite cloud it calls,
    [src/lib/skyfrost/client.go], as an interface.  An account changes only
    for callers who may write accounts in its group. *)

From S2P Require Import Prelude Entity Models Queries Ports PermissionUsecase Repositories UserUsecase Headless Resources.
From S2P Require Import PermissionDecisions PermissionSystem PermissionSafety SessionUsecase SessionSafety HostRepo HostUsecase HostSafety HostTheorems.
From stdpp Require Import base gmap strings list.
From Stdlib Require Import ZArith Lia.

(** ** Statements *)

Record CreateHeadlessAccountParams : Type := mkCreateAccount {
  ca_ResoniteID : string; ca_Credential : string; ca_Password : string; ca_LastDisplayName : option string; ca_LastIconUrl : option string;
  ca_GroupID : string; ca_CreatedBy : option string }.

Definition new_account_row (p : CreateHeadlessAccountParams) (now : Instant) : HeadlessAccountRow :=
  mkHeadlessAccountRow (ca_ResoniteID p) (ca_Credential p) (ca_Password p) (ca_LastDisplayName p) (ca_LastIconUrl p)
    (Some now) (Some now) (ca_GroupID p) (ca_CreatedBy p).

Definition x_CreateHeadlessAccount (p : CreateHeadlessAccountParams) (now : Instant) (d : DB) : Result (unit * DB) :=
  check (negb (present (ca_ResoniteID p) (t_headless_accounts d))) "headless_accounts_pkey" >>>
  check (present (ca_GroupID p) (t_groups d)) "headless_accounts_group_id_fkey" >>>
  check (opt_present (ca_CreatedBy p) (t_users d)) "headless_accounts_created_by_fkey" >>>
  Ok (tt, set_headless_accounts (<[ca_ResoniteID p := new_account_row p now]>) d).
Definition Queries_CreateHeadlessAccount p : Go unit := exec (x_CreateHeadlessAccount p).

Definition x_DeleteHeadlessAccount (id : string) (_ : Instant) (d : DB) : Result (unit * DB) :=
  Ok (tt, set_headless_accounts (delete id) d).
Definition Queries_DeleteHeadlessAccount id : Go unit := exec (x_DeleteHeadlessAccount id).

(** An UPDATE of the row with the key, if any; the trigger
    update_headless_accounts_modtime sets updated_at. *)
Definition ha_update (credential password : string) (name icon : option string) (now : Instant) (r : HeadlessAccountRow) : HeadlessAccountRow :=
  mkHeadlessAccountRow (ha_ResoniteID r) credential password name icon (ha_CreatedAt r) (Some now) (ha_GroupID r) (ha_CreatedBy r).
Definition update_account (id : string) (f : HeadlessAccountRow → HeadlessAccountRow) (d : DB) : Result (unit * DB) :=
  match t_headless_accounts d !! id with
  | Some r => Ok (tt, set_headless_accounts (<[id := f r]>) d)
  | None => Ok (tt, d)
  end.

Definition x_UpdateAccountIconUrl (id : string) (icon : option string) (now : Instant) : DB → Result (unit * DB) :=
  update_account id (λ r, ha_update (ha_Credential r) (ha_Password r) (ha_LastDisplayName r) icon now r).
Definition UpdateAccountIconUrl id icon : Go unit := exec (x_UpdateAccountIconUrl id icon).
Definition x_UpdateAccountInfo (id : string) (name icon : option string) (now : Instant) : DB → Result (unit * DB) :=
  update_account id (λ r, ha_update (ha_Credential r) (ha_Password r) name icon now r).
Definition UpdateAccountInfo id name icon : Go unit := exec (x_UpdateAccountInfo id name icon).
Definition x_UpdateHeadlessAccountCredentials (id credential password : string) (now : Instant) : DB → Result (unit * DB) :=
  update_account id (λ r, ha_update credential password (ha_LastDisplayName r) (ha_LastIconUrl r) now r).
Definition Queries_UpdateHeadlessAccountCredentials id credential password : Go unit :=
  exec (x_UpdateHeadlessAccountCredentials id credential password).

Definition account_by_id (a b : HeadlessAccountRow) : bool := String.leb (ha_ResoniteID a) (ha_ResoniteID b).
Definition q_ListHeadlessAccounts (_ : Instant) (d : DB) : Result (list HeadlessAccountRow) :=
  Ok (order_by account_by_id (rows_of (t_headless_accounts d))).
Definition Queries_ListHeadlessAccounts : Go (list HeadlessAccountRow) := query q_ListHeadlessAccounts.

Record ListHeadlessAccountsPagedParams : Type := mkListAccountsPaged {
  lap_GroupIds : option (list string); lap_PageOffset : Z; lap_PageSize : Z }.
Definition q_ListHeadlessAccountsPaged (p : ListHeadlessAccountsPagedParams) (_ : Instant) (d : DB) : Result (list (HeadlessAccountRow * Z)) :=
  limit_offset (lap_PageSize p) (lap_PageOffset p)
    (order_by account_by_id
       (List.filter (λ r, match lap_GroupIds p with None => true | Some gs => bool_decide (ha_GroupID r ∈ gs) end)
          (rows_of (t_headless_accounts d)))).
Definition Queries_ListHeadlessAccountsPaged p : Go (list (HeadlessAccountRow * Z)) := query (q_ListHeadlessAccountsPaged p).

(** ** The Resonite cloud *)

Record UserProfile : Type := mkUserProfile {
  up_IconUrl : string; up_Tagline : string; up_DisplayBadges : list (string * string); up_Description : string }.
Record Contact : Type := mkContact {
  ct_Id : string; ct_Username : string; ct_Status : string; ct_IsAccepted : bool; ct_Profile : UserProfile }.
Record WorldRecord : Type := mkWorldRecord {
  wr_ID : string; wr_OwnerID : string; wr_OwnerName : string; wr_Name : string; wr_Description : string; wr_ThumbnailUri : string; wr_IsFeatured : bool }.
Record SearchWorldsResult : Type := mkSearchWorlds { swr_Records : list WorldRecord; swr_HasMore : bool }.
(** the fields of [StorageInfo] the callers read *)
Record StorageInfo : Type := mkStorageInfo { si_UsedBytes : Z; si_QuotaBytes : Z }.

(** [skyfrost.Client].  [UserLogin] answers the id of the user who logged in;
    [ProcessIconImage] decodes and encodes images. *)
Class SkyfrostClient {SF : Skyfrost} : Type := {
  UserLogin : string → string → Go string;
  GetStorageInfo : string → string → string → Go StorageInfo;
  GetContacts : string → string → Go (list Contact);
  UploadTextureRecord : string → string → string → string → list Z → Go (string * string);
  UpdateUserProfile : string → string → UserProfile → Go unit;
  SearchWorlds : string → bool → Z → Go SearchWorldsResult;
  GetOwnWorlds : string → string → Z → Go SearchWorldsResult;
  ProcessIconImage : list Z → Result (list Z) }.

(** The cloud knows nothing of the store. *)
Class SkyfrostLaws {SF : Skyfrost} {SK : SkyfrostClient} : Prop := {
  UserLogin_abroad c p : preserves abroad (UserLogin c p);
  GetStorageInfo_abroad c p o : preserves abroad (GetStorageInfo c p o);
  GetContacts_abroad c p : preserves abroad (GetContacts c p);
  UploadTextureRecord_abroad c p n q d : preserves abroad (UploadTextureRecord c p n q d);
  UpdateUserProfile_abroad c p u : preserves abroad (UpdateUserProfile c p u);
  SearchWorlds_abroad q f i : preserves abroad (SearchWorlds q f i);
  GetOwnWorlds_abroad c p i : preserves abroad (GetOwnWorlds c p i) }.

(** ** Use case *)

Section Usecase.
Context {SF : Skyfrost} {SK : SkyfrostClient}.

Definition CreateHeadlessAccount (ctx : Ctx) (credential password groupID : string) (createdBy : option string) : Go unit :=
  RequirePermissionForGroup ctx groupID PermKey_AccountWrite ;;;
  let* userId := on_err (EWrap "failed to login") (UserLogin credential password) in
  let* userInfo := FetchUserInfo userId in
  Queries_CreateHeadlessAccount
    (mkCreateAccount userId credential password (Some (UI_UserName userInfo)) (Some (UI_IconUrl userInfo)) groupID createdBy).

Definition requireAccountWrite (ctx : Ctx) (resoniteID : string) : Go unit :=
  let* account := GetHeadlessAccount resoniteID in
  RequirePermissionForGroup ctx (HeadlessAccount_GroupID account) PermKey_AccountWrite.

Definition UpdateHeadlessAccountCredentials (ctx : Ctx) (resoniteID credential password : string) : Go unit :=
  requireAccountWrite ctx resoniteID ;;;
  let* userId := on_err (EWrap "failed to login") (UserLogin credential password) in
  let* userInfo := FetchUserInfo userId in
  if negb (bool_decide (resoniteID = UI_ID userInfo)) then fail (EMsg "does not match resonite ID")
  else Queries_UpdateHeadlessAccountCredentials resoniteID credential password.

Definition ListHeadlessAccounts : Go (list HeadlessAccount) :=
  let* l := Queries_ListHeadlessAccounts in ret (headlessAccountToEntity <$> l).

Record ListAccountsPagedResult : Type := mkAccountsPage { apr_Accounts : list HeadlessAccount; apr_TotalCount : Z }.
Record ListAccountsPagedOptions : Type := mkAccountsOptions { apo_PageIndex : Z; apo_PageSize : Z; apo_GroupIDs : option (list string) }.

Definition ListHeadlessAccountsPaged (o : ListAccountsPagedOptions) : Go ListAccountsPagedResult :=
  let* rows := Queries_ListHeadlessAccountsPaged
                 (mkListAccountsPaged (apo_GroupIDs o) (int32 (apo_PageIndex o * apo_PageSize o)) (apo_PageSize o)) in
  ret (mkAccountsPage (headlessAccountToEntity <$> (fst <$> rows)) match rows with [] => 0%Z | r :: _ => int32 (snd r) end).

Definition DeleteHeadlessAccount (ctx : Ctx) (resoniteID : string) : Go unit :=
  requireAccountWrite ctx resoniteID ;;; Queries_DeleteHeadlessAccount resoniteID.

Definition RefetchHeadlessAccountInfo (ctx : Ctx) (resoniteID : string) : Go unit :=
  requireAccountWrite ctx resoniteID ;;;
  let* userInfo := on_err (EWrap "failed to fetch user info") (FetchUserInfo resoniteID) in
  UpdateAccountInfo resoniteID (Some (UI_UserName userInfo)) (Some (UI_IconUrl userInfo)).

(** the profile that is sent has the new icon and nothing else *)
Definition UpdateHeadlessAccountIcon (ctx : Ctx) (resoniteID : string) (iconData : list Z) : Go string :=
  requireAccountWrite ctx resoniteID ;;;
  let* account := on_err (EWrap "failed to get headless account") (Queries_GetHeadlessAccount resoniteID) in
  let* processedData := on_err (EWrap "failed to process icon image") (lift (ProcessIconImage iconData)) in
  let* uploaded := on_err (EWrap "failed to upload icon")
                     (UploadTextureRecord (ha_Credential account) (ha_Password account) "Profile Icon" "Inventory" processedData) in
  let iconUrl := snd uploaded in
  on_err (EWrap "failed to update profile")
    (UpdateUserProfile (ha_Credential account) (ha_Password account) (mkUserProfile iconUrl EmptyString [] EmptyString)) ;;;
  on_err (EWrap "failed to update account info in DB") (UpdateAccountIconUrl resoniteID (Some iconUrl)) ;;;
  ret iconUrl.
End Usecase.

(** ** Who changes an account *)

Definition same_account (r r' : HeadlessAccountRow) : Prop :=
  ha_ResoniteID r' = ha_ResoniteID r ∧ ha_GroupID r' = ha_GroupID r ∧ ha_CreatedBy r' = ha_CreatedBy r ∧ ha_CreatedAt r' = ha_CreatedAt r.
#[export] Instance same_account_preorder : PreOrder same_account.
Proof. split; [done|]. intros r1 r2 r3 (?&?&?&?) (?&?&?&?). repeat split; congruence. Qed.

(** One account was edited or is gone. *)
Definition account_edited (o o' : option HeadlessAccountRow) : Prop :=
  match o with None => o' = None | Some r => o' = None ∨ ∃ r', o' = Some r' ∧ same_account r r' end.
#[export] Instance account_edited_preorder : PreOrder account_edited.
Proof.
  split; [intros [r|]; simpl; [right; by exists r|done]|]. intros [r1|] o2 o3; simpl; [|by intros ->].
  intros [->|(r2 & -> & H1)]; simpl; [intros ->; by left|]. intros [->|(r3 & -> & H2)]; [by left|right]. exists r3. split; [done|by etrans].
Qed.

Definition account_touched (id : string) (d d' : DB) : Prop :=
  d' = set_headless_accounts (λ _, t_headless_accounts d') d ∧
  (∀ i, i ≠ id → t_headless_accounts d' !! i = t_headless_accounts d !! i) ∧
  account_edited (t_headless_accounts d !! id) (t_headless_accounts d' !! id).
#[export] Instance account_touched_preorder id : PreOrder (account_touched id).
Proof.
  split; [intros d; split; [by destruct d|]; split; [done|reflexivity]|]. intros d1 d2 d3 (O1 & N1 & E1) (O2 & N2 & E2).
  split; [rewrite O2, O1; by destruct d1, d2, d3|]. split; [intros i Hi; by rewrite N2, N1|by etrans].
Qed.

Inductive AccountCall : Type :=
  | CallAccountCreate (credential password groupID : string) (createdBy : option string)
  | CallAccountCredentials (resoniteID credential password : string)
  | CallAccountList
  | CallAccountListPaged (o : ListAccountsPagedOptions)
  | CallAccountGet (resoniteID : string)
  | CallAccountDelete (resoniteID : string)
  | CallAccountRefetch (resoniteID : string)
  | CallAccountIcon (resoniteID : string) (iconData : list Z).

Section Calls.
Context {SF : Skyfrost} {SK : SkyfrostClient} {SL : SkyfrostLaws}.

Definition account_call (ctx : Ctx) (c : AccountCall) : Go unit :=
  match c with
  | CallAccountCreate cr pw g by_ => CreateHeadlessAccount ctx cr pw g by_
  | CallAccountCredentials id cr pw => UpdateHeadlessAccountCredentials ctx id cr pw
  | CallAccountList => discard ListHeadlessAccounts
  | CallAccountListPaged o => discard (ListHeadlessAccountsPaged o)
  | CallAccountGet id => discard (GetHeadlessAccount id)
  | CallAccountDelete id => DeleteHeadlessAccount ctx id
  | CallAccountRefetch id => RefetchHeadlessAccountInfo ctx id
  | CallAccountIcon id data => discard (UpdateHeadlessAccountIcon ctx id data)
  end.

(** An account that was registered. *)
Definition account_added (credential password g : string) (by_ : option string) (d d' : DB) : Prop :=
  ∃ row, t_headless_accounts d !! ha_ResoniteID row = None ∧ d' = set_headless_accounts (<[ha_ResoniteID row := row]>) d ∧
    ha_GroupID row = g ∧ ha_CreatedBy row = by_ ∧ ha_Credential row = credential ∧ ha_Password row = password.

Definition account_permitted (ctx : Ctx) (c : AccountCall) (d d' : DB) : Prop :=
  d' = d ∨
  (∃ id row, t_headless_accounts d !! id = Some row ∧ may_manage ctx d (ha_GroupID row) PermKey_AccountWrite ∧ account_touched id d d') ∨
  (∃ cr pw g by_, c = CallAccountCreate cr pw g by_ ∧ may_manage ctx d g PermKey_AccountWrite ∧ account_added cr pw g by_ d d').

#[local] Hint Extern 6 (preserves (db_rel _) _) =>
  (apply db_rel_abroad; [typeclasses eauto|]; first [apply UserLogin_abroad|apply GetStorageInfo_abroad|apply GetContacts_abroad
     |apply UploadTextureRecord_abroad|apply UpdateUserProfile_abroad|apply SearchWorlds_abroad|apply GetOwnWorlds_abroad]) : preserves.

Lemma FetchUserInfo_same Q `{!PreOrder Q} id : preserves (db_rel Q) (FetchUserInfo id).
Proof. intros w. unfold db_rel. destruct (FetchUserInfo_db id w) as [-> _]. reflexivity. Qed.
#[local] Hint Resolve FetchUserInfo_same : preserves.

Lemma update_account_touches id f : (∀ t r, same_account r (f t r)) → preserves (db_rel (account_touched id)) (exec (λ t, update_account id (f t))).
Proof.
  intros Hf. apply db_rel_exec; [apply _|]. intros t d a d'. unfold update_account. destruct (t_headless_accounts d !! id) as [r|] eqn:E; intros [= _ <-]; [|reflexivity].
  split; [by destruct d|]. simpl. split; [intros i Hi; by apply lookup_insert_ne|]. rewrite lookup_insert_eq, E. right. eauto.
Qed.
Lemma Delete_touches id : preserves (db_rel (account_touched id)) (Queries_DeleteHeadlessAccount id).
Proof.
  apply db_rel_exec; [apply _|]. intros t d a d' [= _ <-]. split; [by destruct d|]. simpl. split; [intros i Hi; by apply lookup_delete_ne|].
  rewrite lookup_delete_eq. by destruct (t_headless_accounts d !! id); [left|].
Qed.
Lemma Icon_touches id icon : preserves (db_rel (account_touched id)) (UpdateAccountIconUrl id icon).
Proof. by apply (update_account_touches id (λ t r, ha_update (ha_Credential r) (ha_Password r) (ha_LastDisplayName r) icon t r)). Qed.
Lemma Info_touches id name icon : preserves (db_rel (account_touched id)) (UpdateAccountInfo id name icon).
Proof. by apply (update_account_touches id (λ t r, ha_update (ha_Credential r) (ha_Password r) name icon t r)). Qed.
Lemma Credentials_touches id cr pw : preserves (db_rel (account_touched id)) (Queries_UpdateHeadlessAccountCredentials id cr pw).
Proof. by apply (update_account_touches id (λ t r, ha_update cr pw (ha_LastDisplayName r) (ha_LastIconUrl r) t r)). Qed.
#[local] Hint Resolve Delete_touches Icon_touches Info_touches Credentials_touches : preserves.

Lemma requireAccountWrite_run ctx id w :
  let (r, w') := requireAccountWrite ctx id w in
  only_faults w w' ∧ (r = Ok tt → ∃ row, t_headless_accounts (w_db w) !! id = Some row ∧ may_manage ctx (w_db w) (ha_GroupID row) PermKey_AccountWrite).
Proof.
  unfold requireAccountWrite. pose proof (GetHeadlessAccount_reads id) as Hg. destruct (GetHeadlessAccount id w) as [[a|e] w1] eqn:E.
  - rewrite (bind_Ok _ _ _ _ _ E). apply (reads_inv _ _ _ _ _ Hg) in E as [Hof Hr]. specialize (Hr a eq_refl).
    destruct (RequirePermission_enforces ctx (HeadlessAccount_GroupID a) PermKey_AccountWrite w1) as [Hof2 H].
    destruct (RequirePermissionForGroup ctx _ PermKey_AccountWrite w1) as [[[]|e] w2]; simpl in *; (split; [by etrans|]); [|done].
    intros _. unfold get_account, q_GetHeadlessAccount in Hr. destruct (t_headless_accounts (w_db w) !! id) as [row|]; [|done].
    injection Hr as <-. exists row. split; [done|]. rewrite (only_faults_db _ _ Hof) in H. exact H.
  - rewrite (bind_Fail _ _ _ _ _ E). apply (reads_inv _ _ _ _ _ Hg) in E as [Hof _]. by split.
Qed.

Lemma guarded_account {A} ctx c id (m : Go A) w : preserves (db_rel (account_touched id)) m →
  account_permitted ctx c (w_db w) (w_db ((requireAccountWrite ctx id ;;; m) w).2).
Proof.
  intros Hm. pose proof (requireAccountWrite_run ctx id w) as H. destruct (requireAccountWrite ctx id w) as [[[]|e] w1] eqn:E; destruct H as [Hof H].
  - rewrite (bind_Ok _ _ _ _ _ E). destruct (H eq_refl) as (row & Hrow & Hmay). right. left. exists id, row. split; [done|]. split; [done|].
    rewrite <-(only_faults_db _ _ Hof). apply Hm.
  - rewrite (bind_Fail _ _ _ _ _ E). left. by apply only_faults_db.
Qed.

Lemma Create_permitted ctx cr pw g by_ w :
  account_permitted ctx (CallAccountCreate cr pw g by_) (w_db w) (w_db (CreateHeadlessAccount ctx cr pw g by_ w).2).
Proof.
  apply (require_then _ _ _ _ _ (account_permitted ctx (CallAccountCreate cr pw g by_) (w_db w))); [by left|]. intros w1 E1 M1. rewrite <-E1. rewrite <-E1 in M1.
  clear w E1. destruct (on_err (EWrap "failed to login") (UserLogin cr pw) w1) as [[uid|e] w2] eqn:E2;
    apply on_err_inv in E2 as E2'; destruct E2' as (r2 & E2' & _); pose proof (UserLogin_abroad cr pw w1) as (D2 & _); rewrite E2' in D2; simpl in D2.
  2: { rewrite (bind_Fail _ _ _ _ _ E2). by left. }
  rewrite (bind_Ok _ _ _ _ _ E2), <-D2. rewrite <-D2 in M1. clear E2 E2' D2 r2 w1. destruct (FetchUserInfo_db uid w2) as [D3 _].
  destruct (FetchUserInfo uid w2) as [[info|e] w3] eqn:E3; simpl in D3; [rewrite (bind_Ok _ _ _ _ _ E3)|rewrite (bind_Fail _ _ _ _ _ E3); by left].
  rewrite <-D3. rewrite <-D3 in M1. destruct (Queries_CreateHeadlessAccount _ w3) as [r4 w4] eqn:E4. simpl.
  apply exec_inv in E4 as [_ [(a & d & _ & Hx & ->)|(e & _ & ->)]]; [|by left]. unfold x_CreateHeadlessAccount, check in Hx.
  destruct (negb _) eqn:Hn; [|done]. destruct (present _ (t_groups _)); [|done]. destruct (opt_present _ _); [|done]. injection Hx as _ <-.
  right. right. exists cr, pw, g, by_. split; [done|]. split; [exact M1|]. set (cp := mkCreateAccount _ _ _ _ _ _ _) in *.
  exists (new_account_row cp (w_now w3)). split; [|done].
  rewrite negb_true_iff in Hn. unfold present in Hn. apply bool_decide_eq_false in Hn. by apply eq_None_not_Some.
Qed.

Lemma read_account {A} ctx c (m : Go A) w : preserves (db_rel eq) m → account_permitted ctx c (w_db w) (w_db (m w).2).
Proof. intros Hm. left. symmetry. apply Hm. Qed.

Lemma account_call_permitted ctx c w : account_permitted ctx c (w_db w) (w_db (account_call ctx c w).2).
Proof.
  destruct c as [cr pw g by_|id cr pw| |o|id|id|id|id data]; unfold account_call; rewrite ?discard_world.
  - apply Create_permitted.
  - apply guarded_account. preserve.
  - apply read_account. unfold ListHeadlessAccounts, Queries_ListHeadlessAccounts. preserve.
  - apply read_account. unfold ListHeadlessAccountsPaged, Queries_ListHeadlessAccountsPaged. preserve.
  - apply read_account. preserve.
  - apply guarded_account. preserve.
  - apply guarded_account. preserve.
  - apply guarded_account. unfold Queries_GetHeadlessAccount. preserve.
Qed.
End Calls.

(** Whatever a call of the use case on accounts does and however it fails:
    the tables are as before; or the caller holds account:write in the group
    of one account, and that account alone was edited, keeping its id, group
    and creator, or is gone; or he holds it in the group he registers an
    account in, and one account was added there with the credentials the
    cloud accepted. *)
Theorem account_changes_authorised (SF : Skyfrost) (SK : SkyfrostClient) (SL : SkyfrostLaws) (ctx : Ctx) (c : AccountCall) (w : World) :
  account_permitted ctx c (w_db w) (w_db (account_call ctx c w).2).
Proof. apply account_call_permitted. Qed.
