(* ===== verification/ControllerPorts.v ===== *)
(** * What the controller service calls beyond the use cases

    The further calls to a container that the handlers relay, the blob store,
    and [src/usecase/blob_usecase.go], which downloads the world of a session
    into it.  Messages that are handed on untouched are types of the classes. *)

From S2P Require Import Prelude Entity Json Headless StateCache Digest Models Queries Ports Repositories Resources SessionRepo SessionUsecase HostRepo.
From stdpp Require Import base gmap strings list.
From Stdlib Require Import ZArith Lia.

(** ** Containers *)

(** The oneof of [headlessv1.InviteUserRequest]. *)
Inductive InvitedUser : Type := InviteUserId (id : string) | InviteUserName (name : string).

Record UpdateHostSettingsRequest : Type := mkUpdateHostSettings {
  uhs_TickRate : option Float32; uhs_MaxConcurrentAssetTransfers : option Z; uhs_UsernameOverride : option string;
  uhs_UpdateAutoSpawnItems : bool; uhs_AutoSpawnItems : list string }.

(** [hdlctrlv1.UserInfo], and the users of [headlessv1.ListContactsResponse] *)
Record PbUserInfo : Type := mkPbUserInfo { pui_Id : string; pui_Name : string; pui_IconUrl : string }.

Record ContactChatMessage : Type := mkChatMessage {
  ccm_Id : string; ccm_Type : Z; ccm_Content : string; ccm_SendTime : option Instant; ccm_ReadTime : option Instant; ccm_SenderId : string }.

(** The rest of [HeadlessControlServiceClient]; [rpc_DownloadSessionWorld]
    answers the chunks of the stream and the error that ended it, none at the
    end of the file. *)
Class RelayClient {CC : ContainerClient} : Type := {
  AllowHostAccessParams : Type; DenyHostAccessParams : Type; BanUserParams : Type; KickUserParams : Type;
  UpdateUserRoleParams : Type; SearchUserInfoParams : Type; SearchUserInfoResult : Type; UserInSession : Type; WorldInfo : Type;
  rpc_AllowHostAccess : Client → AllowHostAccessParams → Go unit;
  rpc_DenyHostAccess : Client → DenyHostAccessParams → Go unit;
  rpc_UpdateHostSettings : Client → UpdateHostSettingsRequest → Go unit;
  rpc_BanUser : Client → BanUserParams → Go unit;
  rpc_KickUser : Client → KickUserParams → Go unit;
  rpc_ListUsersInSession : Client → string → Go (list UserInSession);
  rpc_UpdateUserRole : Client → UpdateUserRoleParams → Go string;
  rpc_InviteUser : Client → string → InvitedUser → Go unit;
  rpc_SearchUserInfo : Client → SearchUserInfoParams → Go SearchUserInfoResult;
  rpc_FetchWorldInfo : Client → string → Go WorldInfo;
  rpc_AcceptFriendRequests : Client → list string → Go unit;
  rpc_ListContacts : Client → Z → option string → Go (list PbUserInfo * option string);
  rpc_GetContactMessages : Client → string → Z → option string → option string → Go (list ContactChatMessage * bool * bool);
  rpc_SendContactMessage : Client → string → string → Go unit;
  rpc_DownloadSessionWorld : Client → string → Z → Go (list (list Z) * option Err) }.

Class RelayLaws {CC : ContainerClient} {RC : RelayClient} : Prop := {
  rpc_AllowHostAccess_abroad c p : preserves abroad (rpc_AllowHostAccess c p);
  rpc_DenyHostAccess_abroad c p : preserves abroad (rpc_DenyHostAccess c p);
  rpc_UpdateHostSettings_abroad c p : preserves abroad (rpc_UpdateHostSettings c p);
  rpc_BanUser_abroad c p : preserves abroad (rpc_BanUser c p);
  rpc_KickUser_abroad c p : preserves abroad (rpc_KickUser c p);
  rpc_ListUsersInSession_abroad c s : preserves abroad (rpc_ListUsersInSession c s);
  rpc_UpdateUserRole_abroad c p : preserves abroad (rpc_UpdateUserRole c p);
  rpc_InviteUser_abroad c s u : preserves abroad (rpc_InviteUser c s u);
  rpc_SearchUserInfo_abroad c p : preserves abroad (rpc_SearchUserInfo c p);
  rpc_FetchWorldInfo_abroad c u : preserves abroad (rpc_FetchWorldInfo c u);
  rpc_AcceptFriendRequests_abroad c l : preserves abroad (rpc_AcceptFriendRequests c l);
  rpc_ListContacts_abroad c n k : preserves abroad (rpc_ListContacts c n k);
  rpc_GetContactMessages_abroad c u n b a : preserves abroad (rpc_GetContactMessages c u n b a);
  rpc_SendContactMessage_abroad c u m : preserves abroad (rpc_SendContactMessage c u m);
  rpc_DownloadSessionWorld_abroad c s f : preserves abroad (rpc_DownloadSessionWorld c s f) }.

(** [blobstore.Client]: key, content, name of the file and content type. *)
Class BlobStore : Type := { blob_Upload : string → list Z → string → string → Go unit }.
Class BlobLaws {BS : BlobStore} : Prop := { blob_Upload_abroad k b f t : preserves abroad (blob_Upload k b f t) }.

(** ** Downloading a world *)

Definition WORLD_BINARY_FORMAT_UNSPECIFIED : Z := 0.
Definition WORLD_BINARY_FORMAT_7ZBSON : Z := 1.
Definition WORLD_BINARY_FORMAT_BRSON : Z := 2.
Definition WORLD_BINARY_FORMAT_RESONITEPACKAGE : Z := 3.

(** the bytes the regular expression replaces are those of single characters *)
Definition unsafeFilenameChar (c : Ascii.ascii) : bool :=
  let n := Ascii.nat_of_ascii c in
  (n <? 32)%nat || bool_decide (n ∈ [60; 62; 58; 34; 47; 92; 124; 63; 42]%nat).
Fixpoint replace_unsafe (s : string) : string :=
  match s with
  | EmptyString => EmptyString
  | String c s' => String (if unsafeFilenameChar c then Ascii.ascii_of_nat 95 else c) (replace_unsafe s')
  end.
Definition sanitizeFilename (name : string) : string :=
  let cleaned := replace_unsafe name in
  if bool_decide (cleaned = EmptyString) then "world" else cleaned.

Definition worldBinaryFormatExtension (f : Z) : string :=
  if (f =? WORLD_BINARY_FORMAT_7ZBSON)%Z then "7zbson"
  else if (f =? WORLD_BINARY_FORMAT_BRSON)%Z then "brson"
  else if (f =? WORLD_BINARY_FORMAT_RESONITEPACKAGE)%Z then "resonitepackage"
  else "bin".

(** [uuid.NewString]: random bytes with the bits of version 4 set *)
Definition set_bits (mask bits b : Z) : Z := Z.lor (Z.land b mask) bits.
Definition uuid_v4 (u : UUID) : UUID := alter (set_bits 15 64) 6 (alter (set_bits 63 128) 8 u).
Definition uuid_NewString : Go string :=
  let* u := gen_random_uuid in lift (formatUUID (Some (uuid_v4 u))).

Section Download.
Context {SP : StartupParameters} {CM : ConfigMessages} {CC : ContainerClient} {CN : HostConnector} {RC : RelayClient} {BS : BlobStore}.

(** the name a download is given; a session read from the store has no current state *)
Definition display_name (sessionID : string) (s : Session) : string :=
  let displayName := match Session_CurrentState s with
                     | Some cs => if bool_decide (hs_Name cs = EmptyString) then Session_Name s else hs_Name cs
                     | None => Session_Name s
                     end in
  if bool_decide (displayName = EmptyString) then sessionID else displayName.

(** the temporary file holds the chunks in order *)
Definition PrepareSessionWorldDownload (sessionID : string) (format : Z) : Go (string * string) :=
  let* dbSession := SessionRepo_Get sessionID in
  let* client := HostRepo_GetRpcClient (Session_HostID dbSession) in
  let* stream := rpc_DownloadSessionWorld client sessionID format in
  match snd stream with
  | Some recvErr => fail recvErr
  | None =>
      let filename := sanitizeFilename (display_name sessionID dbSession) +:+ "." +:+ worldBinaryFormatExtension format in
      let* key := uuid_NewString in
      blob_Upload key (concat (fst stream)) filename "application/octet-stream" ;;;
      ret ("/blobs/" +:+ key, filename)
  end.
End Download.

(** ** The name of a download *)

Fixpoint string_forall (p : Ascii.ascii → bool) (s : string) : bool :=
  match s with EmptyString => true | String c s' => p c && string_forall p s' end.

Lemma replace_unsafe_safe s : string_forall (λ c, negb (unsafeFilenameChar c)) (replace_unsafe s) = true.
Proof. induction s as [|c s IH]; [done|]. simpl. rewrite IH. by destruct (unsafeFilenameChar c) eqn:E; simpl; rewrite ?E. Qed.
Lemma replace_unsafe_length s : String.length (replace_unsafe s) = String.length s.
Proof. induction s; simpl; congruence. Qed.
Lemma replace_unsafe_id s : string_forall (λ c, negb (unsafeFilenameChar c)) s = true → replace_unsafe s = s.
Proof.
  induction s as [|c s IH]; [done|]. simpl. intros [Hc Hs]%andb_true_iff. rewrite (IH Hs). by destruct (unsafeFilenameChar c).
Qed.

(** A download's name has no character a file system would read as anything
    but a name, is never empty, keeps the length of the name it comes from,
    and a name that was safe is kept. *)
Theorem sanitized_names_are_safe (name : string) :
  string_forall (λ c, negb (unsafeFilenameChar c)) (sanitizeFilename name) = true ∧ sanitizeFilename name ≠ EmptyString ∧
  (name ≠ EmptyString → String.length (sanitizeFilename name) = String.length name) ∧
  (name ≠ EmptyString → string_forall (λ c, negb (unsafeFilenameChar c)) name = true → sanitizeFilename name = name).
Proof.
  unfold sanitizeFilename. cbv zeta. case_bool_decide as E.
  - split; [done|]. split; [done|]. apply (f_equal String.length) in E. rewrite replace_unsafe_length in E. split; intros H; by destruct name.
  - split; [apply replace_unsafe_safe|]. split; [done|]. split; intros _; [apply replace_unsafe_length|apply replace_unsafe_id].
Qed.
