(* ===== verification/ResoniteLink.v ===== *)
(** * The ResoniteLink bridge

    [src/adapter/resonitelink/ws_bridge.go]: the path a client is given, the
    checks before a socket is opened, and the three goroutines that relay
    frames between the socket of the client and the stream of the container.
    The relay is a step relation: what the peers send is a script, reading and
    sending may fail at any step, and closing wakes every goroutine. *)

From S2P Require Import Prelude Entity GoStrings Json Headless StateCache Digest Models Queries Ports Repositories Resources SessionRepo SessionUsecase HostRepo.
From S2P Require Import RpcPermission AuthTokens.
From stdpp Require Import base gmap strings list.
From Stdlib Require Import ZArith Lia Ascii.

(** ** Query strings: [net/url] *)

Definition unreserved (c : ascii) : bool :=
  let n := nat_of_ascii c in
  ((48 <=? n) && (n <=? 57) || (65 <=? n) && (n <=? 90) || (97 <=? n) && (n <=? 122) || bool_decide (n ∈ [45; 95; 46; 126]))%nat.
Definition hex_upper (n : nat) : ascii := ascii_of_nat (if (n <? 10)%nat then 48 + n else 55 + n).
Fixpoint url_QueryEscape (s : string) : string :=
  match s with
  | EmptyString => EmptyString
  | String c s' =>
      let n := nat_of_ascii c in
      if unreserved c then String c (url_QueryEscape s')
      else if (n =? 32)%nat then String "+" (url_QueryEscape s')
      else String "%" (String (hex_upper (n / 16)) (String (hex_upper (n mod 16)) (url_QueryEscape s')))
  end.
Definition unhex (c : ascii) : option nat :=
  let n := nat_of_ascii c in
  if ((48 <=? n) && (n <=? 57))%nat then Some (n - 48)%nat
  else if ((97 <=? n) && (n <=? 102))%nat then Some (n - 87)%nat
  else if ((65 <=? n) && (n <=? 70))%nat then Some (n - 55)%nat
  else None.
Fixpoint url_QueryUnescape (s : string) : option string :=
  match s with
  | EmptyString => Some EmptyString
  | String c s' =>
      if bool_decide (c = "%"%char) then
        match s' with
        | String a (String b s'') =>
            match unhex a, unhex b, url_QueryUnescape s'' with
            | Some x, Some y, Some r => Some (String (ascii_of_nat (x * 16 + y)) r)
            | _, _, _ => None
            end
        | _ => None
        end
      else String (if bool_decide (c = "+"%char) then " " else c)%char <$> url_QueryUnescape s'
  end.

(** [strings.Cut] at one character *)
Fixpoint Cut (sep : ascii) (s : string) : string * string :=
  match s with
  | EmptyString => (EmptyString, EmptyString)
  | String c s' => if bool_decide (c = sep) then (EmptyString, s') else let (a, b) := Cut sep s' in (String c a, b)
  end.

(** [Query().Get(name)]: the first value of the name; settings with a
    semicolon and those that do not decode are left out *)
Definition query_pair (setting : string) : option (string * string) :=
  if mentions ";" setting || bool_decide (setting = EmptyString) then None
  else let (k, v) := Cut "=" setting in
       match url_QueryUnescape k, url_QueryUnescape v with Some k, Some v => Some (k, v) | _, _ => None end.
Definition query_Get (name query : string) : string :=
  default EmptyString (snd <$> find (λ kv, bool_decide (fst kv = name)) (omap query_pair (Split "&" query))).

Definition WSPath : string := "/resonite-link/ws".
Definition BuildWSPath (token : string) : string := WSPath +:+ "?" +:+ "token=" +:+ url_QueryEscape token.

(** ** Opening *)

(** The frames of [ResoniteLinkStreamRequest] and [ResoniteLinkStreamResponse]. *)
Inductive LinkRequest : Type := LinkInit (session_id : string) | TextFrameUp (text : string) | BinaryFrameUp (data : list Z).
Inductive LinkResponse : Type := LinkReady | TextFrameDown (text : string) | BinaryFrameDown (data : list Z) | OtherDown.

(** [ResoniteLinkStream] and the messages before the relay; a timeout of the
    wait reaches the model as the error of the receive. *)
Class LinkStreams {CC : ContainerClient} : Type := {
  LinkStream : Type;
  rpc_ResoniteLinkStream : Client → Go LinkStream;
  stream_Send : LinkStream → LinkRequest → Go unit;
  stream_Recv : LinkStream → Go LinkResponse }.

(** [strings.EqualFold] on ASCII *)
Definition ascii_lower (c : ascii) : ascii :=
  let n := nat_of_ascii c in if ((65 <=? n) && (n <=? 90))%nat then ascii_of_nat (n + 32) else c.
Fixpoint EqualFold (s t : string) : bool :=
  match s, t with
  | EmptyString, EmptyString => true
  | String a s', String b t' => bool_decide (ascii_lower a = ascii_lower b) && EqualFold s' t'
  | _, _ => false
  end.

(** what the bridge reads of a request *)
Record LinkHTTPRequest : Type := mkLinkHTTP { lh_Query : string; lh_Origin : string; lh_Host : string }.

Section Opening.
Context {SP : StartupParameters} {JW : JWT} {CM : ConfigMessages} {CC : ContainerClient} {CN : HostConnector} {LS : LinkStreams}.
(** [url.Parse(s).Host]; the configured origins *)
Context (url_Host : string → option string) (secretKey : string) (allowedOrigins : list string).

Definition checkOrigin (r : LinkHTTPRequest) : bool :=
  if bool_decide (lh_Origin r = EmptyString) then true
  else match allowedOrigins with
       | [] => match url_Host (lh_Origin r) with Some h => EqualFold h (lh_Host r) | None => false end
       | _ => existsb (λ allowed, bool_decide (allowed = "*") || EqualFold allowed (lh_Origin r)) allowedOrigins
       end.

Definition StatusUnauthorized : Z := 401.
Definition StatusForbidden : Z := 403.
Definition StatusNotFound : Z := 404.
Definition StatusInternalServerError : Z := 500.
Definition StatusBadGateway : Z := 502.

Definition waitReady (stream : LinkStream) : Go unit :=
  let* msg := stream_Recv stream in
  match msg with LinkReady => ret tt | _ => fail (EMsg "expected ResoniteLinkReady as first response") end.

(** the status of a refusal, or the stream that is relayed; the upgrader
    refuses a foreign origin *)
Definition ServeHTTP (r : LinkHTTPRequest) : Go (Z + LinkStream) :=
  let token := query_Get "token" (lh_Query r) in
  if bool_decide (token = EmptyString) then ret (inl StatusUnauthorized) else
  let* claims := attempt (ParseResoniteLinkToken secretKey token) in
  match claims with
  | Fail _ => ret (inl StatusUnauthorized)
  | Ok claims =>
      let* sess := attempt (SessionRepo_Get (rl_SessionID claims)) in
      match sess with
      | Fail err => ret (inl (if errors_Is err ErrNotFound then StatusNotFound else StatusInternalServerError))
      | Ok sess =>
          let* opened := attempt (
            let* client := HostRepo_GetRpcClient (Session_HostID sess) in
            let* stream := rpc_ResoniteLinkStream client in
            stream_Send stream (LinkInit (rl_SessionID claims)) ;;;
            waitReady stream ;;;
            ret stream) in
          ret match opened with
              | Fail _ => inl StatusBadGateway
              | Ok stream => if checkOrigin r then inr stream else inl StatusForbidden
              end
      end
  end.
End Opening.

(** ** The relay *)

Inductive WsMessage : Type := TextMessage (text : string) | BinaryMessage (data : list Z) | OtherMessage.

Definition to_request (m : WsMessage) : option LinkRequest :=
  match m with TextMessage t => Some (TextFrameUp t) | BinaryMessage d => Some (BinaryFrameUp d) | OtherMessage => None end.
Definition to_message (r : LinkResponse) : option WsMessage :=
  match r with TextFrameDown t => Some (TextMessage t) | BinaryFrameDown d => Some (BinaryMessage d) | _ => None end.

(** What is left to read on both sides, what was handed over, which peer is
    gone, whether the connection is closed and the stream cancelled
    ([closeAll]), and which of the three goroutines still run. *)
Record Relay : Type := mkRelay {
  rl_fromClient : list WsMessage; rl_fromHost : list LinkResponse;
  rl_toHost : list LinkRequest; rl_toClient : list WsMessage;
  rl_clientGone : bool; rl_hostGone : bool; rl_closed : bool; rl_ping : bool; rl_up : bool; rl_down : bool }.
Definition opened_relay (ws : list WsMessage) (gs : list LinkResponse) : Relay := mkRelay ws gs [] [] false false false true true true.

(** One step of a goroutine.  A message that was read is handed on, or the
    hand-over fails and the goroutine ends.  Reading blocks when there is
    nothing to read; it fails only when its peer is gone (closed, broken, or
    silent beyond the deadline) or everything is closed, and so do sending and
    pinging.  The end of a goroutine closes everything.  A hand-over is one
    step: that [stream.Send] may block on the flow control of the peer, and
    that the deadline of the token ends the context of the stream, are in the
    model only as that peer having gone, which makes the blocked call fail. *)
Inductive goroutine_step : Relay → Relay → Prop :=
  | up_relays m ws gs q p cg hg c pg d req : to_request m = Some req →
      goroutine_step (mkRelay (m :: ws) gs q p cg hg c pg true d) (mkRelay ws gs (q ++ [req]) p cg hg c pg true d)
  | up_skips m ws gs q p cg hg c pg d : to_request m = None →
      goroutine_step (mkRelay (m :: ws) gs q p cg hg c pg true d) (mkRelay ws gs q p cg hg c pg true d)
  | up_drops m ws gs q p cg hg c pg d req : to_request m = Some req → hg || c = true →
      goroutine_step (mkRelay (m :: ws) gs q p cg hg c pg true d) (mkRelay ws gs q p cg hg true pg false d)
  | up_ends ws gs q p cg hg c pg d : cg || c = true →
      goroutine_step (mkRelay ws gs q p cg hg c pg true d) (mkRelay ws gs q p cg hg true pg false d)
  | down_relays r ws gs q p cg hg c pg u m : to_message r = Some m →
      goroutine_step (mkRelay ws (r :: gs) q p cg hg c pg u true) (mkRelay ws gs q (p ++ [m]) cg hg c pg u true)
  | down_skips r ws gs q p cg hg c pg u : to_message r = None →
      goroutine_step (mkRelay ws (r :: gs) q p cg hg c pg u true) (mkRelay ws gs q p cg hg c pg u true)
  | down_drops r ws gs q p cg hg c pg u m : to_message r = Some m → cg || c = true →
      goroutine_step (mkRelay ws (r :: gs) q p cg hg c pg u true) (mkRelay ws gs q p cg hg true pg u false)
  | down_ends ws gs q p cg hg c pg u : hg || c = true →
      goroutine_step (mkRelay ws gs q p cg hg c pg u true) (mkRelay ws gs q p cg hg true pg u false)
  | ping_ends ws gs q p cg hg c u d : cg || c = true →
      goroutine_step (mkRelay ws gs q p cg hg c true u d) (mkRelay ws gs q p cg hg true false u d).

(** A peer goes. *)
Inductive relay_step : Relay → Relay → Prop :=
  | client_leaves ws gs q p hg c pg u d : relay_step (mkRelay ws gs q p false hg c pg u d) (mkRelay ws gs q p true hg c pg u d)
  | host_leaves ws gs q p cg c pg u d : relay_step (mkRelay ws gs q p cg false c pg u d) (mkRelay ws gs q p cg true c pg u d)
  | goroutine_runs s s' : goroutine_step s s' → relay_step s s'.

(** [eg.Wait] returns. *)
Definition relay_over (s : Relay) : Prop := rl_ping s = false ∧ rl_up s = false ∧ rl_down s = false.
(** Both peers are there, everything runs and nothing is left to hand on. *)
Definition relay_idle (s : Relay) : Prop :=
  rl_fromClient s = [] ∧ rl_fromHost s = [] ∧ rl_clientGone s = false ∧ rl_hostGone s = false ∧ rl_closed s = false.

(** *** Order *)

(** Of the messages read so far all were handed on, in order, but for the last
    one when its hand-over ended the goroutine. *)
Definition handed {A B} (f : A → option B) (all left : list A) (out : list B) (running : bool) : Prop :=
  ∃ got, all = got ++ left ∧
    (out = omap f got ∨ (running = false ∧ ∃ got' m, got = got' ++ [m] ∧ out = omap f got')).

Definition relay_inv (ws : list WsMessage) (gs : list LinkResponse) (s : Relay) : Prop :=
  handed to_request ws (rl_fromClient s) (rl_toHost s) (rl_up s) ∧
  handed to_message gs (rl_fromHost s) (rl_toClient s) (rl_down s) ∧
  (rl_closed s = false → rl_ping s = true ∧ rl_up s = true ∧ rl_down s = true).

Lemma handed_on {A B} (f : A → option B) all m left out y : f m = Some y →
  handed f all (m :: left) out true → handed f all left (out ++ [y]) true.
Proof.
  intros Hf (got & -> & [->|[[=] _]]). exists (got ++ [m]). split; [by rewrite <-app_assoc|]. left. rewrite omap_app. simpl. by rewrite Hf.
Qed.
Lemma handed_skip {A B} (f : A → option B) all m left out : f m = None →
  handed f all (m :: left) out true → handed f all left out true.
Proof.
  intros Hf (got & -> & [->|[[=] _]]). exists (got ++ [m]). split; [by rewrite <-app_assoc|]. left. rewrite omap_app. simpl. rewrite Hf. by rewrite app_nil_r.
Qed.
Lemma handed_drop {A B} (f : A → option B) all m left out :
  handed f all (m :: left) out true → handed f all left out false.
Proof.
  intros (got & -> & [->|[[=] _]]). exists (got ++ [m]). split; [by rewrite <-app_assoc|]. right. split; [done|]. by exists got, m.
Qed.
Lemma handed_end {A B} (f : A → option B) all left out : handed f all left out true → handed f all left out false.
Proof. intros (got & -> & [->|[[=] _]]). exists got. split; [done|]. by left. Qed.

Lemma goroutine_step_inv ws gs s s' : relay_inv ws gs s → goroutine_step s s' → relay_inv ws gs s'.
Proof.
  intros (Hu & Hd & Hc) Hs. destruct Hs; simpl in *; unfold relay_inv; simpl; (split; [|split]); try done; try (by intros H'; destruct (Hc H'));
    eauto using handed_on, handed_skip, handed_drop, handed_end.
Qed.
Lemma relay_step_inv ws gs s s' : relay_inv ws gs s → relay_step s s' → relay_inv ws gs s'.
Proof. intros H Hs. destruct Hs as [| |? ? Hs]; [exact H|exact H|by eapply goroutine_step_inv]. Qed.
Lemma relay_reachable_inv ws gs s : rtc relay_step (opened_relay ws gs) s → relay_inv ws gs s.
Proof.
  intros H. assert (relay_inv ws gs (opened_relay ws gs)) as H0 by (split; [|split; [|done]]; exists []; (split; [done|by left])).
  revert H0. generalize (opened_relay ws gs), s, H. induction 1 as [|x y z Hxy _ IH]; [done|]. intros Hx. apply IH. by eapply relay_step_inv.
Qed.

(** *** Ending *)

Definition relay_measure (s : Relay) : nat :=
  length (rl_fromClient s) + length (rl_fromHost s) + Nat.b2n (negb (rl_clientGone s)) + Nat.b2n (negb (rl_hostGone s)) +
  Nat.b2n (rl_ping s) + Nat.b2n (rl_up s) + Nat.b2n (rl_down s).

Lemma relay_step_smaller s s' : relay_step s s' → (relay_measure s' < relay_measure s)%nat.
Proof. intros Hs. destruct Hs as [| |? ? Hs]; [| |destruct Hs]; unfold relay_measure; simpl; lia. Qed.

(** A goroutine that still runs in a closed relay, or whose peer is gone, has a step. *)
Lemma stuck_relay ws gs s : relay_inv ws gs s → (∀ s', ¬ goroutine_step s s') → relay_over s ∨ relay_idle s.
Proof.
  intros (_ & _ & Hc) Hstuck. destruct s as [ws' gs' q p cg hg c pg u d]; simpl in *. unfold relay_over, relay_idle; simpl.
  destruct c.
  - left. split; [|split].
    + destruct pg; [|done]. exfalso. eapply Hstuck, ping_ends. apply orb_true_r.
    + destruct u; [|done]. exfalso. eapply Hstuck, up_ends. apply orb_true_r.
    + destruct d; [|done]. exfalso. eapply Hstuck, down_ends. apply orb_true_r.
  - right. destruct (Hc eq_refl) as (-> & -> & ->). split; [|split; [|split; [|split]]]; [..|done].
    + destruct ws' as [|m ws']; [done|]. exfalso. destruct (to_request m) eqn:E; eapply Hstuck; [by eapply up_relays|by eapply up_skips].
    + destruct gs' as [|r gs']; [done|]. exfalso. destruct (to_message r) eqn:E; eapply Hstuck; [by eapply down_relays|by eapply down_skips].
    + destruct cg; [|done]. exfalso. by eapply Hstuck, ping_ends.
    + destruct hg; [|done]. exfalso. by eapply Hstuck, down_ends.
Qed.

(** C37. However the goroutines and the peers interleave: each direction hands
    the frames on in order, without loss or repetition, but for one frame whose
    hand-over ended it; every run is finite; and when no goroutine can go on,
    either all three have ended, so that the handler returns, or both peers
    are there, nothing was closed and nothing is left to hand on. *)
Theorem relay_in_order_and_ends (ws : list WsMessage) (gs : list LinkResponse) (s : Relay) :
  rtc relay_step (opened_relay ws gs) s →
  handed to_request ws (rl_fromClient s) (rl_toHost s) (rl_up s) ∧
  handed to_message gs (rl_fromHost s) (rl_toClient s) (rl_down s) ∧
  (∀ n s', nsteps relay_step n s s' → (n <= relay_measure s)%nat) ∧
  ((∀ s', ¬ goroutine_step s s') → relay_over s ∨ relay_idle s).
Proof.
  intros H. apply relay_reachable_inv in H as Hi. split; [apply Hi|]. split; [apply Hi|]. split; [|by apply (stuck_relay ws gs)].
  intros n s' Hn. clear H Hi. induction Hn as [|n x y z Hxy _ IH]; [lia|]. apply relay_step_smaller in Hxy. lia.
Qed.

Lemma relay_in_order_and_ends_witness :
  let ws := [TextMessage "a"; BinaryMessage [1%Z]] in let gs := [TextFrameDown "b"] in
  let s := mkRelay [BinaryMessage [1%Z]] [] [TextFrameUp "a"] [TextMessage "b"] false false false true true true in
  handed to_request ws (rl_fromClient s) (rl_toHost s) (rl_up s) ∧ (∀ n s', nsteps relay_step n s s' → (n <= relay_measure s)%nat).
Proof.
  cbv zeta. assert (rtc relay_step (opened_relay [TextMessage "a"; BinaryMessage [1%Z]] [TextFrameDown "b"])
    (mkRelay [BinaryMessage [1%Z]] [] [TextFrameUp "a"] [TextMessage "b"] false false false true true true)) as H.
  { eapply rtc_l; [apply goroutine_runs; by apply (up_relays (TextMessage "a"))|].
    eapply rtc_l; [apply goroutine_runs; by apply (down_relays (TextFrameDown "b"))|]. apply rtc_refl. }
  destruct (relay_in_order_and_ends _ _ _ H) as (H1 & _ & H3 & _). split; [exact H1|exact H3].
Defined.

(** ** The token comes back *)

Lemma hex_byte c : ∃ x y, unhex (hex_upper (nat_of_ascii c / 16)) = Some x ∧ unhex (hex_upper (nat_of_ascii c mod 16)) = Some y ∧
  ascii_of_nat (x * 16 + y) = c.
Proof. destruct c as [[] [] [] [] [] [] [] []]; do 2 eexists; (split; [reflexivity|]); split; reflexivity. Qed.

Lemma unreserved_plain c : unreserved c = true → bool_decide (c = "%"%char) = false ∧ bool_decide (c = "+"%char) = false ∧
  bool_decide (c = "&"%char) = false ∧ bool_decide (c = ";"%char) = false ∧ bool_decide (c = "="%char) = false.
Proof. intros H. destruct c as [[] [] [] [] [] [] [] []]; try discriminate H; repeat split. Qed.

Lemma unescape_percent a b s : url_QueryUnescape (String "%" (String a (String b s))) =
  match unhex a, unhex b, url_QueryUnescape s with Some x, Some y, Some r => Some (String (ascii_of_nat (x * 16 + y)) r) | _, _, _ => None end.
Proof. reflexivity. Qed.
Lemma unescape_escape s : url_QueryUnescape (url_QueryEscape s) = Some s.
Proof.
  induction s as [|c s IH]; [done|]. cbn [url_QueryEscape]. cbv zeta. destruct (unreserved c) eqn:Hu.
  - destruct (unreserved_plain c Hu) as (H1 & H2 & _). cbn [url_QueryUnescape]. by rewrite H1, H2, IH.
  - destruct (nat_of_ascii c =? 32)%nat eqn:Hs.
    + apply Nat.eqb_eq in Hs. cbn [url_QueryUnescape]. rewrite IH. simpl. by rewrite <-(ascii_nat_embedding c), Hs.
    + destruct (hex_byte c) as (x & y & Hx & Hy & Hc). rewrite unescape_percent. by rewrite Hx, Hy, IH, Hc.
Qed.

(** An escaped string has none of the characters that structure a query. *)
Lemma escaped_plain (sep : ascii) s : unreserved sep = false → sep ≠ "+"%char → sep ≠ "%"%char → mentions sep (url_QueryEscape s) = false.
Proof.
  intros Hsep Hp Hq. assert (∀ n, mentions sep (String (hex_upper (n mod 16)) EmptyString) = false) as Hhex.
  { intros n. cbn [mentions]. rewrite orb_false_r. apply bool_decide_eq_false. intros E. pose proof (Nat.mod_upper_bound n 16 ltac:(lia)) as Hb.
    assert (unreserved (hex_upper (n mod 16)) = true) as Hu; [|congruence]. revert Hb. generalize (n mod 16)%nat. intros k Hk.
    do 16 (destruct k as [|k]; [reflexivity|]). lia. }
  induction s as [|c s IH]; [done|]. cbn [url_QueryEscape]. cbv zeta. destruct (unreserved c) eqn:Hu.
  - simpl. rewrite IH, orb_false_r. apply bool_decide_eq_false. intros E; subst; congruence.
  - destruct (nat_of_ascii c =? 32)%nat.
    + simpl. rewrite IH, orb_false_r. apply bool_decide_eq_false. intros E; subst; congruence.
    + assert (nat_of_ascii c / 16 = (nat_of_ascii c / 16) mod 16)%nat as ->.
      { symmetry. apply Nat.mod_small. pose proof (nat_ascii_bounded c). apply Nat.Div0.div_lt_upper_bound. lia. }
      pose proof (Hhex (nat_of_ascii c / 16)%nat) as H1. pose proof (Hhex (nat_of_ascii c)) as H2.
      cbn [mentions] in *. apply orb_false_iff in H1 as [-> _]. apply orb_false_iff in H2 as [-> _]. rewrite IH.
      rewrite bool_decide_eq_false_2 by (intros E; subst; congruence). done.
Qed.

Lemma Split_plain sep s : mentions sep s = false → Split sep s = [s].
Proof.
  induction s as [|c s IH]; [done|]. simpl. intros [Hc H]%orb_false_iff. apply bool_decide_eq_false in Hc. rewrite bool_decide_eq_false_2 by done. by rewrite IH.
Qed.

(** The token in a path that was issued is the one the bridge reads from it. *)
Theorem issued_path_carries_token (token : string) :
  ∃ query, BuildWSPath token = WSPath +:+ "?" +:+ query ∧ query_Get "token" query = token.
Proof.
  exists ("token=" +:+ url_QueryEscape token). split; [done|].
  assert (query_pair ("token=" +:+ url_QueryEscape token) = Some ("token", token)) as Hq.
  { unfold query_pair. assert (mentions ";" ("token=" +:+ url_QueryEscape token) = false) as -> by (simpl; by apply escaped_plain).
    rewrite bool_decide_eq_false_2 by done. change (Cut "=" ("token=" +:+ url_QueryEscape token)) with ("token", url_QueryEscape token).
    cbv iota beta. rewrite unescape_escape. reflexivity. }
  unfold query_Get. rewrite Split_plain by (simpl; by apply escaped_plain). change (omap query_pair ["token=" +:+ url_QueryEscape token]) with
    (match query_pair ("token=" +:+ url_QueryEscape token) with Some y => [y] | None => [] end). by rewrite Hq.
Qed.
