(* ===== verification/Controller.v ===== *)
(** * The controller service

    [src/adapter/rpc/controller_service.go] and its [_host], [_session],
    [_account], [_cloud] and [_contact] files with the conversions of
    [src/adapter/converter/entity_converter.go]: the messages of
    [src/proto/hdlctrl/v1/controller.proto], one handler per RPC, and the
    interceptor stack.  What a handler publishes on the notification bus is
    part of its answer.  The handlers of scheduled operations are those of
    [ScheduledRpc]. *)

From S2P Require Import Prelude Entity Json Headless StateCache Digest Models Queries Ports PermissionUsecase Repositories UserUsecase Resources SessionRepo.
From S2P Require Import Messages RpcPermission AuthTokens RpcServices Notification Claims SessionUsecase ScheduledOps ScheduledRepo ScheduledUsecase ScheduledRpc.
From S2P Require Import HostEvents AsyncJobs HostQueries HostRepo HostUsecase Accounts ControllerPorts ResoniteLink.
From stdpp Require Import base gmap strings list.
From Stdlib Require Import ZArith Lia.

(** ** Messages *)

Record PbHostSettings : Type := mkPbHostSettings {
  phs_UniverseId : option string; phs_TickRate : Float32; phs_MaxConcurrentAssetTransfers : Z; phs_UsernameOverride : option string;
  phs_AllowedUrlHosts : list AllowedAccessEntry; phs_AutoSpawnItems : list string }.
Record PbHeadlessHost : Type := mkPbHeadlessHost {
  ph_Id : string; ph_Name : string; ph_ResoniteVersion : string; ph_AppVersion : string; ph_AccountId : string; ph_AccountName : string;
  ph_Fps : Float32; ph_Status : Z; ph_AutoUpdatePolicy : Z; ph_HostSettings : PbHostSettings; ph_Memo : string; ph_InstanceId : Z;
  ph_GroupId : string; ph_CreatedBy : option string }.
Record PbSession : Type := mkPbSession {
  ps_Id : string; ps_Name : string; ps_HostId : string; ps_Status : Z; ps_StartedAt : option Instant; ps_EndedAt : option Instant;
  ps_StartupParameters : option WorldStartupParameters; ps_CurrentState : option HeadlessSession; ps_OwnerId : option string;
  ps_CreatedBy : option string; ps_GroupId : string; ps_AutoUpgrade : bool; ps_Memo : string }.
Record PbHeadlessAccount : Type := mkPbHeadlessAccount {
  pa_UserId : string; pa_UserName : string; pa_IconUrl : string; pa_GroupId : string; pa_CreatedBy : option string }.
Record PbLog : Type := mkPbLog { pl_Timestamp : Instant; pl_IsError : bool; pl_Body : string; pl_Id : Z }.
Record PbInstance : Type := mkPbInstance {
  pin_InstanceId : Z; pin_FirstLogAt : option Instant; pin_LastLogAt : option Instant; pin_LogCount : Z; pin_IsCurrent : bool }.
Record PbContactMessage : Type := mkPbContactMessage {
  pcm_Id : string; pcm_Type : Z; pcm_Content : string; pcm_SendTime : option Instant; pcm_ReadTime : option Instant; pcm_IsOwnMessage : bool }.

Record UpdateHeadlessHostSettingsRequest : Type := mkUpdateHostSettingsRequest {
  uhr_HostId : string; uhr_Name : option string; uhr_TickRate : option Float32; uhr_MaxConcurrentAssetTransfers : option Z;
  uhr_UsernameOverride : option string; uhr_UpdateAutoSpawnItems : bool; uhr_AutoSpawnItems : list string; uhr_UniverseId : option string;
  uhr_AutoUpdatePolicy : option Z }.

(** the oneof [cursor] of [GetHeadlessHostLogsRequest] *)
Inductive LogCursor : Type := BeforeId (id : Z) | AfterId (id : Z).

(** [SearchSessionsRequest_SearchParameters] *)
Record SearchParameters : Type := mkSearchParameters { sp_HostId : option string; sp_Status : option Z; sp_GroupId : option string }.

Section Requests.
Context {CC : ContainerClient} {RC : RelayClient}.

Inductive ControllerRequest : Type :=
  | CreateHeadlessAccountRequest (credential password : string) (group_id : option string)
  | ListHeadlessAccountsRequest (page : option PageRequest) (group_id : option string)
  | DeleteHeadlessAccountRequest (account_id : string)
  | UpdateHeadlessAccountCredentialsRequest (account_id credential password : string)
  | GetHeadlessAccountStorageInfoRequest (account_id : string)
  | RefetchHeadlessAccountInfoRequest (account_id : string)
  | UpdateHeadlessAccountIconRequest (account_id : string) (icon_data : list Z)
  | AcceptFriendRequestsRequest (headless_account_id target_user_id : string)
  | GetFriendRequestsRequest (headless_account_id : string)
  | SearchUserInfoRequest (host_id : string) (parameters : SearchUserInfoParams)
  | FetchWorldInfoRequest (host_id url : string)
  | GetResoniteUserRequest (resonite_id : string)
  | GetOwnWorldsRequest (host_id : string) (page_index : Z)
  | SearchWorldsRequest (query : string) (featured_only : bool) (page_index : Z)
  | ListContactsRequest (headless_account_id : string) (limit : Z) (cursor : option string)
  | GetContactMessagesRequest (headless_account_id contact_user_id : string) (limit : Z) (before_id after_id : option string)
  | SendContactMessageRequest (headless_account_id contact_user_id message : string)
  | ListHeadlessHostImageTagsRequest
  | StartHeadlessHost_request (m : StartHeadlessHostRequest)
  | RestartHeadlessHost_request (m : RestartHeadlessHostRequest)
  | UpdateHeadlessHostSettings_request (m : UpdateHeadlessHostSettingsRequest)
  | GetHeadlessHostLogsRequest (host_id : string) (instance_id limit : Z) (cursor : option LogCursor)
  | ListHeadlessHostInstancesRequest (host_id : string)
  | ShutdownHeadlessHost_request (m : ShutdownHeadlessHostRequest)
  | KillHeadlessHostRequest (host_id : string)
  | AllowHostAccessRequest (host_id : string) (request : AllowHostAccessParams)
  | DenyHostAccessRequest (host_id : string) (request : DenyHostAccessParams)
  | GetHeadlessHostRequest (host_id : string)
  | ListHeadlessHostRequest (page : option PageRequest) (group_id : option string)
  | DeleteHeadlessHostRequest (host_id : string)
  | BanUserRequest (host_id : string) (parameters : BanUserParams)
  | KickUserRequest (host_id : string) (parameters : KickUserParams)
  | GetSessionDetailsRequest (session_id : string)
  | ListUsersInSessionRequest (host_id session_id : string)
  | SaveSessionWorldRequest (session_id : string) (save_mode : Z)
  | PrepareSessionWorldDownloadRequest (session_id : string) (format : Z)
  | UpdateSessionParameters_request (m : UpdateParamsRequest)
  | UpdateUserRoleRequest (host_id : string) (parameters : UpdateUserRoleParams)
  | StartWorld_request (m : StartWorldRequest)
  | InviteUserRequest (host_id session_id : string) (user : option InvitedUser)
  | IssueResoniteLinkConnectionRequest (session_id : string)
  | StopSession_request (m : StopSessionRequest)
  | SearchSessionsRequest (parameters : option SearchParameters) (page : option PageRequest)
  | DeleteEndedSessionRequest (session_id : string)
  | UpdateSessionExtraSettings_request (m : UpdateSessionExtraSettingsRequest)
  | CreateScheduledSessionOperationRequest (operation : option ScheduledOperation) (trigger : option ScheduledTrigger)
  | ListScheduledSessionOperationsRequest (m : ListOpsRequest)
  | CancelScheduledSessionOperationRequest (id : string).

Inductive ControllerResponse : Type :=
  | DoneResponse
  | JobResponse (job_id : string)
  | ListHeadlessAccountsResponse (accounts : list PbHeadlessAccount) (page : PageResponse)
  | StorageInfoResponse (quota_bytes used_bytes : Z)
  | IconResponse (new_icon_url : string)
  | UsersResponse (users : list PbUserInfo) (next_cursor : option string)
  | SearchUserInfoResponse (result : SearchUserInfoResult)
  | FetchWorldInfoResponse (result : WorldInfo)
  | UserInfoResponse (user : PbUserInfo)
  | WorldsResponse (records : list WorldRecord) (has_more : bool)
  | ContactMessagesResponse (messages : list PbContactMessage) (has_more_before has_more_after : bool)
  | ImageTagsResponse (tags : list ContainerImage)
  | LogsResponse (logs : list PbLog) (has_more_before has_more_after : bool)
  | InstancesResponse (instances : list PbInstance)
  | HostResponse (host : PbHeadlessHost)
  | ListHeadlessHostResponse (hosts : list PbHeadlessHost) (page : PageResponse)
  | SessionResponse (session : PbSession)
  | UsersInSessionResponse (users : list UserInSession)
  | SavedResponse (saved_record_url : string)
  | DownloadResponse (download_url filename : string)
  | RoleNameResponse (role : string)
  | LinkResponse (ws_path : string) (expires_at : Instant)
  | SearchSessionsResponse (sessions : list PbSession) (page : PageResponse)
  | ScheduledOperationResponse (operation : PbScheduledSessionOperation)
  | ScheduledOperationsResponse (r : ListOpsResponse).

(** The method that serves a message, and what its getters answer the interceptor. *)
Definition method_of (m : ControllerRequest) : string :=
  match m with
  | CreateHeadlessAccountRequest _ _ _ => "CreateHeadlessAccount"
  | ListHeadlessAccountsRequest _ _ => "ListHeadlessAccounts"
  | DeleteHeadlessAccountRequest _ => "DeleteHeadlessAccount"
  | UpdateHeadlessAccountCredentialsRequest _ _ _ => "UpdateHeadlessAccountCredentials"
  | GetHeadlessAccountStorageInfoRequest _ => "GetHeadlessAccountStorageInfo"
  | RefetchHeadlessAccountInfoRequest _ => "RefetchHeadlessAccountInfo"
  | UpdateHeadlessAccountIconRequest _ _ => "UpdateHeadlessAccountIcon"
  | AcceptFriendRequestsRequest _ _ => "AcceptFriendRequests"
  | GetFriendRequestsRequest _ => "GetFriendRequests"
  | SearchUserInfoRequest _ _ => "SearchUserInfo"
  | FetchWorldInfoRequest _ _ => "FetchWorldInfo"
  | GetResoniteUserRequest _ => "GetResoniteUser"
  | GetOwnWorldsRequest _ _ => "GetOwnWorlds"
  | SearchWorldsRequest _ _ _ => "SearchWorlds"
  | ListContactsRequest _ _ _ => "ListContacts"
  | GetContactMessagesRequest _ _ _ _ _ => "GetContactMessages"
  | SendContactMessageRequest _ _ _ => "SendContactMessage"
  | ListHeadlessHostImageTagsRequest => "ListHeadlessHostImageTags"
  | StartHeadlessHost_request _ => "StartHeadlessHost"
  | RestartHeadlessHost_request _ => "RestartHeadlessHost"
  | UpdateHeadlessHostSettings_request _ => "UpdateHeadlessHostSettings"
  | GetHeadlessHostLogsRequest _ _ _ _ => "GetHeadlessHostLogs"
  | ListHeadlessHostInstancesRequest _ => "ListHeadlessHostInstances"
  | ShutdownHeadlessHost_request _ => "ShutdownHeadlessHost"
  | KillHeadlessHostRequest _ => "KillHeadlessHost"
  | AllowHostAccessRequest _ _ => "AllowHostAccess"
  | DenyHostAccessRequest _ _ => "DenyHostAccess"
  | GetHeadlessHostRequest _ => "GetHeadlessHost"
  | ListHeadlessHostRequest _ _ => "ListHeadlessHost"
  | DeleteHeadlessHostRequest _ => "DeleteHeadlessHost"
  | BanUserRequest _ _ => "BanUser"
  | KickUserRequest _ _ => "KickUser"
  | GetSessionDetailsRequest _ => "GetSessionDetails"
  | ListUsersInSessionRequest _ _ => "ListUsersInSession"
  | SaveSessionWorldRequest _ _ => "SaveSessionWorld"
  | PrepareSessionWorldDownloadRequest _ _ => "PrepareSessionWorldDownload"
  | UpdateSessionParameters_request _ => "UpdateSessionParameters"
  | UpdateUserRoleRequest _ _ => "UpdateUserRole"
  | StartWorld_request _ => "StartWorld"
  | InviteUserRequest _ _ _ => "InviteUser"
  | IssueResoniteLinkConnectionRequest _ => "IssueResoniteLinkConnection"
  | StopSession_request _ => "StopSession"
  | SearchSessionsRequest _ _ => "SearchSessions"
  | DeleteEndedSessionRequest _ => "DeleteEndedSession"
  | UpdateSessionExtraSettings_request _ => "UpdateSessionExtraSettings"
  | CreateScheduledSessionOperationRequest _ _ => "CreateScheduledSessionOperation"
  | ListScheduledSessionOperationsRequest _ => "ListScheduledSessionOperations"
  | CancelScheduledSessionOperationRequest _ => "CancelScheduledSessionOperation"
  end.

Definition host_id (m : ControllerRequest) : string :=
  match m with
  | SearchUserInfoRequest h _ | FetchWorldInfoRequest h _ | GetOwnWorldsRequest h _ | GetHeadlessHostLogsRequest h _ _ _
  | ListHeadlessHostInstancesRequest h | KillHeadlessHostRequest h | AllowHostAccessRequest h _ | DenyHostAccessRequest h _
  | GetHeadlessHostRequest h | DeleteHeadlessHostRequest h | BanUserRequest h _ | KickUserRequest h _ | ListUsersInSessionRequest h _
  | UpdateUserRoleRequest h _ | InviteUserRequest h _ _ => h
  | RestartHeadlessHost_request m => rhr_HostId m
  | UpdateHeadlessHostSettings_request m => uhr_HostId m
  | ShutdownHeadlessHost_request m => shr_HostId m
  | UpdateSessionParameters_request m => upr_HostId m
  | StartWorld_request m => swr_HostId m
  | StopSession_request m => ssr_HostId m
  | ListScheduledSessionOperationsRequest m => default EmptyString (lor_HostId m)
  | _ => EmptyString
  end.
Definition session_id (m : ControllerRequest) : string :=
  match m with
  | GetSessionDetailsRequest s | ListUsersInSessionRequest _ s | SaveSessionWorldRequest s _ | PrepareSessionWorldDownloadRequest s _
  | InviteUserRequest _ s _ | IssueResoniteLinkConnectionRequest s | DeleteEndedSessionRequest s => s
  | StopSession_request m => ssr_SessionId m
  | UpdateSessionExtraSettings_request m => uer_SessionId m
  | ListScheduledSessionOperationsRequest m => default EmptyString (lor_SessionId m)
  | _ => EmptyString
  end.
Definition account_id (m : ControllerRequest) : string :=
  match m with
  | DeleteHeadlessAccountRequest a | UpdateHeadlessAccountCredentialsRequest a _ _ | GetHeadlessAccountStorageInfoRequest a
  | RefetchHeadlessAccountInfoRequest a | UpdateHeadlessAccountIconRequest a _ => a
  | _ => EmptyString
  end.
Definition headless_account_id (m : ControllerRequest) : string :=
  match m with
  | AcceptFriendRequestsRequest a _ | GetFriendRequestsRequest a | ListContactsRequest a _ _ | GetContactMessagesRequest a _ _ _ _
  | SendContactMessageRequest a _ _ => a
  | StartHeadlessHost_request m => hsr_HeadlessAccountId m
  | _ => EmptyString
  end.
Definition controller_group_id (m : ControllerRequest) : option string :=
  match m with
  | CreateHeadlessAccountRequest _ _ g | ListHeadlessAccountsRequest _ g | ListHeadlessHostRequest _ g => g
  | StartHeadlessHost_request m => hsr_GroupId m
  | StartWorld_request m => swr_GroupId m
  | ListScheduledSessionOperationsRequest m => lor_GroupId m
  | _ => None
  end.
(** [req.Msg.GetParameters().GetSessionId()] of an update; a nil message has none *)
Definition parameters_session_id (m : ControllerRequest) : string :=
  match m with
  | UpdateSessionParameters_request m => usp_SessionId (default update_zero (upr_Parameters m))
  | _ => EmptyString
  end.

Definition controller_request (authorization : string) (m : ControllerRequest) : AnyRequest :=
  mkAnyRequest (procedure "ControllerService" (method_of m)) authorization (method_of m +:+ "Request")
    (host_id m) (session_id m) (account_id m) (headless_account_id m) (controller_group_id m) EmptyString (parameters_session_id m).
End Requests.

(** ** Conversions *)

Definition HeadlessHostSettingsToProto (e : HeadlessHostSettings) : PbHostSettings :=
  mkPbHostSettings (hst_UniverseID e) (hst_TickRate e) (hst_MaxConcurrentAssetTransfers e) (hst_UsernameOverride e)
    ((λ a, mkAllowedAccessEntry (haa_Host a) (haa_Ports a) (haa_AccessTypes a)) <$> hst_AllowedUrlHosts e) (hst_AutoSpawnItems e).
Definition HeadlessHostEntityToProto (e : HeadlessHost) : PbHeadlessHost :=
  mkPbHeadlessHost (hh_ID e) (hh_Name e) (hh_ResoniteVersion e) (hh_AppVersion e) (hh_AccountId e) (hh_AccountName e) (hh_Fps e) (hh_Status e)
    (hh_AutoUpdatePolicy e) (HeadlessHostSettingsToProto (hh_HostSettings e)) (hh_Memo e) (hh_InstanceId e) (hh_GroupID e) (hh_CreatedBy e).
Definition SessionEntityToProto (e : Session) : PbSession :=
  mkPbSession (Session_ID e) (Session_Name e) (Session_HostID e) (Session_Status e) (Session_StartedAt e) (Session_EndedAt e)
    (Session_StartupParameters e) (Session_CurrentState e) (Session_CreatedBy e) (Session_CreatedBy e) (Session_GroupID e)
    (Session_AutoUpgrade e) (Session_Memo e).
Definition accountToProto (a : HeadlessAccount) : PbHeadlessAccount :=
  mkPbHeadlessAccount (HeadlessAccount_ResoniteID a) (default EmptyString (HeadlessAccount_LastDisplayName a))
    (default EmptyString (HeadlessAccount_LastIconUrl a)) (HeadlessAccount_GroupID a) (HeadlessAccount_CreatedBy a).

Definition convertRpcClientErr (err : Err) : Err := connect_NewError CodeInternal err.
Definition unix (t : Z) : Instant := (t * time_Second)%Z.

Section Service.
Context {SP : StartupParameters} {US : UUIDScan} {JM : JobMessages} {JW : JWT} {SF : Skyfrost} {SK : SkyfrostClient}.
Context {CM : ConfigMessages} {CC : ContainerClient} {HC : HostClients} {HD : HostDrainer} {PP : PortProbe} {CN : HostConnector}.
Context {RC : RelayClient} {BS : BlobStore}.
Context {GR : GroupRepository} {MR : GroupMemberRepository}.
Context (secretKey : string) (su : SessionUsecase).

(** What a handler answers, and what it published. *)
Definition Answer : Type := ControllerResponse * list NotificationEvent.
Definition answer (r : ControllerResponse) : Go Answer := ret (r, []).

Definition Svc_publishHostUpdated (hostID : string) : Go (list NotificationEvent) :=
  let* now := gets w_now in ret [HostUpdated now hostID EmptyString None].
Definition Svc_publishHostListChanged : Go (list NotificationEvent) :=
  let* now := gets w_now in ret [HostListChanged now].

(** [c.hhrepo.GetRpcClient], then one call *)
Definition relay {A} (hostID : string) (call : Client → Go A) (respond : A → ControllerResponse) : Go Answer :=
  let* conn := on_err convertRpcClientErr (HostRepo_GetRpcClient hostID) in
  let* r := on_err convertRpcClientErr (call conn) in
  answer (respond r).

Definition resolveListGroupFilter (ctx : Ctx) (requestedGroupID permKey : string) : Go (option (list string)) :=
  let* claims := claims_or_unauthenticated ctx in
  let gid := strings_TrimSpace requestedGroupID in
  if negb (bool_decide (gid = EmptyString)) then
    let* ok := on_err convertErr (CanReadGroup (ac_UserID claims) gid permKey) in
    if negb ok then fail (connect_NewError CodePermissionDenied (EMsg ("permission required: " +:+ permKey)))
    else ret (Some [gid])
  else
    let* r := on_err convertErr (ResolveListGroupFilter (ac_UserID claims) permKey) in
    ret (if snd r : bool then None else Some (fst r)).

(** ** Accounts *)

Definition Svc_CreateHeadlessAccount (ctx : Ctx) (credential password : string) (group_id : option string) : Go Answer :=
  let* claims := claims_or_unauthenticated ctx in
  let* groupID := on_err convertErr (ResolveGroupIDForUser (ac_UserID claims) (default EmptyString group_id)) in
  on_err convertErr (CreateHeadlessAccount ctx credential password groupID (Some (ac_UserID claims))) ;;;
  answer DoneResponse.

Definition Svc_ListHeadlessAccounts (ctx : Ctx) (page : option PageRequest) (group_id : option string) : Go Answer :=
  let* p := lift (normalizePageRequest page) in
  let* groupIDs := resolveListGroupFilter ctx (default EmptyString group_id) PermKey_AccountRead in
  let* pageResult := on_err convertErr (ListHeadlessAccountsPaged (mkAccountsOptions (fst p) (snd p) groupIDs)) in
  answer (ListHeadlessAccountsResponse (accountToProto <$> apr_Accounts pageResult) (mkPageResponse (apr_TotalCount pageResult) (fst p) (snd p))).

Definition Svc_DeleteHeadlessAccount (ctx : Ctx) (account_id : string) : Go Answer :=
  on_err convertErr (DeleteHeadlessAccount ctx account_id) ;;; answer DoneResponse.
Definition Svc_UpdateHeadlessAccountCredentials (ctx : Ctx) (account_id credential password : string) : Go Answer :=
  on_err convertErr (UpdateHeadlessAccountCredentials ctx account_id credential password) ;;; answer DoneResponse.
Definition Svc_GetHeadlessAccountStorageInfo (account_id : string) : Go Answer :=
  let* account := on_err convertErr (GetHeadlessAccount account_id) in
  let* info := on_err (λ e, connect_NewError CodeInternal (EWrap "failed to get storage info for user" e))
                 (GetStorageInfo (HeadlessAccount_Credential account) (HeadlessAccount_Password account) (HeadlessAccount_ResoniteID account)) in
  answer (StorageInfoResponse (si_QuotaBytes info) (si_UsedBytes info)).
Definition Svc_RefetchHeadlessAccountInfo (ctx : Ctx) (account_id : string) : Go Answer :=
  on_err convertErr (RefetchHeadlessAccountInfo ctx account_id) ;;; answer DoneResponse.
Definition Svc_UpdateHeadlessAccountIcon (ctx : Ctx) (account_id : string) (icon_data : list Z) : Go Answer :=
  let* url := on_err convertErr (UpdateHeadlessAccountIcon ctx account_id icon_data) in answer (IconResponse url).

(** ** The cloud and contacts *)

(** the first running host of an account, which relays the call *)
Definition relay_account {A} (account_id : string) (call : Client → Go A) (respond : A → ControllerResponse) : Go Answer :=
  let* hosts := on_err convertErr (HostRepo_ListRunningByAccount account_id) in
  match hosts with
  | [] => fail (connect_NewError CodeInvalidArgument (EMsg "このアカウントで起動中のヘッドレスホストが必要です"))
  | h :: _ => relay (hh_ID h) call respond
  end.

Definition Svc_AcceptFriendRequests (account_id target_user_id : string) : Go Answer :=
  relay_account account_id (λ conn, rpc_AcceptFriendRequests conn [target_user_id]) (λ _, DoneResponse).
Definition Svc_GetFriendRequests (account_id : string) : Go Answer :=
  let* account := on_err convertErr (GetHeadlessAccount account_id) in
  let* contacts := on_err (λ e, connect_NewError CodeInternal (EWrap "failed to get friend requests" e))
                     (GetContacts (HeadlessAccount_Credential account) (HeadlessAccount_Password account)) in
  answer (UsersResponse ((λ c, mkPbUserInfo (ct_Id c) (ct_Username c) (up_IconUrl (ct_Profile c))) <$>
                           List.filter (λ c, bool_decide (ct_Status c = "Requested")) contacts) None).
Definition Svc_SearchUserInfo (host_id : string) (p : SearchUserInfoParams) : Go Answer :=
  relay host_id (λ conn, rpc_SearchUserInfo conn p) SearchUserInfoResponse.
Definition Svc_FetchWorldInfo (host_id url : string) : Go Answer :=
  let* conn := on_err convertRpcClientErr (HostRepo_GetRpcClient host_id) in
  let* r := on_err (connect_NewError CodeNotFound) (rpc_FetchWorldInfo conn url) in
  answer (FetchWorldInfoResponse r).
Definition Svc_GetResoniteUser (resonite_id : string) : Go Answer :=
  let* u := on_err (connect_NewError CodeNotFound) (FetchUserInfo resonite_id) in
  answer (UserInfoResponse (mkPbUserInfo (UI_ID u) (UI_UserName u) (UI_IconUrl u))).
Definition Svc_GetOwnWorlds (host_id : string) (page_index : Z) : Go Answer :=
  let* host := on_err convertErr (HostRepo_Find host_id false) in
  let* account := on_err convertErr (GetHeadlessAccount (hh_AccountId host)) in
  let* result := on_err (λ e, connect_NewError CodeInternal (EWrap "failed to get own worlds" e))
                   (GetOwnWorlds (HeadlessAccount_Credential account) (HeadlessAccount_Password account) page_index) in
  answer (WorldsResponse (swr_Records result) (swr_HasMore result)).
Definition Svc_SearchWorlds (query : string) (featured_only : bool) (page_index : Z) : Go Answer :=
  let* result := on_err (connect_NewError CodeInternal) (SearchWorlds query featured_only page_index) in
  answer (WorldsResponse (swr_Records result) (swr_HasMore result)).

Definition Svc_ListContacts (account_id : string) (limit : Z) (cursor : option string) : Go Answer :=
  relay_account account_id (λ conn, rpc_ListContacts conn limit cursor) (λ r, UsersResponse (fst r) (snd r)).
Definition Svc_GetContactMessages (account_id contact_user_id : string) (limit : Z) (before_id after_id : option string) : Go Answer :=
  let* account := on_err convertErr (GetHeadlessAccount account_id) in
  relay_account account_id (λ conn, rpc_GetContactMessages conn contact_user_id limit before_id after_id)
    (λ r, let '(messages, before, after) := r in
       ContactMessagesResponse ((λ m, mkPbContactMessage (ccm_Id m) (ccm_Type m) (ccm_Content m) (ccm_SendTime m) (ccm_ReadTime m)
                                        (bool_decide (ccm_SenderId m = HeadlessAccount_ResoniteID account))) <$> messages) before after).
Definition Svc_SendContactMessage (account_id contact_user_id message : string) : Go Answer :=
  relay_account account_id (λ conn, rpc_SendContactMessage conn contact_user_id message) (λ _, DoneResponse).

(** ** Hosts *)

Definition Svc_ListHeadlessHostImageTags : Go Answer :=
  let* tags := on_err convertErr (HostRepo_ListContainerTags None) in answer (ImageTagsResponse tags).

Definition with_account_group (g : string) (m : StartHeadlessHostRequest) : StartHeadlessHostRequest :=
  mkStartHostRequest (hsr_Name m) (hsr_HeadlessAccountId m) (hsr_ImageTag m) (hsr_StartupConfig m) (hsr_AutoUpdatePolicy m) (hsr_Memo m) (Some g).
Definition Svc_StartHeadlessHost (ctx : Ctx) (m : StartHeadlessHostRequest) : Go Answer :=
  let* claims := claims_or_unauthenticated ctx in
  let* account := on_err convertErr (GetHeadlessAccount (hsr_HeadlessAccountId m)) in
  let m := match given_group_id (hsr_GroupId m) with Some _ => m | None => with_account_group (HeadlessAccount_GroupID account) m end in
  let* jobID := on_err convertErr (EnqueueStartHost m (Some (ac_UserID claims))) in
  answer (JobResponse jobID).
Definition Svc_RestartHeadlessHost (ctx : Ctx) (m : RestartHeadlessHostRequest) : Go Answer :=
  let* claims := claims_or_unauthenticated ctx in
  on_err convertErr (HostRepo_Find (rhr_HostId m) false) ;;;
  let* jobID := on_err convertErr (EnqueueRestartHost m (Some (ac_UserID claims))) in
  answer (JobResponse jobID).
Definition Svc_ShutdownHeadlessHost (ctx : Ctx) (m : ShutdownHeadlessHostRequest) : Go Answer :=
  let* claims := claims_or_unauthenticated ctx in
  on_err convertErr (HostRepo_Find (shr_HostId m) false) ;;;
  let* jobID := on_err convertErr (EnqueueShutdownHost m (Some (ac_UserID claims))) in
  answer (JobResponse jobID).

(** what a request asks of a running host, and of the stored settings of another *)
Definition asks_settings (m : UpdateHeadlessHostSettingsRequest) : bool :=
  bool_decide (is_Some (uhr_TickRate m)) || bool_decide (is_Some (uhr_MaxConcurrentAssetTransfers m)) ||
  bool_decide (is_Some (uhr_UsernameOverride m)) || uhr_UpdateAutoSpawnItems m || bool_decide (is_Some (uhr_UniverseId m)).
Definition settings_request (m : UpdateHeadlessHostSettingsRequest) : UpdateHostSettingsRequest :=
  mkUpdateHostSettings (uhr_TickRate m) (uhr_MaxConcurrentAssetTransfers m) (uhr_UsernameOverride m) (uhr_UpdateAutoSpawnItems m)
    (if uhr_UpdateAutoSpawnItems m then uhr_AutoSpawnItems m else []).
Definition updated_settings (m : UpdateHeadlessHostSettingsRequest) (s : HeadlessHostSettings) : HeadlessHostSettings :=
  mkHostSettings (match uhr_UniverseId m with Some u => Some u | None => hst_UniverseID s end)
    (default (hst_TickRate s) (uhr_TickRate m)) (default (hst_MaxConcurrentAssetTransfers s) (uhr_MaxConcurrentAssetTransfers m))
    (match uhr_UsernameOverride m with Some u => Some u | None => hst_UsernameOverride s end) (hst_AllowedUrlHosts s)
    (if uhr_UpdateAutoSpawnItems m then uhr_AutoSpawnItems m else hst_AutoSpawnItems s) (hst_StartWorlds s).

Definition Svc_UpdateHeadlessHostSettings (ctx : Ctx) (m : UpdateHeadlessHostSettingsRequest) : Go Answer :=
  let id := uhr_HostId m in
  let* host := on_err convertErr (HostUC_Get ctx id) in
  match uhr_Name m with Some name => on_err convertErr (HostRepo_Rename id name) | None => ret tt end ;;;
  match uhr_AutoUpdatePolicy m with
  | Some p => if (p =? 0)%Z then ret tt else on_err convertErr (HostRepo_UpdateAutoUpdatePolicy id p)
  | None => ret tt
  end ;;;
  (if asks_settings m then
     if (hh_Status host =? HeadlessHostStatus_RUNNING)%Z then
       let* conn := on_err convertRpcClientErr (HostRepo_GetRpcClient id) in
       on_err convertRpcClientErr (rpc_UpdateHostSettings conn (settings_request m)) ;;;
       let* updated := on_err convertRpcClientErr (rpc_GetStartupConfigToRestore conn false) in
       let* settings := lift (HeadlessHostSettingsProtoToEntity updated) in
       on_err convertErr (HostRepo_UpdateHostSettings id settings)
     else on_err convertErr (HostRepo_UpdateHostSettings id (updated_settings m (hh_HostSettings host)))
   else ret tt) ;;;
  let* events := Svc_publishHostUpdated id in
  ret (DoneResponse, events).

Definition Svc_GetHeadlessHostLogs (ctx : Ctx) (host_id : string) (instance_id limit : Z) (cursor : option LogCursor) : Go Answer :=
  let beforeID := match cursor with Some (BeforeId i) => i | _ => 0%Z end in
  let afterID := match cursor with Some (AfterId i) => i | _ => 0%Z end in
  let* result := on_err convertErr (HostUC_GetLogs ctx (mkGetLogs host_id instance_id limit beforeID afterID)) in
  answer (LogsResponse ((λ l, mkPbLog (unix (ll_Timestamp l)) (ll_IsError l) (ll_Body l) (ll_ID l)) <$> lr_Logs result)
            (lr_HasMoreBefore result) (lr_HasMoreAfter result)).
Definition Svc_ListHeadlessHostInstances (ctx : Ctx) (host_id : string) : Go Answer :=
  let* instances := on_err convertErr (HostUC_GetInstances ctx host_id) in
  answer (InstancesResponse ((λ i, mkPbInstance (hi_InstanceID i) (unix <$> hi_FirstLogAt i) (unix <$> hi_LastLogAt i) (hi_LogCount i) (hi_IsCurrent i))
                               <$> instances)).
Definition Svc_KillHeadlessHost (ctx : Ctx) (host_id : string) : Go Answer :=
  on_err convertErr (HostUC_Kill ctx host_id) ;;; answer DoneResponse.
Definition Svc_AllowHostAccess (host_id : string) (p : AllowHostAccessParams) : Go Answer :=
  relay host_id (λ conn, rpc_AllowHostAccess conn p) (λ _, DoneResponse).
Definition Svc_DenyHostAccess (host_id : string) (p : DenyHostAccessParams) : Go Answer :=
  relay host_id (λ conn, rpc_DenyHostAccess conn p) (λ _, DoneResponse).
Definition Svc_GetHeadlessHost (ctx : Ctx) (host_id : string) : Go Answer :=
  let* host := on_err convertErr (HostUC_Get ctx host_id) in answer (HostResponse (HeadlessHostEntityToProto host)).
Definition Svc_ListHeadlessHost (ctx : Ctx) (page : option PageRequest) (group_id : option string) : Go Answer :=
  let* p := lift (normalizePageRequest page) in
  let* groupIDs := resolveListGroupFilter ctx (default EmptyString group_id) PermKey_HostRead in
  let* pageResult := on_err convertErr (HostUC_ListPaged (mkHostListOptions (fst p) (snd p) groupIDs)) in
  answer (ListHeadlessHostResponse (HeadlessHostEntityToProto <$> hpr_Hosts pageResult) (mkPageResponse (hpr_TotalCount pageResult) (fst p) (snd p))).
Definition Svc_DeleteHeadlessHost (ctx : Ctx) (host_id : string) : Go Answer :=
  on_err convertErr (HostUC_Delete ctx host_id) ;;;
  let* events := Svc_publishHostListChanged in
  ret (DoneResponse, events).

(** ** Sessions *)

Definition Svc_BanUser (host_id : string) (p : BanUserParams) : Go Answer := relay host_id (λ conn, rpc_BanUser conn p) (λ _, DoneResponse).
Definition Svc_KickUser (host_id : string) (p : KickUserParams) : Go Answer := relay host_id (λ conn, rpc_KickUser conn p) (λ _, DoneResponse).
Definition Svc_GetSessionDetails (ctx : Ctx) (session_id : string) : Go Answer :=
  let* s := on_err convertErr (SessionUC_GetSession ctx session_id) in answer (SessionResponse (SessionEntityToProto s)).
Definition Svc_ListUsersInSession (host_id session_id : string) : Go Answer :=
  relay host_id (λ conn, rpc_ListUsersInSession conn session_id) UsersInSessionResponse.

(** [SaveSessionWorldRequest_SaveMode]; a value without a name leaves the zero mode *)
Definition SAVE_MODE_UNKNOWN : Z := 0.
Definition SAVE_MODE_OVERWRITE : Z := 1.
Definition SAVE_MODE_SAVE_AS : Z := 2.
Definition SAVE_MODE_COPY : Z := 3.
Definition saveModeFromProto (m : Z) : Result Z :=
  if (m =? SAVE_MODE_OVERWRITE)%Z then Ok SaveMode_OVERWRITE
  else if (m =? SAVE_MODE_SAVE_AS)%Z then Ok SaveMode_SAVE_AS
  else if (m =? SAVE_MODE_COPY)%Z then Ok SaveMode_COPY
  else if (m =? SAVE_MODE_UNKNOWN)%Z then Fail (connect_NewError CodeInvalidArgument (EMsg "invalid save mode: SAVE_MODE_UNKNOWN"))
  else Ok 0%Z.
Definition Svc_SaveSessionWorld (ctx : Ctx) (session_id : string) (save_mode : Z) : Go Answer :=
  let* saveMode := lift (saveModeFromProto save_mode) in
  let* url := on_err (connect_NewError CodeInternal) (SessionUC_SaveSessionWorld ctx session_id saveMode) in
  answer (SavedResponse url).
Definition Svc_PrepareSessionWorldDownload (session_id : string) (format : Z) : Go Answer :=
  if (format =? WORLD_BINARY_FORMAT_UNSPECIFIED)%Z then fail (connect_NewError CodeInvalidArgument (EMsg "format is required"))
  else
    let* r := on_err convertErr (PrepareSessionWorldDownload session_id format) in
    answer (DownloadResponse (fst r) (snd r)).
(** the getters answer the zero message for parameters that are missing *)
Definition Svc_UpdateSessionParameters (ctx : Ctx) (m : UpdateParamsRequest) : Go Answer :=
  let params := default update_zero (upr_Parameters m) in
  on_err (connect_NewError CodeInvalidArgument) (SessionUC_UpdateSessionParameters ctx (usp_SessionId params) params) ;;;
  answer DoneResponse.
Definition Svc_UpdateUserRole (host_id : string) (p : UpdateUserRoleParams) : Go Answer :=
  relay host_id (λ conn, rpc_UpdateUserRole conn p) RoleNameResponse.

Definition with_host_group (g : string) (m : StartWorldRequest) : StartWorldRequest :=
  mkStartWorldRequest (swr_HostId m) (swr_Parameters m) (swr_Memo m) (Some g).
Definition Svc_StartWorld (ctx : Ctx) (m : StartWorldRequest) : Go Answer :=
  let* claims := claims_or_unauthenticated ctx in
  let* hostGroupID := on_err convertErr (HostRepo_GetGroupID (swr_HostId m)) in
  let m := match given_group_id (swr_GroupId m) with Some _ => m | None => with_host_group hostGroupID m end in
  let* jobID := on_err convertErr (EnqueueStartSession m (Some (ac_UserID claims))) in
  answer (JobResponse jobID).

(** the user id wins unless it is empty *)
Definition invited (user : option InvitedUser) : InvitedUser :=
  match user with
  | Some (InviteUserId i) => if bool_decide (i = EmptyString) then InviteUserName EmptyString else InviteUserId i
  | Some (InviteUserName n) => InviteUserName n
  | None => InviteUserName EmptyString
  end.
Definition Svc_InviteUser (host_id session_id : string) (user : option InvitedUser) : Go Answer :=
  relay host_id (λ conn, rpc_InviteUser conn session_id (invited user)) (λ _, DoneResponse).
Definition Svc_IssueResoniteLinkConnection (ctx : Ctx) (session_id : string) : Go Answer :=
  let* claims := claims_or_unauthenticated ctx in
  if bool_decide (session_id = EmptyString) then fail (connect_NewError CodeInvalidArgument (EMsg "session_id is required"))
  else
    let* t := on_err convertErr (IssueResoniteLinkToken secretKey su ctx session_id (ac_UserID claims)) in
    answer (LinkResponse (BuildWSPath (fst t)) (snd t)).
Definition Svc_StopSession (ctx : Ctx) (m : StopSessionRequest) : Go Answer :=
  let* claims := claims_or_unauthenticated ctx in
  on_err convertErr (SessionRepo_Get (ssr_SessionId m)) ;;;
  let* jobID := on_err convertErr (EnqueueStopSession m (Some (ac_UserID claims))) in
  answer (JobResponse jobID).
Definition Svc_SearchSessions (ctx : Ctx) (parameters : option SearchParameters) (page : option PageRequest) : Go Answer :=
  let* p := lift (normalizePageRequest page) in
  let* groupIDs := resolveListGroupFilter ctx (default EmptyString (parameters ≫= sp_GroupId)) PermKey_SessionRead in
  let* result := on_err (connect_NewError CodeInvalidArgument)
                   (SearchSessions (mkSearchFilter (parameters ≫= sp_HostId) (parameters ≫= sp_Status) (fst p) (snd p) groupIDs)) in
  answer (SearchSessionsResponse (SessionEntityToProto <$> ssr_Sessions result) (mkPageResponse (ssr_TotalCount result) (fst p) (snd p))).
Definition Svc_DeleteEndedSession (ctx : Ctx) (session_id : string) : Go Answer :=
  on_err convertErr (SessionUC_DeleteSession ctx session_id) ;;; answer DoneResponse.
Definition Svc_UpdateSessionExtraSettings (ctx : Ctx) (m : UpdateSessionExtraSettingsRequest) : Go Answer :=
  on_err convertErr (SessionUC_UpdateSessionExtraSettings ctx (uer_SessionId m) (uer_AutoUpgrade m) (uer_Memo m)) ;;;
  answer DoneResponse.

(** ** The service *)

Definition controller_dispatch (m : ControllerRequest) (ctx : Ctx) (_ : AnyRequest) : Go Answer :=
  match m with
  | CreateHeadlessAccountRequest c p g => Svc_CreateHeadlessAccount ctx c p g
  | ListHeadlessAccountsRequest p g => Svc_ListHeadlessAccounts ctx p g
  | DeleteHeadlessAccountRequest a => Svc_DeleteHeadlessAccount ctx a
  | UpdateHeadlessAccountCredentialsRequest a c p => Svc_UpdateHeadlessAccountCredentials ctx a c p
  | GetHeadlessAccountStorageInfoRequest a => Svc_GetHeadlessAccountStorageInfo a
  | RefetchHeadlessAccountInfoRequest a => Svc_RefetchHeadlessAccountInfo ctx a
  | UpdateHeadlessAccountIconRequest a d => Svc_UpdateHeadlessAccountIcon ctx a d
  | AcceptFriendRequestsRequest a t => Svc_AcceptFriendRequests a t
  | GetFriendRequestsRequest a => Svc_GetFriendRequests a
  | SearchUserInfoRequest h p => Svc_SearchUserInfo h p
  | FetchWorldInfoRequest h u => Svc_FetchWorldInfo h u
  | GetResoniteUserRequest r => Svc_GetResoniteUser r
  | GetOwnWorldsRequest h i => Svc_GetOwnWorlds h i
  | SearchWorldsRequest q f i => Svc_SearchWorlds q f i
  | ListContactsRequest a n c => Svc_ListContacts a n c
  | GetContactMessagesRequest a u n b f => Svc_GetContactMessages a u n b f
  | SendContactMessageRequest a u t => Svc_SendContactMessage a u t
  | ListHeadlessHostImageTagsRequest => Svc_ListHeadlessHostImageTags
  | StartHeadlessHost_request m => Svc_StartHeadlessHost ctx m
  | RestartHeadlessHost_request m => Svc_RestartHeadlessHost ctx m
  | UpdateHeadlessHostSettings_request m => Svc_UpdateHeadlessHostSettings ctx m
  | GetHeadlessHostLogsRequest h i n c => Svc_GetHeadlessHostLogs ctx h i n c
  | ListHeadlessHostInstancesRequest h => Svc_ListHeadlessHostInstances ctx h
  | ShutdownHeadlessHost_request m => Svc_ShutdownHeadlessHost ctx m
  | KillHeadlessHostRequest h => Svc_KillHeadlessHost ctx h
  | AllowHostAccessRequest h p => Svc_AllowHostAccess h p
  | DenyHostAccessRequest h p => Svc_DenyHostAccess h p
  | GetHeadlessHostRequest h => Svc_GetHeadlessHost ctx h
  | ListHeadlessHostRequest p g => Svc_ListHeadlessHost ctx p g
  | DeleteHeadlessHostRequest h => Svc_DeleteHeadlessHost ctx h
  | BanUserRequest h p => Svc_BanUser h p
  | KickUserRequest h p => Svc_KickUser h p
  | GetSessionDetailsRequest s => Svc_GetSessionDetails ctx s
  | ListUsersInSessionRequest h s => Svc_ListUsersInSession h s
  | SaveSessionWorldRequest s m => Svc_SaveSessionWorld ctx s m
  | PrepareSessionWorldDownloadRequest s f => Svc_PrepareSessionWorldDownload s f
  | UpdateSessionParameters_request m => Svc_UpdateSessionParameters ctx m
  | UpdateUserRoleRequest h p => Svc_UpdateUserRole h p
  | StartWorld_request m => Svc_StartWorld ctx m
  | InviteUserRequest h s u => Svc_InviteUser h s u
  | IssueResoniteLinkConnectionRequest s => Svc_IssueResoniteLinkConnection ctx s
  | StopSession_request m => Svc_StopSession ctx m
  | SearchSessionsRequest p g => Svc_SearchSessions ctx p g
  | DeleteEndedSessionRequest s => Svc_DeleteEndedSession ctx s
  | UpdateSessionExtraSettings_request m => Svc_UpdateSessionExtraSettings ctx m
  | CreateScheduledSessionOperationRequest o t =>
      let* p := CreateScheduledSessionOperation_rpc ctx o t in answer (ScheduledOperationResponse p)
  | ListScheduledSessionOperationsRequest m =>
      let* r := ListScheduledSessionOperations_rpc ctx m in answer (ScheduledOperationsResponse r)
  | CancelScheduledSessionOperationRequest i => CancelScheduledSessionOperation_rpc ctx i ;;; answer DoneResponse
  end.

(** [ControllerService.NewHandler] *)
Definition controller_serve {RR : RoleRepository} (rules : Rules) (authorization : string) (m : ControllerRequest) : Go Answer :=
  auth_stack secretKey rules (controller_dispatch m) context_Background (controller_request authorization m).
End Service.
