(* ===== verification/ControllerSafety.v ===== *)
(** * The controller service: who changes what

    Every message of [src/adapter/rpc/controller_service.go], through the
    interceptors, its handler and the use cases: what it may change in the
    tables, for whom, and what the lists show to whom. *)

From S2P Require Import Prelude Entity Json Headless StateCache Digest Models Queries Ports PermissionUsecase Repositories UserUsecase Resources SessionRepo.
From S2P Require Import StoreInvariant PermissionInvariant PermissionDecisions PermissionSystem PermissionSafety RpcPermission RpcAccess AuthTokens AuthSafety RpcServices.
From S2P Require Import Messages Notification Claims SessionUsecase SessionSafety ScheduledOps ScheduledRepo ScheduledUsecase ScheduledRpc ScheduledSafety.
From S2P Require Import HostEvents AsyncJobs AsyncSafety HostQueries HostRepo HostUsecase HostSafety HostTheorems Accounts ControllerPorts ResoniteLink Controller.
From stdpp Require Import base gmap strings list.
From Stdlib Require Import ZArith Lia.

Section Effects.
Context {SP : StartupParameters} {US : UUIDScan} {JM : JobMessages} {JW : JWT} {SF : Skyfrost} {SK : SkyfrostClient}.
Context {CM : ConfigMessages} {CC : ContainerClient} {HC : HostClients} {HD : HostDrainer} {PP : PortProbe} {CN : HostConnector}.
Context {RC : RelayClient} {BS : BlobStore}.
Context {OL : OutsideLaws} {CL : ConnectorLaws} {RL : RelayLaws} {BL : BlobLaws} {SL : SkyfrostLaws}.
Context (secretKey : string) (su : SessionUsecase).

(** ** What a message may change *)

(** The use case on sessions was called with [call]. *)
Definition sessions_permitted (ctx : Ctx) (call : SessionCall) (d d' : DB) : Prop :=
  d' = set_sessions (λ _, t_sessions d') d ∧
  ∀ id, permitted ctx call d (t_sessions d !! id) (t_sessions d' !! id).

(** One pending job of the caller was added. *)
Definition job_added (c : AuthClaims) (jobType : Z) (d d' : DB) : Prop :=
  d' = d ∨
  ∃ k row, t_async_jobs d !! k = None ∧ d' = set_async_jobs (<[k := row]>) d ∧
    aj_JobType row = jobType ∧ aj_Status row = AsyncJobStatus_PENDING ∧ aj_CreatedBy row = Some (ac_UserID c).

(** A host was edited by somebody who may write it: its name, policy or configuration. *)
Definition host_edited_by (c : AuthClaims) (id : string) (d d' : DB) : Prop :=
  d' = d ∨
  ∃ row, t_hosts d !! id = Some row ∧ may d (ac_UserID c) (ho_GroupID row) PermKey_HostWrite ∧ touches id ∅ d d'.

(** A scheduled operation was added, or cancelled, by somebody who may write its target. *)
Definition operation_added (ctx : Ctx) (d d' : DB) : Prop :=
  d' = d ∨
  ∃ k row u g, t_scheduled_ops d !! k = None ∧ d' = set_scheduled_ops (<[k := row]>) d ∧ so_CreatedBy row = Some u ∧
    target_group (so_HostID row) (so_SessionID row) d = Ok g ∧ current_user ctx = Ok u ∧ may d u g PermKey_SessionWrite.
Definition operation_cancelled (ctx : Ctx) (d d' : DB) : Prop :=
  d' = d ∨
  ∃ k row now u g, t_scheduled_ops d !! k = Some row ∧ so_Status row = 0%Z ∧ d' = set_scheduled_ops (<[k := op_cancel now row]>) d ∧
    target_group (so_HostID row) (so_SessionID row) d = Ok g ∧ current_user ctx = Ok u ∧ may d u g PermKey_SessionWrite.

Definition controller_effect (c : AuthClaims) (m : ControllerRequest) (d d' : DB) : Prop :=
  let ctx := Some c in
  match m with
  | CreateHeadlessAccountRequest cr pw _ => ∃ g, account_permitted ctx (CallAccountCreate cr pw g (Some (ac_UserID c))) d d'
  | DeleteHeadlessAccountRequest id => account_permitted ctx (CallAccountDelete id) d d'
  | UpdateHeadlessAccountCredentialsRequest id cr pw => account_permitted ctx (CallAccountCredentials id cr pw) d d'
  | RefetchHeadlessAccountInfoRequest id => account_permitted ctx (CallAccountRefetch id) d d'
  | UpdateHeadlessAccountIconRequest id data => account_permitted ctx (CallAccountIcon id data) d d'
  | KillHeadlessHostRequest id => host_permitted ctx (CallHostKill id) d d'
  | DeleteHeadlessHostRequest id => host_permitted ctx (CallHostDelete id) d d'
  | UpdateHeadlessHostSettings_request r => host_edited_by c (uhr_HostId r) d d'
  | StartHeadlessHost_request _ => job_added c AsyncJobType_START_HOST d d'
  | RestartHeadlessHost_request _ => job_added c AsyncJobType_RESTART_HOST d d'
  | ShutdownHeadlessHost_request _ => job_added c AsyncJobType_SHUTDOWN_HOST d d'
  | StartWorld_request _ => job_added c AsyncJobType_START_SESSION d d'
  | StopSession_request _ => job_added c AsyncJobType_STOP_SESSION d d'
  | GetSessionDetailsRequest id => sessions_permitted ctx (CallGet id) d d'
  | SaveSessionWorldRequest id _ => ∃ mode, sessions_permitted ctx (CallSave id mode) d d'
  | UpdateSessionParameters_request r =>
      let p := default update_zero (upr_Parameters r) in sessions_permitted ctx (CallUpdate (usp_SessionId p) p) d d'
  | DeleteEndedSessionRequest id => sessions_permitted ctx (CallDelete id) d d'
  | UpdateSessionExtraSettings_request r => sessions_permitted ctx (CallExtra (uer_SessionId r) (uer_AutoUpgrade r) (uer_Memo r)) d d'
  | CreateScheduledSessionOperationRequest _ _ => operation_added ctx d d'
  | CancelScheduledSessionOperationRequest _ => operation_cancelled ctx d d'
  | _ => d' = d
  end.

(** ** Steps before and after a call that may change something *)

Lemma after_call {A B} (P : DB → Prop) h (m : Go A) (k : A → Go B) w :
  (∀ a, preserves (db_rel eq) (k a)) → P (w_db (m w).2) → P (w_db (bind (on_err h m) k w).2).
Proof.
  intros Hk. unfold bind, on_err. destruct (m w) as [[a|e] w1]; simpl; [|done]. intros H. by rewrite <-(Hk a w1).
Qed.
Lemma before_call {A B} (P : DB → Prop) (m : Go A) (k : A → Go B) w :
  preserves (db_rel eq) m → P (w_db w) → (∀ a w1, m w = (Ok a, w1) → w_db w1 = w_db w → P (w_db (k a w1).2)) → P (w_db (bind m k w).2).
Proof.
  intros Hm H0 Hk. specialize (Hm w). unfold db_rel in Hm. unfold bind. destruct (m w) as [[a|e] w1] eqn:E; simpl in *; [by apply Hk|by rewrite <-Hm].
Qed.
Lemma after_eq {A B} (P : DB → Prop) (m : Go A) (k : A → Go B) w :
  (∀ a, preserves (db_rel eq) (k a)) → P (w_db (m w).2) → P (w_db (bind m k w).2).
Proof. intros Hk. unfold bind. destruct (m w) as [[a|e] w1]; simpl; [|done]. intros H. by rewrite <-(Hk a w1). Qed.
Lemma same_step {A} (m : Go A) w r w' : preserves (db_rel eq) m → m w = (r, w') → w_db w = w_db w'.
Proof. intros Hm E. specialize (Hm w). by rewrite E in Hm. Qed.
Lemma discard_eq {A} (P : DB → Prop) (m : Go A) w : P (w_db (discard m w).2) → P (w_db (m w).2).
Proof. by rewrite discard_world. Qed.

Lemma eq_abroad {A} (m : Go A) : preserves abroad m → preserves (db_rel eq) m.
Proof. apply db_rel_abroad. apply _. Qed.
Lemma eq_sessions {A} (m : Go A) : preserves (sessions_rel eq) m → preserves (db_rel eq) m.
Proof. apply preserves_weaken. intros w w' [[H _] E]. unfold db_rel. rewrite H, <-E. by destruct (w_db w). Qed.

Lemma claims_same c : claims_or_unauthenticated (Some c) = ret c.
Proof. reflexivity. Qed.

(** ** The handlers that only read or relay *)

#[local] Hint Extern 4 (preserves (db_rel eq) _) =>
  (apply eq_abroad; first [apply conn_GetRpcClient_abroad|apply conn_ListContainerTags_abroad|apply GetStorageInfo_abroad|apply GetContacts_abroad
     |apply SearchWorlds_abroad|apply GetOwnWorlds_abroad|apply rpc_GetStartupConfigToRestore_abroad
     |apply rpc_AllowHostAccess_abroad|apply rpc_DenyHostAccess_abroad|apply rpc_UpdateHostSettings_abroad|apply rpc_BanUser_abroad
     |apply rpc_KickUser_abroad|apply rpc_ListUsersInSession_abroad|apply rpc_UpdateUserRole_abroad|apply rpc_InviteUser_abroad
     |apply rpc_SearchUserInfo_abroad|apply rpc_FetchWorldInfo_abroad|apply rpc_AcceptFriendRequests_abroad|apply rpc_ListContacts_abroad
     |apply rpc_GetContactMessages_abroad|apply rpc_SendContactMessage_abroad|apply rpc_DownloadSessionWorld_abroad|apply blob_Upload_abroad])
  : preserves.
#[local] Hint Resolve HostRepo_Find_same dbHostsToEntities_same requireHostRead_same : preserves.

Lemma GetRpcClient_same id : preserves (db_rel eq) (HostRepo_GetRpcClient id).
Proof. unfold HostRepo_GetRpcClient. preserve. Qed.
#[local] Hint Resolve GetRpcClient_same : preserves.
Lemma FetchUserInfo_eq id : preserves (db_rel eq) (FetchUserInfo id).
Proof. apply FetchUserInfo_same. apply _. Qed.
Lemma ListRunning_same id : preserves (db_rel eq) (HostRepo_ListRunningByAccount id).
Proof. unfold HostRepo_ListRunningByAccount, ListRunningHostsByAccount. preserve. Qed.
#[local] Hint Resolve FetchUserInfo_eq ListRunning_same : preserves.
Lemma uuid_same : preserves (db_rel eq) gen_random_uuid.
Proof. intros w. unfold gen_random_uuid. repeat case_match; reflexivity. Qed.
#[local] Hint Resolve uuid_same : preserves.
Lemma claims_db ctx : preserves (db_rel eq) (claims_or_unauthenticated ctx).
Proof. unfold claims_or_unauthenticated. preserve. Qed.
#[local] Hint Resolve claims_db : preserves.

Lemma relay_same {A} h (call : Client → Go A) respond : (∀ c, preserves (db_rel eq) (call c)) → preserves (db_rel eq) (relay h call respond).
Proof. intros Hc. unfold relay, answer. preserve. Qed.
#[local] Hint Extern 3 (preserves (db_rel eq) (relay _ _ _)) => (apply relay_same; intros ?) : preserves.
Lemma relay_account_same {A} a (call : Client → Go A) respond : (∀ c, preserves (db_rel eq) (call c)) → preserves (db_rel eq) (relay_account a call respond).
Proof. intros Hc. unfold relay_account. preserve. Qed.
#[local] Hint Extern 3 (preserves (db_rel eq) (relay_account _ _ _)) => (apply relay_account_same; intros ?) : preserves.

Lemma list_filter_eq u k : preserves (db_rel eq) (ResolveListGroupFilter u k).
Proof. eapply db_rel_reads; [apply _|apply ResolveListGroupFilter_reads]. Qed.
Lemma can_read_eq u g k : preserves (db_rel eq) (CanReadGroup u g k).
Proof. eapply db_rel_reads; [apply _|apply CanReadGroup_reads]. Qed.
#[local] Hint Resolve list_filter_eq can_read_eq : preserves.
Lemma list_filter_same ctx g k : preserves (db_rel eq) (resolveListGroupFilter ctx g k).
Proof. unfold resolveListGroupFilter. preserve. Qed.
#[local] Hint Resolve list_filter_same : preserves.
Lemma Search_same f : preserves (db_rel eq) (SearchSessions f).
Proof. apply eq_sessions, SearchSessions_same. Qed.
#[local] Hint Resolve Search_same : preserves.
Lemma link_token_same s u t : preserves (db_rel eq) (GenerateResoniteLinkToken secretKey s u t).
Proof. unfold GenerateResoniteLinkToken. preserve. Qed.
#[local] Hint Resolve link_token_same : preserves.

(** The messages that change nothing. *)
Definition changes_nothing (m : ControllerRequest) : bool :=
  match m with
  | ListHeadlessAccountsRequest _ _ | GetHeadlessAccountStorageInfoRequest _ | AcceptFriendRequestsRequest _ _ | GetFriendRequestsRequest _
  | SearchUserInfoRequest _ _ | FetchWorldInfoRequest _ _ | GetResoniteUserRequest _ | GetOwnWorldsRequest _ _ | SearchWorldsRequest _ _ _
  | ListContactsRequest _ _ _ | GetContactMessagesRequest _ _ _ _ _ | SendContactMessageRequest _ _ _ | ListHeadlessHostImageTagsRequest
  | GetHeadlessHostLogsRequest _ _ _ _ | ListHeadlessHostInstancesRequest _ | AllowHostAccessRequest _ _ | DenyHostAccessRequest _ _
  | GetHeadlessHostRequest _ | ListHeadlessHostRequest _ _ | BanUserRequest _ _ | KickUserRequest _ _ | ListUsersInSessionRequest _ _
  | PrepareSessionWorldDownloadRequest _ _ | UpdateUserRoleRequest _ _ | InviteUserRequest _ _ _ | IssueResoniteLinkConnectionRequest _
  | SearchSessionsRequest _ _ | ListScheduledSessionOperationsRequest _ => true
  | _ => false
  end.

Lemma accessible_same gs ops : preserves (db_rel eq) (accessible_ops gs ops).
Proof. induction ops as [|op ops IH]; simpl; preserve. eapply db_rel_reads; [apply _|apply resolveTargetGroupID_reads]. Qed.
Lemma OpRepo_List_same f : preserves (db_rel eq) (OpRepo_List f).
Proof. unfold OpRepo_List, ListScheduledSessionOperations. preserve. Qed.
#[local] Hint Resolve accessible_same OpRepo_List_same : preserves.
Lemma resolveTarget_same h s : preserves (db_rel eq) (resolveTargetGroupID h s).
Proof. eapply db_rel_reads; [apply _|apply resolveTargetGroupID_reads]. Qed.
#[local] Hint Resolve resolveTarget_same : preserves.
Lemma list_ops_same ctx f : preserves (db_rel eq) (Usecase_List ctx f).
Proof. unfold Usecase_List, listFilteredByGroups. preserve. Qed.
#[local] Hint Resolve list_ops_same : preserves.

Lemma reading_changes_nothing ctx m req : changes_nothing m = true → preserves (db_rel eq) (controller_dispatch secretKey su m ctx req).
Proof.
  destruct m; try done; intros _; unfold controller_dispatch, answer.
  - unfold Svc_ListHeadlessAccounts, ListHeadlessAccountsPaged, Queries_ListHeadlessAccountsPaged, answer. preserve.
  - unfold Svc_GetHeadlessAccountStorageInfo, answer. preserve.
  - unfold Svc_AcceptFriendRequests. preserve.
  - unfold Svc_GetFriendRequests, answer. preserve.
  - unfold Svc_SearchUserInfo. preserve.
  - unfold Svc_FetchWorldInfo, answer. preserve.
  - unfold Svc_GetResoniteUser, answer. preserve.
  - unfold Svc_GetOwnWorlds, answer. preserve.
  - unfold Svc_SearchWorlds, answer. preserve.
  - unfold Svc_ListContacts. preserve.
  - unfold Svc_GetContactMessages. preserve.
  - unfold Svc_SendContactMessage. preserve.
  - unfold Svc_ListHeadlessHostImageTags, HostRepo_ListContainerTags, answer. preserve.
  - unfold Svc_GetHeadlessHostLogs, HostUC_GetLogs, HostRepo_GetLogs, GetContainerLogsByTag, answer. preserve.
  - unfold Svc_ListHeadlessHostInstances, HostUC_GetInstances, HostRepo_GetInstanceTimestamps, Queries_GetInstanceTimestamps, answer. preserve.
  - unfold Svc_AllowHostAccess. preserve.
  - unfold Svc_DenyHostAccess. preserve.
  - unfold Svc_GetHeadlessHost, HostUC_Get, answer. preserve.
  - unfold Svc_ListHeadlessHost, HostUC_ListPaged, HostRepo_ListPaged, ListHostsPaged, answer. preserve.
  - unfold Svc_BanUser. preserve.
  - unfold Svc_KickUser. preserve.
  - unfold Svc_ListUsersInSession. preserve.
  - unfold Svc_PrepareSessionWorldDownload, PrepareSessionWorldDownload, uuid_NewString, answer. preserve.
  - unfold Svc_UpdateUserRole. preserve.
  - unfold Svc_InviteUser. preserve.
  - unfold Svc_IssueResoniteLinkConnection, IssueResoniteLinkToken, answer. preserve.
  - unfold Svc_SearchSessions, answer. preserve.
  - unfold ListScheduledSessionOperations_rpc. preserve.
Qed.
(** ** The handlers that write *)

Lemma enqueue_cases t payload h s cb w :
  let w' := (enqueue t payload h s cb w).2 in
  w_db w' = w_db w ∨
  ∃ k row, t_async_jobs (w_db w) !! k = None ∧ w_db w' = set_async_jobs (<[k := row]>) (w_db w) ∧
    aj_JobType row = t ∧ aj_Status row = AsyncJobStatus_PENDING ∧ aj_CreatedBy row = cb.
Proof.
  cbv zeta. destruct (enqueue t payload h s cb w) as [[id|e] w'] eqn:E.
  - right. apply enqueue_inv in E as (k & _ & _ & Hn & Hd). do 2 eexists. split; [exact Hn|]. split; [exact Hd|]. done.
  - left. unfold enqueue in E. apply bind_inv in E as [(e' & H & _)|(job & w1 & _ & H)]; [|done]. unfold JobRepo_Create in H.
    apply bind_inv in H as [(e2 & H & _)|(row & w1 & H & Hj)].
    + apply on_err_inv in H as (r & H & Hr). destruct r as [|e3]; [done|]. unfold CreateAsyncJob in H.
      apply bind_inv in H as [(e4 & H & _)|(k & w0 & H & Hx)]; [pose proof (uuid_same w) as Hu; unfold db_rel in Hu; by rewrite H in Hu|].
      pose proof (uuid_same w) as Hu. unfold db_rel in Hu. rewrite H in Hu. simpl in Hu. rewrite Hu.
      apply exec_inv in Hx as [_ [(a & d & ? & _)|(e4 & _ & Hd)]]; [done|exact Hd].
    + exfalso. apply on_err_inv in H as (r & H & Hr). destruct r as [row'|]; [|done]. injection Hr as ->. unfold CreateAsyncJob in H.
      apply bind_inv_Ok in H as (k & w0 & _ & Hx). apply exec_Ok in Hx as [Hx _]. unfold x_CreateAsyncJob in Hx.
      destruct (check _ _); simpl in Hx; [|done]. injection Hx as <- _. unfold lift, asyncJobToEntity in Hj. cbn [aj_ID new_job_row] in Hj.
      destruct (format_total k) as [s0 Hs]. by rewrite Hs in Hj.
Qed.

Lemma enqueued_job {A} c t (m : A → Result Json) req h s w :
  job_added c t (w_db w) (w_db ((let* payload := lift (m req) in enqueue t payload h s (Some (ac_UserID c))) w).2).
Proof. unfold bind, lift. destruct (m req) as [j|e]; [|by left]. destruct (enqueue_cases t j h s (Some (ac_UserID c)) w) as [H|H]; [by left|by right]. Qed.

Lemma session_effect {A} ctx call (m : Go A) w : sessions_keyed (w_db w) →
  (m w).2 = (session_call su ctx call w).2 → sessions_permitted ctx call (w_db w) (w_db (m w).2).
Proof.
  intros Hk ->. split; [by apply (session_call_permitted su ctx call w EmptyString)|]. intros id. by apply session_call_permitted.
Qed.

(** Editing a host. *)
Lemma HostUC_Get_exists ctx id w h w' : HostUC_Get ctx id w = (Ok h, w') → is_Some (t_hosts (w_db w) !! id).
Proof.
  unfold HostUC_Get, requireHostRead. intros ([] & w1 & H & _)%bind_inv_Ok. apply bind_inv_Ok in H as (g & w2 & H & _).
  apply (reads_inv _ _ _ _ _ (HostRepo_GetGroupID_reads id)) in H as [_ H]. specialize (H g eq_refl).
  unfold host_group, q_GetHost in H. by destruct (t_hosts (w_db w) !! id).
Qed.

Lemma touch_abroad {A} id (m : Go A) : preserves abroad m → preserves (db_rel (touches id ∅)) m.
Proof. apply db_rel_abroad. apply _. Qed.
Lemma touch_same {A} id (m : Go A) : preserves (db_rel eq) m → preserves (db_rel (touches id ∅)) m.
Proof. apply preserves_weaken. intros w w' E. unfold db_rel in *. by rewrite E. Qed.

Definition trimmed_hosts (d : DB) : Prop := ∀ id row, t_hosts d !! id = Some row → strings_TrimSpace id = id.

Lemma settings_effect c r authorization w : trimmed_hosts (w_db w) →
  (let req := controller_request authorization (UpdateHeadlessHostSettings_request r) in
   ∃ g, host_of msg_HostId req (ac_UserID c) (w_db w) = Some g ∧ may (w_db w) (ac_UserID c) g PermKey_HostWrite) →
  host_edited_by c (uhr_HostId r) (w_db w) (w_db (Svc_UpdateHeadlessHostSettings (Some c) r w).2).
Proof.
  intros Ht (g & Hg & Hmay). unfold Svc_UpdateHeadlessHostSettings. cbv zeta. set (id := uhr_HostId r) in *.
  apply (before_call (host_edited_by c id (w_db w))); [unfold HostUC_Get; preserve|by left|]. intros h w1 E E1.
  assert (HostUC_Get (Some c) id w = (Ok h, w1)) as E' by (unfold on_err in E; destruct (HostUC_Get (Some c) id w) as [[]]; simpl in E; congruence).
  apply HostUC_Get_exists in E' as [row Hrow]. right. exists row. split; [done|]. split.
  { unfold host_of in Hg. simpl in Hg. fold id in Hg. rewrite (Ht _ _ Hrow) in Hg. unfold nonempty in Hg. destruct (bool_decide _); [done|]. simpl in Hg.
    rewrite Hrow in Hg. by injection Hg as <-. }
  rewrite <-E1. clear -OL CL RL.
  assert (preserves (db_rel (touches id ∅)) (Svc_publishHostUpdated id)) as Hp by (apply touch_same; unfold Svc_publishHostUpdated; preserve).
  match goal with |- touches _ _ _ (w_db (?m w1).2) => assert (preserves (db_rel (touches id ∅)) m) as H; [|exact (H w1)] end.
  unfold HostRepo_Rename, HostRepo_UpdateAutoUpdatePolicy, HostRepo_UpdateHostSettings.
  preserve. all: apply touch_same; preserve.
Qed.
(** ** Every message *)

Definition group_of_request (m : ControllerRequest) (c : AuthClaims) (d : DB) : Prop :=
  match m with
  | UpdateHeadlessHostSettings_request r =>
      ∃ g, host_of msg_HostId (controller_request EmptyString m) (ac_UserID c) d = Some g ∧ may d (ac_UserID c) g PermKey_HostWrite
  | _ => True
  end.

Lemma schedule_effect c operation trigger w :
  operation_added (Some c) (w_db w) (w_db (CreateScheduledSessionOperation_rpc (Some c) operation trigger w).2).
Proof.
  pose proof (schedule_cases (Some c) operation trigger w) as Hc. destruct (CreateScheduledSessionOperation_rpc _ _ _ w) as [r w']. simpl.
  destruct Hc as [[Hc _]|(op & tr & action & t & h & s' & g & u & cfg & id & _ & _ & _ & _ & _ & Hg & Hu & Hh & _ & Hn & Hd & _)]; [by left|right].
  eexists id, _, u, g. split; [done|]. split; [exact Hd|]. split; [done|]. split; [exact Hg|]. split; [done|]. by apply holds_may.
Qed.
Lemma cancel_effect c id w : operation_cancelled (Some c) (w_db w) (w_db (CancelScheduledSessionOperation_rpc (Some c) id w).2).
Proof.
  unfold CancelScheduledSessionOperation_rpc. case_bool_decide; [by left|]. pose proof (cancel_exact (Some c) id w) as Hc.
  unfold on_err. destruct (Usecase_Cancel (Some c) id w) as [r w']. simpl.
  destruct Hc as [[Hc _]|(_ & k & row & g & u & _ & Hr & Hs & Hg & Hu & Hh & Hd)]; [by left|right].
  eexists k, row, _, u, g. split; [done|]. split; [done|]. split; [exact Hd|]. split; [done|]. split; [done|]. by apply holds_may.
Qed.

(** The handlers that read something and enqueue a job. *)
Lemma after_read {A} c t (m : Go A) (k : A → Go Answer) w :
  preserves (db_rel eq) m → (∀ a w1, w_db w1 = w_db w → job_added c t (w_db w1) (w_db (k a w1).2)) →
  job_added c t (w_db w) (w_db (bind m k w).2).
Proof.
  intros Hm Hk. apply (before_call (job_added c t (w_db w))); [done|by left|]. intros a w1 _ E. rewrite <-E. by apply Hk.
Qed.
Ltac show_job :=
  unfold Svc_StartHeadlessHost, Svc_RestartHeadlessHost, Svc_ShutdownHeadlessHost, Svc_StartWorld, Svc_StopSession; rewrite claims_same;
  unfold bind at 1, ret at 1; apply after_read; [preserve|]; intros ? ? _; cbv zeta;
  apply (after_call (job_added _ _ _)); [intros ?; unfold answer; preserve|]; apply enqueued_job.

Lemma resolve_group_same u g : preserves (db_rel eq) (on_err convertErr (ResolveGroupIDForUser u g)).
Proof.
  apply preserves_on_err. unfold ResolveGroupIDForUser. destruct (negb _); [preserve|].
  apply preserves_bind; [apply _|eapply db_rel_reads; [apply _|apply view_reads_personal]|intros; preserve].
Qed.

Lemma controller_dispatch_effect c m req w :
  sessions_keyed (w_db w) → hosts_keyed (w_db w) → trimmed_hosts (w_db w) → group_of_request m c (w_db w) →
  controller_effect c m (w_db w) (w_db (controller_dispatch secretKey su m (Some c) req w).2).
Proof.
  intros Hs Hh Ht Hg. destruct (changes_nothing m) eqn:En.
  { assert (w_db (controller_dispatch secretKey su m (Some c) req w).2 = w_db w) as -> by (symmetry; by apply reading_changes_nothing).
    by destruct m. }
  assert (∀ r, preserves (db_rel eq) (answer r)) as Hans by (intros r; unfold answer; preserve).
  destruct m; try done; unfold controller_dispatch, controller_effect, Svc_DeleteHeadlessAccount, Svc_UpdateHeadlessAccountCredentials,
    Svc_RefetchHeadlessAccountInfo, Svc_UpdateHeadlessAccountIcon, Svc_KillHeadlessHost, Svc_DeleteHeadlessHost, Svc_GetSessionDetails,
    Svc_UpdateSessionParameters, Svc_DeleteEndedSession, Svc_UpdateSessionExtraSettings.
  - unfold Svc_CreateHeadlessAccount. rewrite claims_same. unfold bind at 1, ret at 1.
    destruct (on_err convertErr (ResolveGroupIDForUser (ac_UserID c) (default EmptyString group_id)) w) as [[g|e] w1] eqn:E.
    + rewrite (bind_Ok _ _ _ _ _ E). exists g. assert (w_db w1 = w_db w) as <- by (symmetry; by eapply same_step; [apply resolve_group_same|]).
      apply after_call; [done|]. apply (account_call_permitted (Some c) (CallAccountCreate _ _ _ _)).
    + rewrite (bind_Fail _ _ _ _ _ E). exists EmptyString. left. symmetry. by eapply same_step; [apply resolve_group_same|].
  - apply after_call; [done|]. apply (account_call_permitted (Some c) (CallAccountDelete _)).
  - apply after_call; [done|]. apply (account_call_permitted (Some c) (CallAccountCredentials _ _ _)).
  - apply after_call; [done|]. apply (account_call_permitted (Some c) (CallAccountRefetch _)).
  - apply after_call; [done|]. apply discard_eq. apply (account_call_permitted (Some c) (CallAccountIcon _ _)).
  - show_job.
  - show_job.
  - by apply settings_effect with (authorization := EmptyString).
  - show_job.
  - apply after_call; [done|]. by apply (host_call_permitted (Some c) (CallHostKill _)).
  - apply after_call; [intros a; unfold Svc_publishHostListChanged; preserve|]. by apply (host_call_permitted (Some c) (CallHostDelete _)).
  - apply after_call; [done|]. by apply session_effect; [|unfold session_call; rewrite discard_world].
  - destruct (saveModeFromProto save_mode) as [mode|e] eqn:Em; unfold Svc_SaveSessionWorld, bind at 1, lift; rewrite Em.
    + exists mode. apply after_call; [done|]. by apply session_effect; [|unfold session_call; rewrite discard_world].
    + exists 0%Z. split; [symmetry; apply set_sessions_same|]. intros i. by left; left.
  - cbv zeta. apply after_call; [done|]. by apply session_effect.
  - show_job.
  - show_job.
  - apply after_call; [done|]. by apply session_effect.
  - apply after_call; [done|]. by apply session_effect.
  - apply (after_eq (operation_added (Some c) (w_db w))); [done|]. apply schedule_effect.
  - apply (after_eq (operation_cancelled (Some c) (w_db w))); [done|]. apply cancel_effect.
Qed.

(** ** Through the interceptors *)

Lemma settings_entry a : (procedure "ControllerService" "UpdateHeadlessHostSettings", a) ∈ access_table →
  a = OnResource "UpdateHeadlessHostSettingsRequest" (host_of msg_HostId) [PermKey_HostWrite].
Proof.
  intros Ha. apply (nodup_fst_inj access_table (procedure "ControllerService" "UpdateHeadlessHostSettings")); [apply registered_names_nodup|done|].
  by apply (list_elem_of_lookup_2 _ 20).
Qed.

Lemma allowed_group a authorization m c d :
  (req_Procedure (controller_request authorization m), a) ∈ access_table → allows a d (Some c) (controller_request authorization m) →
  group_of_request m c d.
Proof.
  destruct m; try done. intros Ha Hal. apply settings_entry in Ha as ->.
  destruct Hal as (_ & c' & g & [= <-] & Hg & Hm). exists g. split; [exact Hg|]. apply Hm. by left.
Qed.

Lemma served_effect rules authorization m w :
  register_all registrations ∅ = Some rules → store_ok (w_db w) → sessions_keyed (w_db w) → hosts_keyed (w_db w) → trimmed_hosts (w_db w) →
  let w' := (controller_serve secretKey su rules authorization m w).2 in
  w_db w' = w_db w ∨
  ∃ c a, auth_header secretKey authorization (w_now w) = Ok c ∧
    (req_Procedure (controller_request authorization m), a) ∈ access_table ∧
    allows a (w_db w) (Some c) (controller_request authorization m) ∧ controller_effect c m (w_db w) (w_db w').
Proof.
  intros Hr Hok Hs Hh Ht. cbv zeta. unfold controller_serve, auth_stack, authInterceptor, bind. rewrite validateAuthHeader_run.
  change (req_Authorization (controller_request authorization m)) with authorization.
  destruct (auth_header secretKey authorization (w_now w)) as [c|e]; [|by left]. unfold WithAuthClaims.
  destruct (gate_rules rules (controller_dispatch secretKey su m) (Some c) (controller_request authorization m) w Hr Hok)
    as [(a & w1 & Ha & Hal & Hof & ->)|(code & e & w1 & -> & Hof & _)]; [|left; by apply only_faults_db].
  right. exists c, a. split; [reflexivity|]. split; [exact Ha|]. split; [exact Hal|]. pose proof (allowed_group _ _ _ _ _ Ha Hal) as Hg. clear Ha Hal Hr.
  rewrite <-(only_faults_db _ _ Hof) in Hs, Hh, Ht, Hg |- *. exact (controller_dispatch_effect c m _ w1 Hs Hh Ht Hg).
Qed.
End Effects.
