(* ===== verification/ControllerTheorems.v ===== *)
(** * The controller service: theorems

    What a served message changes and for whom, and that the lists of hosts,
    accounts and sessions show resources of groups the caller may read only. *)

From S2P Require Import Prelude Entity Json Headless StateCache Digest Models Queries Ports PermissionUsecase Repositories UserUsecase Resources SessionRepo.
From S2P Require Import PlainJson PermissionTheorems RpcTheorems NotificationService SessionRedelivery SessionWitness.
From S2P Require Import StoreInvariant PermissionInvariant PermissionDecisions PermissionSystem PermissionSafety RpcPermission RpcAccess AuthTokens AuthSafety RpcServices.
From S2P Require Import Messages Notification Claims SessionUsecase SessionSafety SessionSearch ScheduledOps ScheduledRepo ScheduledUsecase ScheduledRpc ScheduledSafety ScheduledFindings.
From S2P Require Import HostEvents AsyncJobs AsyncSafety HostQueries HostRepo HostUsecase HostSafety HostTheorems HostWitness Accounts ControllerPorts ResoniteLink Controller ControllerSafety.
From stdpp Require Import base gmap strings list.
From Stdlib Require Import ZArith Lia.

(** A group is visible to those who may list every group and to those who hold the key in it. *)
Definition visible (d : DB) (u g k : string) : Prop := granted d u SystemGroupID PermKey_SystemGroupList ∨ may d u g k.

Section Listing.
Context {SP : StartupParameters} {US : UUIDScan} {JM : JobMessages} {JW : JWT} {SF : Skyfrost} {SK : SkyfrostClient}.
Context {CM : ConfigMessages} {CC : ContainerClient} {HC : HostClients} {HD : HostDrainer} {PP : PortProbe} {CN : HostConnector}.
Context {RC : RelayClient} {BS : BlobStore} {CL : ConnectorLaws}.
Context (secretKey : string) (su : SessionUsecase).

Definition in_filter (gs : option (list string)) (g : string) : bool :=
  match gs with None => true | Some gs => bool_decide (g ∈ gs) end.

Lemma on_err_Ok' {A} h (m : Go A) w a w' : on_err h m w = (Ok a, w') → m w = (Ok a, w').
Proof. intros ([|] & H & [=])%on_err_inv. by subst. Qed.

Lemma filter_visible c requested k w gs w' : k ≠ EmptyString →
  resolveListGroupFilter (Some c) requested k w = (Ok gs, w') →
  only_faults w w' ∧ ∀ g, in_filter gs g = true → visible (w_db w) (ac_UserID c) g k.
Proof.
  intros Hk. unfold resolveListGroupFilter. rewrite claims_same. unfold bind at 1, ret at 1. cbv zeta. destruct (negb _).
  - intros (ok & w1 & H & H2)%bind_inv_Ok. apply on_err_Ok' in H. apply (reads_inv _ _ _ _ _ (CanReadGroup_reads _ _ _)) in H as [Hof H].
    specialize (H ok eq_refl). injection H as <-. destruct (can_read _ _ _ _) eqn:E; [|done]. injection H2 as <- <-. split; [done|].
    intros g ->%bool_decide_eq_true%list_elem_of_singleton. unfold can_read in E. apply orb_true_iff in E as [E|E].
    + left. by apply has_system_granted.
    + right. by apply holds_may.
  - intros (r & w1 & H & H2)%bind_inv_Ok. apply on_err_Ok' in H. apply (reads_inv _ _ _ _ _ (ResolveListGroupFilter_reads _ _)) in H as [Hof H].
    specialize (H r eq_refl). injection H2 as <- <-. split; [done|]. injection H as <-. intros g Hg. unfold PermissionDecisions.list_filter in Hg.
    destruct (has_system (w_db w) (ac_UserID c) PermKey_SystemGroupList) eqn:E; [left; by apply has_system_granted|right].
    simpl in Hg. apply bool_decide_eq_true, list_elem_of_fmap in Hg as (m & -> & Hm). apply list_elem_of_filter in Hm as [Hm _].
    unfold listed in Hm. apply andb_true_iff in Hm as [_ Hm]. apply orb_true_iff in Hm as [Hm|Hm]; [by apply bool_decide_eq_true in Hm|by apply holds_may].
Qed.

(** ** Hosts *)

Lemma hosts_of_rows rows b w hs w' : dbHostsToEntities rows b w = (Ok hs, w') →
  ∀ h, h ∈ hs → ∃ r, r ∈ rows ∧ hh_ID h = ho_ID r ∧ hh_GroupID h = ho_GroupID r.
Proof.
  revert w hs. induction rows as [|r rows IH]; intros w hs; simpl; [by intros [= <- _] h ?%elem_of_nil|].
  intros (e & w1 & He & H)%bind_inv_Ok. apply bind_inv_Ok in H as (h0 & w2 & Hh & H). apply bind_inv_Ok in H as (es & w3 & Hes & H).
  injection H as <- <-. intros h [->|Hin]%elem_of_cons; [|destruct (IH _ _ Hes h Hin) as (r' & ? & ?); exists r'; split; [by right|done]].
  exists r. split; [by left|]. unfold attempt in He. destruct (dbToEntity r b w) as [r0 w0] eqn:E. injection He as <- <-.
  destruct r0 as [h1|er]; [injection Hh as <- <-; by apply dbToEntity_of_row in E|].
  destruct er; (injection Hh as <- <- || discriminate Hh); done.
Qed.

Lemma host_page_rows o w res w' : HostUC_ListPaged o w = (Ok res, w') →
  ∀ h, h ∈ hpr_Hosts res → ∃ id r, t_hosts (w_db w) !! id = Some r ∧ hh_ID h = ho_ID r ∧ hh_GroupID h = ho_GroupID r ∧ in_filter (hlo_GroupIDs o) (ho_GroupID r) = true.
Proof.
  unfold HostUC_ListPaged, HostRepo_ListPaged. intros (rows & w1 & H & H2)%bind_inv_Ok. apply on_err_Ok' in H.
  apply (reads_inv _ _ _ _ _ (reads_query _)) in H as [_ H]. specialize (H rows eq_refl).
  apply bind_inv_Ok in H2 as (hs & w2 & H2 & H3). injection H3 as <- _. intros h Hin. simpl in Hin.
  destruct (hosts_of_rows _ _ _ _ _ H2 h Hin) as (r & Hr & Ei & Eg). apply list_elem_of_fmap in Hr as ([r' n] & -> & Hr).
  unfold q_ListHostsPaged in H. apply (limit_offset_spec _ _ _ _ _ _ H) in Hr as [Hr _]. simpl.
  rewrite elem_of_order_by, list_elem_of_In, List.filter_In, <-list_elem_of_In in Hr. destruct Hr as [Hr Hf].
  apply elem_of_rows_of in Hr as [id Hr]. exists id, r'. done.
Qed.
(** ** Accounts and sessions *)

Lemma account_page_rows o w res w' : ListHeadlessAccountsPaged o w = (Ok res, w') →
  ∀ a, a ∈ apr_Accounts res → ∃ id r, t_headless_accounts (w_db w) !! id = Some r ∧ a = headlessAccountToEntity r ∧ in_filter (apo_GroupIDs o) (ha_GroupID r) = true.
Proof.
  unfold ListHeadlessAccountsPaged. intros (rows & w1 & H & H2)%bind_inv_Ok.
  apply (reads_inv _ _ _ _ _ (reads_query _)) in H as [_ H]. specialize (H rows eq_refl). injection H2 as <- _.
  intros a (r' & -> & ([r n] & -> & Hr)%list_elem_of_fmap)%list_elem_of_fmap. unfold q_ListHeadlessAccountsPaged in H.
  apply (limit_offset_spec _ _ _ _ _ _ H) in Hr as [Hr _]. simpl.
  rewrite elem_of_order_by, list_elem_of_In, List.filter_In, <-list_elem_of_In in Hr. destruct Hr as [Hr Hf].
  apply elem_of_rows_of in Hr as [id Hr]. by exists id, r.
Qed.

Lemma entity_row_fields r : sessionToEntity r = Ok (entity r) → Session_ID (entity r) = se_ID r ∧ Session_GroupID (entity r) = se_GroupID r.
Proof. unfold sessionToEntity. destruct (protojson_Unmarshal _); simpl; [|done]. by intros [= <-]. Qed.

Lemma session_page_rows f w res w' : (0 < ssf_PageSize f)%Z → SearchSessions f w = (Ok res, w') →
  ∀ s, s ∈ ssr_Sessions res → ∃ id r, t_sessions (w_db w) !! id = Some r ∧ Session_ID s = se_ID r ∧ Session_GroupID s = se_GroupID r ∧
    in_filter (ssf_GroupIDs f) (se_GroupID r) = true.
Proof.
  intros Hs. unfold SearchSessions. rewrite (proj2 (Z.ltb_lt _ _) Hs). unfold SessionRepo_ListPaged. cbv zeta.
  intros (page & w1 & H & H2)%bind_inv_Ok. apply bind_inv_Ok in H as (rows & w2 & H & H3). apply on_err_Ok' in H.
  apply (reads_inv _ _ _ _ _ (reads_query _)) in H as [_ H]. specialize (H rows eq_refl).
  apply bind_inv_Ok in H3 as (es & w3 & He & H3). injection He as He _. injection H3 as <- <-. apply entities_Ok in He as [-> Hd].
  rewrite (bind_Ok _ _ _ _ _ (hydrate_run _ _)) in H2. injection H2 as <- _. simpl.
  intros s (s0 & -> & (r & -> & ([r' n] & -> & Hr)%list_elem_of_fmap)%list_elem_of_fmap)%list_elem_of_fmap.
  simpl. assert (sessionToEntity r' = Ok (entity r')) as Hdr.
  { rewrite Forall_forall in Hd. apply Hd. apply list_elem_of_fmap. by exists (r', n). }
  apply entity_row_fields in Hdr as [Ei Eg].
  unfold q_ListSessionsPaged in H. apply (limit_offset_spec _ _ _ _ _ _ H) in Hr as [Hr _].
  rewrite elem_of_order_by, list_elem_of_In, List.filter_In, <-list_elem_of_In in Hr. destruct Hr as [Hr Hf].
  apply elem_of_rows_of in Hr as [id Hr]. exists id, r'. split; [done|].
  assert (Session_ID (hydrated (w_cache w3) (entity r')) = se_ID r' ∧ Session_GroupID (hydrated (w_cache w3) (entity r')) = se_GroupID r') as [-> ->]
    by (unfold hydrated; by destruct (Cache_Get _ _)).
  do 2 (split; [done|]). unfold session_matches in Hf. simpl in Hf. apply andb_true_iff in Hf as [_ Hf]. exact Hf.
Qed.

(** ** What a listing answers *)

Definition shows_only_readable (c : AuthClaims) (d : DB) (r : ControllerResponse) : Prop :=
  match r with
  | ListHeadlessHostResponse hosts _ => ∀ h, h ∈ hosts → ∃ id row, t_hosts d !! id = Some row ∧ ph_Id h = ho_ID row ∧
      ph_GroupId h = ho_GroupID row ∧ visible d (ac_UserID c) (ho_GroupID row) PermKey_HostRead
  | ListHeadlessAccountsResponse accounts _ => ∀ a, a ∈ accounts → ∃ id row, t_headless_accounts d !! id = Some row ∧
      a = accountToProto (headlessAccountToEntity row) ∧ visible d (ac_UserID c) (ha_GroupID row) PermKey_AccountRead
  | SearchSessionsResponse sessions _ => ∀ s, s ∈ sessions → ∃ id row, t_sessions d !! id = Some row ∧ ps_Id s = se_ID row ∧
      ps_GroupId s = se_GroupID row ∧ visible d (ac_UserID c) (se_GroupID row) PermKey_SessionRead
  | _ => True
  end.

Lemma lift_inv {A} (r : Result A) w a w' : lift (S := World) r w = (Ok a, w') → r = Ok a ∧ w' = w.
Proof. intros [= ??]. by split. Qed.

(** the three listings, and nothing else, answer such lists *)
Definition is_listing (m : ControllerRequest) : bool :=
  match m with ListHeadlessHostRequest _ _ | ListHeadlessAccountsRequest _ _ | SearchSessionsRequest _ _ => true | _ => false end.

Lemma listing_readable c m req w r ev w' : is_listing m = true →
  controller_dispatch secretKey su m (Some c) req w = (Ok (r, ev), w') → shows_only_readable c (w_db w) r.
Proof.
  destruct m; try done; intros _; unfold controller_dispatch.
  - unfold Svc_ListHeadlessAccounts. intros (p & w1 & Hp & H)%bind_inv_Ok. apply lift_inv in Hp as [_ ->].
    apply bind_inv_Ok in H as (gs & w2 & Hf & H). apply filter_visible in Hf as [Hof Hv]; [|done].
    apply bind_inv_Ok in H as (pg & w3 & Hl & H). apply on_err_Ok' in Hl. injection H as <- _ _. simpl.
    intros a (e & -> & Hin)%list_elem_of_fmap. destruct (account_page_rows _ _ _ _ Hl e Hin) as (id & row & Hr & -> & Hg).
    rewrite (only_faults_db _ _ Hof) in Hr. exists id, row. split; [done|]. split; [done|]. by apply Hv.
  - unfold Svc_ListHeadlessHost. intros (p & w1 & Hp & H)%bind_inv_Ok. apply lift_inv in Hp as [_ ->].
    apply bind_inv_Ok in H as (gs & w2 & Hf & H). apply filter_visible in Hf as [Hof Hv]; [|done].
    apply bind_inv_Ok in H as (pg & w3 & Hl & H). apply on_err_Ok' in Hl. injection H as <- _ _. simpl.
    intros h (e & -> & Hin)%list_elem_of_fmap. destruct (host_page_rows _ _ _ _ Hl e Hin) as (id & row & Hr & Ei & Eg & Hg).
    rewrite (only_faults_db _ _ Hof) in Hr. exists id, row. do 3 (split; [done|]). by apply Hv.
  - unfold Svc_SearchSessions. intros (p & w1 & Hp & H)%bind_inv_Ok. apply lift_inv in Hp as [Hp ->]. destruct p as [i n].
    apply normalize_bounds in Hp as [_ Hn].
    apply bind_inv_Ok in H as (gs & w2 & Hf & H). apply filter_visible in Hf as [Hof Hv]; [|done].
    apply bind_inv_Ok in H as (pg & w3 & Hl & H). apply on_err_Ok' in Hl. injection H as <- _ _. simpl.
    intros s (e & -> & Hin)%list_elem_of_fmap. destruct ((λ H, session_page_rows _ _ _ _ H Hl e Hin) ltac:(simpl; lia)) as (id & row & Hr & Ei & Eg & Hg).
    rewrite (only_faults_db _ _ Hof) in Hr. exists id, row. do 3 (split; [done|]). by apply Hv.
Qed.
End Listing.

(** ** Theorems *)

(** C6. Whatever a message to the controller does and however it fails: either
    the tables are as before; or its token is valid and the access matrix
    allows the message to the user of the token, and then it changed what that
    user may change and no more: one account, or one host with its sessions,
    or sessions, each with the write permission in its group; or it added one
    pending job, or one pending operation for a target he may write, in his
    name; or it cancelled one such operation. *)
Theorem controller_changes_authorised (SP : StartupParameters) (US : UUIDScan) (JM : JobMessages) (JW : JWT) (SF : Skyfrost) (SK : SkyfrostClient)
    (CM : ConfigMessages) (CC : ContainerClient) (HC : HostClients) (HD : HostDrainer) (PP : PortProbe) (CN : HostConnector)
    (RC : RelayClient) (BS : BlobStore) (OL : OutsideLaws) (CL : ConnectorLaws) (RL : RelayLaws) (BL : BlobLaws) (SL : SkyfrostLaws)
    (secretKey : string) (su : SessionUsecase) (rules : Rules) (authorization : string) (m : ControllerRequest) (w : World) :
  register_all registrations ∅ = Some rules → store_ok (w_db w) → sessions_keyed (w_db w) → hosts_keyed (w_db w) → trimmed_hosts (w_db w) →
  let w' := (controller_serve secretKey su rules authorization m w).2 in
  w_db w' = w_db w ∨
  ∃ c a, auth_header secretKey authorization (w_now w) = Ok c ∧
    (req_Procedure (controller_request authorization m), a) ∈ access_table ∧
    allows a (w_db w) (Some c) (controller_request authorization m) ∧ controller_effect c m (w_db w) (w_db w').
Proof. apply served_effect. Qed.

(** C7. A list of hosts, accounts or sessions that the controller answers, to
    whatever filter and page, holds stored resources only, each in a group
    that the user of the token may read, or he may list every group. *)
Theorem listings_show_only_readable (SP : StartupParameters) (US : UUIDScan) (JM : JobMessages) (JW : JWT) (SF : Skyfrost) (SK : SkyfrostClient)
    (CM : ConfigMessages) (CC : ContainerClient) (HC : HostClients) (HD : HostDrainer) (PP : PortProbe) (CN : HostConnector)
    (RC : RelayClient) (BS : BlobStore) (secretKey : string) (su : SessionUsecase) (rules : Rules) (authorization : string)
    (m : ControllerRequest) (w : World) (r : ControllerResponse) (ev : list NotificationEvent) (w' : World) :
  register_all registrations ∅ = Some rules → store_ok (w_db w) → is_listing m = true →
  controller_serve secretKey su rules authorization m w = (Ok (r, ev), w') →
  ∃ c, auth_header secretKey authorization (w_now w) = Ok c ∧ shows_only_readable c (w_db w) r.
Proof.
  intros Hr Hok Hm. unfold controller_serve, auth_stack, authInterceptor, bind. rewrite validateAuthHeader_run.
  change (req_Authorization (controller_request authorization m)) with authorization.
  destruct (auth_header secretKey authorization (w_now w)) as [c|e]; [|done]. unfold WithAuthClaims. intros H. exists c. split; [reflexivity|].
  destruct (gate_rules rules (controller_dispatch secretKey su m) (Some c) (controller_request authorization m) w Hr Hok)
    as [(a & w1 & _ & _ & Hof & E)|(code & e & w1 & E & _)]; rewrite E in H; [|discriminate H].
  rewrite <-(only_faults_db _ _ Hof). by eapply listing_readable.
Qed.

(** ** Witnesses *)

#[local] Existing Instance raw_parameters.
#[local] Existing Instance scanning_UUID.
#[local] Existing Instance plain_jobs.
#[local] Existing Instance sealing_JWT.
#[local] Existing Instance offline_Skyfrost.
#[local] Existing Instance plain_config.
#[local] Existing Instance quiet_container.
#[local] Existing Instance quiet_outside.
#[local] Existing Instance quiet_hosts.
#[local] Existing Instance no_draining.
#[local] Existing Instance odd_ports.

(** A cloud that answers nothing, containers that obey, a blob store that keeps nothing. *)
#[local] Instance closed_cloud : SkyfrostClient := {
  UserLogin _ _ := fail (EMsg "offline");
  GetStorageInfo _ _ _ := fail (EMsg "offline");
  GetContacts _ _ := fail (EMsg "offline");
  UploadTextureRecord _ _ _ _ _ := fail (EMsg "offline");
  UpdateUserProfile _ _ _ := fail (EMsg "offline");
  SearchWorlds _ _ _ := fail (EMsg "offline");
  GetOwnWorlds _ _ _ := fail (EMsg "offline");
  ProcessIconImage d := Ok d }.
#[local] Instance closed_cloud_laws : SkyfrostLaws.
Proof. split; intros; intros ?; reflexivity. Qed.
#[local] Instance quiet_relay : RelayClient := {
  AllowHostAccessParams := unit; DenyHostAccessParams := unit; BanUserParams := unit; KickUserParams := unit; UpdateUserRoleParams := unit;
  SearchUserInfoParams := unit; SearchUserInfoResult := unit; UserInSession := unit; WorldInfo := unit;
  rpc_AllowHostAccess _ _ := ret tt; rpc_DenyHostAccess _ _ := ret tt; rpc_UpdateHostSettings _ _ := ret tt; rpc_BanUser _ _ := ret tt;
  rpc_KickUser _ _ := ret tt; rpc_ListUsersInSession _ _ := ret []; rpc_UpdateUserRole _ _ := ret EmptyString; rpc_InviteUser _ _ _ := ret tt;
  rpc_SearchUserInfo _ _ := ret tt; rpc_FetchWorldInfo _ _ := ret tt; rpc_AcceptFriendRequests _ _ := ret tt;
  rpc_ListContacts _ _ _ := ret ([], None); rpc_GetContactMessages _ _ _ _ _ := ret ([], false, false);
  rpc_SendContactMessage _ _ _ := ret tt; rpc_DownloadSessionWorld _ _ _ := ret ([], None) }.
#[local] Instance quiet_relay_laws : RelayLaws.
Proof. split; intros; intros ?; reflexivity. Qed.
#[local] Instance no_blobs : BlobStore := { blob_Upload _ _ _ _ := ret tt }.
#[local] Instance no_blobs_laws : BlobLaws.
Proof. split; intros; intros ?; reflexivity. Qed.

Definition controller_instance (authorization : string) (m : ControllerRequest) : Go Answer :=
  controller_serve (CN := local_runtime true) secret (NewSessionUsecase 40000 40003 60) rules_in_force authorization m.

(** The token of alice, whatever it looks like. *)
Lemma alice_token : ∃ token, token ≠ EmptyString ∧
  auth_header secret ("Bearer " +:+ token) (w_now sessions_world) =
    Ok (mkAuthClaims "alice" "U-alice" EmptyString (access_registered defaultTokenTTL (w_now sessions_world))).
Proof.
  destruct (GenerateToken_spec secret alice_claims defaultTokenTTL sessions_world) as (s & _ & _ & H); [vm_compute; lia|done|done|].
  specialize (H (w_now sessions_world)). rewrite (proj2 (Z.ltb_lt _ _)) in H by (vm_compute; reflexivity).
  assert (s ≠ EmptyString) as Hne.
  { intros ->. assert (is_Ok (parse_token secret EmptyString (w_now sessions_world)) = false) as He by (vm_compute; reflexivity).
    rewrite H in He. discriminate He. }
  exists s. split; [exact Hne|]. rewrite auth_header_bearer by exact Hne. by rewrite H.
Qed.

Lemma controller_run claims authorization m w : auth_header secret authorization (w_now w) = Ok claims →
  controller_instance authorization m w =
    WrapUnary rules_in_force (controller_dispatch (CN := local_runtime true) secret (NewSessionUsecase 40000 40003 60) m) (Some claims)
      (controller_request authorization m) w.
Proof.
  intros H. unfold controller_instance, controller_serve, auth_stack, authInterceptor, bind. rewrite validateAuthHeader_run.
  change (req_Authorization (controller_request authorization m)) with authorization. by rewrite H.
Qed.

Lemma sessions_world_trimmed : trimmed_hosts (w_db sessions_world).
Proof.
  intros id r. change (t_hosts (w_db sessions_world)) with (<["h1" := alice_host]> (∅ : gmap string HostRow)).
  intros [[<- <-]|[_ H]]%lookup_insert_Some; [done|by rewrite lookup_empty in H].
Qed.

Lemma other_tables_ok d f g : store_ok d → store_ok (set_sessions f (set_hosts g d)).
Proof. apply store_ok_same. by repeat split. Qed.
Lemma sessions_world_ok : store_ok (w_db sessions_world).
Proof. exact (other_tables_ok (w_db alice_world) _ _ alice_ok). Qed.

Lemma rules_registered : register_all registrations ∅ = Some rules_in_force.
Proof. unfold rules_in_force. destruct rules_exist as [rules ->]. done. Qed.

(** Alice kills her host: it exits. *)
Lemma controller_changes_authorised_witness :
  ∃ token, let m := KillHeadlessHostRequest "h1" in let d := w_db sessions_world in
    let w' := (controller_instance ("Bearer " +:+ token) m sessions_world).2 in
    ho_Status <$> t_hosts (w_db w') !! "h1" = Some HeadlessHostStatus_EXITED ∧
    (w_db w' = d ∨
     ∃ c a, auth_header secret ("Bearer " +:+ token) (w_now sessions_world) = Ok c ∧
       (req_Procedure (controller_request ("Bearer " +:+ token) m), a) ∈ access_table ∧
       allows a d (Some c) (controller_request ("Bearer " +:+ token) m) ∧ controller_effect c m d (w_db w')).
Proof.
  destruct alice_token as (token & _ & Ht). exists token. intros m d w'. split.
  - unfold w'. rewrite (controller_run _ _ m sessions_world Ht). vm_compute. reflexivity.
  - exact (controller_changes_authorised _ _ _ _ _ _ _ _ _ _ _ (local_runtime true) _ _ quiet_outside (local_runtime_laws true) quiet_relay_laws
             no_blobs_laws closed_cloud_laws secret (NewSessionUsecase 40000 40003 60) rules_in_force ("Bearer " +:+ token) m sessions_world
             rules_registered sessions_world_ok sessions_world_keyed sessions_world_hosts sessions_world_trimmed).
Defined.

(** Her search finds the two sessions of her personal group. *)
Lemma listings_show_only_readable_witness :
  ∃ token sessions page w' c, controller_instance ("Bearer " +:+ token) (SearchSessionsRequest None None) sessions_world =
      (Ok (SearchSessionsResponse sessions page, []), w') ∧
    ps_Id <$> sessions = ["s1"; "s3"] ∧
    auth_header secret ("Bearer " +:+ token) (w_now sessions_world) = Ok c ∧
    shows_only_readable c (w_db sessions_world) (SearchSessionsResponse sessions page).
Proof.
  destruct alice_token as (token & _ & Ht).
  assert ((λ r, match r with Ok (SearchSessionsResponse sessions _, []) => Some (ps_Id <$> sessions) | _ => None end)
            (controller_instance ("Bearer " +:+ token) (SearchSessionsRequest None None) sessions_world).1 = Some ["s1"; "s3"]) as H.
  { rewrite (controller_run _ _ _ sessions_world Ht). vm_compute. reflexivity. }
  destruct (controller_instance ("Bearer " +:+ token) (SearchSessionsRequest None None) sessions_world) as [r w'] eqn:E. cbv beta in H. simpl in H.
  destruct r as [[r ev]|]; [|discriminate H]. destruct r; try discriminate H. destruct ev; [|discriminate H]. injection H as H.
  destruct (listings_show_only_readable _ _ _ _ _ _ _ _ _ _ _ (local_runtime true) _ _ secret (NewSessionUsecase 40000 40003 60) rules_in_force
    ("Bearer " +:+ token) (SearchSessionsRequest None None) sessions_world _ _ _ rules_registered sessions_world_ok eq_refl E) as (c & Hc & Hs).
  exists token, sessions, page, w', c. split; [exact E|]. split; [exact H|]. split; [exact Hc|exact Hs].
Defined.
