(* ===== verification/Skyfrost.v ===== *)
(** * The client of the Resonite cloud

    [src/lib/skyfrost]: logging in with its cache of sessions
    ([client.go], [user_api.go]), storage and uploads ([storage_api.go]),
    contacts ([contacts_api.go]), the search of worlds ([world_api.go]) and the
    checks of icons ([image_util.go]), on top of a server that answers
    requests.  A state holds the server, the clock, the random identifiers and
    the requests that were sent, in order. *)

From S2P Require Import Prelude Entity Rfc3339 Json GoStrings Digest Models Queries Ports RpcPermission UserUsecase Accounts ControllerPorts.
From stdpp Require Import base gmap strings list.
From Stdlib Require Import ZArith Lia Ascii.

(** ** Requests and responses

    [url.JoinPath] of the base and some elements, or an address that the
    server gave.  The body of a response comes as text and as what the scanner
    of [encoding/json] makes of it; reading it may fail. *)

Inductive Url : Type := ApiUrl (elements : list string) (query : string) | GivenUrl (address : string).
Inductive HttpBody : Type := NoBody | JsonBody (j : Json) | RawBody (data : list Z).
Record HttpRequest : Type := mkHttpRequest { rq_Method : string; rq_Url : Url; rq_Header : list (string * string); rq_Body : HttpBody }.
Record HttpResponse : Type := mkHttpResponse {
  rs_StatusCode : Z; rs_Status : string; rs_ETag : string; rs_Body : string; rs_Json : option Json; rs_ReadErr : option Err }.

Definition StatusOK : Z := 200.
Definition StatusBadRequest : Z := 400.

(** ** Data *)

Record UserSession : Type := mkUserSession { ses_UserId : string; ses_token : string; ses_expire : Instant }.

(** [RecordPreprocessStatus], [AssetDiff]: [owner], [recordId], [progress] and [state] of a difference are never used *)
Record AssetDiff : Type := mkAssetDiff { ad_Hash : string; ad_Bytes : Z; ad_State : Z; ad_IsUploaded : bool }.
Record RecordPreprocessStatus : Type := mkPreprocessStatus {
  pp_Id : string; pp_OwnerId : string; pp_RecordId : string; pp_State : string; pp_FailReason : string; pp_ResultDiffs : list AssetDiff }.
Record AssetChunk : Type := mkAssetChunk { ch_Index : Z; ch_Key : string }.
Record AssetUploadData : Type := mkUploadData {
  ud_Hash : string; ud_Variant : string; ud_Id : string; ud_OwnerId : string; ud_TotalBytes : Z; ud_ChunkSize : Z; ud_TotalChunks : Z;
  ud_UploadState : string; ud_UploadKey : string; ud_UploadEndpoint : string; ud_IsDirectUpload : bool; ud_MaxUploadConcurrency : Z;
  ud_Chunks : list AssetChunk; ud_CreatedOn : string; ud_LastChunkSize : Z }.
Definition ud_zero : AssetUploadData :=
  mkUploadData EmptyString EmptyString EmptyString EmptyString 0 0 0 EmptyString EmptyString EmptyString false 0 [] EmptyString 0.
(** [Record], the fields that are not constant *)
Record CloudRecord : Type := mkCloudRecord {
  cr_Id : string; cr_OwnerId : string; cr_AssetUri : string; cr_MachineId : string; cr_Name : string; cr_Path : string;
  cr_LastModificationTime : string; cr_Manifest : list (string * Z) }.

(** ** Writing *)

Definition omit_string (name s : string) : Members := if bool_decide (s = EmptyString) then [] else str_member name s.
Definition omit_strings (name : string) (l : list string) : Members := match l with [] => [] | _ => [(name, JArr (JStr <$> l))] end.
Definition bool_member (name : string) (b : bool) : Members := [(name, JBool b)].

Definition record_json (r : CloudRecord) : Json :=
  JObj (str_member "id" (cr_Id r) ++ str_member "ownerId" (cr_OwnerId r) ++ str_member "assetUri" (cr_AssetUri r) ++
        [("version", JObj (int_member "globalVersion" 0 ++ int_member "localVersion" 1 ++ str_member "lastModifyingUserId" (cr_OwnerId r) ++
                           str_member "lastModifyingMachineId" (cr_MachineId r)))] ++
        str_member "name" (cr_Name r) ++ str_member "recordType" "texture" ++ str_member "path" (cr_Path r) ++
        str_member "lastModificationTime" (cr_LastModificationTime r) ++
        bool_member "isDeleted" false ++ bool_member "isPublic" false ++ bool_member "isForPatrons" false ++ bool_member "isListed" false ++
        bool_member "isReadOnly" false ++ int_member "visits" 0 ++ int_member "rating" 0 ++ int_member "randomOrder" 0 ++
        match cr_Manifest r with
        | [] => []
        | l => [("assetManifest", JArr ((λ a, JObj (str_member "hash" (fst a) ++ int_member "bytes" (snd a))) <$> l))]
        end).

Definition chunk_json (c : AssetChunk) : Json := JObj (int_member "index" (ch_Index c) ++ str_member "key" (ch_Key c)).
Definition upload_json (u : AssetUploadData) : Json :=
  JObj (str_member "hash" (ud_Hash u) ++ omit_string "variant" (ud_Variant u) ++ str_member "id" (ud_Id u) ++ str_member "ownerId" (ud_OwnerId u) ++
        int_member "totalBytes" (ud_TotalBytes u) ++ int_member "chunkSize" (ud_ChunkSize u) ++ int_member "totalChunks" (ud_TotalChunks u) ++
        str_member "uploadState" (ud_UploadState u) ++ str_member "uploadKey" (ud_UploadKey u) ++ str_member "uploadEndpoint" (ud_UploadEndpoint u) ++
        bool_member "isDirectUpload" (ud_IsDirectUpload u) ++ int_member "maxUploadConcurrency" (ud_MaxUploadConcurrency u) ++
        match ud_Chunks u with [] => [] | l => [("chunks", JArr (chunk_json <$> l))] end ++
        str_member "createdOn" (ud_CreatedOn u) ++ (if (ud_LastChunkSize u =? 0)%Z then [] else int_member "lastChunkSize" (ud_LastChunkSize u))).
Definition with_chunks (chunks : list AssetChunk) (u : AssetUploadData) : AssetUploadData :=
  mkUploadData (ud_Hash u) (ud_Variant u) (ud_Id u) (ud_OwnerId u) (ud_TotalBytes u) (ud_ChunkSize u) (ud_TotalChunks u) (ud_UploadState u)
    (ud_UploadKey u) (ud_UploadEndpoint u) (ud_IsDirectUpload u) (ud_MaxUploadConcurrency u) chunks (ud_CreatedOn u) (ud_LastChunkSize u).

(** no badges are a nil slice, as the program sends it *)
Definition profile_json (p : UserProfile) : Json :=
  JObj (str_member "iconUrl" (up_IconUrl p) ++ str_member "tagline" (up_Tagline p) ++
        [("displayBadges", match up_DisplayBadges p with
                           | [] => JNull
                           | l => JArr ((λ b, JObj (str_member "id" (fst b) ++ str_member "ownerId" (snd b))) <$> l)
                           end)] ++
        str_member "description" (up_Description p)).

(** ** Reading *)

Definition set_int64 (cur : Z) (j : Json) : Result Z :=
  match j with
  | JNull => Ok cur
  | JInt n => if ((- 2 ^ 63 <=? n) && (n <? 2 ^ 63))%Z then Ok n else type_mismatch
  | _ => type_mismatch
  end.
(** a number that is not used *)
Definition set_number (_ : unit) (j : Json) : Result unit :=
  match j with JNull | JInt _ | JDecimal _ => Ok tt | _ => type_mismatch end.
(** slices: every element starts from its zero value *)
Definition set_list {A} (zero : A) (set : A → Json → Result A) (cur : list A) (j : Json) : Result (list A) :=
  match j with
  | JNull => Ok []
  | JArr l => fold_right (λ x r, rbind (set zero x) (λ a, rbind r (λ l', Ok (a :: l')))) (Ok []) l
  | _ => type_mismatch
  end.
(** structs: [null] leaves them *)
Definition set_struct {A} (fields : A → Members → Result A) (cur : A) (j : Json) : Result A :=
  match j with JNull => Ok cur | JObj ms => fields cur ms | _ => type_mismatch end.

Definition read_chunk : AssetChunk → Json → Result AssetChunk := set_struct (λ c ms,
  rbind (decode_field set_int64 (ch_Index c) "index" ms) (λ i,
  rbind (decode_field set_string (ch_Key c) "key" ms) (λ k, Ok (mkAssetChunk i k)))).
Definition read_upload : AssetUploadData → Json → Result AssetUploadData := set_struct (λ u ms,
  let str f name := decode_field set_string (f u) name ms in let int f name := decode_field set_int64 (f u) name ms in
  rbind (str ud_Hash "hash") (λ hash, rbind (str ud_Variant "variant") (λ variant, rbind (str ud_Id "id") (λ id,
  rbind (str ud_OwnerId "ownerId") (λ owner, rbind (int ud_TotalBytes "totalBytes") (λ total, rbind (int ud_ChunkSize "chunkSize") (λ size,
  rbind (int ud_TotalChunks "totalChunks") (λ chunks, rbind (str ud_UploadState "uploadState") (λ state, rbind (str ud_UploadKey "uploadKey") (λ key,
  rbind (str ud_UploadEndpoint "uploadEndpoint") (λ endpoint, rbind (decode_field set_bool (ud_IsDirectUpload u) "isDirectUpload" ms) (λ direct,
  rbind (int ud_MaxUploadConcurrency "maxUploadConcurrency") (λ conc,
  rbind (decode_field (set_list (mkAssetChunk 0 EmptyString) read_chunk) (ud_Chunks u) "chunks" ms) (λ cs,
  rbind (str ud_CreatedOn "createdOn") (λ created, rbind (int ud_LastChunkSize "lastChunkSize") (λ last,
  Ok (mkUploadData hash variant id owner total size chunks state key endpoint direct conc cs created last))))))))))))))))).
Definition read_diff : AssetDiff → Json → Result AssetDiff := set_struct (λ d ms,
  rbind (decode_field set_string (ad_Hash d) "hash" ms) (λ h, rbind (decode_field set_int64 (ad_Bytes d) "bytes" ms) (λ b,
  rbind (decode_field set_int64 (ad_State d) "state" ms) (λ s, rbind (decode_field set_bool (ad_IsUploaded d) "isUploaded" ms) (λ u,
  Ok (mkAssetDiff h b s u)))))).
Definition read_preprocess : RecordPreprocessStatus → Json → Result RecordPreprocessStatus := set_struct (λ p ms,
  let str f name := decode_field set_string (f p) name ms in
  rbind (str pp_Id "id") (λ id, rbind (str pp_OwnerId "ownerId") (λ owner, rbind (str pp_RecordId "recordId") (λ rid,
  rbind (str pp_State "state") (λ state, rbind (decode_field set_number tt "progress" ms) (λ _, rbind (str pp_FailReason "failReason") (λ reason,
  rbind (decode_field (set_list (mkAssetDiff EmptyString 0 0 false) read_diff) (pp_ResultDiffs p) "resultDiffs" ms) (λ diffs,
  Ok (mkPreprocessStatus id owner rid state reason diffs))))))))).
Definition read_badge : string * string → Json → Result (string * string) := set_struct (λ b ms,
  rbind (decode_field set_string (fst b) "id" ms) (λ i, rbind (decode_field set_string (snd b) "ownerId" ms) (λ o, Ok (i, o)))).
Definition profile_zero : UserProfile := mkUserProfile EmptyString EmptyString [] EmptyString.
Definition read_profile : UserProfile → Json → Result UserProfile := set_struct (λ p ms,
  rbind (decode_field set_string (up_IconUrl p) "iconUrl" ms) (λ icon, rbind (decode_field set_string (up_Tagline p) "tagline" ms) (λ tag,
  rbind (decode_field (set_list (EmptyString, EmptyString) read_badge) (up_DisplayBadges p) "displayBadges" ms) (λ badges,
  rbind (decode_field set_string (up_Description p) "description" ms) (λ d, Ok (mkUserProfile icon tag badges d)))))).
Definition contact_zero : Contact := mkContact EmptyString EmptyString EmptyString false profile_zero.
Definition read_contact : Contact → Json → Result Contact := set_struct (λ c ms,
  rbind (decode_field set_string (ct_Id c) "id" ms) (λ i, rbind (decode_field set_string (ct_Username c) "contactUsername" ms) (λ n,
  rbind (decode_field set_string (ct_Status c) "contactStatus" ms) (λ s, rbind (decode_field set_bool (ct_IsAccepted c) "isAccepted" ms) (λ a,
  rbind (decode_field read_profile (ct_Profile c) "profile" ms) (λ p, Ok (mkContact i n s a p))))))).
Definition read_storage : StorageInfo → Json → Result StorageInfo := set_struct (λ s ms,
  rbind (decode_field set_string EmptyString "id" ms) (λ _, rbind (decode_field set_string EmptyString "ownerId" ms) (λ _,
  rbind (decode_field set_int64 (si_UsedBytes s) "usedBytes" ms) (λ used, rbind (decode_field set_int64 (si_QuotaBytes s) "quotaBytes" ms) (λ quota,
  rbind (decode_field set_int64 0%Z "fullQuotaBytes" ms) (λ _, rbind (decode_field set_int64 0%Z "shareableQuotaBytes" ms) (λ _,
  Ok (mkStorageInfo used quota)))))))).
(** a record of [searchWorldsResponse] with whether its submissions are featured *)
Record FoundWorld : Type := mkFoundWorld { fw_Record : WorldRecord; fw_Featured : list bool }.
Definition world_zero : WorldRecord := mkWorldRecord EmptyString EmptyString EmptyString EmptyString EmptyString EmptyString false.
Definition read_world : FoundWorld → Json → Result FoundWorld := set_struct (λ f ms,
  let r := fw_Record f in let str g name := decode_field set_string (g r) name ms in
  rbind (str wr_ID "id") (λ i, rbind (str wr_OwnerID "ownerId") (λ o, rbind (str wr_OwnerName "ownerName") (λ on, rbind (str wr_Name "name") (λ n,
  rbind (str wr_Description "description") (λ d,
  rbind (decode_field (set_list false (set_struct (λ b ms', decode_field set_bool b "featured" ms'))) (fw_Featured f) "submissions" ms) (λ fs,
  rbind (str wr_ThumbnailUri "thumbnailUri") (λ t, Ok (mkFoundWorld (mkWorldRecord i o on n d t false) fs))))))))).
Definition read_worlds : list FoundWorld → Json → Result (list FoundWorld) := set_struct (λ l ms,
  decode_field (set_list (mkFoundWorld world_zero []) read_world) l "records" ms).

(** ** The state *)

Section Client.
(** The server, what it does with a request, the end of the context, whether
    an address it gave parses. *)
Context {Srv : Type} (http_Do : Srv → HttpRequest → Result HttpResponse * Srv).
Context (ctx_Err : Instant → option Err) (parses : string → bool).

Record Net : Type := mkNet {
  n_server : Srv; n_now : Instant; n_random : nat → UUID; n_drawn : nat; n_sent : list HttpRequest; n_sessions : gmap string UserSession }.

(** [http.DefaultClient.Do] *)
Definition Do (req : HttpRequest) : M Net HttpResponse := λ n,
  let (r, s) := http_Do (n_server n) req in (r, mkNet s (n_now n) (n_random n) (n_drawn n) (n_sent n ++ [req]) (n_sessions n)).
Definition uuid_NewRandom : M Net string := λ n,
  (formatUUID (Some (uuid_v4 (n_random n (n_drawn n)))), mkNet (n_server n) (n_now n) (n_random n) (S (n_drawn n)) (n_sent n) (n_sessions n)).
(** the second between two polls, or the end of the context if it comes first *)
Definition wait_second : M Net unit := λ n,
  let t := (n_now n + time_Second)%Z in
  (match ctx_Err t with Some e => Fail e | None => Ok tt end, mkNet (n_server n) t (n_random n) (n_drawn n) (n_sent n) (n_sessions n)).

Definition ReadAll (resp : HttpResponse) : M Net unit := lift (match rs_ReadErr resp with Some e => Fail e | None => Ok tt end).
(** [json.Unmarshal] of the body *)
Definition Unmarshal {A} (read : A → Json → Result A) (zero : A) (resp : HttpResponse) : Result A :=
  match rs_Json resp with Some j => read zero j | None => Fail (EMsg "invalid character") end.

(** [makeApiRequest]: the content type goes with a body, the token with every request *)
Definition makeApiRequest (s : UserSession) (method : string) (url : Url) (body : HttpBody) : HttpRequest :=
  mkHttpRequest method url
    (match body with NoBody => [] | _ => [("Content-Type", "application/json")] end ++
     [("Accept", "application/json"); ("Authorization", "res " +:+ ses_UserId s +:+ ":" +:+ ses_token s)]) body.

Definition status_error (what : string) (resp : HttpResponse) : Err := EMsg (what +:+ ": " +:+ rs_Status resp +:+ " - " +:+ rs_Body resp).

(** a request whose answer must be 200, read and decoded *)
Definition call_json {A} (req : HttpRequest) (failed : HttpResponse → Err) (read : A → Json → Result A) (zero : A) (what : string) : M Net A :=
  let* resp := Do req in
  if negb (rs_StatusCode resp =? StatusOK)%Z then fail (failed resp)
  else
    ReadAll resp ;;;
    on_err (EWrap what) (lift (Unmarshal read zero resp)).

(** ** Logging in *)

Record RespEntity : Type := mkRespEntity { re_UserId : string; re_Token : string; re_Expire : string }.
Definition read_entity : RespEntity → Json → Result RespEntity := set_struct (λ e ms,
  rbind (decode_field set_string (re_UserId e) "userId" ms) (λ u, rbind (decode_field set_string (re_Token e) "token" ms) (λ t,
  rbind (decode_field set_string (re_Expire e) "expire" ms) (λ x, Ok (mkRespEntity u t x))))).
Definition read_login : RespEntity → Json → Result RespEntity := set_struct (λ e ms, decode_field read_entity e "entity" ms).

(** [json.Marshal] writes the keys of a map in order *)
Definition login_json (credential password secretMachineId : string) : Json :=
  JObj ([("authentication", JObj (str_member "$type" "password" ++ str_member "password" password))] ++
        (if HasPrefix credential "U-" then [] else str_member "email" credential) ++
        (if HasPrefix credential "U-" then str_member "ownerId" credential else []) ++
        bool_member "rememberMe" false ++ str_member "secretMachineId" secretMachineId).

Definition UserLogin (headerUidValue credential password : string) : M Net UserSession :=
  let* secretMachineId := uuid_NewRandom in
  let* resp := on_err (EWrap "failed to login")
                 (Do (mkHttpRequest "POST" (ApiUrl ["userSessions"] EmptyString)
                        [("Content-Type", "application/json"); ("Accept", "application/json"); ("Uid", headerUidValue)]
                        (JsonBody (login_json credential password secretMachineId)))) in
  if negb (rs_StatusCode resp =? StatusOK)%Z then fail (EMsg ("failed to login: " +:+ rs_Body resp))
  else
    ReadAll resp ;;;
    let* e := on_err (EWrap "failed to parse response") (lift (Unmarshal read_login (mkRespEntity EmptyString EmptyString EmptyString) resp)) in
    match parseRFC3339 (re_Expire e) with
    | Some expireTime => ret (mkUserSession (re_UserId e) (re_Token e) expireTime)
    | None => fail (EMsg "failed to parse expire time")
    end.

Definition IsValid (s : UserSession) (now : Instant) : bool := (now + time_Minute <? ses_expire s)%Z.

Definition cache_session (credential : string) (session : UserSession) : M Net unit := modify (λ n,
  mkNet (n_server n) (n_now n) (n_random n) (n_drawn n) (n_sent n) (<[credential := session]> (n_sessions n))).
(** the sessions are kept by credential *)
Definition getOrLogin (headerUidValue credential password : string) : M Net UserSession :=
  let* sessions := gets n_sessions in
  let* now := gets n_now in
  let login :=
    let* newSession := UserLogin headerUidValue credential password in
    cache_session credential newSession ;;;
    ret newSession in
  match sessions !! credential with
  | Some session => if IsValid session now then ret session else login
  | None => login
  end.

Definition UserSession_UpdateUserProfile (s : UserSession) (profile : UserProfile) : M Net unit :=
  let* resp := Do (makeApiRequest s "PUT" (ApiUrl ["users"; ses_UserId s; "profile"] EmptyString) (JsonBody (profile_json profile))) in
  if negb (rs_StatusCode resp =? StatusOK)%Z then fail (status_error "failed to update profile" resp) else ret tt.
Definition UserSession_GetContacts (s : UserSession) : M Net (list Contact) :=
  call_json (makeApiRequest s "GET" (ApiUrl ["users"; ses_UserId s; "contacts"] EmptyString) NoBody)
    (λ resp, EMsg ("failed to get contacts: " +:+ rs_Status resp)) (set_list contact_zero read_contact) [] "failed to decode contacts".
Definition GetStorage (s : UserSession) (ownerId : string) : M Net StorageInfo :=
  call_json (makeApiRequest s "GET" (ApiUrl ["users"; ownerId; "storage"] EmptyString) NoBody)
    (λ resp, EMsg ("failed to login: " +:+ rs_Status resp)) read_storage (mkStorageInfo 0 0) "failed to parse storage info".

(** [gjson.Get(body, path)]: the string of the value at the path, if there is one *)
Definition Cloud_FetchUserInfo (gjson_Get : Json → string → option string) (resoniteID : string) : M Net UserInfo :=
  let* resp := Do (mkHttpRequest "GET" (ApiUrl ["users"; resoniteID] EmptyString) [] NoBody) in
  ReadAll resp ;;;
  if (299 <? rs_StatusCode resp)%Z then fail (EMsg ("failed to fetch user info: " +:+ rs_Body resp))
  else
    match rs_Json resp with
    | None => fail (EMsg ("failed to fetch user info: invalid json: " +:+ rs_Body resp))
    | Some j =>
        match gjson_Get j "id", gjson_Get j "username", gjson_Get j "normalizedUsername" with
        | None, _, _ => fail (EMsg "failed to fetch user info: id not found")
        | _, None, _ => fail (EMsg "failed to fetch user info: username not found")
        | _, _, None => fail (EMsg "failed to fetch user info: normalizedUsername not found")
        | Some id, Some name, Some _ => ret (mkUserInfo id name (default EmptyString (gjson_Get j "profile.iconUrl")))
        end
    end.

(** ** Searching worlds *)

Definition maxWorldSearchCount : Z := 20.

(** [strings.FieldsSeq]: what lies between runs of white space; every round
    removes a byte at least, so the length is enough fuel *)
Fixpoint fields_of (fuel : nat) (word : list ascii) (l : list ascii) : list (list ascii) :=
  match fuel with
  | O => []
  | S fuel' =>
      match l with
      | [] => match word with [] => [] | _ => [word] end
      | c :: l' =>
          match strip_any white_space l with
          | Some l'' => match word with [] => fields_of fuel' [] l'' | _ => word :: fields_of fuel' [] l'' end
          | None => fields_of fuel' (word ++ [c]) l'
          end
      end
  end.
Definition strings_Fields (s : string) : list string :=
  let l := String.list_ascii_of_string s in String.string_of_list_ascii <$> fields_of (S (length l)) [] l.

Record SearchTerms : Type := mkSearchTerms { st_optional : list string; st_required : list string; st_excluded : list string }.
Definition add_term (t : SearchTerms) (term : string) : SearchTerms :=
  match term with
  | EmptyString => t
  | String c rest =>
      if Ascii.eqb c "+" then match rest with EmptyString => t | _ => mkSearchTerms (st_optional t) (st_required t ++ [rest]) (st_excluded t) end
      else if Ascii.eqb c "-" then match rest with EmptyString => t | _ => mkSearchTerms (st_optional t) (st_required t) (st_excluded t ++ [rest]) end
      else mkSearchTerms (st_optional t ++ [term]) (st_required t) (st_excluded t)
  end.
Definition parseSearchTerms (query : string) : SearchTerms :=
  fold_left add_term (strings_Fields (strings_TrimSpace query)) (mkSearchTerms [] [] []).

Definition search_json (offset : Z) (private featured : bool) (sortBy submittedTo byOwner : string) (t : SearchTerms) : Json :=
  JObj (str_member "recordType" "world" ++ int_member "count" maxWorldSearchCount ++ int_member "offset" offset ++ bool_member "private" private ++
        bool_member "onlyFeatured" featured ++ str_member "sortBy" sortBy ++ str_member "sortDirection" "Descending" ++
        omit_string "submittedTo" submittedTo ++ omit_string "byOwner" byOwner ++ omit_strings "optionalTags" (st_optional t) ++
        omit_strings "requiredTags" (st_required t) ++ omit_strings "excludedTags" (st_excluded t)).
Definition world_of (f : FoundWorld) : WorldRecord :=
  let r := fw_Record f in
  mkWorldRecord (wr_ID r) (wr_OwnerID r) (wr_OwnerName r) (wr_Name r) (wr_Description r) (wr_ThumbnailUri r) (default false (head (fw_Featured f))).
Definition search_result (l : list FoundWorld) : SearchWorldsResult :=
  mkSearchWorlds (world_of <$> l) (maxWorldSearchCount <=? Z.of_nat (length l))%Z.

(** what both searches do with their request *)
Definition paged_search (req : HttpRequest) (what : string) : M Net SearchWorldsResult :=
  let* resp := on_err (EWrap ("failed to " +:+ what)) (Do req) in
  on_err (EWrap "failed to read response") (ReadAll resp) ;;;
  if negb (rs_StatusCode resp =? StatusOK)%Z
  then fail (EMsg (what +:+ " failed with status " +:+ fmt_d (rs_StatusCode resp) +:+ ": " +:+ rs_Body resp))
  else let* l := on_err (EWrap "failed to parse response") (lift (Unmarshal read_worlds [] resp)) in ret (search_result l).

Definition Cloud_SearchWorlds (query : string) (featuredOnly : bool) (pageIndex : Z) : M Net SearchWorldsResult :=
  paged_search
    (mkHttpRequest "POST" (ApiUrl ["records"; "pagedSearch"] EmptyString) [("Content-Type", "application/json"); ("Accept", "application/json")]
       (JsonBody (search_json (maxWorldSearchCount * pageIndex) false featuredOnly "FirstPublishTime" "G-Resonite" EmptyString (parseSearchTerms query))))
    "search worlds".
Definition SearchOwnWorlds (s : UserSession) (pageIndex : Z) : M Net SearchWorldsResult :=
  paged_search
    (makeApiRequest s "POST" (ApiUrl ["records"; "pagedSearch"] EmptyString)
       (JsonBody (search_json (maxWorldSearchCount * pageIndex) true false "LastUpdateDate" EmptyString (ses_UserId s) (mkSearchTerms [] [] []))))
    "search own worlds".

(** ** Uploading *)

Definition ComputeAssetHash (data : list Z) : string := hex_EncodeToString (sha256_Sum256 data).
Definition GenerateRecordID : M Net string := let* u := uuid_NewRandom in ret ("R-" +:+ u).

(** owners whose id starts with G are groups *)
Definition owner_type (ownerId : string) : string :=
  match ownerId with String c _ => if Ascii.eqb c "G" then "groups" else "users" | EmptyString => "users" end.

Definition preprocess_zero : RecordPreprocessStatus := mkPreprocessStatus EmptyString EmptyString EmptyString EmptyString EmptyString [].
Definition PreprocessRecord (s : UserSession) (record : CloudRecord) : M Net RecordPreprocessStatus :=
  call_json (makeApiRequest s "POST" (ApiUrl [owner_type (cr_OwnerId record); cr_OwnerId record; "records"; cr_Id record; "preprocess"] EmptyString)
               (JsonBody (record_json record)))
    (status_error "failed to preprocess record") read_preprocess preprocess_zero "failed to parse preprocess status".
Definition GetPreprocessStatus (s : UserSession) (ownerId recordId preprocessId : string) : M Net RecordPreprocessStatus :=
  call_json (makeApiRequest s "GET" (ApiUrl [owner_type ownerId; ownerId; "records"; recordId; "preprocess"; preprocessId] EmptyString) NoBody)
    (status_error "failed to get preprocess status") read_preprocess preprocess_zero "failed to parse preprocess status".

(** [for range n]: what one poll answers ends the loop, or it waits a second *)
Fixpoint poll {A} (n : nat) (timeout : string) (check : M Net (option A)) : M Net A :=
  match n with
  | O => fail (EMsg timeout)
  | S n' =>
      let* r := check in
      match r with
      | Some a => ret a
      | None => wait_second ;;; poll n' timeout check
      end
  end.

Definition WaitForPreprocess (s : UserSession) (ownerId recordId preprocessId : string) : M Net (list AssetDiff) :=
  poll 60 "preprocess timeout"
    (let* status := GetPreprocessStatus s ownerId recordId preprocessId in
     if bool_decide (pp_State status = "Success") then ret (Some (pp_ResultDiffs status))
     else if bool_decide (pp_State status = "Failed") then fail (EMsg ("preprocess failed: " +:+ pp_FailReason status))
     else ret None).

(** nothing for an asset that is there already *)
Definition StartAssetUpload (s : UserSession) (ownerId hash : string) (totalBytes : Z) : M Net (option AssetUploadData) :=
  let* resp := Do (makeApiRequest s "POST" (ApiUrl [owner_type ownerId; ownerId; "assets"; hash; "upload"] ("size=" +:+ fmt_d totalBytes)) NoBody) in
  if (rs_StatusCode resp =? StatusBadRequest)%Z then
    if Contains (rs_Body resp) "AlreadyUploaded" then ret None else fail (status_error "failed to start asset upload" resp)
  else if negb (rs_StatusCode resp =? StatusOK)%Z then fail (status_error "failed to start asset upload" resp)
  else
    ReadAll resp ;;;
    let* u := on_err (EWrap "failed to parse upload data") (lift (Unmarshal read_upload ud_zero resp)) in ret (Some u).

Definition int64 (z : Z) : Z := ((z + 2 ^ 63) mod 2 ^ 64 - 2 ^ 63)%Z.

(** the size of chunk [i], and where it ends *)
Definition chunk_size (u : AssetUploadData) (i : Z) : Z :=
  if (i =? ud_TotalChunks u - 1)%Z && (0 <? ud_LastChunkSize u)%Z then ud_LastChunkSize u else ud_ChunkSize u.
Definition chunk_end (u : AssetUploadData) (i offset len : Z) : Z := Z.min (int64 (offset + chunk_size u i)) len.

(** [data\[i:j\]] *)
Definition slice_of (i j : Z) (data : list Z) : M Net (list Z) :=
  if (j <? i)%Z || (i <? 0)%Z then fail (EPanic "runtime error: slice bounds out of range")
  else ret (take (Z.to_nat (j - i)) (drop (Z.to_nat i) data)).

Definition chunk_request (u : AssetUploadData) (i : Z) (chunkData : list Z) : HttpRequest :=
  mkHttpRequest "PUT" (GivenUrl (ud_UploadEndpoint u))
    [("Upload-Key", ud_UploadKey u); ("Content-Length", fmt_d (Z.of_nat (length chunkData)));
     if ud_IsDirectUpload u then ("Upload-Timestamp", ud_CreatedOn u) else ("Part-Number", fmt_d (i + 1))]
    (RawBody chunkData).

(** the ETag of a part, from the header or else the body *)
Definition read_etag : string → Json → Result string := set_struct (λ e ms, decode_field set_string e "ETag" ms).
Definition etag_of (resp : HttpResponse) : string :=
  if bool_decide (rs_ETag resp = EmptyString) then
    match Unmarshal read_etag EmptyString resp with Ok e => e | Fail _ => EmptyString end
  else rs_ETag resp.

Definition upload_chunk (u : AssetUploadData) (data : list Z) (i offset : Z) : M Net (Z * list AssetChunk) :=
  let end_ := chunk_end u i offset (Z.of_nat (length data)) in
  let* chunkData := slice_of offset end_ data in
  if negb (parses (ud_UploadEndpoint u)) then fail (EMsg "failed to create chunk request")
  else
    let* resp := on_err (EWrap ("failed to upload chunk " +:+ fmt_d i)) (Do (chunk_request u i chunkData)) in
    if negb (rs_StatusCode resp =? StatusOK)%Z then fail (status_error ("failed to upload chunk " +:+ fmt_d i) resp)
    else
      on_err (EWrap ("failed to read chunk " +:+ fmt_d i ++ " response")) (ReadAll resp) ;;;
      ret (end_, if ud_IsDirectUpload u then [] else [mkAssetChunk i (etag_of resp)]).

(** the loop over the chunks from [i], of which [n] are left *)
Fixpoint upload_from (u : AssetUploadData) (data : list Z) (n : nat) (i offset : Z) : M Net (list AssetChunk) :=
  match n with
  | O => ret []
  | S n' =>
      let* r := upload_chunk u data i offset in
      let* rest := upload_from u data n' (i + 1) (fst r) in
      ret (snd r ++ rest)
  end.
Definition UploadAssetChunks (u : AssetUploadData) (data : list Z) : M Net (list AssetChunk) :=
  upload_from u data (Z.to_nat (ud_TotalChunks u)) 0 0.

Definition FinalizeAssetUpload (s : UserSession) (ownerId : string) (u : AssetUploadData) (chunks : list AssetChunk) : M Net unit :=
  let* resp := Do (makeApiRequest s "PATCH" (ApiUrl [owner_type ownerId; ownerId; "assets"; ud_Hash u; "upload"; ud_Id u] EmptyString)
                     (JsonBody (upload_json (with_chunks chunks u)))) in
  if negb (rs_StatusCode resp =? StatusOK)%Z then fail (status_error "failed to finalize upload" resp) else ret tt.

Definition WaitForAssetUpload (s : UserSession) (ownerId hash uploadId : string) : M Net unit :=
  poll 120 "upload timeout"
    (let* resp := Do (makeApiRequest s "GET" (ApiUrl [owner_type ownerId; ownerId; "assets"; hash; "upload"; uploadId] EmptyString) NoBody) in
     ReadAll resp ;;;
     if negb (rs_StatusCode resp =? StatusOK)%Z then fail (status_error "failed to get upload status" resp)
     else
       let* status := on_err (EWrap "failed to parse upload status") (lift (Unmarshal read_upload ud_zero resp)) in
       if bool_decide (ud_UploadState status = "Uploaded") then ret (Some tt)
       else if bool_decide (ud_UploadState status = "Failed") then fail (EMsg "upload failed")
       else ret None).

(** what follows the start of an upload, in [UploadAsset] and [UploadTextureRecord] *)
Definition finish_upload (s : UserSession) (ownerId hash : string) (u : AssetUploadData) (data : list Z) : M Net unit :=
  let* chunks := UploadAssetChunks u data in
  (if ud_IsDirectUpload u then ret tt else FinalizeAssetUpload s ownerId u chunks) ;;;
  WaitForAssetUpload s ownerId hash (ud_Id u).

Definition UploadAsset (s : UserSession) (ownerId : string) (data : list Z) : M Net string :=
  let hash := ComputeAssetHash data in
  let* started := StartAssetUpload s ownerId hash (Z.of_nat (length data)) in
  match started with
  | None => ret ("resdb:///" +:+ hash)
  | Some u => finish_upload s ownerId hash u data ;;; ret ("resdb:///" +:+ hash)
  end.

Definition UpsertRecord (s : UserSession) (record : CloudRecord) : M Net unit :=
  let* resp := Do (makeApiRequest s "PUT" (ApiUrl [owner_type (cr_OwnerId record); cr_OwnerId record; "records"; cr_Id record] "ensureFolder=true")
                     (JsonBody (record_json record))) in
  if negb (rs_StatusCode resp =? StatusOK)%Z then fail (status_error "failed to upsert record" resp) else ret tt.

(** the steps of an upload with the words [UploadTextureRecord] puts before their errors *)
Definition upload_diff (s : UserSession) (hash : string) (imageData : list Z) : M Net unit :=
  let* started := on_err (EWrap "failed to start asset upload") (StartAssetUpload s (ses_UserId s) hash (Z.of_nat (length imageData))) in
  match started with
  | None => ret tt
  | Some u =>
      let* chunks := on_err (EWrap "failed to upload asset chunks") (UploadAssetChunks u imageData) in
      (if ud_IsDirectUpload u then ret tt else on_err (EWrap "failed to finalize upload") (FinalizeAssetUpload s (ses_UserId s) u chunks)) ;;;
      on_err (EWrap "failed to wait for upload") (WaitForAssetUpload s (ses_UserId s) hash (ud_Id u))
  end.
Fixpoint upload_diffs (s : UserSession) (hash : string) (imageData : list Z) (diffs : list AssetDiff) : M Net unit :=
  match diffs with
  | [] => ret tt
  | d :: diffs' =>
      (if negb (ad_IsUploaded d) && bool_decide (ad_Hash d = hash) then upload_diff s hash imageData else ret tt) ;;;
      upload_diffs s hash imageData diffs'
  end.

(** the record of a texture; its time is whole seconds *)
Definition texture_record (s : UserSession) (recordId machineId name path hash : string) (totalBytes : Z) (now : Instant) : CloudRecord :=
  mkCloudRecord recordId (ses_UserId s) ("resdb:///" +:+ hash) machineId name path
    (appendFormatRFC3339 (now / time_Second * time_Second)%Z) [(hash, totalBytes)].

Definition UserSession_UploadTextureRecord (machineId : string) (s : UserSession) (name path : string) (imageData : list Z) : M Net (string * string) :=
  let hash := ComputeAssetHash imageData in
  let* recordId := GenerateRecordID in
  let* now := gets n_now in
  let record := texture_record s recordId machineId name path hash (Z.of_nat (length imageData)) now in
  let* preprocessStatus := on_err (EWrap "failed to preprocess record") (PreprocessRecord s record) in
  let* assetDiffs := on_err (EWrap "failed to wait for preprocess") (WaitForPreprocess s (ses_UserId s) recordId (pp_Id preprocessStatus)) in
  upload_diffs s hash imageData assetDiffs ;;;
  on_err (EWrap "failed to upsert record") (UpsertRecord s record) ;;;
  ret (recordId, cr_AssetUri record).

(** ** [DefaultClient] *)

Section Default.
Context (headerUidValue machineId : string).

Definition with_session {A} (credential password : string) (op : UserSession → M Net A) : M Net A :=
  let* userSession := getOrLogin headerUidValue credential password in op userSession.
Definition Client_GetStorageInfo (credential password ownerId : string) := with_session credential password (λ s, GetStorage s ownerId).
Definition Client_GetContacts (credential password : string) := with_session credential password UserSession_GetContacts.
Definition Client_UploadTextureRecord (credential password name path : string) (imageData : list Z) :=
  with_session credential password (λ s, UserSession_UploadTextureRecord machineId s name path imageData).
Definition Client_UpdateUserProfile (credential password : string) (profile : UserProfile) :=
  with_session credential password (λ s, UserSession_UpdateUserProfile s profile).
Definition Client_GetOwnWorlds (credential password : string) (pageIndex : Z) :=
  with_session credential password (λ s, SearchOwnWorlds s pageIndex).
End Default.
End Client.

(** ** Icons *)

Definition IconSize : Z := 256.
Definition MaxImageFileSize : Z := (10 * 1024 * 1024)%Z.

(** a rectangle by its corner and size *)
Record Rectangle : Type := mkRectangle { rc_MinX : Z; rc_MinY : Z; rc_Dx : Z; rc_Dy : Z }.
(** the square in the middle *)
Definition crop_rect (bounds : Rectangle) : Rectangle :=
  let width := rc_Dx bounds in let height := rc_Dy bounds in
  if (height <? width)%Z then mkRectangle (Z.quot (width - height) 2) 0 height height
  else if (width <? height)%Z then mkRectangle 0 (Z.quot (height - width) 2) width width
  else bounds.
Definition accepted_format (format : string) : bool := bool_decide (format ∈ ["png"; "jpeg"; "gif"; "webp"]).

Section Icons.
(** the registered decoders, and what draws, scales and encodes the square *)
Context {Image : Type} (image_Decode : list Z → Result (Image * string)) (bounds_of : Image → Rectangle) (encode_square : Image → Rectangle → Result (list Z)).

Definition ProcessIconImage (data : list Z) : Result (list Z) :=
  if (MaxImageFileSize <? Z.of_nat (length data))%Z then
    Fail (EMsg ("image file too large: " +:+ fmt_d (Z.of_nat (length data)) +:+ " bytes (max " +:+ fmt_d MaxImageFileSize +:+ ")"))
  else
    rbind (map_err (EWrap "failed to decode image") (image_Decode data)) (λ '(img, format),
    if negb (accepted_format format) then Fail (EMsg ("unsupported image format: " +:+ format))
    else
      let bounds := bounds_of img in
      if bool_decide (format = "png") && (rc_Dx bounds =? IconSize)%Z && (rc_Dy bounds =? IconSize)%Z then Ok data
      else map_err (EWrap "failed to encode image as PNG") (encode_square img (crop_rect bounds))).
End Icons.
