(* ===== verification/SkyfrostTheorems.v ===== *)
(** * The client of the Resonite cloud: theorems

    An upload sends the image once, cut where the server said; polling is
    bounded; a record is stored only after its image; the terms of a search
    are read back as they were written; the square of an icon lies in it. *)

From S2P Require Import Prelude Entity Rfc3339 Json GoStrings Digest Models Queries Ports RpcPermission UserUsecase Accounts ControllerPorts Skyfrost.
From stdpp Require Import base gmap strings list.
From Stdlib Require Import ZArith Lia Ascii.

Section Uploads.
Context {Srv : Type} (http_Do : Srv → HttpRequest → Result HttpResponse * Srv).
Context (ctx_Err : Instant → option Err) (parses : string → bool).
Implicit Types (n : Net (Srv := Srv)).

(** ** The chunks *)

(** The parts from chunk [i] on, of which [k] are left, and their requests. *)
Fixpoint parts_from (u : AssetUploadData) (data : list Z) (k : nat) (i offset : Z) : list (list Z) :=
  match k with
  | O => []
  | S k' =>
      let e := chunk_end u i offset (Z.of_nat (length data)) in
      take (Z.to_nat (e - offset)) (drop (Z.to_nat offset) data) :: parts_from u data k' (i + 1) e
  end.
Fixpoint requests_from (u : AssetUploadData) (i : Z) (parts : list (list Z)) : list HttpRequest :=
  match parts with [] => [] | p :: ps => chunk_request u i p :: requests_from u (i + 1) ps end.
Definition parts_of (u : AssetUploadData) (data : list Z) : list (list Z) := parts_from u data (Z.to_nat (ud_TotalChunks u)) 0 0.

(** What the server announced: whole chunks, and a last one of its own size if it gave one. *)
Definition announced (u : AssetUploadData) : Z :=
  if (ud_TotalChunks u <=? 0)%Z then 0%Z
  else ((ud_TotalChunks u - 1) * ud_ChunkSize u + (if 0 <? ud_LastChunkSize u then ud_LastChunkSize u else ud_ChunkSize u))%Z.

(** Sizes that are not negative and do not overflow. *)
Definition sane (u : AssetUploadData) (data : list Z) : Prop :=
  (0 <= ud_ChunkSize u)%Z ∧ (Z.of_nat (length data) + ud_ChunkSize u < 2 ^ 63)%Z ∧ (Z.of_nat (length data) + ud_LastChunkSize u < 2 ^ 63)%Z.

Lemma int64_id z : (- 2 ^ 63 <= z < 2 ^ 63)%Z → int64 z = z.
Proof. intros H. unfold int64. rewrite Z.mod_small; lia. Qed.

Lemma chunk_size_nonneg u data i : sane u data → (0 <= chunk_size u i)%Z.
Proof. intros (H & _). unfold chunk_size. destruct (_ && _) eqn:E; [|done]. apply andb_true_iff in E as [_ E%Z.ltb_lt]. lia. Qed.
Lemma chunk_end_eq u data i offset : sane u data → (0 <= offset <= Z.of_nat (length data))%Z →
  chunk_end u i offset (Z.of_nat (length data)) = Z.min (offset + chunk_size u i) (Z.of_nat (length data)).
Proof.
  intros Hs Ho. pose proof (chunk_size_nonneg u data i Hs). unfold chunk_end. rewrite int64_id; [done|].
  destruct Hs as (? & ? & ?). unfold chunk_size in *. destruct (_ && _); lia.
Qed.

(** the sizes of the chunks that are left *)
Fixpoint left_sizes (u : AssetUploadData) (k : nat) (i : Z) : Z :=
  match k with O => 0%Z | S k' => (chunk_size u i + left_sizes u k' (i + 1))%Z end.
Lemma left_sizes_nonneg u data k i : sane u data → (0 <= left_sizes u k i)%Z.
Proof. intros Hs. revert i. induction k as [|k IH]; intros i; simpl; [lia|]. pose proof (chunk_size_nonneg u data i Hs). specialize (IH (i + 1)%Z). lia. Qed.
Lemma left_sizes_closed u k i : (i + Z.of_nat k = ud_TotalChunks u)%Z → (0 < k)%nat →
  left_sizes u k i = (Z.of_nat (k - 1) * ud_ChunkSize u + (if 0 <? ud_LastChunkSize u then ud_LastChunkSize u else ud_ChunkSize u))%Z.
Proof.
  revert i. induction k as [|k IH]; [lia|]. intros i Hi _. cbn [left_sizes]. destruct (decide (k = 0)%nat) as [->|Hk].
  - simpl. unfold chunk_size. rewrite (proj2 (Z.eqb_eq _ _)) by lia. simpl. destruct (0 <? ud_LastChunkSize u)%Z; lia.
  - rewrite IH by lia. unfold chunk_size at 1. rewrite (proj2 (Z.eqb_neq _ _)) by lia. cbn [andb].
    replace (Z.of_nat (S k - 1)) with (Z.of_nat (k - 1) + 1)%Z by lia. lia.
Qed.
Lemma left_sizes_announced u : left_sizes u (Z.to_nat (ud_TotalChunks u)) 0 = announced u.
Proof.
  unfold announced. destruct (Z.leb_spec (ud_TotalChunks u) 0).
  - by replace (Z.to_nat (ud_TotalChunks u)) with 0%nat by lia.
  - rewrite left_sizes_closed by lia. replace (Z.of_nat (Z.to_nat (ud_TotalChunks u) - 1)) with (ud_TotalChunks u - 1)%Z by lia. done.
Qed.

Lemma take_take_drop {A} (l : list A) a b : take a l ++ take b (drop a l) = take (a + b) l.
Proof.
  revert l. induction a as [|a IH]; intros [|x l]; simpl; try done; [by rewrite take_nil|]. by rewrite IH.
Qed.

Lemma concat_parts u data k i offset : sane u data → (0 <= offset <= Z.of_nat (length data))%Z →
  concat (parts_from u data k i offset) = take (Z.to_nat (left_sizes u k i)) (drop (Z.to_nat offset) data).
Proof.
  intros Hs. revert i offset. induction k as [|k IH]; intros i offset Ho; simpl; [done|]. rewrite chunk_end_eq by done.
  pose proof (chunk_size_nonneg u data i Hs). pose proof (left_sizes_nonneg u data k (i + 1) Hs).
  rewrite IH by lia. set (len := length data) in *.
  destruct (Z.le_gt_cases (offset + chunk_size u i) (Z.of_nat len)) as [Hle|Hgt].
  - rewrite Z.min_l by done. replace (Z.to_nat (offset + chunk_size u i)) with (Z.to_nat offset + Z.to_nat (chunk_size u i))%nat by lia.
    rewrite <-drop_drop. replace (Z.to_nat (offset + chunk_size u i - offset)) with (Z.to_nat (chunk_size u i)) by lia.
    rewrite take_take_drop. f_equal. lia.
  - rewrite Z.min_r by lia. rewrite (drop_ge data (Z.to_nat (Z.of_nat len))) by (unfold len; lia). rewrite take_nil, app_nil_r.
    rewrite !take_ge; [done| |]; rewrite length_drop; unfold len in *; lia.
Qed.

Lemma Do_sent req n r n' : Do http_Do req n = (r, n') → n_sent n' = n_sent n ++ [req].
Proof. unfold Do. destruct (http_Do _ _). by intros [= _ <-]. Qed.

Lemma chunk_sent u data i offset n r n' : sane u data → (0 <= offset <= Z.of_nat (length data))%Z →
  upload_chunk http_Do parses u data i offset n = (r, n') →
  let e := chunk_end u i offset (Z.of_nat (length data)) in
  let req := chunk_request u i (take (Z.to_nat (e - offset)) (drop (Z.to_nat offset) data)) in
  (n_sent n' = n_sent n ∧ is_Ok r = false) ∨
  (n_sent n' = n_sent n ++ [req] ∧
   ∀ p, r = Ok p → fst p = e ∧ ch_Index <$> snd p = (if ud_IsDirectUpload u then [] else [i])).
Proof.
  intros Hs Ho. cbv zeta. unfold upload_chunk. cbv zeta. pose proof (chunk_end_eq u data i offset Hs Ho) as He.
  pose proof (chunk_size_nonneg u data i Hs). unfold slice_of. rewrite (proj2 (Z.ltb_ge _ _)), (proj2 (Z.ltb_ge offset 0)) by lia. cbn [orb].
  unfold bind at 1, ret at 1. destruct (negb (parses _)); [intros [= <- <-]; by left|]. intros H1. right.
  apply bind_inv in H1 as [(e & H1 & ->)|(resp & n1 & H1 & H2)]; apply on_err_inv in H1 as (r1 & H1 & Hr); apply Do_sent in H1; [by split|].
  destruct (negb _); [injection H2 as <- <-; by split|].
  apply bind_inv in H2 as [(e & H2 & ->)|(x & n2 & H2 & H3)]; apply on_err_inv in H2 as (r2 & H2 & _); unfold ReadAll, lift in H2; injection H2 as _ <-;
    [by split|]. injection H3 as <- <-. split; [done|]. intros p [= <-]. split; [done|]. by destruct (ud_IsDirectUpload u).
Qed.

Lemma upload_sent u data k i offset n r n' : sane u data → (0 <= offset <= Z.of_nat (length data))%Z →
  upload_from http_Do parses u data k i offset n = (r, n') →
  ∃ sent, n_sent n' = n_sent n ++ sent ∧ sent `prefix_of` requests_from u i (parts_from u data k i offset) ∧
    ∀ chunks, r = Ok chunks → sent = requests_from u i (parts_from u data k i offset) ∧
      ch_Index <$> chunks = (if ud_IsDirectUpload u then [] else seqZ i (Z.of_nat k)).
Proof.
  intros Hs. revert i offset n r n'. induction k as [|k IH]; intros i offset n r n' Ho; simpl.
  - intros [= <- <-]. exists []. rewrite app_nil_r. split; [done|]. split; [done|]. intros chunks [= <-]. split; [done|]. by destruct (ud_IsDirectUpload u).
  - pose proof (chunk_end_eq u data i offset Hs Ho) as He. pose proof (chunk_size_nonneg u data i Hs) as Hc.
    intros [(e & H & ->)|([e cs] & n1 & H & H2)]%bind_inv; apply (chunk_sent _ _ _ _ _ _ _ Hs Ho) in H.
    + destruct H as [[-> _]|[-> _]]; [exists []|eexists [_]]; (split; [by rewrite ?app_nil_r|]); (split; [|done]); [apply prefix_nil|].
      apply prefix_cons, prefix_nil.
    + destruct H as [[_ [=]]|[Hsent Hp]]. destruct (Hp _ eq_refl) as [Hfst Hidx]. simpl in Hfst, Hidx. subst e.
      apply bind_inv in H2 as [(e & H2 & ->)|(rest & n2 & H2 & H3)]; simpl in H2; apply IH in H2; try lia;
        destruct H2 as (sent & Hs' & Hpre & Hok); rewrite Hsent, <-app_assoc in Hs'.
      * exists (chunk_request u i (take (Z.to_nat (chunk_end u i offset (Z.of_nat (length data)) - offset)) (drop (Z.to_nat offset) data)) :: sent).
        split; [done|]. split; [by apply prefix_cons|done].
      * injection H3 as <- <-. destruct (Hok _ eq_refl) as [-> Hi]. eexists. split; [exact Hs'|]. split; [done|]. intros chunks [= <-]. split; [done|].
        rewrite fmap_app. simpl. rewrite Hidx, Hi. destruct (ud_IsDirectUpload u); [done|]. rewrite (seqZ_cons i) by lia.
        simpl. do 2 f_equal; lia.
Qed.
End Uploads.

(** ** Search terms *)

Abbreviation bytes := (list ascii).

Lemma strip_prefix_Some (p l l' : bytes) : RpcPermission.strip_prefix p l = Some l' → l = p ++ l'.
Proof.
  revert l. induction p as [|a p IH]; intros [|b l]; simpl; try congruence.
  destruct (Ascii.eqb_spec a b) as [->|]; [|congruence]. intros H. by rewrite (IH _ H).
Qed.
Lemma strip_any_Some ps (l l' : bytes) : strip_any ps l = Some l' → ∃ p, p ∈ ps ∧ l = p ++ l'.
Proof.
  induction ps as [|p ps IH]; simpl; [congruence|]. destruct (RpcPermission.strip_prefix p l) eqn:E.
  - intros [= ->]. exists p. split; [left|by apply strip_prefix_Some].
  - intros H. destruct (IH H) as (q & ? & ?). exists q. split; [by right|done].
Qed.

(** A word holds no white space. *)
Definition word (l : bytes) : Prop := l ≠ [] ∧ ∀ w a b, w ∈ white_space → l ≠ a ++ w ++ b.
Definition space : ascii := ascii_of_nat 32.

(** a space stands alone *)
Lemma space_alone w a b : w ∈ white_space → w = a ++ space :: b → a = [] ∧ b = [].
Proof.
  intros Hw. assert (Hall : forallb (λ w, bool_decide (space ∉ w) || bool_decide (w = [space])) white_space = true) by (vm_compute; reflexivity).
  rewrite forallb_forall in Hall. specialize (Hall w ltac:(by apply list_elem_of_In)). apply orb_true_iff in Hall as [H|H]; apply bool_decide_eq_true in H.
  - intros ->. exfalso. apply H. apply elem_of_app. right. left.
  - rewrite H. destruct a as [|x a]; simpl; [intros [= <-]; done|]. intros [= _ E]. by destruct a.
Qed.
Lemma white_nonempty w : w ∈ white_space → w ≠ [].
Proof.
  intros Hw. assert (Hall : forallb (λ w, bool_decide (w ≠ [])) white_space = true) by (vm_compute; reflexivity).
  rewrite forallb_forall in Hall. by specialize (Hall w ltac:(by apply list_elem_of_In)); apply bool_decide_eq_true in Hall.
Qed.

Lemma word_front (l rest : bytes) a b : word l → l = a ++ b → b ≠ [] → rest = [] ∨ (∃ r, rest = space :: r) → strip_any white_space (b ++ rest) = None.
Proof.
  intros [_ Hl] -> Hb Hrest. destruct (strip_any _ _) as [l'|] eqn:E; [exfalso|done].
  apply strip_any_Some in E as (w & Hw & E). apply app_eq_inv in E as [(k & -> & _)|(k & -> & E)].
  - by apply (Hl w a k).
  - destruct Hrest as [->|[r ->]].
    + symmetry in E. apply app_nil in E as [-> _]. rewrite app_nil_r in Hw. apply (Hl b a [] Hw). by rewrite app_nil_r.
    + destruct k as [|x k]; [rewrite app_nil_r in Hw; apply (Hl b a [] Hw); by rewrite app_nil_r|]. injection E as <- _.
      by destruct (space_alone _ b k Hw eq_refl).
Qed.
Lemma fields_word fuel (done_ l rest : bytes) : word (done_ ++ l) → rest = [] ∨ (∃ r, rest = space :: r) → (length l <= fuel)%nat →
  fields_of fuel done_ (l ++ rest) = fields_of (fuel - length l) (done_ ++ l) rest.
Proof.
  revert fuel done_. induction l as [|c l IH]; intros fuel done_ Hw Hr Hf; simpl; [by rewrite app_nil_r, Nat.sub_0_r|].
  destruct fuel as [|fuel]; simpl in *; [lia|]. pose proof (word_front _ rest done_ (c :: l) Hw eq_refl) as Hn. simpl in Hn.
  rewrite Hn by done. rewrite IH; [by rewrite <-app_assoc| by rewrite <-app_assoc |done|lia].
Qed.

(** words with a space between *)
Fixpoint spaced (ws : list bytes) : bytes :=
  match ws with [] => [] | [w] => w | w :: ws' => w ++ space :: spaced ws' end.
Lemma strip_space (l : bytes) : strip_any white_space (space :: l) = Some l.
Proof. by destruct l. Qed.
Lemma fields_spaced fuel ws : Forall word ws → (length (spaced ws) < fuel)%nat → fields_of fuel [] (spaced ws) = ws.
Proof.
  intros H. revert fuel. induction H as [|w ws Hw Hws IH]; intros fuel Hf; [by destruct fuel|]. destruct ws as [|w' ws].
  - cbn [spaced] in *. rewrite <-(app_nil_r w) at 1. rewrite (fields_word fuel [] w []); [|done|by left|lia].
    destruct (fuel - length w)%nat eqn:E; [lia|]. simpl. destruct Hw as [Hne _]. by destruct w.
  - change (spaced (w :: w' :: ws)) with (w ++ space :: spaced (w' :: ws)) in *. rewrite length_app in Hf. cbn [length] in Hf.
    rewrite (fields_word fuel [] w); [|done|right; eauto|lia]. destruct (fuel - length w)%nat as [|k] eqn:E; [lia|].
    cbn [app fields_of]. rewrite strip_space. destruct Hw as [Hne _]. destruct w as [|c w]; [done|]. f_equal. apply IH. simpl length in *. lia.
Qed.

Lemma trim_front_id fuel ps (l : bytes) : strip_any ps l = None → trim_front fuel ps l = l.
Proof. destruct fuel; simpl; [done|]. by intros ->. Qed.
Lemma spaced_front w ws : Forall word (w :: ws) → strip_any white_space (spaced (w :: ws)) = None.
Proof.
  intros H. inversion_clear H as [|?? Hw Hws]. destruct ws as [|w' ws].
  - cbn [spaced]. rewrite <-(app_nil_r w). apply (word_front w [] [] w); [done..| |by left]. by destruct Hw.
  - apply (word_front w _ [] w); [done..| |right; eauto]. by destruct Hw.
Qed.
Lemma spaced_nonempty w ws : word w → spaced (w :: ws) ≠ [].
Proof. intros [Hne _]. destruct ws, w; simpl; congruence. Qed.
Lemma spaced_end ws : ws ≠ [] → Forall word ws → ∀ w a, w ∈ white_space → spaced ws ≠ a ++ w.
Proof.
  intros Hne H. induction H as [|x ws Hx Hws IH]; [done|]. intros w a Hw. destruct ws as [|y ws].
  - cbn [spaced]. intros E. destruct Hx as [_ Hx]. apply (Hx w a [] Hw). by rewrite app_nil_r.
  - change (spaced (x :: y :: ws)) with (x ++ space :: spaced (y :: ws)). intros E.
    assert (spaced (y :: ws) ≠ []) as Hn by (apply spaced_nonempty; by inversion_clear Hws).
    apply app_eq_inv in E as [(k & _ & E)|(k & _ & E)]; [by destruct (space_alone w k _ Hw E)|].
    destruct k as [|c k]; [by destruct (space_alone w [] _ Hw (eq_sym E))|]. injection E as _ E. by eapply IH.
Qed.
Lemma trim_spaced ws : Forall word ws → strings_TrimSpace (String.string_of_list_ascii (spaced ws)) = String.string_of_list_ascii (spaced ws).
Proof.
  intros H. unfold strings_TrimSpace. rewrite String.list_ascii_of_string_of_list_ascii. cbv zeta. destruct ws as [|w ws]; [done|].
  rewrite (trim_front_id _ white_space) by by apply spaced_front. rewrite trim_front_id, rev_involutive; [done|].
  destruct (strip_any _ _) as [l'|] eqn:E; [exfalso|done]. apply strip_any_Some in E as (p & Hp & E).
  apply list_elem_of_fmap in Hp as (q & -> & Hq). apply (f_equal (@rev ascii)) in E. rewrite rev_app_distr, !rev_involutive in E.
  by apply (spaced_end (w :: ws) ltac:(done) H q (rev l')).
Qed.
Lemma Fields_spaced ws : Forall word ws → strings_Fields (strings_TrimSpace (String.string_of_list_ascii (spaced ws))) = String.string_of_list_ascii <$> ws.
Proof.
  intros H. rewrite trim_spaced by done. unfold strings_Fields. rewrite String.list_ascii_of_string_of_list_ascii. cbv zeta.
  rewrite fields_spaced; [done|done|lia].
Qed.

(** A query that asks for the terms: [+] before the required ones, [-] before the excluded ones. *)
Definition written (t : SearchTerms) : list string := st_optional t ++ (String "+" <$> st_required t) ++ (String "-" <$> st_excluded t).
Definition query_of (t : SearchTerms) : string := String.string_of_list_ascii (spaced (String.list_ascii_of_string <$> written t)).
(** words that are not taken for another kind of term *)
Definition plain (s : string) : Prop := match s with EmptyString => False | String c _ => c ≠ "+"%char ∧ c ≠ "-"%char end.
Definition writable (t : SearchTerms) : Prop :=
  Forall (λ s, word (String.list_ascii_of_string s)) (written t) ∧ Forall plain (st_optional t) ∧
  Forall (λ s, s ≠ EmptyString) (st_required t) ∧ Forall (λ s, s ≠ EmptyString) (st_excluded t).

Lemma add_optional l : Forall plain l → ∀ o r e, fold_left add_term l (mkSearchTerms o r e) = mkSearchTerms (o ++ l) r e.
Proof.
  induction 1 as [|s l Hs _ IH]; intros o r e; simpl; [by rewrite app_nil_r|]. destruct s as [|c s]; [done|]. destruct Hs as [H1 H2].
  simpl. destruct (Ascii.eqb_spec c "+"); [done|]. destruct (Ascii.eqb_spec c "-"); [done|]. simpl. by rewrite IH, <-app_assoc.
Qed.
Lemma add_required l : Forall (λ s, s ≠ EmptyString) l → ∀ o r e, fold_left add_term (String "+" <$> l) (mkSearchTerms o r e) = mkSearchTerms o (r ++ l) e.
Proof. induction 1 as [|s l Hs _ IH]; intros o r e; simpl; [by rewrite app_nil_r|]. destruct s as [|c s]; [done|]. simpl. by rewrite IH, <-app_assoc. Qed.
Lemma add_excluded l : Forall (λ s, s ≠ EmptyString) l → ∀ o r e, fold_left add_term (String "-" <$> l) (mkSearchTerms o r e) = mkSearchTerms o r (e ++ l).
Proof. induction 1 as [|s l Hs _ IH]; intros o r e; simpl; [by rewrite app_nil_r|]. destruct s as [|c s]; [done|]. simpl. by rewrite IH, <-app_assoc. Qed.

(** The terms of a query that was written from terms are the terms. *)
Theorem search_terms_roundtrip t : writable t → parseSearchTerms (query_of t) = t.
Proof.
  intros (Hw & Ho & Hr & He). unfold parseSearchTerms, query_of. rewrite Fields_spaced by by apply Forall_fmap.
  rewrite <-list_fmap_compose. rewrite (list_fmap_ext (String.string_of_list_ascii ∘ String.list_ascii_of_string) id)
    by (intros; apply String.string_of_list_ascii_of_string). rewrite list_fmap_id. unfold written. rewrite !fold_left_app, add_optional, add_required, add_excluded by done.
  by destruct t.
Qed.

(** ** What is sent *)

Section Traces.
Context {Srv : Type} (http_Do : Srv → HttpRequest → Result HttpResponse * Srv).
Context (ctx_Err : Instant → option Err) (parses : string → bool).
Implicit Types (n : Net (Srv := Srv)).

(** The server after requests, and what it answers to one. *)
Fixpoint server_after (srv : Srv) (l : list HttpRequest) : Srv :=
  match l with [] => srv | q :: l' => server_after (http_Do srv q).2 l' end.
Definition answered (srv : Srv) (q : HttpRequest) (resp : HttpResponse) : Prop := (http_Do srv q).1 = Ok resp.

(** Between [n] and [n'] exactly [l] was sent. *)
Definition after n (l : list HttpRequest) n' : Prop := n_sent n' = n_sent n ++ l ∧ n_server n' = server_after (n_server n) l.

Lemma server_after_app srv l1 l2 : server_after srv (l1 ++ l2) = server_after (server_after srv l1) l2.
Proof. revert srv. by induction l1 as [|q l1 IH]; intros srv; simpl. Qed.
Lemma after_refl n : after n [] n.
Proof. split; [by rewrite app_nil_r|done]. Qed.
Lemma after_trans n l1 n1 l2 n2 : after n l1 n1 → after n1 l2 n2 → after n (l1 ++ l2) n2.
Proof. intros [H1 E1] [H2 E2]. split; [by rewrite H2, H1, <-app_assoc|by rewrite E2, E1, server_after_app]. Qed.
Lemma after_silent n l n1 n2 : after n l n1 → after n1 [] n2 → after n l n2.
Proof. intros H1 H2. rewrite <-(app_nil_r l). by eapply after_trans. Qed.
Lemma silent_after n n1 l n2 : after n [] n1 → after n1 l n2 → after n l n2.
Proof. intros H1 H2. change l with ([] ++ l). by eapply after_trans. Qed.

(** Nothing is sent, or one request, whatever comes of it. *)
Definition silent {A} (m : M (Net (Srv := Srv)) A) : Prop := ∀ n r n', m n = (r, n') → after n [] n'.
Definition once {A} (req : HttpRequest) (m : M (Net (Srv := Srv)) A) : Prop := ∀ n r n', m n = (r, n') → after n [req] n'.

Lemma silent_ret {A} (a : A) : silent (ret a).
Proof. intros n r n' [= _ <-]. apply after_refl. Qed.
Lemma silent_fail {A} e : silent (A := A) (fail e).
Proof. intros n r n' [= _ <-]. apply after_refl. Qed.
Lemma silent_lift {A} (x : Result A) : silent (lift x).
Proof. intros n r n' [= _ <-]. apply after_refl. Qed.
Lemma silent_gets {A} (f : Net → A) : silent (gets f).
Proof. intros n r n' [= _ <-]. apply after_refl. Qed.
Lemma silent_wait : silent (wait_second ctx_Err).
Proof. intros n r n' [= _ <-]. exact (after_refl n). Qed.
Lemma silent_uuid : silent uuid_NewRandom.
Proof. intros n r n' [= _ <-]. exact (after_refl n). Qed.
Lemma silent_bind {A B} (m : M Net A) (f : A → M Net B) : silent m → (∀ a, silent (f a)) → silent (bind m f).
Proof.
  intros H1 H2 n r n' [(e & E & ->)|(a & n1 & E & E2)]%bind_inv; [by apply H1 in E|]. apply H1 in E. apply H2 in E2. by eapply after_silent.
Qed.
Lemma silent_err {A} f (m : M Net A) : silent m → silent (on_err f m).
Proof. intros H n r n' (r0 & E & _)%on_err_inv. by apply H in E. Qed.
Lemma once_Do req : once req (Do http_Do req).
Proof. intros n r n'. unfold Do. destruct (http_Do (n_server n) req) as [x srv] eqn:E. intros [= _ <-]. split; [done|]. simpl. by rewrite E. Qed.
Lemma once_err {A} req f (m : M Net A) : once req m → once req (on_err f m).
Proof. intros H n r n' (r0 & E & _)%on_err_inv. by apply H in E. Qed.
Lemma once_bind {A B} req (m : M Net A) (f : A → M Net B) : once req m → (∀ a, silent (f a)) → once req (bind m f).
Proof.
  intros H1 H2 n r n' [(e & E & ->)|(a & n1 & E & E2)]%bind_inv; [by apply H1 in E|]. apply H1 in E. apply H2 in E2. by eapply after_silent.
Qed.

(** What was answered to a request that went well. *)
Lemma Do_Ok req n resp n' : Do http_Do req n = (Ok resp, n') → answered (n_server n) req resp.
Proof. unfold Do, answered. destruct (http_Do (n_server n) req) as [x srv] eqn:E. by intros [= -> _]. Qed.
Lemma call_json_Ok {A} req failed (read : A → Json → Result A) zero what n x n' : call_json http_Do req failed read zero what n = (Ok x, n') →
  ∃ resp, answered (n_server n) req resp ∧ rs_StatusCode resp = StatusOK ∧ Unmarshal read zero resp = Ok x.
Proof.
  unfold call_json. intros (resp & n1 & E%Do_Ok & E2)%bind_inv_Ok. exists resp. split; [done|].
  destruct (Z.eqb_spec (rs_StatusCode resp) StatusOK); [|done]. split; [done|].
  apply bind_inv_Ok in E2 as ([] & n2 & _ & E2). apply on_err_inv in E2 as ([y|] & E2 & [= ->]). by injection E2.
Qed.
End Traces.

Create HintDb sent discriminated.
#[export] Hint Resolve silent_ret silent_fail silent_lift silent_gets silent_wait silent_uuid silent_err once_Do once_err : sent.
Ltac sent_go := repeat first
  [ progress cbv zeta | progress intros | apply once_bind | apply silent_bind | solve [eauto with sent]
  | match goal with |- _ (if ?b then _ else _) => destruct b end
  | match goal with |- _ (match ?x with _ => _ end) => destruct x end ].

Section Phases.
Context {Srv : Type} (http_Do : Srv → HttpRequest → Result HttpResponse * Srv).
Context (ctx_Err : Instant → option Err) (parses : string → bool).
Implicit Types (n : Net (Srv := Srv)).
Abbreviation after := (after http_Do).
Abbreviation once := (once http_Do).
Abbreviation silent := (silent http_Do).
Abbreviation answered := (answered http_Do).
Abbreviation server_after := (server_after http_Do).

Lemma once_call_json {A} req failed (read : A → Json → Result A) zero what : once req (call_json http_Do req failed read zero what).
Proof. unfold call_json, ReadAll. sent_go. Qed.

(** Polling asks at most as often as it may, and ends well with what the last
    answer said. *)
Lemma poll_sent {A} req k timeout (check : M Net (option A)) n r n' : once req check → poll ctx_Err k timeout check n = (r, n') →
  ∃ i, (i <= k)%nat ∧ after n (replicate i req) n' ∧
    ∀ a, r = Ok a → ∃ j n1 n2, i = S j ∧ after n (replicate j req) n1 ∧ check n1 = (Ok (Some a), n2).
Proof.
  intros H. revert n. induction k as [|k IH]; intros n; simpl.
  - intros [= <- <-]. exists 0%nat. split_and!; [lia|apply after_refl|done].
  - intros [(e & E & ->)|(o & n1 & E & E2)]%bind_inv; pose proof E as E0; apply H in E; [exists 1%nat; split_and!; [lia|done|done]|].
    destruct o as [a|].
    + injection E2 as <- <-. exists 1%nat. split_and!; [lia|done|]. intros a' [= <-]. exists 0%nat, n, n1. split_and!; [done|apply after_refl|done].
    + apply bind_inv in E2 as [(e & E2 & ->)|(u & n2 & E2 & E3)]; apply (silent_wait http_Do) in E2.
      { exists 1%nat. split_and!; [lia|by eapply after_silent|done]. }
      apply IH in E3 as (i & Hi & Hs & Hok). pose proof (after_silent _ _ _ _ _ E E2) as E4. exists (S i). split_and!; [lia|exact (after_trans _ _ _ _ _ _ E4 Hs)|].
      intros a ->. destruct (Hok a eq_refl) as (j & n3 & n4 & -> & Hj & Hc). exists (S j), n3, n4. split_and!; [done|exact (after_trans _ _ _ _ _ _ E4 Hj)|done].
Qed.

Definition preprocess_request (s : UserSession) (record : CloudRecord) : HttpRequest :=
  makeApiRequest s "POST" (ApiUrl [owner_type (cr_OwnerId record); cr_OwnerId record; "records"; cr_Id record; "preprocess"] EmptyString)
    (JsonBody (record_json record)).
Definition preprocess_status_request (s : UserSession) (ownerId recordId preprocessId : string) : HttpRequest :=
  makeApiRequest s "GET" (ApiUrl [owner_type ownerId; ownerId; "records"; recordId; "preprocess"; preprocessId] EmptyString) NoBody.
Definition start_request (s : UserSession) (ownerId hash : string) (size : Z) : HttpRequest :=
  makeApiRequest s "POST" (ApiUrl [owner_type ownerId; ownerId; "assets"; hash; "upload"] ("size=" +:+ fmt_d size)) NoBody.
Definition finalize_request (s : UserSession) (ownerId : string) (u : AssetUploadData) (chunks : list AssetChunk) : HttpRequest :=
  makeApiRequest s "PATCH" (ApiUrl [owner_type ownerId; ownerId; "assets"; ud_Hash u; "upload"; ud_Id u] EmptyString)
    (JsonBody (upload_json (with_chunks chunks u))).
Definition upload_status_request (s : UserSession) (ownerId hash uploadId : string) : HttpRequest :=
  makeApiRequest s "GET" (ApiUrl [owner_type ownerId; ownerId; "assets"; hash; "upload"; uploadId] EmptyString) NoBody.
Definition upsert_request (s : UserSession) (record : CloudRecord) : HttpRequest :=
  makeApiRequest s "PUT" (ApiUrl [owner_type (cr_OwnerId record); cr_OwnerId record; "records"; cr_Id record] "ensureFolder=true")
    (JsonBody (record_json record)).

Lemma PreprocessRecord_once s rec : once (preprocess_request s rec) (PreprocessRecord http_Do s rec).
Proof. apply once_call_json. Qed.
Lemma StartAssetUpload_once s o h z : once (start_request s o h z) (StartAssetUpload http_Do s o h z).
Proof. unfold StartAssetUpload, ReadAll. sent_go. Qed.
Lemma FinalizeAssetUpload_once s o u cs : once (finalize_request s o u cs) (FinalizeAssetUpload http_Do s o u cs).
Proof. unfold FinalizeAssetUpload. sent_go. Qed.
Lemma UpsertRecord_once s rec : once (upsert_request s rec) (UpsertRecord http_Do s rec).
Proof. unfold UpsertRecord. sent_go. Qed.

(** What the server said when an upload was started. *)
Lemma StartAssetUpload_Ok s o h z n started n' : StartAssetUpload http_Do s o h z n = (Ok started, n') →
  ∃ resp, answered (n_server n) (start_request s o h z) resp ∧
    match started with
    | None => rs_StatusCode resp = StatusBadRequest ∧ Contains (rs_Body resp) "AlreadyUploaded" = true
    | Some u => rs_StatusCode resp = StatusOK ∧ Unmarshal read_upload ud_zero resp = Ok u
    end.
Proof.
  unfold StartAssetUpload. intros (resp & n1 & E%Do_Ok & E2)%bind_inv_Ok. exists resp. split; [exact E|].
  destruct (Z.eqb_spec (rs_StatusCode resp) StatusBadRequest); [destruct (Contains _ _); [by injection E2 as <- _|done]|].
  destruct (Z.eqb_spec (rs_StatusCode resp) StatusOK); [|done]. simpl in E2. apply bind_inv_Ok in E2 as ([] & n2 & _ & E2).
  apply bind_inv_Ok in E2 as (u & n3 & ([y|] & E2 & [= ->])%on_err_inv & E3). injection E3 as <- _. split; [done|]. by injection E2.
Qed.

Lemma WaitForPreprocess_sent s o rid pid n r n' : WaitForPreprocess http_Do ctx_Err s o rid pid n = (r, n') →
  let status := preprocess_status_request s o rid pid in
  ∃ i, after n (replicate i status) n' ∧
    ∀ diffs, r = Ok diffs → ∃ j resp st, i = S j ∧ (j < 60)%nat ∧
      answered (server_after (n_server n) (replicate j status)) status resp ∧ Unmarshal read_preprocess preprocess_zero resp = Ok st ∧
      pp_State st = "Success" ∧ diffs = pp_ResultDiffs st.
Proof.
  intros E status. apply (poll_sent status) in E.
  2:{ pose proof (@once_call_json RecordPreprocessStatus) as H. unfold GetPreprocessStatus. sent_go; apply H. }
  destruct E as (i & Hi & Ha & Hok). exists i. split; [exact Ha|]. intros diffs Hr.
  destruct (Hok diffs Hr) as (j & n1 & n2 & -> & [_ Hj] & Hc). exists j. rewrite <-Hj.
  apply bind_inv_Ok in Hc as (st & n3 & (resp & Hresp & _ & Hst)%call_json_Ok & Hc). exists resp, st. split_and!; [done|lia|exact Hresp|exact Hst|..].
  - case_bool_decide as Hs; [done|]. by case_bool_decide.
  - case_bool_decide as Hs; [by injection Hc|]. by case_bool_decide.
Qed.
Lemma WaitForAssetUpload_sent s o h uid n r n' : WaitForAssetUpload http_Do ctx_Err s o h uid n = (r, n') →
  let status := upload_status_request s o h uid in
  ∃ i, after n (replicate i status) n' ∧
    (is_Ok r = true → ∃ j resp st, i = S j ∧ (j < 120)%nat ∧
      answered (server_after (n_server n) (replicate j status)) status resp ∧ Unmarshal read_upload ud_zero resp = Ok st ∧
      ud_UploadState st = "Uploaded").
Proof.
  intros E status. apply (poll_sent status) in E; [|unfold ReadAll; sent_go]. destruct E as (i & Hi & Ha & Hok). exists i. split; [exact Ha|].
  destruct r as [[]|e]; [intros _|done]. destruct (Hok tt eq_refl) as (j & n1 & n2 & -> & [_ Hj] & Hc). exists j. rewrite <-Hj.
  apply bind_inv_Ok in Hc as (resp & n3 & Hresp%Do_Ok & Hc). apply bind_inv_Ok in Hc as ([] & n4 & _ & Hc). destruct (negb _); [done|].
  apply bind_inv_Ok in Hc as (st & n5 & ([y|] & Hst & [= <-])%on_err_inv & Hc). exists resp, st. injection Hst as Hst _.
  split_and!; [done|lia|exact Hresp|exact Hst|]. case_bool_decide as Hs; [done|]. by case_bool_decide.
Qed.
End Phases.

(** ** The record of a texture *)

Section Texture.
Context {Srv : Type} (http_Do : Srv → HttpRequest → Result HttpResponse * Srv).
Context (ctx_Err : Instant → option Err) (parses : string → bool).
Implicit Types (n : Net (Srv := Srv)).
Abbreviation after := (after http_Do).
Abbreviation answered := (answered http_Do).
Abbreviation server_after := (server_after http_Do).

(** A request that stores a record: the parts of an image go elsewhere. *)
Definition stores (q : HttpRequest) : Prop := rq_Method q = "PUT" ∧ ∃ elements query, rq_Url q = ApiUrl elements query.

(** What is sent for an image, to a server in the state [srv].  Its upload is
    started; only if the server answers that the image is there already is that
    all.  Otherwise the server answers how it wants the image, [u], and all its
    parts go to the address in [u], cut as [u] says; unless the upload is a
    direct one it is finished; and the last of at most 120 questions how it
    stands is answered with Uploaded. *)
Inductive image_sent (s : UserSession) (hash : string) (data : list Z) (srv : Srv) : list HttpRequest → Prop :=
  | sent_before resp :
      let start := start_request s (ses_UserId s) hash (Z.of_nat (length data)) in
      answered srv start resp → rs_StatusCode resp = StatusBadRequest → Contains (rs_Body resp) "AlreadyUploaded" = true →
      image_sent s hash data srv [start]
  | sent_now resp u parts final j resp' st :
      let start := start_request s (ses_UserId s) hash (Z.of_nat (length data)) in
      let status := upload_status_request s (ses_UserId s) hash (ud_Id u) in
      answered srv start resp → rs_StatusCode resp = StatusOK → Unmarshal read_upload ud_zero resp = Ok u →
      Forall (λ q, rq_Url q = GivenUrl (ud_UploadEndpoint u)) parts →
      (sane u data → parts = requests_from u 0 (parts_of u data) ∧ concat (parts_of u data) = take (Z.to_nat (announced u)) data) →
      (if ud_IsDirectUpload u then final = [] else ∃ chunks, final = [finalize_request s (ses_UserId s) u chunks]) →
      (j < 120)%nat → answered (server_after srv ((start :: parts ++ final) ++ replicate j status)) status resp' →
      Unmarshal read_upload ud_zero resp' = Ok st → ud_UploadState st = "Uploaded" →
      image_sent s hash data srv ((start :: parts ++ final) ++ replicate (S j) status).
(** Several times, one after the other. *)
Inductive images_sent (s : UserSession) (hash : string) (data : list Z) : Srv → list (list HttpRequest) → Prop :=
  | no_image srv : images_sent s hash data srv []
  | more_images srv l ls : image_sent s hash data srv l → images_sent s hash data (server_after srv l) ls → images_sent s hash data srv (l :: ls).
(** What is sent for the preprocessing of a record that succeeds with [diffs]. *)
Inductive preprocessed (s : UserSession) (rec : CloudRecord) (srv : Srv) : list HttpRequest → list AssetDiff → Prop :=
  | preprocessed_after resp st j resp' st' :
      let status := preprocess_status_request s (ses_UserId s) (cr_Id rec) (pp_Id st) in
      answered srv (preprocess_request s rec) resp → rs_StatusCode resp = StatusOK → Unmarshal read_preprocess preprocess_zero resp = Ok st →
      (j < 60)%nat → answered (server_after srv (preprocess_request s rec :: replicate j status)) status resp' →
      Unmarshal read_preprocess preprocess_zero resp' = Ok st' → pp_State st' = "Success" →
      preprocessed s rec srv (preprocess_request s rec :: replicate (S j) status) (pp_ResultDiffs st').
(** The differences for which the image is sent. *)
Definition needed (hash : string) (d : AssetDiff) : Prop := ad_IsUploaded d = false ∧ ad_Hash d = hash.
#[local] Instance needed_dec hash d : Decision (needed hash d).
Proof. unfold needed. apply _. Defined.

Lemma stores_not_given q a : rq_Url q = GivenUrl a → ¬ stores q.
Proof. intros E (_ & els & qu & E'). congruence. Qed.
Lemma stores_not_method q : rq_Method q ≠ "PUT" → ¬ stores q.
Proof. by intros E [E' _]. Qed.
Lemma stores_not_replicate i q : rq_Method q ≠ "PUT" → Forall (λ q, ¬ stores q) (replicate i q).
Proof. intros H. apply Forall_replicate. by apply stores_not_method. Qed.

Lemma chunk_given u data i offset n r n' : upload_chunk http_Do parses u data i offset n = (r, n') →
  ∃ l, after n l n' ∧ Forall (λ q, rq_Url q = GivenUrl (ud_UploadEndpoint u)) l.
Proof.
  unfold upload_chunk. cbv zeta. intros [(e & E & ->)|(cd & n1 & E & E2)]%bind_inv; unfold slice_of in E; destruct (_ || _); try discriminate; injection E as Ed <-.
  { exists []. split; [apply after_refl|done]. }
  subst cd. destruct (negb (parses _)); [injection E2 as <- <-; exists []; split; [apply after_refl|done]|].
  match type of E2 with bind (on_err _ (Do _ ?q)) _ _ = _ => set (req := q) in * end.
  assert (after n [req] n') as Hs by (revert E2; apply (once_bind http_Do req); unfold ReadAll; sent_go).
  exists [req]. split; [exact Hs|]. by repeat constructor.
Qed.
Lemma upload_given u data k i offset n r n' : upload_from http_Do parses u data k i offset n = (r, n') →
  ∃ l, after n l n' ∧ Forall (λ q, rq_Url q = GivenUrl (ud_UploadEndpoint u)) l.
Proof.
  revert i offset n r n'. induction k as [|k IH]; intros i offset n r n'; simpl; [intros [= <- <-]; exists []; split; [apply after_refl|done]|].
  intros [(e & E & ->)|(p & n1 & E & E2)]%bind_inv; apply chunk_given in E as (l & Hs & Hl); [eauto|].
  apply bind_inv in E2 as [(e & E2 & ->)|(cs & n2 & E2 & E3)]; apply IH in E2 as (l2 & Hs2 & Hl2); exists (l ++ l2);
    [|injection E3 as <- <-]; (split; [by eapply after_trans|by apply Forall_app]).
Qed.

(** One image: all of it if it ends well, and no record in any case. *)
Lemma upload_diff_sent s hash data n r n' : upload_diff http_Do ctx_Err parses s hash data n = (r, n') →
  ∃ l, after n l n' ∧ Forall (λ q, ¬ stores q) l ∧ (is_Ok r = true → image_sent s hash data (n_server n) l).
Proof.
  unfold upload_diff. set (start := start_request s (ses_UserId s) hash (Z.of_nat (length data))).
  assert (¬ stores start) as Hn by by apply stores_not_method.
  intros [(e & (r0 & E & Er)%on_err_inv & ->)|(st & n1 & (r0 & E & Er)%on_err_inv & E2)]%bind_inv; pose proof E as Es; apply StartAssetUpload_once in E; fold start in E.
  { exists [start]. split_and!; [done|by repeat constructor|done]. }
  destruct r0 as [st0|]; [|done]. injection Er as ->. apply StartAssetUpload_Ok in Es as (resp & Hresp & Hst).
  destruct st0 as [u|]; [|injection E2 as <- <-; exists [start]; split_and!; [done|by repeat constructor|intros _; destruct Hst; by eapply sent_before]].
  destruct Hst as [Hcode Hu]. apply bind_inv in E2 as [(e & (r1 & E2 & Er1)%on_err_inv & ->)|(cs & n2 & (r1 & E2 & Er1)%on_err_inv & E3)];
    unfold UploadAssetChunks in E2; pose proof (upload_given _ _ _ _ _ _ _ _ E2) as (l & Hl & Hg); pose proof (after_trans _ _ _ _ _ _ E Hl) as Hl2;
    change ([start] ++ l) with (start :: l) in Hl2;
    assert (Forall (λ q, ¬ stores q) (start :: l)) as Hnl by (constructor; [done|]; eapply Forall_impl; [exact Hg|]; intros q; apply stores_not_given).
  { exists (start :: l). split_and!; [done..]. }
  assert (sane u data → l = requests_from u 0 (parts_of u data) ∧ concat (parts_of u data) = take (Z.to_nat (announced u)) data) as Hall.
  { intros Hs. destruct r1 as [cs1|]; [|done]. pose proof (upload_sent http_Do parses u data _ 0 0 _ _ _ Hs ltac:(lia) E2) as (l' & Hl' & _ & Hok).
    destruct (Hok _ eq_refl) as [-> _]. split; [rewrite (proj1 Hl) in Hl'; by apply app_inv_head in Hl'|].
    unfold parts_of. rewrite concat_parts by (done || lia). by rewrite left_sizes_announced. }
  apply bind_inv in E3 as [(e & E3 & ->)|([] & n3 & E3 & E4)].
  - destruct (ud_IsDirectUpload u); [discriminate|]. apply on_err_inv in E3 as (r2 & E3 & _). apply FinalizeAssetUpload_once in E3.
    exists ((start :: l) ++ [finalize_request s (ses_UserId s) u cs]). split; [by eapply after_trans|]. split; [|done].
    apply Forall_app; split; [done|]. repeat constructor. by apply stores_not_method.
  - assert (∃ final, after n2 final n3 ∧ (if ud_IsDirectUpload u then final = [] else ∃ chunks, final = [finalize_request s (ses_UserId s) u chunks])) as (final & Hf & Hfin).
    { destruct (ud_IsDirectUpload u); [injection E3 as <-; exists []; split; [apply after_refl|done]|]. apply on_err_inv in E3 as (r2 & E3 & _).
      apply FinalizeAssetUpload_once in E3. eauto. }
    pose proof (after_trans _ _ _ _ _ _ Hl2 Hf) as Hb. rewrite <-app_comm_cons in Hb.
    apply on_err_inv in E4 as (r3 & E4 & Hr3). apply WaitForAssetUpload_sent in E4 as (i & Hw & Hpos).
    eexists. split; [exact (after_trans _ _ _ _ _ _ Hb Hw)|]. split.
    + rewrite Forall_app. split; [|by apply stores_not_replicate]. rewrite app_comm_cons, Forall_app. split; [done|].
      destruct (ud_IsDirectUpload u); [by rewrite Hfin|]. destruct Hfin as [cs' ->]. repeat constructor. by apply stores_not_method.
    + intros Hok. assert (is_Ok r3 = true) as Hok3 by (subst r; by destruct r3). destruct (Hpos Hok3) as (j & resp' & st & -> & Hj & Ha & Hu' & Hup).
      rewrite (proj2 Hb) in Ha. rewrite <-server_after_app in Ha. by eapply sent_now.
Qed.
Lemma upload_diffs_sent s hash data diffs n r n' : upload_diffs http_Do ctx_Err parses s hash data diffs n = (r, n') →
  ∃ l, after n l n' ∧ Forall (λ q, ¬ stores q) l ∧
    (is_Ok r = true → ∃ uploads, l = concat uploads ∧ length uploads = length (filter (needed hash) diffs) ∧ images_sent s hash data (n_server n) uploads).
Proof.
  assert (∀ d, negb (ad_IsUploaded d) && bool_decide (ad_Hash d = hash) = true ↔ needed hash d) as Hneed
    by (intros d; unfold needed; by rewrite andb_true_iff, negb_true_iff, bool_decide_eq_true).
  revert n r n'. induction diffs as [|d diffs IH]; intros n r n'; simpl.
  { intros [= <- <-]. exists []. split_and!; [apply after_refl|done|]. intros _. exists []. split_and!; [done..|constructor]. }
  intros [(e & E & ->)|([] & n1 & E & E2)]%bind_inv.
  - destruct (_ && _); [|discriminate]. apply upload_diff_sent in E as (l & ? & ? & _). exists l. by split_and!.
  - apply IH in E2 as (l2 & Hs2 & Hn2 & Hok2). rewrite filter_cons. destruct (decide (needed hash d)) as [Hd|Hd].
    + apply Hneed in Hd. rewrite Hd in E. apply upload_diff_sent in E as (l & Hs & Hn & Hok). exists (l ++ l2).
      split_and!; [by eapply after_trans|by apply Forall_app|]. intros Hr. destruct (Hok2 Hr) as (ups & -> & Hl & Hf). exists (l :: ups). simpl.
      split_and!; [done|by rewrite Hl|]. constructor; [by apply Hok|]. by rewrite <-(proj2 Hs).
    + assert (negb (ad_IsUploaded d) && bool_decide (ad_Hash d = hash) = false) as Hd' by (apply not_true_is_false; by rewrite Hneed).
      rewrite Hd' in E. injection E as <-. exists l2. by split_and!.
Qed.

Lemma silent_GenerateRecordID : silent http_Do (Srv := Srv) GenerateRecordID.
Proof. unfold GenerateRecordID. sent_go. Qed.
Lemma now_GenerateRecordID n r n' : GenerateRecordID n = (r, n') → n_now n' = n_now n.
Proof. by intros [= _ <-]. Qed.

(** What is sent before the record: its preprocessing, until it succeeded, and
    the image for every difference that needs it. *)
Definition before_record (s : UserSession) (hash : string) (data : list Z) (rec : CloudRecord) (srv : Srv) (sent : list HttpRequest) : Prop :=
  ∃ l diffs uploads, preprocessed s rec srv l diffs ∧ images_sent s hash data (server_after srv l) uploads ∧
    length uploads = length (filter (needed hash) diffs) ∧ sent = l ++ concat uploads.

(** C38. A record is stored last: after the server answered that its
    preprocessing succeeded ([preprocessed]), and after the image was sent for
    every difference that needs it ([images_sent]): all its parts, cut as the
    server answered to the start of the upload (if the sizes it answered are
    not negative and do not overflow), until the server said that it is
    uploaded; nothing but the start is sent only when the server answered that
    the image is there already.  Otherwise no record is stored, and the caller
    gets an error. *)
Theorem texture_stored_last machineId s name path data n r n' :
  UserSession_UploadTextureRecord http_Do ctx_Err parses machineId s name path data n = (r, n') →
  let hash := ComputeAssetHash data in
  ∃ recordId sent, let rec := texture_record s recordId machineId name path hash (Z.of_nat (length data)) (n_now n) in
    Forall (λ q, ¬ stores q) sent ∧
    (n_sent n' = n_sent n ++ sent ∧ is_Ok r = false ∨
     n_sent n' = n_sent n ++ sent ++ [upsert_request s rec] ∧ before_record s hash data rec (n_server n) sent ∧
     (∀ p, r = Ok p → p = (recordId, "resdb:///" +:+ hash) ∧
        ∃ resp, answered (server_after (n_server n) sent) (upsert_request s rec) resp ∧ rs_StatusCode resp = StatusOK)).
Proof.
  unfold UserSession_UploadTextureRecord. cbv zeta. set (hash := ComputeAssetHash data).
  intros [(e & E & ->)|(rid & n0 & E & E0)]%bind_inv; pose proof E as Es; apply silent_GenerateRecordID in Es; pose proof (now_GenerateRecordID _ _ _ E) as En.
  { exists EmptyString, []. split; [done|]. left. by split; [apply Es|]. }
  unfold gets, bind at 1 in E0. rewrite En in E0. exists rid. set (rec := texture_record _ _ _ _ _ _ _ _) in *.
  assert (¬ stores (preprocess_request s rec)) as Hp by by apply stores_not_method.
  apply bind_inv in E0 as [(e & (r0 & E0 & _)%on_err_inv & ->)|(st & n1 & (r0 & E0 & Er0)%on_err_inv & E1)]; pose proof E0 as Ep;
    apply PreprocessRecord_once in E0; pose proof (silent_after _ _ _ _ _ Es E0) as H1.
  { exists [preprocess_request s rec]. split; [by repeat constructor|]. left. by split; [apply H1|]. }
  destruct r0 as [st0|]; [|done]. injection Er0 as ->. apply call_json_Ok in Ep as (resp & Hresp & Hcode & Hst). rewrite (proj2 Es) in Hresp. simpl in Hresp.
  apply bind_inv in E1 as [(e & (r1 & E1 & _)%on_err_inv & ->)|(diffs & n2 & (r1 & E1 & Er1)%on_err_inv & E2)];
    pose proof (WaitForPreprocess_sent _ _ _ _ _ _ _ _ _ E1) as (i & Hs2 & Hpos); pose proof (after_trans _ _ _ _ _ _ H1 Hs2) as H2;
    assert (Forall (λ q, ¬ stores q) ([preprocess_request s rec] ++ replicate i (preprocess_status_request s (ses_UserId s) rid (pp_Id st0))))
      as Hn2 by (constructor; [done|by apply stores_not_replicate]).
  { eexists. split; [exact Hn2|]. left. by split; [apply H2|]. }
  destruct r1 as [diffs1|]; [|done]. injection Er1 as ->.
  apply bind_inv in E2 as [(e & E2 & ->)|([] & n3 & E2 & E3)]; apply upload_diffs_sent in E2 as (l & Hs3 & Hn3 & Hok);
    pose proof (after_trans _ _ _ _ _ _ H2 Hs3) as H3; pose proof (conj Hn2 Hn3) as Hns; rewrite <-Forall_app in Hns.
  { eexists. split; [exact Hns|]. left. by split; [apply H3|]. }
  destruct (Hok eq_refl) as (ups & -> & Hl & Hf). eexists. split; [exact Hns|]. right.
  assert (after n3 [upsert_request s rec] n') as Hs4 by
    (apply bind_inv in E3 as [(e & (r3 & E3 & _)%on_err_inv & _)|([] & n4 & (r3 & E3 & _)%on_err_inv & E4)]; apply UpsertRecord_once in E3; [done|by injection E4 as _ <-]).
  split; [rewrite app_assoc, <-(proj1 H3); apply Hs4|]. split.
  - destruct (Hpos diffs1 eq_refl) as (j & resp' & st' & -> & Hj & Ha & Hst' & Hsuc & ->). rewrite (proj2 H1), <-server_after_app in Ha.
    exists ([preprocess_request s rec] ++ replicate (S j) (preprocess_status_request s (ses_UserId s) rid (pp_Id st0))), (pp_ResultDiffs st'), ups.
    split; [by eapply (preprocessed_after s rec (n_server n) resp st0 j resp' st')|]. split; [by rewrite <-(proj2 H2)|]. split; [exact Hl|done].
  - intros p Hr. subst r. apply bind_inv_Ok in E3 as (u & n4 & ([u'|] & E3 & [= ->])%on_err_inv & [= <- _]). split; [done|].
    unfold UpsertRecord in E3. apply bind_inv_Ok in E3 as (resp2 & n5 & E3%Do_Ok & E4). exists resp2. rewrite <-(proj2 H3). split; [exact E3|].
    destruct (Z.eqb_spec (rs_StatusCode resp2) StatusOK); [done|]. done.
Qed.
End Texture.

(** ** Uploading whole images *)

Section Whole.
Context {Srv : Type} (http_Do : Srv → HttpRequest → Result HttpResponse * Srv) (parses : string → bool).

(** The parts go out in order, each once, and put together they are what the
    server announced of the image; an error stops them. *)
Theorem chunks_sent_whole u data (n : Net (Srv := Srv)) r n' : sane u data → UploadAssetChunks http_Do parses u data n = (r, n') →
  concat (parts_of u data) = take (Z.to_nat (announced u)) data ∧
  ∃ sent, n_sent n' = n_sent n ++ sent ∧ sent `prefix_of` requests_from u 0 (parts_of u data) ∧
    ∀ chunks, r = Ok chunks → sent = requests_from u 0 (parts_of u data) ∧
      ch_Index <$> chunks = (if ud_IsDirectUpload u then [] else seqZ 0 (Z.of_nat (Z.to_nat (ud_TotalChunks u)))).
Proof.
  intros Hs H. split.
  - unfold parts_of. rewrite concat_parts by (done || lia). by rewrite left_sizes_announced.
  - exact (upload_sent http_Do parses u data _ 0 0 n r n' Hs ltac:(lia) H).
Qed.
End Whole.

(** ** Sessions *)

Section Sessions.
Context {Srv : Type} (http_Do : Srv → HttpRequest → Result HttpResponse * Srv).
Implicit Types (n : Net (Srv := Srv)).

Lemma UserLogin_sessions uid credential password n r n' : UserLogin http_Do uid credential password n = (r, n') →
  n_sessions n' = n_sessions n ∧ ∃ machine, n_sent n' = n_sent n ++
    [mkHttpRequest "POST" (ApiUrl ["userSessions"] EmptyString)
       [("Content-Type", "application/json"); ("Accept", "application/json"); ("Uid", uid)] (JsonBody (login_json credential password machine))].
Proof.
  unfold UserLogin. intros [(e & E & ->)|(m & n1 & E & E1)]%bind_inv; [by injection E|]. assert (n_sessions n1 = n_sessions n ∧ n_sent n1 = n_sent n) as [<- <-] by (by injection E as _ <-). clear E.
  assert (Do_frame : ∀ q k x k', Do http_Do q k = (x, k') → n_sessions k' = n_sessions k ∧ n_sent k' = n_sent k ++ [q])
    by (intros q k x k'; unfold Do; destruct (http_Do _ _); by intros [= _ <-]).
  apply bind_inv in E1 as [(e & (r0 & E & _)%on_err_inv & ->)|(resp & n2 & (r0 & E & _)%on_err_inv & E2)]; apply Do_frame in E as [H1 H2]; [eauto|].
  enough (n' = n2) as -> by eauto. destruct (negb _); [by injection E2|].
  apply bind_inv in E2 as [(e & E2 & _)|(? & n3 & E2 & E3)]; injection E2 as _ <-; [done|].
  apply bind_inv in E3 as [(e & (r1 & E3 & _)%on_err_inv & _)|(en & n4 & (r1 & E3 & _)%on_err_inv & E4)]; injection E3 as _ <-; [done|].
  destruct (parseRFC3339 _); by injection E4.
Qed.

(** A session comes from the cache, while it is valid for more than a minute,
    and then nothing is sent; otherwise from one login, and then it is kept for
    its credential and no other session changes; a failed login changes none. *)
Theorem getOrLogin_caches uid credential password n r n' : getOrLogin http_Do uid credential password n = (r, n') →
  match n_sessions n !! credential with
  | Some s => (n_now n + time_Minute < ses_expire s)%Z ∧ r = Ok s ∧ n' = n
  | None => False
  end ∨
  (∀ s, n_sessions n !! credential = Some s → (ses_expire s <= n_now n + time_Minute)%Z) ∧
  (∃ machine, n_sent n' = n_sent n ++
     [mkHttpRequest "POST" (ApiUrl ["userSessions"] EmptyString)
        [("Content-Type", "application/json"); ("Accept", "application/json"); ("Uid", uid)] (JsonBody (login_json credential password machine))]) ∧
  match r with Ok s => n_sessions n' = <[credential := s]> (n_sessions n) | Fail _ => n_sessions n' = n_sessions n end.
Proof.
  unfold getOrLogin. unfold gets, bind at 1 2. cbv zeta.
  assert (Hlogin : ∀ r n', bind (UserLogin http_Do uid credential password) (λ s, cache_session credential s ;;; ret s) n = (r, n') →
    (∃ machine, n_sent n' = n_sent n ++
     [mkHttpRequest "POST" (ApiUrl ["userSessions"] EmptyString)
        [("Content-Type", "application/json"); ("Accept", "application/json"); ("Uid", uid)] (JsonBody (login_json credential password machine))]) ∧
    match r with Ok s => n_sessions n' = <[credential := s]> (n_sessions n) | Fail _ => n_sessions n' = n_sessions n end).
  { intros r1 n1 [(e & E & ->)|(s & n2 & E & E2)]%bind_inv; apply UserLogin_sessions in E as [H1 H2]; [done|].
    injection E2 as <- <-. simpl. by rewrite H1. }
  destruct (n_sessions n !! credential) as [s|]; [|intros H; right; split; [done|by apply Hlogin]].
  unfold IsValid. destruct (Z.ltb_spec (n_now n + time_Minute) (ses_expire s)); intros H1.
  - injection H1 as <- <-. by left.
  - right. split; [by intros ? [= <-]|by apply Hlogin].
Qed.
End Sessions.

(** ** Icons *)

(** A square, as large as fits, inside an image that starts at 0 and in the
    middle of it up to the odd pixel. *)
Theorem icon_square_centred w h : (0 <= w)%Z → (0 <= h)%Z →
  let c := crop_rect (mkRectangle 0 0 w h) in
  rc_Dx c = Z.min w h ∧ rc_Dy c = Z.min w h ∧ (0 <= rc_MinX c)%Z ∧ (rc_MinX c + rc_Dx c <= w)%Z ∧ (0 <= rc_MinY c)%Z ∧ (rc_MinY c + rc_Dy c <= h)%Z ∧
  (0 <= w - rc_Dx c - 2 * rc_MinX c <= 1)%Z ∧ (0 <= h - rc_Dy c - 2 * rc_MinY c <= 1)%Z.
Proof.
  intros Hw Hh. unfold crop_rect. simpl. destruct (Z.ltb_spec h w); [|destruct (Z.ltb_spec w h)]; simpl;
    rewrite ?Z.quot_div_nonneg by lia;
    try (pose proof (Z.div_mod (w - h) 2 ltac:(lia)); pose proof (Z.mod_pos_bound (w - h) 2 ltac:(lia)));
    try (pose proof (Z.div_mod (h - w) 2 ltac:(lia)); pose proof (Z.mod_pos_bound (h - w) 2 ltac:(lia))); lia.
Qed.
(** The first frame of a GIF may start elsewhere: then the square is cut outside of it. *)
Example icon_outside : crop_rect (mkRectangle 100 0 20 10) = mkRectangle 5 0 10 10.
Proof. reflexivity. Qed.

(** What is encoded anew is of an accepted format and size, and a PNG of the right size is left alone. *)
Theorem ProcessIconImage_cases {Image} (image_Decode : list Z → Result (Image * string)) bounds_of encode_square data r :
  ProcessIconImage image_Decode bounds_of encode_square data = Ok r →
  (Z.of_nat (length data) <= 10485760)%Z ∧ ∃ img format, image_Decode data = Ok (img, format) ∧ format ∈ ["png"; "jpeg"; "gif"; "webp"] ∧
    (r = data ∧ format = "png" ∧ rc_Dx (bounds_of img) = IconSize ∧ rc_Dy (bounds_of img) = IconSize ∨
     encode_square img (crop_rect (bounds_of img)) = Ok r).
Proof.
  unfold ProcessIconImage. destruct (Z.ltb_spec MaxImageFileSize (Z.of_nat (length data))) as [|Hl]; [done|].
  destruct (image_Decode data) as [[img format]|e]; [|done]. simpl. unfold accepted_format. destruct (bool_decide (format ∈ _)) eqn:Hf; [apply bool_decide_eq_true in Hf|done]. simpl.
  intros H. split; [unfold MaxImageFileSize in Hl; lia|]. exists img, format. split_and!; [done..|].
  destruct (bool_decide (format = "png")) eqn:E1; simpl in H; [apply bool_decide_eq_true in E1|right; by destruct (encode_square _ _)].
  destruct (Z.eqb_spec (rc_Dx (bounds_of img)) IconSize), (Z.eqb_spec (rc_Dy (bounds_of img)) IconSize); simpl in H;
    [left; by injection H|right; by destruct (encode_square _ _)..].
Qed.

(** ** A server *)

Module CloudWorld.
(** A server that answers with what is left of a script. *)
Definition scripted (script : list HttpResponse) (_ : HttpRequest) : Result HttpResponse * list HttpResponse :=
  match script with r :: rest => (Ok r, rest) | [] => (Fail (EMsg "connection refused"), []) end.
Definition answer (j : Json) : HttpResponse := mkHttpResponse 200 "200 OK" EmptyString EmptyString (Some j) None.
Definition net (script : list HttpResponse) : Net (Srv := list HttpResponse) :=
  mkNet script 0%Z (λ i, replicate 16 (Z.of_nat i)) 0 [] ∅.
Definition never (_ : Instant) : option Err := None.
Definition any (_ : string) : bool := true.
Definition alice : UserSession := mkUserSession "U-alice" "token" 0%Z.

Definition image : list Z := [1; 2; 3]%Z.
Definition two_parts : AssetUploadData :=
  mkUploadData (ComputeAssetHash image) EmptyString "up1" "U-alice" 3 2 2 "Started" "key" "https://upload" true 1 [] "2025-01-01" 1%Z.
Definition texture_script : list HttpResponse :=
  [ answer (JObj (str_member "id" "p1"));
    answer (JObj (str_member "state" "Preprocessing"));
    answer (JObj (str_member "state" "Success" ++
      [("resultDiffs", JArr [JObj (str_member "hash" (ComputeAssetHash image) ++ bool_member "isUploaded" false)])]));
    answer (upload_json two_parts); answer JNull; answer JNull; answer (JObj (str_member "uploadState" "Uploaded")); answer JNull ].
Definition texture_run := UserSession_UploadTextureRecord scripted never any "machine" alice "icon" "Inventory" image (net texture_script).
End CloudWorld.

Lemma chunks_sent_whole_witness :
  let x := UploadAssetChunks CloudWorld.scripted CloudWorld.any CloudWorld.two_parts CloudWorld.image (CloudWorld.net (replicate 2 (CloudWorld.answer JNull))) in
  fst x = Ok [] ∧ parts_of CloudWorld.two_parts CloudWorld.image = [[1; 2]; [3]]%Z ∧
  concat (parts_of CloudWorld.two_parts CloudWorld.image) = CloudWorld.image ∧
  n_sent (snd x) = requests_from CloudWorld.two_parts 0 [[1; 2]; [3]]%Z.
Proof.
  cbv zeta. split; [vm_compute; reflexivity|]. split; [vm_compute; reflexivity|].
  destruct (chunks_sent_whole CloudWorld.scripted CloudWorld.any CloudWorld.two_parts CloudWorld.image
    (CloudWorld.net (replicate 2 (CloudWorld.answer JNull))) _ _ ltac:(vm_compute; repeat split; discriminate) (surjective_pairing _)) as (Hc & sent & Hs & _ & Hok).
  split; [exact Hc|]. rewrite Hs. simpl n_sent at 1. simpl app. destruct (Hok [] ltac:(vm_compute; reflexivity)) as [-> _]. reflexivity.
Defined.

Lemma texture_stored_last_witness :
  is_Ok (fst CloudWorld.texture_run) = true ∧ length (n_sent (snd CloudWorld.texture_run)) = 8%nat ∧
  ∃ recordId sent, n_sent (snd CloudWorld.texture_run) = sent ++ [upsert_request CloudWorld.alice
    (texture_record CloudWorld.alice recordId "machine" "icon" "Inventory" (ComputeAssetHash CloudWorld.image) 3 0%Z)] ∧ Forall (λ q, ¬ stores q) sent ∧
    before_record CloudWorld.scripted CloudWorld.alice (ComputeAssetHash CloudWorld.image) CloudWorld.image
      (texture_record CloudWorld.alice recordId "machine" "icon" "Inventory" (ComputeAssetHash CloudWorld.image) 3 0%Z) CloudWorld.texture_script sent.
Proof.
  assert (Hr : is_Ok (fst CloudWorld.texture_run) = true) by (vm_compute; reflexivity).
  split; [exact Hr|]. split; [vm_compute; reflexivity|].
  destruct (texture_stored_last CloudWorld.scripted CloudWorld.never CloudWorld.any "machine" CloudWorld.alice "icon" "Inventory" CloudWorld.image
    (CloudWorld.net CloudWorld.texture_script) (fst CloudWorld.texture_run) (snd CloudWorld.texture_run) (surjective_pairing _))
    as (rid & sent & Hn & [[_ Hf]|(Hs & Hb & _)]); [congruence|]. exists rid, sent. split; [exact Hs|]. split; [exact Hn|exact Hb].
Defined.

Lemma word_bytes l : forallb (λ c, forallb (λ w, bool_decide (head w ≠ Some c)) white_space) l = true → l ≠ [] → word l.
Proof.
  intros H Hne. split; [done|]. intros w a b Hw ->. rewrite !forallb_app in H. apply andb_true_iff in H as [_ H]. apply andb_true_iff in H as [H _].
  pose proof (white_nonempty w Hw). destruct w as [|c w]; [done|]. change (forallb (λ x, forallb (λ w, bool_decide (head w ≠ Some x)) white_space) (c :: w)) with
    (forallb (λ w, bool_decide (head w ≠ Some c)) white_space && forallb (λ x, forallb (λ w, bool_decide (head w ≠ Some x)) white_space) w) in H.
  apply andb_true_iff in H as [H _]. pose proof (proj1 (forallb_forall _ _) H (c :: w) ltac:(by apply list_elem_of_In)) as H'. by apply bool_decide_eq_true in H'.
Qed.
Lemma search_terms_roundtrip_witness :
  parseSearchTerms (query_of (mkSearchTerms ["castle"; "blue"] ["night"] ["test"])) = mkSearchTerms ["castle"; "blue"] ["night"] ["test"] ∧
  query_of (mkSearchTerms ["castle"; "blue"] ["night"] ["test"]) = "castle blue +night -test".
Proof.
  split; [|reflexivity]. apply search_terms_roundtrip. unfold writable, written. split_and!; simpl; repeat constructor; (discriminate || apply word_bytes; (vm_compute; reflexivity) || discriminate).
Defined.
