(* ===== verification/Supervisor.v ===== *)
(** * The supervision of the workers

    [src/worker/runner.go]: the manager that starts all runners and stops them
    together, as a machine of its calls and of the goroutines of the runners;
    [src/worker/host_event_watcher.go]: the goroutines of the streams of the
    hosts and the loop that reconciles them; [src/worker/image_checker.go]: the
    observers of new images; [src/worker/host_upgrade_orchestrator.go]: the
    mutexes of the hosts.  One step of a machine is what a thread does under
    one lock, or one wait; goroutines may end at any time, with any result. *)

From S2P Require Import Prelude Entity Models Ports Messages UserUsecase Queries StoreInvariant HostQueries HostEvents HostUpgrade.
From stdpp Require Import base gmap strings list sets.
From Stdlib Require Import ZArith Lia.

(** What a step comes to: it must wait, the process panics, or the next state. *)
Inductive Step (S : Type) : Type := Waits | Crashes | Next (s : S).
Arguments Waits {S}.
Arguments Crashes {S}.
Arguments Next {S} s.

Section Machine.
Context {S L : Type} (exec : L → S → Step S).
Inductive reached (init : S) : S → Prop :=
  | reached_init : reached init init
  | reached_step l s s' : reached init s → exec l s = Next s' → reached init s'.
(** An invariant holds wherever the machine gets. *)
Lemma reached_invariant (P : S → Prop) init s :
  P init → (∀ l s s', P s → exec l s = Next s' → P s') → reached init s → P s.
Proof. intros H0 Hstep. induction 1; eauto. Qed.

Fixpoint exec_all (ls : list L) (s : S) : Step S :=
  match ls with
  | [] => Next s
  | l :: ls' => match exec l s with Next s' => exec_all ls' s' | Waits => Waits | Crashes => Crashes end
  end.
Lemma exec_all_reached init ls s s' : reached init s → exec_all ls s = Next s' → reached init s'.
Proof.
  revert s. induction ls as [|l ls IH]; simpl; intros s Hr; [by intros [= <-]|]. destruct (exec l s) as [| |s1] eqn:E; try discriminate.
  apply IH. by eapply reached_step.
Qed.
End Machine.

Module Manager.
(** ** The manager *)

(** How the [Run] of a runner ends: it returns, or it panics and is recovered. *)
Inductive Outcome : Type := Returned (err : option Err) | Panicked.
Record Goroutine : Type := mkGo { g_ctx : nat; g_runner : nat; g_end : option Outcome }.
(** Where a call of [Stop] stands: it holds the cancel function of a context,
    waits for the runners, has seen them all done, or has returned. *)
Inductive StopCall : Type :=
  | Cancelling (c : nat) | Waiting (c : nat) | Drained (c : nat) | Stopped (c : option nat) (err : option Err).

(** [Manager]; contexts are numbered as [Start] makes them. *)
Record Manager : Type := mkManager {
  m_runners : nat; m_cancel : option nat; m_ctxs : list bool; m_gos : list Goroutine; m_wg : Z; m_stops : list StopCall }.
Definition NewManager (runners : nat) : Manager := mkManager runners None [] [] 0 [].

Inductive Label : Type :=
  | LStart
  | LStop
  | LCancel (i : nat)
  | LDrained (i : nat)
  | LReturn (i : nat)
  | LTimeout (i : nat) (err : Err)
  | LEnds (j : nat) (o : Outcome).

Definition Start (m : Manager) : Manager :=
  match m_cancel m with
  | Some _ => m
  | None =>
      let c := length (m_ctxs m) in
      mkManager (m_runners m) (Some c) (m_ctxs m ++ [false]) (m_gos m ++ ((λ r, mkGo c r None) <$> seq 0 (m_runners m)))
        (m_wg m + Z.of_nat (m_runners m)) (m_stops m)
  end.
Definition set_stop (i : nat) (s : StopCall) (m : Manager) : Manager :=
  mkManager (m_runners m) (m_cancel m) (m_ctxs m) (m_gos m) (m_wg m) (<[i := s]> (m_stops m)).
(** a new call of [Stop] takes the cancel function *)
Definition Stop (m : Manager) : Manager :=
  mkManager (m_runners m) None (m_ctxs m) (m_gos m) (m_wg m)
    (m_stops m ++ [match m_cancel m with Some c => Cancelling c | None => Stopped None None end]).
(** [wg.Done] of [runOne]; a counter below 0 panics *)
Definition runOne_ends (j : nat) (g : Goroutine) (o : Outcome) (m : Manager) : Step Manager :=
  if (m_wg m - 1 <? 0)%Z then Crashes
  else Next (mkManager (m_runners m) (m_cancel m) (m_ctxs m) (<[j := mkGo (g_ctx g) (g_runner g) (Some o)]> (m_gos m)) (m_wg m - 1) (m_stops m)).

Definition exec (l : Label) (m : Manager) : Step Manager :=
  match l with
  | LStart => Next (Start m)
  | LStop => Next (Stop m)
  | LCancel i =>
      match m_stops m !! i with
      | Some (Cancelling c) =>
          Next (set_stop i (Waiting c) (mkManager (m_runners m) (m_cancel m) (<[c := true]> (m_ctxs m)) (m_gos m) (m_wg m) (m_stops m)))
      | _ => Waits
      end
  | LDrained i =>
      match m_stops m !! i with
      | Some (Waiting c) => if (m_wg m =? 0)%Z then Next (set_stop i (Drained c) m) else Waits
      | _ => Waits
      end
  | LReturn i => match m_stops m !! i with Some (Drained c) => Next (set_stop i (Stopped (Some c) None) m) | _ => Waits end
  | LTimeout i e =>
      match m_stops m !! i with
      | Some (Waiting c) | Some (Drained c) => Next (set_stop i (Stopped (Some c) (Some e)) m)
      | _ => Waits
      end
  | LEnds j o =>
      match m_gos m !! j with
      | Some g => match g_end g with None => runOne_ends j g o m | Some _ => Waits end
      | None => Waits
      end
  end.

(** *** Invariant *)

Definition live (g : Goroutine) : bool := match g_end g with None => true | Some _ => false end.
Definition live_count (l : list Goroutine) : nat := length (List.filter live l).
Definition launched (ctxs runners : nat) : list (nat * nat) := concat ((λ c, pair c <$> seq 0 runners) <$> seq 0 ctxs).
(** The context of a call of [Stop] that is past its cancel. *)
Definition cancelled_ctx (s : StopCall) : option nat :=
  match s with Waiting c | Drained c | Stopped (Some c) _ => Some c | _ => None end.
(** The context whose runners a call has seen done. *)
Definition drained_ctx (s : StopCall) : option nat :=
  match s with Drained c | Stopped (Some c) None => Some c | _ => None end.

Record manager_ok (m : Manager) : Prop := {
  mo_wg : m_wg m = Z.of_nat (live_count (m_gos m));
  mo_launched : (λ g, (g_ctx g, g_runner g)) <$> m_gos m = launched (length (m_ctxs m)) (m_runners m);
  mo_current c : m_cancel m = Some c → m_ctxs m !! c = Some false;
  mo_open c : m_ctxs m !! c = Some false → m_cancel m = Some c ∨ Cancelling c ∈ m_stops m;
  mo_apart c : m_cancel m = Some c → Cancelling c ∉ m_stops m;
  mo_cancelling c : Cancelling c ∈ m_stops m → (c < length (m_ctxs m))%nat;
  mo_cancelled s c : s ∈ m_stops m → cancelled_ctx s = Some c → m_ctxs m !! c = Some true;
  mo_drained s c g : s ∈ m_stops m → drained_ctx s = Some c → g ∈ m_gos m → (g_ctx g <= c)%nat → live g = false }.

Lemma NewManager_ok k : manager_ok (NewManager k).
Proof. constructor; simpl; try done; intros *; try (by intros ?%elem_of_nil). Qed.

Lemma live_count_app l k : live_count (l ++ k) = (live_count l + live_count k)%nat.
Proof. unfold live_count. by rewrite List.filter_app, length_app. Qed.
Lemma live_count_new c l : live_count ((λ r, mkGo c r None) <$> l) = length l.
Proof. unfold live_count. induction l as [|x l IH]; [done|]. simpl. f_equal. exact IH. Qed.
Lemma live_count_end l j g o : l !! j = Some g → live g = true → live_count l = S (live_count (<[j := mkGo (g_ctx g) (g_runner g) (Some o)]> l)).
Proof.
  intros Hj Hg. rewrite <-(take_drop_middle l j g Hj) at 1. rewrite insert_take_drop by by eapply lookup_lt_Some.
  rewrite !live_count_app. unfold live_count at 2 4. simpl. rewrite Hg. simpl. lia.
Qed.
Lemma live_count_zero l : live_count l = 0%nat → ∀ g, g ∈ l → live g = false.
Proof.
  unfold live_count. intros H g Hg. destruct (live g) eqn:E; [exfalso|done]. apply list_elem_of_In in Hg.
  assert (In g (List.filter live l)) as Hin by by apply filter_In. destruct (List.filter live l); [done|discriminate].
Qed.
Lemma launched_S n k : launched (S n) k = launched n k ++ (pair n <$> seq 0 k).
Proof. unfold launched. rewrite seq_S, fmap_app, concat_app. simpl. by rewrite app_nil_r. Qed.

Lemma launched_bound n k p : p ∈ launched n k → (fst p < n)%nat.
Proof.
  induction n as [|n IH]; [by intros ?%elem_of_nil|]. rewrite launched_S. intros [H|H]%elem_of_app; [specialize (IH H); lia|].
  apply list_elem_of_fmap in H as (r & -> & _). simpl. lia.
Qed.
Lemma goroutine_ctx m g : manager_ok m → g ∈ m_gos m → (g_ctx g < length (m_ctxs m))%nat.
Proof.
  intros H Hg. apply (launched_bound _ (m_runners m) (g_ctx g, g_runner g)). rewrite <-(mo_launched m H). apply list_elem_of_fmap. eauto.
Qed.

Lemma Start_ok m : manager_ok m → manager_ok (Start m).
Proof.
  intros H. unfold Start. destruct (m_cancel m) as [c0|] eqn:Ec; [done|]. constructor; simpl.
  - rewrite live_count_app, live_count_new, length_seq, (mo_wg m H). lia.
  - rewrite fmap_app, <-list_fmap_compose, length_app, Nat.add_1_r, launched_S, (mo_launched m H). f_equal.
  - intros c [= <-]. rewrite lookup_app_r by lia. by rewrite Nat.sub_diag.
  - intros c Hc. destruct (decide (c = length (m_ctxs m))) as [->|Hne]; [by left|]. right.
    apply lookup_lt_Some in Hc as Hlt. rewrite length_app in Hlt. simpl in Hlt. rewrite lookup_app_l in Hc by lia.
    by destruct (mo_open m H c Hc); [congruence|].
  - intros c [= <-] Hin. pose proof (mo_cancelling m H _ Hin). lia.
  - intros c Hc. rewrite length_app. pose proof (mo_cancelling m H c Hc). simpl. lia.
  - intros s c Hs Hc. pose proof (mo_cancelled m H s c Hs Hc) as Ht. rewrite lookup_app_l; [done|]. by eapply lookup_lt_Some.
  - intros s c g Hs Hc [Hg|Hg]%elem_of_app Hle; [by eapply (mo_drained m H)|]. exfalso.
    apply list_elem_of_fmap in Hg as (r & -> & _). simpl in Hle.
    assert (cancelled_ctx s = Some c) as Hcc by (destruct s as [?|?|?|[?|] [?|]]; simpl in *; congruence).
    pose proof (lookup_lt_Some _ _ _ (mo_cancelled m H s c Hs Hcc)). lia.
Qed.

Lemma Stop_ok m : manager_ok m → manager_ok (Stop m).
Proof.
  intros H. constructor; simpl; try apply H; try done.
  - intros c Hc. right. apply elem_of_app. destruct (mo_open m H c Hc) as [->|]; [right; left|by left].
  - intros c [Hc|Hc]%elem_of_app; [by apply (mo_cancelling m H)|]. apply list_elem_of_singleton in Hc. destruct (m_cancel m) as [c1|] eqn:E; [|done].
    injection Hc as ->. eapply lookup_lt_Some. by apply (mo_current m H).
  - intros s c [Hs|Hs]%elem_of_app Hc; [by eapply (mo_cancelled m H)|]. apply list_elem_of_singleton in Hs as ->. by destruct (m_cancel m).
  - intros s c g [Hs|Hs]%elem_of_app Hc; [by eapply (mo_drained m H)|]. apply list_elem_of_singleton in Hs as ->. by destruct (m_cancel m).
Qed.

(** A call of [Stop] that goes on, with its context where it was. *)
Lemma insert_elem {A} (l : list A) i (x y : A) : y ∈ <[i := x]> l → y = x ∨ y ∈ l.
Proof.
  intros (j & Hj)%list_elem_of_lookup_1. destruct (decide (i = j)) as [->|Hne].
  - destruct (decide (j < length l)%nat) as [Hl|Hl]; [rewrite list_lookup_insert_eq in Hj by done; left; congruence|].
    rewrite list_insert_ge in Hj by lia. right. by eapply list_elem_of_lookup_2.
  - rewrite list_lookup_insert_ne in Hj by done. right. by eapply list_elem_of_lookup_2.
Qed.
Lemma elem_insert_ne {A} (l : list A) i (x y z : A) : l !! i = Some z → y ≠ z → y ∈ l → y ∈ <[i := x]> l.
Proof.
  intros Hi Hne (j & Hj)%list_elem_of_lookup_1. apply (list_elem_of_lookup_2 _ j). rewrite list_lookup_insert_ne; [done|]. intros ->. congruence.
Qed.
Lemma set_stop_ok i old new m : manager_ok m → m_stops m !! i = Some old → (∀ c, old ≠ Cancelling c) → (∀ c, new ≠ Cancelling c) →
  (∀ c, cancelled_ctx new = Some c → m_ctxs m !! c = Some true) →
  (∀ c g, drained_ctx new = Some c → g ∈ m_gos m → (g_ctx g <= c)%nat → live g = false) → manager_ok (set_stop i new m).
Proof.
  intros H Hi Hold Hnew Hc Hd. constructor; simpl; try apply H.
  - intros c Ho. destruct (mo_open m H c Ho) as [|Hin]; [by left|right]. eapply elem_insert_ne; [done| |done]. intros E. by apply (Hold c).
  - intros c Hcur Hin. apply insert_elem in Hin as [E|Hin]; [by destruct (Hnew c)|by destruct (mo_apart m H c Hcur)].
  - intros c Hin. apply insert_elem in Hin as [E|Hin]; [by destruct (Hnew c)|by apply (mo_cancelling m H)].
  - intros s c Hs Hcc. apply insert_elem in Hs as [->|Hs]; [by apply Hc|by eapply (mo_cancelled m H)].
  - intros s c g Hs Hcc. apply insert_elem in Hs as [->|Hs]; [by apply Hd|by eapply (mo_drained m H)].
Qed.

Lemma Cancel_ok i c m : manager_ok m → m_stops m !! i = Some (Cancelling c) →
  manager_ok (set_stop i (Waiting c) (mkManager (m_runners m) (m_cancel m) (<[c := true]> (m_ctxs m)) (m_gos m) (m_wg m) (m_stops m))).
Proof.
  intros H Hi. pose proof (list_elem_of_lookup_2 _ _ _ Hi) as Hin. assert (Hcur : m_cancel m ≠ Some c) by (intros E; by apply (mo_apart m H c)). pose proof (mo_cancelling m H c Hin) as Hlt. constructor; simpl; try apply H.
  - rewrite length_insert. apply H.
  - intros c' Hc. rewrite list_lookup_insert_ne; [by apply (mo_current m H)|]. by intros ->.
  - intros c' Hc'. destruct (decide (c' = c)) as [->|Hne]; [rewrite list_lookup_insert_eq in Hc' by done; discriminate|].
    rewrite list_lookup_insert_ne in Hc' by done. destruct (mo_open m H c' Hc') as [|Ho]; [by left|right]. eapply elem_insert_ne; [done| |done]. congruence.
  - intros c' Hc' Hin'. apply insert_elem in Hin' as [|Hin']; [done|by destruct (mo_apart m H c' Hc')].
  - intros c' Hc'. rewrite length_insert. apply insert_elem in Hc' as [|Hc']; [done|]. by apply (mo_cancelling m H).
  - intros s c' Hs Hc. apply insert_elem in Hs as [->|Hs]; [injection Hc as <-; by rewrite list_lookup_insert_eq by done|].
    pose proof (mo_cancelled m H s c' Hs Hc) as Ht. destruct (decide (c' = c)) as [->|Hne]; [by rewrite list_lookup_insert_eq by done|by rewrite list_lookup_insert_ne].
  - intros s c' g Hs Hc. apply insert_elem in Hs as [->|Hs]; [discriminate|by eapply (mo_drained m H)].
Qed.

Lemma ends_ok j g o m : manager_ok m → m_gos m !! j = Some g → g_end g = None →
  ∃ m', runOne_ends j g o m = Next m' ∧ manager_ok m'.
Proof.
  intros H Hj Hg. assert (Hl : live g = true) by (unfold live; by rewrite Hg). pose proof (live_count_end _ j g o Hj Hl) as Hn. pose proof (mo_wg m H) as Hw.
  unfold runOne_ends. rewrite (proj2 (Z.ltb_ge _ _)) by lia. eexists. split; [done|]. constructor; simpl; try apply H; [lia| |].
  - rewrite list_fmap_insert, list_insert_id; [apply H|]. by rewrite list_lookup_fmap, Hj.
  - intros s c g' Hs Hc Hin Hle. apply insert_elem in Hin as [->|Hin]; [done|by eapply (mo_drained m H)].
Qed.

Lemma exec_ok l m : manager_ok m → match exec l m with Next m' => manager_ok m' | Waits => True | Crashes => False end.
Proof.
  intros H. destruct l as [| |i|i|i|i e|j o]; simpl; [by apply Start_ok|by apply Stop_ok|..].
  - destruct (m_stops m !! i) as [[c|c|c|c e]|] eqn:E; try done. by apply Cancel_ok.
  - destruct (m_stops m !! i) as [[c|c|c|c e]|] eqn:E; try done. destruct (Z.eqb_spec (m_wg m) 0) as [Hz|]; [|done].
    pose proof (list_elem_of_lookup_2 _ _ _ E) as Hin. apply (set_stop_ok i (Waiting c)); try done.
    + intros c' [= <-]. by apply (mo_cancelled m H (Waiting c)).
    + intros c' g _ Hg _. apply (live_count_zero (m_gos m)); [|done]. pose proof (mo_wg m H). lia.
  - destruct (m_stops m !! i) as [[c|c|c|c e]|] eqn:E; try done. pose proof (list_elem_of_lookup_2 _ _ _ E) as Hin.
    apply (set_stop_ok i (Drained c)); try done; [intros c' [= <-]; by apply (mo_cancelled m H (Drained c))|].
    intros c' g [= <-]. by apply (mo_drained m H (Drained c)).
  - destruct (m_stops m !! i) as [[c|c|c|c e']|] eqn:E; try done; pose proof (list_elem_of_lookup_2 _ _ _ E) as Hin;
      (eapply set_stop_ok; [done|done|done|done| |done]); intros c' [= <-]; by apply (mo_cancelled m H _ _ Hin).
  - destruct (m_gos m !! j) as [g|] eqn:E; [|done]. destruct (g_end g) eqn:Eg; [done|].
    destruct (ends_ok j g o m H E Eg) as (m' & -> & Hm'). exact Hm'.
Qed.
Lemma reached_ok k m : reached exec (NewManager k) m → manager_ok m.
Proof. apply (reached_invariant exec manager_ok); [apply NewManager_ok|]. intros l s s' H E. pose proof (exec_ok l s H) as H'. by rewrite E in H'. Qed.
Lemma exec_runners l m m' : exec l m = Next m' → m_runners m' = m_runners m.
Proof.
  destruct l; simpl; unfold Start, Stop, runOne_ends; repeat (case_match; try discriminate); by intros [= <-].
Qed.
Lemma reached_runners k m : reached exec (NewManager k) m → m_runners m = k.
Proof. apply (reached_invariant exec (λ m, m_runners m = k)); [done|]. intros l s s' H E. by rewrite (exec_runners _ _ _ E). Qed.

(** However calls of [Start] and [Stop] and the ends of runners interleave,
    no step crashes, every context has each runner started once in order, a
    runner that still runs can be stopped or was told to stop, and a call of
    [Stop] that cancelled a context and returned without an error left none of
    its runners, or of earlier ones, running. *)
Theorem manager_supervises k m : reached exec (NewManager k) m →
  (∀ l, exec l m ≠ Crashes) ∧
  (λ g, (g_ctx g, g_runner g)) <$> m_gos m = launched (length (m_ctxs m)) k ∧
  (∀ g, g ∈ m_gos m → live g = true →
    m_ctxs m !! g_ctx g = Some true ∨ m_cancel m = Some (g_ctx g) ∨ Cancelling (g_ctx g) ∈ m_stops m) ∧
  (∀ c g, Stopped (Some c) None ∈ m_stops m → g ∈ m_gos m → (g_ctx g <= c)%nat → live g = false).
Proof.
  intros Hr. pose proof (reached_ok k m Hr) as H. split_and!.
  - intros l E. pose proof (exec_ok l m H) as H'. by rewrite E in H'.
  - rewrite (mo_launched m H). by rewrite (reached_runners k m Hr).
  - intros g Hg _. pose proof (goroutine_ctx m g H Hg) as Hlt. apply lookup_lt_is_Some_2 in Hlt as [[|] Hc]; [by left|right].
    by apply (mo_open m H).
  - intros c g Hs Hg Hle. by apply (mo_drained m H (Stopped (Some c) None) c).
Qed.

(** *** Stopping ends *)

Definition rank (s : StopCall) : nat := match s with Cancelling _ => 3 | Waiting _ => 2 | Drained _ => 1 | Stopped _ _ => 0 end.
Definition sum_ranks (l : list StopCall) : nat := sum_list_with rank l.
(** What is left to do without new calls. *)
Definition left_to_do (m : Manager) : nat := live_count (m_gos m) + sum_ranks (m_stops m).
Definition is_call (l : Label) : bool := match l with LStart | LStop => true | _ => false end.

Lemma sum_ranks_insert l i old new : l !! i = Some old → (rank new < rank old)%nat → (sum_ranks (<[i := new]> l) < sum_ranks l)%nat.
Proof.
  intros Hi Hr. rewrite <-(take_drop_middle l i old Hi) at 2. rewrite insert_take_drop by by eapply lookup_lt_Some.
  unfold sum_ranks. rewrite !sum_list_with_app. simpl. lia.
Qed.

(** Without new calls every step makes progress, and when only the ends of
    runners that will not return are awaited, or nothing at all, every call of
    [Stop] that was told to stop waits for a runner or has returned. *)
Theorem stopping_ends k m : reached exec (NewManager k) m →
  (∀ l m', is_call l = false → exec l m = Next m' → (left_to_do m' < left_to_do m)%nat) ∧
  ((∀ i, exec (LCancel i) m = Waits ∧ exec (LDrained i) m = Waits ∧ exec (LReturn i) m = Waits) →
   ∀ s, s ∈ m_stops m → (∃ c e, s = Stopped c e) ∨ ∃ g, g ∈ m_gos m ∧ live g = true).
Proof.
  intros Hr. pose proof (reached_ok k m Hr) as H. split.
  - intros l m' Hl E. unfold left_to_do. destruct l as [| |i|i|i|i e|j o]; simpl in *; try discriminate.
    + destruct (m_stops m !! i) as [[c|c|c|c e']|] eqn:Ei; try discriminate. injection E as <-. apply Nat.add_lt_mono_l. eapply sum_ranks_insert; [exact Ei|simpl; lia].
    + destruct (m_stops m !! i) as [[c|c|c|c e']|] eqn:Ei; try discriminate. destruct (_ =? 0)%Z; [|discriminate].
      injection E as <-. apply Nat.add_lt_mono_l. eapply sum_ranks_insert; [exact Ei|simpl; lia].
    + destruct (m_stops m !! i) as [[c|c|c|c e']|] eqn:Ei; try discriminate. injection E as <-. apply Nat.add_lt_mono_l. eapply sum_ranks_insert; [exact Ei|simpl; lia].
    + destruct (m_stops m !! i) as [[c|c|c|c e']|] eqn:Ei; try discriminate; injection E as <-; apply Nat.add_lt_mono_l; (eapply sum_ranks_insert; [exact Ei|simpl; lia]).
    + destruct (m_gos m !! j) as [g|] eqn:Eg; [|discriminate]. destruct (g_end g) eqn:Ee; [discriminate|].
    unfold runOne_ends in E. destruct (_ <? 0)%Z; [discriminate|]. injection E as <-. simpl.
    rewrite (live_count_end _ j g o Eg); [lia|]. unfold live. by rewrite Ee.
  - intros Hw s (i & Hi)%list_elem_of_lookup_1. destruct (Hw i) as (H1 & H2 & H3). simpl in *. rewrite Hi in H1, H2, H3.
    destruct s as [c|c|c|c e]; [done| |done|left; eauto]. right. destruct (Z.eqb_spec (m_wg m) 0) as [|Hz]; [done|].
    pose proof (mo_wg m H) as Hwg. unfold live_count in Hwg. destruct (List.filter live (m_gos m)) as [|g l] eqn:E; [simpl in Hwg; lia|].
    exists g. assert (In g (List.filter live (m_gos m))) as [Hin Hg]%filter_In by (rewrite E; by left). split; [by apply list_elem_of_In|done].
Qed.

(** *** A run *)

(** Two runners are started once, told to stop, one panics, and [Stop] returns. *)
Definition full_run : list Label :=
  [LStart; LStart; LStop; LCancel 0; LEnds 0 (Returned None); LEnds 1 Panicked; LDrained 0; LReturn 0].
Lemma full_run_reached : ∃ m, exec_all exec full_run (NewManager 2) = Next m ∧ m_stops m = [Stopped (Some 0) None] ∧ reached exec (NewManager 2) m.
Proof. eexists. split; [reflexivity|]. split; [reflexivity|]. apply (exec_all_reached exec (NewManager 2) full_run (NewManager 2)); [apply reached_init|reflexivity]. Qed.

(** A second call of [Stop] returns at once, whether or not the first one's runners are done. *)
Example second_stop : ∃ m, exec_all exec [LStart; LStop; LCancel 0; LStop] (NewManager 1) = Next m ∧
  m_stops m = [Waiting 0; Stopped None None] ∧ live_count (m_gos m) = 1%nat.
Proof. eexists. repeat split. Qed.
End Manager.

Lemma manager_supervises_witness : ∃ m, exec_all Manager.exec Manager.full_run (Manager.NewManager 2) = Next m ∧
  (λ g, (Manager.g_ctx g, Manager.g_runner g)) <$> Manager.m_gos m = [(0, 0); (0, 1)]%nat ∧
  (∀ g, g ∈ Manager.m_gos m → (Manager.g_ctx g <= 0)%nat → Manager.live g = false).
Proof.
  destruct Manager.full_run_reached as (m & E & Hs & Hr). exists m. split; [exact E|].
  destruct (Manager.manager_supervises 2 m Hr) as (_ & Hl & _ & Hd). split.
  - rewrite Hl. revert E. vm_compute. intros [= <-]. reflexivity.
  - intros g. apply (Hd 0%nat). rewrite Hs. left.
Defined.

Lemma stopping_ends_witness : ∃ m, exec_all Manager.exec [Manager.LStart; Manager.LStop] (Manager.NewManager 1) = Next m ∧
  Manager.left_to_do m = 4%nat ∧ ∀ m', Manager.exec (Manager.LCancel 0) m = Next m' → (Manager.left_to_do m' < 4)%nat.
Proof.
  eexists. split; [reflexivity|]. split; [reflexivity|]. intros m' E.
  apply (proj1 (Manager.stopping_ends 1 _ (exec_all_reached Manager.exec (Manager.NewManager 1) [Manager.LStart; Manager.LStop] _ _ (reached_init _ _) eq_refl)) (Manager.LCancel 0) m' eq_refl E).
Defined.

Module Streams.
(** ** The streams of the hosts

    [HostEventWatcher]: a goroutine per running host, known by the number of
    its control block. *)

Record Stream : Type := mkStream { st_host : string; st_cancelled : bool; st_live : bool }.
(** Where [Run] stands: between two ticks, in the three parts of [reconcile],
    which waits for the streams it cancelled, or at its end. *)
Inductive At : Type :=
  | Idle | Listed (desired : gset string) | Awaiting (desired : gset string) (stopped : list nat) | Starting (desired : gset string)
  | Ending (stopped : list nat) | Ended.
(** the map of the watcher is nil at the end: it is empty *)
Record Watcher : Type := mkWatcher { w_streams : gmap string nat; w_all : list Stream; w_at : At; w_done : bool }.
Definition NewHostEventWatcher : Watcher := mkWatcher ∅ [] Idle false.

Inductive WatchLabel : Type :=
  | LTick (ids : option (list string))   (** what [ListRunningHostIDs] answers, unless it fails *)
  | LStep
  | LDone                                (** the context of [Run] ends *)
  | LStreamEnds (j : nat).               (** a goroutine returns *)

Definition at_ (a : At) (w : Watcher) : Watcher := mkWatcher (w_streams w) (w_all w) a (w_done w).
Definition cancel (s : Stream) : Stream := mkStream (st_host s) true (st_live s).
Definition cancel_all (js : list nat) (l : list Stream) : list Stream := foldr (λ j, alter cancel j) l js.
Definition ended (j : nat) (w : Watcher) : bool := match w_all w !! j with Some s => negb (st_live s) | None => true end.

(** a goroutine for every host that has none *)
Fixpoint start_all (hosts : list string) (streams : gmap string nat) (l : list Stream) : gmap string nat * list Stream :=
  match hosts with
  | [] => (streams, l)
  | h :: hosts' => start_all hosts' (<[h := length l]> streams) (l ++ [mkStream h false true])
  end.

(** the streams of the hosts in [d], and the others *)
Definition kept_in (d : gset string) (streams : gmap string nat) : gmap string nat := filter (λ p, p.1 ∈ d) streams.
Definition dropped (d : gset string) (streams : gmap string nat) : list nat := snd <$> map_to_list (filter (λ p, p.1 ∉ d) streams).

(** one part of [Run]; [<-ctl.done] waits for one goroutine after the other *)
Definition run_step (w : Watcher) : Step Watcher :=
  match w_at w with
  | Idle =>
      if w_done w then
        let stopped := snd <$> map_to_list (w_streams w) in
        Next (mkWatcher ∅ (cancel_all stopped (w_all w)) (Ending stopped) (w_done w))
      else Waits
  | Listed desired =>
      let stopped := dropped desired (w_streams w) in
      Next (mkWatcher (kept_in desired (w_streams w)) (cancel_all stopped (w_all w)) (Awaiting desired stopped) (w_done w))
  | Awaiting desired [] => Next (at_ (Starting desired) w)
  | Awaiting desired (j :: js) => if ended j w then Next (at_ (Awaiting desired js) w) else Waits
  | Starting desired =>
      let (streams, l) := start_all (elements (desired ∖ dom (w_streams w))) (w_streams w) (w_all w) in
      Next (mkWatcher streams l Idle (w_done w))
  | Ending [] => Next (at_ Ended w)
  | Ending (j :: js) => if ended j w then Next (at_ (Ending js) w) else Waits
  | Ended => Waits
  end.

Definition watch_exec (l : WatchLabel) (w : Watcher) : Step Watcher :=
  match l with
  | LTick ids =>
      match w_at w, ids with
      | Idle, Some ids => Next (at_ (Listed (list_to_set ids)) w)
      | Idle, None => Next w
      | _, _ => Waits
      end
  | LStep => run_step w
  | LDone => Next (mkWatcher (w_streams w) (w_all w) (w_at w) true)
  | LStreamEnds j =>
      match w_all w !! j with
      | Some s => if st_live s then Next (mkWatcher (w_streams w) (<[j := mkStream (st_host s) (st_cancelled s) false]> (w_all w)) (w_at w) (w_done w)) else Waits
      | None => Waits
      end
  end.

(** *** Invariant *)

Definition awaited (a : At) : list nat := match a with Awaiting _ js | Ending js => js | _ => [] end.
Definition wanted (a : At) : option (gset string) := match a with Awaiting d _ | Starting d => Some d | Ending _ | Ended => Some ∅ | _ => None end.
Record watcher_ok (w : Watcher) : Prop := {
  so_known h j : w_streams w !! h = Some j → ∃ s, w_all w !! j = Some s ∧ st_host s = h ∧ st_cancelled s = false;
  so_live j s : w_all w !! j = Some s → st_live s = true → w_streams w !! st_host s = Some j ∨ j ∈ awaited (w_at w);
  so_cancelled j s : w_all w !! j = Some s → st_live s = true → st_cancelled s = false → w_streams w !! st_host s = Some j;
  so_awaited j s : j ∈ awaited (w_at w) → w_all w !! j = Some s → st_host s ∉ dom (w_streams w);
  so_apart i j s t : i ∈ awaited (w_at w) → j ∈ awaited (w_at w) → w_all w !! i = Some s → w_all w !! j = Some t → st_host s = st_host t → i = j;
  so_wanted d : wanted (w_at w) = Some d → dom (w_streams w) ⊆ d }.

Lemma lookup_cancel_all js l j : cancel_all js l !! j = (if decide (j ∈ js) then cancel <$> l !! j else l !! j).
Proof.
  induction js as [|i js IH]; [destruct (decide _) as [Hj|]; [by apply elem_of_nil in Hj|done]|].
  change (cancel_all (i :: js) l) with (alter cancel i (cancel_all js l)). destruct (decide (i = j)) as [->|Hne].
  - rewrite list_lookup_alter_eq, IH. rewrite (decide_True (P := (j ∈ (j :: js)))) by left. destruct (decide _); [|done]. by destruct (l !! j).
  - rewrite list_lookup_alter_ne by done. rewrite IH. destruct (decide (j ∈ js)) as [Hj|Hj]; [by rewrite decide_True by by right|].
    rewrite decide_False; [done|]. by intros [->|]%elem_of_cons.
Qed.

Lemma elem_of_dropped d streams j : j ∈ dropped d streams ↔ ∃ h, streams !! h = Some j ∧ h ∉ d.
Proof.
  unfold dropped. rewrite list_elem_of_fmap. split.
  - intros ([h j'] & -> & Hp%elem_of_map_to_list). apply map_lookup_filter_Some in Hp as [? ?]. eauto.
  - intros (h & Hh & Hd). exists (h, j). split; [done|]. apply elem_of_map_to_list, map_lookup_filter_Some. done.
Qed.
Lemma drop_ok d a w : watcher_ok w → awaited (w_at w) = [] → awaited a = dropped d (w_streams w) → wanted a = Some d →
  watcher_ok (mkWatcher (kept_in d (w_streams w)) (cancel_all (dropped d (w_streams w)) (w_all w)) a (w_done w)).
Proof.
  intros H Hw Ha Hd. set (js := dropped d (w_streams w)) in *.
  assert (Hback : ∀ j s', cancel_all js (w_all w) !! j = Some s' → ∃ s, w_all w !! j = Some s ∧ st_host s' = st_host s ∧ st_live s' = st_live s ∧
                    (st_cancelled s' = false → j ∉ js ∧ st_cancelled s = false)).
  { intros j s'. rewrite lookup_cancel_all. destruct (decide (j ∈ js)); [|intros Hj; exists s'; by split_and!].
    destruct (w_all w !! j) as [s|]; [|done]. intros [= <-]. exists s. by split_and!. }
  assert (Hlive : ∀ j s, w_all w !! j = Some s → st_live s = true → w_streams w !! st_host s = Some j).
  { intros j s Hj Hl. destruct (so_live w H j s Hj Hl) as [|Hin]; [done|]. rewrite Hw in Hin. by apply elem_of_nil in Hin. }
  assert (Hjs : ∀ j s, j ∈ js → w_all w !! j = Some s → w_streams w !! st_host s = Some j ∧ st_host s ∉ d).
  { intros j s (h & Hh & Hn)%elem_of_dropped Hj. destruct (so_known w H h j Hh) as (s1 & Hs1 & <- & _). simplify_eq. done. }
  constructor; simpl.
  - intros h j [Hh Hin]%map_lookup_filter_Some. destruct (so_known w H h j Hh) as (s & Hj & Hs & Hc). exists s. split; [|done].
    rewrite lookup_cancel_all, decide_False; [done|]. intros Hjs'. destruct (Hjs j s Hjs' Hj) as [_ Hn]. by rewrite Hs in Hn.
  - intros j s' Hj Hl. destruct (Hback j s' Hj) as (s & Hs & -> & El & _). rewrite El in Hl. pose proof (Hlive j s Hs Hl) as Hh.
    destruct (decide (st_host s ∈ d)); [left; by apply map_lookup_filter_Some|right]. rewrite Ha. apply elem_of_dropped. eauto.
  - intros j s' Hj Hl Hc. destruct (Hback j s' Hj) as (s & Hs & -> & El & Hcc). rewrite El in Hl. pose proof (Hlive j s Hs Hl) as Hh.
    destruct (Hcc Hc) as [Hn _]. apply map_lookup_filter_Some. split; [done|]. simpl. destruct (decide (st_host s ∈ d)); [done|].
    destruct Hn. apply elem_of_dropped. eauto.
  - intros j s' Hin Hj. rewrite Ha in Hin. destruct (Hback j s' Hj) as (s & Hs & -> & _). destruct (Hjs j s Hin Hs) as [_ Hn].
    intros (x & [_ Hd']%map_lookup_filter_Some)%elem_of_dom. done.
  - intros i j s' t' Hi Hj Hs' Ht' E. rewrite Ha in Hi, Hj. destruct (Hback i s' Hs') as (s & Hs & Es & _). destruct (Hback j t' Ht') as (t & Ht & Et & _).
    destruct (Hjs i s Hi Hs) as [H1 _]. destruct (Hjs j t Hj Ht) as [H2 _]. rewrite <-Es, E, Et in H1. congruence.
  - intros d' E. rewrite Hd in E. injection E as <-. intros h (x & [_ Hin]%map_lookup_filter_Some)%elem_of_dom. done.
Qed.

(** A goroutine for a host that has none. *)
Lemma start_one_ok h streams l a dn : watcher_ok (mkWatcher streams l a dn) → awaited a = [] → wanted a = None → h ∉ dom streams →
  watcher_ok (mkWatcher (<[h := length l]> streams) (l ++ [mkStream h false true]) a dn).
Proof.
  intros H Hw Hn Hh. assert (Hlt : ∀ j s, l !! j = Some s → (l ++ [mkStream h false true]) !! j = Some s) by (intros; by apply lookup_app_l_Some).
  assert (Hnew : ∀ j s, (l ++ [mkStream h false true]) !! j = Some s → l !! j = Some s ∨ j = length l ∧ s = mkStream h false true).
  { intros j s [?|[? Hj]]%lookup_app_Some; [by left|right]. destruct (j - length l)%nat eqn:E; simpl in Hj; [|done]. injection Hj as <-. split; [lia|done]. }
  constructor; simpl in *; rewrite ?Hw.
  - intros h' j [[<- <-]|[Hne Hj]]%lookup_insert_Some.
    + exists (mkStream h false true). split; [|done]. rewrite lookup_app_r by lia. by rewrite Nat.sub_diag.
    + destruct (so_known _ H h' j Hj) as (s & Hs & ?). exists s. split; [by apply Hlt|done].
  - intros j s [Hj|[-> ->]]%Hnew Hl; [|left; simpl; by rewrite lookup_insert_eq]. left.
    destruct (so_live _ H j s Hj Hl) as [Hs|Hin]; simpl in *; [|rewrite Hw in Hin; by apply elem_of_nil in Hin].
    rewrite lookup_insert_ne; [done|]. intros ->. apply Hh, elem_of_dom. eauto.
  - intros j s [Hj|[-> ->]]%Hnew Hl Hc; [|simpl; by rewrite lookup_insert_eq].
    pose proof (so_cancelled _ H j s Hj Hl Hc) as Hs. simpl in Hs. rewrite lookup_insert_ne; [done|]. intros ->. apply Hh, elem_of_dom. eauto.
  - by intros j s ?%elem_of_nil.
  - by intros i j s t ?%elem_of_nil.
  - intros d. by rewrite Hn.
Qed.
Lemma start_all_ok hosts streams l a dn : NoDup hosts → (∀ h, h ∈ hosts → h ∉ dom streams) → awaited a = [] → wanted a = None →
  watcher_ok (mkWatcher streams l a dn) →
  let (streams', l') := start_all hosts streams l in
  watcher_ok (mkWatcher streams' l' a dn) ∧ dom streams' = dom streams ∪ list_to_set hosts ∧ ∀ h, h ∈ dom streams → streams' !! h = streams !! h.
Proof.
  intros Hnd Hd Hw Hn. revert streams l Hd. induction Hnd as [|h hosts Hh Hnd IH]; intros streams l Hd H; simpl; [split_and!; [done|set_solver|done]|].
  assert (Hh' : h ∉ dom streams) by (apply Hd; by left).
  specialize (IH (<[h := length l]> streams) (l ++ [mkStream h false true])). destruct (start_all _ _ _) as [streams' l'].
  destruct IH as (H1 & H2 & H3); [|by apply start_one_ok|].
  - intros h' Hin. rewrite dom_insert. intros [->%elem_of_singleton|Hc]%elem_of_union; [done|]. by apply (Hd h' ltac:(by right)).
  - split_and!; [done|rewrite H2, dom_insert_L; set_solver|]. intros h' Hc. rewrite H3 by (rewrite dom_insert; set_solver).
    rewrite lookup_insert_ne; [done|]. by intros ->.
Qed.

Lemma at_ok a w : watcher_ok w → (∀ j, j ∈ awaited a → j ∈ awaited (w_at w)) →
  (∀ j s, j ∈ awaited (w_at w) → j ∉ awaited a → w_all w !! j = Some s → st_live s = false) →
  (∀ d, wanted a = Some d → dom (w_streams w) ⊆ d) → watcher_ok (at_ a w).
Proof.
  intros H Hin Hout Hd. constructor; simpl; try apply H.
  - intros j s Hj Hl. destruct (so_live w H j s Hj Hl) as [|Hw]; [by left|]. destruct (decide (j ∈ awaited a)) as [|Hn]; [by right|].
    specialize (Hout j s Hw Hn Hj). congruence.
  - intros j s Hj. by apply (so_awaited w H), Hin.
  - intros i j s t Hi Hj. by apply (so_apart w H); apply Hin.
  - exact Hd.
Qed.
(** The wait for one goroutine is over. *)
Lemma waited_ok a j js w : watcher_ok w → awaited (w_at w) = j :: js → awaited a = js → wanted a = wanted (w_at w) → ended j w = true → watcher_ok (at_ a w).
Proof.
  intros H Hw Ha Hd He. apply at_ok; [done| | |].
  - intros i. rewrite Ha, Hw. by right.
  - intros i s. rewrite Ha, Hw. intros [->|?]%elem_of_cons Hn Hs; [|done]. unfold ended in He. rewrite Hs in He. by apply negb_true_iff in He.
  - intros d E. apply (so_wanted w H). congruence.
Qed.

Lemma run_step_ok w : watcher_ok w → match run_step w with Next w' => watcher_ok w' | _ => True end.
Proof.
  intros H. pose proof H as H0. destruct w as [streams l a dn]. unfold run_step. simpl in *. destruct a as [|d|d [|j js]|d|[|j js]|]; simpl; try done.
  - destruct dn; [|done]. pose proof (drop_ok ∅ (Ending (dropped ∅ streams)) _ H eq_refl eq_refl eq_refl) as Hk. cbn [w_streams w_all w_done] in Hk.
    assert (E1 : kept_in ∅ streams = ∅) by (apply map_empty_filter_2; intros h x _; simpl; set_solver).
    assert (E2 : dropped ∅ streams = snd <$> map_to_list streams) by (unfold dropped; do 2 f_equal; apply map_filter_id; intros h x _; simpl; set_solver).
    by rewrite E1, E2 in Hk.
  - apply (drop_ok d (Awaiting d (dropped d streams)) _ H eq_refl eq_refl eq_refl).
  - apply at_ok; [done|done|by intros j s ?%elem_of_nil|apply (so_wanted _ H)].
  - destruct (ended _ _) eqn:E; [|done]. by apply (waited_ok (Awaiting d js) j js _ H eq_refl eq_refl eq_refl).
  - pose proof (start_all_ok (elements (d ∖ dom streams)) streams l Idle dn (NoDup_elements _)) as Hs.
    destruct (start_all _ _ _) as [streams' l']. apply Hs; [|done|done|].
    + intros h Hh%elem_of_elements. set_solver.
    + by apply (at_ok Idle _ H).
  - apply at_ok; [done|done|by intros j s ?%elem_of_nil|apply (so_wanted _ H)].
  - destruct (ended _ _) eqn:E; [|done]. by apply (waited_ok (Ending js) j js _ H eq_refl eq_refl eq_refl).
Qed.
Lemma stream_ends_ok w j s : watcher_ok w → w_all w !! j = Some s →
  watcher_ok (mkWatcher (w_streams w) (<[j := mkStream (st_host s) (st_cancelled s) false]> (w_all w)) (w_at w) (w_done w)).
Proof.
  intros H Hj. set (l := <[j := _]> (w_all w)).
  assert (Hold : ∀ i t, l !! i = Some t → ∃ t0, w_all w !! i = Some t0 ∧ st_host t = st_host t0 ∧ st_cancelled t = st_cancelled t0 ∧ (st_live t = true → t = t0)).
  { intros i t. unfold l. destruct (decide (j = i)) as [<-|Hne].
    - rewrite list_lookup_insert_eq by exact (lookup_lt_Some _ _ _ Hj). intros [= <-]. exists s. by split_and!.
    - rewrite list_lookup_insert_ne by done. intros Ht. exists t. by split_and!. }
  constructor; simpl; fold l.
  - intros h i Hi. destruct (so_known w H h i Hi) as (t & Ht & Hh & Hc). destruct (decide (j = i)) as [<-|Hne].
    + exists (mkStream (st_host s) (st_cancelled s) false). unfold l. rewrite list_lookup_insert_eq by exact (lookup_lt_Some _ _ _ Hj). rewrite Hj in Ht. injection Ht as <-. by split_and!.
    + exists t. unfold l. by rewrite list_lookup_insert_ne.
  - intros i t Hi Hl. destruct (Hold i t Hi) as (t0 & Ht0 & _ & _ & E). pose proof (E Hl) as Et; rewrite Et in Hl |- *; simpl. by apply (so_live w H).
  - intros i t Hi Hl Hc. destruct (Hold i t Hi) as (t0 & Ht0 & _ & _ & E). pose proof (E Hl) as Et; rewrite Et in Hl, Hc |- *; simpl. by apply (so_cancelled w H).
  - intros i t Hi Ht. destruct (Hold i t Ht) as (t0 & Ht0 & -> & _). by apply (so_awaited w H i).
  - intros i k t u Hi Hk Ht Hu E. destruct (Hold i t Ht) as (t0 & Ht0 & Et & _). destruct (Hold k u Hu) as (u0 & Hu0 & Eu & _).
    apply (so_apart w H i k t0 u0); [done..|congruence].
  - apply (so_wanted w H).
Qed.
Lemma watch_exec_ok l w : watcher_ok w → match watch_exec l w with Next w' => watcher_ok w' | _ => True end.
Proof.
  intros H. destruct l as [ids| | |j]; simpl.
  - destruct w as [streams l a dn]. simpl. destruct a, ids; try done. by apply (at_ok (Listed _) _ H).
  - by apply run_step_ok.
  - constructor; apply H.
  - destruct (w_all w !! j) as [s|] eqn:E; [|done]. destruct (st_live s); [|done]. by apply stream_ends_ok.
Qed.
Lemma watcher_reached_ok w : reached watch_exec NewHostEventWatcher w → watcher_ok w.
Proof.
  apply (reached_invariant watch_exec watcher_ok).
  - constructor; simpl; try done; try (by intros ?? ?%elem_of_nil); by intros ???? ?%elem_of_nil.
  - intros l s s' H E. pose proof (watch_exec_ok l s H) as H'. by rewrite E in H'.
Qed.

(** C39. However ticks, the end of the watcher and the ends of goroutines
    interleave, a host has at most one goroutine that reads its events; one
    that was not cancelled is known to the watcher; and when [Run] has
    returned no goroutine is left. *)
Theorem one_stream_per_host w : reached watch_exec NewHostEventWatcher w →
  (∀ i j s t, w_all w !! i = Some s → w_all w !! j = Some t → st_live s = true → st_live t = true → st_host s = st_host t → i = j) ∧
  (∀ j s, w_all w !! j = Some s → st_live s = true → st_cancelled s = false → w_streams w !! st_host s = Some j) ∧
  (w_at w = Ended → ∀ j s, w_all w !! j = Some s → st_live s = false).
Proof.
  intros Hr%watcher_reached_ok. split_and!.
  - intros i j s t Hs Ht Ls Lt E. pose proof (so_live w Hr i s Hs Ls) as Hi. pose proof (so_live w Hr j t Ht Lt) as Hj. rewrite <-E in Hj.
    destruct Hi as [Hi|Hi], Hj as [Hj|Hj]; [congruence| | |].
    + destruct (so_awaited w Hr j t Hj Ht). rewrite <-E. apply elem_of_dom. eauto.
    + destruct (so_awaited w Hr i s Hi Hs). apply elem_of_dom. eauto.
    + by apply (so_apart w Hr i j s t).
  - intros j s Hj. by apply (so_cancelled w Hr).
  - intros E j s Hj. destruct (st_live s) eqn:El; [exfalso|done]. destruct (so_live w Hr j s Hj El) as [Hh|Hin].
    + pose proof (so_wanted w Hr ∅) as Hd. rewrite E in Hd. specialize (Hd eq_refl). assert (st_host s ∈ dom (w_streams w)) by (apply elem_of_dom; eauto). set_solver.
    + rewrite E in Hin. by apply elem_of_nil in Hin.
Qed.

(** What a reconciliation does to the hosts with streams is what [reconcile]
    says: the hosts to cancel, then, once those ended, the hosts to start,
    and the others go on as they are. *)
Theorem reconcile_implements w d : reached watch_exec NewHostEventWatcher w →
  let '(kept, cancelled, started) := reconcile d (dom (w_streams w)) in
  (w_at w = Listed d → ∃ w', run_step w = Next w' ∧ dom (w_streams w') = kept ∧
     (∀ h, h ∈ kept → w_streams w' !! h = w_streams w !! h) ∧
     (∀ j, j ∈ awaited (w_at w') ↔ ∃ h, h ∈ cancelled ∧ w_streams w !! h = Some j)) ∧
  (w_at w = Starting d → ∃ w', run_step w = Next w' ∧ dom (w_streams w') = d ∧ cancelled = ∅ ∧
     (∀ h, h ∈ kept → w_streams w' !! h = w_streams w !! h) ∧
     ∀ h, h ∈ started → ∃ j s, w_streams w' !! h = Some j ∧ w_all w' !! j = Some s ∧ st_cancelled s = false).
Proof.
  intros Hr%watcher_reached_ok. unfold reconcile. split; intros E; pose proof (run_step_ok w Hr) as Hok; unfold run_step in *; rewrite E in *.
  - eexists. split; [reflexivity|]. simpl. unfold kept_in. split_and!.
    + apply set_eq. intros h. rewrite elem_of_dom, elem_of_intersection, elem_of_dom. split.
      * intros (x & [? ?]%map_lookup_filter_Some). eauto.
      * intros [[x Hx] Hd]. exists x. by apply map_lookup_filter_Some.
    + intros h [_ Hd]%elem_of_intersection. apply option_eq. intros x. rewrite map_lookup_filter_Some. naive_solver.
    + intros j. change (j ∈ dropped d (w_streams w) ↔ ∃ h, h ∈ dom (w_streams w) ∖ d ∧ w_streams w !! h = Some j). rewrite elem_of_dropped.
      split; intros (h & H1 & H2); exists h; [split; [|done]; apply elem_of_difference; split; [apply elem_of_dom; eauto|done]|].
      apply elem_of_difference in H1 as [_ H1]. done.
  - assert (Hsub : dom (w_streams w) ⊆ d) by (apply (so_wanted w Hr); by rewrite E).
    pose proof (start_all_ok (elements (d ∖ dom (w_streams w))) (w_streams w) (w_all w) Idle (w_done w) (NoDup_elements _)) as Hs.
    destruct (start_all _ _ _) as [streams' l']. destruct Hs as (H1 & H2 & H3); [|done|done| |].
    + intros h Hh%elem_of_elements. set_solver.
    + apply (at_ok Idle w Hr); [by intros j ?%elem_of_nil| |done]. rewrite E. by intros j s ?%elem_of_nil.
    + eexists. split; [reflexivity|]. simpl. rewrite list_to_set_elements_L in H2. split_and!.
      * rewrite H2. set_unfold. intros h. destruct (decide (h ∈ d)), (decide (h ∈ dom (w_streams w))); set_solver.
      * set_solver.
      * intros h Hh. apply H3. set_solver.
      * intros h Hh. assert (h ∈ dom streams') as [j Hj]%elem_of_dom by (rewrite H2; set_solver).
        destruct (so_known _ H1 h j Hj) as (s & Hs & _ & Hc). exists j, s. done.
Qed.

(** *** A run *)

(** Two hosts run, then one: its goroutine is awaited; then the watcher ends. *)
Definition watch_run : list WatchLabel :=
  [LTick (Some ["a"; "b"]); LStep; LStep; LStep; LTick (Some ["b"]); LStep; LStreamEnds 0; LStep; LStep; LStep;
   LDone; LStep; LStreamEnds 1; LStep; LStep].
Definition after (k : nat) : Watcher :=
  match exec_all watch_exec (take k watch_run) NewHostEventWatcher with Next w => w | _ => NewHostEventWatcher end.
Lemma after_reached k : reached watch_exec NewHostEventWatcher (after k).
Proof.
  unfold after. destruct (exec_all _ _ _) as [| |w] eqn:E; [apply reached_init..|]. eapply exec_all_reached; [apply reached_init|exact E].
Qed.
End Streams.

Lemma one_stream_per_host_witness :
  Streams.w_all (Streams.after 15) = [Streams.mkStream "a" true false; Streams.mkStream "b" true false] ∧
  Streams.w_at (Streams.after 15) = Streams.Ended ∧
  (∀ j s, Streams.w_all (Streams.after 15) !! j = Some s → Streams.st_live s = false).
Proof.
  split; [vm_compute; reflexivity|]. split; [vm_compute; reflexivity|].
  apply (Streams.one_stream_per_host (Streams.after 15) (Streams.after_reached 15)). vm_compute; reflexivity.
Defined.

Lemma reconcile_implements_witness : ∃ w', Streams.run_step (Streams.after 5) = Next w' ∧ dom (Streams.w_streams w') = {["b"]} ∧
  Streams.awaited (Streams.w_at w') = [0%nat].
Proof.
  pose proof (Streams.reconcile_implements (Streams.after 5) {["b"]} (Streams.after_reached 5)) as [H _].
  destruct (H ltac:(vm_compute; reflexivity)) as (w' & E & Hd & _). exists w'. split; [exact E|]. split.
  - rewrite Hd. vm_compute. reflexivity.
  - revert E. vm_compute. intros [= <-]. reflexivity.
Defined.

(** [ListRunningHostIDs] of the store, and the tick it makes of a round *)
Definition ListRunningHostIDs : Go (list string) :=
  let* hosts := ListHostsByStatus HeadlessHostStatus_RUNNING in ret (ho_ID <$> hosts).
Definition watch_tick : Go Streams.WatchLabel :=
  let* ids := attempt ListRunningHostIDs in ret (Streams.LTick (match ids with Ok ids => Some ids | Fail _ => None end)).

(** With a database that answers, a round wants a stream for every running host and no other. *)
Lemma watch_tick_running w : w_faults w = [] → ∃ ids, watch_tick w = (Ok (Streams.LTick (Some ids)), w) ∧
  ∀ h, h ∈ ids ↔ ∃ k row, t_hosts (w_db w) !! k = Some row ∧ ho_ID row = h ∧ ho_Status row = HeadlessHostStatus_RUNNING.
Proof.
  intros Hf. unfold watch_tick, ListRunningHostIDs.
  pose proof (reads_run _ _ w (reads_query (q_ListHostsByStatus HeadlessHostStatus_RUNNING)) Hf) as Hq. unfold ListHostsByStatus.
  exists (ho_ID <$> hosts_where (λ r, (ho_Status r =? HeadlessHostStatus_RUNNING)%Z) (w_db w)). split.
  - unfold attempt, bind. by rewrite Hq.
  - intros h. unfold hosts_where. rewrite list_elem_of_fmap. split.
    + intros (row & -> & [Hr Hs%Z.eqb_eq]%elem_of_order_by%list_elem_of_In%filter_In).
      apply list_elem_of_In, elem_of_rows_of in Hr as (k & Hk). eauto.
    + intros (k & row & Hk & <- & Hs). exists row. split; [done|]. apply elem_of_order_by, list_elem_of_In, filter_In.
      split; [|by apply Z.eqb_eq]. apply list_elem_of_In, elem_of_rows_of. eauto.
Qed.

Section Observers.
(** ** The observers of new images

    An observer that panics is recovered; the others are called all the same. *)
Context {S : Type}.
Definition Subscribe (handler : ContainerImage → M S unit) (observers : list (ContainerImage → M S unit)) : list (ContainerImage → M S unit) :=
  observers ++ [handler].
Definition callObserver (latest : ContainerImage) (h : ContainerImage → M S unit) : M S unit := attempt (h latest) ;;; ret tt.
Fixpoint notify (observers : list (ContainerImage → M S unit)) (latest : ContainerImage) : M S unit :=
  match observers with
  | [] => ret tt
  | h :: observers' => callObserver latest h ;;; notify observers' latest
  end.

Lemma notify_reaches_all observers latest s : notify observers latest s = (Ok tt, fold_left (λ s h, snd (h latest s)) observers s).
Proof.
  revert s. induction observers as [|h observers IH]; intros s; [done|]. simpl. unfold callObserver, bind at 1 2, attempt.
  destruct (h latest s) as [r s']. simpl. apply IH.
Qed.
End Observers.

(** [drainingHostIDs]: the order is the map's *)
Definition drainingHostIDs (ids : list string) (o : Orchestrator) : Prop := ids ≡ₚ elements (dom (drainTargets o)).
Lemma draining_listed ids o h : drainingHostIDs ids o → h ∈ ids ↔ host_draining h o = true.
Proof.
  intros H. unfold host_draining. rewrite bool_decide_eq_true, <-elem_of_dom, <-elem_of_elements. by rewrite H.
Qed.

(** [OnNewImage]: the calls that go to a goroutine of the orchestrator, under its context *)
Definition OnNewImage (latest : option ContainerImage) : list UpgradeCall :=
  match latest with
  | Some image => if ci_IsPreRelease image then [] else [NewImage (Some image)]
  | None => []
  end.
Definition lifecycle (lifecycleCtx : option Ctx) : Ctx := match lifecycleCtx with Some ctx => ctx | None => None end.

Module Reconciles.
(** ** One reconcile of a host at a time

    [reconcileHost] of the upgrade orchestrator is called by its ticker, by the
    events of hosts and by new images, each in a goroutine of its own.  It holds
    the mutex of its host, which [hostReconcileMutex] makes on first use; the
    argument of [defer] looks it up once more. *)

(** Where a call stands: before the lookup of the mutex, waiting for it, before
    the [defer], between it and the return, or returned. *)
Inductive CallAt : Type := Looking | Locking (m : nat) | Deferring | Inside (m : nat) | Returned.
Record Call : Type := mkCall { ca_host : string; ca_at : CallAt }.
(** Mutexes are numbered as they are made; [l_held] tells which are locked. *)
Record Locks : Type := mkLocks { reconcileLock : gmap string nat; l_held : list bool; l_calls : list Call }.
Definition NewLocks : Locks := mkLocks ∅ [] [].

Definition hostReconcileMutex (hostID : string) (s : Locks) : nat * Locks :=
  match reconcileLock s !! hostID with
  | Some m => (m, s)
  | None => let m := length (l_held s) in (m, mkLocks (<[hostID := m]> (reconcileLock s)) (l_held s ++ [false]) (l_calls s))
  end.
Definition call_at (i : nat) (h : string) (a : CallAt) (s : Locks) : Locks := mkLocks (reconcileLock s) (l_held s) (<[i := mkCall h a]> (l_calls s)).
Definition set_held (m : nat) (b : bool) (s : Locks) : Locks := mkLocks (reconcileLock s) (<[m := b]> (l_held s)) (l_calls s).

Inductive ReconcileLabel : Type := LCall (hostID : string) | LGo (i : nat).
(** a step of a call; what happens inside is that of [HostUpgrade.reconcileHost] *)
Definition reconcile_exec (l : ReconcileLabel) (s : Locks) : Step Locks :=
  match l with
  | LCall h => Next (mkLocks (reconcileLock s) (l_held s) (l_calls s ++ [mkCall h Looking]))
  | LGo i =>
      match l_calls s !! i with
      | Some (mkCall h Looking) => let (m, s) := hostReconcileMutex h s in Next (call_at i h (Locking m) s)
      | Some (mkCall h (Locking m)) =>
          if bool_decide (l_held s !! m = Some true) then Waits else Next (call_at i h Deferring (set_held m true s))
      | Some (mkCall h Deferring) => let (m, s) := hostReconcileMutex h s in Next (call_at i h (Inside m) s)
      | Some (mkCall h (Inside m)) =>
          if bool_decide (l_held s !! m = Some true) then Next (call_at i h Returned (set_held m false s)) else Crashes
      | _ => Waits
      end
  end.

(** *** Invariant *)

Definition holds (c : Call) : bool := match ca_at c with Deferring | Inside _ => true | _ => false end.
(** The mutex a call has looked up. *)
Definition call_mutex (a : CallAt) : option nat := match a with Locking m | Inside m => Some m | _ => None end.
Definition looked_up (a : CallAt) : bool := match a with Looking => false | _ => true end.

Record locks_ok (s : Locks) : Prop := {
  lo_inj h1 h2 m : reconcileLock s !! h1 = Some m → reconcileLock s !! h2 = Some m → h1 = h2;
  lo_made h m : reconcileLock s !! h = Some m → (m < length (l_held s))%nat;
  lo_known i c : l_calls s !! i = Some c → looked_up (ca_at c) = true → is_Some (reconcileLock s !! ca_host c);
  lo_mutex i c m : l_calls s !! i = Some c → call_mutex (ca_at c) = Some m → reconcileLock s !! ca_host c = Some m;
  lo_held i c m : l_calls s !! i = Some c → holds c = true → reconcileLock s !! ca_host c = Some m → l_held s !! m = Some true;
  lo_one i j c c' : l_calls s !! i = Some c → l_calls s !! j = Some c' → holds c = true → holds c' = true → ca_host c = ca_host c' → i = j;
  lo_owner m : l_held s !! m = Some true → ∃ i c, l_calls s !! i = Some c ∧ holds c = true ∧ reconcileLock s !! ca_host c = Some m }.

Lemma NewLocks_ok : locks_ok NewLocks.
Proof. constructor; simpl; intros *; rewrite ?lookup_empty, ?lookup_nil; try done. Qed.

(** The lookup makes a mutex that nobody holds, or finds the one there is. *)
Lemma lookup_ok h s : locks_ok s → let (m, s') := hostReconcileMutex h s in
  locks_ok s' ∧ reconcileLock s' !! h = Some m ∧ l_calls s' = l_calls s ∧ (∀ m', l_held s !! m' = Some true → l_held s' !! m' = Some true).
Proof.
  intros H. unfold hostReconcileMutex. destruct (reconcileLock s !! h) as [m|] eqn:E; [done|].
  assert (Hkeep : ∀ h' m, reconcileLock s !! h' = Some m → <[h := length (l_held s)]> (reconcileLock s) !! h' = Some m).
  { intros h' m Hm. rewrite lookup_insert_ne; [done|]. intros ->. congruence. }
  assert (Hold : ∀ h' m, is_Some (reconcileLock s !! h') → <[h := length (l_held s)]> (reconcileLock s) !! h' = Some m → reconcileLock s !! h' = Some m).
  { intros h' m [m' Hm'] Hm. rewrite (Hkeep _ _ Hm') in Hm. congruence. }
  assert (Hh : ∀ m', l_held s !! m' = Some true → (l_held s ++ [false]) !! m' = Some true).
  { intros m' Hm'. by apply lookup_app_l_Some. }
  split; [|split; [by simpl; rewrite lookup_insert_eq|split; [done|exact Hh]]]. constructor; simpl.
  - intros h1 h2 m. rewrite !lookup_insert_Some. intros [[<- <-]|[N1 H1]] [[<- E2]|[N2 H2]]; try done.
    + pose proof (lo_made _ H _ _ H2). lia.
    + pose proof (lo_made _ H _ _ H1). lia.
    + by eapply (lo_inj _ H).
  - intros h' m. rewrite length_app, lookup_insert_Some. simpl. intros [[_ <-]|[_ Hm]]; [lia|]. pose proof (lo_made _ H _ _ Hm). lia.
  - intros i c Hc Hl. destruct (lo_known _ H i c Hc Hl) as [m Hm]. exists m. by apply Hkeep.
  - intros i c m Hc Hm. by apply Hkeep, (lo_mutex _ H i).
  - intros i c m Hc Hl Hm. apply Hh. eapply (lo_held _ H i c); [done..|]. apply Hold; [|done].
    apply (lo_known _ H i c Hc). unfold holds, looked_up in *. by destruct (ca_at c).
  - apply H.
  - intros m [Hm|[Hm E2]]%lookup_app_Some; [|by apply list_lookup_singleton_Some in E2 as []].
    destruct (lo_owner _ H m Hm) as (i & c & Hc & Hl & Hr). exists i, c. auto.
Qed.

Lemma call_at_lookup i h a s j c : l_calls (call_at i h a s) !! j = Some c → (j = i ∧ c = mkCall h a) ∨ (j ≠ i ∧ l_calls s !! j = Some c).
Proof. simpl. intros [(-> & -> & _)|[Hne Hj]]%list_lookup_insert_Some; [by left|by right]. Qed.

(** A call that goes on without taking or leaving the mutex. *)
Lemma call_at_ok i h a a' s : locks_ok s → l_calls s !! i = Some (mkCall h a) → holds (mkCall h a') = holds (mkCall h a) →
  is_Some (reconcileLock s !! h) → (∀ m, call_mutex a' = Some m → reconcileLock s !! h = Some m) → locks_ok (call_at i h a' s).
Proof.
  intros H Hi Hh Hk Hm. constructor; try apply H.
  - intros j c [[-> ->]|[_ Hj]]%call_at_lookup; [done|by apply (lo_known _ H j)].
  - intros j c m [[-> ->]|[_ Hj]]%call_at_lookup; [by apply Hm|by apply (lo_mutex _ H j)].
  - intros j c m [[-> ->]|[_ Hj]]%call_at_lookup; [rewrite Hh; exact (lo_held _ H i (mkCall h a) m Hi)|by apply (lo_held _ H j)].
  - intros j k c c' [[-> ->]|[Nj Hj]]%call_at_lookup [[-> ->]|[Nk Hk']]%call_at_lookup; [done| | |by apply (lo_one _ H)]; rewrite Hh; intros H1 H2 E.
    + exact (lo_one _ H i k _ _ Hi Hk' H1 H2 E).
    + exact (lo_one _ H j i _ _ Hj Hi H1 H2 E).
  - intros m (j & c & Hj & Hl & Hr)%(lo_owner _ H). simpl. destruct (decide (j = i)) as [->|Hne]; [|exists j, c; by rewrite list_lookup_insert_ne].
    rewrite Hi in Hj. injection Hj as <-. exists i, (mkCall h a'). rewrite list_lookup_insert_eq by by eapply lookup_lt_Some. by rewrite Hh.
Qed.

Lemma set_held_Some m b l m' v : (<[m := b]> l : list bool) !! m' = Some v → (m' = m ∧ v = b) ∨ (m' ≠ m ∧ l !! m' = Some v).
Proof. intros [(-> & -> & _)|[? ?]]%list_lookup_insert_Some; [by left|by right]. Qed.

Lemma acquire_ok i h m s : locks_ok s → l_calls s !! i = Some (mkCall h (Locking m)) → l_held s !! m ≠ Some true →
  locks_ok (call_at i h Deferring (set_held m true s)).
Proof.
  intros H Hi Hfree. pose proof (lo_mutex _ H i _ m Hi eq_refl) as Hm. simpl in Hm. pose proof (lo_made _ H _ _ Hm) as Hlt.
  assert (Hnone : ∀ j c, l_calls s !! j = Some c → holds c = true → ca_host c ≠ h).
  { intros j c Hj Hl <-. by apply Hfree, (lo_held _ H j c). }
  constructor; try apply H.
  - intros h' m' Hm'. simpl. rewrite length_insert. by eapply (lo_made _ H).
  - intros j c [[-> ->]|[_ Hj]]%call_at_lookup; [by eexists|by apply (lo_known _ H j)].
  - intros j c m' [[-> ->]|[_ Hj]]%call_at_lookup; [done|by apply (lo_mutex _ H j)].
  - intros j c m' [[-> ->]|[_ Hj]]%call_at_lookup Hl Hr; simpl in *.
    + rewrite Hm in Hr. injection Hr as <-. by rewrite list_lookup_insert_eq.
    + rewrite list_lookup_insert_ne; [by apply (lo_held _ H j c)|]. intros <-. apply (Hnone j c Hj Hl). by apply (lo_inj _ H _ _ m).
  - intros j k c c' [[-> ->]|[Nj Hj]]%call_at_lookup [[-> ->]|[Nk Hk]]%call_at_lookup H1 H2 E; simpl in *.
    + done.
    + by destruct (Hnone k c' Hk H2).
    + by destruct (Hnone j c Hj H1).
    + exact (lo_one _ H j k _ _ Hj Hk H1 H2 E).
  - intros m' Hm'. simpl in *. apply set_held_Some in Hm' as [[-> _]|[Nm Hm']].
    + exists i, (mkCall h Deferring). by rewrite list_lookup_insert_eq by by eapply lookup_lt_Some.
    + apply (lo_owner _ H) in Hm' as (j & c & Hj & Hl & Hr). exists j, c. rewrite list_lookup_insert_ne; [done|]. intros ->. rewrite Hi in Hj. injection Hj as <-. done.
Qed.

Lemma release_ok i h m s : locks_ok s → l_calls s !! i = Some (mkCall h (Inside m)) →
  locks_ok (call_at i h Returned (set_held m false s)).
Proof.
  intros H Hi. pose proof (lo_mutex _ H i _ m Hi eq_refl) as Hm. simpl in Hm.
  assert (Hnone : ∀ j c, j ≠ i → l_calls s !! j = Some c → holds c = true → ca_host c ≠ h).
  { intros j c Hne Hj Hl <-. by apply Hne, (lo_one _ H j i c _ Hj Hi). }
  constructor; try apply H.
  - intros h' m' Hm'. simpl. rewrite length_insert. by eapply (lo_made _ H).
  - intros j c [[-> ->]|[_ Hj]]%call_at_lookup; [by eexists|by apply (lo_known _ H j)].
  - intros j c m' [[-> ->]|[_ Hj]]%call_at_lookup; [done|by apply (lo_mutex _ H j)].
  - intros j c m' [[-> ->]|[Nj Hj]]%call_at_lookup Hl Hr; simpl in *; [done|].
    rewrite list_lookup_insert_ne; [by apply (lo_held _ H j c)|]. intros <-. apply (Hnone j c Nj Hj Hl). by apply (lo_inj _ H _ _ m).
  - intros j k c c' [[-> ->]|[Nj Hj]]%call_at_lookup [[-> ->]|[Nk Hk]]%call_at_lookup H1 H2 E; [done..|]. exact (lo_one _ H j k _ _ Hj Hk H1 H2 E).
  - intros m' Hm'. simpl in *. apply set_held_Some in Hm' as [[_ ?]|[Nm Hm']]; [done|].
    apply (lo_owner _ H) in Hm' as (j & c & Hj & Hl & Hr). exists j, c. rewrite list_lookup_insert_ne; [done|]. intros ->. rewrite Hi in Hj. injection Hj as <-.
    simpl in Hr. congruence.
Qed.

Lemma new_call_ok h s : locks_ok s → locks_ok (mkLocks (reconcileLock s) (l_held s) (l_calls s ++ [mkCall h Looking])).
Proof.
  intros H. assert (Hn : ∀ i c, (l_calls s ++ [mkCall h Looking]) !! i = Some c → l_calls s !! i = Some c ∨ c = mkCall h Looking).
  { intros i c [Hc|[_ Hc]]%lookup_app_Some; [by left|]. apply list_lookup_singleton_Some in Hc as [_ <-]. by right. }
  constructor; simpl; try apply H.
  - intros i c [Hc| ->]%Hn; [by apply (lo_known _ H i)|done].
  - intros i c m [Hc| ->]%Hn; [by apply (lo_mutex _ H i)|done].
  - intros i c m [Hc| ->]%Hn; [by apply (lo_held _ H i)|done].
  - intros i j c c' [Hc| ->]%Hn [Hc'| ->]%Hn; [by apply (lo_one _ H)|done..].
  - intros m (i & c & Hc & Hr)%(lo_owner _ H). exists i, c. split; [by apply lookup_app_l_Some|done].
Qed.

Lemma reconcile_exec_ok l s : locks_ok s → match reconcile_exec l s with Next s' => locks_ok s' | Waits => True | Crashes => False end.
Proof.
  intros H. destruct l as [h|i]; simpl; [by apply new_call_ok|]. destruct (l_calls s !! i) as [[h [|m| |m|]]|] eqn:Hi; try done.
  - pose proof (lookup_ok h s H) as Hl. destruct (hostReconcileMutex h s) as [m s']. destruct Hl as (H' & Hm & Hc & _).
    eapply call_at_ok; [done|by rewrite Hc|done|by exists m|by intros ? [= <-]].
  - case_bool_decide as Hh; [done|]. by apply acquire_ok.
  - pose proof (lookup_ok h s H) as Hl. destruct (hostReconcileMutex h s) as [m s']. destruct Hl as (H' & Hm & Hc & _).
    eapply call_at_ok; [done|by rewrite Hc|done|by exists m|by intros ? [= <-]].
  - rewrite bool_decide_eq_true_2; [by apply release_ok|]. by apply (lo_held _ H i _ m Hi eq_refl), (lo_mutex _ H i _ m Hi).
Qed.
Lemma reconcile_reached_ok s : reached reconcile_exec NewLocks s → locks_ok s.
Proof.
  apply (reached_invariant reconcile_exec locks_ok); [apply NewLocks_ok|]. intros l s1 s2 H E. pose proof (reconcile_exec_ok l s1 H) as H'. by rewrite E in H'.
Qed.

(** C34. However the calls of [reconcileHost] interleave, nobody unlocks a mutex
    that is not locked, two calls that are past their lock are for two hosts,
    and a call that has to wait waits for one of the same host that can go on. *)
Theorem reconciles_exclude s : reached reconcile_exec NewLocks s →
  (∀ l, reconcile_exec l s ≠ Crashes) ∧
  (∀ i j c c', l_calls s !! i = Some c → l_calls s !! j = Some c' → holds c = true → holds c' = true → i ≠ j → ca_host c ≠ ca_host c') ∧
  (∀ i h m, l_calls s !! i = Some (mkCall h (Locking m)) → reconcile_exec (LGo i) s = Waits →
     ∃ j c s', j ≠ i ∧ l_calls s !! j = Some c ∧ ca_host c = h ∧ reconcile_exec (LGo j) s = Next s').
Proof.
  intros H%reconcile_reached_ok. split_and!.
  - intros l E. pose proof (reconcile_exec_ok l s H) as H'. by rewrite E in H'.
  - intros i j c c' Hi Hj H1 H2 Hne E. by apply Hne, (lo_one _ H i j c c').
  - intros i h m Hi. simpl. rewrite Hi. case_bool_decide as Hh; [intros _|done].
    destruct (lo_owner _ H m Hh) as (j & [h' a] & Hj & Hl & Hr). simpl in Hr.
    assert (h' = h) as -> by by apply (lo_inj _ H _ _ m Hr), (lo_mutex _ H i _ m Hi).
    assert (j ≠ i) as Hne by (intros ->; rewrite Hi in Hj; injection Hj as <-; done).
    pose proof (reconcile_exec_ok (LGo j) s H) as Hok. simpl in Hok. exists j, (mkCall h a). rewrite Hj in *.
    destruct a as [|m'| |m'|]; try done.
    + destruct (hostReconcileMutex h s) as [m' s']. by eexists.
    + rewrite (bool_decide_eq_true_2 (l_held s !! m' = Some true)); [by eexists|]. rewrite <-Hh. f_equal.
      pose proof (lo_mutex _ H j _ m' Hj eq_refl) as Hm'. simpl in Hm'. congruence.
Qed.
End Reconciles.

Lemma reconciles_exclude_witness : ∃ s s', exec_all Reconciles.reconcile_exec
    [Reconciles.LCall "h1"; Reconciles.LGo 0; Reconciles.LGo 0; Reconciles.LCall "h1"; Reconciles.LGo 1] Reconciles.NewLocks = Next s ∧
  Reconciles.reconcile_exec (Reconciles.LGo 1) s = Waits ∧
  ∃ j c, j ≠ 1%nat ∧ Reconciles.l_calls s !! j = Some c ∧ Reconciles.ca_host c = "h1" ∧ Reconciles.reconcile_exec (Reconciles.LGo j) s = Next s'.
Proof.
  set (s := Reconciles.mkLocks {["h1" := 0%nat]} [true] [Reconciles.mkCall "h1" Reconciles.Deferring; Reconciles.mkCall "h1" (Reconciles.Locking 0)]).
  assert (E : exec_all Reconciles.reconcile_exec
    [Reconciles.LCall "h1"; Reconciles.LGo 0; Reconciles.LGo 0; Reconciles.LCall "h1"; Reconciles.LGo 1] Reconciles.NewLocks = Next s) by (vm_compute; reflexivity).
  pose proof (exec_all_reached Reconciles.reconcile_exec _ _ _ _ (reached_init _ _) E) as Hr.
  destruct (proj2 (proj2 (Reconciles.reconciles_exclude s Hr)) 1%nat "h1" 0%nat eq_refl) as (j & c & s' & Hj); [vm_compute; reflexivity|].
  exists s, s'. split; [exact E|]. split; [vm_compute; reflexivity|]. exists j, c. exact Hj.
Defined.
