(* ===== verification/Operations.v ===== *)
(** * Running the server

    [src/config/config.go] and the start of [src/cmd/server/main.go]: the
    configuration from the environment; the rest of [main] and
    [ListenAndServe] and [Shutdown] of [src/app/server.go]: the process as a
    machine over the one of its workers; [src/lib/blobstore/blobstore.go] and
    the download handler of [src/app/server.go]: blobs behind an object store;
    [src/cmd/cli/commands]: the commands of the operator, which act as the
    system user. *)

From S2P Require Import Prelude Entity Json GoStrings Digest Models Queries Ports PermissionUsecase Repositories GroupUsecase UserUsecase.
From S2P Require Import RpcPermission AuthTokens Headless Resources SessionRepo Claims ScheduledOps ScheduledRepo ScheduledUsecase.
From S2P Require Import SessionUsecase SessionTheorems Messages HostQueries HostRepo HostUsecase HostSafety HostTheorems DockerConnector ResoniteLink Skyfrost Rfc3339 Accounts PermissionSystem StoreInvariant PermissionSafety SessionSafety SessionRedelivery ScheduledSafety Supervisor.
From stdpp Require Import base gmap strings list.
From Stdlib Require Import ZArith Lia Ascii.

Module Config.
(** ** The configuration *)

Record GRPCConfig : Type := mkGRPC { g_ConnectTimeout : Z; g_CallTimeout : Z }.
Record WorkerConfig : Type := mkWorkerConfig {
  ImageCheckInterval : Z; AutoPullNewImage : bool; EventReconnectDelay : Z; EventMaxReconnectWait : Z; HostEventPollInterval : Z;
  UpgradeCheckInterval : Z }.
Record ServerConfig : Type := mkServerConfig {
  Host : string; FrontDevMode : bool; FrontDevURL : string; ShutdownTimeout : Z; SessionPortMin : Z; SessionPortMax : Z }.
Record ResoniteLinkConfig : Type := mkLinkConfig { TokenTTL : Z; ReadyTimeout : Z; AllowedOrigins : list string }.
Record RustFSConfig : Type := mkRustFS {
  Endpoint : string; AccessKey : string; SecretKey : string; UseSSL : bool; WorldDownloadsBucket : string; BlobTTLDays : Z }.
Record EnvConfig : Type := mkEnvConfig {
  DatabaseURL : string; JWTSecret : string; Docker : DockerConfig; GRPC : GRPCConfig; Worker : WorkerConfig; Server : ServerConfig;
  ResoniteLink : ResoniteLinkConfig; RustFS : RustFSConfig }.

Section Env.
(** the environment, and [time.ParseDuration] in nanoseconds *)
Context (Getenv : string → string) (ParseDuration : string → option Z).

Definition getEnvWithDefault (key defaultValue : string) : string :=
  let v := Getenv key in if bool_decide (v = EmptyString) then defaultValue else v.
Definition getEnvDuration (key : string) (defaultValue : Z) : Z :=
  let v := Getenv key in
  if bool_decide (v = EmptyString) then defaultValue else match ParseDuration v with Some d => d | None => defaultValue end.
Definition getEnvInt (key : string) (defaultValue : Z) : Z :=
  let v := Getenv key in
  if bool_decide (v = EmptyString) then defaultValue else match Atoi v with Some n => n | None => defaultValue end.
(** the product of the seconds wraps around *)
Definition getEnvDurationSec (key : string) (defaultValue : Z) : Z :=
  let v := Getenv key in
  if bool_decide (v = EmptyString) then defaultValue
  else match Atoi v with
       | Some seconds => if (0 <? seconds)%Z then Skyfrost.int64 (seconds * time_Second) else defaultValue
       | None => defaultValue
       end.
Definition parseCSV (s : string) : list string :=
  if bool_decide (s = EmptyString) then []
  else List.filter (λ p, negb (bool_decide (p = EmptyString))) (strings_TrimSpace <$> Split ","%char s).

Definition parseSessionPortEnv : Result (Z * Z) :=
  let portMinStr := Getenv "SESSION_PORT_MIN" in
  let portMaxStr := Getenv "SESSION_PORT_MAX" in
  let min_set := negb (bool_decide (portMinStr = EmptyString)) in
  let max_set := negb (bool_decide (portMaxStr = EmptyString)) in
  if min_set && max_set then
    match Atoi portMinStr, Atoi portMaxStr with
    | None, _ => Fail (EMsg ("invalid SESSION_PORT_MIN: " +:+ portMinStr))
    | _, None => Fail (EMsg ("invalid SESSION_PORT_MAX: " +:+ portMaxStr))
    | Some portMin, Some portMax =>
        if ((portMin <? 1024) || (65535 <? portMin))%Z then
          Fail (EMsg ("SESSION_PORT_MIN(" +:+ fmt_d portMin +:+ ") must be between 1024 and 65535"))
        else if ((portMax <? 1) || (65535 <? portMax))%Z then
          Fail (EMsg ("SESSION_PORT_MAX(" +:+ fmt_d portMax +:+ ") must be between 1 and 65535"))
        else if (portMax <? portMin)%Z then
          Fail (EMsg ("invalid port range: SESSION_PORT_MIN(" +:+ fmt_d portMin +:+ ") > SESSION_PORT_MAX(" +:+ fmt_d portMax +:+ ")"))
        else Ok (portMin, portMax)
    end
  else if min_set || max_set then Fail (EMsg "SESSION_PORT_MIN and SESSION_PORT_MAX must both be set or both be unset")
  else Ok (0%Z, 0%Z).

Definition is_true (key : string) : bool := bool_decide (Getenv key = "true").
Definition LoadEnvConfig : Result EnvConfig :=
  rbind parseSessionPortEnv (λ '(portMin, portMax), Ok (mkEnvConfig
    (Getenv "DB_URL") (Getenv "JWT_SECRET")
    (mkDockerConfig (Getenv "HEADLESS_IMAGE_NAME") (Getenv "CONTAINER_LOGS_FLUENTD_ADDRESS") (Getenv "GHCR_AUTH_TOKEN") (Getenv "HEADLESS_REGISTRY_AUTH"))
    (mkGRPC (getEnvDuration "GRPC_CONNECT_TIMEOUT" (5 * time_Second)) (getEnvDuration "GRPC_CALL_TIMEOUT" (10 * time_Second)))
    (mkWorkerConfig (getEnvDurationSec "IMAGE_CHECK_INTERVAL_SEC" (15 * time_Second)) (is_true "AUTO_PULL_NEW_IMAGE")
       (getEnvDuration "EVENT_WATCHER_RECONNECT_DELAY" (5 * time_Second)) (getEnvDuration "EVENT_WATCHER_MAX_RECONNECT_WAIT" (5 * time_Minute))
       (getEnvDuration "HOST_EVENT_POLL_INTERVAL" (10 * time_Second)) (getEnvDuration "UPGRADE_CHECK_INTERVAL" time_Minute))
    (mkServerConfig (getEnvWithDefault "HOST" ":8014") (is_true "FDEV") (getEnvWithDefault "FDEV_URL" "http://localhost:5173")
       (getEnvDuration "SHUTDOWN_TIMEOUT" (10 * time_Second)) portMin portMax)
    (mkLinkConfig (getEnvDuration "RESONITE_LINK_TOKEN_TTL" (5 * time_Hour)) (getEnvDuration "RESONITE_LINK_READY_TIMEOUT" (5 * time_Second))
       (parseCSV (Getenv "RESONITE_LINK_ALLOWED_ORIGINS")))
    (mkRustFS (Getenv "RUSTFS_ENDPOINT") (Getenv "RUSTFS_ACCESS_KEY") (Getenv "RUSTFS_SECRET_KEY") (is_true "RUSTFS_USE_SSL")
       (Getenv "WORLD_DOWNLOADS_BUCKET_NAME") (getEnvInt "BLOB_TTL_DAYS" 3)))).
End Env.

Definition required (s what : string) : Result unit := if bool_decide (s = EmptyString) then Fail (EMsg (what +:+ " is required")) else Ok tt.
Definition Validate (c : EnvConfig) : Result unit :=
  rbind (required (JWTSecret c) "JWT_SECRET") (λ _, rbind (required (DatabaseURL c) "DB_URL") (λ _,
  rbind (required (HeadlessImageName (Docker c)) "HEADLESS_IMAGE_NAME") (λ _, rbind (required (Endpoint (RustFS c)) "RUSTFS_ENDPOINT") (λ _,
  rbind (required (AccessKey (RustFS c)) "RUSTFS_ACCESS_KEY") (λ _, rbind (required (SecretKey (RustFS c)) "RUSTFS_SECRET_KEY") (λ _,
  rbind (required (WorldDownloadsBucket (RustFS c)) "WORLD_DOWNLOADS_BUCKET_NAME") (λ _,
  if (BlobTTLDays (RustFS c) <=? 0)%Z then Fail (EMsg "BLOB_TTL_DAYS must be a positive integer") else Ok tt))))))).

(** the flags that were given *)
Record Flags : Type := mkFlags { fl_host : option string; fl_fdev : option bool; fl_fdev_url : option string }.
Definition applyFlagOverrides (f : Flags) (c : EnvConfig) : EnvConfig :=
  let s := Server c in
  mkEnvConfig (DatabaseURL c) (JWTSecret c) (Docker c) (GRPC c) (Worker c)
    (mkServerConfig (default (Host s) (fl_host f)) (default (FrontDevMode s) (fl_fdev f)) (default (FrontDevURL s) (fl_fdev_url f))
       (ShutdownTimeout s) (SessionPortMin s) (SessionPortMax s)) (ResoniteLink c) (RustFS c).
(** [main], up to the start of the server *)
Definition startup (Getenv : string → string) (ParseDuration : string → option Z) (f : Flags) : Result EnvConfig :=
  rbind (LoadEnvConfig Getenv ParseDuration) (λ c, let c := applyFlagOverrides f c in rbind (Validate c) (λ _, Ok c)).

(** *** Theorems *)

(** A configured range of ports: none, or unprivileged ports in order. *)
Definition ports_ok (s : ServerConfig) : Prop :=
  (SessionPortMin s = 0 ∧ SessionPortMax s = 0)%Z ∨ (1024 <= SessionPortMin s <= SessionPortMax s ∧ SessionPortMax s <= 65535)%Z.
Definition valid (c : EnvConfig) : Prop :=
  JWTSecret c ≠ EmptyString ∧ DatabaseURL c ≠ EmptyString ∧ HeadlessImageName (Docker c) ≠ EmptyString ∧ Endpoint (RustFS c) ≠ EmptyString ∧
  AccessKey (RustFS c) ≠ EmptyString ∧ SecretKey (RustFS c) ≠ EmptyString ∧ WorldDownloadsBucket (RustFS c) ≠ EmptyString ∧
  (0 < BlobTTLDays (RustFS c))%Z.

Lemma required_Ok s what : required s what = Ok tt ↔ s ≠ EmptyString.
Proof. unfold required. case_bool_decide; naive_solver. Qed.
Lemma rbind_unit (r : Result unit) (k : unit → Result unit) : rbind r k = Ok tt ↔ r = Ok tt ∧ k tt = Ok tt.
Proof. destruct r as [[]|]; simpl; naive_solver. Qed.
Lemma Validate_exact c : Validate c = Ok tt ↔ valid c.
Proof.
  unfold Validate, valid. rewrite !rbind_unit, !required_Ok. destruct (Z.leb_spec (BlobTTLDays (RustFS c)) 0) as [Hl|Hl]; split; intros H; [destruct H as (_ & _ & _ & _ & _ & _ & _ & [=])|lia|tauto|tauto].
Qed.
Lemma parseSessionPortEnv_range Getenv min max : parseSessionPortEnv Getenv = Ok (min, max) →
  (min = 0 ∧ max = 0)%Z ∨ (1024 <= min <= max ∧ max <= 65535)%Z.
Proof.
  unfold parseSessionPortEnv. cbv zeta. destruct (_ && _); [|destruct (_ || _); [done|intros [= <- <-]; by left]].
  destruct (Atoi _) as [a|]; [|done]. destruct (Atoi _) as [b|]; [|done].
  destruct ((a <? 1024) || (65535 <? a))%Z eqn:E1; [done|]. destruct ((b <? 1) || (65535 <? b))%Z eqn:E2; [done|].
  destruct (b <? a)%Z eqn:E3; [done|]. apply orb_false_iff in E1 as [?%Z.ltb_ge ?%Z.ltb_ge]. apply orb_false_iff in E2 as [_ ?%Z.ltb_ge]. apply Z.ltb_ge in E3.
  intros [= <- <-]. right. lia.
Qed.

(** The server starts only with everything it needs and a range of ports that
    is empty or unprivileged, in order and within 16 bits. *)
Lemma startup_ok Getenv ParseDuration f c : startup Getenv ParseDuration f = Ok c → valid c ∧ ports_ok (Server c).
Proof.
  unfold startup, LoadEnvConfig. destruct (parseSessionPortEnv Getenv) as [[min max]|e] eqn:E; [|done]. simpl.
  destruct (Validate _) as [[]|] eqn:Ev; [|done]. intros [= <-]. split; [by apply Validate_exact|].
  apply (parseSessionPortEnv_range _ _ _ E).
Qed.

Section Ports.
Context {PP : PortProbe}.
(** A server that starts gives its sessions free ports of that range, or none
    if there is no range. *)
Theorem started_session_ports Getenv ParseDuration f c ttl free w :
  startup Getenv ParseDuration f = Ok c → (∀ p w, isPortAvailable p w = (Ok (free p), w)) → (0 <= w_now w)%Z →
  match fst (getFreeSessionPort (NewSessionUsecase (SessionPortMin (Server c)) (SessionPortMax (Server c)) ttl) w) with
  | Ok p => (p = 0 ∧ SessionPortMin (Server c) = 0)%Z ∨
            (1024 <= p <= 65535 ∧ SessionPortMin (Server c) <= p <= SessionPortMax (Server c))%Z ∧ free p = true
  | Fail _ => ∀ p, (SessionPortMin (Server c) <= p <= SessionPortMax (Server c))%Z → free p = false
  end.
Proof.
  intros [_ Hp]%startup_ok Hfree Hw. set (u := NewSessionUsecase _ _ _). destruct Hp as [[E1 E2]|[Hr Hm]].
  - unfold getFreeSessionPort. unfold u. simpl. rewrite E1, E2. simpl. by left.
  - destruct (getFreeSessionPort_exact _ u free w Hfree ltac:(simpl; lia) Hw) as (r & E & H). rewrite E. simpl in *. destruct r as [p|e]; [|done].
    right. split; [lia|apply H].
Qed.
End Ports.

(** A secret of one to nine characters passes the validation, but then no
    token can be signed: the server starts and nobody can log in. *)
Example short_secret : ∃ c, valid c ∧ ∀ (JW : JWT) fs rc, is_Ok (signJWT (JWTSecret c) fs rc) = false.
Proof.
  exists (mkEnvConfig "db" "secret" (mkDockerConfig "image" EmptyString EmptyString EmptyString) (mkGRPC 0 0) (mkWorkerConfig 0 false 0 0 0 0)
           (mkServerConfig EmptyString false EmptyString 0 0 0) (mkLinkConfig 0 0 []) (mkRustFS "e" "a" "s" false "b" 3)).
  split; [by vm_compute|]. intros JW fs rc. reflexivity.
Qed.
(** An interval so large that its nanoseconds wrap around is negative. *)
Example wrapped_interval : getEnvDurationSec (λ _, "10000000000") "IMAGE_CHECK_INTERVAL_SEC" 15 = (-8446744073709551616)%Z.
Proof. reflexivity. Qed.
End Config.

Module Process.
(** ** The server: its start and its end

    [main] and [Server.ListenAndServe], which runs in a goroutine of its own,
    with the manager of the workers.  [Shutdown] stops the workers in one more
    goroutine while it waits for the requests that [http.Server] tracks.  A
    handler can take its connection over (hijack it), as the relay of
    /resonite-link/ws does when it accepts a web socket: from then on
    [http.Server] does not track it, and [Shutdown] neither waits for it nor
    closes it. *)

(** Where [ListenAndServe] stands. *)
Inductive Serving : Type := EnsuringBucket | StartingWorkers | Routing | Binding | Accepting | Served (err : Err).
(** Where [main] stands: it waits for a signal or an error, it looks at the
    HTTP server, waits for its requests, waits for the workers, or is over. *)
Inductive Main : Type := Selecting | ClosingHttp | AwaitingIdle | JoiningWorkers (httpErr : option Err) | Exited (err : option Err).
(** the goroutine of [Shutdown] that calls [workerManager.Stop] *)
Inductive Stopper : Type := NotSpawned | Spawned | Called.
(** [p_http]: [s.httpServer], nil or with whether it was shut down;
    [p_requests]: the requests it tracks; [p_sockets]: the connections that
    were taken over and are still served. *)
Record Process : Type := mkProcess {
  p_serving : Serving; p_main : Main; p_stopper : Stopper; p_http : option bool; p_requests : nat; p_sockets : nat; p_workers : Manager.Manager }.

Inductive ProcessLabel : Type :=
  | LBucket (err : option Err)
  | LStartWorkers
  | LRoute
  | LBind (err : option Err)
  | LRequest
  | LRequestEnds
  | LHijack
  | LSocketEnds
  | LServeEnds (err : Err)
  | LSignal
  | LServerError
  | LStopWorkers
  | LCloseHttp
  | LHttpIdle
  | LHttpDeadline (err : Err)
  | LJoin
  | LWorker (l : Manager.Label).

Definition serving (s : Serving) (p : Process) : Process := mkProcess s (p_main p) (p_stopper p) (p_http p) (p_requests p) (p_sockets p) (p_workers p).
Definition in_main (m : Main) (p : Process) : Process := mkProcess (p_serving p) m (p_stopper p) (p_http p) (p_requests p) (p_sockets p) (p_workers p).
Definition with_requests (n : nat) (p : Process) : Process := mkProcess (p_serving p) (p_main p) (p_stopper p) (p_http p) n (p_sockets p) (p_workers p).
Definition with_sockets (n : nat) (p : Process) : Process := mkProcess (p_serving p) (p_main p) (p_stopper p) (p_http p) (p_requests p) n (p_workers p).
Definition with_workers (m : Manager.Manager) (p : Process) : Process := mkProcess (p_serving p) (p_main p) (p_stopper p) (p_http p) (p_requests p) (p_sockets p) m.
Definition http_ErrServerClosed : Err := EMsg "http: Server closed".

Section Server.
(** the error of parsing the URL of the development server, if it is given and wrong *)
Context (front_error : option Err).

Definition ListenAndServe_step (l : ProcessLabel) (p : Process) : Step Process :=
  match l, p_serving p with
  | LBucket (Some e), EnsuringBucket => Next (serving (Served e) p)
  | LBucket None, EnsuringBucket => Next (serving StartingWorkers p)
  | LStartWorkers, StartingWorkers => Next (serving Routing (with_workers (Manager.Start (p_workers p)) p))
  | LRoute, Routing =>
      match front_error with
      | Some e => Next (serving (Served e) p)
      | None => Next (mkProcess Binding (p_main p) (p_stopper p) (Some false) (p_requests p) (p_sockets p) (p_workers p))
      end
  | LBind err, Binding =>
      if bool_decide (p_http p = Some true) then Next (serving (Served http_ErrServerClosed) p)
      else match err with Some e => Next (serving (Served e) p) | None => Next (serving Accepting p) end
  | LRequest, Accepting => if bool_decide (p_http p = Some false) then Next (with_requests (S (p_requests p)) p) else Waits
  | LServeEnds e, Accepting => Next (serving (Served (if bool_decide (p_http p = Some true) then http_ErrServerClosed else e)) p)
  | _, _ => Waits
  end.

(** [s.Shutdown]: the select of [main] that leads to it, and its steps *)
Definition begin_shutdown (p : Process) : Process :=
  mkProcess (p_serving p) ClosingHttp Spawned (p_http p) (p_requests p) (p_sockets p) (p_workers p).
Definition Shutdown_step (l : ProcessLabel) (p : Process) : Step Process :=
  match l, p_main p with
  | LSignal, Selecting => Next (begin_shutdown p)
  | LServerError, Selecting => match p_serving p with Served _ => Next (begin_shutdown p) | _ => Waits end
  | LCloseHttp, ClosingHttp =>
      match p_http p with
      | None => Next (in_main (JoiningWorkers None) p)
      | Some _ => Next (mkProcess (p_serving p) AwaitingIdle (p_stopper p) (Some true) (p_requests p) (p_sockets p) (p_workers p))
      end
  | LHttpIdle, AwaitingIdle => if (p_requests p =? 0)%nat then Next (in_main (JoiningWorkers None) p) else Waits
  | LHttpDeadline e, AwaitingIdle => Next (in_main (JoiningWorkers (Some e)) p)
  | LJoin, JoiningWorkers httpErr =>
      match Manager.m_stops (p_workers p) with
      | [Manager.Stopped _ workerErr] => Next (in_main (Exited (match httpErr with Some e => Some e | None => workerErr end)) p)
      | _ => Waits
      end
  | _, _ => Waits
  end.

Definition process_exec (l : ProcessLabel) (p : Process) : Step Process :=
  match p_main p with
  | Exited _ => Waits
  | _ =>
      match l with
      | LBucket _ | LStartWorkers | LRoute | LBind _ | LRequest | LServeEnds _ => ListenAndServe_step l p
      | LRequestEnds => match p_requests p with 0%nat => Waits | S n => Next (with_requests n p) end
      | LHijack => match p_requests p with 0%nat => Waits | S n => Next (with_sockets (S (p_sockets p)) (with_requests n p)) end
      | LSocketEnds => match p_sockets p with 0%nat => Waits | S n => Next (with_sockets n p) end
      | LSignal | LServerError | LCloseHttp | LHttpIdle | LHttpDeadline _ | LJoin => Shutdown_step l p
      | LStopWorkers =>
          match p_stopper p with
          | Spawned => Next (mkProcess (p_serving p) (p_main p) Called (p_http p) (p_requests p) (p_sockets p) (Manager.Stop (p_workers p)))
          | _ => Waits
          end
      | LWorker l =>
          if Manager.is_call l then Waits
          else match Manager.exec l (p_workers p) with Next m => Next (with_workers m p) | Waits => Waits | Crashes => Crashes end
      end
  end.
End Server.

Definition NewServer (runners : nat) : Process := mkProcess EnsuringBucket Selecting NotSpawned None 0 0 (Manager.NewManager runners).

(** *** Invariant *)

Definition stop_ctx (s : Manager.StopCall) : option nat :=
  match s with Manager.Cancelling c | Manager.Waiting c | Manager.Drained c => Some c | Manager.Stopped c _ => c end.
(** What a step of a runner or of a call of [Stop] leaves alone. *)
Lemma inner_step l m m' : Manager.is_call l = false → Manager.exec l m = Next m' →
  length (Manager.m_ctxs m') = length (Manager.m_ctxs m) ∧ Manager.m_cancel m' = Manager.m_cancel m ∧
  stop_ctx <$> Manager.m_stops m' = stop_ctx <$> Manager.m_stops m.
Proof.
  intros Hl H. assert (Hset : ∀ i old new, Manager.m_stops m !! i = Some old → stop_ctx new = stop_ctx old →
    stop_ctx <$> <[i := new]> (Manager.m_stops m) = stop_ctx <$> Manager.m_stops m).
  { intros i old new Hi E. rewrite list_fmap_insert, E. apply list_insert_id. by rewrite list_lookup_fmap, Hi. }
  destruct l as [| |i|i|i|i e|j o]; simpl in *; try discriminate; unfold Manager.runOne_ends, Manager.set_stop in H;
    repeat (case_match; try discriminate); injection H as <-; simpl; rewrite ?length_insert; split_and!; try done; eauto.
Qed.

(** Nothing of the manager is called before its turn, and [main] stops it once. *)
Record process_ok (p : Process) : Prop := {
  po_workers : Manager.manager_ok (p_workers p);
  po_once : (length (Manager.m_ctxs (p_workers p)) <= 1)%nat;
  po_early : p_serving p ∈ [EnsuringBucket; StartingWorkers] → Manager.m_ctxs (p_workers p) = [];
  po_running : p_stopper p ≠ Called → Manager.m_stops (p_workers p) = [] ∧
    (Manager.m_ctxs (p_workers p) = [] ∨ Manager.m_cancel (p_workers p) = Some 0%nat);
  po_called : p_stopper p = Called → ∃ s, Manager.m_stops (p_workers p) = [s];
  po_spawned : p_main p = Selecting ↔ p_stopper p = NotSpawned;
  po_http : p_serving p ∈ [EnsuringBucket; StartingWorkers; Routing] → p_http p = None;
  po_accepting : p_serving p ∈ [Binding; Accepting] → p_http p ≠ None;
  po_idle : p_http p = None → p_requests p = 0%nat;
  po_awaiting : p_main p = AwaitingIdle → p_http p = Some true;
  po_open : p_main p = Selecting ∨ p_main p = ClosingHttp → p_http p ≠ Some true }.

Lemma NewServer_ok k : process_ok (NewServer k).
Proof. constructor; simpl; try done; [apply Manager.NewManager_ok|lia|by split; [|left]|set_solver]. Qed.

Section Steps.
Context (front_error : option Err).
#[local] Abbreviation exec := (process_exec front_error).

Lemma inner_ok l m p : process_ok p → Manager.is_call l = false → Manager.exec l (p_workers p) = Next m → process_ok (with_workers m p).
Proof.
  intros H Hl E. destruct (inner_step _ _ _ Hl E) as (Hlen & Hc & Hs).
  assert (Hnil : Manager.m_ctxs (p_workers p) = [] → Manager.m_ctxs m = []) by (intros En; rewrite En in Hlen; by apply nil_length_inv).
  constructor; simpl; try apply H.
  - pose proof (Manager.exec_ok l (p_workers p) (po_workers _ H)) as Hk. by rewrite E in Hk.
  - rewrite Hlen. apply H.
  - intros He. by apply Hnil, H.
  - intros Hn. destruct (po_running _ H Hn) as [E1 E2]. rewrite E1 in Hs. simpl in Hs. apply fmap_nil_inv in Hs. split; [done|].
    rewrite Hc. destruct E2; [left; auto|by right].
  - intros Hcalled. destruct (po_called _ H Hcalled) as (s & E1). rewrite E1 in Hs. destruct (Manager.m_stops m) as [|s' [|? ?]]; try discriminate. eauto.
Qed.

Lemma Start_once p : process_ok p → p_serving p = StartingWorkers →
  process_ok (serving Routing (with_workers (Manager.Start (p_workers p)) p)).
Proof.
  intros H E. assert (Hnil : Manager.m_ctxs (p_workers p) = []) by (apply H; rewrite E; set_solver).
  assert (Hc : Manager.m_cancel (p_workers p) = None).
  { destruct (Manager.m_cancel (p_workers p)) as [c|] eqn:Ec; [|done]. pose proof (Manager.mo_current _ (po_workers _ H) c Ec) as Hx. by rewrite Hnil in Hx. }
  constructor; simpl; try apply H.
  - apply Manager.Start_ok, H.
  - unfold Manager.Start. rewrite Hc, Hnil. simpl. lia.
  - set_solver.
  - intros Hn. destruct (po_running _ H Hn) as [E1 _]. unfold Manager.Start. rewrite Hc, Hnil. simpl. split; [done|by right].
  - intros Hcalled. destruct (po_called _ H Hcalled) as (s & E1). unfold Manager.Start. rewrite Hc. simpl. eauto.
  - intros _. apply H. rewrite E. set_solver.
  - set_solver.
Qed.

Lemma Stop_once p : process_ok p → p_stopper p = Spawned →
  process_ok (mkProcess (p_serving p) (p_main p) Called (p_http p) (p_requests p) (p_sockets p) (Manager.Stop (p_workers p))).
Proof.
  intros H E. destruct (po_running _ H ltac:(by rewrite E)) as [E1 E2]. constructor; simpl; try apply H; try done.
  - apply Manager.Stop_ok, H.
  - intros _. rewrite E1. simpl. eauto.
  - pose proof (po_spawned _ H) as Hs. rewrite E in Hs. naive_solver.
Qed.

Ltac process_step H := constructor; simpl; try apply H; try set_solver.

Lemma Listen_ok l p p' : process_ok p → ListenAndServe_step front_error l p = Next p' → process_ok p'.
Proof.
  intros H E. unfold ListenAndServe_step in E.
  destruct l as [[e|]| | |err| | | | |e| | | | | | | |?], (p_serving p) eqn:Es; try discriminate; repeat (case_match; try discriminate); injection E as <-;
    try by apply Start_once.
  all: pose proof (po_early _ H) as He; pose proof (po_http _ H) as Hh; pose proof (po_accepting _ H) as Ha; pose proof (po_awaiting _ H) as Hw; rewrite Es in He, Hh, Ha.
  all: try (constructor; simpl; try apply H; set_solver).
Qed.
Lemma Shutdown_ok l p p' : process_ok p → Shutdown_step l p = Next p' → process_ok p'.
Proof.
  intros H E. unfold Shutdown_step in E.
  destruct l as [[e|]| | |err| | | | |e| | | | | | | |?], (p_main p) eqn:Em; try discriminate; repeat (case_match; try discriminate); injection E as <-.
  all: pose proof (po_spawned _ H) as Hs; pose proof (po_open _ H) as Ho; rewrite Em in Hs, Ho.
  all: try (constructor; simpl; try apply H; naive_solver).
  all: constructor; simpl; try apply H; try naive_solver.
  - intros _. apply H. by rewrite (proj1 Hs eq_refl).
  - intros _. apply H. by rewrite (proj1 Hs eq_refl).
  - intros Hat. apply (po_http _ H) in Hat. congruence.
Qed.

Lemma process_exec_cases l p p' : exec l p = Next p' → (∀ err, p_main p ≠ Exited err) ∧
  (ListenAndServe_step front_error l p = Next p' ∨ Shutdown_step l p = Next p' ∨
   (∃ n k, (n <= p_requests p)%nat ∧ p' = with_sockets k (with_requests n p)) ∨
   (l = LStopWorkers ∧ p_stopper p = Spawned ∧
    p' = mkProcess (p_serving p) (p_main p) Called (p_http p) (p_requests p) (p_sockets p) (Manager.Stop (p_workers p))) ∨
   ∃ l' m, l = LWorker l' ∧ Manager.is_call l' = false ∧ Manager.exec l' (p_workers p) = Next m ∧ p' = with_workers m p).
Proof.
  unfold process_exec. intros E. split; [intros err Em; by rewrite Em in E|].
  assert (Hc : ∀ (x y : Step Process), match p_main p with Exited _ => x | _ => y end = Next p' → (x = Waits) → y = Next p').
  { intros x y Hxy ->. by destruct (p_main p). }
  destruct (p_main p) eqn:Em; try discriminate; destruct l; try (by left); try (by right; left);
    right; right; repeat (case_match; try discriminate); injection E as <-;
    first [by (left; eexists _, (p_sockets p); split; [|reflexivity]; lia) | by (left; eexists _, _; split; [|reflexivity]; simpl; lia) | by eauto 10].
Qed.

Lemma process_exec_ok l p p' : process_ok p → exec l p = Next p' → process_ok p'.
Proof.
  intros H [_ E]%process_exec_cases.
  destruct E as [E|[E|[(n & k & En & ->)|[(_ & Es & ->)|(l' & m & _ & Hl & E & ->)]]]].
  - by eapply Listen_ok.
  - by eapply Shutdown_ok.
  - constructor; simpl; try apply H. intros Hh. apply (po_idle _ H) in Hh. lia.
  - by apply Stop_once.
  - by eapply inner_ok.
Qed.
Lemma process_never_crashes l p : process_ok p → exec l p ≠ Crashes.
Proof.
  intros H. pose proof (λ l, Manager.exec_ok l _ (po_workers _ H)) as Hw. unfold process_exec, ListenAndServe_step, Shutdown_step.
  repeat case_match; try done.
  all: match goal with E : Manager.exec ?l _ = Crashes |- _ => specialize (Hw l); by rewrite E in Hw end.
Qed.
Lemma process_reached_ok k p : reached exec (NewServer k) p → process_ok p.
Proof. apply (reached_invariant exec process_ok); [apply NewServer_ok|]. intros l s s'. apply process_exec_ok. Qed.


(** *** The end *)

(** [ListenAndServe] has served or has given up. *)
Definition settled (p : Process) : Prop := match p_serving p with EnsuringBucket | StartingWorkers | Routing => False | _ => True end.
(** From there on the workers that run are the ones [main] stops. *)
Record closing (p : Process) : Prop := {
  cl_ok : process_ok p;
  cl_settled : settled p;
  cl_stop : p_stopper p = Called → ∃ s, Manager.m_stops (p_workers p) = [s] ∧ (Manager.m_ctxs (p_workers p) = [] ∨ stop_ctx s = Some 0%nat);
  cl_idle : p_main p = JoiningWorkers None ∨ p_main p = Exited None → p_requests p = 0%nat ∧ (p_http p = None ∨ p_http p = Some true);
  cl_joined err : p_main p = Exited err → ∃ c e, Manager.m_stops (p_workers p) = [Manager.Stopped c e] ∧ (err = None → e = None) }.

Lemma selecting_closing p : process_ok p → settled p → p_main p = Selecting → closing p.
Proof.
  intros H Hs Hm. constructor; rewrite ?Hm; try done; [|naive_solver].
  apply (po_spawned _ H) in Hm. by rewrite Hm.
Qed.

Lemma Listen_closing l p p' : closing p → (∀ err, p_main p ≠ Exited err) → ListenAndServe_step front_error l p = Next p' → closing p'.
Proof.
  intros C Hne E. pose proof (Listen_ok _ _ _ (cl_ok _ C) E) as Hok. pose proof (cl_settled _ C) as Hs. pose proof (cl_idle _ C) as Hi. unfold settled in Hs.
  unfold ListenAndServe_step in E.
  destruct l as [[e|]| | |err| | | | |e| | | | | | | |?], (p_serving p) eqn:Es; try discriminate; try contradiction;
    repeat (case_match; try discriminate); injection E as <-.
  all: constructor; try done; try apply C.
  simpl. intros Hm. apply Hi in Hm as [_ Hm]. apply bool_decide_eq_true in H. naive_solver.
Qed.
Lemma Shutdown_closing l p p' : closing p → (∀ err, p_main p ≠ Exited err) → Shutdown_step l p = Next p' → closing p'.
Proof.
  intros C Hne E. pose proof (Shutdown_ok _ _ _ (cl_ok _ C) E) as Hok. pose proof (cl_idle _ C) as Hi. pose proof (po_idle _ (cl_ok _ C)) as Hn. pose proof (po_awaiting _ (cl_ok _ C)) as Ha.
  pose proof (cl_stop _ C) as Hst.
  unfold Shutdown_step in E.
  destruct l as [[e|]| | |err| | | | |e| | | | | | | |?], (p_main p) eqn:Em; try discriminate; repeat (case_match; try discriminate); injection E as <-.
  all: constructor; try done; try apply C; simpl; rewrite ?Em in *; try done; try apply Nat.eqb_eq in H; naive_solver.
Qed.
Lemma closing_step l p p' : closing p → exec l p = Next p' → closing p'.
Proof.
  intros C E0. pose proof (process_exec_ok _ _ _ (cl_ok _ C) E0) as Hok. apply process_exec_cases in E0 as [Hne E].
  destruct E as [E|[E|[(n & k & En & ->)|[(_ & Es & ->)|(l' & m & _ & Hl & E & ->)]]]].
  - by eapply Listen_closing.
  - by eapply Shutdown_closing.
  - constructor; try done; try apply C. simpl. intros Hm. destruct (cl_idle _ C Hm) as [E0 E1]. split; [lia|exact E1].
  - constructor; try done; try apply C; simpl; [|by intros err []%Hne]. intros _.
    destruct (po_running _ (cl_ok _ C) ltac:(by rewrite Es)) as [E1 E2]. rewrite E1. eexists. split; [done|].
    destruct E2 as [E2| ->]; [by left|by right].
  - destruct (inner_step _ _ _ Hl E) as (Hlen & _ & Hst). constructor; try done; try apply C; simpl; [|by intros err []%Hne].
    intros Hc. destruct (cl_stop _ C Hc) as (s & Es & Hs). rewrite Es in Hst. destruct (Manager.m_stops m) as [|s' [|? ?]]; try discriminate.
    injection Hst as Hst. exists s'. rewrite Hst. split; [done|]. destruct Hs as [Hs|Hs]; [left|by right]. rewrite Hs in Hlen. by apply nil_length_inv.
Qed.

(** C40. Once [ListenAndServe] serves or has failed, whatever steps follow, when
    [main] ends without an error no worker is running and no request that
    [http.Server] tracks is being served: the deadline of the shutdown is the
    only way to leave either.  Connections that were taken over, the relays of
    /resonite-link/ws, are no such requests: they may still be served then
    ([socket_outlives_shutdown]) and are cut off by the end of the process. *)
Theorem clean_exit k p0 p : reached exec (NewServer k) p0 → settled p0 → p_main p0 = Selecting →
  reached exec p0 p → p_main p = Exited None →
  p_requests p = 0%nat ∧ ∀ g, g ∈ Manager.m_gos (p_workers p) → Manager.live g = false.
Proof.
  intros Hr0%process_reached_ok Hset Hsel Hr He.
  assert (C : closing p) by (revert Hr; apply (reached_invariant exec closing); [by apply selecting_closing|apply closing_step]).
  split; [by apply (cl_idle _ C); right|]. intros g Hg. destruct (cl_joined _ C _ He) as (c & e & Es & Hn).
  specialize (Hn eq_refl) as ->. pose proof (cl_ok _ C) as H. pose proof (Manager.goroutine_ctx _ g (po_workers _ H) Hg) as Hlt.
  pose proof (po_once _ H). destruct (cl_stop _ C) as (s & Es' & Hs).
  { destruct (p_stopper p) eqn:Est; [|exfalso|done].
    - apply (po_spawned _ H) in Est. congruence.
    - destruct (po_running _ H ltac:(by rewrite Est)) as [E1 _]. congruence. }
  rewrite Es in Es'. injection Es' as <-. destruct Hs as [Hs|[= ->]]; [by rewrite Hs in Hlt; simpl in Hlt; lia|].
  apply (Manager.mo_drained _ (po_workers _ H) (Manager.Stopped (Some 0%nat) None) 0%nat); [rewrite Es; by left|done|done|lia].
Qed.

(** *** The deadline *)

Definition main_rank (m : Main) : nat := match m with Selecting => 4 | ClosingHttp => 3 | AwaitingIdle => 2 | JoiningWorkers _ => 1 | Exited _ => 0 end.
Definition shutdown_rank (p : Process) : nat :=
  main_rank (p_main p) + (match p_stopper p with Called => 0 | _ => 4 end) + Manager.sum_ranks (Manager.m_stops (p_workers p)).
(** The steps [main] and the goroutine of [Stop] take once the deadline of the shutdown has passed with [e]. *)
Definition deadline_labels (e : Err) : list ProcessLabel :=
  [LCloseHttp; LHttpDeadline e; LStopWorkers; LWorker (Manager.LCancel 0); LWorker (Manager.LTimeout 0 e); LJoin].
Lemma deadline_step e p : process_ok p → p_main p ≠ Selecting → (∀ err, p_main p ≠ Exited err) →
  ∃ l p', l ∈ deadline_labels e ∧ exec l p = Next p' ∧ (shutdown_rank p' < shutdown_rank p)%nat ∧ p_main p' ≠ Selecting.
Proof.
  intros H Hs Hne. unfold shutdown_rank. destruct (p_main p) as [| | |httpErr|err] eqn:Em; [done| | | |by destruct (Hne err)].
  - exists LCloseHttp. unfold process_exec, Shutdown_step. rewrite Em.
    destruct (p_http p); eexists; (split; [set_solver|split; [done|split; [simpl; lia|done]]]).
  - exists (LHttpDeadline e). unfold process_exec, Shutdown_step. rewrite Em.
    eexists; (split; [set_solver|split; [done|split; [simpl; lia|done]]]).
  - destruct (p_stopper p) eqn:Est.
    + apply (po_spawned _ H) in Est. congruence.
    + exists LStopWorkers. unfold process_exec. rewrite Em, Est. destruct (po_running _ H ltac:(by rewrite Est)) as [E1 _].
      eexists. split; [set_solver|]. split; [done|]. simpl. rewrite ?Em, E1. split; [|done].
      destruct (Manager.m_cancel (p_workers p)); simpl; unfold Manager.sum_ranks; simpl; lia.
    + destruct (po_called _ H Est) as (s & E1). destruct s as [c|c|c|c werr].
      * exists (LWorker (Manager.LCancel 0)). unfold process_exec, Manager.exec. rewrite Em, E1. simpl.
        eexists. split; [set_solver|]. split; [done|]. simpl. rewrite ?Em, ?Est, ?E1. unfold Manager.sum_ranks; simpl. split; [lia|done].
      * exists (LWorker (Manager.LTimeout 0 e)). unfold process_exec, Manager.exec. rewrite Em, E1. simpl.
        eexists. split; [set_solver|]. split; [done|]. simpl. rewrite ?Em, ?Est, ?E1. unfold Manager.sum_ranks; simpl. split; [lia|done].
      * exists (LWorker (Manager.LTimeout 0 e)). unfold process_exec, Manager.exec. rewrite Em, E1. simpl.
        eexists. split; [set_solver|]. split; [done|]. simpl. rewrite ?Em, ?Est, ?E1. unfold Manager.sum_ranks; simpl. split; [lia|done].
      * exists LJoin. unfold process_exec, Shutdown_step. rewrite Em, E1. eexists. split; [set_solver|]. split; [done|]. simpl. rewrite ?Est, ?E1. unfold Manager.sum_ranks; simpl. split; [lia|done].
Qed.

(** Whatever the workers and the requests do, or do not do, a shutdown that has
    begun can end as soon as its deadline has passed, by steps of [main] and of
    the goroutine of [Stop] alone. *)
Theorem shutdown_meets_deadline k p e : reached exec (NewServer k) p → p_main p ≠ Selecting →
  ∃ ls p' err, Forall (λ l, l ∈ deadline_labels e) ls ∧ exec_all exec ls p = Next p' ∧ p_main p' = Exited err.
Proof.
  intros H%process_reached_ok. remember (shutdown_rank p) as n eqn:En. revert p H En.
  induction n as [n IH] using lt_wf_ind. intros p H -> Hs.
  assert ((∃ err, p_main p = Exited err) ∨ ∀ err, p_main p ≠ Exited err) as [[err Em]|Hne] by (destruct (p_main p); eauto; by right);
    [by exists [], p, err|].
  destruct (deadline_step e p H Hs Hne) as (l & p1 & Hl & E & Hlt & Hs1).
  destruct (IH _ Hlt p1) as (ls & p' & err & Hls & Hx & Hp); [by eapply process_exec_ok|done|done|].
  exists (l :: ls), p', err. split; [by constructor|]. simpl. by rewrite E.
Qed.
End Steps.

(** *** Runs *)

(** A signal while the server accepts requests: the request and the worker end, and so does [main]. *)
Definition serve_run : list ProcessLabel := [LBucket None; LStartWorkers; LRoute; LBind None; LRequest].
Definition stop_run : list ProcessLabel :=
  [LSignal; LCloseHttp; LServeEnds (EMsg "use of closed network connection"); LStopWorkers; LWorker (Manager.LCancel 0); LRequestEnds; LHttpIdle;
   LWorker (Manager.LEnds 0 (Manager.Returned None)); LWorker (Manager.LDrained 0); LWorker (Manager.LReturn 0); LJoin].
(** A signal that arrives while the bucket is ensured: [Stop] returns before
    the workers are started, and [main] ends while a worker runs. *)
Example stop_overtakes_start :
  ∃ p, exec_all (process_exec None) [LBucket None; LSignal; LCloseHttp; LStopWorkers; LStartWorkers; LJoin] (NewServer 1) = Next p ∧
    p_main p = Exited None ∧ Manager.live_count (Manager.m_gos (p_workers p)) = 1%nat ∧ Manager.m_cancel (p_workers p) = Some 0%nat.
Proof. eexists. repeat split. Qed.
(** A web socket does not hold the shutdown up: [main] ends without an error
    while it is still relayed. *)
Example socket_outlives_shutdown :
  ∃ p, exec_all (process_exec None) (serve_run ++ [LHijack; LSignal; LCloseHttp; LHttpIdle; LStopWorkers; LWorker (Manager.LCancel 0);
      LWorker (Manager.LEnds 0 (Manager.Returned None)); LWorker (Manager.LDrained 0); LWorker (Manager.LReturn 0); LJoin]) (NewServer 1) = Next p ∧
    p_main p = Exited None ∧ p_requests p = 0%nat ∧ p_sockets p = 1%nat.
Proof. eexists. split; [vm_compute; reflexivity|]. split; [|split]; reflexivity. Qed.
(** A server that cannot start ends as if all were well. *)
Example failed_start : ∃ p, exec_all (process_exec None)
    [LBucket (Some (EMsg "connection refused")); LServerError; LCloseHttp; LStopWorkers; LJoin] (NewServer 1) = Next p ∧
  p_main p = Exited None.
Proof. eexists. repeat split. Qed.
End Process.

Lemma clean_exit_witness : ∃ p, exec_all (Process.process_exec None) (Process.serve_run ++ Process.stop_run) (Process.NewServer 1) = Next p ∧
  Process.p_main p = Process.Exited None ∧ Manager.m_gos (Process.p_workers p) ≠ [] ∧
  (∀ g, g ∈ Manager.m_gos (Process.p_workers p) → Manager.live g = false).
Proof.
  eexists. split; [vm_compute; reflexivity|]. split; [reflexivity|]. split; [discriminate|].
  set (p0 := Process.mkProcess Process.Accepting Process.Selecting Process.NotSpawned (Some false) 1 0 (Manager.Start (Manager.NewManager 1))).
  apply (Process.clean_exit None 1 p0); [|exact I|reflexivity| |reflexivity].
  - apply (exec_all_reached (Process.process_exec None) _ Process.serve_run (Process.NewServer 1)); [apply reached_init|vm_compute; reflexivity].
  - apply (exec_all_reached (Process.process_exec None) _ Process.stop_run p0); [apply reached_init|vm_compute; reflexivity].
Defined.
Lemma shutdown_meets_deadline_witness : ∃ p ls p' err, exec_all (Process.process_exec None) (Process.serve_run ++ [Process.LSignal]) (Process.NewServer 1) = Next p ∧
  Forall (λ l, l ∈ Process.deadline_labels (EMsg "deadline")) ls ∧ exec_all (Process.process_exec None) ls p = Next p' ∧ Process.p_main p' = Process.Exited err.
Proof.
  eexists. destruct (Process.shutdown_meets_deadline None 1
    (Process.mkProcess Process.Accepting Process.ClosingHttp Process.Spawned (Some false) 1 0 (Manager.Start (Manager.NewManager 1))) (EMsg "deadline"))
    as (ls & p' & err & H1 & H2 & H3); [|done|].
  - apply (exec_all_reached (Process.process_exec None) _ (Process.serve_run ++ [Process.LSignal]) (Process.NewServer 1)); [apply reached_init|vm_compute; reflexivity].
  - exists ls, p', err. split; [vm_compute; reflexivity|]. split; [exact H1|]. split; [exact H2|exact H3].
Defined.

Module Blobs.
(** ** Blobs *)

(** [http.CanonicalHeaderKey]: words between hyphens start with a capital,
    unless a byte is not one of a token *)
Definition token_char (c : ascii) : bool :=
  let n := nat_of_ascii c in
  ((48 <=? n) && (n <=? 57) || (65 <=? n) && (n <=? 90) || (97 <=? n) && (n <=? 122) ||
   bool_decide (n ∈ [33; 35; 36; 37; 38; 39; 42; 43; 45; 46; 94; 95; 96; 124; 126]))%nat.
Definition ascii_upper (c : ascii) : ascii :=
  let n := nat_of_ascii c in if ((97 <=? n) && (n <=? 122))%nat then ascii_of_nat (n - 32) else c.
Fixpoint canonical_from (upper : bool) (s : string) : string :=
  match s with
  | EmptyString => EmptyString
  | String c s' => String (if upper then ascii_upper c else ascii_lower c) (canonical_from (bool_decide (c = "-"%char)) s')
  end.
Fixpoint all_chars (p : ascii → bool) (s : string) : bool := match s with EmptyString => true | String c s' => p c && all_chars p s' end.
Definition http_CanonicalHeaderKey (s : string) : string := if all_chars token_char s then canonical_from true s else s.

(** [url.PathEscape] *)
Definition path_char (c : ascii) : bool := unreserved c || bool_decide (nat_of_ascii c ∈ [36; 38; 43; 58; 61; 64]%nat).
Fixpoint url_PathEscape (s : string) : string :=
  match s with
  | EmptyString => EmptyString
  | String c s' =>
      let n := nat_of_ascii c in
      if path_char c then String c (url_PathEscape s')
      else String "%" (String (hex_upper (n / 16)) (String (hex_upper (n mod 16)) (url_PathEscape s')))
  end.

(** An object as the store answers it, or why it does not. *)
Record Object : Type := mkObject { o_Data : list Z; o_ContentType : string; o_UserMetadata : list (string * string) }.
Inductive Stat : Type := Found (o : Object) | StatError (StatusCode : Z) (Code : string) (err : Err).

(** The operations of the minio client; [GetObject] and [Stat] together. *)
Class ObjectStore : Type := {
  Store : Type;
  BucketExists : string → M Store bool;
  MakeBucket : string → M Store unit;
  SetBucketLifecycle : string → string → Z → M Store unit;
  PutObject : string → string → Object → M Store unit;
  StatObject : string → string → Store → Stat }.
(** What was put is there, with the keys of its metadata in some case. *)
Class StoreLaws {OS : ObjectStore} : Prop := {
  put_stat b k o s s' : PutObject b k o s = (Ok tt, s') →
    ∃ meta, StatObject b k s' = Found (mkObject (o_Data o) (o_ContentType o) meta) ∧
      Forall2 (λ m m0, http_CanonicalHeaderKey (fst m) = http_CanonicalHeaderKey (fst m0) ∧ snd m = snd m0) meta (o_UserMetadata o) }.

Definition filenameMetaKey : string := "filename".
Definition lifecycleRuleID : string := "expire-old-blobs".
Definition ErrNotFound : Err := EMsg "blob not found".

(** the value of a key in any case; the order of the map is the list's *)
Fixpoint decodeFilenameMeta (meta : list (string * string)) : string :=
  match meta with
  | [] => EmptyString
  | (k, v) :: meta' =>
      if bool_decide (http_CanonicalHeaderKey k = http_CanonicalHeaderKey filenameMetaKey)
      then match url_QueryUnescape v with Some decoded => decoded | None => v end
      else decodeFilenameMeta meta'
  end.

Section Client.
Context {OS : ObjectStore} (bucket : string) (ttl : Z).

Definition EnsureBucket : M Store unit :=
  let* exists_ := BucketExists bucket in
  (if exists_ : bool then ret tt else MakeBucket bucket) ;;;
  SetBucketLifecycle bucket lifecycleRuleID ttl.
Definition octet_stream (contentType : string) : string :=
  if bool_decide (contentType = EmptyString) then "application/octet-stream" else contentType.
Definition Upload (key : string) (data : list Z) (filename contentType : string) : M Store unit :=
  PutObject bucket key (mkObject data (octet_stream contentType) [(filenameMetaKey, url_QueryEscape filename)]).
Definition GetObject (key : string) (s : Store) : Result (list Z * Z * string * string) :=
  match StatObject bucket key s with
  | Found o => Ok (o_Data o, Z.of_nat (length (o_Data o)), o_ContentType o, decodeFilenameMeta (o_UserMetadata o))
  | StatError status code e => if (status =? 404)%Z || bool_decide (code = "NoSuchKey") then Fail ErrNotFound else Fail e
  end.

(** *** Downloads *)

(** A plain error, or the headers and what follows them. *)
Inductive Answer : Type := HttpError (message : string) (status : Z) | Blob (headers : list (string * string)) (body : option (list Z)).
Context (uuid_Parse : string → bool).
Definition blob_headers (length : Z) (contentType filename : string) : list (string * string) :=
  [("Content-Type", octet_stream contentType); ("Content-Length", fmt_d length);
   ("Content-Disposition", if bool_decide (filename = EmptyString) then "attachment" else "attachment; filename*=UTF-8''" +:+ url_PathEscape filename);
   ("Cache-Control", "no-store")].
Definition makeBlobHandler (method uuidStr : string) (s : Store) : Answer :=
  if negb (uuid_Parse uuidStr) then HttpError "invalid uuid" 400
  else match GetObject uuidStr s with
       | Fail e => if bool_decide (e = ErrNotFound) then HttpError "not found" 404 else HttpError "internal error" 500
       | Ok (data, length, contentType, filename) =>
           Blob (blob_headers length contentType filename) (if bool_decide (method = "HEAD") then None else Some data)
       end.
End Client.

(** *** The front end

    [spaFileHandler]: the file a path asks for, or the page for all others. *)
Definition spa_file (exists_ : string → bool) (urlPath : string) : Result string :=
  match urlPath with
  | EmptyString => Fail (EPanic "runtime error: slice bounds out of range [1:0]")
  | String _ rest =>
      let filePath := if bool_decide (rest = EmptyString) then "index.html" else rest in
      Ok (if exists_ filePath then filePath else "index.html")
  end.

Lemma octet_stream_idem t : octet_stream (octet_stream t) = octet_stream t.
Proof. unfold octet_stream at 2 3. case_bool_decide; [done|]. unfold octet_stream. by rewrite bool_decide_false. Qed.

(** What was uploaded under an id is downloaded under it: the same bytes, with
    its type and, escaped, the name it was given, whatever case the store puts
    the keys of its metadata in; the head of it comes without the bytes. *)
Theorem uploaded_is_downloaded (OS : ObjectStore) (SL : StoreLaws) bucket uuid_Parse key data filename contentType method s s' :
  uuid_Parse key = true → Upload bucket key data filename contentType s = (Ok tt, s') →
  makeBlobHandler bucket uuid_Parse method key s' =
    Blob (blob_headers (Z.of_nat (length data)) contentType filename) (if bool_decide (method = "HEAD") then None else Some data).
Proof.
  intros Hk Hu. apply put_stat in Hu as (meta & Hs & Hm). unfold makeBlobHandler, GetObject. rewrite Hk, Hs. simpl.
  inversion Hm as [|[k v] y meta' y' [Hc Hv] Hm' E1 E2]; subst. inversion Hm'; subst. simpl in *. subst v.
  rewrite bool_decide_true by done. rewrite unescape_escape. unfold blob_headers. by rewrite octet_stream_idem.
Qed.
End Blobs.

Module Cli.
(** ** The command line *)

(** A line a command prints, or one it prints as an error. *)
Inductive Line : Type := Out (text : string) | OutJson (j : Json) | ErrOut (text : string) (err : option Err).
(** every command runs as the system user *)
Definition cli_context (ctx : Ctx) : Ctx := WithActAsUser ctx SystemUserID.
(** a call whose error is printed; a panic ends the process *)
Definition reported {A} (text : string) (m : Go A) (k : A → Go (list Line)) : Go (list Line) :=
  let* r := attempt m in match r with Ok a => k a | Fail (EPanic v) => fail (EPanic v) | Fail e => ret [ErrOut text (Some e)] end.

Section Users.
Context {BC : Bcrypt} {SF : Skyfrost}.
Context {GR : GroupRepository} {RR : RoleRepository} {MR : GroupMemberRepository}.

Definition system_admin_add (ctx : Ctx) (userID : string) : Go (list Line) :=
  reported "Failed to add system-admin:" (AddGroupMember (cli_context ctx) SystemGroupID userID SeedRoleID_SystemAdmin (Some SystemUserID))
    (λ _, ret [Out ("system-admin granted to " +:+ userID)]).
Definition system_admin_remove (ctx : Ctx) (userID : string) : Go (list Line) :=
  reported "Failed to remove system-admin:" (RemoveGroupMember (cli_context ctx) SystemGroupID userID)
    (λ _, ret [Out ("system-admin revoked from " +:+ userID)]).

Definition user_invite (ctx : Ctx) (resoniteId : string) : Go (list Line) :=
  let* r := attempt (FetchUserInfo resoniteId) in
  match r with
  | Fail e => ret [ErrOut "Failed to validate Resonite ID:" (Some e); ErrOut "Please check if the Resonite ID is correct." None]
  | Ok userInfo =>
      reported "Failed to create registration token:" (CreateRegistrationToken true (cli_context ctx) resoniteId EmptyString) (λ token,
      ret [Out "Registration link generated successfully!"; Out ("for Resonite User: " +:+ UI_UserName userInfo +:+ " (ID: " +:+ UI_ID userInfo +:+ ")");
           Out "Valid for: 24 hours"; Out "Registration URL:"; Out ("https://<your base URL>/register/" +:+ token)])
  end.
Definition user_create (ctx : Ctx) (id password resoniteId personalRoleID : string) : Go (list Line) :=
  reported EmptyString (CreateUser true (cli_context ctx) id password resoniteId personalRoleID) (λ _,
  reported "Failed validate created user:" (GetUserWithPassword id password) (λ _,
  ret [Out "User created successfully"])).
Definition user_delete (ctx : Ctx) (id : string) : Go (list Line) :=
  reported EmptyString (DeleteUser (cli_context ctx) id) (λ _, ret [Out "User deleted successfully"]).
End Users.

Section Scheduled.
Context {SP : StartupParameters} {US : UUIDScan}.

Fixpoint strings_ToLower (s : string) : string := match s with EmptyString => EmptyString | String c s' => String (ascii_lower c) (strings_ToLower s') end.
(** no letter of the statuses is the lower case of one outside ASCII *)
Definition parseStatus (s : string) : Result Z :=
  let l := strings_ToLower s in
  if bool_decide (l = "pending") then Ok ScheduledOperationStatus_PENDING
  else if bool_decide (l = "running") then Ok ScheduledOperationStatus_RUNNING
  else if bool_decide (l = "succeeded") then Ok ScheduledOperationStatus_SUCCEEDED
  else if bool_decide (l = "failed") then Ok ScheduledOperationStatus_FAILED
  else if bool_decide (l = "canceled") then Ok ScheduledOperationStatus_CANCELED
  else Fail (EMsg ("unknown status: " +:+ s)).

Definition opt_json (o : option string) : Json := match o with Some s => JStr s | None => JNull end.
Definition RFC3339_seconds (t : Instant) : string := appendFormatRFC3339 (t / time_Second * time_Second)%Z.
Definition printScheduledOp (e : ScheduledSessionOperation) : Line :=
  OutJson (JObj [("id", JStr (op_ID e)); ("operation", JInt (op_OperationType e)); ("trigger", JInt (op_TriggerType e));
    ("next_fire_at", JStr (RFC3339_seconds (op_NextFireAt e))); ("status", JInt (op_Status e)); ("host_id", opt_json (op_HostID e));
    ("session_id", opt_json (op_SessionID e)); ("last_error", opt_json (op_LastError e));
    ("executed_at", opt_json (RFC3339_seconds <$> op_ExecutedAt e))]).
Definition scheduled_list (ctx : Ctx) (sessionID hostID status : string) : Go (list Line) :=
  let flag s := if bool_decide (s = EmptyString) then None else Some s in
  let* st := (if bool_decide (status = EmptyString) then ret None else let* s := lift (parseStatus status) in ret (Some s)) in
  let* result := Usecase_List (cli_context ctx) (mkOpListFilter (flag sessionID) (flag hostID) st 0 0 None) in
  match olr_Items result with
  | [] => ret [Out "No scheduled operations found"]
  | l => ret (printScheduledOp <$> l)
  end.
Definition scheduled_cancel (ctx : Ctx) (id : string) : Go (list Line) :=
  on_err (λ e, if errors_Is e ErrScheduledOperationNotCancelable then EWrap "not cancelable in its current status" e else e)
    (Usecase_Cancel (cli_context ctx) id) ;;;
  ret [Out ("Canceled scheduled operation " +:+ id)].
Definition scheduled_create_stop (ctx : Ctx) (sessionID at_ : string) : Go (list Line) :=
  if bool_decide (sessionID = EmptyString) then fail (EMsg "--session is required")
  else if bool_decide (at_ = EmptyString) then fail (EMsg "--at is required (RFC3339)")
  else match parseRFC3339 at_ with
       | None => fail (EMsg "invalid --at")
       | Some t =>
           let* created := Usecase_Create (cli_context ctx)
             (mkCreateParams (Some (StopSessionAction sessionID)) (Some (TimeTrigger t)) None (Some sessionID) (Some SystemUserID)) in
           ret [Out ("Created scheduled stop operation " +:+ op_ID created +:+ " at " +:+ RFC3339_seconds (op_NextFireAt created))]
       end.
End Scheduled.

Section Hosts.
Definition status_name (status : Z) : string :=
  if (status =? HeadlessHostStatus_STARTING)%Z then "STARTING" else if (status =? HeadlessHostStatus_RUNNING)%Z then "RUNNING"
  else if (status =? HeadlessHostStatus_STOPPING)%Z then "STOPPING" else if (status =? HeadlessHostStatus_EXITED)%Z then "EXITED"
  else if (status =? HeadlessHostStatus_CRASHED)%Z then "CRASHED" else if (status =? HeadlessHostStatus_UNKNOWN)%Z then "UNKNOWN" else EmptyString.
Definition host_list {CM : ConfigMessages} {CC : ContainerClient} {CN : HostConnector} : Go (list Line) :=
  reported "Failed to list hosts:" HostUC_List (λ hosts,
  match hosts with
  | [] => ret [Out "No hosts found"]
  | _ => ret ((λ h, Out ("ID: " +:+ hh_ID h +:+ ", Name: " +:+ hh_Name h +:+ ", Status: " +:+ status_name (hh_Status h))) <$> hosts)
  end).

(** The goroutine of one host, and a run of all of them one after the other in
    the order the scheduler lets them go. *)
Definition host_goroutine (failed succeeded : string) (call : HeadlessHost → Go unit) (h : HeadlessHost) : Go (list Line) :=
  reported ("Failed to " +:+ failed +:+ " host " +:+ hh_Name h +:+ ":") (call h)
    (λ _, ret [Out ("Host " +:+ hh_Name h +:+ " " +:+ succeeded +:+ " successfully")]).
Fixpoint run_goroutines (go : HeadlessHost → Go (list Line)) (hosts : list HeadlessHost) : Go (list Line) :=
  match hosts with
  | [] => ret []
  | h :: hosts' => let* l := go h in let* ls := run_goroutines go hosts' in ret (l ++ ls)
  end.
Definition on_all_hosts {CM : ConfigMessages} {CC : ContainerClient} {CN : HostConnector} (scheduled : list HeadlessHost → list HeadlessHost)
    (go : HeadlessHost → Go (list Line)) (succeeded : string) : Go (list Line) :=
  reported "Failed to list hosts:" HostUC_List (λ hosts,
  let* lines := run_goroutines go (scheduled hosts) in
  ret (lines ++ [Out ("All hosts " +:+ succeeded +:+ " successfully")])).
Definition host_restart_all {SP : StartupParameters} {CM : ConfigMessages} {CC : ContainerClient} {CN : HostConnector}
    (scheduled : list HeadlessHost → list HeadlessHost) (ctx : Ctx) (timeout : Z) : Go (list Line) :=
  on_all_hosts scheduled (host_goroutine "restart" "restarted" (λ h, HostUC_Restart (cli_context ctx) (hh_ID h) None true timeout)) "restarted".
Definition host_shutdown_all {SP : StartupParameters} {CM : ConfigMessages} {CC : ContainerClient} {CN : HostConnector}
    (scheduled : list HeadlessHost → list HeadlessHost) (ctx : Ctx) : Go (list Line) :=
  on_all_hosts scheduled (host_goroutine "shutdown" "shutdown" (λ h, HostUC_Shutdown (cli_context ctx) (hh_ID h))) "shutdown".
End Hosts.

(** *** Legacy hosts *)

(** A container with the label of the port, if any, and what inspecting it shows. *)
Record LegacyContainer : Type := mkLegacy { lc_ID : string; lc_Names : list string; lc_Port : option string; lc_Running : bool }.
Record Environment : Type := mkEnvironment { en_credential : string; en_password : string; en_startupConfig : string }.
Definition env_add (e : Environment) (env : string) : Environment :=
  match CutPrefix env "HeadlessUserCredential=" with
  | Some after => mkEnvironment after (en_password e) (en_startupConfig e)
  | None => match CutPrefix env "HeadlessUserPassword=" with
            | Some after => mkEnvironment (en_credential e) after (en_startupConfig e)
            | None => match CutPrefix env "StartupConfig=" with
                      | Some after => mkEnvironment (en_credential e) (en_password e) after
                      | None => e
                      end
            end
  end.
Definition read_environment (env : list string) : Environment := fold_left env_add env (mkEnvironment EmptyString EmptyString EmptyString).
Definition container_name (name : string) : string :=
  match name with
  | String c rest => if bool_decide (c = "/"%char) && negb (bool_decide (rest = EmptyString)) then rest else name
  | EmptyString => name
  end.

Section Import.
Context {SF : Skyfrost} {SK : SkyfrostClient}.
(** the Docker client of the command, and how the database reads a jsonb *)
Context (client_New : Go unit) (ContainerList : Go (list LegacyContainer)) (ContainerInspect : string → Go (list string * string)).
Context (jsonb : string → option Json).

Definition legacy_params (c : LegacyContainer) (port name userId startedAt : string) (config : Json) : CreateHostParams :=
  mkCreateHost (lc_ID c) name (if lc_Running c then HeadlessHostStatus_RUNNING else HeadlessHostStatus_EXITED) userId (Some SystemUserID) config 1
    "docker" (lc_ID c +:+ ":" +:+ port) (parseRFC3339 startedAt) HostAutoUpdatePolicy_NEVER (Some EmptyString) 0 MigratedGroupID.

Definition import_one (c : LegacyContainer) : Go (list Line) :=
  match lc_Port c, lc_Names c with
  | Some port, n :: _ =>
      let name := container_name n in
      let* found := attempt (GetHost (lc_ID c)) in
      match found with
      | Ok _ => ret []
      | Fail _ =>
          reported "Error inspecting container:" (ContainerInspect (lc_ID c)) (λ inspected,
          let env := read_environment (fst inspected) in
          if bool_decide (en_credential env = EmptyString) || bool_decide (en_password env = EmptyString)
          then ret [ErrOut ("Host " +:+ name +:+ " does not have HeadlessUserCredential or HeadlessUserPassword") None]
          else
            reported "Error logging in headless account:" (UserLogin (en_credential env) (en_password env)) (λ userId,
            let config := if bool_decide (en_startupConfig env = EmptyString) then "{}" else en_startupConfig env in
            let* created := attempt (match jsonb config with
                                     | Some j => CreateHost (legacy_params c port name userId (snd inspected) j)
                                     | None => fail (EMsg "invalid input syntax for type json")
                                     end) in
            ret (match created with Ok _ => [] | Fail e => [ErrOut "Error creating host:" (Some e)] end ++
                 [Out ("Imported host: " +:+ name +:+ " (ID: " +:+ lc_ID c +:+ ")")])))
      end
  | _, _ => ret []
  end.
Fixpoint import_all (cs : list LegacyContainer) : Go (list Line) :=
  match cs with
  | [] => ret []
  | c :: cs' => let* l := import_one c in let* ls := import_all cs' in ret (l ++ ls)
  end.
Definition import_legacy_hosts : Go (list Line) :=
  let* lines := reported "Error creating Docker client:" client_New (λ _,
                reported "Error listing Docker containers:" ContainerList import_all) in
  ret (Out "Importing legacy hosts..." :: lines).
End Import.

(** *** Theorems *)

(** The hosts that were there stay as they are, and those that are new belong
    to the group of what came before the groups, are the system's, and are
    never upgraded on their own. *)
Definition legacy_row (id : string) (row : HostRow) : Prop :=
  ho_ID row = id ∧ ho_GroupID row = MigratedGroupID ∧ ho_CreatedBy row = Some SystemUserID ∧ ho_AutoUpdatePolicy row = HostAutoUpdatePolicy_NEVER ∧
  (ho_Status row = HeadlessHostStatus_RUNNING ∨ ho_Status row = HeadlessHostStatus_EXITED).
Definition imports (d d' : DB) : Prop :=
  (∃ hosts, d' = set_hosts (λ _, hosts) d) ∧ t_hosts d ⊆ t_hosts d' ∧
  ∀ id row, t_hosts d' !! id = Some row → t_hosts d !! id = Some row ∨ legacy_row id row.
#[local] Instance imports_preorder : PreOrder imports.
Proof.
  split.
  - intros d. split; [exists (t_hosts d); by destruct d|]. split; [done|by left].
  - intros d1 d2 d3 ([h1 ->] & H1 & N1) ([h2 ->] & H2 & N2). split; [by exists h2|]. split; [by transitivity h1|].
    intros id row Hr. destruct (N2 id row Hr) as [Hr'|]; [by apply N1|by right].
Qed.
Lemma CreateHost_imports c port name userId startedAt j : preserves (db_rel imports) (CreateHost (legacy_params c port name userId startedAt j)).
Proof.
  apply preserves_exec; [apply _|]. intros t d row d'. unfold x_CreateHost, check. destruct (negb _) eqn:E; [|done].
  destruct (present _ (t_groups d)); [|done]. destruct (opt_present _ _); [|done]. simpl. intros [= <- <-].
  apply negb_true_iff in E. unfold present in E. apply bool_decide_eq_false, eq_None_not_Some in E. simpl in E. split; [eexists (<[lc_ID c := _]> (t_hosts d)); by destruct d|].
  split; [by apply insert_subseteq|]. simpl. intros id row [[<- <-]|[_ ?]]%lookup_insert_Some; [right|by left].
  split_and!; try done. simpl. destruct (lc_Running c); [by left|by right].
Qed.
Lemma abroad_imports {A} (m : Go A) : preserves abroad m → preserves (db_rel imports) m.
Proof. apply preserves_weaken. intros w w' (E & _). unfold db_rel. by rewrite E. Qed.
Lemma preserves_reported {A} R `{!PreOrder R} text (m : Go A) k : preserves R m → (∀ a, preserves R (k a)) → preserves R (reported text m k).
Proof. intros Hm Hk. unfold reported. preserve. Qed.

Section ImportSafety.
Context {SF : Skyfrost} {SK : SkyfrostClient} {SL : SkyfrostLaws}.
Context (client_New : Go unit) (ContainerList : Go (list LegacyContainer)) (ContainerInspect : string → Go (list string * string)) (jsonb : string → option Json).
Context (New_abroad : preserves abroad client_New) (List_abroad : preserves abroad ContainerList) (Inspect_abroad : ∀ id, preserves abroad (ContainerInspect id)).

Lemma import_one_adds c : preserves (db_rel imports) (import_one ContainerInspect jsonb c).
Proof.
  unfold import_one. destruct (lc_Port c) as [port|]; [|apply preserves_ret; apply _]. destruct (lc_Names c) as [|n ns]; [apply preserves_ret; apply _|].
  apply preserves_bind; [apply _|apply preserves_attempt, preserves_query; apply _|]. intros [?|?]; [apply preserves_ret; apply _|].
  apply preserves_reported; [apply _|by apply abroad_imports|]. intros [env startedAt]. destruct (_ || _); [apply preserves_ret; apply _|].
  apply preserves_reported; [apply _|apply abroad_imports, UserLogin_abroad|]. intros userId. cbv zeta.
  apply preserves_bind; [apply _| |intros; apply preserves_ret; apply _]. apply preserves_attempt.
  destruct (jsonb _); [apply CreateHost_imports|apply preserves_fail; apply _].
Qed.
(** Importing adds hosts and changes nothing else, however it fails on the way. *)
Theorem import_only_adds w : db_rel imports w (snd (import_legacy_hosts client_New ContainerList ContainerInspect jsonb w)).
Proof.
  assert (Hall : ∀ cs, preserves (db_rel imports) (import_all ContainerInspect jsonb cs)).
  { induction cs as [|c cs IH]; simpl; [apply preserves_ret; apply _|]. apply preserves_bind; [apply _|apply import_one_adds|]. intros l.
    apply preserves_bind; [apply _|done|]. intros ls. apply preserves_ret; apply _. }
  assert (H : preserves (db_rel imports) (import_legacy_hosts client_New ContainerList ContainerInspect jsonb)); [|apply H].
  unfold import_legacy_hosts. apply preserves_bind; [apply _| |intros; apply preserves_ret; apply _].
  apply preserves_reported; [apply _|by apply abroad_imports|]. intros []. apply preserves_reported; [apply _|by apply abroad_imports|apply Hall].
Qed.
End ImportSafety.

(** What restarting or stopping hosts may do to all of them together. *)
Record fleet (d d' : DB) : Prop := mkFleet {
  fl_others : d' = set_checkpoints (λ _, t_checkpoints d') (set_container_logs (λ _, t_container_logs d')
                     (set_sessions (λ _, t_sessions d') (set_hosts (λ _, t_hosts d') d)));
  fl_host id : host_edited (t_hosts d !! id) (t_hosts d' !! id);
  fl_kept sid : kept (t_sessions d !! sid) (t_sessions d' !! sid);
  fl_ended sid r : t_sessions d' !! sid = Some r → t_sessions d !! sid = Some r ∨ se_Status r = SessionStatus_ENDED }.
#[local] Instance fleet_preorder : PreOrder fleet.
Proof.
  split; [intros d; split; [by destruct d|intros; reflexivity|intros; reflexivity|by left]|].
  intros d1 d2 d3 [O1 H1 K1 E1] [O2 H2 K2 E2]. constructor.
  - rewrite O2, O1. by destruct d1, d2, d3.
  - intros id. etrans; [apply H1|apply H2].
  - intros sid. etrans; [apply K1|apply K2].
  - intros sid r Hr. destruct (E2 sid r Hr) as [Hr'|]; [by apply E1|by right].
Qed.
Definition keyed (d : DB) : Prop := sessions_keyed d ∧ hosts_keyed d.
(** From keyed tables to keyed tables. *)
Definition keyed_fleet (d d' : DB) : Prop := keyed d → fleet d d' ∧ keyed d'.
#[local] Instance keyed_fleet_preorder : PreOrder keyed_fleet.
Proof. split; [intros d H; by split|]. intros d1 d2 d3 H12 H23 [F1 K2]%H12. destruct (H23 K2) as [F2 K3]. split; [by etrans|done]. Qed.
Lemma touches_fleet id d d' : touches id (running_ids id d) d d' → keyed_fleet d d'.
Proof.
  intros Ht [Hs Hh]. split; [|split; [|by eapply hosts_keyed_touches]]; pose proof Ht as [O H E S1 N _ _].
  - constructor; [done| |intros sid; apply N|].
    + intros i. destruct (decide (i = id)) as [->|Hne]; [done|]. by rewrite H.
    + intros sid r Hr. destruct (N sid) as [_ Hn]. destruct (Hn r Hr) as [Eq|[? _]]; [left; congruence|by right].
  - intros sid r Hr. destruct (decide (sid ∈ running_ids id d)) as [Hin|Hout]; [|rewrite S1 in Hr by done; by apply Hs].
    apply elem_of_running_ids in Hin as (r0 & Hr0 & _). destruct (proj1 (N sid) r0 Hr0) as (r1 & Hr1 & Hid & _).
    rewrite Hr in Hr1. injection Hr1 as <-. rewrite Hid. by apply Hs.
Qed.
Lemma guarded_fleet ctx id (m : Go unit) : (∀ w, keyed (w_db w) → host_guarded ctx id (w_db w) (w_db (m w).2)) → preserves (db_rel keyed_fleet) m.
Proof.
  intros Hm w Hk. destruct (Hm w Hk) as [E|(row & _ & _ & Ht)]; [rewrite E; by split|]. by apply (touches_fleet id).
Qed.

Section Fleet.
Context {SP : StartupParameters} {CM : ConfigMessages} {CC : ContainerClient} {CN : HostConnector} {CL : ConnectorLaws}.
Context (scheduled : list HeadlessHost → list HeadlessHost).

(** What a goroutine prints: one line, whether its host followed or not. *)
Definition host_line (failed succeeded : string) (h : HeadlessHost) (l : Line) : Prop :=
  l = Out ("Host " +:+ hh_Name h +:+ " " +:+ succeeded +:+ " successfully") ∨
  ∃ e, l = ErrOut ("Failed to " +:+ failed +:+ " host " +:+ hh_Name h +:+ ":") (Some e).
Lemma run_goroutines_lines failed succeeded call hosts w lines w' :
  run_goroutines (host_goroutine failed succeeded call) hosts w = (Ok lines, w') → Forall2 (host_line failed succeeded) hosts lines.
Proof.
  revert w lines w'. induction hosts as [|h hosts IH]; simpl; intros w lines w'; [by intros [= <- _]|].
  intros (l & w1 & Hl & (ls & w2 & Hls & [= <- _])%bind_inv_Ok)%bind_inv_Ok. apply IH in Hls.
  unfold host_goroutine, reported in Hl. apply bind_inv_Ok in Hl as (r & w3 & _ & Hr).
  destruct r as [a|e]; [injection Hr as <- _; constructor; [by left|done]|].
  destruct e; try discriminate; injection Hr as <- _; (constructor; [right; by eexists|done]).
Qed.
Lemma on_all_hosts_fleet go succeeded : (∀ h, preserves (db_rel keyed_fleet) (go h)) → preserves (db_rel keyed_fleet) (on_all_hosts scheduled go succeeded).
Proof.
  intros Hgo. assert (Hrun : ∀ hosts, preserves (db_rel keyed_fleet) (run_goroutines go hosts)).
  { induction hosts as [|h hosts IH]; simpl; [apply preserves_ret; apply _|]. apply preserves_bind; [apply _|apply Hgo|]. intros l.
    apply preserves_bind; [apply _|done|]. intros ls. apply preserves_ret; apply _. }
  apply preserves_reported; [apply _| |].
  - assert (preserves (db_rel eq) HostUC_List) as Hl; [|intros w Hk; rewrite <-(Hl w); by split].
    unfold HostUC_List, HostRepo_ListAll, ListHosts. pose proof dbHostsToEntities_same. preserve.
  - intros hosts. apply preserves_bind; [apply _|apply Hrun|]. intros ls. apply preserves_ret; apply _.
Qed.
Lemma host_goroutine_fleet failed succeeded call h : preserves (db_rel keyed_fleet) (call h) →
  preserves (db_rel keyed_fleet) (host_goroutine failed succeeded call h).
Proof. intros H. apply preserves_reported; [apply _|exact H|]. intros []. apply preserves_ret; apply _. Qed.

(** In whatever order their hosts are served, the two commands leave hosts the
    same or gone, sessions as they were or ended, and every other table alone. *)
Theorem all_hosts_keep_fleet ctx timeout w : keyed (w_db w) →
  fleet (w_db w) (w_db (host_restart_all scheduled ctx timeout w).2) ∧ fleet (w_db w) (w_db (host_shutdown_all scheduled ctx w).2).
Proof.
  intros Hk. split; (refine (proj1 (on_all_hosts_fleet _ _ _ w Hk)); intros h; apply host_goroutine_fleet).
  - apply (guarded_fleet (cli_context ctx) (hh_ID h)). intros w1 [Hs Hh]. by apply Restart_guarded.
  - apply (guarded_fleet (cli_context ctx) (hh_ID h)). intros w1 [Hs Hh]. by apply Shutdown_guarded.
Qed.
End Fleet.

(** Every host that is listed gets its line, and the line that all of them
    followed is printed whatever those lines say. *)
Theorem on_all_hosts_output {CM : ConfigMessages} {CC : ContainerClient} {CN : HostConnector} scheduled failed succeeded call w w1 lines w' hosts :
  (∀ l, scheduled l ≡ₚ l) → HostUC_List w = (Ok hosts, w1) →
  on_all_hosts scheduled (host_goroutine failed succeeded call) succeeded w = (Ok lines, w') →
  ∃ shown printed, shown ≡ₚ hosts ∧ Forall2 (host_line failed succeeded) shown printed ∧
    lines = printed ++ [Out ("All hosts " +:+ succeeded +:+ " successfully")].
Proof.
  intros Hp Hl H. unfold on_all_hosts, reported in H. rewrite (bind_Ok _ _ _ _ _ (attempt_run _ _ _ _ Hl)) in H.
  apply bind_inv_Ok in H as (printed & w2 & Hr & [= <- _]). exists (scheduled hosts), printed.
  split; [apply Hp|]. split; [by eapply run_goroutines_lines|done].
Qed.



(** Scheduling a stop from the command line fails and changes nothing, or adds
    one pending operation that stops that session at that time. *)
Theorem create_stop_exact {SP : StartupParameters} {US : UUIDScan} ctx sessionID at_ w r w' :
  scheduled_create_stop ctx sessionID at_ w = (r, w') →
  (w_db w' = w_db w ∧ is_Ok r = false) ∨
  ∃ t cfg id, parseRFC3339 at_ = Some t ∧ Trigger_Marshal (TimeTrigger t) = Ok cfg ∧ t_scheduled_ops (w_db w) !! id = None ∧
    let row := new_op_row id (op_params (StopSessionAction sessionID) (TimeTrigger t) cfg None (Some sessionID) (Some SystemUserID) (w_now w)) (w_now w) in
    w_db w' = set_scheduled_ops (<[id := row]>) (w_db w).
Proof.
  unfold scheduled_create_stop. case_bool_decide; [intros [= <- <-]; by left|]. case_bool_decide; [intros [= <- <-]; by left|].
  destruct (parseRFC3339 at_) as [t|]; [|intros [= <- <-]; by left].
  intros [(e & Hc & ->)|(op & w1 & Hc & H2)]%bind_inv; apply Usecase_Create_run in Hc as [[Hdb [e' He]]|(g & u & cfg & id & _ & _ & _ & Hm & _ & Hid & Hdb & _)].
  - by left.
  - right. by exists t, cfg, id.
  - done.
  - injection H2 as _ <-. right. by exists t, cfg, id.
Qed.

(** Granting the administration of the system adds exactly that membership. *)
Theorem system_admin_add_exact ctx userID w text w' : store_ok (w_db w) → system_admin_add ctx userID w = (Ok [Out text], w') →
  t_group_members (w_db w) !! (SystemGroupID, userID) = None ∧
  w_db w' = set_group_members (<[(SystemGroupID, userID) := mkGroupMemberRow SystemGroupID userID SeedRoleID_SystemAdmin (Some SystemUserID) (Some (w_now w))]>) (w_db w).
Proof.
  intros Hok. unfold system_admin_add, reported. intros (r & w1 & H & H2)%bind_inv_Ok. unfold attempt in H.
  destruct (AddGroupMember _ _ _ _ _ w) as [[m|e] w2] eqn:E; injection H as <- <-; [|by destruct e]. injection H2 as _ <-.
  by apply AddGroupMember_Ok in E as (_ & _ & _ & _ & _ & _ & _ & Hn & Hdb).
Qed.
End Cli.
